(* ===== verification/_CoqProject ===== *)
-Q . S2P
Prelude.v
CString.v
CFloat.v
TwoState.v
LineIpc.v
DesktopEntry.v
DesktopClaims.v
ConfigFile.v
Sections.v
ConfigClaims.v
MimeFile.v
MimeProof.v
MimeClaims.v
ConfigRead.v
Display.v
DisplayProof.v
DisplayClaims.v
FmFiles.v
FmTrash.v
FmFilesProof.v
FmDisk.v
FmDiskProof.v
FmMoveProof.v
FmTrashProof.v
FmMoves.v
FmClaims.v
FmJobs.v
FmJobsProof.v
FmJobsClaims.v
FmWindow.v
FmActions.v
FmHistory.v
FmEvents.v
FmWindowClaims.v
FmActionsClaims.v
CalcMachine.v
CalcDispatch.v
CalcSafety.v
CalcArith.v
CalcEval.v
MountdDevices.v
MountdOps.v
MountdBus.v
MountdSafety.v
MountdProof.v
MountdTheorems.v
MountdClaims.v
WmCore.v
WmPlace.v
WmDesk.v
WmDesktops.v
WmEvents.v
WmDispatch.v
WmSafety.v
WmPointers.v
WmHandlers.v
WmLifecycle.v
WmGeometry.v
WmClaims.v
WmSpec.v
WmStill.v
WmDesktopClaims.v
DmCore.v
DmProc.v
DmIpc.v
DmRun.v
DmSafety.v
DmHandlers.v
DmLock.v
DmAlive.v
DmGreeter.v
DmClaims.v
SessCore.v
SessBus.v
SessRun.v
SessInhibit.v
SessSafety.v
SessSupervise.v
SessEnd.v
SessClaims.v
