(* ===== verification/Prelude.v ===== *)
(** * Verification of ISDE, the InfiSystems Desktop Environment

    ISDE is a desktop environment in C: a window manager, a panel, a file
    manager, a display manager, a mount daemon and small applications.  This
    library models the parts that carry their own logic and proves what makes
    them correct.  Seven programs, the file manager but for
    its sidebar and thumbnails, and some shared components are modelled.

    ** The parts, and where they are

    - The calculator ([calc/src]).  Two keypads (infix and reverse Polish) drive
      one state of static variables.  [CString] is C strings in fixed arrays,
      [CFloat] binary64 arithmetic with the conversions of [printf] and [sscanf];
      [CalcMachine] has the handlers of [math.c], one definition per function
      and of the same name, over the record [calc] of its static variables;
      [CalcDispatch] has [calc_do_op], the actions and tables of [actions.c] and
      the button arrays and key translations of [main.c].
    - The mount daemon ([mountd/src]).  Requests on the system bus and udev
      events act on a list of at most 64 devices.  [MountdDevices] has the list
      ([devices.c]) and the interface to the kernel, [MountdOps] mounting,
      unmounting, ejecting and LUKS ([mount_ops.c], [luks.c]), [MountdBus] the
      bus methods, the udev platform and the main loop ([dbus.c],
      [platform_linux.c], [mountd.c]).
    - The window manager ([platform/X11/wm/src]).  X events, timers and settings
      signals act on a list of clients.  [WmCore] has the records of [wm.h],
      work areas, monitors, gravity, frames, timers and the EWMH lists
      ([wm.c], [frame.c], [ewmh.c]); [WmPlace] placement, maximizing,
      fullscreen and snapping ([placement.c], [wm.c]); [WmDesk] focus, stacking,
      minimizing, the switcher and removal ([wm.c], [switcher.c]);
      [WmDesktops] the virtual desktops, resize synchronisation and timer
      expiry ([desktops.c], [wm.c]); [WmEvents] pointer events, the window menu
      and title bar buttons ([wm.c], [frame.c]); [WmDispatch] keys, client
      messages, dispatch and the main loop ([keys.c], [wm.c]).
    - Desktop entries ([platform/X11/common/desktop.c]), which the display
      manager and others read: [DesktopEntry] has the parser, visibility, MIME
      lists, command lines and the directory scan, over the interface
      [FileSystem].
    - The display manager ([dm/src]).  It runs the X server, a greeter and a
      user's session, and takes messages from the greeter's socket, the bus, the
      seat and the lid.  [DmCore] has its state ([dm.h]) and its calls, [DmProc]
      PAM, seat, X server, greeter, session, lock and power ([auth.c], [seat.c],
      [session.c], [greeter_proc.c], [power.c]), [DmIpc] the socket ([ipc.c]),
      [DmRun] the bus, start-up and the rounds of the main loop ([dbus.c],
      [dm.c], [main.c], [platform_linux.c]).
    - The greeter ([dm/src/greeter]): [DmGreeter], on the other end of that
      socket.  Both ends receive lines in the same way; the loop is [LineIpc],
      over the interface [LineBuffer] of a state with a receive buffer.

    - The session manager ([platform/X11/session/src],
      [platform/common/session]).  It starts the window manager, the panel and
      the autostart entries, restarts what crashes, keeps the inhibitors of the
      screen saver, asks for confirmation before power actions and ends the
      session.  [SessCore] has its record, its calls, [child.c] and
      [autostart.c]; [SessBus] the messages of both buses and the confirmation
      overlay ([dbus.c], [session.c]); [SessRun] settings, timers, start-up, the
      main loop and the clean-up ([session.c], [main.c]).

    - Configuration files and file types ([platform/common]), which settings,
      panel, file manager and others share.  [ConfigFile] has the writer of
      settings ([isde-config-write.c]) and the disk it works on, [MimeFile] the
      types of files and the applications that open them ([isde-mime.c]).  Both
      edit files of sections; [Sections] says which line a reader of such a file
      finds and what a line put at a [spot] changes.

    - The file manager ([fm/src]).  [FmFiles] has copying, deleting, counting and free names, [FmTrash] the trash, restoring
      and the bodies of the jobs ([fileops.c], [jobqueue.c]), on calls that any
      system answers (the class [Posix]).  [FmDisk] is one such system: a tree
      of directories, links and files with several devices, the permissions of the
      owner, the lengths of names and paths, the file mode mask, open files and
      directory handles, on which the operations can be run.  [FmJobs] is the
      queue of jobs between the main and the worker thread ([jobqueue.c]) with the
      progress timers ([dialogs.c]): jobs on a heap, two linked lists, a condition
      and a pipe.  A schedule says which thread runs next, up to the point where
      the other can come in, and which callbacks the toolkit makes.  A window is the
      record [Fm] of [FmWindow]: reading and sorting directories, the history, the
      watch, opening, type-ahead search ([browser.c], [navigate.c], [navbar.c],
      [shortcuts.c], [fileview.c]); [FmActions] has clipboard, dialogs, context
      menu and drag and drop ([clipboard.c], [dialogs.c], [context.c], [dnd.c],
      [actions.c]) and the handler [handle] of every event of a window.
      Directories, file types and scripts are classes there.

    - The display daemon ([displayd/src/main.c], with [platform/X11/common/randr.c])
      switches monitors on and off.  [Display] observes what is connected, plans a mode
      and place for each output from the profile of the configuration that fits the
      monitors, and applies the plans, at start-up, when told to and after a hotplug.
      What it reads of [isde.toml] goes through the handles of [ConfigRead]
      ([isde-config.c]), which are cells of a pool; the vendored parser is the class
      [Toml].

    ** How C is represented

    A function that touches state is a program [prog S A] of this file: it maps
    a state to [Ok] with a value and a state, or to a [Fault], which is an
    access out of bounds (a dangling pointer included) or a processor trap.
    Struct fields are record fields, [r <| f := v |>] is assignment.  Integers
    are [Z] wrapped at the width of the C type where the width is visible
    ([s16], [u16], [s32], [u32], [s64], [u64]).  A pointer to a window manager
    client is the client's window; [deref] faults when no client in the list
    has it, so using a freed client is a fault.  What is outside the program is
    a type class: [Libm] for the mathematics library, [Kernel] for system
    calls, libcryptsetup and libudev, [XServer] for the replies of the X
    server, [System] for what the display manager calls (system calls, PAM,
    libseat, the bus, the parsed configuration), [Desk] for the greeter's
    widgets and socket, [Host] for what the session manager calls, [RandR] for the
    server of the display daemon, [Toml] for a parsed configuration, [Qsort] for the C
    library's sort.
    Most answer each call from the history of calls so far, so that nothing is
    assumed about two equal calls giving equal answers; each call is recorded in
    the state, in order.  A forked child is a run of its program on a copy of
    the state; its calls are recorded apart.

    Loops over lists are structural.  The loops of [equf] and [rparf] pop an
    operator stack of at most [STACKMAX] = 32 cells and get [STACKMAX] as fuel;
    [stack_loops_terminate] shows that more fuel changes nothing.  The line loop
    of [LineIpc] moves forward by at least one byte a round and gets the length
    of the buffer; [process_lines_run] shows that this is enough.  The list
    search of [DesktopEntry] gets the length of the list for the same reason.
    The main loops take the list of events, or of what poll reports, as their
    input.  The file operations call themselves for every entry of a directory,
    and the depth of directories is known to the system only: they get fuel, and
    a run whose fuel was not enough has no value (but still its calls).  On
    [FmDisk] twice the [extent] of the file system is enough, and the theorems
    there say that the operation ends.

    ** What the theorems show

    - [CalcSafety] (proof rules and the invariant of the display string) and
      [CalcArith], [CalcEval] (the meaning of keys): memory safety of every key
      sequence without EE and base; infix chains compute the operator-stack
      evaluation of their numbers, which is their reading by priority for
      shallow chains; numbers typed are numbers read; the reverse Polish keys;
      the error state; the loops end.  The sequences that do leave the
      display array, trap, or lose an operator are theorems too.
    - [MountdSafety] (what each operation preserves), [MountdProof] and
      [MountdTheorems] (outcomes), [MountdClaims]: every mount call obeys the
      policy, for every kernel, every configuration and every list of events;
      tracked paths are distinct; mount, unmount and eject refine their abstract
      outcomes; the mount table is read correctly; LUKS containers are closed
      on failure, but for two paths.
    - [WmSafety] (proof rules), [WmPointers], [WmHandlers], [WmLifecycle] (the
      pointer invariant, one preservation lemma per operation), [WmGeometry]
      (rectangles) and [WmClaims]: no event uses a stale pointer, with the two
      exceptions shown; placement inside the work area; round trips of
      maximizing and gravity; grip drags; snapping.  [WmSpec] states desktop
      operations as functions on the state and shows that the programs compute
      them; [WmStill] what each operation leaves alone, and the Alt-Tab order;
      [WmDesktopClaims] the desktop invariant of the main loop, switching and new
      grids.
    - [DesktopClaims]: any file is read without a fault, a printed entry is read
      back, visibility and command lines mean what the specification says.
    - [TwoState] has the rules for two-state properties ([steps]) and
      invariants ([safely]) that the display manager's proofs use.  [DmSafety]
      (what all operations keep, in one bundle [tame]) and [DmHandlers] (the
      invariant [Good] through messages, rounds, start-up and clean-up) give the
      first theorems of [DmClaims]: no access out of bounds, no session without
      an accepted password, no program of a session before root is given up.
      [DmLock] shows what can open a locked screen, [DmAlive] that the screen is
      never left without a greeter or a session, and the one case where it is.
      [DmClaims] also connects greeter and daemon: whatever the reads, a login
      is one check of what was typed.  They are run on a concrete system.

    - [SessInhibit] reads the two arrays of inhibitors as a bag and shows each
      message to be a step of it, with the screen following; [SessSafety] has the
      invariant of the session manager with its log of calls, one preservation
      lemma per operation; [SessSupervise] that no component gets lost in a
      round; [SessEnd] the clean-up, with the time it may sleep, and the
      autostart file, colors and deadlines.  [SessClaims] draws the theorems from
      them, two on what goes wrong (a lost overlay, a settings change that
      ignores inhibitors), and runs them.
    - [ConfigClaims]: writing a setting changes one line or puts in one, or a
      section, at the place where a reader of lines looks for it, and keeps all
      others ([line_put]); the last of two writes counts, a removed section is
      gone; [MimeProof] and [MimeClaims]: the type of a file is that of the best
      glob, the default that is set is found, and the lengths of lists for which
      setting it leaves the array.  Values and files outside the conditions of
      these theorems are examples there.

    - [FmFilesProof]: what the file operations may call on any system, in runs
      that end and in runs that do not, and the grammar of what a deletion, a
      complete copy and a move have called ([delete_story], [copy_story],
      [move_story]); [FmDiskProof], [FmMoveProof],
      [FmTrashProof] and [FmMoves] what they do to the trees of
      [FmDisk].  [FmClaims]: copying, deleting and moving refine operations on
      trees ([plant], [prune], [graft]), a move has the same effect within a
      device and across devices and deletes only what was copied, deleting stays
      below its path and follows no link, and what is thrown away comes back.  The
      conditions on names, permissions and lengths are definitions there
      ([can_copy], [can_move], [can_trash]), and so are runs outside of them.
    - [FmJobsProof]: in every schedule each job is in exactly one place (with the
      worker, in the queue, among the finished ones, in the list that is being
      freed).  [FmJobsClaims]: so jobs are run in order and freed once, nobody
      sleeps on a filled queue or misses a finished job, and quitting ends after a
      bounded number of turns unless a job does not end or the pipe is full.  Whether a job is cancelled is an answer of the
      system in the bodies of jobs ([Cancelled]), since the button may be pressed
      at any time; how much the pipe holds is a parameter.
    - [FmHistory] (the cells of the history, which may be freed, and the abstract
      history [pages]), [FmEvents] (each event with its hazards and its effect on
      the history) and [FmWindowClaims]: comparisons make sense, so [qsort]
      sorts; a window crashes on the hazards and on nothing else, its history is that of a browser up to 64 pages, a directory
      is listed completely and in order, the steps of the type-ahead search undo
      each other.  [FmActionsClaims]: pasting in another window, the places of the
      context menu, and its item Delete, which takes other files than it asks
      about; then a concrete world, and runs that the code does not mean to have.

    - [DisplayProof] gives a RandR server as the protocol documents it and shows what
      observing, planning and applying make of it, up to [apply_config].
      [DisplayClaims]: monitors end up as configured; the daemon, which takes the
      events of its own changes for a hotplug, comes to rest after two rounds; the best
      mode is chosen; the key of a profile stands for the set of monitors.
      [ConfigRead] has the life of a handle: 63 more look-ups.

    ** Not modelled

    Drawing and widgets; the compositor (a build option that is off); in the
    window manager the adoption of new windows ([on_map_request],
    [frame_create]), window titles, property changes, startup notification and
    set-up; in [desktop.c] the starting of programs and its startup messages; in
    the greeter the construction of its widgets; the FreeBSD platforms; and the
    programs that are mostly user interface (panel, settings, terminal); in the
    file manager the sidebar, thumbnails, icons, devices, the daemon and what
    the toolkit does with the widgets; in the session manager the painting of the background and the overlay itself.  The
    vendored parsers (tomlc99, nanosvg, kplot) are third-party code.  [malloc]
    is taken to succeed. *)

From stdpp Require Export base tactics option list numbers sets strings.
From stdpp Require Import sorting.
From Stdlib Require Export ZArith Lia.

(** ** Record update

    The C sources mutate fields of one big static state; the models thread a
    record instead.  [r <| f := v |>] is the record [r] with the field [f]
    replaced.  A record type joins by giving its eta-expansion. *)

Class RecEta (R : Type) := { rec_eta : R → R }.
Class FieldUpd {R T : Type} (proj : R → T) := field_upd : (T → T) → R → R.

Ltac build_field_upd proj :=
  lazymatch type of proj with
  | ?R → ?T =>
    let i := constr:(_ : RecEta R) in
    let e := eval hnf in (@rec_eta R i) in
    lazymatch eval pattern proj in e with
    | ?g _ => exact (fun (f : T → T) (r : R) => g (fun r' => f (proj r')) r)
    end
  end.

#[export] Hint Extern 0 (FieldUpd ?p) => build_field_upd p : typeclass_instances.

Declare Scope c_scope.
Delimit Scope c_scope with C.

Notation "r <| p := v |>" := (field_upd (proj := p) (fun _ => v) r)
  (at level 1, p at level 200, v at level 200, left associativity,
   format "r  <| p  :=  v |>") : c_scope.
Open Scope c_scope.

(** ** Programs

    A C function that works on a state [S] and may go wrong is a [prog S A]:
    it returns a value and the new state, or stops with a fault.
    [OutOfBounds] is a write or a scan outside an object (undefined behaviour
    in C), [Trap] is a hardware trap (integer division by zero) that kills the
    process. *)

Inductive fault := OutOfBounds | Trap.

#[export] Instance fault_eq_dec : EqDecision fault.
Proof. solve_decision. Defined.

Inductive res (S A : Type) :=
  | Ok (a : A) (s : S)
  | Fault (f : fault).
Arguments Ok {S A} a s.
Arguments Fault {S A} f.

Definition prog (S A : Type) : Type := S → res S A.

#[export] Instance prog_ret S : MRet (prog S) := fun A a s => Ok a s.
#[export] Instance prog_bind S : MBind (prog S) :=
  fun A B k m s => match m s with Ok a s' => k a s' | Fault f => Fault f end.

Definition gets {S A} (f : S → A) : prog S A := fun s => Ok (f s) s.
Definition modify {S} (f : S → S) : prog S unit := fun s => Ok tt (f s).
Definition raise {S A} (f : fault) : prog S A := fun _ => Fault f.
Definition skip {S} : prog S unit := mret tt.

(** [when b m] is [if (b) m]. *)
Definition when {S} (b : bool) (m : prog S unit) : prog S unit :=
  if b then m else skip.

(** [lift_oob f] runs a partial state transformer: [None] is an access out of
    bounds. *)
Definition lift_oob {S} (f : S → option S) : prog S unit :=
  fun s => match f s with Some s' => Ok tt s' | None => Fault OutOfBounds end.

Definition state_of {S A} (r : res S A) : option S :=
  match r with Ok _ s => Some s | Fault _ => None end.

(** *** Weakest preconditions: [wp E m Q s] says that [m] started in [s] either
    ends in a value and state satisfying [Q], or stops with a fault that [E]
    allows. *)
Section Wp.
Context {S : Type} (E : fault → Prop).

Definition wp {A} (m : prog S A) (Q : A → S → Prop) (s : S) : Prop :=
  match m s with Ok a s' => Q a s' | Fault f => E f end.

Lemma wp_bind {A B} (m : prog S A) (k : A → prog S B) Q s :
  wp m (fun a s' => wp (k a) Q s') s → wp (m ≫= k) Q s.
Proof. unfold wp, mbind, prog_bind. by destruct (m s). Qed.

Lemma wp_ret {A} (a : A) Q s : Q a s → wp (mret a) Q s.
Proof. done. Qed.

Lemma wp_gets {A} (f : S → A) Q s : Q (f s) s → wp (gets f) Q s.
Proof. done. Qed.

Lemma wp_modify (f : S → S) Q s : Q tt (f s) → wp (modify f) Q s.
Proof. done. Qed.

Lemma wp_raise {A} f (Q : A → S → Prop) s : E f → wp (raise f) Q s.
Proof. done. Qed.

Lemma wp_when b m Q s :
  (b = true → wp m Q s) → (b = false → Q tt s) → wp (when b m) Q s.
Proof. intros Ht Hf. destruct b; [by apply Ht | by apply Hf]. Qed.

Lemma wp_mono {A} (m : prog S A) (Q Q' : A → S → Prop) s :
  wp m Q s → (∀ a s', Q a s' → Q' a s') → wp m Q' s.
Proof. unfold wp. destruct (m s); auto. Qed.

Lemma wp_lift_oob (f : S → option S) Q s s' :
  f s = Some s' → Q tt s' → wp (lift_oob f) Q s.
Proof. unfold wp, lift_oob. by intros ->. Qed.
End Wp.

(** Total correctness: no fault at all. *)
Definition no_fault (f : fault) : Prop := False.

(** [wp_step] peels the leading operation of a program in a [wp] goal. *)
Ltac wp_step :=
  lazymatch goal with
  | |- wp _ (_ ≫= _) _ _ => apply wp_bind
  | |- wp _ (mret _) _ _ => apply wp_ret
  | |- wp _ skip _ _ => apply wp_ret
  | |- wp _ (gets _) _ _ => apply wp_gets
  | |- wp _ (modify _) _ _ => apply wp_modify
  | |- wp _ (when _ _) _ _ => apply wp_when; intro
  | |- wp _ (if ?b then _ else _) _ _ => destruct b eqn:?
  | |- wp _ (let '(_, _) := ?p in _) _ _ => destruct p
  end.
Ltac wp_steps := repeat (wp_step; cbn beta).

(** ** Integers at their width *)

Definition s32 (z : Z) : Z := ((z + 2 ^ 31) mod 2 ^ 32 - 2 ^ 31)%Z.
Definition u32 (z : Z) : Z := (z mod 2 ^ 32)%Z.
Definition s64 (z : Z) : Z := ((z + 2 ^ 63) mod 2 ^ 64 - 2 ^ 63)%Z.
Definition u64 (z : Z) : Z := (z mod 2 ^ 64)%Z.
Definition s16 (z : Z) : Z := ((z + 2 ^ 15) mod 2 ^ 16 - 2 ^ 15)%Z.
Definition u16 (z : Z) : Z := (z mod 2 ^ 16)%Z.

(** An int used as a truth value. *)
Definition truthy (z : Z) : bool := negb (z =? 0)%Z.
(** A comparison used as an int. *)
Definition of_bool (b : bool) : Z := if b then 1%Z else 0%Z.

Lemma s32_id z : (- 2 ^ 31 ≤ z < 2 ^ 31)%Z → s32 z = z.
Proof. unfold s32. intros. rewrite Z.mod_small; lia. Qed.
Lemma u32_id z : (0 ≤ z < 2 ^ 32)%Z → u32 z = z.
Proof. unfold u32. intros. rewrite Z.mod_small; lia. Qed.
Lemma s64_id z : (- 2 ^ 63 ≤ z < 2 ^ 63)%Z → s64 z = z.
Proof. unfold s64. intros. rewrite Z.mod_small; lia. Qed.
Lemma s64_range z : (- 2 ^ 63 ≤ s64 z < 2 ^ 63)%Z.
Proof. unfold s64. pose proof (Z.mod_pos_bound (z + 2 ^ 63) (2 ^ 64)). lia. Qed.
Lemma s32_range z : (- 2 ^ 31 ≤ s32 z < 2 ^ 31)%Z.
Proof. unfold s32. pose proof (Z.mod_pos_bound (z + 2 ^ 31) (2 ^ 32)). lia. Qed.
Lemma s16_id z : (- 2 ^ 15 ≤ z < 2 ^ 15)%Z → s16 z = z.
Proof. unfold s16. intros. rewrite Z.mod_small; lia. Qed.
Lemma u16_id z : (0 ≤ z < 2 ^ 16)%Z → u16 z = z.
Proof. unfold u16. intros. rewrite Z.mod_small; lia. Qed.
Lemma truthy_spec z : truthy z = true ↔ z ≠ 0%Z.
Proof. unfold truthy. destruct (Z.eqb_spec z 0); naive_solver. Qed.

Create Rewrite HintDb cint.
#[export] Hint Rewrite s32_id u32_id s64_id s16_id u16_id using lia : cint.

(** ** Sorting

    [qsort]: what it promises for a comparison that makes sense; which of two equal
    elements comes first is open. *)

Definition consistent {A} (cmp : A → A → Z) : Prop :=
  (∀ a b, Z.sgn (cmp b a) = - Z.sgn (cmp a b))%Z ∧ (∀ a b c, cmp a b ≤ 0 → cmp b c ≤ 0 → cmp a c ≤ 0)%Z.
Definition in_order {A} (cmp : A → A → Z) : list A → Prop := StronglySorted (fun a b => cmp a b ≤ 0)%Z.

(** The comparison makes sense among the elements of a list. *)
Definition consistent_in {A} (l : list A) (cmp : A → A → Z) : Prop :=
  (∀ a b, a ∈ l → b ∈ l → Z.sgn (cmp b a) = - Z.sgn (cmp a b))%Z ∧
  (∀ a b c, a ∈ l → b ∈ l → c ∈ l → cmp a b ≤ 0 → cmp b c ≤ 0 → cmp a c ≤ 0)%Z.
Lemma consistent_all {A} (cmp : A → A → Z) l : consistent cmp → consistent_in l cmp.
Proof. intros [Hf Ht]. split; [intros a b _ _; apply Hf|intros a b c _ _ _; apply Ht]. Qed.
Lemma consistent_sub {A} (cmp : A → A → Z) l l' : (∀ x, x ∈ l' → x ∈ l) → consistent_in l cmp → consistent_in l' cmp.
Proof. intros Hs [Hf Ht]. split; [intros a b Ha Hb; apply Hf; auto|intros a b c Ha Hb Hc; apply Ht; auto]. Qed.

Class Qsort := {
  qsort : ∀ {A}, (A → A → Z) → list A → list A;
  qsort_perm {A} (cmp : A → A → Z) l : qsort cmp l ≡ₚ l;
  qsort_sorted {A} (cmp : A → A → Z) l : consistent_in l cmp → in_order cmp (qsort cmp l) }.

(** Sorting by insertion is one. *)
Section Insertion.
Context {A : Type} (cmp : A → A → Z).

Fixpoint insert_in_order (x : A) (l : list A) : list A :=
  match l with [] => [x] | y :: l' => if (cmp x y <=? 0)%Z then x :: l else y :: insert_in_order x l' end.

Lemma insert_perm x l : insert_in_order x l ≡ₚ x :: l.
Proof. induction l as [|y l IH]; cbn; [done|]. destruct (_ <=? _)%Z; [done|]. rewrite IH. apply Permutation_swap. Qed.
Lemma insert_sorted x l : consistent_in (x :: l) cmp → in_order cmp l → in_order cmp (insert_in_order x l).
Proof.
  induction l as [|y l IH]; intros Hc Hl; cbn; [by repeat constructor|]. apply StronglySorted_inv in Hl as [Hl Hy].
  destruct Hc as [Hf Ht]. destruct (Z.leb_spec (cmp x y) 0) as [Hle|Hgt].
  - constructor; [by constructor|]. constructor; [done|]. rewrite Forall_forall in Hy |- *. intros z Hz. apply (Ht x y z); [set_solver..|done|by apply Hy].
  - constructor.
    + apply IH; [|done]. split; [intros a b Ha Hb; apply Hf; set_solver|intros a b c Ha Hb Hc; apply Ht; set_solver].
    + rewrite insert_perm. constructor; [|done]. pose proof (Hf x y ltac:(set_solver) ltac:(set_solver)) as E.
      rewrite (Z.sgn_pos (cmp x y)) in E by lia. destruct (Z.sgn_spec (cmp y x)) as [[_ F]|[[_ F]|[G _]]]; lia.
Qed.
Definition insertion_sort (l : list A) : list A := foldr insert_in_order [] l.
Lemma insertion_perm l : insertion_sort l ≡ₚ l.
Proof. induction l as [|x l IH]; cbn; [done|]. rewrite insert_perm. by rewrite IH. Qed.
Lemma insertion_sorted l : consistent_in l cmp → in_order cmp (insertion_sort l).
Proof.
  induction l as [|x l IH]; intros Hc; cbn; [constructor|]. apply insert_sorted.
  - apply (consistent_sub cmp (x :: l)); [|done]. intros z. by rewrite insertion_perm.
  - apply IH. apply (consistent_sub cmp (x :: l)); [set_solver|done].
Qed.
End Insertion.
Definition insertion_sorts : Qsort := {|
  qsort A cmp := insertion_sort cmp; qsort_perm A cmp := insertion_perm cmp; qsort_sorted A cmp := insertion_sorted cmp |}.
