(* ===== verification/CString.v ===== *)
(** * C strings in fixed-size char arrays

    A [char buf[N]] is a list of [N] bytes; the C string it holds is what comes
    before the first NUL.  Bytes after the NUL stay in the array: several
    calculator behaviours depend on such stale bytes, so the operations below
    write exactly the bytes their C counterparts write. *)

From Stdlib Require Export Ascii.
From S2P Require Import Prelude.

Abbreviation char := ascii (only parsing).
Definition NUL : char := "000"%char.
Abbreviation cbuf := (list ascii) (only parsing).

(** A literal as a list of bytes. *)
Definition str (s : string) : list char := String.list_ascii_of_string s.
Arguments str _%_string_scope.

(** [memchr]-like split: the bytes before the first [c], and the suffix that
    starts with it. *)
Fixpoint before (c : char) (b : list char) : list char :=
  match b with
  | [] => []
  | x :: b' => if decide (x = c) then [] else x :: before c b'
  end.

Fixpoint strchr (c : char) (b : list char) : option (list char) :=
  match b with
  | [] => None
  | x :: b' => if decide (x = c) then Some b else strchr c b'
  end.

(** The C string held by a buffer, and its length. *)
Definition cstr (b : cbuf) : list char := before NUL b.
Definition strlen (b : cbuf) : nat := length (cstr b).

(** A buffer that holds a C string. *)
Definition terminated (b : cbuf) : bool := bool_decide (NUL ∈ b).

(** [buf[i] = c], with [i] a C int. *)
Definition buf_set (i : Z) (c : char) (b : cbuf) : option cbuf :=
  if decide (0 ≤ i < Z.of_nat (length b))%Z
  then Some (<[Z.to_nat i := c]> b) else None.

Definition buf_get (i : Z) (b : cbuf) : option char :=
  if decide (0 ≤ i)%Z then b !! Z.to_nat i else None.

(** Write the bytes [s] and a NUL from offset [off] on. *)
Definition write_str (off : nat) (s : list char) (b : cbuf) : option cbuf :=
  if decide (off + length s + 1 ≤ length b)
  then Some (take off b ++ s ++ [NUL] ++ drop (off + length s + 1) b)
  else None.

(** [strcat(b, s)] *)
Definition strcat (s : list char) (b : cbuf) : option cbuf :=
  if terminated b then write_str (strlen b) s b else None.

(** [strlcpy(b, s, sizeof b)] and [snprintf(b, sizeof b, "%s", s)]: both write
    at most [sizeof b - 1] bytes and a NUL, and leave the rest of [b] alone. *)
Definition strlcpy (s : list char) (b : cbuf) : option cbuf :=
  write_str 0 (take (length b - 1) s) b.
Definition snprintf (s : list char) (b : cbuf) : option cbuf := strlcpy s b.

(** ** Texts: strings in arrays that are only written by [snprintf] *)

Abbreviation text := (list ascii) (only parsing).

(** [snprintf(b, n, "%s", s)] *)
Definition trunc (n : nat) (s : text) : text := take (n - 1) s.
Arguments trunc : simpl never.

Definition LF : char := "010"%char.

(** The strings [fgets(line, 1024, fp)] delivers; [n] more bytes fit. *)
Fixpoint fgets_lines (n : nat) (cur : text) (file : text) : list text :=
  match file with
  | [] => match cur with [] => [] | _ => [cur] end
  | c :: file' =>
    match n with
    | O => []
    | S n' =>
      if decide (c = LF ∨ n' = O)
      then (cur ++ [c]) :: fgets_lines 1023 [] file'
      else fgets_lines n' (cur ++ [c]) file'
    end
  end.

(** The same for another buffer: [size] bytes fit, [n] more. *)
Fixpoint fgets_sized (size n : nat) (cur : text) (file : text) : list text :=
  match file with
  | [] => match cur with [] => [] | _ => [cur] end
  | c :: file' =>
    match n with
    | O => []
    | S n' =>
      if decide (c = LF ∨ n' = O) then (cur ++ [c]) :: fgets_sized size size [] file'
      else fgets_sized size n' (cur ++ [c]) file'
    end
  end.

(** ** Lemmas *)

Lemma before_nomem c b : c ∉ before c b.
Proof.
  induction b as [|x b IH]; simpl; [set_solver|].
  case_decide; set_solver.
Qed.

Lemma before_app_mem c s t : c ∉ s → before c (s ++ c :: t) = s.
Proof.
  induction s as [|x s IH]; simpl; intros H.
  - by rewrite decide_True.
  - rewrite decide_False by set_solver. f_equal. apply IH. set_solver.
Qed.

Lemma before_none c b : c ∉ b → before c b = b.
Proof.
  induction b as [|x b IH]; simpl; intros H; [done|].
  rewrite decide_False by set_solver. f_equal. apply IH. set_solver.
Qed.

Lemma before_split c b :
  c ∈ b → b = before c b ++ c :: drop (S (length (before c b))) b.
Proof.
  induction b as [|x b IH]; simpl; intros H; [set_solver|].
  case_decide; subst; simpl; [by rewrite drop_0|].
  f_equal. apply IH. set_solver.
Qed.

Lemma before_length_lt c b : c ∈ b → length (before c b) < length b.
Proof.
  intros H. rewrite (before_split c b H) at 2.
  rewrite length_app. simpl. lia.
Qed.

Lemma before_take c b : before c b = take (length (before c b)) b.
Proof.
  induction b as [|x b IH]; simpl; [done|].
  case_decide; simpl; [done|]. by f_equal.
Qed.

Lemma cstr_app s t : NUL ∉ s → cstr (s ++ NUL :: t) = s.
Proof. apply before_app_mem. Qed.

Lemma cstr_no_nul b : NUL ∉ cstr b.
Proof. apply before_nomem. Qed.

Lemma terminated_true b : terminated b = true ↔ NUL ∈ b.
Proof. unfold terminated. by rewrite bool_decide_eq_true. Qed.

Lemma strlen_lt b : terminated b = true → strlen b < length b.
Proof. rewrite terminated_true. apply before_length_lt. Qed.

Lemma cstr_split b :
  terminated b = true → b = cstr b ++ NUL :: drop (S (strlen b)) b.
Proof. rewrite terminated_true. apply before_split. Qed.

Lemma write_str_length off s b b' :
  write_str off s b = Some b' → length b' = length b.
Proof.
  unfold write_str. case_decide; [|done]. intros [= <-].
  rewrite !length_app, length_take. simpl. rewrite length_drop. lia.
Qed.

Lemma write_str_terminated off s b b' :
  write_str off s b = Some b' → terminated b' = true.
Proof.
  unfold write_str. case_decide; [|done]. intros [= <-].
  apply terminated_true. set_solver.
Qed.

Lemma write_str_some off s b :
  off + length s + 1 ≤ length b → is_Some (write_str off s b).
Proof. unfold write_str. intros. rewrite decide_True by done. eauto. Qed.

Lemma take_not_elem {A} (x : A) n (s : list A) : x ∉ s → x ∉ take n s.
Proof. intros H Hin. apply H. by eapply subseteq_take. Qed.

Lemma strlcpy_cstr s b b' :
  NUL ∉ s → strlcpy s b = Some b' → cstr b' = take (length b - 1) s.
Proof.
  unfold strlcpy, write_str. intros Hs. case_decide; [|done]. intros [= <-].
  apply cstr_app. by apply take_not_elem.
Qed.

Lemma strlcpy_some s b : 0 < length b → is_Some (strlcpy s b).
Proof. intros. apply write_str_some. rewrite length_take. lia. Qed.

Lemma strcat_cstr s b b' :
  NUL ∉ s → strcat s b = Some b' → cstr b' = cstr b ++ s.
Proof.
  unfold strcat, write_str. intros Hs.
  destruct (terminated b) eqn:Ht; [|done]. case_decide; [|done]. intros [= <-].
  change (take (strlen b) b) with (take (length (before NUL b)) b).
  rewrite <- before_take, app_assoc. simpl.
  apply cstr_app. rewrite elem_of_app. intros [?|?]; [|done].
  by apply (cstr_no_nul b).
Qed.

Lemma strcat_some s b :
  terminated b = true → strlen b + length s < length b → is_Some (strcat s b).
Proof.
  intros Ht Hl. unfold strcat. rewrite Ht. apply write_str_some. lia.
Qed.

Lemma strcat_length s b b' : strcat s b = Some b' → length b' = length b.
Proof. unfold strcat. destruct (terminated b); [apply write_str_length|done]. Qed.

Lemma buf_set_length i c b b' : buf_set i c b = Some b' → length b' = length b.
Proof.
  unfold buf_set. case_decide; [|done]. intros [= <-]. by rewrite length_insert.
Qed.

Lemma strchr_incl c b e x : strchr c b = Some e → x ∈ e → x ∈ b.
Proof.
  induction b as [|y b IH]; simpl; [done|].
  case_decide; intros E Hin; [by injection E as <-|]. right. auto.
Qed.

Lemma trunc_fits n s : (0 < n → length (trunc n s) < n)%nat.
Proof. intros. unfold trunc. rewrite length_take. lia. Qed.

Lemma trunc_short n s : (length s < n)%nat → trunc n s = s.
Proof. intros. unfold trunc. apply take_ge. lia. Qed.

Lemma trunc_nonempty n s : (1 < n)%nat → s ≠ [] → trunc n s ≠ [].
Proof. intros Hn Hs. unfold trunc. destruct n as [|[|n]]; [lia..|]. by destruct s. Qed.
