(* ===== verification/CFloat.v ===== *)
(** * C doubles: IEEE-754 binary64 and its conversions

    [double] is the standard library's specification float at precision 53 and
    maximal exponent 1024, so +, -, *, / and sqrt are the correctly rounded
    IEEE operations and evaluate inside the kernel.  This file adds the
    conversions the calculator uses: casts to and from [long], [floor] and
    [trunc], [sscanf] with %lf, %lo and %lX, and [snprintf] with %.8g, %lo and
    %lX.  The sign of a NaN is not represented. *)

From Corelib Require Export SpecFloat.
From S2P Require Import Prelude.
From S2P Require Import CString.
Open Scope Z_scope.

Definition double := spec_float.
#[local] Abbreviation prec := 53%Z.
#[local] Abbreviation emax := 1024%Z.

Definition dadd : double → double → double := SFadd prec emax.
Definition dsub : double → double → double := SFsub prec emax.
Definition dmul : double → double → double := SFmul prec emax.
Definition ddiv : double → double → double := SFdiv prec emax.
Definition dsqrt : double → double := SFsqrt prec emax.
Definition deq : double → double → bool := SFeqb.
Definition dlt : double → double → bool := SFltb.
Definition dle : double → double → bool := SFleb.

(** [(double)z] for an integer [z]. *)
Definition d_of_Z (z : Z) : double := binary_normalize prec emax z 0 false.
Definition dzero : double := S754_zero false.

(** [(float)z], widened to double for the arithmetic that follows. *)
Definition float_of_Z (z : Z) : double :=
  match binary_normalize 24 128 z 0 false with
  | S754_finite s m e => binary_normalize prec emax (if s then Zneg m else Zpos m) e s
  | f => f
  end.

(** The mathematical integer part of a finite double (toward zero). *)
Definition dtrunc_Z (x : double) : option Z :=
  match x with
  | S754_zero _ => Some 0
  | S754_finite s m e =>
    let a := if 0 <=? e then Zpos m * 2 ^ e else Zpos m / 2 ^ (- e) in
    Some (if s then - a else a)
  | _ => None
  end.

(** [(long)x].  Out of range the result is what the x86-64 conversion
    instruction gives, LONG_MIN. *)
Definition to_long (x : double) : Z :=
  match dtrunc_Z x with
  | Some z => if (- 2 ^ 63 <=? z) && (z <? 2 ^ 63) then z else - 2 ^ 63
  | None => - 2 ^ 63
  end.

(** [(int)x] *)
Definition to_int (x : double) : Z :=
  match dtrunc_Z x with
  | Some z => if (- 2 ^ 31 <=? z) && (z <? 2 ^ 31) then z else - 2 ^ 31
  | None => - 2 ^ 31
  end.

(** [trunc] and [floor] keep the sign of a zero result. *)
Definition dsign (x : double) : bool :=
  match x with
  | S754_zero s | S754_infinity s | S754_finite s _ _ => s
  | S754_nan => false
  end.

Definition dtrunc (x : double) : double :=
  match x, dtrunc_Z x with
  | S754_finite s _ _, Some z => binary_normalize prec emax z 0 s
  | _, _ => x
  end.

Definition dfloor (x : double) : double :=
  match x with
  | S754_finite s m e =>
    if 0 <=? e then x
    else binary_normalize prec emax ((if s then Zneg m else Zpos m) / 2 ^ (- e)) 0 s
  | _ => x
  end.

(** ** Digits *)

Definition digit_char (d : Z) : char :=
  ascii_of_nat (Z.to_nat (if d <? 10 then 48 + d else 55 + d)).

(** The value of a digit character in the bases up to 16 (either case). *)
Definition digit_val (c : char) : option Z :=
  let n := Z.of_nat (nat_of_ascii c) in
  if (48 <=? n) && (n <=? 57) then Some (n - 48)
  else if (65 <=? n) && (n <=? 70) then Some (n - 55)
  else if (97 <=? n) && (n <=? 102) then Some (n - 87)
  else None.

Definition base_digit (base : Z) (c : char) : option Z :=
  match digit_val c with
  | Some d => if d <? base then Some d else None
  | None => None
  end.

(** Digits of a natural number, most significant first ([n] digits at most). *)
Fixpoint digits_aux (n : nat) (base z : Z) (acc : list char) : list char :=
  match n with
  | O => acc
  | S n' =>
    let acc' := digit_char (z mod base) :: acc in
    if z <? base then acc' else digits_aux n' base (z / base) acc'
  end.

(** [z < base ^ (log2 z + 1)], so that many digits always suffice. *)
Definition digits (base z : Z) : list char :=
  digits_aux (S (Z.to_nat (Z.log2 z))) base z [].

(** Split off the longest prefix of base-[base] digits: its value appended to
    [v], the number of digits, and the rest. *)
Fixpoint scan_digits (base v n : Z) (s : list char) : Z * Z * list char :=
  match s with
  | c :: s' =>
    match base_digit base c with
    | Some d => scan_digits base (v * base + d) (n + 1) s'
    | None => (v, n, s)
    end
  | [] => (v, n, [])
  end.

(** ** sscanf *)

Definition isspace (c : char) : bool :=
  let n := nat_of_ascii c in (Nat.eqb n 32 || (Nat.leb 9 n && Nat.leb n 13))%bool.

Fixpoint skip_space (s : list char) : list char :=
  match s with
  | c :: s' => if isspace c then skip_space s' else s
  | [] => []
  end.

(** An optional sign: (is negative, rest). *)
Definition scan_sign (s : list char) : bool * list char :=
  match s with
  | "-"%char :: s' => (true, s')
  | "+"%char :: s' => (false, s')
  | _ => (false, s)
  end.

(** [sscanf(s, "%lo", &n)] and ["%lX"]: [None] when nothing matches and [n]
    keeps its value.  Out of range saturates at ULONG_MAX, a sign negates
    modulo 2^64. *)
Definition sscanf_ulong (base : Z) (s : list char) : option Z :=
  let '(neg, s1) := scan_sign (skip_space s) in
  let '(v, n, _) := scan_digits base 0 0 s1 in
  if n =? 0 then None
  else if 2 ^ 64 <=? v then Some (2 ^ 64 - 1)
  else Some (if neg then u64 (- v) else v).

Definition lower (c : char) : char :=
  let n := nat_of_ascii c in
  if (Nat.leb 65 n && Nat.leb n 90)%bool then ascii_of_nat (n + 32) else c.

Definition has_prefix_ci (p s : list char) : bool :=
  bool_decide (p = map lower (take (length p) s)).

(** The double nearest to [m * 10 ^ e], [m] non-negative.  The two cut-offs
    only bound the powers computed: beyond them the result is infinite or
    rounds to zero. *)
Definition d_of_dec (neg : bool) (m e : Z) : double :=
  match m with
  | Zpos p =>
    let nd := Z.of_nat (length (digits 10 m)) in
    if 400 <? e then S754_infinity neg
    else if e + nd <? -400 then S754_zero neg
    else if 0 <=? e
    then binary_normalize prec emax ((if neg then -1 else 1) * (m * 10 ^ e)) 0 neg
    else let '(mz, ez, lz) := SFdiv_core_binary prec emax m 0 (10 ^ (- e)) 0 in
         binary_round_aux prec emax neg mz ez lz
  | _ => S754_zero neg
  end.

(** The exponent part: [e], an optional sign and at least one digit; 0 when
    what follows is not one. *)
Definition scan_exponent (s : list char) : Z :=
  match s with
  | c :: s1 =>
    if bool_decide (lower c = "e"%char) then
      let '(neg, s2) := scan_sign s1 in
      let '(v, n, _) := scan_digits 10 0 0 s2 in
      if n =? 0 then 0 else if neg then - v else v
    else 0
  | [] => 0
  end.

(** [sscanf(s, "%lf", &d)]: the longest prefix [strtod] accepts in decimal,
    "inf" and "nan" included; [None] when nothing matches.  (The display never
    holds an 'x', so hexadecimal floats do not arise.) *)
Definition sscanf_lf (s : list char) : option double :=
  let '(neg, s1) := scan_sign (skip_space s) in
  if has_prefix_ci (str "inf") s1 then Some (S754_infinity neg)
  else if has_prefix_ci (str "nan") s1 then Some S754_nan
  else
    let '(iv, ni, s2) := scan_digits 10 0 0 s1 in
    let '(v, nf, s3) :=
      match s2 with
      | "."%char :: s2' => scan_digits 10 iv 0 s2'
      | _ => (iv, 0, s2)
      end in
    if ni + nf =? 0 then None
    else Some (d_of_dec neg v (scan_exponent s3 - nf)).

(** ** snprintf *)

(** [%lo], [%lX]: the argument converted to unsigned long. *)
Definition print_ulong (base z : Z) : list char := digits base (u64 z).

Fixpoint strip_zeros (s : list char) : list char :=
  match s with
  | [] => []
  | c :: s' =>
    match strip_zeros s' with
    | [] => if decide (c = "0"%char) then [] else [c]
    | t => c :: t
    end
  end.

(** Round [n / d] half to even. *)
Definition div_rne (n d : Z) : Z :=
  let q := n / d in
  let r := n mod d in
  match (2 * r) ?= d with
  | Lt => q
  | Gt => q + 1
  | Eq => if Z.even q then q else q + 1
  end.

(** [num / den > 0]: the decimal exponent [X] with [10^X <= num/den < 10^(X+1)]. *)
Definition dec_exponent (num den : Z) : Z :=
  if den <=? num then Z.of_nat (length (digits 10 (num / den))) - 1
  else let c := (den + num - 1) / num in
       - Z.of_nat (length (digits 10 (c - 1))).

Definition pad2 (s : list char) : list char :=
  if Nat.ltb (length s) 2 then "0"%char :: s else s.

(** "int" or "int.frac" without trailing zeros in the fraction. *)
Definition point (i f : list char) : list char :=
  match strip_zeros f with [] => i | t => i ++ "."%char :: t end.

(** [%.8g] of a positive [num / den]: eight significant digits, correctly
    rounded, in the shorter of the two styles, trailing zeros removed. *)
Definition print_g_pos (num den : Z) : list char :=
  let x0 := dec_exponent num den in
  let k := 7 - x0 in
  let d0 := if 0 <=? k then div_rne (num * 10 ^ k) den
            else div_rne num (den * 10 ^ (- k)) in
  let '(d, x) := if d0 =? 10 ^ 8 then (10 ^ 7, x0 + 1) else (d0, x0) in
  let ds := digits 10 d in
  if (-4 <=? x) && (x <? 8) then
    if 0 <=? x
    then point (take (S (Z.to_nat x)) ds) (drop (S (Z.to_nat x)) ds)
    else point (str "0") (repeat "0"%char (Z.to_nat (- x - 1)) ++ ds)
  else
    point (take 1 ds) (drop 1 ds) ++ "e"%char ::
      (if x <? 0 then "-"%char else "+"%char) :: pad2 (digits 10 (Z.abs x)).

Definition print_g (x : double) : list char :=
  let sg := fun s : bool => if s then str "-" else [] in
  match x with
  | S754_zero s => sg s ++ str "0"
  | S754_infinity s => sg s ++ str "inf"
  | S754_nan => str "nan"
  | S754_finite s m e =>
    sg s ++ (if 0 <=? e then print_g_pos (Zpos m * 2 ^ e) 1
             else print_g_pos (Zpos m) (2 ^ (- e)))
  end.
