(* ===== verification/TwoState.v ===== *)
(** * Two-state properties of programs

    [steps R m]: whenever [m] ends normally, the states before and after are
    related by the preorder [R].  With [R] the equality of a field this is a
    frame property, with [R] an extension of a log it says what [m] may log.
    The rules are those of the program combinators; a component adds the rules
    of its own operations to the hint database [steps]. *)

From S2P Require Import Prelude.

(** Any fault is allowed: the statements are about what a program leaves behind. *)
Definition any_fault (f : fault) : Prop := True.

Section Steps.
Context {S : Type} (R : S → S → Prop) `{!PreOrder R}.

Definition steps {A} (m : prog S A) : Prop := ∀ s, wp any_fault m (fun _ s' => R s s') s.

Lemma steps_ret {A} (a : A) : steps (mret a).
Proof. intros s. by apply wp_ret. Qed.
Lemma steps_skip : steps skip.
Proof. intros s. by apply wp_ret. Qed.
Lemma steps_gets {A} (f : S → A) : steps (gets f).
Proof. intros s. by apply wp_gets. Qed.
Lemma steps_raise {A} f : steps (raise f : prog S A).
Proof. done. Qed.
Lemma steps_modify (f : S → S) : (∀ s, R s (f s)) → steps (modify f).
Proof. intros Hf s. by apply wp_modify. Qed.
Lemma steps_bind {A B} (m : prog S A) (k : A → prog S B) :
  steps m → (∀ a, steps (k a)) → steps (m ≫= k).
Proof.
  intros Hm Hk s. apply wp_bind. eapply wp_mono; [apply Hm|]. cbn beta. intros a s1 H1.
  eapply wp_mono; [apply Hk|]. cbn beta. intros b s2 H2. by etrans.
Qed.
Lemma steps_when b m : steps m → steps (when b m).
Proof. destruct b; [done|]. intros _. apply steps_skip. Qed.
End Steps.

(** [surely R m]: the same without a fault. *)
Section Surely.
Context {S : Type} (R : S → S → Prop) `{!PreOrder R}.

Definition surely {A} (m : prog S A) : Prop := ∀ s, wp no_fault m (fun _ s' => R s s') s.

Lemma surely_ret {A} (a : A) : surely (mret a).
Proof. intros s. by apply wp_ret. Qed.
Lemma surely_skip : surely skip.
Proof. intros s. by apply wp_ret. Qed.
Lemma surely_gets {A} (f : S → A) : surely (gets f).
Proof. intros s. by apply wp_gets. Qed.
Lemma surely_modify (f : S → S) : (∀ s, R s (f s)) → surely (modify f).
Proof. intros Hf s. by apply wp_modify. Qed.
Lemma surely_bind {A B} (m : prog S A) (k : A → prog S B) :
  surely m → (∀ a, surely (k a)) → surely (m ≫= k).
Proof.
  intros Hm Hk s. apply wp_bind. eapply wp_mono; [apply Hm|]. cbn beta. intros a s1 H1.
  eapply wp_mono; [apply Hk|]. cbn beta. intros b s2 H2. by etrans.
Qed.
Lemma surely_when b m : surely m → surely (when b m).
Proof. destruct b; [done|]. intros _. apply surely_skip. Qed.
End Surely.

(** Reflexive and transitive relations that the components use. *)
#[export] Instance same_preorder {S T} (F : S → T) : PreOrder (fun s s' => F s' = F s).
Proof. split; [done|]. intros a b c -> ->. done. Qed.

(** [logs P F]: the log [F], latest entry first, grows by entries that satisfy [P]. *)
Definition logs {S C} (P : C → Prop) (F : S → list C) (s s' : S) : Prop :=
  ∃ new, F s' = new ++ F s ∧ Forall P new.

#[export] Instance logs_preorder {S C} (P : C → Prop) (F : S → list C) : PreOrder (logs P F).
Proof.
  split; [by exists []|]. intros a b c (n1 & E1 & H1) (n2 & E2 & H2).
  exists (n2 ++ n1). rewrite E2, E1, app_assoc. split; [done|]. by apply Forall_app.
Qed.

Lemma logs_one {S C} (P : C → Prop) (F : S → list C) s s' c :
  F s' = c :: F s → P c → logs P F s s'.
Proof. intros E Hc. exists [c]. split; [done|]. by constructor. Qed.

Lemma logs_same {S C} (P : C → Prop) (F : S → list C) s s' : F s' = F s → logs P F s s'.
Proof. intros E. by exists []. Qed.

Lemma logs_weaken {S C} (P Q : C → Prop) (F : S → list C) s s' :
  (∀ c, P c → Q c) → logs P F s s' → logs Q F s s'.
Proof. intros HPQ (n & E & H). exists n. split; [done|]. by eapply Forall_impl. Qed.

(** A two-state property can be used at any point of a proof about outcomes. *)
Lemma wp_steps {S A} (R : S → S → Prop) E (m : prog S A) (Q : A → S → Prop) s :
  steps R m → wp E m Q s → wp E m (fun a s' => R s s' ∧ Q a s') s.
Proof. intros HR. specialize (HR s). unfold wp in *. by destruct (m s). Qed.

(** Two facts about the same run. *)
Lemma wp_and {S A} E (m : prog S A) (P Q : A → S → Prop) s :
  wp E m P s → wp any_fault m Q s → wp E m (fun a s' => P a s' ∧ Q a s') s.
Proof. unfold wp. by destruct (m s). Qed.

(** ** Invariants: [safely I m] ends without a fault and keeps [I]. *)
Section Safely.
Context {S : Type} (I : S → Prop).

Definition safely {A} (m : prog S A) : Prop := ∀ s, I s → wp no_fault m (fun _ s' => I s') s.

Lemma safely_ret {A} (a : A) : safely (mret a).
Proof. intros s Hs. by apply wp_ret. Qed.
Lemma safely_skip : safely skip.
Proof. apply safely_ret. Qed.
Lemma safely_gets {A} (f : S → A) : safely (gets f).
Proof. intros s Hs. by apply wp_gets. Qed.
Lemma safely_modify (f : S → S) : (∀ s, I s → I (f s)) → safely (modify f).
Proof. intros Hf s Hs. by apply wp_modify, Hf. Qed.
Lemma safely_bind {A B} (m : prog S A) (k : A → prog S B) :
  safely m → (∀ a, safely (k a)) → safely (m ≫= k).
Proof.
  intros Hm Hk s Hs. apply wp_bind. eapply wp_mono; [by apply Hm|]. cbn beta.
  intros a s' Hs'. by apply Hk.
Qed.
Lemma safely_when b m : safely m → safely (when b m).
Proof. destruct b; [done|]. intros _. apply safely_skip. Qed.
End Safely.

Create HintDb steps discriminated.
#[export] Hint Constants Opaque : steps.

Ltac steps_step :=
  lazymatch goal with
  | |- steps _ (mret _) => apply steps_ret; apply _
  | |- steps _ skip => apply steps_skip; apply _
  | |- steps _ (gets _) => apply steps_gets; apply _
  | |- steps _ (raise _) => apply steps_raise
  | |- steps _ (when _ _) => apply steps_when; [apply _|]
  | |- steps _ (_ ≫= _) => apply steps_bind; [apply _| |intros ?]
  | |- steps _ (if ?b then _ else _) => destruct b
  | |- steps _ (match ?x with _ => _ end) => destruct x
  | |- steps _ (let _ := _ in _) => cbv zeta
  | |- steps ?R (A:=?T) ?m =>
      first [solve [eauto with steps typeclass_instances]
            | let T' := eval hnf in T in
              change (steps R (A:=T') m); solve [eauto with steps typeclass_instances]]
  end.
Ltac steps := repeat steps_step.
