(* ===== verification/LineIpc.v ===== *)
(** * Line-oriented sockets (dm/src/ipc.c, dm/src/greeter/greeter.c)

    The display manager and its greeter talk over a socket in lines.  Both
    sides read into a [char[4096]] with the number of bytes in it, cut the
    complete lines out of it, handle each, and move the rest to the front.  The
    code is the same in [dm_ipc_handle] and [ipc_input_cb]; it is modelled once
    here, over the interface [LineBuffer], with its array accesses checked. *)

From S2P Require Import Prelude.
From S2P Require Import CString.
From S2P Require Import TwoState.
Open Scope Z_scope.

(** The state has a receive buffer; its laws are those of a record field. *)
Class LineBuffer (S : Type) := {
  lb_buf : S → list ascii;
  lb_len : S → Z;
  set_lb : list ascii → S → S;
  set_ll : Z → S → S;
  lb_buf_set b s : lb_buf (set_lb b s) = b;
  lb_len_set b s : lb_len (set_lb b s) = lb_len s;
  lb_buf_len n s : lb_buf (set_ll n s) = lb_buf s;
  lb_len_len n s : lb_len (set_ll n s) = n;
  lb_set_set b b' s : set_lb b (set_lb b' s) = set_lb b s;
  lb_set_same s : set_lb (lb_buf s) s = s;
  ll_set_set n n' s : set_ll n (set_ll n' s) = set_ll n s;
  ll_set_same s : set_ll (lb_len s) s = s;
  lb_ll_comm b n s : set_lb b (set_ll n s) = set_ll n (set_lb b s);
}.

(** ** Array operations *)

(** [memcpy(b + off, bytes, length bytes)] *)
Definition store_at (off : Z) (bytes b : list ascii) : option (list ascii) :=
  if decide (0 ≤ off ∧ off + Z.of_nat (length bytes) ≤ Z.of_nat (length b))
  then Some (take (Z.to_nat off) b ++ bytes ++ drop (Z.to_nat off + length bytes) b)
  else None.

(** [memmove(b, b + start, n)] *)
Definition move_front (start n : nat) (b : list ascii) : option (list ascii) :=
  if decide (start + n ≤ length b)%nat then store_at 0 (take n (drop start b)) b else None.

(** [strchr(p, '\n')]: the bytes before the line feed, if there is one before
    the NUL, or before the NUL; [None] when it runs off the array. *)
Fixpoint scan_to_lf (p : list ascii) : option (list ascii * bool) :=
  match p with
  | [] => None
  | c :: p' =>
    if decide (c = LF) then Some ([], true)
    else if decide (c = NUL) then Some ([], false)
    else match scan_to_lf p' with Some (l, b) => Some (c :: l, b) | None => None end
  end.

Section Loop.
Context {S : Type} `{!LineBuffer S} (handle : list ascii → prog S unit).

Definition on_buf (f : list ascii → option (list ascii)) : prog S unit :=
  lift_oob (fun s => (fun b => set_lb b s) <$> f (lb_buf s)).

(** The loop over complete lines; it returns the start of the rest.  Every round
    moves [start] by at least one byte, so [start] is past the array when the
    fuel, the length of the array, is used up. *)
Fixpoint process_lines (fuel start : nat) : prog S nat :=
  match fuel with
  | O => raise OutOfBounds
  | Datatypes.S fuel' =>
    b ← gets lb_buf;
    match scan_to_lf (drop start b) with
    | None => raise OutOfBounds
    | Some (_, false) => mret start
    | Some (line, true) =>
      on_buf (buf_set (Z.of_nat (start + length line)) NUL);;
      when (negb (bool_decide (line = []))) (handle line);;
      process_lines fuel' (start + length line + 1)
    end
  end.

(** Move the incomplete line, from [start] on, to the front. *)
Definition finish_lines (start : nat) : prog S unit :=
  l ← gets lb_len;
  let remaining := l - Z.of_nat start in
  when ((0 <? remaining) && negb (Nat.eqb start 0)) (on_buf (move_front start (Z.to_nat remaining)));;
  modify (set_ll remaining).

(** From the bytes [read] delivered to the end of the handler. *)
Definition receive (data : list ascii) : prog S unit :=
  n ← gets lb_len;
  on_buf (store_at n data);;
  let n := n + Z.of_nat (length data) in
  modify (set_ll n);;
  on_buf (buf_set n NUL);;
  b ← gets lb_buf;
  start ← process_lines (length b) 0;
  finish_lines start.

(** ** What the loop does: the specification *)

(** The complete lines of a text and the incomplete one at its end. *)
Fixpoint split_lines (cur t : list ascii) : list (list ascii) * list ascii :=
  match t with
  | [] => ([], cur)
  | c :: t' =>
    if decide (c = LF) then let '(ls, r) := split_lines [] t' in (cur :: ls, r)
    else split_lines (cur ++ [c]) t'
  end.

Fixpoint handle_all (ls : list (list ascii)) : prog S unit :=
  match ls with
  | [] => skip
  | l :: ls' => when (negb (bool_decide (l = []))) (handle l);; handle_all ls'
  end.
End Loop.

(** ** Lemmas *)

Lemma store_at_length off bytes b b' : store_at off bytes b = Some b' → length b' = length b.
Proof.
  unfold store_at. case_decide; [|done]. intros [= <-].
  rewrite !length_app, length_take, length_drop. lia.
Qed.

Lemma store_at_app pre old post bytes :
  length old = length bytes →
  store_at (Z.of_nat (length pre)) bytes (pre ++ old ++ post) = Some (pre ++ bytes ++ post).
Proof.
  intros Hl. unfold store_at. rewrite decide_True by (rewrite !length_app; lia).
  rewrite Nat2Z.id, take_app_length, <- Hl, <- length_app.
  by rewrite (app_assoc pre old post), drop_app_length.
Qed.

Lemma buf_set_app pre c post c' :
  buf_set (Z.of_nat (length pre)) c' (pre ++ c :: post) = Some (pre ++ c' :: post).
Proof.
  unfold buf_set. rewrite decide_True by (rewrite length_app; cbn; lia).
  rewrite Nat2Z.id. f_equal. rewrite <- (Nat.add_0_r (length pre)), insert_app_r. done.
Qed.

Lemma scan_to_end t post :
  NUL ∉ t → LF ∉ t → scan_to_lf (t ++ NUL :: post) = Some (t, false).
Proof.
  induction t as [|c t IH]; cbn; [done|]. intros Hn Hl.
  rewrite !decide_False by set_solver. by rewrite IH by set_solver.
Qed.

Lemma scan_to_line l post :
  NUL ∉ l → LF ∉ l → scan_to_lf (l ++ LF :: post) = Some (l, true).
Proof.
  induction l as [|c l IH]; cbn; [done|]. intros Hn Hl.
  rewrite !decide_False by set_solver. by rewrite IH by set_solver.
Qed.

Lemma split_none cur t : LF ∉ t → split_lines cur t = ([], cur ++ t).
Proof.
  revert cur. induction t as [|c t IH]; intros cur Hl; cbn; [by rewrite app_nil_r|].
  rewrite decide_False by set_solver. rewrite IH by set_solver. by rewrite <- app_assoc.
Qed.

Lemma split_line cur l t :
  LF ∉ l → split_lines cur (l ++ LF :: t) =
    (let '(ls, r) := split_lines [] t in ((cur ++ l) :: ls, r)).
Proof.
  revert cur. induction l as [|c l IH]; intros cur Hl; cbn; [by rewrite app_nil_r|].
  rewrite decide_False by set_solver. rewrite IH by set_solver. by rewrite <- app_assoc.
Qed.

(** A text is one incomplete line, or a line, a line feed and a shorter text. *)
Lemma text_cases t : LF ∉ t ∨ ∃ l t', t = l ++ LF :: t' ∧ LF ∉ l.
Proof.
  destruct (decide (LF ∈ t)) as [H|H]; [right|by left].
  exists (before LF t), (drop (Datatypes.S (length (before LF t))) t).
  split; [by apply before_split | apply before_nomem].
Qed.

Lemma split_rest_no_lf cur t : LF ∉ cur → LF ∉ snd (split_lines cur t).
Proof.
  revert cur. induction t as [|c t IH]; intros cur Hc; cbn; [done|].
  case_decide.
  - specialize (IH [] ltac:(set_solver)). by destruct (split_lines [] t).
  - apply IH. set_solver.
Qed.

Lemma split_lines_no_lf cur t : LF ∉ cur → Forall (fun l => LF ∉ l) (fst (split_lines cur t)).
Proof.
  revert cur. induction t as [|c t IH]; intros cur Hc; cbn; [by constructor|].
  case_decide.
  - specialize (IH [] ltac:(set_solver)). destruct (split_lines [] t). by constructor.
  - apply IH. set_solver.
Qed.

Lemma split_rest_length cur t :
  (length (snd (split_lines cur t)) ≤ length cur + length t)%nat.
Proof.
  revert cur. induction t as [|c t IH]; intros cur; cbn; [lia|]. case_decide.
  - specialize (IH []). destruct (split_lines [] t). cbn in *. lia.
  - specialize (IH (cur ++ [c])). rewrite length_app in IH. cbn in *. lia.
Qed.

(** The rest is the end of the text. *)
Lemma split_rest_suffix t :
  snd (split_lines [] t) = drop (length t - length (snd (split_lines [] t))) t.
Proof.
  assert (H : ∀ t cur, ∃ p, cur ++ t = p ++ snd (split_lines cur t)).
  { clear t. intros t. induction t as [|c t IH]; intros cur; cbn.
    - exists []. by rewrite app_nil_r.
    - case_decide as E.
      + destruct (IH []) as [p Hp]. destruct (split_lines [] t) as [ls r]. cbn in *.
        exists (cur ++ c :: p). by rewrite Hp, <- app_assoc.
      + destruct (IH (cur ++ [c])) as [p Hp]. exists p. by rewrite <- Hp, <- app_assoc. }
  destruct (H t []) as [p Hp]. cbn in Hp. set (r := snd _) in *. clearbody r. subst t.
  rewrite length_app. replace (length p + length r - length r)%nat with (length p) by lia.
  by rewrite drop_app_length.
Qed.

(** Splitting in two portions: the rest of the first goes in front of the second. *)
Lemma split_lines_app cur t u :
  split_lines cur (t ++ u) =
    (let '(ls, r) := split_lines cur t in let '(ls', r') := split_lines r u in (ls ++ ls', r')).
Proof.
  revert cur. induction t as [|c t IH]; intros cur; cbn; [by destruct (split_lines cur u)|].
  case_decide; [|apply IH]. rewrite IH. destruct (split_lines [] t) as [ls r].
  by destruct (split_lines r u).
Qed.

(** The text made of some lines, each with its line feed. *)
Definition join_lines (ls : list (list ascii)) : list ascii := concat (map (fun l => l ++ [LF]) ls).

Lemma split_join ls : Forall (fun l => LF ∉ l) ls → split_lines [] (join_lines ls) = (ls, []).
Proof.
  unfold join_lines. induction 1 as [|l ls Hl _ IH]; [done|]. cbn. rewrite <- app_assoc. cbn.
  rewrite split_line by done. by rewrite IH.
Qed.

(** The buffer after the loop: line feeds are NULs. *)
Definition cut (t : list ascii) : list ascii := map (fun c => if decide (c = LF) then NUL else c) t.

Lemma cut_app t u : cut (t ++ u) = cut t ++ cut u.
Proof. apply map_app. Qed.
Lemma cut_id t : LF ∉ t → cut t = t.
Proof.
  induction t as [|c t IH]; cbn; [done|]. intros H.
  rewrite decide_False by set_solver. f_equal. apply IH. set_solver.
Qed.
Lemma cut_lf t : cut (LF :: t) = NUL :: cut t.
Proof. done. Qed.
Lemma cut_drop n t : drop n (cut t) = cut (drop n t).
Proof. revert t. induction n as [|n IH]; intros [|c t]; [done..|]. apply IH. Qed.
Lemma cut_length t : length (cut t) = length t.
Proof. apply length_map. Qed.

(** A two-state property of the handlers that the buffer does not matter to is
    one of the whole. *)
Section Through.
Context {S : Type} `{!LineBuffer S} (R : S → S → Prop) `{!PreOrder R}.
Context (handle : list ascii → prog S unit) (Hh : ∀ l, steps R (handle l)).
Context (Hlb : ∀ b s, R s (set_lb b s)) (Hll : ∀ n s, R s (set_ll n s)).

Lemma steps_on_buf f : steps R (on_buf f).
Proof.
  intros s. unfold wp, on_buf, lift_oob. destruct (f (lb_buf s)); cbn; [apply Hlb|done].
Qed.

Lemma steps_process_lines fuel start : steps R (process_lines handle fuel start).
Proof.
  revert start. induction fuel as [|fuel IH]; intros start; cbn; [done|].
  apply steps_bind; [apply _|apply steps_gets; apply _|]. intros b.
  destruct (scan_to_lf _) as [[line []]|]; [|apply steps_ret; apply _|done].
  apply steps_bind; [apply _|apply steps_on_buf|]. intros _.
  apply steps_bind; [apply _|by apply steps_when; [apply _|]|]. intros _. apply IH.
Qed.

Lemma steps_receive data : steps R (receive handle data).
Proof.
  assert (Hm : ∀ n, steps R (modify (set_ll n))) by (intros n; apply steps_modify; intros s; apply Hll).
  unfold receive, finish_lines.
  repeat first [apply steps_on_buf | apply steps_process_lines | apply Hm | progress steps].
Qed.
End Through.

Section Run.
Context {S : Type} `{!LineBuffer S}.

(** Two outcomes that differ at most in the number of bytes in the buffer. *)
Definition alike {A} (o1 o2 : res S A) : Prop :=
  match o1, o2 with
  | Ok a s, Ok b t => a = b ∧ set_ll 0 s = set_ll 0 t
  | Fault f, Fault g => f = g
  | _, _ => False
  end.

Lemma alike_refl {A} (o : res S A) : alike o o.
Proof. by destruct o. Qed.

Lemma forget_ll n s : set_ll 0 (set_ll n s) = set_ll 0 s.
Proof. apply ll_set_set. Qed.

Lemma remember_ll s t : set_ll 0 s = set_ll 0 t → t = set_ll (lb_len t) s.
Proof.
  intros E. rewrite <- (ll_set_set (lb_len t) 0 s), E, ll_set_set. symmetry. apply ll_set_same.
Qed.

(** A program that neither reads nor writes the receive buffer, and does not read
    the number of bytes in it. *)
Definition blind {A} (m : prog S A) : Prop :=
  (∀ b s, m (set_lb b s) = match m s with Ok a s' => Ok a (set_lb b s') | Fault f => Fault f end) ∧
  (∀ n s, alike (m (set_ll n s)) (m s)).

Lemma blind_ret {A} (a : A) : blind (mret a).
Proof. split; [done|]. intros n s. split; [done|apply forget_ll]. Qed.
Lemma blind_skip : blind skip.
Proof. apply blind_ret. Qed.
Lemma blind_raise {A} f : blind (raise f : prog S A).
Proof. done. Qed.
Lemma blind_gets {A} (f : S → A) :
  (∀ b s, f (set_lb b s) = f s) → (∀ n s, f (set_ll n s) = f s) → blind (gets f).
Proof.
  intros Hf Hg. split; [intros b s; unfold gets; by rewrite Hf|].
  intros n s. cbn. split; [apply Hg|apply forget_ll].
Qed.
Lemma blind_modify (f : S → S) :
  (∀ b s, f (set_lb b s) = set_lb b (f s)) →
  (∀ n s, set_ll 0 (f (set_ll n s)) = set_ll 0 (f s)) → blind (modify f).
Proof.
  intros Hf Hg. split; [intros b s; unfold modify; by rewrite Hf|]. intros n s. by split.
Qed.
Lemma blind_bind {A B} (m : prog S A) (k : A → prog S B) :
  blind m → (∀ a, blind (k a)) → blind (m ≫= k).
Proof.
  intros [Hm Hm'] Hk. split.
  - intros b s. unfold mbind, prog_bind. rewrite Hm. destruct (m s); [apply Hk|done].
  - intros n s. unfold mbind, prog_bind. specialize (Hm' n s). unfold alike in Hm'.
    destruct (m (set_ll n s)) as [a s1|], (m s) as [a2 s2|]; [|done..|by cbn].
    destruct Hm' as [-> E]. rewrite (remember_ll s2 s1) by done. apply Hk.
Qed.
Lemma blind_when b m : blind m → blind (when b m).
Proof. intros Hm. destruct b; [done|apply blind_skip]. Qed.

Context (handle : list ascii → prog S unit) (Hblind : ∀ l, blind (handle l)).

Lemma blind_handle_all ls : blind (handle_all handle ls).
Proof.
  induction ls as [|l ls IH]; [apply blind_skip|]. cbn.
  apply blind_bind; [by apply blind_when|]. done.
Qed.

(** The loop, on a buffer that holds [t] from [start] on: it handles the complete
    lines of [t] in order and stops at the incomplete one. *)
Lemma process_lines_run fuel pre t post s :
  lb_buf s = pre ++ t ++ NUL :: post → NUL ∉ t → (length t < fuel)%nat →
  process_lines handle fuel (length pre) s =
    match handle_all handle (fst (split_lines [] t)) s with
    | Ok _ s' => Ok (length pre + (length t - length (snd (split_lines [] t))))%nat
                   (set_lb (pre ++ cut t ++ NUL :: post) s')
    | Fault f => Fault f
    end.
Proof.
  revert pre t s. induction fuel as [|fuel IH]; [lia|]. intros pre t s Hb Hn Hf. cbn [process_lines].
  unfold gets, mbind at 1, prog_bind at 1. rewrite Hb, drop_app_length.
  destruct (text_cases t) as [Hl|(l & t' & -> & Hl)].
  - rewrite scan_to_end, split_none, (cut_id t), <- Hb by done. cbn.
    unfold mret, prog_ret. by rewrite Nat.sub_diag, Nat.add_0_r, lb_set_same.
  - rewrite <- app_assoc. cbn [app]. rewrite scan_to_line by set_solver.
    rewrite split_line, cut_app, cut_lf, (cut_id l) by done.
    destruct (split_lines [] t') as [ls r] eqn:Es. cbn [fst snd handle_all].
    unfold mbind at 1, prog_bind at 1, on_buf at 1, lift_oob at 1. rewrite Hb, <- app_assoc.
    cbn [app]. rewrite <- length_app, (app_assoc pre l), buf_set_app. cbn [fmap option_fmap option_map].
    unfold mbind, prog_bind. rewrite (proj1 (blind_when _ _ (Hblind l))).
    destruct (when _ _ s) as [[] s1|f]; [|done].
    specialize (IH ((pre ++ l) ++ [NUL]) t' (set_lb ((pre ++ l) ++ NUL :: t' ++ NUL :: post) s1)).
    replace (length (pre ++ l) + 1)%nat with (length ((pre ++ l) ++ [NUL]))
      by (rewrite length_app; done).
    rewrite length_app in Hf. cbn in Hf.
    rewrite IH; [|by rewrite lb_buf_set, <- (app_assoc _ [NUL])|set_solver|lia].
    rewrite Es. cbn [fst snd]. rewrite (proj1 (blind_handle_all _)).
    destruct (handle_all handle ls s1) as [[] s2|f]; [|done].
    rewrite lb_set_set. pose proof (split_rest_length [] t') as Hr. rewrite Es in Hr. cbn in Hr.
    f_equal; [rewrite !length_app; cbn; lia|].
    f_equal. rewrite <- !app_assoc. done.
Qed.

Lemma store_read n data b :
  0 ≤ n → n + Z.of_nat (length data) < Z.of_nat (length b) →
  ∃ b1 post, store_at n data b = Some b1 ∧ length b1 = length b ∧
    buf_set (n + Z.of_nat (length data)) NUL b1 =
      Some ((take (Z.to_nat n) b ++ data) ++ NUL :: post) ∧
    length ((take (Z.to_nat n) b ++ data) ++ NUL :: post) = length b.
Proof.
  intros H0 Hn. set (pre := take (Z.to_nat n) b).
  assert (Hpre : length pre = Z.to_nat n) by (unfold pre; rewrite length_take; lia).
  destruct (drop (Z.to_nat n + length data) b) as [|x post] eqn:Ed.
  { apply (f_equal length) in Ed. rewrite length_drop in Ed. cbn in Ed. lia. }
  assert (Hs : store_at n data b = Some ((pre ++ data) ++ x :: post)).
  { unfold store_at. rewrite decide_True by lia. by rewrite Ed, <- app_assoc. }
  eexists _, post. split; [exact Hs|]. split; [by eapply store_at_length|].
  replace (n + Z.of_nat (length data)) with (Z.of_nat (length (pre ++ data)))
    by (rewrite length_app; lia).
  rewrite buf_set_app. split; [done|].
  apply store_at_length in Hs. rewrite <- Hs, !length_app. done.
Qed.

(** What the bytes before the first NUL are in a buffer that ends a text with NUL. *)
Lemma cstr_prefix c post :
  ∃ post', c ++ NUL :: post = cstr c ++ NUL :: post'.
Proof.
  destruct (decide (NUL ∈ c)) as [H|H].
  - exists (drop (Datatypes.S (length (cstr c))) c ++ NUL :: post).
    rewrite app_comm_cons, app_assoc. f_equal. by apply before_split.
  - exists post. f_equal. unfold cstr. induction c as [|x c IH]; [done|]. cbn.
    rewrite decide_False by set_solver. f_equal. apply IH. set_solver.
Qed.

(** The whole handler.  [c] is the buffered text with the new bytes, [t] what the
    loop sees of it, up to the first NUL. *)
Lemma receive_run n data s :
  let c := take (Z.to_nat n) (lb_buf s) ++ data in
  let t := cstr c in
  let start := (length t - length (snd (split_lines [] t)))%nat in
  lb_len s = n → 0 ≤ n → n + Z.of_nat (length data) < Z.of_nat (length (lb_buf s)) →
  match handle_all handle (fst (split_lines [] t)) (set_ll (n + Z.of_nat (length data)) s) with
  | Fault f => receive handle data s = Fault f
  | Ok _ s' =>
    lb_len s' ≤ n + Z.of_nat (length data) →
    ∃ B, length B = length (lb_buf s) ∧
      receive handle data s = Ok tt (set_ll (lb_len s' - Z.of_nat start) (set_lb B s')) ∧
      (lb_len s' = n + Z.of_nat (length data) → take (length c - start) B = drop start c)
  end.
Proof.
  intros c t start Hl H0 Hn.
  destruct (store_read n data (lb_buf s) H0 Hn) as (b1 & post & Hs & Hb1 & Hset & Hlen).
  fold c in Hset, Hlen. destruct (cstr_prefix c post) as [post' Hc]. fold t in Hc.
  assert (Hct : (length t ≤ length c)%nat).
  { unfold t, cstr. rewrite before_take, length_take. lia. }
  assert (Hcl : Z.of_nat (length c) = n + Z.of_nat (length data)).
  { unfold c. rewrite length_app, length_take. lia. }
  set (B1 := cut t ++ NUL :: post'). set (B0 := c ++ NUL :: post) in *.
  assert (Hr : receive handle data s =
    match handle_all handle (fst (split_lines [] t)) (set_ll (n + Z.of_nat (length data)) s) with
    | Ok _ s' => finish_lines start (set_lb B1 s')
    | Fault f => Fault f
    end).
  { unfold receive. unfold mbind at 1, prog_bind at 1, gets at 1. rewrite Hl.
    unfold mbind at 1, prog_bind at 1, on_buf at 1, lift_oob at 1. rewrite Hs. cbn [fmap option_fmap option_map].
    unfold mbind at 1, prog_bind at 1, modify at 1.
    unfold mbind at 1, prog_bind at 1, on_buf at 1, lift_oob at 1.
    rewrite lb_buf_len, lb_buf_set, Hset. cbn [fmap option_fmap option_map].
    rewrite lb_ll_comm, lb_set_set. unfold mbind at 1, prog_bind at 1, gets at 1.
    rewrite <- lb_ll_comm. unfold mbind at 1, prog_bind at 1. rewrite lb_buf_set.
    pose proof (process_lines_run (length B0) [] t post'
      (set_lb B0 (set_ll (n + Z.of_nat (length data)) s))) as Hp.
    cbn [length app] in Hp. rewrite Hp; clear Hp;
      [|by rewrite lb_buf_set, Hc | apply cstr_no_nul | rewrite Hlen; lia].
    rewrite (proj1 (blind_handle_all _)). destruct (handle_all _ _ _) as [[] s'|f]; [|done].
    by rewrite lb_set_set. }
  rewrite Hr. destruct (handle_all _ _ _) as [[] s'|f]; [|done]. intros Hs'.
  assert (Hst : (start ≤ length t)%nat) by (unfold start; lia).
  unfold finish_lines.
  unfold mbind at 1, prog_bind at 1, gets at 1. rewrite lb_len_set.
  assert (HB1 : length B1 = length (lb_buf s)).
  { unfold B1. rewrite <- Hlen, Hc, !length_app, cut_length. done. }
  assert (Hrest : drop start B0 = drop start B1).
  { rewrite Hc. unfold B1. rewrite !drop_app_le by (rewrite ?cut_length; lia). f_equal.
    rewrite cut_drop. unfold start. rewrite <- split_rest_suffix. symmetry.
    apply cut_id, split_rest_no_lf. set_solver. }
  assert (Hdone : take (length c - start) (drop start B1) = drop start c).
  { rewrite <- Hrest. unfold B0. rewrite drop_app_le by lia.
    rewrite take_app_length'; [done|]. rewrite length_drop. lia. }
  unfold mbind at 1, prog_bind at 1.
  destruct ((0 <? lb_len s' - Z.of_nat start) && negb (Nat.eqb start 0)) eqn:Eb.
  - apply andb_prop in Eb as [Er Ez]. apply Z.ltb_lt in Er. cbn [when].
    unfold on_buf, lift_oob. rewrite lb_buf_set. unfold move_front.
    rewrite decide_True by lia. unfold store_at.
    rewrite decide_True by (rewrite length_take, length_drop; lia).
    cbn [fmap option_fmap option_map]. unfold modify. rewrite lb_set_set.
    eexists. split; [|split; [reflexivity|]].
    + cbn. rewrite !length_app, !length_drop, !length_take, !length_drop. lia.
    + intros E. change (Z.to_nat 0) with 0%nat. rewrite take_0, app_nil_l.
      replace (Z.to_nat (lb_len s' - Z.of_nat start)) with (length c - start)%nat by lia.
      rewrite Hdone. apply take_app_length'. rewrite length_drop. lia.
  - cbn [when]. unfold skip, mret, prog_ret, modify. exists B1. split; [done|]. split; [done|].
    intros E. destruct (decide (start = 0)%nat) as [Hz|Hz].
    + rewrite Hz in *. rewrite !drop_0 in Hdone. by rewrite drop_0.
    + apply andb_false_iff in Eb as [Er|Er]; [|apply negb_false_iff, Nat.eqb_eq in Er; done].
      apply Z.ltb_ge in Er. replace (length c - start)%nat with 0%nat by lia.
      by rewrite drop_ge by lia.
Qed.

(** ** Chunks

    However the stream of lines is cut into reads, the handlers see the lines. *)

(** Equal but for the receive buffer and the number of bytes in it. *)
Definition same_but_line (s t : S) : Prop := set_lb [] (set_ll 0 s) = set_lb [] (set_ll 0 t).

#[local] Instance same_but_line_equiv : Equivalence same_but_line.
Proof. unfold same_but_line. split; [done|by intros a b ->|]. intros a b c -> ->. done. Qed.

Definition same_result {A} (o1 o2 : res S A) : Prop :=
  match o1, o2 with
  | Ok a s, Ok b t => a = b ∧ same_but_line s t
  | Fault f, Fault g => f = g
  | _, _ => False
  end.

Lemma same_result_trans {A} (a b c : res S A) : same_result a b → same_result b c → same_result a c.
Proof.
  destruct a, b, c; cbn; try done; [|congruence]. intros [-> E1] [-> E2]. split; [done|by etrans].
Qed.

Lemma same_line_set b n s : same_but_line (set_ll n (set_lb b s)) s.
Proof. unfold same_but_line. by rewrite ll_set_set, <- lb_ll_comm, lb_set_set. Qed.

Lemma blind_same_line {A} (m : prog S A) s t :
  blind m → same_but_line s t → same_result (m s) (m t).
Proof.
  intros [Hb Hl] E.
  assert (H0 : ∀ u, same_result (m u) (m (set_lb [] (set_ll 0 u)))).
  { intros u. rewrite Hb. specialize (Hl 0 u). unfold alike in Hl.
    destruct (m (set_ll 0 u)) as [a u1|], (m u) as [b u2|]; cbn; [|done..|by symmetry].
    destruct Hl as [-> E1]. split; [done|]. unfold same_but_line. 
    by rewrite <- (lb_ll_comm [] 0 u1), lb_set_set, E1. }
  eapply same_result_trans; [apply H0|]. unfold same_but_line in E. rewrite E.
  specialize (H0 t). destruct (m t), (m _); cbn in *; try done. destruct H0. by split.
Qed.

Fixpoint receive_all (chunks : list (list ascii)) : prog S unit :=
  match chunks with
  | [] => skip
  | d :: ds => receive handle d;; receive_all ds
  end.

(** Every chunk is a read of some bytes that fit behind the incomplete line. *)
Fixpoint fit_reads (cap : nat) (pend : list ascii) (chunks : list (list ascii)) : Prop :=
  match chunks with
  | [] => True
  | d :: ds => d ≠ [] ∧ (length pend + length d < cap)%nat ∧ fit_reads cap (snd (split_lines pend d)) ds
  end.

Definition keeps_len {A} (m : prog S A) : Prop := steps (fun s s' => lb_len s' = lb_len s) m.
Definition shrinks_len {A} (m : prog S A) : Prop :=
  steps (fun s s' => 0 ≤ lb_len s → 0 ≤ lb_len s' ≤ lb_len s) m.

#[local] Instance shrinks_preorder : PreOrder (fun s s' : S => 0 ≤ lb_len s → 0 ≤ lb_len s' ≤ lb_len s).
Proof. split; [intros s; lia|]. intros a b c ? ?. lia. Qed.

Lemma handle_all_app ls1 ls2 s :
  handle_all handle (ls1 ++ ls2) s =
    match handle_all handle ls1 s with Ok _ s' => handle_all handle ls2 s' | Fault f => Fault f end.
Proof.
  revert s. induction ls1 as [|l ls IH]; intros s; cbn; [done|].
  unfold mbind, prog_bind. destruct (when _ _ s); [apply IH|done].
Qed.

Lemma handle_all_shrinks ls : Forall (fun l => shrinks_len (handle l)) ls → shrinks_len (handle_all handle ls).
Proof.
  induction 1 as [|l ls Hl _ IH]; cbn; [apply steps_skip; apply _|].
  apply steps_bind; [apply _|by apply steps_when; [apply _|]|]. by intros _.
Qed.

Lemma handle_all_keeps ls : Forall (fun l => keeps_len (handle l)) ls → keeps_len (handle_all handle ls).
Proof.
  induction 1 as [|l ls Hl _ IH]; cbn; [apply steps_skip; apply _|].
  apply steps_bind; [apply _|by apply steps_when; [apply _|]|]. by intros _.
Qed.

Lemma split_cur cur t : LF ∉ cur → split_lines cur t = split_lines [] (cur ++ t).
Proof. intros Hc. rewrite split_lines_app, (split_none []) by done. cbn. by destruct (split_lines cur t). Qed.

Theorem receive_all_run chunks pend ls s :
  split_lines pend (concat chunks) = (ls, []) → NUL ∉ pend ++ concat chunks → LF ∉ pend →
  fit_reads (length (lb_buf s)) pend chunks →
  lb_len s = Z.of_nat (length pend) → take (length pend) (lb_buf s) = pend →
  Forall (fun l => shrinks_len (handle l)) ls → Forall (fun l => keeps_len (handle l)) (removelast ls) →
  same_result (receive_all chunks s) (handle_all handle ls s).
Proof.
  intros Hsp Hn Hlf Hf Hl Ht Hsh Hk. revert pend ls s Hsp Hn Hlf Hf Hl Ht Hsh Hk.
  induction chunks as [|d ds IH]; intros pend ls s Hsp Hn Hlf Hf Hl Ht Hsh Hk.
  { cbn in Hsp. injection Hsp as <- ->. by cbn. }
  destruct Hf as (Hd & Hcap & Hf). cbn [concat] in Hsp, Hn.
  rewrite split_lines_app in Hsp. destruct (split_lines pend d) as [ls1 r1] eqn:E1.
  destruct (split_lines r1 (concat ds)) as [ls2 r2] eqn:E2. injection Hsp as <- ->.
  cbn [snd] in Hf. rewrite handle_all_app. cbn [receive_all]. unfold mbind, prog_bind.
  pose proof (receive_run (lb_len s) d s eq_refl) as Hr. cbn zeta in Hr.
  rewrite Hl, Nat2Z.id, Ht in Hr. specialize (Hr ltac:(lia) ltac:(lia)).
  assert (Hc : cstr (pend ++ d) = pend ++ d) by (apply before_none; set_solver).
  rewrite Hc in Hr. rewrite (split_cur pend d Hlf) in E1. rewrite E1 in Hr. cbn [fst snd] in Hr.
  set (start := (length (pend ++ d) - length r1)%nat) in *.
  set (n := Z.of_nat (length pend) + Z.of_nat (length d)) in *.
  pose proof (proj2 (blind_handle_all ls1) n s) as Ha.
  apply Forall_app in Hsh as [Hsh1 Hsh2].
  pose proof (handle_all_shrinks ls1 Hsh1 (set_ll n s)) as Hshr. unfold wp in Hshr.
  destruct (handle_all handle ls1 (set_ll n s)) as [[] s1|f] eqn:Es1;
    (destruct (handle_all handle ls1 s) as [[] s1'|f'] eqn:Es1'; [|try done]); [| |by rewrite Hr, Ha].
  2: done.
  destruct Ha as [_ Ha]. rewrite lb_len_len in Hshr. specialize (Hshr ltac:(lia)).
  destruct (Hr (proj2 Hshr)) as (B & HB & -> & Hpre). clear Hr.
  set (s2 := set_ll (lb_len s1 - Z.of_nat start) (set_lb B s1)).
  assert (Es : same_but_line s2 s1').
  { etrans; [apply same_line_set|]. unfold same_but_line. by rewrite Ha. }
  destruct ds as [|d' ds].
  { cbn in E2. injection E2 as <- _. by cbn. }
  assert (Hlr : LF ∉ r1).
  { pose proof (split_rest_no_lf [] (pend ++ d)) as H0. rewrite E1 in H0. apply H0. set_solver. }
  assert (Hne : ls2 ≠ []).
  { intros ->. cbn [concat] in E2. destruct Hf as [Hd' _].
    pose proof (split_rest_suffix (r1 ++ d' ++ concat ds)) as Hsuf.
    rewrite (split_cur r1 _ Hlr) in E2. destruct (text_cases (r1 ++ d' ++ concat ds)) as [H1|(l & t' & H1 & H2)].
    - rewrite split_none in E2 by done. injection E2 as E2. destruct r1, d'; done.
    - rewrite H1, split_line in E2 by done. by destruct (split_lines [] t'). }
  rewrite removelast_app in Hk by done. apply Forall_app in Hk as [Hk1 Hk2].
  pose proof (handle_all_keeps ls1 Hk1 (set_ll n s)) as Hkeep. unfold wp in Hkeep.
  rewrite Es1, lb_len_len in Hkeep.
  assert (Hn0 : n = Z.of_nat (length (pend ++ d))) by (unfold n; rewrite length_app; lia).
  assert (Hrl : (length r1 ≤ length (pend ++ d))%nat).
  { pose proof (split_rest_length [] (pend ++ d)) as H0. rewrite E1 in H0. exact H0. }
  specialize (Hpre Hkeep).
  assert (Hr1 : r1 = drop start (pend ++ d)).
  { pose proof (split_rest_suffix (pend ++ d)) as H0. by rewrite E1 in H0. }
  assert (Hst : (length (pend ++ d) - start = length r1)%nat) by (unfold start; lia).
  rewrite Hst, <- Hr1 in Hpre.
  eapply same_result_trans; [|by apply (blind_same_line _ s2 s1'); [apply blind_handle_all|]].
  apply (IH r1); try done.
  - rewrite app_assoc, <- (take_drop start (pend ++ d)), <- Hr1 in Hn. set_solver.
  - unfold s2. by rewrite lb_buf_len, lb_buf_set, HB.
  - unfold s2. rewrite lb_len_len. lia.
  - unfold s2. by rewrite lb_buf_len, lb_buf_set.
Qed.
End Run.
