(* ===== verification/DesktopEntry.v ===== *)
(** * Desktop entries (platform/X11/common/desktop.c)

    The parser of .desktop files, the lists in them, and the command line that
    is built from the Exec key.  Strings the code allocates are texts, NULL is
    [None].  Writes to arrays of computed size are checked: [None] in
    [parse_action_ids] and [sb_printf] is a write outside the array. *)

From S2P Require Import Prelude.
From S2P Require Import CString.
From S2P Require Import CFloat.
Open Scope Z_scope.

(** The file system a program reads. *)
Class FileSystem (St : Type) := {
  read_file : text → prog St (option text);        (* fopen and all of the file *)
  read_dir : text → prog St (option (list text))   (* opendir and the entry names *)
}.

Record DesktopAction := mkAction {
  a_id : text; a_name : option text; a_exec : option text; a_icon : option text
}.
#[export] Instance action_eta : RecEta DesktopAction := Build_RecEta _ (fun a =>
  mkAction (a_id a) (a_name a) (a_exec a) (a_icon a)).

Record IsdeDesktopEntry := mkEntry {
  desktop_id : text;
  e_name : option text;
  e_generic_name : option text;
  e_comment : option text;
  e_exec : option text;
  e_icon : option text;
  e_type : option text;
  e_categories : option text;
  e_mime_types : option text;
  e_startup_wm_class : option text;
  e_only_show_in : option text;
  e_not_show_in : option text;
  e_actions_str : option text;
  e_actions : option (list DesktopAction);
  e_terminal : bool;
  e_no_display : bool;
  e_hidden : bool;
  e_startup_notify : bool
}.
#[export] Instance entry_eta : RecEta IsdeDesktopEntry := Build_RecEta _ (fun e =>
  mkEntry (desktop_id e) (e_name e) (e_generic_name e) (e_comment e) (e_exec e) (e_icon e)
    (e_type e) (e_categories e) (e_mime_types e) (e_startup_wm_class e) (e_only_show_in e)
    (e_not_show_in e) (e_actions_str e) (e_actions e) (e_terminal e) (e_no_display e)
    (e_hidden e) (e_startup_notify e)).

(** [calloc(1, sizeof *e)], with the name of the file. *)
Definition empty_entry (id : text) : IsdeDesktopEntry :=
  mkEntry id None None None None None None None None None None None None None
    false false false false.

(** ** Parsing *)

Definition strip (s : text) : text := rev (skip_space (rev (skip_space s))).

Definition is_true (v : text) : bool := bool_decide (v = str "true").

Definition set_field (e : IsdeDesktopEntry) (key val : text) : IsdeDesktopEntry :=
  if decide (key = str "Name") then e <| e_name := Some val |>
  else if decide (key = str "GenericName") then e <| e_generic_name := Some val |>
  else if decide (key = str "Comment") then e <| e_comment := Some val |>
  else if decide (key = str "Exec") then e <| e_exec := Some val |>
  else if decide (key = str "Icon") then e <| e_icon := Some val |>
  else if decide (key = str "Type") then e <| e_type := Some val |>
  else if decide (key = str "Categories") then e <| e_categories := Some val |>
  else if decide (key = str "MimeType") then e <| e_mime_types := Some val |>
  else if decide (key = str "OnlyShowIn") then e <| e_only_show_in := Some val |>
  else if decide (key = str "NotShowIn") then e <| e_not_show_in := Some val |>
  else if decide (key = str "Terminal") then e <| e_terminal := is_true val |>
  else if decide (key = str "NoDisplay") then e <| e_no_display := is_true val |>
  else if decide (key = str "Hidden") then e <| e_hidden := is_true val |>
  else if decide (key = str "StartupWMClass") then e <| e_startup_wm_class := Some val |>
  else if decide (key = str "StartupNotify") then e <| e_startup_notify := is_true val |>
  else if decide (key = str "Actions") then e <| e_actions_str := Some val |>
  else e.

(** The index of the action with the id. *)
Definition find_action (e : IsdeDesktopEntry) (id : text) : option nat :=
  fst <$> list_find (fun a => a_id a = id) (default [] (e_actions e)).

(** The pieces [strtok(s, ";")] returns, one after another. *)
Fixpoint strtok_semi (cur s : text) : list text :=
  match s with
  | [] => match cur with [] => [] | _ => [cur] end
  | c :: s' =>
    if decide (c = ";"%char)
    then match cur with [] => strtok_semi [] s' | _ => cur :: strtok_semi [] s' end
    else strtok_semi (cur ++ [c]) s'
  end.

(** The loop that estimates the number of actions; [prev] is [p[-1]]. *)
Fixpoint count_ids (count : nat) (prev : ascii) (s : text) : nat :=
  match s with
  | [] => count
  | c :: s' =>
    count_ids (if decide (c = ";"%char) then S count
               else if decide (count = 0%nat ∨ prev = ";"%char) then S count
               else count) c s'
  end.

(** The loop over the pieces, into an array of [cap] actions. *)
Fixpoint store_ids (cap : nat) (acts : list DesktopAction) (toks : list text)
    : option (list DesktopAction) :=
  match toks with
  | [] => Some acts
  | tok :: toks' =>
    match strip tok with
    | [] => store_ids cap acts toks'
    | id => if decide (length acts < cap)%nat
            then store_ids cap (acts ++ [mkAction id None None None]) toks' else None
    end
  end.

Definition parse_action_ids (e : IsdeDesktopEntry) : option IsdeDesktopEntry :=
  match e_actions_str e with
  | None => Some e
  | Some a =>
    acts ← store_ids (count_ids 0 NUL a + 1) [] (strtok_semi [] a);
    Some (e <| e_actions := Some acts |>)
  end.

Record parser := mkParser {
  p_entry : IsdeDesktopEntry;
  in_desktop_entry : bool;
  current_action_id : option text
}.
#[export] Instance parser_eta : RecEta parser := Build_RecEta _ (fun p =>
  mkParser (p_entry p) (in_desktop_entry p) (current_action_id p)).

Definition ENTRY_GROUP : text := str "[Desktop Entry]".
Definition ACTION_GROUP : text := str "[Desktop Action ".

(** [strncmp(s, p, strlen(p)) == 0] *)
Definition has_prefix (p s : text) : bool := bool_decide (take (length p) s = p).

Definition set_action_field (key val : text) (a : DesktopAction) : DesktopAction :=
  if decide (key = str "Name") then a <| a_name := Some val |>
  else if decide (key = str "Exec") then a <| a_exec := Some val |>
  else if decide (key = str "Icon") then a <| a_icon := Some val |>
  else a.

Definition group_header (s : text) (p : parser) : parser :=
  let p := p <| in_desktop_entry := false |> <| current_action_id := None |> in
  if has_prefix ENTRY_GROUP s then p <| in_desktop_entry := true |>
  else if has_prefix ACTION_GROUP s then
    let rest := drop (length ACTION_GROUP) s in
    match strchr "]"%char rest with
    | Some _ => p <| current_action_id := Some (before "]"%char rest) |>
    | None => p
    end
  else p.

Definition key_value (key val : text) (p : parser) : option parser :=
  if in_desktop_entry p then Some (p <| p_entry := set_field (p_entry p) key val |>)
  else match current_action_id p with
  | None => Some p
  | Some id =>
    e ← match e_actions (p_entry p) with
        | None => parse_action_ids (p_entry p)
        | Some _ => Some (p_entry p)
        end;
    match find_action e id with
    | Some i => Some (p <| p_entry :=
        e <| e_actions := alter (set_action_field key val) i <$> e_actions e |> |>)
    | None => Some (p <| p_entry := e |>)
    end
  end.

(** One line, with its line feed. *)
Definition parse_line (p : parser) (line : text) : option parser :=
  let s := strip (cstr line) in
  match s with
  | [] => Some p
  | c :: _ =>
    if decide (c = "#"%char) then Some p
    else if decide (c = "["%char) then Some (group_header s p)
    else match strchr "="%char s with
    | None => Some p
    | Some rest =>
      let k := before "="%char s in
      if decide ("["%char ∈ k) then Some p
      else key_value (strip k) (strip (tail rest)) p
    end
  end.

Fixpoint parse_lines (p : parser) (lines : list text) : option parser :=
  match lines with
  | [] => Some p
  | l :: ls => p' ← parse_line p l; parse_lines p' ls
  end.

(** What follows the last slash of a path. *)
Definition basename (path : text) : text := rev (before "/"%char (rev path)).

Definition parse_desktop (path file : text) : option IsdeDesktopEntry :=
  p ← parse_lines (mkParser (empty_entry (basename path)) false None) (fgets_lines 1023 [] file);
  let e := p_entry p in
  match e_actions e with None => parse_action_ids e | Some _ => Some e end.

Definition isde_desktop_load `{FileSystem St} (path : text) : prog St (option IsdeDesktopEntry) :=
  f ← read_file path;
  match f with
  | None => mret None
  | Some file =>
    match parse_desktop path file with
    | Some e => mret (Some e)
    | None => raise OutOfBounds
    end
  end.

(** ** Lists of desktops and MIME types *)

(** Is [item] an element of the semicolon-separated list?  Each round moves [p]
    past a semicolon, so the length of the list is fuel enough. *)
Fixpoint list_contains_from (fuel : nat) (p item : text) : bool :=
  match fuel, p with
  | O, _ | _, [] => false
  | S fuel', _ =>
    if decide (before ";"%char p = item) then true
    else match strchr ";"%char p with
    | Some rest => list_contains_from fuel' (tail rest) item
    | None => false
    end
  end.

Definition list_contains (l : option text) (item : text) : bool :=
  match l with
  | None => false
  | Some p => list_contains_from (S (length p)) p item
  end.

Definition isde_desktop_should_show (e : IsdeDesktopEntry) (desktop : text) : bool :=
  if e_hidden e || e_no_display e then false
  else match e_only_show_in e with
  | Some _ => list_contains (e_only_show_in e) desktop
  | None =>
    match e_not_show_in e with
    | Some _ => negb (list_contains (e_not_show_in e) desktop)
    | None => true
    end
  end.

Definition isde_desktop_handles_mime (e : IsdeDesktopEntry) (mime : text) : bool :=
  match e_mime_types e with
  | None => false
  | Some _ => list_contains (e_mime_types e) mime
  end.

(** ** String building *)

(** A position in an array of [cap] bytes, and the bytes written before it.
    The position is what the calls to [snprintf] add up to: it may pass the end. *)
Abbreviation sbuf := (Z * text)%type (only parsing).

(** [pos += snprintf(out + pos, cap - pos, "%s", s)]: past the end, the size is
    negative and taken as a huge unsigned one, so the bytes go outside the array. *)
Definition sb_printf (cap : Z) (s : text) (b : sbuf) : option sbuf :=
  if cap <? fst b then None
  else Some (fst b + Z.of_nat (length s), snd b ++ take (Z.to_nat (cap - fst b - 1)) s).

(** [if (pos < cap - 1) out[pos++] = c] *)
Definition sb_putc (cap : Z) (c : ascii) (b : sbuf) : sbuf :=
  if fst b <? cap - 1 then (fst b + 1, snd b ++ [c]) else b.

Definition quoted (s : text) : text := str "'" ++ s ++ str "'".

(** The files of %F: each after a blank but the first. *)
Fixpoint put_files (cap : Z) (first : bool) (files : list text) (b : sbuf) : option sbuf :=
  match files with
  | [] => Some b
  | f :: fs => b' ← sb_printf cap ((if first then [] else str " ") ++ quoted f) b;
               put_files cap false fs b'
  end.

(** A field code. *)
Definition put_code (cap : Z) (e : IsdeDesktopEntry) (files : list text) (c : ascii) (b : sbuf)
    : option sbuf :=
  if decide (c = "f"%char ∨ c = "u"%char) then
    match files with f :: _ => sb_printf cap (quoted f) b | [] => Some b end
  else if decide (c = "F"%char ∨ c = "U"%char) then put_files cap true files b
  else if decide (c = "i"%char) then
    match e_icon e with Some i => sb_printf cap (str "--icon " ++ quoted i) b | None => Some b end
  else if decide (c = "c"%char) then
    match e_name e with Some n => sb_printf cap (quoted n) b | None => Some b end
  else if decide (c = "%"%char) then Some (sb_putc cap "%"%char b)
  else Some b.

Fixpoint build_loop (cap : Z) (e : IsdeDesktopEntry) (files : list text) (src : text) (b : sbuf)
    : option sbuf :=
  match src with
  | [] => Some b
  | c :: src' =>
    match decide (c = "%"%char), src' with
    | left _, d :: src'' => b' ← put_code cap e files d b; build_loop cap e files src'' b'
    | _, _ => build_loop cap e files src' (sb_putc cap c b)
    end
  end.

(** The size the code allocates. *)
Definition exec_cap (src : text) (files : list text) : Z :=
  Z.of_nat (length src) + 256 + foldr (fun f n => Z.of_nat (length f) + 3 + n) 0 files.

Definition isde_desktop_build_exec {St} (e : IsdeDesktopEntry) (files : list text)
    : prog St (option text) :=
  match e_exec e with
  | None => mret None
  | Some src =>
    let cap := exec_cap src files in
    match build_loop cap e files src (0, []) with
    | Some (pos, out) => if pos <? cap then mret (Some out) else raise OutOfBounds
    | None => raise OutOfBounds
    end
  end.

(** ** Directories *)

Definition is_desktop_file (name : text) : bool :=
  (9 <=? length name)%nat && bool_decide (drop (length name - 8) name = str ".desktop").

Fixpoint load_all `{FileSystem St} (dir : text) (names : list text) : prog St (list IsdeDesktopEntry) :=
  match names with
  | [] => mret []
  | n :: ns =>
    if is_desktop_file n then
      e ← isde_desktop_load (dir ++ str "/" ++ n);
      es ← load_all dir ns;
      mret (match e with Some e => e :: es | None => es end)
    else load_all dir ns
  end.

(** NULL and the empty array are both [[]]: the callers only use the count. *)
Definition isde_desktop_scan_dir `{FileSystem St} (dir : text) : prog St (list IsdeDesktopEntry) :=
  d ← read_dir dir;
  match d with
  | None => mret []
  | Some names => load_all dir names
  end.

(** The non-empty directories of a colon-separated list, in order. *)
Fixpoint colon_dirs (cur s : text) : list text :=
  match s with
  | [] => match cur with [] => [] | _ => [cur] end
  | c :: s' =>
    if decide (c = ":"%char)
    then match cur with [] => colon_dirs [] s' | _ => cur :: colon_dirs [] s' end
    else colon_dirs (cur ++ [c]) s'
  end.
