(* ===== verification/DesktopClaims.v ===== *)
(** * Desktop entries: the theorems *)

From S2P Require Import Prelude.
From S2P Require Import CString.
From S2P Require Import CFloat.
From S2P Require Import TwoState.
From S2P Require Import LineIpc.
From S2P Require Import DesktopEntry.
Open Scope Z_scope.

(** ** The action array is large enough *)

Lemma count_ids_bound n prev cur s :
  (cur = [] → n = 0%nat ∨ prev = ";"%char) →
  (length (strtok_semi cur s) + n ≤ count_ids n prev s + (if cur then 0 else 1))%nat.
Proof.
  revert n prev cur. induction s as [|c s IH]; intros n prev cur Hc; cbn [strtok_semi count_ids].
  - destruct cur; cbn; lia.
  - destruct (decide (c = ";"%char)) as [->|Hn].
    + specialize (IH (S n) ";"%char [] (fun _ => or_intror eq_refl)).
      destruct cur; cbn in *; lia.
    + destruct (decide (n = 0%nat ∨ prev = ";"%char)) as [Hd|Hd].
      * specialize (IH (S n) c (cur ++ [c])). destruct cur; cbn in *.
        -- specialize (IH ltac:(done)). lia.
        -- specialize (IH ltac:(done)). lia.
      * destruct cur as [|x cur]; [by destruct (Hc eq_refl); destruct Hd; auto|].
        specialize (IH n c ((x :: cur) ++ [c]) ltac:(done)). cbn in *. lia.
Qed.

Lemma store_ids_total cap acts toks :
  (length acts + length toks ≤ cap)%nat → is_Some (store_ids cap acts toks).
Proof.
  revert acts. induction toks as [|t toks IH]; intros acts H; cbn in *; [by eexists|].
  destruct (strip t); [apply IH; lia|]. rewrite decide_True by lia.
  apply IH. rewrite length_app. cbn. lia.
Qed.

Lemma parse_action_ids_total e : is_Some (parse_action_ids e).
Proof.
  unfold parse_action_ids. destruct (e_actions_str e) as [a|]; [|by eexists].
  destruct (store_ids_total (count_ids 0 NUL a + 1) [] (strtok_semi [] a)) as [acts ->].
  - pose proof (count_ids_bound 0 NUL [] a). cbn in *. lia.
  - by eexists.
Qed.

Lemma key_value_total k v p : is_Some (key_value k v p).
Proof.
  unfold key_value. destruct (in_desktop_entry p); [by eexists|].
  destruct (current_action_id p) as [id|]; [|by eexists].
  assert (H : is_Some (match e_actions (p_entry p) with
    | Some _ => Some (p_entry p) | None => parse_action_ids (p_entry p) end)).
  { destruct (e_actions _); [by eexists | apply parse_action_ids_total]. }
  destruct H as [e ->]. cbn. destruct (find_action e id); by eexists.
Qed.

Lemma parse_line_total p l : is_Some (parse_line p l).
Proof.
  unfold parse_line. destruct (strip (cstr l)) as [|c s]; [by eexists|].
  repeat (destruct (decide _); [by eexists|]).
  destruct (strchr _ _); [|by eexists]. cbv zeta.
  destruct (decide _); [by eexists | apply key_value_total].
Qed.

Lemma parse_lines_total p ls : is_Some (parse_lines p ls).
Proof.
  revert p. induction ls as [|l ls IH]; intros p; [by eexists|]. cbn.
  destruct (parse_line_total p l) as [p' ->]. apply IH.
Qed.

Lemma parse_desktop_total path file : is_Some (parse_desktop path file).
Proof.
  unfold parse_desktop.
  destruct (parse_lines_total (mkParser (empty_entry (basename path)) false None)
    (fgets_lines 1023 [] file)) as [p ->]. cbn.
  destruct (e_actions _); [by eexists | apply parse_action_ids_total].
Qed.

(** Scanning a directory keeps any invariant that reading files keeps. *)
Section Scan.
Context `{FileSystem St} (I : St → Prop).
Hypothesis read_file_safe : ∀ p, safely I (read_file p).
Hypothesis read_dir_safe : ∀ p, safely I (read_dir p).

Lemma safely_load path : safely I (isde_desktop_load path).
Proof.
  apply safely_bind; [done|]. intros [file|]; [|apply safely_ret].
  destruct (parse_desktop_total path file) as [e ->]. apply safely_ret.
Qed.

Lemma safely_load_all dir names : safely I (load_all dir names).
Proof.
  induction names as [|n ns IH]; cbn [load_all]; [apply safely_ret|].
  destruct (is_desktop_file n); [|done]. apply safely_bind; [apply safely_load|].
  intros e. apply safely_bind; [done|]. intros es. apply safely_ret.
Qed.

Lemma safely_scan_dir dir : safely I (isde_desktop_scan_dir dir).
Proof.
  apply safely_bind; [done|]. intros [names|]; [apply safely_load_all|apply safely_ret].
Qed.
End Scan.

(** ** Printing and parsing *)

(** No blanks at either end. *)
Definition tight (s : text) : Prop := skip_space s = s ∧ skip_space (rev s) = rev s.

Lemma skip_space_head c s : isspace c = false → skip_space (c :: s) = c :: s.
Proof. cbn. by intros ->. Qed.

Lemma skip_space_le s : (length (skip_space s) ≤ length s)%nat.
Proof. induction s as [|c s IH]; cbn; [done|]. destruct (isspace c); cbn; lia. Qed.

Lemma tight_head c s : tight (c :: s) → isspace c = false.
Proof.
  intros [H _]. cbn in H. destruct (isspace c); [|done].
  apply (f_equal length) in H. pose proof (skip_space_le s). cbn in H. lia.
Qed.

Lemma tight_last c s : tight (s ++ [c]) → isspace c = false.
Proof.
  intros [_ H]. rewrite rev_app_distr in H. cbn in H. destruct (isspace c); [|done].
  apply (f_equal length) in H. pose proof (skip_space_le (rev s)). cbn in H. lia.
Qed.

Lemma tight_strip s : tight s → strip s = s.
Proof. intros [H1 H2]. unfold strip. by rewrite H1, H2, rev_involutive. Qed.

Lemma tight_intro c s d t :
  c :: s = t ++ [d] → isspace c = false → isspace d = false → tight (c :: s).
Proof.
  intros E Hc Hd. split; [by apply skip_space_head|].
  rewrite E, rev_app_distr. by apply skip_space_head.
Qed.

Lemma strip_line s : s ≠ [] → tight s → strip (s ++ [LF]) = s.
Proof.
  intros Hs Ht. destruct s as [|c s]; [done|]. unfold strip.
  rewrite <- app_comm_cons, (skip_space_head c) by by eapply tight_head.
  rewrite app_comm_cons, rev_app_distr. change (rev [LF] ++ ?x) with (LF :: x).
  change (skip_space (LF :: ?x)) with (skip_space x). destruct Ht as [_ ->].
  apply rev_involutive.
Qed.

(** A key: letters only. *)
Definition is_letter (c : ascii) : bool :=
  let n := nat_of_ascii c in
  ((65 <=? n) && (n <=? 90) || (97 <=? n) && (n <=? 122))%nat.
Definition good_key (k : text) : Prop := k ≠ [] ∧ forallb is_letter k = true.

(** A value: one line, no blanks at its ends, short enough for the line buffer. *)
Definition good_val (v : text) : Prop :=
  LF ∉ v ∧ NUL ∉ v ∧ tight v ∧ (length v ≤ 1000)%nat.
Definition good_opt (o : option text) : Prop := from_option good_val True o.

Lemma letter_not (k : text) (c : ascii) :
  forallb is_letter k = true → is_letter c = false → c ∉ k.
Proof.
  intros H Hc Hin. rewrite forallb_forall in H. specialize (H c).
  rewrite H in Hc; [done|]. by apply list_elem_of_In.
Qed.

Lemma letter_space c : is_letter c = true → isspace c = false.
Proof. destruct c as [[] [] [] [] [] [] [] []]; by vm_compute. Qed.

Lemma key_tight k : good_key k → tight k.
Proof.
  intros [Hn Hl]. rewrite forallb_forall in Hl. destruct k as [|c k]; [done|].
  destruct (exists_last Hn) as (t & d & E). eapply tight_intro; [exact E|..].
  - apply letter_space, Hl. by left.
  - apply letter_space, Hl. rewrite E. apply in_or_app. right. by left.
Qed.

Lemma before_char c s t : c ∉ s → before c (s ++ c :: t) = s.
Proof. apply before_app_mem. Qed.

Lemma strchr_char c s t : c ∉ s → strchr c (s ++ c :: t) = Some (c :: t).
Proof.
  induction s as [|x s IH]; cbn; intros H; [by rewrite decide_True|].
  rewrite decide_False by set_solver. apply IH. set_solver.
Qed.

Definition field_line (k v : text) : text := k ++ "="%char :: v.

Lemma field_tight k v : good_key k → tight v → tight (field_line k v).
Proof.
  intros Hk Hv. pose proof (key_tight k Hk) as Hkt. destruct Hk as [Hn _].
  destruct k as [|c k]; [done|]. unfold field_line. rewrite <- app_comm_cons.
  destruct v as [|x v'] eqn:Ev.
  - apply (tight_intro _ _ "="%char (c :: k)); [done|by eapply tight_head|done].
  - destruct (exists_last (l := x :: v')) as (t & d & E); [done|].
    apply (tight_intro _ _ d ((c :: k) ++ "="%char :: t)).
    + rewrite E. by rewrite <- app_assoc.
    + by eapply tight_head.
    + apply (tight_last d t). by rewrite <- E.
Qed.

(** A line [key=value] sets the field. *)
Lemma parse_field p k v :
  good_key k → good_val v → parse_line p (field_line k v ++ [LF]) = key_value k v p.
Proof.
  intros Hk (Hl & H0 & Ht & _). pose proof (field_tight k v Hk Ht) as Hf.
  pose proof (key_tight k Hk) as Hkt. destruct Hk as [Hn Hlt].
  assert (Hc : ∀ c, is_letter c = false → c ∉ k) by (intros; by apply letter_not).
  unfold parse_line. unfold cstr.
  rewrite before_none; [|unfold field_line; rewrite !not_elem_of_app, !not_elem_of_cons;
    split_and!; [by apply Hc|done|done|done|apply not_elem_of_nil]].
  rewrite strip_line; [|by destruct k|done].
  unfold field_line. destruct k as [|c k]; [done|]. cbn [app].
  assert (Hx : is_letter c = true) by (rewrite forallb_forall in Hlt; apply Hlt; by left).
  rewrite !decide_False by (intros ->; by vm_compute in Hx).
  rewrite app_comm_cons, strchr_char, before_char by by apply Hc.
  rewrite decide_False by by apply Hc. cbn [tail].
  by rewrite !tight_strip by done.
Qed.

(** ** A file in the format of the specification *)

Definition opt_line (k : string) (o : option text) : list text :=
  match o with Some v => [field_line (str k) v] | None => [] end.
Definition flag_line (k : string) (b : bool) : list text :=
  if b then [field_line (str k) (str "true")] else [].

Definition action_lines (a : DesktopAction) : list text :=
  (ACTION_GROUP ++ a_id a ++ str "]") ::
  opt_line "Name" (a_name a) ++ opt_line "Exec" (a_exec a) ++ opt_line "Icon" (a_icon a).

Definition field_lines (e : IsdeDesktopEntry) : list text :=
  opt_line "Name" (e_name e) ++ opt_line "GenericName" (e_generic_name e) ++
  opt_line "Comment" (e_comment e) ++ opt_line "Exec" (e_exec e) ++
  opt_line "Icon" (e_icon e) ++ opt_line "Type" (e_type e) ++
  opt_line "Categories" (e_categories e) ++ opt_line "MimeType" (e_mime_types e) ++
  opt_line "StartupWMClass" (e_startup_wm_class e) ++
  opt_line "OnlyShowIn" (e_only_show_in e) ++ opt_line "NotShowIn" (e_not_show_in e) ++
  opt_line "Actions" (e_actions_str e) ++
  flag_line "Terminal" (e_terminal e) ++ flag_line "NoDisplay" (e_no_display e) ++
  flag_line "Hidden" (e_hidden e) ++ flag_line "StartupNotify" (e_startup_notify e).

Definition print_entry (e : IsdeDesktopEntry) : text :=
  join_lines (ENTRY_GROUP :: field_lines e ++
              concat (map action_lines (default [] (e_actions e)))).

(** A semicolon after each item, as the specification writes lists. *)
Definition semi_list (items : list text) : text := concat (map (fun i => i ++ str ";") items).

Definition good_id (i : text) : Prop := i ≠ [] ∧ good_val i ∧ ";"%char ∉ i ∧ "]"%char ∉ i.
Definition good_action (a : DesktopAction) : Prop :=
  good_id (a_id a) ∧ good_opt (a_name a) ∧ good_opt (a_exec a) ∧ good_opt (a_icon a).

Definition good_entry (e : IsdeDesktopEntry) : Prop :=
  Forall good_opt [e_name e; e_generic_name e; e_comment e; e_exec e; e_icon e; e_type e;
    e_categories e; e_mime_types e; e_startup_wm_class e; e_only_show_in e; e_not_show_in e;
    e_actions_str e] ∧
  match e_actions e with
  | None => e_actions_str e = None
  | Some acts => e_actions_str e = Some (semi_list (map a_id acts)) ∧
      NoDup (map a_id acts) ∧ Forall good_action acts
  end.

Lemma fgets_line n cur l rest :
  LF ∉ l → (length l < n)%nat →
  fgets_lines n cur (l ++ LF :: rest) = (cur ++ l ++ [LF]) :: fgets_lines 1023 [] rest.
Proof.
  revert n cur. induction l as [|c l IH]; intros [|n] cur Hl Hn; cbn in Hn; try lia; cbn [app fgets_lines].
  - by rewrite decide_True by by left.
  - rewrite decide_False by (intros [->|]; [set_solver|lia]).
    rewrite IH by (set_solver || lia). by rewrite <- app_assoc.
Qed.

Lemma fgets_join ls :
  Forall (fun l => LF ∉ l ∧ (length l < 1023)%nat) ls →
  fgets_lines 1023 [] (join_lines ls) = map (fun l => l ++ [LF]) ls.
Proof.
  unfold join_lines. induction 1 as [|l ls [Hl Hn] _ IH]; [done|].
  cbn [map concat]. rewrite <- app_assoc. cbn [app].
  rewrite fgets_line by done. by rewrite IH.
Qed.

(** What [parse_lines] does on the lines of a printed file. *)
Definition parse_printed (p : parser) (ls : list text) : option parser :=
  parse_lines p (map (fun l => l ++ [LF]) ls).

Lemma parse_printed_app p a b :
  parse_printed p (a ++ b) = parse_printed p a ≫= fun p' => parse_printed p' b.
Proof.
  unfold parse_printed. rewrite map_app. revert p. induction a as [|l a IH]; intros p; [done|].
  cbn. destruct (parse_line p _) as [p'|]; [|done]. apply IH.
Qed.

(** The entry group: each key sets its field. *)
Lemma parse_opt e c k o (U : option text → IsdeDesktopEntry) :
  good_key (str k) → good_opt o → (∀ v, set_field e (str k) v = U (Some v)) → U None = e →
  parse_printed (mkParser e true c) (opt_line k o) = Some (mkParser (U o) true c).
Proof.
  intros Hk Ho Hs Hn. destruct o as [v|]; [|by rewrite Hn]. unfold parse_printed. cbn.
  rewrite parse_field by done. unfold key_value. cbn. by rewrite Hs.
Qed.

Lemma true_val : good_val (str "true").
Proof. split; [|split; [|split; [by split|cbn; lia]]]; apply (bool_decide_unpack _); by vm_compute. Qed.

Lemma parse_flag e c k b (U : bool → IsdeDesktopEntry) :
  good_key (str k) → (∀ v, set_field e (str k) v = U (is_true v)) → U false = e →
  parse_printed (mkParser e true c) (flag_line k b) = Some (mkParser (U b) true c).
Proof.
  intros Hk Hs Hn. destruct b; [|by rewrite Hn]. unfold parse_printed. cbn.
  rewrite (parse_field _ (str k) (str "true")) by (done || apply true_val).
  unfold key_value. cbn. by rewrite Hs.
Qed.

(** The entry before its actions are known. *)
Definition without_actions (e : IsdeDesktopEntry) : IsdeDesktopEntry := e <| e_actions := None |>.

Ltac take_field U :=
  rewrite parse_printed_app, (parse_opt _ _ _ _ U);
  [|split; [done|by vm_compute] | assumption | reflexivity | reflexivity]; cbn [mbind option_bind].
Ltac take_flag U :=
  rewrite ?parse_printed_app, (parse_flag _ _ _ _ U);
  [|split; [done|by vm_compute] | reflexivity | reflexivity]; cbn [mbind option_bind].

Lemma parse_fields e c :
  good_entry e →
  parse_printed (mkParser (empty_entry (desktop_id e)) true c) (field_lines e) =
    Some (mkParser (without_actions e) true c).
Proof.
  intros [H _]. rewrite !Forall_cons in H.
  destruct H as (H1 & H2 & H3 & H4 & H5 & H6 & H7 & H8 & H9 & H10 & H11 & H12 & _).
  destruct e as [i f1 f2 f3 f4 f5 f6 f7 f8 f9 f10 f11 f12 acts b1 b2 b3 b4]. cbn in H1,H2,H3,H4,H5,H6,H7,H8,H9,H10,H11,H12.
  unfold field_lines, without_actions, empty_entry. cbn.
  take_field (fun o => mkEntry i o None None None None None None None None None None None None false false false false).
  take_field (fun o => mkEntry i f1 o None None None None None None None None None None None false false false false).
  take_field (fun o => mkEntry i f1 f2 o None None None None None None None None None None false false false false).
  take_field (fun o => mkEntry i f1 f2 f3 o None None None None None None None None None false false false false).
  take_field (fun o => mkEntry i f1 f2 f3 f4 o None None None None None None None None false false false false).
  take_field (fun o => mkEntry i f1 f2 f3 f4 f5 o None None None None None None None false false false false).
  take_field (fun o => mkEntry i f1 f2 f3 f4 f5 f6 o None None None None None None false false false false).
  take_field (fun o => mkEntry i f1 f2 f3 f4 f5 f6 f7 o None None None None None false false false false).
  take_field (fun o => mkEntry i f1 f2 f3 f4 f5 f6 f7 f8 o None None None None false false false false).
  take_field (fun o => mkEntry i f1 f2 f3 f4 f5 f6 f7 f8 f9 o None None None false false false false).
  take_field (fun o => mkEntry i f1 f2 f3 f4 f5 f6 f7 f8 f9 f10 o None None false false false false).
  take_field (fun o => mkEntry i f1 f2 f3 f4 f5 f6 f7 f8 f9 f10 f11 o None false false false false).
  take_flag (fun b => mkEntry i f1 f2 f3 f4 f5 f6 f7 f8 f9 f10 f11 f12 None b false false false).
  take_flag (fun b => mkEntry i f1 f2 f3 f4 f5 f6 f7 f8 f9 f10 f11 f12 None b1 b false false).
  take_flag (fun b => mkEntry i f1 f2 f3 f4 f5 f6 f7 f8 f9 f10 f11 f12 None b1 b2 b false).
  by take_flag (fun b => mkEntry i f1 f2 f3 f4 f5 f6 f7 f8 f9 f10 f11 f12 None b1 b2 b3 b).
Qed.

(** The actions of the entry, once the parser has looked at them. *)
Definition blank_action (a : DesktopAction) : DesktopAction := mkAction (a_id a) None None None.
Definition with_actions (e : IsdeDesktopEntry) (acts : list DesktopAction) : IsdeDesktopEntry :=
  e <| e_actions := Some acts |>.
Definition norm (e : IsdeDesktopEntry) : option IsdeDesktopEntry :=
  match e_actions e with None => parse_action_ids e | Some _ => Some e end.

Lemma strtok_item i s : ";"%char ∉ i → i ≠ [] → strtok_semi [] (i ++ ";"%char :: s) = i :: strtok_semi [] s.
Proof.
  intros Hi Hn.
  assert (H : ∀ cur, (cur ++ i) ≠ [] → strtok_semi cur (i ++ ";"%char :: s) = (cur ++ i) :: strtok_semi [] s).
  { clear Hn. induction i as [|c i IH]; intros cur Hc; cbn.
    - rewrite app_nil_r in *. by destruct cur.
    - rewrite decide_False by set_solver. rewrite IH; [by rewrite <- app_assoc|set_solver|].
      intros E. apply app_eq_nil in E as [E _]. by apply app_eq_nil in E as [_ E]. }
  by apply H.
Qed.

Lemma strtok_list ids : Forall good_id ids → strtok_semi [] (semi_list ids) = ids.
Proof.
  unfold semi_list. induction 1 as [|i ids (Hn & _ & Hs & _) _ IH]; [done|].
  cbn [map concat]. rewrite <- app_assoc. change (str ";" ++ ?s) with (";"%char :: s).
  by rewrite strtok_item, IH.
Qed.

Lemma store_ids_tight cap acts ids out :
  Forall good_id ids → store_ids cap acts ids = Some out →
  out = acts ++ map (fun i => mkAction i None None None) ids.
Proof.
  intros H. revert acts. induction H as [|i ids (Hn & (_ & _ & Ht & _) & _) _ IH]; intros acts; cbn.
  - intros [= <-]. by rewrite app_nil_r.
  - rewrite tight_strip by done. destruct i as [|c i]; [done|]. case_decide; [|done].
    intros E. rewrite (IH _ E), <- app_assoc. done.
Qed.

Lemma norm_without e acts :
  e_actions_str e = Some (semi_list (map a_id acts)) → Forall good_action acts →
  norm (without_actions e) = Some (with_actions e (map blank_action acts)).
Proof.
  intros Hs Hg. assert (Hi : Forall good_id (map a_id acts)).
  { apply Forall_map. eapply Forall_impl; [exact Hg|]. by intros a [? _]. }
  destruct (parse_action_ids_total (without_actions e)) as [e' He].
  unfold norm. cbn [e_actions without_actions field_upd]. rewrite He. revert He.
  unfold parse_action_ids. destruct e. cbn in *. subst.
  rewrite strtok_list by done. destruct (store_ids _ _ _) as [out|] eqn:E; [|done].
  cbn. intros [= <-]. apply store_ids_tight in E; [|done]. subst out. cbn.
  unfold with_actions. cbn. by rewrite map_map.
Qed.

Lemma find_middle e done a todo :
  e_actions e = Some (done ++ a :: todo) → a_id a ∉ map a_id done →
  find_action e (a_id a) = Some (length done).
Proof.
  intros E Hn. unfold find_action. rewrite E. cbn.
  assert (list_find (fun x => a_id x = a_id a) (done ++ a :: todo) = Some (length done, a)) as ->; [|done].
  apply list_find_Some. split; [by rewrite list_lookup_middle|]. split; [done|].
  intros j y Hj Hlt Hy. rewrite lookup_app_l in Hj by done.
  apply Hn. apply list_elem_of_fmap. exists y. split; [done|]. by eapply list_elem_of_lookup_2.
Qed.

(** A key in an action group. *)
Lemma parse_action_opt e0 p done a todo k o (U : option text → DesktopAction) :
  good_key (str k) → good_opt o → in_desktop_entry p = false → current_action_id p = Some (a_id a) →
  norm (p_entry p) = Some (with_actions e0 (done ++ U None :: todo)) →
  a_id a ∉ map a_id done → (∀ x, a_id (U x) = a_id a) →
  (∀ v, set_action_field (str k) v (U None) = U (Some v)) →
  ∃ p', parse_printed p (opt_line k o) = Some p' ∧ in_desktop_entry p' = false ∧
    current_action_id p' = Some (a_id a) ∧
    norm (p_entry p') = Some (with_actions e0 (done ++ U o :: todo)).
Proof.
  intros Hk Ho Hi Hc Hn Hd HU Hs. destruct o as [v|]; [|by exists p].
  unfold parse_printed. cbn. rewrite parse_field by done. unfold key_value. rewrite Hi, Hc.
  change (match e_actions (p_entry p) with Some _ => _ | None => _ end) with (norm (p_entry p)).
  rewrite Hn. cbn [mbind option_bind]. rewrite <- (HU None).
  rewrite (find_middle _ done (U None) todo) by (rewrite ?HU; done). cbn.
  eexists. split; [reflexivity|]. cbn. rewrite HU. split; [done|]. split; [done|].
  unfold norm. cbn. unfold with_actions. cbn. rewrite alter_app_r_alt by lia.
  rewrite Nat.sub_diag. cbn. by rewrite Hs.
Qed.

Lemma parse_group p i :
  good_id i → parse_printed p [ACTION_GROUP ++ i ++ str "]"] =
    Some (p <| in_desktop_entry := false |> <| current_action_id := Some i |>).
Proof.
  intros (Hn & (Hl & H0 & Ht & _) & _ & Hb). unfold parse_printed. cbn [map parse_lines].
  unfold parse_line. unfold cstr.
  rewrite before_none; [|rewrite !not_elem_of_app; split_and!;
    [by apply (bool_decide_unpack _)|done|by apply (bool_decide_unpack _)..]].
  rewrite strip_line; [|done|].
  2:{ apply (tight_intro _ _ "]"%char (ACTION_GROUP ++ i)); [by rewrite <- app_assoc|done|done]. }
  change (ACTION_GROUP ++ i ++ str "]") with ("["%char :: (tail ACTION_GROUP ++ i ++ str "]")) at 1.
  cbv iota. rewrite decide_False by done. rewrite decide_True by done. cbn [mbind option_bind].
  unfold group_header. unfold has_prefix.
  rewrite (bool_decide_false (take (length ENTRY_GROUP) _ = _)) by by destruct p.
  rewrite (bool_decide_true (take (length ACTION_GROUP) _ = _)) by by rewrite take_app_length.
  rewrite drop_app_length. change (str "]") with ("]"%char :: []).
  by rewrite strchr_char, before_char.
Qed.

Lemma parse_action e0 p done a todo :
  good_action a → a_id a ∉ map a_id done →
  norm (p_entry p) = Some (with_actions e0 (done ++ blank_action a :: todo)) →
  ∃ p', parse_printed p (action_lines a) = Some p' ∧
    norm (p_entry p') = Some (with_actions e0 (done ++ a :: todo)).
Proof.
  intros (Hi & H1 & H2 & H3) Hd Hn. unfold action_lines.
  change (?l :: ?ls) with ([l] ++ ls). rewrite parse_printed_app, parse_group by done.
  cbn [mbind option_bind]. rewrite parse_printed_app. destruct a as [i n x c]. cbn in *.
  destruct (parse_action_opt e0 (p <| in_desktop_entry := false |> <| current_action_id := Some i |>)
    done (mkAction i None None None) todo "Name" n (fun o => mkAction i o None None))
    as (p1 & -> & Hp1 & Hc1 & Hn1); try done. cbn [mbind option_bind]. rewrite parse_printed_app.
  destruct (parse_action_opt e0 p1 done (mkAction i n None None) todo "Exec" x (fun o => mkAction i n o None))
    as (p2 & -> & Hp2 & Hc2 & Hn2); try done. cbn [mbind option_bind].
  destruct (parse_action_opt e0 p2 done (mkAction i n x None) todo "Icon" c (fun o => mkAction i n x o))
    as (p3 & -> & Hp3 & Hc3 & Hn3); try done. by exists p3.
Qed.

Lemma parse_actions e0 p done acts :
  Forall good_action acts → NoDup (map a_id (done ++ acts)) →
  norm (p_entry p) = Some (with_actions e0 (done ++ map blank_action acts)) →
  ∃ p', parse_printed p (concat (map action_lines acts)) = Some p' ∧
    norm (p_entry p') = Some (with_actions e0 (done ++ acts)).
Proof.
  revert p done. induction acts as [|a acts IH]; intros p done Hg Hnd Hn; [by exists p|].
  apply Forall_cons in Hg as [Ha Hg]. cbn [map concat]. rewrite parse_printed_app.
  assert (Hd : a_id a ∉ map a_id done).
  { rewrite map_app in Hnd. apply NoDup_app in Hnd as (_ & Hd & _). intros Hin.
    eapply Hd; [exact Hin|]. by left. }
  destruct (parse_action e0 p done a (map blank_action acts) Ha Hd Hn) as (p' & -> & Hp').
  cbn [mbind option_bind]. destruct (IH p' (done ++ [a]) Hg) as (p2 & H2 & Hn2).
  - by rewrite <- app_assoc.
  - by rewrite <- app_assoc.
  - exists p2. by rewrite <- app_assoc in Hn2.
Qed.

Lemma good_val_line k v : good_key k → (length k ≤ 20)%nat → good_val v →
  LF ∉ field_line k v ∧ (length (field_line k v) < 1023)%nat.
Proof.
  intros [_ Hk] Hl (H1 & _ & _ & H4). unfold field_line. split.
  - rewrite not_elem_of_app, not_elem_of_cons. split_and!; [by apply letter_not|done|done].
  - rewrite length_app. cbn. lia.
Qed.

Definition short_line (l : text) : Prop := LF ∉ l ∧ (length l < 1023)%nat.

Lemma opt_line_short k o :
  good_key (str k) → (length (str k) ≤ 20)%nat → good_opt o → Forall short_line (opt_line k o).
Proof. intros Hk Hl Ho. destruct o; cbn; [|done]. constructor; [by apply good_val_line|done]. Qed.

Lemma flag_line_short k b :
  good_key (str k) → (length (str k) ≤ 20)%nat → Forall short_line (flag_line k b).
Proof.
  intros Hk Hl. destruct b; cbn; [|done]. constructor; [|done].
  apply good_val_line; [done..|apply true_val].
Qed.

Ltac short_key := split; [done|by vm_compute].
Ltac short_len := cbn; lia.

Lemma action_lines_short a : good_action a → Forall short_line (action_lines a).
Proof.
  intros ((_ & (Hl & _ & _ & Hn) & _) & H1 & H2 & H3). unfold action_lines. constructor.
  - split.
    + rewrite !not_elem_of_app. split_and!; [by apply (bool_decide_unpack _)|done|by apply (bool_decide_unpack _)].
    + rewrite !length_app. cbn. lia.
  - repeat apply Forall_app_2; apply opt_line_short; solve [done | short_key | short_len].
Qed.

Lemma entry_lines_short e :
  good_entry e → Forall short_line (ENTRY_GROUP :: field_lines e ++
    concat (map action_lines (default [] (e_actions e)))).
Proof.
  intros [H Ha]. rewrite !Forall_cons in H.
  destruct H as (H1 & H2 & H3 & H4 & H5 & H6 & H7 & H8 & H9 & H10 & H11 & H12 & _).
  constructor; [split; [by apply (bool_decide_unpack _)|cbn; lia]|].
  apply Forall_app. split.
  - unfold field_lines. repeat apply Forall_app_2;
      first [apply opt_line_short | apply flag_line_short]; solve [assumption | short_key | short_len].
  - destruct (e_actions e) as [acts|]; [|by constructor]. destruct Ha as (_ & _ & Ha). cbn.
    apply Forall_concat, Forall_map. eapply Forall_impl; [exact Ha|]. apply action_lines_short.
Qed.


(** An entry with two actions, as a browser has it. *)
Definition sample_entry : IsdeDesktopEntry :=
  mkEntry (str "web.desktop") (Some (str "Web Browser")) None (Some (str "Browse; read = more"))
    (Some (str "web %U")) (Some (str "web")) (Some (str "Application")) (Some (str "Network;"))
    (Some (str "text/html;text/plain;")) (Some (str "Web")) None None
    (Some (str "new-window;private;"))
    (Some [mkAction (str "new-window") (Some (str "New Window")) (Some (str "web --new")) None;
           mkAction (str "private") None (Some (str "web -p")) (Some (str "mask"))])
    false false false true.

Definition good_valb (v : text) : bool :=
  bool_decide (LF ∉ v) && bool_decide (NUL ∉ v) && bool_decide (skip_space v = v) &&
    bool_decide (skip_space (rev v) = rev v) && (length v <=? 1000)%nat.
Definition good_optb (o : option text) : bool := from_option good_valb true o.
Definition good_idb (i : text) : bool :=
  negb (bool_decide (i = [])) && good_valb i && bool_decide (";"%char ∉ i) && bool_decide ("]"%char ∉ i).
Definition good_actionb (a : DesktopAction) : bool :=
  good_idb (a_id a) && good_optb (a_name a) && good_optb (a_exec a) && good_optb (a_icon a).
Definition good_entryb (e : IsdeDesktopEntry) : bool :=
  forallb good_optb [e_name e; e_generic_name e; e_comment e; e_exec e; e_icon e; e_type e;
    e_categories e; e_mime_types e; e_startup_wm_class e; e_only_show_in e; e_not_show_in e;
    e_actions_str e] &&
  match e_actions e with
  | None => bool_decide (e_actions_str e = None)
  | Some acts => bool_decide (e_actions_str e = Some (semi_list (map a_id acts))) &&
      bool_decide (NoDup (map a_id acts)) && forallb good_actionb acts
  end.

Lemma good_valb_sound v : good_valb v = true → good_val v.
Proof.
  unfold good_valb. rewrite !andb_true_iff, !bool_decide_eq_true, Nat.leb_le.
  by intros ((((? & ?) & ?) & ?) & ?).
Qed.
Lemma good_optb_sound o : good_optb o = true → good_opt o.
Proof. destruct o; [apply good_valb_sound|done]. Qed.
Lemma good_actionb_sound a : good_actionb a = true → good_action a.
Proof.
  unfold good_actionb, good_idb.
  rewrite !andb_true_iff, negb_true_iff, bool_decide_eq_false, !bool_decide_eq_true.
  intros ((((((? & ?%good_valb_sound) & ?) & ?) & ?) & ?) & ?).
  split; [done|]. auto using good_optb_sound.
Qed.
Lemma forallb_sound {A} (f : A → bool) (P : A → Prop) l :
  (∀ x, f x = true → P x) → forallb f l = true → Forall P l.
Proof.
  intros H. rewrite forallb_forall, Forall_forall. intros Hf x Hx.
  apply H, Hf. by apply list_elem_of_In.
Qed.
Lemma good_entryb_sound e : good_entryb e = true → good_entry e.
Proof.
  unfold good_entryb. rewrite andb_true_iff. intros [H Ha]. split.
  - exact (forallb_sound good_optb _ _ good_optb_sound H).
  - destruct (e_actions e); [|by apply bool_decide_eq_true in Ha].
    rewrite !andb_true_iff, !bool_decide_eq_true in Ha. destruct Ha as [[? ?] ?].
    split_and!; [done..|]. by eapply forallb_sound; [apply good_actionb_sound|].
Qed.


(** whatever a file contains, reading it as a desktop entry ends without a
    write outside the array of actions, whose size the code only estimates. *)
Theorem parse_any_file (path file : text) : ∃ e, parse_desktop path file = Some e.
Proof. apply parse_desktop_total. Qed.

(** ** Lists *)

(** The elements of a list as the code walks it. *)
Fixpoint elements (cur s : text) : list text :=
  match s with
  | [] => match cur with [] => [] | _ => [cur] end
  | c :: s' => if decide (c = ";"%char) then cur :: elements [] s' else elements (cur ++ [c]) s'
  end.

Lemma elements_none cur s : ";"%char ∉ s → elements cur s = (match cur ++ s with [] => [] | l => [l] end).
Proof.
  revert cur. induction s as [|c s IH]; intros cur H; cbn; [by rewrite app_nil_r; destruct cur|].
  rewrite decide_False by set_solver. rewrite IH by set_solver. by rewrite <- app_assoc.
Qed.

Lemma elements_item cur i s :
  ";"%char ∉ i → elements cur (i ++ ";"%char :: s) = (cur ++ i) :: elements [] s.
Proof.
  revert cur. induction i as [|c i IH]; intros cur H; cbn; [by rewrite app_nil_r|].
  rewrite decide_False by set_solver. rewrite IH by set_solver. by rewrite <- app_assoc.
Qed.

Lemma list_contains_elements fuel p item :
  (length p < fuel)%nat → list_contains_from fuel p item = bool_decide (item ∈ elements [] p).
Proof.
  revert p. induction fuel as [|fuel IH]; intros p Hf; [lia|].
  destruct p as [|c p]; [by rewrite bool_decide_false by set_solver|].
  cbn [list_contains_from]. set (q := c :: p) in *.
  destruct (decide (";"%char ∈ q)) as [Hin|Hin].
  - pose proof (before_split _ _ Hin) as Hq. pose proof (before_nomem ";"%char q) as Hn.
    set (i := before _ q) in *. set (r := drop _ q) in *. clearbody i r. rewrite Hq.
    rewrite strchr_char, elements_item by done. cbn [tail app].
    rewrite Hq in Hf. rewrite length_app in Hf. cbn in Hf.
    rewrite IH by lia. case_decide as E.
    + by rewrite bool_decide_true by set_solver.
    + apply bool_decide_ext. set_solver.
  - rewrite (before_none _ q), elements_none by done. unfold q at 3. cbn [app].
    assert (strchr ";"%char q = None) as ->.
    { clear -Hin. induction q as [|x q IH]; cbn; [done|].
      rewrite decide_False by set_solver. apply IH. set_solver. }
    case_decide as E; [by rewrite bool_decide_true by set_solver|].
    by rewrite bool_decide_false by set_solver.
Qed.

Lemma elements_semi items : Forall (fun i => ";"%char ∉ i) items → elements [] (semi_list items) = items.
Proof.
  unfold semi_list. induction 1 as [|i items Hi _ IH]; [done|].
  cbn [map concat]. rewrite <- app_assoc. cbn [app]. change (str ";" ++ ?s) with (";"%char :: s).
  by rewrite elements_item, IH.
Qed.

Lemma contains_semi items x :
  Forall (fun i => ";"%char ∉ i) items →
  list_contains (Some (semi_list items)) x = bool_decide (x ∈ items).
Proof.
  intros H. unfold list_contains. rewrite list_contains_elements by lia. by rewrite elements_semi.
Qed.

(** an entry is shown on a desktop when it is not hidden and either its
    OnlyShowIn list names the desktop, or it has no such list and its NotShowIn
    list does not; it handles a MIME type when its list has exactly that type. *)
Theorem shown_where_listed (e : IsdeDesktopEntry) (only not mime : list text) (d m : text) :
  Forall (fun i => ";"%char ∉ i) (only ++ not ++ mime) →
  e_only_show_in e = None ∨ e_only_show_in e = Some (semi_list only) →
  e_not_show_in e = None ∨ e_not_show_in e = Some (semi_list not) →
  e_mime_types e = Some (semi_list mime) →
  (isde_desktop_should_show e d = true ↔
    e_hidden e = false ∧ e_no_display e = false ∧
    match e_only_show_in e, e_not_show_in e with
     | Some _, _ => d ∈ only | None, Some _ => d ∉ not | None, None => True end) ∧
  (isde_desktop_handles_mime e m = true ↔ m ∈ mime).
Proof.
  rewrite !Forall_app. intros (Ho & Hn & Hm) Eo En Em. split.
  - unfold isde_desktop_should_show. destruct (e_hidden e); [naive_solver|].
    destruct (e_no_display e); [naive_solver|]. cbn [orb].
    destruct Eo as [-> | ->].
    + destruct En as [-> | ->]; [naive_solver|].
      rewrite contains_semi, negb_true_iff, bool_decide_eq_false by done. naive_solver.
    + rewrite contains_semi, bool_decide_eq_true by done. naive_solver.
  - unfold isde_desktop_handles_mime. rewrite Em.
    by rewrite contains_semi, bool_decide_eq_true by done.
Qed.

Lemma shown_where_listed_witness :
  isde_desktop_should_show (sample_entry <| e_only_show_in := Some (str "ISDE;XFCE;") |>) (str "XFCE") = true ∧
  isde_desktop_handles_mime sample_entry (str "text") = false.
Proof.
  split.
  - apply (proj1 (shown_where_listed (sample_entry <| e_only_show_in := Some (str "ISDE;XFCE;") |>)
      [str "ISDE"; str "XFCE"] [] [str "text/html"; str "text/plain"] (str "XFCE") []
      ltac:(repeat constructor; by apply (bool_decide_unpack _)) (or_intror eq_refl) (or_introl eq_refl) eq_refl)).
    split; [done|]. split; [done|]. by apply (bool_decide_unpack _).
  - by vm_compute.
Defined.

(** ** The command line *)

Fixpoint quote_all (files : list text) : text :=
  match files with
  | [] => []
  | [f] => quoted f
  | f :: fs => quoted f ++ str " " ++ quote_all fs
  end.

(** What a field code stands for. *)
Definition code_text (e : IsdeDesktopEntry) (files : list text) (c : ascii) : text :=
  if decide (c = "f"%char ∨ c = "u"%char) then from_option quoted [] (head files)
  else if decide (c = "F"%char ∨ c = "U"%char) then quote_all files
  else if decide (c = "i"%char) then from_option (fun i => str "--icon " ++ quoted i) [] (e_icon e)
  else if decide (c = "c"%char) then from_option quoted [] (e_name e)
  else if decide (c = "%"%char) then str "%"
  else [].

(** The Exec key as characters and field codes. *)
Inductive piece := Char (c : ascii) | Code (c : ascii).
Fixpoint pieces (src : text) : list piece :=
  match src with
  | [] => []
  | c :: src' =>
    match decide (c = "%"%char), src' with
    | left _, d :: src'' => Code d :: pieces src''
    | _, _ => Char c :: pieces src'
    end
  end.

Definition piece_text (e : IsdeDesktopEntry) (files : list text) (p : piece) : text :=
  match p with Char c => [c] | Code c => code_text e files c end.

(** The command line the Exec key stands for. *)
Definition command (e : IsdeDesktopEntry) (files : list text) (src : text) : text :=
  concat (map (piece_text e files) (pieces src)).

(** The state of the output buffer while everything fits. *)
Definition fits (cap : Z) (t : text) (b : sbuf) : Prop := b = (Z.of_nat (length t), t) ∧ Z.of_nat (length t) < cap.

Lemma printf_fits cap s t b :
  fits cap t b → Z.of_nat (length (t ++ s)) < cap →
  ∃ b', sb_printf cap s b = Some b' ∧ fits cap (t ++ s) b'.
Proof.
  intros [-> Ht] Hs. unfold sb_printf. cbn. rewrite length_app in Hs.
  replace (cap <? Z.of_nat (length t)) with false by (symmetry; apply Z.ltb_ge; lia).
  eexists. split; [reflexivity|]. split; [|rewrite length_app; lia].
  rewrite length_app, take_ge by lia. f_equal. lia.
Qed.

Lemma putc_fits cap c t b :
  fits cap t b → Z.of_nat (length (t ++ [c])) < cap → fits cap (t ++ [c]) (sb_putc cap c b).
Proof.
  intros [-> Ht] Hs. rewrite length_app in Hs. cbn in Hs. unfold sb_putc. cbn.
  replace (Z.of_nat (length t) <? cap - 1) with true by (symmetry; apply Z.ltb_lt; lia).
  split; [|rewrite length_app; cbn; lia]. rewrite length_app. f_equal. cbn. lia.
Qed.

Lemma put_files_text (files : list text) (first : bool) cap t b :
  let s := match files with [] => [] | _ => (if first then [] else str " ") ++ quote_all files end in
  fits cap t b → Z.of_nat (length (t ++ s)) < cap →
  ∃ b', put_files cap first files b = Some b' ∧ fits cap (t ++ s) b'.
Proof.
  revert first t b. induction files as [|f fs IH]; intros first t b; cbn zeta beta iota.
  { rewrite app_nil_r. intros. by exists b. }
  intros Hb Hs. set (sep := if first then [] else str " ") in *. cbn [put_files]. fold sep.
  assert (E : quote_all (f :: fs) =
    quoted f ++ match fs with [] => [] | _ => str " " ++ quote_all fs end).
  { destruct fs; [by rewrite app_nil_r|done]. }
  rewrite E in Hs |- *. rewrite (app_assoc sep), app_assoc in Hs |- *.
  destruct (printf_fits cap (sep ++ quoted f) t b Hb) as (b1 & -> & Hb1).
  { rewrite length_app in Hs. lia. }
  cbn [mbind option_bind]. destruct (IH false _ b1 Hb1) as (b2 & H2 & Hb2); [by destruct fs|].
  exists b2. split; [done|]. by destruct fs.
Qed.

Lemma put_code_text cap e files c t b :
  fits cap t b → Z.of_nat (length (t ++ code_text e files c)) < cap →
  ∃ b', put_code cap e files c b = Some b' ∧ fits cap (t ++ code_text e files c) b'.
Proof.
  unfold put_code, code_text. intros Hb. repeat (destruct (decide _)).
  - destruct files as [|f fs]; cbn; [rewrite app_nil_r; by eexists|]. by apply printf_fits.
  - intros Hs. pose proof (put_files_text files true cap t b Hb) as H.
    destruct files; [cbn in *; rewrite app_nil_r in *; by eexists|]. by apply H.
  - destruct (e_icon e); cbn; [|rewrite app_nil_r; by eexists]. by apply printf_fits.
  - destruct (e_name e); cbn; [|rewrite app_nil_r; by eexists]. by apply printf_fits.
  - intros Hs. eexists. split; [done|]. by apply putc_fits.
  - intros _. rewrite app_nil_r. by eexists.
Qed.

Lemma pieces_cons c src :
  (c = "%"%char ∧ ∃ d src', src = d :: src' ∧ pieces (c :: src) = Code d :: pieces src' ∧
    ∀ cap e files b, build_loop cap e files (c :: src) b =
      put_code cap e files d b ≫= build_loop cap e files src') ∨
  (pieces (c :: src) = Char c :: pieces src ∧
    ∀ cap e files b, build_loop cap e files (c :: src) b = build_loop cap e files src (sb_putc cap c b)).
Proof.
  cbn [pieces build_loop]. destruct (decide (c = "%"%char)) as [->|]; [|by right].
  destruct src as [|d src]; [by right|]. left. split; [done|]. by exists d, src.
Qed.

Lemma build_loop_command cap e files src t b :
  fits cap t b → Z.of_nat (length (t ++ command e files src)) < cap →
  ∃ b', build_loop cap e files src b = Some b' ∧ fits cap (t ++ command e files src) b'.
Proof.
  unfold command. remember (length src) as n eqn:En. assert (Hn : (length src ≤ n)%nat) by lia.
  clear En. revert src t b Hn. induction n as [|n IH]; intros [|c src] t b Hn Hb Hs; cbn in Hn;
    try lia; try (cbn in *; rewrite app_nil_r in *; by exists b).
  destruct (pieces_cons c src) as [(-> & d & src' & -> & Hp & Hl)|[Hp Hl]];
    rewrite Hp in Hs |- *; rewrite Hl; cbn [map concat piece_text] in *; rewrite app_assoc in Hs |- *.
  - destruct (put_code_text cap e files d t b Hb) as (b1 & -> & Hb1).
    { rewrite length_app in Hs. lia. }
    cbn [mbind option_bind]. apply IH; [cbn in Hn; lia|done|done].
  - apply IH; [lia| |done]. apply putc_fits; [done|]. rewrite length_app in Hs. lia.
Qed.

(** The number of codes that name files, and the bytes of icon and name codes. *)
Definition is_file_code (p : piece) : bool :=
  match p with Code c => bool_decide (c = "f"%char ∨ c = "u"%char ∨ c = "F"%char ∨ c = "U"%char) | _ => false end.
Definition file_codes (src : text) : nat := length (filter is_file_code (pieces src)).
Definition piece_bytes (e : IsdeDesktopEntry) (p : piece) : nat :=
  match p with
  | Code c => if decide (c = "i"%char ∨ c = "c"%char) then length (code_text e [] c) else 0
  | Char _ => 0
  end.
Definition pieces_bytes (e : IsdeDesktopEntry) (ps : list piece) : nat :=
  foldr (fun p n => (piece_bytes e p + n)%nat) 0%nat ps.
Definition other_bytes (e : IsdeDesktopEntry) (src : text) : nat := pieces_bytes e (pieces src).

Definition file_bytes (files : list text) : Z := foldr (fun f n => Z.of_nat (length f) + 3 + n) 0 files.

Lemma file_bytes_nonneg files : 0 ≤ file_bytes files.
Proof. unfold file_bytes. induction files; cbn in *; lia. Qed.

Lemma quote_all_length files : Z.of_nat (length (quote_all files)) ≤ file_bytes files.
Proof.
  induction files as [|f fs IH]; [done|]. cbn [file_bytes foldr]. fold (file_bytes fs).
  assert (H : Z.of_nat (length (quoted f)) = Z.of_nat (length f) + 2).
  { unfold quoted. rewrite !length_app. cbn. lia. }
  pose proof (file_bytes_nonneg fs). destruct fs as [|g fs]; [cbn [quote_all]; lia|].
  change (quote_all (f :: g :: fs)) with (quoted f ++ str " " ++ quote_all (g :: fs)).
  rewrite !length_app. cbn [length str String.list_ascii_of_string] in *. lia.
Qed.

Lemma code_text_bytes e files c :
  Z.of_nat (length (code_text e files c)) ≤
    (if is_file_code (Code c) then file_bytes files else 0) +
    Z.of_nat (piece_bytes e (Code c)) + 1.
Proof.
  pose proof (file_bytes_nonneg files) as H0. unfold is_file_code, piece_bytes.
  destruct (decide (c = "f"%char ∨ c = "u"%char)) as [Hf|Hf].
  { rewrite bool_decide_true by tauto. unfold code_text at 1. rewrite decide_True by done.
    destruct files as [|f fs]; cbn [head from_option]; [cbn; lia|].
    pose proof (quote_all_length [f]). cbn in H0 |- *. cbn in H. pose proof (file_bytes_nonneg fs).
    change (foldr _ 0 fs) with (file_bytes fs). unfold quoted in *. rewrite length_app in *. cbn in *. lia. }
  destruct (decide (c = "F"%char ∨ c = "U"%char)) as [HF|HF].
  { rewrite bool_decide_true by tauto. unfold code_text at 1.
    rewrite decide_False, decide_True by done. pose proof (quote_all_length files). lia. }
  rewrite bool_decide_false by tauto.
  assert (code_text e files c = code_text e [] c) as ->.
  { unfold code_text. by rewrite !(decide_False (P := c = "f"%char ∨ _)), !(decide_False (P := c = "F"%char ∨ _)). }
  destruct (decide (c = "i"%char ∨ c = "c"%char)) as [Hi|Hi]; [lia|].
  unfold code_text. rewrite !decide_False by tauto. destruct (decide (c = "%"%char)); cbn; lia.
Qed.

Lemma pieces_length src : (length (pieces src) ≤ length src)%nat.
Proof.
  remember (length src) as n eqn:En. assert (Hn : (length src ≤ n)%nat) by lia.
  clear En. revert src Hn. induction n as [|n IH]; intros [|c src] Hn; cbn in Hn; try (cbn; lia).
  destruct (pieces_cons c src) as [(_ & d & src' & -> & -> & _)|[-> _]]; cbn in *.
  - specialize (IH src'). lia.
  - specialize (IH src). lia.
Qed.

Lemma command_length e files src :
  Z.of_nat (length (command e files src)) ≤
    Z.of_nat (length src) + Z.of_nat (file_codes src) * file_bytes files + Z.of_nat (other_bytes e src).
Proof.
  pose proof (pieces_length src) as Hl. unfold command, file_codes, other_bytes.
  assert (H : ∀ ps, Z.of_nat (length (concat (map (piece_text e files) ps))) ≤
    Z.of_nat (length ps) + Z.of_nat (length (filter is_file_code ps)) * file_bytes files +
    Z.of_nat (pieces_bytes e ps)).
  { clear. induction ps as [|p ps IH]; [cbn; lia|]. cbn [map concat pieces_bytes foldr].
    fold (pieces_bytes e ps). rewrite length_app, filter_cons.
    destruct p as [c|c]; cbn [piece_text piece_bytes is_file_code].
    - destruct (decide (Is_true false)) as [H|_]; [done|]. cbn [length] in *. lia.
    - pose proof (code_text_bytes e files c) as Hc. cbn [is_file_code piece_bytes] in Hc.
      destruct (decide (Is_true _)) as [H|H];
        [apply Is_true_true in H | apply Is_true_false in H]; rewrite H in Hc; cbn [length] in *; lia. }
  specialize (H (pieces src)). lia.
Qed.

(** the command line of an entry is its Exec key with every field code
    replaced: it fits the computed buffer as long as the key names the files at
    most once and its icon and name codes take up at most 255 bytes. *)
Theorem exec_command {St} (e : IsdeDesktopEntry) (files : list text) (src : text) (s : St) :
  e_exec e = Some src → (file_codes src ≤ 1)%nat → (other_bytes e src ≤ 255)%nat →
  isde_desktop_build_exec e files s = Ok (Some (command e files src)) s.
Proof.
  intros He Hf Ho. unfold isde_desktop_build_exec. rewrite He. cbv zeta.
  pose proof (command_length e files src) as Hl. pose proof (file_bytes_nonneg files).
  assert (Hc : Z.of_nat (length (command e files src)) < exec_cap src files).
  { unfold exec_cap. change (foldr _ 0 files) with (file_bytes files).
    assert (Z.of_nat (file_codes src) * file_bytes files ≤ file_bytes files) by nia. lia. }
  destruct (build_loop_command (exec_cap src files) e files src [] (0, [])) as (b & -> & [-> _]);
    [split; [done|cbn in *; lia]|done|].
  cbn [app]. by apply Z.ltb_lt in Hc as ->.
Qed.

Lemma exec_command_witness :
  isde_desktop_build_exec sample_entry [str "a b"; str "c"] tt = Ok (Some (str "web 'a b' 'c'")) tt.
Proof.
  apply (exec_command sample_entry [str "a b"; str "c"] (str "web %U") tt eq_refl).
  - apply (bool_decide_unpack _). by vm_compute.
  - apply (bool_decide_unpack _). by vm_compute.
Defined.

(** Beyond that the buffer is left: a long name behind %c, or a long file named twice. *)
Lemma exec_overflows :
  isde_desktop_build_exec ((empty_entry []) <| e_exec := Some (str "run %c") |>
    <| e_name := Some (repeat "x"%char 300) |>) [] tt = Fault OutOfBounds ∧
  isde_desktop_build_exec ((empty_entry []) <| e_exec := Some (str "run %f %f") |>)
    [repeat "x"%char 300] tt = Fault OutOfBounds.
Proof. split; by vm_compute. Qed.
