(* ===== verification/ConfigFile.v ===== *)
(** * Writing configuration files (platform/common/isde-config-write.c)

    A key is replaced or inserted in a TOML file, or a section removed, by
    editing its lines; everything else is copied.  The disk is a map from paths to
    contents. *)

From S2P Require Import Prelude.
From S2P Require Import CString.
From S2P Require Import CFloat.
From stdpp Require Import gmap.
Open Scope Z_scope.

(** [made]: the directories that were asked for. *)
Record Disk := mkDisk { files : gmap text text; made : list text }.
#[export] Instance disk_eta : RecEta Disk := Build_RecEta _ (fun d => mkDisk (files d) (made d)).

(** Which files can be opened. *)
Class Volume := { readable : Disk → text → bool; writable : Disk → text → bool }.

Section Volume.
Context `{Volume}.

(** [fopen(path, "r")] and all that can be read. *)
Definition read_whole (path : text) : prog Disk (option text) :=
  gets (fun d => if readable d path then files d !! path else None).

(** [fopen(path, "w")], all that is written, [fclose].  Was it opened? *)
Definition write_whole (path content : text) : prog Disk bool :=
  b ← gets (fun d => writable d path);
  when b (modify (fun d => d <| files := <[path := content]> (files d) |>));;
  mret b.
End Volume.

(** The directory of a path is made, if it names one. *)
Definition ensure_dir (path : text) : prog Disk unit :=
  match strchr "/"%char (rev path) with
  | Some (_ :: dir) => modify (fun d => d <| made := rev dir :: made d |>)
  | _ => skip
  end.

Definition QUOTE : ascii := "034"%char.

(** A line without the newline at its end. *)
Definition chomp (buf : text) : text :=
  match rev buf with
  | c :: r => if decide (c = LF) then rev r else buf
  | [] => []
  end.
Definition load_lines (file : text) : list text := map (fun l => chomp (cstr l)) (fgets_lines 1023 [] file).

Definition has_prefix (p s : text) : bool := bool_decide (take (length p) s = p).

(** Is a line, without the blanks at its start, the header of a section? *)
Definition is_header (header trimmed : text) : bool :=
  has_prefix header trimmed &&
  match drop (length header) trimmed with [] => true | c :: _ => isspace c end.

(** Does it start with [key], blanks and an equals sign? *)
Definition has_key (key trimmed : text) : bool :=
  has_prefix key trimmed &&
  match skip_space (drop (length key) trimmed) with c :: _ => bool_decide (c = "="%char) | [] => false end.

Definition first_is (c : ascii) (s : text) : bool :=
  match s with x :: _ => bool_decide (x = c) | [] => false end.

Record scan := mkScan { in_target : bool; key_line : Z; section_end : Z; section_start : Z }.

Definition scan_line (header key : text) (s : scan) (i : Z) (line : text) : scan :=
  let trimmed := skip_space line in
  if first_is "[" trimmed then
    let e := if in_target s && (key_line s <? 0) then i else section_end s in
    let t := is_header header trimmed in
    mkScan t (key_line s) e (if t then i else section_start s)
  else if in_target s && (key_line s <? 0) && negb (first_is "#" trimmed) &&
          negb (bool_decide (trimmed = [])) && has_key key trimmed then
    mkScan (in_target s) i (section_end s) (section_start s)
  else s.

Fixpoint scan_lines (header key : text) (s : scan) (i : Z) (lines : list text) : scan :=
  match lines with
  | [] => s
  | l :: ls => scan_lines header key (scan_line header key s i l) (i + 1) ls
  end.

Definition section_header (section : text) : text := trunc 256 (str "[" ++ section ++ str "]").

Definition key_text (key value : text) : text := key ++ str " = " ++ value ++ [LF].

(** The copied lines, with the replaced or inserted one, and whether there was one. *)
Fixpoint write_lines (s : scan) (key value : text) (i : Z) (lines : list text) : text * bool :=
  match lines with
  | [] => ([], false)
  | l :: ls =>
    let '(rest, written) := write_lines s key value (i + 1) ls in
    if i =? key_line s then (key_text key value ++ rest, true)
    else if (i =? section_end s) && (key_line s <? 0) && (0 <=? section_start s) then
      (key_text key value ++ l ++ [LF] ++ rest, true)
    else (l ++ [LF] ++ rest, written)
  end.

Definition edit_lines (section key value : text) (lines : list text) : text :=
  let n := Z.of_nat (length lines) in
  let s := scan_lines (section_header section) key (mkScan false (-1) (-1) (-1)) 0 lines in
  let s := if in_target s && (section_end s <? 0) then mkScan (in_target s) (key_line s) n (section_start s) else s in
  let '(out, written) := write_lines s key value 0 lines in
  out ++
  (if negb written && (0 <=? section_start s) && (key_line s <? 0) then key_text key value else []) ++
  (if section_start s <? 0 then [LF] ++ str "[" ++ section ++ str "]" ++ [LF] ++ key_text key value else []).

Section Write.
Context `{Volume}.

Definition write_value (path section key value : text) : prog Disk Z :=
  ensure_dir path;;
  f ← read_whole path;
  let content := match f with
                 | None => str "[" ++ section ++ str "]" ++ [LF] ++ key_text key value
                 | Some file => edit_lines section key value (load_lines file)
                 end in
  ok ← write_whole path content;
  mret (if (ok : bool) then 0 else -1).

Definition isde_config_write_string (path section key value : text) : prog Disk Z :=
  write_value path section key (QUOTE :: value ++ [QUOTE]).

(** [snprintf(val_str, 32, "%ld", value)] *)
Definition print_long (z : Z) : text := if z <? 0 then str "-" ++ digits 10 (- z) else digits 10 z.

Definition isde_config_write_int (path section key : text) (value : Z) : prog Disk Z :=
  write_value path section key (print_long value).

Definition isde_config_write_bool (path section key : text) (value : Z) : prog Disk Z :=
  write_value path section key (if truthy value then str "true" else str "false").

(** [snprintf(val_str, 32, "%.2f", value)]: rounded half to even from the exact value. *)
Definition print_f2 (x : double) : text :=
  let sign (neg : bool) := if neg then str "-" else [] in
  trunc 32
    match x with
    | S754_nan => str "nan"
    | S754_infinity neg => sign neg ++ str "inf"
    | S754_zero neg => sign neg ++ str "0.00"
    | S754_finite neg m e =>
      let q := if 0 <=? e then Zpos m * 2 ^ e * 100 else div_rne (Zpos m * 100) (2 ^ (- e)) in
      sign neg ++ digits 10 (q / 100) ++ str "." ++ pad2 (digits 10 (q mod 100))
    end.

Definition isde_config_write_double (path section key : text) (value : double) : prog Disk Z :=
  write_value path section key (print_f2 value).

(** ** Removing a section *)

(** The lines before the section, and those from the next header on. *)
Fixpoint split_at_header (lines : list text) : list text * list text :=
  match lines with
  | [] => ([], [])
  | l :: ls =>
    if first_is "[" (skip_space l) then ([], lines)
    else let '(a, b) := split_at_header ls in (l :: a, b)
  end.

Fixpoint find_section (header : text) (lines : list text) : option (list text * list text) :=
  match lines with
  | [] => None
  | l :: ls =>
    if first_is "[" (skip_space l) && is_header header (skip_space l) then Some ([], snd (split_at_header ls))
    else match find_section header ls with Some (a, b) => Some (l :: a, b) | None => None end
  end.

Definition isde_config_delete_section (path section : text) : prog Disk Z :=
  f ← read_whole path;
  match f with
  | None => mret 0
  | Some file =>
    match find_section (section_header section) (load_lines file) with
    | None => mret 0
    | Some (a, b) =>
      ok ← write_whole path (concat (map (fun l => l ++ [LF]) (a ++ b)));
      mret (if (ok : bool) then 0 else -1)
    end
  end.
End Write.
