(* ===== verification/Sections.v ===== *)
(** * Files of sections: which line a reader finds

    The configuration files and the lists of applications are lines in sections.
    [sec] tells the lines that open a section, [tgt] those that open the wanted
    one, [key] the wanted lines in it. *)

From S2P Require Import Prelude.
From S2P Require Import CString.
From stdpp Require Import list.

Section Sections.
Context (sec tgt : text → bool).

(** Are the lines after these in the wanted section? *)
Fixpoint in_section (st : bool) (lines : list text) : bool :=
  match lines with
  | [] => st
  | l :: ls => in_section (if sec l then tgt l else st) ls
  end.

(** The first wanted line. *)
Fixpoint find_line (key : text → bool) (st : bool) (lines : list text) : option text :=
  match lines with
  | [] => None
  | l :: ls =>
    if sec l then find_line key (tgt l) ls
    else if st && key l then Some l
    else find_line key st ls
  end.

Lemma in_section_app st a b : in_section st (a ++ b) = in_section (in_section st a) b.
Proof. revert st. induction a as [|l a IH]; intros st; [done|]. apply IH. Qed.

Lemma find_line_app key st a b :
  find_line key st (a ++ b) =
  match find_line key st a with Some v => Some v | None => find_line key (in_section st a) b end.
Proof.
  revert st. induction a as [|l a IH]; intros st; [done|]. cbn [app find_line in_section].
  destruct (sec l); [apply IH|]. destruct (st && key l); [done|apply IH].
Qed.

(** No line opens the section. *)
Definition unopened (lines : list text) : Prop := Forall (fun l => sec l && tgt l = false) lines.

Lemma unopened_in lines st : unopened lines → st = false → in_section st lines = false.
Proof.
  intros Hf. revert st. induction Hf as [|l lines Hl _ IH]; intros st ->; [done|]. cbn. apply IH. by destruct (sec l).
Qed.

Lemma unopened_find key lines : unopened lines → find_line key false lines = None.
Proof.
  induction 1 as [|l lines Hl _ IH]; [done|]. cbn [find_line]. destruct (sec l); [|done].
  by rewrite (Hl : tgt l = false).
Qed.

(** Both in terms of the lines: the last header before is the wanted one; the first
    wanted line of the section. *)
Lemma in_section_lines st a :
  in_section st a = true ↔
  (∃ a1 h m, a = a1 ++ h :: m ∧ sec h = true ∧ tgt h = true ∧ Forall (fun l => sec l = false) m) ∨
  (st = true ∧ Forall (fun l => sec l = false) a).
Proof.
  revert st. induction a as [|l a IH]; intros st; cbn [in_section].
  { split; [by right|]. intros [(a1 & h & m & E & _)|[-> _]]; [by destruct a1|done]. }
  rewrite IH. split.
  - intros [(a1 & h & m & -> & Hh & Ht & Hm)|[Hst Ha]].
    + left. by exists (l :: a1), h, m.
    + destruct (sec l) eqn:E; [left; by exists [], l, a|right; split; [done|by constructor]].
  - intros [(a1 & h & m & E & Hh & Ht & Hm)|[Hst [Hl Ha]%Forall_cons_1]].
    + destruct a1 as [|x a1]; injection E as -> ->; [right; by rewrite Hh|left; by exists a1, h, m].
    + right. by rewrite Hl.
Qed.

Lemma find_line_none key st lines :
  find_line key st lines = None →
  ∀ a l b, lines = a ++ l :: b → in_section st a = true → sec l = false → key l = false.
Proof.
  revert st. induction lines as [|x lines IH]; intros st Hn a l b E; [by destruct a|]. cbn [find_line] in Hn.
  destruct a as [|y a]; injection E as -> ->; cbn [in_section].
  - intros -> Hl. rewrite Hl in Hn. by destruct (key l).
  - intros Hi Hl. destruct (sec y); [by eapply IH|]. destruct (st && key y); [done|by eapply IH].
Qed.

(** There is one first line. *)
Lemma first_unique key st (p p' q q' : list text) x y :
  p ++ x :: q = p' ++ y :: q' → find_line key st p = None → find_line key st p' = None →
  in_section st p = true → in_section st p' = true → sec x = false → sec y = false →
  key x = true → key y = true → p' = p ∧ q' = q.
Proof.
  revert st p'. induction p as [|z p IH]; intros st [|z' p'] [= E1 E2]; subst; [done| | |].
  - cbn [find_line in_section]. intros _ Hf Hst _ Hx _ Hkx _. by rewrite Hx, Hst, Hkx in Hf.
  - cbn [find_line in_section]. intros Hf _ _ Hst _ Hy _ Hky. by rewrite Hy, Hst, Hky in Hf.
  - cbn [find_line in_section]. intros Hf Hf' Hi1 Hi2 Hx Hy Hkx Hky.
    enough (p' = p ∧ q' = q) as [-> ->] by done.
    destruct (sec z'); [by eapply IH|]. destruct (st && key z'); [done|]. by eapply IH.
Qed.

(** From a line that opens a section on, the section before does not matter. *)
Lemma find_from_header key st b :
  match b with [] => True | x :: _ => sec x = true end → find_line key st b = find_line key false b.
Proof. destruct b as [|x b]; [done|]. cbn [find_line]. by intros ->. Qed.

Lemma find_in_body key st mid b :
  Forall (fun x => sec x = false) mid → st = false → find_line key st (mid ++ b) = find_line key false b.
Proof. intros Hm ->. induction Hm as [|x mid Hx _ IH]; [done|]. cbn [app find_line]. by rewrite Hx. Qed.

(** ** Where a writer puts a line *)

(** Between [a] and [b]: in place of the line that is there, in the section, or under a
    header [hdr] at the end, which may come after an empty line. *)
Inductive spot (key : text → bool) (hdr : text) (lines : list text) : list text → list text → Prop :=
  | Replaced a l b :
    lines = a ++ l :: b → find_line key false a = None → in_section false a = true →
    sec l = false → key l = true → spot key hdr lines a b
  | Inserted a b :
    lines = a ++ b → find_line key false lines = None → in_section false a = true → spot key hdr lines a b
  | Appended pre :
    unopened lines → pre = [] ∨ pre = [[]] → spot key hdr lines (lines ++ pre ++ [hdr]) [].

Lemma in_blank st pre : sec [] = false → pre = [] ∨ pre = [[]] → in_section st pre = st.
Proof. intros Hs [-> | ->]; [done|]. cbn. by rewrite Hs. Qed.

Lemma find_blank key st pre : sec [] = false → key [] = false → pre = [] ∨ pre = [[]] → find_line key st pre = None.
Proof. intros Hs Hk [-> | ->]; [done|]. cbn. by rewrite Hs, Hk, andb_false_r. Qed.

(** The line is in the section and the first with its key. *)
Lemma spot_before key hdr lines a b :
  spot key hdr lines a b → sec hdr = true → tgt hdr = true → sec [] = false → key [] = false →
  find_line key false a = None ∧ in_section false a = true.
Proof.
  intros [a' l b' -> Ha Hi _ _|a' b' -> Hn Hi|pre Hf Hp] Hh Ht Hs Hk; [done| |].
  - rewrite find_line_app in Hn. by destruct (find_line _ _ a').
  - rewrite !find_line_app, !in_section_app, (unopened_find _ _ Hf), (unopened_in _ _ Hf) by done.
    rewrite in_blank, find_blank by done. cbn. by rewrite Hh, Ht.
Qed.

(** What holds of the lines holds of those around the spot. *)
Lemma spot_forall (P : text → Prop) key hdr lines a b :
  spot key hdr lines a b → P hdr → P [] → Forall P lines → Forall P a ∧ Forall P b.
Proof.
  intros [a' l b' -> _ _ _ _|a' b' -> _ _|pre _ Hp] Hh Hn Hls.
  - apply Forall_app in Hls as [? ?%Forall_cons_1]. naive_solver.
  - by apply Forall_app in Hls.
  - split; [|done]. rewrite !Forall_app. split_and!; [done| |by apply Forall_singleton].
    destruct Hp as [-> | ->]; [done|by apply Forall_singleton].
Qed.

(** A writer that looks again finds the same spot. *)
Lemma spot_again key hdr lines a b e a' b' :
  spot key hdr lines a b → sec hdr = true → tgt hdr = true → sec [] = false → key [] = false →
  sec e = false → key e = true → spot key hdr (a ++ e :: b) a' b' → a' = a ∧ b' = b.
Proof.
  intros Hs Hh Ht Hn Hk He Hke Hs'. destruct (spot_before _ _ _ _ _ Hs Hh Ht Hn Hk) as [Ha Hi].
  assert (Hf : find_line key false (a ++ e :: b) ≠ None).
  { rewrite find_line_app, Ha, Hi. cbn [find_line]. by rewrite He, Hke. }
  destruct Hs' as [a' l b' E Ha' Hi' Hl Hkl| |pre Hf' _]; [|done|].
  - by eapply first_unique.
  - by rewrite (unopened_find _ _ Hf') in Hf.
Qed.
End Sections.

(** *** Other readers *)

Lemma in_disjoint sec tgt tgt' lines :
  (∀ l, sec l = true → tgt l = true → tgt' l = false) →
  in_section sec tgt false lines = true → in_section sec tgt' false lines = false.
Proof.
  intros Hd. cut (∀ st st', (st = true → st' = false) → in_section sec tgt st lines = true → in_section sec tgt' st' lines = false).
  { intros Hc. by apply Hc. }
  induction lines as [|l lines IH]; intros st st' Hst; [done|]. cbn [in_section]. apply IH.
  destruct (sec l) eqn:El; [|done]. by apply Hd.
Qed.

(** A line of the section that only [key] wants is not seen by a reader of another key or
    of another section. *)
Lemma find_past sec tgt key tgt' key' a l b :
  (∀ x, key x = true → key' x = false) ∨ (∀ x, sec x = true → tgt x = true → tgt' x = false) →
  in_section sec tgt false a = true → sec l = false → key l = true →
  find_line sec tgt' key' false (a ++ l :: b) = find_line sec tgt' key' false (a ++ b).
Proof.
  intros Hd Ha Hl Hk. rewrite !find_line_app. destruct (find_line _ _ _ _ a); [done|]. cbn [find_line]. rewrite Hl.
  destruct Hd as [Hd|Hd]; [by rewrite Hd, andb_false_r|]. by rewrite (in_disjoint sec tgt tgt') by done.
Qed.

Lemma spot_keeps sec tgt key tgt' key' hdr lines a b e :
  spot sec tgt key hdr lines a b → sec hdr = true → tgt hdr = true → sec [] = false → key [] = false →
  key' [] = false → sec e = false → key e = true →
  (∀ x, key x = true → key' x = false) ∨ (∀ x, sec x = true → tgt x = true → tgt' x = false) →
  find_line sec tgt' key' false (a ++ e :: b) = find_line sec tgt' key' false lines.
Proof.
  intros Hs Hh Ht Hn Hk Hk' He Hke Hd. destruct (spot_before _ _ _ _ _ _ _ Hs Hh Ht Hn Hk) as [_ Hi].
  rewrite (find_past sec tgt key) by done. destruct Hs as [a l b -> _ _ Hl Hkl|a b -> _ _|pre _ Hp]; [|done|].
  - by rewrite (find_past sec tgt key).
  - rewrite app_nil_r, !find_line_app. destruct (find_line _ _ _ _ lines); [done|].
    rewrite find_blank by done. cbn. by rewrite Hh.
Qed.
