(* ===== verification/ConfigClaims.v ===== *)
(** * Writing configuration files: the theorems

    A setting that is written is there and alone changed, the last of two writes
    counts, and a section that is removed is gone; with an example of each, and of
    the values and files for which they fail. *)

From stdpp Require Import gmap.
From S2P Require Import Prelude.
From S2P Require Import CString.
From S2P Require Import CFloat.
From S2P Require Import TwoState.
From S2P Require Import LineIpc.
From S2P Require Import DesktopEntry.
From S2P Require Import DesktopClaims.
From S2P Require Import ConfigFile.
From S2P Require Import Sections.

(** ** Writing configuration files: lemmas

    What a file says is read by [setting], a reader of this development that knows
    sections, keys and the text after the equals sign.  The scan of the writer finds
    the line the reader finds ([scan_spec], [edit_spec]), and the line that is
    written changes what the reader says of one key alone ([spot_keeps]). *)
Open Scope Z_scope.

(** ** Reading: what a file says *)

Definition is_section (l : text) : bool := first_is "[" (skip_space l).
Definition is_key (key l : text) : bool :=
  negb (first_is "#" (skip_space l)) && has_key key (skip_space l).

(** The text after the equals sign. *)
Definition value_of (key l : text) : text :=
  skip_space (drop 1 (skip_space (drop (length key) (skip_space l)))).

(** The lines after these are in the section with this header; the first line of a
    key within it; its value. *)
Abbreviation inside h := (in_section is_section (fun l => is_header h (skip_space l))).
Abbreviation find_key h k := (find_line is_section (fun l => is_header h (skip_space l)) (is_key k)).

Definition header_of (section : text) : text := str "[" ++ section ++ str "]".
Definition setting (section key : text) (lines : list text) : option text :=
  value_of key <$> find_key (header_of section) key false lines.

(** ** Where the writer finds the key *)

Lemma scan_keep h k s i lines : 0 ≤ key_line s → key_line (scan_lines h k s i lines) = key_line s.
Proof.
  revert s i. induction lines as [|l lines IH]; intros s i Hk; [done|]. cbn [scan_lines].
  assert (E : key_line (scan_line h k s i l) = key_line s).
  { unfold scan_line. destruct (first_is _ _); [done|]. destruct (Z.ltb_spec (key_line s) 0); [lia|].
    by rewrite andb_false_r. }
  rewrite IH; lia.
Qed.

Lemma scan_start_keep h k s i lines :
  0 ≤ i → 0 ≤ section_start s → 0 ≤ section_start (scan_lines h k s i lines).
Proof.
  revert s i. induction lines as [|l lines IH]; intros s i Hi Hs; [done|]. cbn [scan_lines]. apply IH; [lia|].
  unfold scan_line. destruct (first_is _ _); cbn; [by destruct (is_header _ _)|].
  by destruct (_ && _).
Qed.

(** A key is a word. *)
Definition bare (w : text) : Prop :=
  w ≠ [] ∧ Forall (fun c => isspace c = false ∧ c ∉ str "[]=#" ∧ c ≠ NUL) w.

Lemma is_key_line k l : bare k → is_section l = false →
  negb (first_is "#" (skip_space l)) && negb (bool_decide (skip_space l = [])) && has_key k (skip_space l) = is_key k l.
Proof.
  intros [Hne _] _. unfold is_key. destruct (bool_decide_reflect (skip_space l = [])) as [->|Hl]; [|by rewrite andb_true_r].
  rewrite andb_false_r. unfold has_key, has_prefix. destruct k; [done|]. cbn. by rewrite bool_decide_eq_false_2.
Qed.

(** What the scan knows after the lines [l1], none of which has the key. *)
Record scanned (h : text) (l1 : list text) (s : scan) : Prop := mkScanned {
  sc_inside : in_target s = inside h false l1;
  sc_key : key_line s = -1;
  sc_end : section_end s = -1 ∨
    ∃ a x b, l1 = a ++ x :: b ∧ is_section x = true ∧ section_end s = Z.of_nat (length a) ∧ inside h false a = true;
  sc_start : (section_start s = -1 ∧ unopened is_section (fun l => is_header h (skip_space l)) l1) ∨
    (0 ≤ section_start s ∧ (in_target s = true ∨ 0 ≤ section_end s))
}.

Lemma scan_spec h k l1 l2 s :
  bare k → scanned h l1 s →
  let s' := scan_lines h k s (Z.of_nat (length l1)) l2 in
  match find_key h k (inside h false l1) l2 with
  | None => scanned h (l1 ++ l2) s'
  | Some _ => ∃ a l b, l2 = a ++ l :: b ∧ key_line s' = Z.of_nat (length (l1 ++ a)) ∧
      find_key h k (inside h false l1) a = None ∧ inside h false (l1 ++ a) = true ∧
      is_section l = false ∧ is_key k l = true ∧ 0 ≤ section_start s'
  end.
Proof.
  intros Hk. revert l1 s. induction l2 as [|l l2 IH]; intros l1 s Hs; cbn [find_key scan_lines].
  { by rewrite app_nil_r. }
  pose proof Hs as [Hi Hkl He Hst].
  assert (Hstep : is_section l || negb (inside h false l1 && is_key k l) = true →
    scanned h (l1 ++ [l]) (scan_line h k s (Z.of_nat (length l1)) l)).
  { intros Hc. unfold scan_line. fold (is_section l). destruct (is_section l) eqn:El; cbn [orb] in Hc.
    - split; cbn.
      + rewrite in_section_app. cbn. by rewrite El.
      + done.
      + rewrite Hkl. cbn. rewrite andb_true_r, Hi. destruct (inside h false l1) eqn:Ein.
        * right. by exists l1, l, [].
        * destruct He as [He|(a & x & b & -> & Hx & He & Ha)]; [by left|]. right. exists a, x, (b ++ [l]).
          by rewrite <- app_assoc.
      + destruct (is_header h (skip_space l)) eqn:Eh; [right; split; [lia|by left]|].
        rewrite Hkl. cbn. rewrite andb_true_r.
        destruct Hst as [[Hst Hf]|[Hst Hor]].
        * left. split; [done|]. apply Forall_app. split; [done|]. constructor; [|done]. by rewrite Eh, andb_false_r.
        * right. split; [done|]. right. destruct (in_target s); [lia|]. by destruct Hor.
    - rewrite Hi, Hkl. cbn [Z.ltb Z.compare]. rewrite andb_true_r.
      replace (inside h false l1 && negb (first_is "#" (skip_space l)) && negb (bool_decide (skip_space l = [])) &&
        has_key k (skip_space l)) with (inside h false l1 && is_key k l)
        by (rewrite <- (is_key_line k l Hk El); by rewrite !andb_assoc).
      destruct (inside h false l1 && is_key k l) eqn:Ek; [done|].
      split; [by rewrite in_section_app; cbn; rewrite El|done| |].
      + destruct He as [He|(a & x & b & -> & Hx & He & Ha)]; [by left|]. right. exists a, x, (b ++ [l]).
        by rewrite <- app_assoc.
      + destruct Hst as [[Hst Hf]|[Hst Hor]]; [left|by right]. split; [done|].
        apply Forall_app. split; [done|]. constructor; [|done]. by rewrite El. }
  destruct (is_section l || negb (inside h false l1 && is_key k l)) eqn:Ec.
  - specialize (IH (l1 ++ [l]) _ (Hstep eq_refl)). rewrite length_app, Nat2Z.inj_add, in_section_app in IH.
    cbn [length in_section] in IH. change (Z.of_nat 1) with 1 in IH.
    set (st' := if is_section l then _ else _) in IH.
    assert (Ef : (if is_section l then find_key h k (is_header h (skip_space l)) l2
      else if inside h false l1 && is_key k l then Some l else find_key h k (inside h false l1) l2)
      = find_key h k st' l2).
    { unfold st'. destruct (is_section l); [done|]. cbn in Ec. by destruct (inside h false l1 && is_key k l). }
    cbv zeta. rewrite Ef. destruct (find_key h k st' l2) as [v|] eqn:Ev.
    + destruct IH as (a & l' & b & -> & Ekl & Ea & Ein & Es & Ek & E0). exists (l :: a), l', b.
      split; [done|]. rewrite (cons_middle l l1 a), app_assoc. split; [done|]. split; [|done].
      cbn [find_line]. destruct (is_section l); [done|]. cbn in Ec.
      destruct (inside h false l1 && is_key k l); [done|exact Ea].
    + by rewrite (cons_middle l l1 l2), app_assoc.
  - apply orb_false_iff in Ec as [El Ec]. apply negb_false_iff in Ec. rewrite El, Ec.
    exists [], l, l2. split; [done|]. rewrite app_nil_r. apply andb_true_iff in Ec as [Ein Ek].
    assert (H0 : 0 ≤ section_start (scan_lines h k s (Z.of_nat (length l1)) (l :: l2))).
    { apply scan_start_keep; [lia|]. destruct Hst as [[_ Hf]|[? _]]; [|done].
      by rewrite (unopened_in _ _ _ _ Hf) in Ein. }
    split; [|done]. rewrite scan_keep.
    + unfold scan_line. fold (is_section l). rewrite El, Hi, Hkl, Ein. cbn [andb Z.ltb Z.compare].
      by rewrite is_key_line, Ek by done.
    + unfold scan_line. fold (is_section l). rewrite El, Hi, Hkl, Ein. cbn [andb Z.ltb Z.compare].
      rewrite is_key_line, Ek by done. cbn. lia.
Qed.

(** ** What the writer writes *)

Definition entry_line (key value : text) : text := key ++ str " = " ++ value.

Lemma join_cons l ls : join_lines (l :: ls) = l ++ [LF] ++ join_lines ls.
Proof. unfold join_lines. cbn [map concat]. by rewrite <- app_assoc. Qed.
Lemma join_app a b : join_lines (a ++ b) = join_lines a ++ join_lines b.
Proof. unfold join_lines. by rewrite map_app, concat_app. Qed.

Lemma write_before s k v i lines :
  (key_line s < i ∨ i + Z.of_nat (length lines) ≤ key_line s) →
  (key_line s <? 0) && (0 <=? section_start s) = false ∨
    section_end s < i ∨ i + Z.of_nat (length lines) ≤ section_end s →
  write_lines s k v i lines = (join_lines lines, false).
Proof.
  revert i. induction lines as [|l lines IH]; intros i Hk He; [done|]. cbn [write_lines].
  cbn [length] in *. rewrite IH by lia. destruct (Z.eqb_spec i (key_line s)); [lia|].
  destruct (Z.eqb_spec i (section_end s)) as [Ei|]; cbn [andb]; [|by rewrite join_cons].
  destruct He as [->|He]; [by rewrite join_cons|lia].
Qed.

Lemma write_app s k v i a b out w :
  write_lines s k v (i + Z.of_nat (length a)) b = (out, w) →
  write_lines s k v i a = (join_lines a, false) →
  write_lines s k v i (a ++ b) = (join_lines a ++ out, w).
Proof.
  revert i. induction a as [|l a IH]; intros i Hb Ha.
  { cbn in Hb. by rewrite Z.add_0_r in Hb. }
  cbn [app write_lines] in *. destruct (write_lines s k v (i + 1) a) as [r w'] eqn:Er.
  assert (Hi : i + 1 + Z.of_nat (length a) = i + Z.of_nat (length (l :: a))) by (cbn; lia).
  destruct (i =? key_line s); [done|]. destruct ((i =? section_end s) && _ && _); [done|].
  injection Ha as Ha Hw. subst w'.
  rewrite join_cons in *. rewrite (IH (i + 1)); [|by rewrite Hi|].
  - by rewrite <- !app_assoc.
  - rewrite Er. apply app_inv_head in Ha. injection Ha as ->. done.
Qed.

(** Where the line of a key goes, whatever the value. *)
Abbreviation spot_of section key := (spot is_section (fun l => is_header (header_of section) (skip_space l)) (is_key key) (header_of section)).

Lemma key_text_line key value : key_text key value = entry_line key value ++ [LF].
Proof. unfold key_text, entry_line. by rewrite <- !app_assoc. Qed.

Lemma write_at s k v a b :
  key_line s < 0 → 0 ≤ section_start s → section_end s = Z.of_nat (length a) → b ≠ [] →
  write_lines s k v 0 (a ++ b) = (join_lines (a ++ entry_line k v :: b), true).
Proof.
  intros Hk Hs He Hb. rewrite join_app. apply write_app; [|apply write_before; [by left|right; lia]].
  destruct b as [|l b]; [done|]. cbn [write_lines].
  rewrite write_before by (by left; lia) || (right; left; lia).
  destruct (Z.eqb_spec (0 + Z.of_nat (length a)) (key_line s)); [lia|].
  rewrite (proj2 (Z.eqb_eq _ _)) by lia. rewrite (proj2 (Z.ltb_lt _ _)), (proj2 (Z.leb_le _ _)) by done. cbn [andb].
  by rewrite !join_cons, key_text_line, <- !app_assoc.
Qed.

Lemma write_replaced s k v a l b :
  key_line s = Z.of_nat (length a) →
  write_lines s k v 0 (a ++ l :: b) = (join_lines (a ++ entry_line k v :: b), true).
Proof.
  intros Hk. assert (Hn : (key_line s <? 0) = false) by (apply Z.ltb_ge; lia).
  rewrite join_app. apply write_app; [|apply write_before; [right; lia|left; by rewrite Hn]].
  cbn [write_lines]. rewrite write_before; [|left; lia|left; by rewrite Hn].
  rewrite (proj2 (Z.eqb_eq _ _)) by lia. by rewrite join_cons, key_text_line, <- !app_assoc.
Qed.

Lemma write_none s k v lines :
  key_line s < 0 → (section_start s < 0 ∨ section_end s = Z.of_nat (length lines)) →
  write_lines s k v 0 lines = (join_lines lines, false).
Proof.
  intros Hk Hs. apply write_before; [by left|]. destruct Hs as [Hs|Hs]; [left|right; right; lia].
  rewrite (proj2 (Z.leb_gt _ _)) by done. by rewrite andb_false_r.
Qed.

Lemma section_header_short section : (length section ≤ 253)%nat → section_header section = header_of section.
Proof. intros ?. unfold section_header, header_of, trunc. apply take_ge. rewrite !length_app. cbn. lia. Qed.

Lemma edit_spec section key lines :
  bare key → (length section ≤ 253)%nat →
  ∃ a b, spot_of section key lines a b ∧
    (lines = a ++ b → match b with [] => True | x :: _ => is_section x = true end) ∧
    ∀ value, edit_lines section key value lines = join_lines (a ++ entry_line key value :: b).
Proof.
  intros Hk Hlen. unfold edit_lines.
  rewrite section_header_short by done. set (h := header_of section).
  assert (H0 : scanned h [] (mkScan false (-1) (-1) (-1))).
  { split; [done|done|by left|]. left. split; [done|constructor]. }
  pose proof (scan_spec h key [] lines _ Hk H0) as Hs. cbn [length app in_section] in Hs.
  change (Z.of_nat 0) with 0 in Hs. set (s := scan_lines h key _ 0 lines) in *. clearbody s. clear H0.
  cbv zeta in Hs. destruct (find_key h key false lines) as [v|] eqn:Ev.
  - destruct Hs as (a & l & b & -> & Ekl & Ea & Ein & El & Ek & E0).
    exists a, b. split; [by eapply Replaced|].
    split; [intros E%(f_equal length); rewrite !length_app in E; cbn in E; lia|]. intros value.
    set (s' := if in_target s && _ then _ else s).
    assert (Hs' : key_line s' = Z.of_nat (length a) ∧ 0 ≤ section_start s') by (unfold s'; by destruct (in_target s && _)).
    clearbody s'. destruct Hs' as [Ekl' E0']. rewrite (write_replaced s' _ _ a l b Ekl'). cbn [negb andb].
    rewrite (proj2 (Z.ltb_ge (section_start _) 0)) by done. by rewrite !app_nil_r.
  - destruct Hs as [Hi Hkl He Hst]. destruct Hst as [[Hst Hf]|[Hst Hor]].
    + exists (lines ++ [[]] ++ [header_of section]), []. split; [apply Appended; [done|by right]|].
      split; [done|]. intros value. rewrite <- app_assoc. cbn [app].
      rewrite Hi, (unopened_in _ _ _ _ Hf) by done. cbn [andb]. rewrite write_none by lia.
      rewrite Hst. cbn [negb andb Z.leb Z.ltb Z.compare app].
      rewrite join_app, !join_cons, key_text_line. unfold header_of. by rewrite <- !app_assoc.
    + destruct He as [He|(a & x & b & -> & Hx & He & Ha)].
      * assert (Ht : in_target s = true) by (destruct Hor; [done|lia]).
        exists lines, []. split; [apply Inserted; [by rewrite app_nil_r|done|by rewrite <- Hi]|].
        split; [done|]. intros value. rewrite Ht, He. cbn [andb Z.ltb Z.compare]. rewrite write_none by (cbn [key_line section_start section_end]; lia).
        cbn [negb andb section_start key_line]. rewrite Hkl, (proj2 (Z.leb_le 0 (section_start s))), (proj2 (Z.ltb_ge (section_start s) 0)) by done.
        change (-1 <? 0) with true. cbn [andb]. rewrite app_nil_r, join_app, join_cons, key_text_line.
        by rewrite app_nil_r.
      * exists a, (x :: b). split; [by eapply Inserted|]. split; [done|]. intros value.
        rewrite (proj2 (Z.ltb_ge (section_end s) 0)) by lia. rewrite andb_false_r.
        rewrite write_at by (lia || done). cbn [negb andb].
        rewrite (proj2 (Z.ltb_ge (section_start s) 0)) by done. by rewrite !app_nil_r.
Qed.

(** ** What the edit means *)

(** The value of an entry, as it is read back. *)
Definition unblank (value : text) : Prop := skip_space value = value.

Lemma bare_head k : bare k → ∃ c k', k = c :: k' ∧ isspace c = false ∧ c ≠ "["%char ∧ c ≠ "#"%char.
Proof.
  intros [Hne Hf]. destruct k as [|c k']; [done|]. exists c, k'. inversion Hf as [|? ? (Hs & Hc & _)]; subst.
  split_and!; try done; intros ->; apply Hc; vm_compute; set_solver.
Qed.

Lemma has_prefix_app p s : has_prefix p (p ++ s) = true.
Proof. unfold has_prefix. rewrite take_app_length. by apply bool_decide_eq_true_2. Qed.

Lemma has_prefix_split p s : has_prefix p s = true → s = p ++ drop (length p) s.
Proof. unfold has_prefix. intros E%bool_decide_eq_true_1. rewrite <- E at 1. by rewrite take_drop. Qed.

Lemma skip_bare k r : bare k → skip_space (k ++ r) = k ++ r.
Proof. intros (c & k' & -> & Hs & _)%bare_head. cbn. by rewrite Hs. Qed.

Lemma entry_section k v : bare k → is_section (entry_line k v) = false.
Proof.
  intros Hk. unfold is_section, entry_line. rewrite skip_bare by done.
  apply bare_head in Hk as (c & k' & -> & _ & Hc & _). cbn. by apply bool_decide_eq_false_2.
Qed.

Lemma entry_key k v : bare k → is_key k (entry_line k v) = true.
Proof.
  intros Hk. unfold is_key, entry_line. rewrite skip_bare by done. unfold has_key. rewrite has_prefix_app, drop_app_length.
  apply bare_head in Hk as (c & k' & -> & _ & _ & Hc). cbn. by rewrite bool_decide_eq_false_2.
Qed.

Lemma entry_value k v : bare k → unblank v → value_of k (entry_line k v) = v.
Proof. intros Hk Hv. unfold value_of, entry_line. rewrite skip_bare, drop_app_length by done. exact Hv. Qed.

(** A line has at most one bare key. *)
Definition ends_key (c : ascii) : bool := isspace c || bool_decide (c = "="%char).

Lemma bare_no_end k : bare k → Forall (fun c => ends_key c = false) k.
Proof.
  intros [_ Hf]. eapply Forall_impl; [done|]. intros c (Hs & Hc & _). unfold ends_key. rewrite Hs. cbn.
  apply bool_decide_eq_false_2. intros ->. apply Hc. vm_compute. set_solver.
Qed.

Lemma has_key_end k t : has_key k t = true → ∃ c r, t = k ++ c :: r ∧ ends_key c = true.
Proof.
  unfold has_key. intros [Hp He]%andb_true_iff. apply has_prefix_split in Hp. rewrite Hp.
  destruct (drop (length k) t) as [|c r]; [done|]. exists c, r. split; [done|]. unfold ends_key.
  cbn in He. destruct (isspace c); [done|]. cbn. exact He.
Qed.

Lemma word_unique (P : ascii → bool) a b c d r r' :
  Forall (fun x => P x = false) a → Forall (fun x => P x = false) b → P c = true → P d = true →
  a ++ c :: r = b ++ d :: r' → a = b.
Proof.
  intros Ha. revert b. induction Ha as [|x a Hx _ IH]; intros b Hb Hc Hd E.
  - destruct Hb as [|y b Hy _]; [done|]. injection E as -> _. congruence.
  - destruct Hb as [|y b Hy Hb]; injection E as E1 E2; [congruence|]. subst y. by rewrite (IH b Hb Hc Hd E2).
Qed.

Lemma key_unique k k' l : bare k → bare k' → is_key k l = true → is_key k' l = true → k = k'.
Proof.
  intros Hk Hk' [_ H1]%andb_true_iff [_ H2]%andb_true_iff.
  apply has_key_end in H1 as (c & r & E1 & H1), H2 as (d & r' & E2 & H2). rewrite E1 in E2.
  by apply (word_unique ends_key _ _ _ _ _ _ (bare_no_end _ Hk) (bare_no_end _ Hk') H1 H2) in E2.
Qed.

(** A header line names one section. *)
Definition plain (section : text) : Prop := "]"%char ∉ section.

Lemma is_header_self s : is_header (header_of s) (header_of s) = true.
Proof.
  unfold is_header. pose proof (has_prefix_app (header_of s) []) as E. rewrite app_nil_r in E. rewrite E.
  by rewrite drop_all.
Qed.

Lemma header_unique s s' t : plain s → plain s' →
  is_header (header_of s) t = true → is_header (header_of s') t = true → s = s'.
Proof.
  intros Hs Hs' [H1 _]%andb_true_iff [H2 _]%andb_true_iff.
  apply has_prefix_split in H1, H2. rewrite H1 in H2. unfold header_of in H2. rewrite <- !app_assoc in H2.
  cbn in H2. injection H2 as H2.
  eapply (word_unique (fun c => bool_decide (c = "]"%char)) _ _ "]" "]"); [| |done|done|exact H2];
    apply Forall_forall; intros c Hc; apply bool_decide_eq_false_2; intros ->; (by apply Hs) || by apply Hs'.
Qed.

Lemma header_section s : is_section (header_of s) = true.
Proof. done. Qed.


Lemma find_entry h key v b : bare key → find_key h key true (entry_line key v :: b) = Some (entry_line key v).
Proof. intros Hk. cbn [find_line]. by rewrite entry_section, entry_key. Qed.

(** Headers open their section, empty lines are neither, and what is written has its key. *)
Lemma is_key_blank k : bare k → is_key k [] = false.
Proof. by intros (c & k' & -> & _)%bare_head. Qed.

#[local] Hint Resolve header_section is_header_self entry_section entry_key is_key_blank : core.

(** The key that is written has the value. *)
Lemma spot_sets section key lines a b v :
  bare key → unblank v → spot_of section key lines a b → setting section key (a ++ entry_line key v :: b) = Some v.
Proof.
  intros Hk Hv Hs. destruct (spot_before _ _ _ _ _ _ _ Hs) as [Ha Hi]; [by auto..|]. unfold setting.
  rewrite find_line_app, Ha, Hi, find_entry by done. cbn. by rewrite entry_value.
Qed.

(** Every other setting keeps its value. *)
Lemma spot_keeps_settings section key lines a b v section' key' :
  bare key → bare key' → plain section → plain section' → (section', key') ≠ (section, key) →
  spot_of section key lines a b → setting section' key' (a ++ entry_line key v :: b) = setting section' key' lines.
Proof.
  intros Hk Hk' Hp Hp' Hne Hs. unfold setting. f_equal. eapply spot_keeps; [exact Hs|done|exact (is_header_self section)|by auto..|].
  destruct (decide (section' = section)) as [->|Hsec].
  - left. intros l Hl. destruct (is_key key' l) eqn:E; [|done]. destruct Hne. f_equal. by apply (key_unique key' key l).
  - right. intros l _ Hl. destruct (is_header (header_of section') (skip_space l)) eqn:E; [|done].
    by destruct Hsec, (header_unique section' section _ Hp' Hp E).
Qed.

(** A later write of the same key finds the line again: the last one wins. *)
Lemma edit_again section key lines a b v v' :
  bare key → (length section ≤ 253)%nat → spot_of section key lines a b →
  edit_lines section key v' (a ++ entry_line key v :: b) = join_lines (a ++ entry_line key v' :: b).
Proof.
  intros Hk Hlen Hs. destruct (edit_spec section key (a ++ entry_line key v :: b) Hk Hlen) as (a' & b' & Hs' & _ & ->).
  destruct (spot_again _ _ _ _ _ _ _ _ _ _ Hs eq_refl (is_header_self section) eq_refl (is_key_blank key Hk)
    (entry_section key v Hk) (entry_key key v Hk) Hs') as [-> ->]. done.
Qed.

(** ** The file *)

(** A line that comes back whole. *)
Definition short (l : text) : Prop := LF ∉ l ∧ NUL ∉ l ∧ (length l < 1023)%nat.

Lemma short_nil : short [].
Proof. split_and!; [apply not_elem_of_nil..|cbn; lia]. Qed.

Lemma load_join ls : Forall short ls → load_lines (join_lines ls) = ls.
Proof.
  intros Hls. unfold load_lines. rewrite fgets_join, map_map.
  - induction Hls as [|l ls (Hn & Hz & _) _ IH]; [done|]. cbn [map]. rewrite IH. f_equal. unfold chomp, cstr.
    rewrite before_none; [rewrite rev_app_distr; cbn; apply rev_involutive|].
    intros [?|E%list_elem_of_singleton]%elem_of_app; done.
  - eapply Forall_impl; [done|]. by intros l (? & ? & ?).
Qed.

(** The lines of a file; one that does not exist has none. *)
Definition lines_at (path : text) (d : Disk) : list text :=
  match files d !! path with Some f => load_lines f | None => [] end.

Lemma lines_at_write path f fs d : lines_at path (d <| files := <[path := f]> fs |>) = load_lines f.
Proof. unfold lines_at. cbn. by rewrite lookup_insert_eq. Qed.

(** What may be written: words without line ends, a line that fits the buffer. *)
Record writable_entry (section key value : text) : Prop := mkEntry {
  we_key : bare key;
  we_section : plain section;
  we_header : short (header_of section);
  we_fits : (length section ≤ 253)%nat;
  we_line : short (entry_line key value);
  we_value : unblank value
}.

Section Disk.
Context `{Volume}.

(** The permissions let the file be read and written, whatever is in it. *)
Definition accessible (path : text) : Prop := ∀ d, readable d path = true ∧ writable d path = true.

(** The disk with other contents of one file and perhaps another directory. *)
Definition only_file (path : text) (d d' : Disk) : Prop := ∀ p, p ≠ path → files d' !! p = files d !! p.

Lemma only_write path f d : only_file path d (d <| files := <[path := f]> (files d) |>).
Proof. intros p Hp. cbn. by rewrite lookup_insert_ne. Qed.

Lemma wp_ensure_dir path Q d :
  (∀ ms, Q tt (d <| made := ms |>)) → wp no_fault (ensure_dir path) Q d.
Proof.
  intros HQ. unfold ensure_dir. assert (HQ' : Q tt d) by (specialize (HQ (made d)); by destruct d).
  destruct (strchr _ _) as [[|c dir]|]; [by apply wp_ret|by apply wp_modify|by apply wp_ret].
Qed.

Lemma wp_write_whole path content Q d :
  (if writable d path then Q true (d <| files := <[path := content]> (files d) |>) else Q false d) →
  wp no_fault (write_whole path content) Q d.
Proof.
  intros HQ. unfold write_whole. apply wp_bind, wp_gets. destruct (writable d path); by repeat constructor.
Qed.

(** The line goes to its spot, whatever the value. *)
Lemma written_at path section key d :
  bare key → (length section ≤ 253)%nat → short (header_of section) →
  accessible path → Forall short (lines_at path d) →
  ∃ a b, spot_of section key (lines_at path d) a b ∧
    (lines_at path d = a ++ b → match b with [] => True | x :: _ => is_section x = true end) ∧
    ∀ value Q, (∀ ms, Q 0 (d <| made := ms |> <| files := <[path := join_lines (a ++ entry_line key value :: b)]> (files d) |>)) →
      wp no_fault (write_value path section key value) Q d.
Proof.
  intros Hk Hlen Hh Hacc Hls. unfold lines_at in *. destruct (files d !! path) as [f|] eqn:Ef.
  - destruct (edit_spec section key (load_lines f) Hk Hlen) as (a & b & Hs & Hend & Hout). exists a, b. split; [done|]. split; [done|].
    intros value Q HQ. unfold write_value. apply wp_bind, wp_ensure_dir. intros ms.
    destruct (Hacc (d <| made := ms |>)) as [Hr Hw]. apply wp_bind. unfold read_whole. apply wp_gets. rewrite Hr. cbn [files].
    change (files (d <| made := ms |>)) with (files d). rewrite Ef. cbv zeta. apply wp_bind, wp_write_whole. rewrite Hw.
    apply wp_ret. rewrite Hout. apply HQ.
  - exists [header_of section], []. split; [apply (Appended _ _ _ _ [] []); [constructor|by left]|].
    split; [done|].
    intros value Q HQ. unfold write_value. apply wp_bind, wp_ensure_dir. intros ms.
    destruct (Hacc (d <| made := ms |>)) as [Hr Hw]. apply wp_bind. unfold read_whole. apply wp_gets. rewrite Hr.
    change (files (d <| made := ms |>)) with (files d). rewrite Ef. cbv zeta. apply wp_bind, wp_write_whole. rewrite Hw.
    apply wp_ret.
    replace (str "[" ++ _) with (join_lines ([header_of section] ++ [entry_line key value])); [apply HQ|].
    cbn [app]. rewrite !join_cons, key_text_line. unfold header_of. by rewrite <- !app_assoc.
Qed.

Lemma spot_short section key lines a b :
  short (header_of section) → Forall short lines → spot_of section key lines a b →
  Forall short a ∧ Forall short b.
Proof.
  intros Hh Hls Hs. eapply spot_forall; try done. apply short_nil.
Qed.

(** The file says that the key has the value, and otherwise what it said before. *)
Definition only_setting (path section key value : text) (d d' : Disk) : Prop :=
  setting section key (lines_at path d') = Some value ∧
  (∀ section' key', plain section' → bare key' → (section', key') ≠ (section, key) →
    setting section' key' (lines_at path d') = setting section' key' (lines_at path d)) ∧
  only_file path d d'.

Lemma write_value_sets path section key value d :
  writable_entry section key value → accessible path → Forall short (lines_at path d) →
  wp no_fault (write_value path section key value)
    (fun r d' => r = 0 ∧ only_setting path section key value d d' ∧ Forall short (lines_at path d')) d.
Proof.
  intros [Hk Hp Hh Hlen Hl Hv] Hacc Hls.
  destruct (written_at path section key d) as (a & b & Hs & _ & Hw); [done..|].
  destruct (spot_short _ _ _ _ _ Hh Hls Hs) as [Ha Hb]. apply Hw. intros ms. split; [done|].
  assert (Hall : Forall short (a ++ entry_line key value :: b)) by (apply Forall_app; by split; [|constructor]).
  unfold only_setting. rewrite lines_at_write, load_join by done.
  split_and!.
  - by eapply spot_sets.
  - intros s' k' Hp' Hk' Hne. apply (spot_keeps_settings section key (lines_at path d) a b value); assumption.
  - intros p Hne. cbn. by rewrite lookup_insert_ne.
  - done.
Qed.

(** ** Removing a section *)

Lemma find_section_split header lines a b :
  find_section header lines = Some (a, b) →
  ∃ l mid, lines = a ++ l :: mid ++ b ∧ is_section l = true ∧ is_header header (skip_space l) = true ∧
    Forall (fun x => is_section x && is_header header (skip_space x) = false) a ∧
    Forall (fun x => is_section x = false) mid ∧ match b with [] => True | x :: _ => is_section x = true end.
Proof.
  revert a. induction lines as [|l lines IH]; intros a; [done|]. cbn [find_section]. fold (is_section l).
  destruct (is_section l && is_header header (skip_space l)) eqn:E.
  - intros [= <- <-]. apply andb_true_iff in E as [E1 E2]. clear IH. exists l.
    cut (∃ mid, lines = mid ++ (split_at_header lines).2 ∧ Forall (fun x => is_section x = false) mid ∧
      match (split_at_header lines).2 with [] => True | x :: _ => is_section x = true end).
    { intros (mid & Hl & Hm & Hb). exists mid. by rewrite <- Hl. }
    induction lines as [|x lines IH]; [by exists []|]. cbn [split_at_header]. fold (is_section x).
    destruct (is_section x) eqn:Ex; [by exists []|]. destruct (split_at_header lines) as [p q].
    destruct IH as (mid & -> & Hm & Hb). exists (x :: mid). split; [done|]. split; [by constructor|done].
  - destruct (find_section header lines) as [[p q]|]; [|done]. intros [= <- <-].
    destruct (IH p eq_refl) as (x & mid & -> & Hx & Hh & Hp & Hm & Hb). exists x, mid.
    split_and!; try done. by constructor.
Qed.

Lemma find_section_none header lines : find_section header lines = None →
  Forall (fun x => is_section x && is_header header (skip_space x) = false) lines.
Proof.
  induction lines as [|l lines IH]; [done|]. cbn [find_section]. fold (is_section l).
  destruct (is_section l && is_header header (skip_space l)) eqn:E; [done|].
  destruct (find_section header lines) as [[p q]|]; [done|]. intros _. constructor; [done|by apply IH].
Qed.

Lemma cut_keeps section lines a b section' key' :
  find_section (header_of section) lines = Some (a, b) → plain section → plain section' → section' ≠ section →
  setting section' key' (a ++ b) = setting section' key' lines.
Proof.
  intros (l & mid & -> & Hl & Hh & _ & Hm & Hb)%find_section_split Hp Hp' Hne. unfold setting. rewrite !find_line_app.
  destruct (find_key _ _ _ a); [done|]. rewrite find_from_header by done. cbn [find_line]. rewrite Hl.
  rewrite find_in_body; [done..|]. destruct (is_header (header_of section') _) eqn:E; [|done].
  by destruct Hne, (header_unique section' section _ Hp' Hp E).
Qed.

(** Of the section itself what follows its next header stays. *)
Lemma cut_rest section lines a b key :
  find_section (header_of section) lines = Some (a, b) → setting section key (a ++ b) = setting section key b.
Proof.
  intros (l & mid & -> & Hl & Hh & Ha & Hm & Hb)%find_section_split. unfold setting.
  by rewrite find_line_app, (unopened_find _ _ _ _ Ha), (unopened_in _ _ _ _ Ha).
Qed.

(** The lines that are written come back, so a later write finds the same spot. *)
Lemma written_again path section key v v' d :
  writable_entry section key v → accessible path → Forall short (lines_at path d) →
  wp no_fault (write_value path section key v)
    (fun _ d1 => wp no_fault (write_value path section key v')
      (fun _ d2 => wp no_fault (write_value path section key v') (fun _ d3 => files d2 = files d3) d) d1) d.
Proof.
  intros [Hk Hp Hh Hlen Hl Hv] Hacc Hls.
  destruct (written_at path section key d) as (a & b & Hs & _ & Hw); [done..|].
  destruct (spot_short _ _ _ _ _ Hh Hls Hs) as [Ha Hb]. apply Hw. intros ms.
  set (d1 := d <| made := ms |> <| files := _ |>).
  assert (Hall : Forall short (a ++ entry_line key v :: b)) by (apply Forall_app; by split; [|constructor]).
  assert (E1 : lines_at path d1 = a ++ entry_line key v :: b) by (unfold d1; by rewrite lines_at_write, load_join).
  assert (Ef : files d1 !! path = Some (join_lines (a ++ entry_line key v :: b))) by apply lookup_insert_eq.
  unfold write_value at 1. apply wp_bind, wp_ensure_dir. intros ms1. destruct (Hacc (d1 <| made := ms1 |>)) as [Hr Hwr].
  apply wp_bind. unfold read_whole. apply wp_gets. rewrite Hr. change (files (d1 <| made := ms1 |>)) with (files d1).
  rewrite Ef. cbv zeta. apply wp_bind, wp_write_whole. rewrite Hwr. apply wp_ret.
  rewrite load_join by done. erewrite edit_again; [|done..]. apply Hw. intros ms2. cbn. by rewrite insert_insert_eq.
Qed.

(** How often a file opens a section. *)
Definition headers (section : text) (lines : list text) : nat :=
  length (List.filter (fun l => is_section l && is_header (header_of section) (skip_space l)) lines).

Lemma no_headers section lines : headers section lines = 0%nat →
  Forall (fun l => is_section l && is_header (header_of section) (skip_space l) = false) lines.
Proof.
  unfold headers. induction lines as [|l lines IH]; [done|]. cbn [List.filter].
  destruct (is_section l && _) eqn:E; [done|]. intros ?. by constructor; [|apply IH].
Qed.

Lemma cut_single section lines a b key : find_section (header_of section) lines = Some (a, b) →
  (headers section lines ≤ 1)%nat → setting section key b = None.
Proof.
  intros (l & mid & -> & Hl & Hh & Ha & Hm & Hb)%find_section_split Hc.
  cut (find_key (header_of section) key false b = None); [unfold setting; by intros ->|]. apply unopened_find, no_headers. unfold headers in *. rewrite List.filter_app, length_app in Hc.
  cbn [List.filter] in Hc. rewrite Hl, Hh, List.filter_app in Hc. cbn [andb length] in Hc. rewrite length_app in Hc. lia.
Qed.

Lemma cut_short section lines a b : find_section (header_of section) lines = Some (a, b) →
  Forall short lines → Forall short (a ++ b).
Proof.
  intros (l & mid & -> & _)%find_section_split. rewrite !Forall_app, Forall_cons, Forall_app. naive_solver.
Qed.

End Disk.

(** ** Concrete files *)

#[export] Instance bare_dec k : Decision (bare k) := ltac:(unfold bare; apply _).
#[export] Instance short_dec l : Decision (short l) := ltac:(unfold short; apply _).
#[export] Instance unblank_dec v : Decision (unblank v) := ltac:(unfold unblank; apply _).

(** A disk on which every file can be opened, and what a program leaves on it. *)
#[export] Instance open_volume : Volume := {| readable := fun _ _ => true; writable := fun _ _ => true |}.
Lemma open_accessible path : accessible path.
Proof. done. Qed.

Definition run_disk {A} (m : prog Disk A) (d : Disk) : Disk := default d (state_of (m d)).


(** What the four functions write. *)
Inductive datum := Quoted (v : text) | Number (z : Z) | Flag (b : bool) | Decimal (x : double).

Definition datum_text (x : datum) : text :=
  match x with
  | Quoted v => QUOTE :: v ++ [QUOTE]
  | Number z => print_long z
  | Flag b => if b then str "true" else str "false"
  | Decimal x => print_f2 x
  end.

Definition write_datum `{Volume} (path section key : text) (x : datum) : prog Disk Z :=
  match x with
  | Quoted v => isde_config_write_string path section key v
  | Number z => isde_config_write_int path section key z
  | Flag b => isde_config_write_bool path section key (of_bool b)
  | Decimal x => isde_config_write_double path section key x
  end.

Lemma write_datum_value `{Volume} path section key x :
  write_datum path section key x = write_value path section key (datum_text x).
Proof. by destruct x as [v|z|[]|x]. Qed.

(** ** The lines of a file, spelled out *)

Definition blanks (b : text) : Prop := Forall (fun c => isspace c = true) b.

(** The line opens some section; this section, with nothing or a blank after it; or it
    gives the key a value. *)
Definition opens_any (l : text) : Prop := ∃ b c, l = b ++ "["%char :: c ∧ blanks b.
Definition opens (section l : text) : Prop :=
  ∃ b c, l = b ++ str "[" ++ section ++ str "]" ++ c ∧ blanks b ∧
    match c with [] => True | x :: _ => isspace x = true end.
Definition assigns (key l : text) : Prop :=
  ∃ b b' v, l = b ++ key ++ b' ++ "="%char :: v ∧ blanks b ∧ blanks b'.

(** The line after these is in the section; [l] between [p] and [q] is a line of the
    file that gives the key of the section a value. *)
Definition under (section : text) (p : list text) : Prop :=
  ∃ p1 h m, p = p1 ++ h :: m ∧ opens section h ∧ Forall (fun l => ¬ opens_any l) m.
Definition entry_at (section key : text) (lines p : list text) (l : text) (q : list text) : Prop :=
  lines = p ++ l :: q ∧ under section p ∧ assigns key l.

(** The file [new] is the file [old] with the line [e]: in place of the first line that
    gives the key of the section a value; if there is none, at the end of the section,
    which is the end of the file or before a header; if there is no such section, after
    its header and perhaps an empty line at the end of the file. *)
Inductive line_put (section key e : text) (old new : list text) : Prop :=
  | put_replaced p l q :
    entry_at section key old p l q → (∀ p' l' q', entry_at section key old p' l' q' → (length p ≤ length p')%nat) →
    new = p ++ e :: q → line_put section key e old new
  | put_inserted p q :
    (∀ p' l' q', ¬ entry_at section key old p' l' q') → old = p ++ q → under section p →
    match q with [] => True | h :: _ => opens_any h end →
    new = p ++ e :: q → line_put section key e old new
  | put_appended blank :
    Forall (fun l => ¬ opens section l) old → blank = [] ∨ blank = [[]] →
    new = old ++ blank ++ [str "[" ++ section ++ str "]"; e] → line_put section key e old new.

Lemma skip_split l : ∃ b, l = b ++ skip_space l ∧ blanks b.
Proof.
  induction l as [|c l (b & E & Hb)]; [exists []; by split; [|constructor]|]. cbn [skip_space].
  destruct (isspace c) eqn:Ec; [|exists []; by split; [|constructor]]. exists (c :: b). cbn. rewrite <- E. split; [done|by constructor].
Qed.

Lemma skip_past b t : blanks b → skip_space (b ++ t) = skip_space t.
Proof. induction 1 as [|c b Hc _ IH]; [done|]. cbn. by rewrite Hc. Qed.

Lemma opens_any_spec l : is_section l = true ↔ opens_any l.
Proof.
  unfold is_section. split.
  - intros Hf. destruct (skip_split l) as (b & E & Hb). destruct (skip_space l) as [|c t]; [done|].
    cbn in Hf. apply bool_decide_eq_true in Hf as ->. by exists b, t.
  - intros (b & c & -> & Hb). by rewrite skip_past.
Qed.

Lemma opens_spec section l : is_header (header_of section) (skip_space l) = true ↔ opens section l.
Proof.
  unfold is_header, header_of. split.
  - intros [Hp Hd]%andb_true_iff. destruct (skip_split l) as (b & E & Hb). apply has_prefix_split in Hp.
    exists b, (drop (length (str "[" ++ section ++ str "]")) (skip_space l)).
    split; [|split; [done|by destruct (drop _ _)]]. rewrite E at 1. rewrite Hp at 1. by rewrite <- !app_assoc.
  - intros (b & c & -> & Hb & Hc). rewrite skip_past by done.
    replace (str "[" ++ section ++ str "]" ++ c) with ((str "[" ++ section ++ str "]") ++ c) by (by rewrite <- !app_assoc).
    change (skip_space ((str "[" ++ section ++ str "]") ++ c)) with ((str "[" ++ section ++ str "]") ++ c).
    rewrite has_prefix_app, drop_app_length. by destruct c.
Qed.

Lemma opens_is_header section l : opens section l → opens_any l.
Proof. intros (b & c & -> & Hb & _). exists b, (section ++ str "]" ++ c). done. Qed.

Lemma assigns_spec key l : bare key → is_key key l = true ↔ assigns key l.
Proof.
  intros Hk. unfold is_key, has_key. split.
  - intros [_ [Hp Hd]%andb_true_iff]%andb_true_iff. destruct (skip_split l) as (b & E & Hb). apply has_prefix_split in Hp.
    destruct (skip_split (drop (length key) (skip_space l))) as (b' & E' & Hb').
    destruct (skip_space (drop _ _)) as [|c v] in Hd, E'; [done|]. apply bool_decide_eq_true in Hd as ->.
    exists b, b', v. split; [|done]. by rewrite E at 1; rewrite Hp at 1; rewrite E' at 1.
  - intros (b & b' & v & -> & Hb & Hb'). rewrite skip_past, skip_bare by done.
    rewrite has_prefix_app, drop_app_length, skip_past by done.
    apply bare_head in Hk as (c & k' & -> & _ & _ & Hc). cbn. by rewrite bool_decide_eq_false_2.
Qed.

Lemma not_iff (x : bool) (P : Prop) : (x = true ↔ P) → x = false ↔ ¬ P.
Proof. destruct x; naive_solver. Qed.

Lemma under_spec section p : inside (header_of section) false p = true ↔ under section p.
Proof.
  rewrite in_section_lines. unfold under. split.
  - intros [(a & h & m & -> & _ & Ht & Hm)|[? _]]; [|done]. exists a, h, m. split; [done|]. split; [by apply opens_spec|].
    eapply Forall_impl; [exact Hm|]. cbn. intros l. apply not_iff, opens_any_spec.
  - intros (a & h & m & -> & Ht & Hm). left. exists a, h, m. split; [done|].
    split; [by apply opens_any_spec, (opens_is_header section)|]. split; [by apply opens_spec|].
    eapply Forall_impl; [exact Hm|]. cbn. intros l. apply not_iff, opens_any_spec.
Qed.

Lemma assigns_no_section key l : bare key → assigns key l → is_section l = false.
Proof.
  intros Hk (b & b' & v & -> & Hb & _). unfold is_section. rewrite skip_past, skip_bare by done.
  apply bare_head in Hk as (c & k' & -> & _ & Hc & _). cbn. by apply bool_decide_eq_false_2.
Qed.

(** A prefix without the key has no entry in it. *)
Lemma no_entry_in section key p : bare key → find_key (header_of section) key false p = None →
  ∀ p' l' q', ¬ entry_at section key p p' l' q'.
Proof.
  intros Hk Hn p' l' q' (E & Hu & Ha). pose proof (assigns_no_section _ _ Hk Ha) as Hs.
  apply (assigns_spec key l' Hk) in Ha. apply under_spec in Hu.
  pose proof (find_line_none _ _ _ _ _ Hn _ _ _ E Hu Hs). congruence.
Qed.

Lemma spot_put section key lines a b e :
  bare key → spot_of section key lines a b →
  (lines = a ++ b → match b with [] => True | x :: _ => is_section x = true end) →
  line_put section key e lines (a ++ e :: b).
Proof.
  intros Hk Hs Hend. destruct Hs as [a l b -> Hn Hi Hl Hkl|a b -> Hn Hi|pre Hu Hp].
  - eapply (put_replaced _ _ _ _ _ a l b); [|..|done].
    + split; [done|]. split; [by apply under_spec|by apply assigns_spec].
    + intros p' l' q' (E & Hu & Ha). destruct (decide (length p' < length a)%nat) as [Hlt|]; [|lia].
      exfalso. assert (Ep : p' = take (length p') a).
      { apply (f_equal (take (length p'))) in E. rewrite take_app_length, take_app_le in E by lia. by rewrite E. }
      apply (f_equal (drop (length p'))) in E. rewrite drop_app_length, drop_app_le in E by lia.
      destruct (drop (length p') a) as [|y a2] eqn:Ed; [apply (f_equal length) in Ed; rewrite length_drop in Ed; cbn in Ed; lia|].
      injection E as -> _. apply (no_entry_in section key a Hk Hn p' l' a2). split; [|done].
      rewrite Ep at 1. rewrite <- Ed. by rewrite take_drop.
  - eapply (put_inserted _ _ _ _ _ a b); [by apply no_entry_in|done|by apply under_spec| |done].
    specialize (Hend eq_refl). destruct b; [done|by apply opens_any_spec].
  - eapply (put_appended _ _ _ _ _ pre); [|done|by rewrite <- !app_assoc].
    eapply Forall_impl; [exact Hu|]. cbn. intros l Hl Ho. pose proof (opens_is_header _ _ Ho) as Ho'.
    apply opens_spec in Ho. apply opens_any_spec in Ho'. rewrite Ho' in Hl. unfold header_of in Ho. cbn in Ho, Hl. congruence.
Qed.

(** C34: Writing a setting puts the line [key = value] into the file where it belongs: in
    place of the first line that gives the key of the section a value, else at the end of
    the section, else in a new section at the end of the file (which is made if it is
    missing).  Every other line of this file and every other file stays as it is.  This is
    so for a key without blanks and the characters of [bare], a section name of at most
    253 bytes, a file and a new line whose lines have at most 1022 bytes and no NUL. *)
Theorem setting_written `{Volume} path section key x d :
  bare key → (length section ≤ 253)%nat → short (header_of section) → short (entry_line key (datum_text x)) →
  accessible path → Forall short (lines_at path d) →
  wp no_fault (write_datum path section key x)
    (fun r d' => r = 0 ∧ only_file path d d' ∧
      files d' !! path = Some (join_lines (lines_at path d')) ∧
      line_put section key (key ++ str " = " ++ datum_text x) (lines_at path d) (lines_at path d')) d.
Proof.
  intros Hk Hlen Hh Hl Hacc Hls. rewrite write_datum_value.
  destruct (written_at path section key d) as (a & b & Hs & Hend & Hw); [done..|].
  destruct (spot_short _ _ _ _ _ Hh Hls Hs) as [Ha Hb]. apply Hw. intros ms. split; [done|].
  assert (Hall : Forall short (a ++ entry_line key (datum_text x) :: b)) by (apply Forall_app; by split; [|constructor]).
  rewrite lines_at_write, load_join by done.
  split; [|split; [apply lookup_insert_eq|by apply spot_put]].
  intros p Hne. cbn. by rewrite lookup_insert_ne.
Qed.

(** Of two writes of a key the last one counts: the disk is as if the first had not
    happened, byte for byte. *)
Theorem last_write_wins `{Volume} path section key x y d :
  writable_entry section key (datum_text x) → accessible path → Forall short (lines_at path d) →
  wp no_fault (write_datum path section key x)
    (fun _ d1 => wp no_fault (write_datum path section key y)
      (fun _ d2 => wp no_fault (write_datum path section key y) (fun _ d3 => files d2 = files d3) d) d1) d.
Proof. rewrite !write_datum_value. apply written_again. Qed.

(** Removing a section leaves every setting of the other sections and every other file;
    of the section only what stands under a second header of the same name stays. *)
Theorem section_deleted `{Volume} path section d :
  accessible path → plain section → (length section ≤ 253)%nat →
  Forall short (lines_at path d) →
  wp no_fault (isde_config_delete_section path section)
    (fun r d' => r = 0 ∧ only_file path d d' ∧ Forall short (lines_at path d') ∧
      (∀ section' key, plain section' → section' ≠ section →
        setting section' key (lines_at path d') = setting section' key (lines_at path d)) ∧
      ((headers section (lines_at path d) ≤ 1)%nat → ∀ key, setting section key (lines_at path d') = None)) d.
Proof.
  intros Hacc Hp Hlen Hls. destruct (Hacc d) as [Hr Hw]. unfold isde_config_delete_section.
  apply wp_bind. unfold read_whole. apply wp_gets. rewrite Hr. rewrite section_header_short by done.
  assert (Hkeep : find_section (header_of section) (lines_at path d) = None →
    0 = 0 ∧ only_file path d d ∧ Forall short (lines_at path d) ∧
    (∀ section' key, plain section' → section' ≠ section →
      setting section' key (lines_at path d) = setting section' key (lines_at path d)) ∧
    ((headers section (lines_at path d) ≤ 1)%nat → ∀ key, setting section key (lines_at path d) = None)).
  { intros Hn%find_section_none. split_and!; try done. intros _ key. unfold setting. by rewrite unopened_find. }
  destruct (files d !! path) as [f|] eqn:Ef; [|apply wp_ret, Hkeep; unfold lines_at; by rewrite Ef].
  assert (El : load_lines f = lines_at path d) by (unfold lines_at; by rewrite Ef). rewrite El.
  destruct (find_section (header_of section) (lines_at path d)) as [[a b]|] eqn:E; [|by apply wp_ret, Hkeep].
  apply wp_bind, wp_write_whole. rewrite Hw. apply wp_ret. change (concat _) with (join_lines (a ++ b)).
  rewrite lines_at_write, load_join by by eapply cut_short. split_and!; [done|apply only_write|by eapply cut_short| |].
  - intros s' key Hp' Hne. by eapply cut_keeps.
  - intros Hc key. rewrite (cut_rest _ _ _ _ _ E). by eapply cut_single.
Qed.

(** ** Examples *)

Definition sample_path : text := str "/home/u/.config/isde/isde.toml".
Definition sample_lines : list text :=
  map str ["# panel"; "[panel]"; "clock = '24h'"; "  size=40"; ""; "[panel.tray]"; "size = 22"; "[wm] # focus"].
Definition sample_disk : Disk := mkDisk {[ sample_path := join_lines sample_lines ]} [].

Lemma sample_short : Forall short (lines_at sample_path sample_disk).
Proof. apply (bool_decide_unpack _). by vm_compute. Qed.

Definition entry_ok (s k v : text) : bool :=
  bool_decide (bare k) && bool_decide ("]"%char ∉ s) && bool_decide (short (header_of s)) &&
  Nat.leb (length s) 253 && bool_decide (short (entry_line k v)) && bool_decide (unblank v).
Lemma entry_ok_sound s k v : entry_ok s k v = true → writable_entry s k v.
Proof.
  unfold entry_ok. rewrite !andb_true_iff, !bool_decide_eq_true, Nat.leb_le. intros (((((? & ?) & ?) & ?) & ?) & ?). done.
Qed.

Lemma setting_written_witness :
  wp no_fault (write_datum sample_path (str "panel") (str "size") (Number 48))
    (fun r d' => r = 0 ∧ only_file sample_path sample_disk d' ∧
      files d' !! sample_path = Some (join_lines (lines_at sample_path d')) ∧
      line_put (str "panel") (str "size") (str "size = 48") (lines_at sample_path sample_disk) (lines_at sample_path d'))
    sample_disk.
Proof.
  apply (setting_written sample_path (str "panel") (str "size") (Number 48) sample_disk);
    [apply (bool_decide_unpack _); by vm_compute|cbn; lia|apply (bool_decide_unpack _); by vm_compute..|
     exact (open_accessible _)|exact sample_short].
Defined.

(** The file after this: the line is replaced where it stood. *)
Example size_replaced :
  lines_at sample_path (run_disk (write_datum sample_path (str "panel") (str "size") (Number 48)) sample_disk) =
  map str ["# panel"; "[panel]"; "clock = '24h'"; "size = 48"; ""; "[panel.tray]"; "size = 22"; "[wm] # focus"].
Proof. by vm_compute. Qed.
Example scale_written :
  datum_text (Decimal (d_of_dec true 2675 (-3))) = str "-2.67" ∧ datum_text (Decimal (d_of_dec false 125 (-3))) = str "0.12" ∧
  datum_text (Decimal (d_of_dec false 1 20)) = str "100000000000000000000.00".
Proof. by vm_compute. Qed.
Example key_inserted :
  lines_at sample_path (run_disk (write_datum sample_path (str "panel") (str "autohide") (Flag true)) sample_disk) =
  map str ["# panel"; "[panel]"; "clock = '24h'"; "  size=40"; ""; "autohide = true"; "[panel.tray]"; "size = 22"; "[wm] # focus"].
Proof. by vm_compute. Qed.

Lemma last_write_wins_witness :
  wp no_fault (write_datum sample_path (str "dpms") (str "off") (Flag true))
    (fun _ d1 => wp no_fault (write_datum sample_path (str "dpms") (str "off") (Flag false))
      (fun _ d2 => wp no_fault (write_datum sample_path (str "dpms") (str "off") (Flag false))
        (fun _ d3 => files d2 = files d3) sample_disk) d1) sample_disk.
Proof.
  apply (last_write_wins sample_path (str "dpms") (str "off") (Flag true) (Flag false) sample_disk);
    [by apply entry_ok_sound; vm_compute|exact (open_accessible _)|exact sample_short].
Defined.

Lemma section_deleted_witness :
  wp no_fault (isde_config_delete_section sample_path (str "panel"))
    (fun r d' => r = 0 ∧ only_file sample_path sample_disk d' ∧ Forall short (lines_at sample_path d') ∧
      (∀ section' key, plain section' → section' ≠ str "panel" →
        setting section' key (lines_at sample_path d') = setting section' key (lines_at sample_path sample_disk)) ∧
      ((headers (str "panel") (lines_at sample_path sample_disk) ≤ 1)%nat →
        ∀ key, setting (str "panel") key (lines_at sample_path d') = None)) sample_disk.
Proof.
  apply (section_deleted sample_path (str "panel") sample_disk);
    [exact (open_accessible _)|apply (bool_decide_unpack _); by vm_compute|cbn; lia|exact sample_short].
Defined.

(** ** Where the conditions matter *)

(** A text is put between quotes as it is: a quote and a line end in it make it an entry
    of its own. *)
Example injected_entry :
  let v := str "x" ++ [QUOTE; LF] ++ str "admin = true #" in
  let d := run_disk (isde_config_write_string sample_path (str "panel") (str "title") v) sample_disk in
  setting (str "panel") (str "admin") (lines_at sample_path sample_disk) = None ∧
  setting (str "panel") (str "admin") (lines_at sample_path d) = Some (str "true #" ++ [QUOTE]).
Proof. by vm_compute. Qed.

(** A line that does not fit the buffer comes back in two. *)
Example long_line_split :
  let l := str "names = " ++ repeat "x"%char 1100 in
  let d := mkDisk {[ sample_path := join_lines [str "[panel]"; l] ]} [] in
  files (run_disk (write_datum sample_path (str "panel") (str "size") (Number 48)) d) !! sample_path =
  Some (join_lines [str "[panel]"; take 1023 l; drop 1023 l; str "size = 48"]).
Proof. by vm_compute. Qed.

(** Only the first of two sections of the same name goes. *)
Example second_section_stays :
  let d := mkDisk {[ sample_path := join_lines (map str ["[a]"; "x = 1"; "[b]"; "[a]"; "y = 2"]) ]} [] in
  lines_at sample_path (run_disk (isde_config_delete_section sample_path (str "a")) d) = map str ["[b]"; "[a]"; "y = 2"].
Proof. by vm_compute. Qed.

(** A file that is there but cannot be read is taken for a new one: what it held is lost. *)
Example unreadable_overwritten :
  let V := {| readable := fun _ _ => false; writable := fun _ _ => true |} in
  lines_at sample_path (run_disk (write_datum sample_path (str "panel") (str "size") (Number 48)) sample_disk) =
  map str ["[panel]"; "size = 48"].
Proof. by vm_compute. Qed.
