(* ===== verification/MimeFile.v ===== *)
(** * MIME types and the applications that open them (platform/common/isde-mime.c)

    The glob table of the shared MIME database, and the mimeapps.list files: looking
    up the default application of a type and setting it.  The array of lines of
    [isde_mime_set_default] keeps its capacity, so that a store past it is seen. *)

From S2P Require Import Prelude.
From S2P Require Import CString.
From S2P Require Import CFloat.
From S2P Require Import ConfigFile.
From stdpp Require Import gmap.
Open Scope Z_scope.

(** ** File types by extension *)

Record GlobEntry := mkGlob { ext : text; mime : text; weight : Z }.

(** The statics of the file, next to the disk. *)
Record Mime := mkMime { disk : Disk; glob_table : list GlobEntry; glob_loaded : bool }.
#[export] Instance mime_eta : RecEta Mime :=
  Build_RecEta _ (fun m => mkMime (disk m) (glob_table m) (glob_loaded m)).

(** [atoi]: the value of [strtol], which saturates, as an int. *)
Definition atoi (s : text) : Z :=
  let '(neg, s1) := scan_sign (skip_space s) in
  let '(v, _, _) := scan_digits 10 0 0 s1 in
  s32 (if neg then Z.max (- 2 ^ 63) (- v) else Z.min (2 ^ 63 - 1) v).

Definition glob_line (line : text) : option GlobEntry :=
  if first_is "#" line then None else
  match strchr ":" line with
  | Some (_ :: r1) =>
    match strchr ":" r1 with
    | Some (_ :: r2) =>
      let pattern := before LF r2 in
      match pattern with
      | c1 :: c2 :: e =>
        if bool_decide (c1 = "*"%char) && bool_decide (c2 = "."%char) &&
           negb (bool_decide ("*"%char ∈ e) || bool_decide ("?"%char ∈ e))
        then Some (mkGlob e (before ":" r1) (atoi (before ":" line)))
        else None
      | _ => None
      end
    | _ => None
    end
  | _ => None
  end.

Definition GLOBS2 : text := str "/usr/share/mime/globs2".
Definition OCTET_STREAM : text := str "application/octet-stream".

Section Globs.
Context `{Volume}.

Definition load_globs : prog Mime unit :=
  loaded ← gets glob_loaded;
  if (loaded : bool) then skip else
    modify (fun m => m <| glob_loaded := true |>);;
    f ← gets (fun m => if readable (disk m) GLOBS2 then files (disk m) !! GLOBS2 else None);
    match f with
    | None => skip
    | Some file =>
      modify (fun m => m <| glob_table := omap (fun l => glob_line (cstr l)) (fgets_sized 511 511 [] file) |>)
    end.

(** [strcasecmp(a, b) == 0] *)
Definition same_ci (a b : text) : bool := bool_decide (map lower a = map lower b).

(** What follows the last dot. *)
Definition extension (filename : text) : option text :=
  if bool_decide ("."%char ∈ filename) then Some (rev (before "." (rev filename))) else None.

Definition better (e : text) (best : option text * Z) (g : GlobEntry) : option text * Z :=
  if same_ci (ext g) e then if snd best <? weight g then (Some (mime g), weight g) else best else best.

Definition isde_mime_type_for_file (filename : option text) : prog Mime text :=
  load_globs;;
  match filename ≫= extension with
  | None | Some [] => mret OCTET_STREAM
  | Some e =>
    table ← gets glob_table;
    mret (default OCTET_STREAM (fst (foldl (better e) (None, -1) table)))
  end.
End Globs.

(** ** Default applications *)

Definition DEFAULTS : text := str "[Default Applications]".

(** The newline, carriage return, blanks and tabs at the end. *)
Definition is_trailing (c : ascii) : bool :=
  bool_decide (c ∈ [LF; "013"%char; " "%char; "009"%char]).
Fixpoint drop_trailing (r : text) : text :=
  match r with c :: r' => if is_trailing c then drop_trailing r' else r | [] => [] end.
Definition rstrip_line (line : text) : text := rev (drop_trailing (rev line)).

Definition is_blank (c : ascii) : bool := bool_decide (c = " "%char ∨ c = "009"%char).
Fixpoint skip_blank (s : text) : text :=
  match s with c :: s' => if is_blank c then skip_blank s' else s | [] => [] end.

(** Is the text before the first equals sign the type? *)
Definition for_mime (mime line : text) : bool :=
  bool_decide ("="%char ∈ line) && bool_decide (before "=" line = mime).

Definition app_value (line : text) : option text :=
  match strchr "=" line with
  | Some (_ :: v) => match skip_blank (before ";" v) with [] => None | app => Some app end
  | _ => None
  end.

Fixpoint search_lines (mime : text) (in_defaults : bool) (lines : list text) : option text :=
  match lines with
  | [] => None
  | l :: ls =>
    let line := rstrip_line (cstr l) in
    if first_is "[" line then search_lines mime (bool_decide (line = DEFAULTS)) ls
    else if in_defaults && negb (first_is "#" line) && negb (bool_decide (line = [])) && for_mime mime line
    then app_value line
    else search_lines mime in_defaults ls
  end.

(** [getenv], and [access(path, R_OK) == 0]. *)
Class Environment := {
  HOME : option text; XDG_CONFIG_HOME : option text; access_ok : Disk → text → bool }.

Section Apps.
Context `{Volume, Environment}.

Definition search_mimeapps (path mime : text) : prog Disk (option text) :=
  f ← read_whole path;
  mret (match f with Some file => search_lines mime false (fgets_lines 1023 [] file) | None => None end).

(** The files are searched in order until one names an application. *)
Fixpoint search_files (paths : list text) (mime : text) : prog Disk (option text) :=
  match paths with
  | [] => mret None
  | p :: ps =>
    r ← search_mimeapps p mime;
    match r with Some app => mret (Some app) | None => search_files ps mime end
  end.

Definition user_list (home : text) : text := trunc 512 (home ++ str "/.config/mimeapps.list").

Definition mimeapps_files : list text :=
  match HOME with
  | Some home =>
    user_list home ::
    match XDG_CONFIG_HOME with Some c => [trunc 512 (c ++ str "/mimeapps.list")] | None => [] end
  | None => []
  end ++
  map str ["/usr/share/applications/mimeapps.list"; "/usr/local/share/applications/mimeapps.list";
           "/usr/share/applications/defaults.list"].

Definition isde_mime_default_app (mime : option text) : prog Disk (option text) :=
  match mime with None => mret None | Some m => search_files mimeapps_files m end.

Definition desktop_dirs : list text :=
  [match HOME with Some home => trunc 512 (home ++ str "/.local/share/applications") | None => [] end;
   str "/usr/share/applications"; str "/usr/local/share/applications"].

Fixpoint find_in (dirs : list text) (desktop_id : text) : prog Disk (option text) :=
  match dirs with
  | [] => mret None
  | dir :: ds =>
    if bool_decide (dir = []) then find_in ds desktop_id else
    let path := trunc 1024 (dir ++ str "/" ++ desktop_id) in
    ok ← gets (fun d => access_ok d path);
    if (ok : bool) then mret (Some path) else find_in ds desktop_id
  end.

Definition isde_mime_find_desktop (desktop_id : option text) : prog Disk (option text) :=
  match desktop_id with None => mret None | Some id => find_in desktop_dirs id end.

(** ** Setting the default *)

(** The lines read, the capacity of their array and the flags of the loop. *)
Record update := mkUpdate {
  lns : list text; cap : Z; found : bool; insert_at : Z; in_defaults : bool; has_section : bool }.
#[export] Instance update_eta : RecEta update :=
  Build_RecEta _ (fun u => mkUpdate (lns u) (cap u) (found u) (insert_at u) (in_defaults u) (has_section u)).

Definition nlines (u : update) : Z := Z.of_nat (length (lns u)).

(** [lines[nlines++] = strdup(l)] *)
Definition push_line (l : text) (u : update) : option update :=
  if nlines u <? cap u then Some (u <| lns := lns u ++ [l] |>) else None.

Definition entry (mime desktop_id : text) : text := trunc 1024 (mime ++ str "=" ++ desktop_id ++ [LF]).

Definition update_line (mime desktop_id : text) (u : update) (line : text) : option update :=
  let u := if cap u <=? nlines u then u <| cap := if truthy (cap u) then cap u * 2 else 64 |> else u in
  if in_defaults u && negb (found u) && for_mime mime line then
    push_line (entry mime desktop_id) (u <| found := true |>)
  else
    push_line line
      (if first_is "[" line then
         let u := if in_defaults u && negb (found u) then u <| insert_at := nlines u |> else u in
         let d := has_prefix DEFAULTS line in
         u <| in_defaults := d |> <| has_section := has_section u || d |>
       else u).

Fixpoint update_lines (mime desktop_id : text) (u : update) (file : list text) : option update :=
  match file with
  | [] => Some (if in_defaults u && negb (found u) then u <| insert_at := nlines u |> else u)
  | l :: ls => u' ← update_line mime desktop_id u (cstr l); update_lines mime desktop_id u' ls
  end.

(** The entry, when no line had the type. *)
Definition add_app (mime desktop_id : text) (u : update) : option update :=
  if found u then Some u
  else if negb (has_section u) then
    let u := if cap u <=? nlines u then u <| cap := cap u + 4 |> else u in
    u ← if 0 <? nlines u then push_line [LF] u else Some u;
    u ← push_line (DEFAULTS ++ [LF]) u;
    push_line (entry mime desktop_id) u
  else if 0 <=? insert_at u then
    let u := if cap u <=? nlines u + 1 then u <| cap := cap u + 4 |> else u in
    if nlines u <? cap u then
      let at_ := Z.to_nat (insert_at u) in
      Some (u <| lns := take at_ (lns u) ++ entry mime desktop_id :: drop at_ (lns u) |>)
    else None
  else Some u.

Definition no_lines : update := mkUpdate [] 0 false (-1) false false.

Definition isde_mime_set_default (mime desktop_id : option text) : prog Disk Z :=
  match mime, desktop_id, HOME with
  | Some m, Some id, Some home =>
    let path := user_list home in
    f ← read_whole path;
    match update_lines m id no_lines (match f with Some file => fgets_lines 1023 [] file | None => [] end)
          ≫= add_app m id with
    | None => raise OutOfBounds
    | Some u =>
      ok ← write_whole path (concat (lns u));
      mret (if (ok : bool) then 0 else -1)
    end
  | _, _, _ => mret (-1)
  end.
End Apps.
