(* ===== verification/MimeProof.v ===== *)
(** * MIME types and their applications: lemmas *)

From S2P Require Import Prelude.
From S2P Require Import CString.
From S2P Require Import CFloat.
From S2P Require Import TwoState.
From S2P Require Import LineIpc.
From S2P Require Import DesktopEntry.
From S2P Require Import DesktopClaims.
From S2P Require Import ConfigFile.
From S2P Require Import Sections.
From S2P Require Import ConfigClaims.
From S2P Require Import MimeFile.
From stdpp Require Import gmap.
Open Scope Z_scope.

#[local] Arguments DEFAULTS : simpl never.

(** ** Lines with their newline *)

Definition nl (t : text) : text := t ++ [LF].

Lemma first_nl c t : c ≠ LF → first_is c (nl t) = first_is c t.
Proof. intros Hc. destruct t as [|x t]; [|done]. cbn. apply bool_decide_eq_false_2. congruence. Qed.

Lemma prefix_nl p t : LF ∉ p → has_prefix p (nl t) = has_prefix p t.
Proof.
  intros Hp. unfold has_prefix, nl. apply bool_decide_ext. destruct (decide (length p ≤ length t)%nat).
  - by rewrite take_app_le.
  - rewrite !take_ge by (rewrite ?length_app; cbn; lia). split; intros <-; [|cbn in *; lia].
    destruct Hp. apply elem_of_app. right. by constructor.
Qed.

Lemma before_app_in c s t : c ∈ s → before c (s ++ t) = before c s.
Proof.
  induction s as [|x s IH]; intros Hc; [set_solver|]. cbn. case_decide; [done|]. f_equal. apply IH. set_solver.
Qed.

Lemma for_mime_app m t s : "="%char ∉ s → for_mime m (t ++ s) = for_mime m t.
Proof.
  intros Hs. unfold for_mime.
  rewrite (bool_decide_ext ("="%char ∈ t ++ s) ("="%char ∈ t)) by (rewrite elem_of_app; naive_solver).
  destruct (bool_decide_reflect ("="%char ∈ t)); [by rewrite before_app_in|done].
Qed.

Lemma for_mime_nil m : for_mime m [] = false.
Proof. done. Qed.

Lemma for_mime_split m t : for_mime m t = true → ∃ v, t = m ++ "="%char :: v.
Proof.
  unfold for_mime. intros [H1%bool_decide_eq_true_1 H2%bool_decide_eq_true_1]%andb_true_iff. subst m. eexists. by apply before_split.
Qed.

(** What the end of a line loses. *)
Lemma drop_trailing_split r : ∃ w, r = w ++ drop_trailing r ∧ Forall (fun c => is_trailing c = true) w.
Proof.
  induction r as [|c r (w & E & Hw)]; [by exists []|]. cbn. destruct (is_trailing c) eqn:Ec.
  - exists (c :: w). split; [cbn; by rewrite <- E|by constructor].
  - by exists [].
Qed.

Lemma rstrip_split t : ∃ w, t = rstrip_line t ++ w ∧ Forall (fun c => is_trailing c = true) w.
Proof.
  unfold rstrip_line. destruct (drop_trailing_split (rev t)) as (w & E & Hw). exists (rev w). split.
  - rewrite <- rev_app_distr, <- E. by rewrite rev_involutive.
  - apply Forall_forall. intros c Hc. rewrite Forall_forall in Hw. apply Hw.
    by apply list_elem_of_In, in_rev, list_elem_of_In.
Qed.

Lemma rstrip_nl t : rstrip_line (nl t) = rstrip_line t.
Proof. unfold rstrip_line, nl. by rewrite rev_app_distr. Qed.

Lemma rstrip_keep t c : is_trailing c = false → rstrip_line (t ++ [c]) = t ++ [c].
Proof. intros Hc. unfold rstrip_line. rewrite rev_app_distr. cbn. rewrite Hc. cbn. by rewrite rev_involutive. Qed.

Lemma for_mime_rstrip m t : for_mime m (rstrip_line t) = for_mime m t.
Proof.
  destruct (rstrip_split t) as (w & E & Hw). rewrite E at 2. symmetry. apply for_mime_app.
  intros Hin. by rewrite Forall_forall in Hw; specialize (Hw _ Hin).
Qed.

Lemma first_rstrip c t : is_trailing c = false → first_is c (rstrip_line t) = first_is c t.
Proof.
  intros Hc. destruct (rstrip_split t) as (w & E & Hw). rewrite E at 2.
  destruct (rstrip_line t) as [|x r]; [|done]. destruct Hw as [|x w Hx _]; [done|]. cbn. symmetry.
  apply bool_decide_eq_false_2. congruence.
Qed.

(** ** The reader *)

(** A type that can be written: no equals sign, and no start of a header or comment. *)
Record good_mime (m : text) : Prop := mkGoodMime {
  gm_some : m ≠ [];
  gm_plain : "="%char ∉ m ∧ LF ∉ m ∧ NUL ∉ m;
  gm_head : first_is "[" m = false ∧ first_is "#" m = false
}.

(** A header is not followed by anything but blanks. *)
Definition clean (t : text) : Prop := has_prefix DEFAULTS t = true → rstrip_line t = DEFAULTS.

Abbreviation in_defs := (in_section (first_is "[") (has_prefix DEFAULTS)).
Abbreviation find_mime m := (find_line (first_is "[") (has_prefix DEFAULTS) (for_mime m)).

Lemma for_mime_head m t : good_mime m → for_mime m t = true → first_is "[" t = false ∧ first_is "#" t = false ∧ t ≠ [].
Proof. intros [Hm _ [H1 H2]] (v & ->)%for_mime_split. by destruct m. Qed.

Lemma default_header t : first_is "[" t = true → clean t → bool_decide (rstrip_line t = DEFAULTS) = has_prefix DEFAULTS t.
Proof.
  intros _ Hc. destruct (has_prefix DEFAULTS t) eqn:E; [by rewrite Hc, bool_decide_eq_true_2|].
  apply bool_decide_eq_false_2. intros Er. destruct (rstrip_split t) as (w & Et & _).
  by rewrite Et, Er, has_prefix_app in E.
Qed.

Lemma cstr_nl t : NUL ∉ t → cstr (nl t) = nl t.
Proof. intros Ht. apply before_none. intros [?|E%list_elem_of_singleton]%elem_of_app; done. Qed.

Lemma search_found m st ts :
  good_mime m → Forall clean ts → Forall short ts →
  search_lines m st (map nl ts) = find_mime m st ts ≫= fun t => app_value (rstrip_line t).
Proof.
  intros Hm Hc Hs. revert st. induction Hs as [|t ts (_ & Hz & _) _ IH]; intros st; [done|].
  apply Forall_cons in Hc as [Hc Hcs]. cbn [map search_lines find_line].
  rewrite cstr_nl, rstrip_nl, first_rstrip, first_rstrip by done.
  destruct (first_is "[" t) eqn:Et; [by rewrite default_header, IH|]. rewrite for_mime_rstrip.
  destruct (for_mime m t) eqn:Ek; [|by rewrite !andb_false_r, IH].
  destruct (for_mime_head m t Hm Ek) as (_ & -> & Hne).
  rewrite bool_decide_eq_false_2; [destruct st; [done|apply IH; done]|].
  intros Er. pose proof (for_mime_rstrip m t) as E. by rewrite Er, Ek in E.
Qed.

(** ** The writer *)

Definition app_entry (m id : text) : text := m ++ str "=" ++ id.

Record good_app (m id : text) : Prop := mkGoodApp {
  ga_some : id ≠ [];
  ga_plain : ";"%char ∉ id ∧ LF ∉ id ∧ NUL ∉ id;
  ga_head : skip_blank id = id;
  ga_tail : rstrip_line id = id;
  ga_fits : (length (app_entry m id) < 1022)%nat
}.

Lemma entry_nl m id : good_app m id → entry m id = nl (app_entry m id).
Proof.
  intros Hg. pose proof (ga_fits _ _ Hg) as Hf. unfold entry, nl, app_entry, trunc in *. rewrite take_ge; [by rewrite <- !app_assoc|].
  rewrite !length_app in *. cbn in *. lia.
Qed.

Lemma rstrip_app s t : t ≠ [] → rstrip_line t = t → rstrip_line (s ++ t) = s ++ t.
Proof.
  intros Hne Ht. destruct t as [|c t _] using rev_ind; [done|]. rewrite app_assoc. apply rstrip_keep.
  destruct (is_trailing c) eqn:Ec; [|done]. exfalso.
  assert (E : rstrip_line (t ++ [c]) = rstrip_line t) by (unfold rstrip_line; rewrite rev_app_distr; cbn; by rewrite Ec).
  rewrite E in Ht. destruct (rstrip_split t) as (w & Ew & _). rewrite Ht in Ew. apply (f_equal length) in Ew.
  rewrite !length_app in Ew. cbn in Ew. lia.
Qed.

Lemma app_entry_value m id : good_mime m → good_app m id → app_value (rstrip_line (app_entry m id)) = Some id.
Proof.
  intros [_ (Hq & _ & _) _] [Hn (Hs & _ & _) Hh Ht _]. unfold app_entry. rewrite app_assoc, rstrip_app by done.
  rewrite <- app_assoc. unfold app_value. change (str "=" ++ id) with ("="%char :: id).
  rewrite strchr_char by done. rewrite before_none by done. rewrite Hh. by destruct id.
Qed.

Lemma app_entry_for m id : good_mime m → for_mime m (app_entry m id) = true.
Proof.
  intros [_ (Hq & _ & _) _]. unfold for_mime, app_entry. change (str "=" ++ id) with ("="%char :: id).
  rewrite before_app_mem by done. rewrite !bool_decide_eq_true_2; [done|done|]. apply elem_of_app. right. by left.
Qed.

Lemma app_entry_section m id : good_mime m → first_is "[" (app_entry m id) = false.
Proof. intros Hm. by apply (for_mime_head m _ Hm), app_entry_for. Qed.

(** *** Room in the array *)

(** The capacity of an array of [n] lines that grew one at a time. *)
Definition grown (n c : Z) : Prop :=
  n = 0 ∧ c = 0 ∨ ∃ k, 0 ≤ k ∧ c = 64 * 2 ^ k ∧ n ≤ c ∧ 1 ≤ n ∧ (k = 0 ∨ 32 * 2 ^ k < n).

Lemma grown_step n c : grown n c →
  let c' := if c <=? n then if truthy c then c * 2 else 64 else c in grown (n + 1) c' ∧ n < c'.
Proof.
  intros [[-> ->]|(k & Hk & -> & Hn & H1 & Hlow)]; cbv zeta.
  - cbn. split; [|done]. right. exists 0. lia.
  - pose proof (Z.pow_pos_nonneg 2 k ltac:(lia) Hk) as Hp. destruct (Z.leb_spec (64 * 2 ^ k) n).
    + unfold truthy. destruct (Z.eqb_spec (64 * 2 ^ k) 0); [lia|]. cbn. split; [|lia]. right. exists (k + 1).
      rewrite Z.pow_add_r by lia. split_and!; try lia.
    + split; [|done]. right. exists k. split_and!; try lia.
Qed.

Definition opens (line : text) : bool := first_is "[" line && has_prefix DEFAULTS line.

(** What the loop keeps whatever the lines are. *)
Record flags (u : update) : Prop := mkFlags {
  fl_in : in_defaults u = true → has_section u = true;
  fl_found : found u = true → has_section u = true;
  fl_at : -1 ≤ insert_at u ≤ nlines u;
  fl_place : has_section u = true → found u = false → in_defaults u = true ∨ 0 ≤ insert_at u
}.

Lemma push_some l u : nlines u < cap u → push_line l u = Some (u <| lns := lns u ++ [l] |>).
Proof. intros ?. unfold push_line. by rewrite (proj2 (Z.ltb_lt _ _)). Qed.

Lemma nlines_push l u : nlines (u <| lns := lns u ++ [l] |>) = nlines u + 1.
Proof. unfold nlines. cbn. rewrite length_app. cbn. lia. Qed.

Lemma flags_push u l : flags u → flags (u <| lns := lns u ++ [l] |>).
Proof.
  intros [Hi Hf Ha Hp]. pose proof (nlines_push l u) as E. split; [done|done| |done].
  rewrite E. change (insert_at (u <| lns := lns u ++ [l] |>)) with (insert_at u). lia.
Qed.

(** The line that is stored, and the flags after it. *)
Definition note_line (m id : text) (u : update) (line : text) : update * text :=
  if in_defaults u && negb (found u) && for_mime m line then (u <| found := true |>, entry m id)
  else
    (if first_is "[" line then
       let u := if in_defaults u && negb (found u) then u <| insert_at := nlines u |> else u in
       let d := has_prefix DEFAULTS line in
       u <| in_defaults := d |> <| has_section := has_section u || d |>
     else u, line).

Lemma note_flags m id u line : flags u →
  flags (note_line m id u line).1 ∧ lns (note_line m id u line).1 = lns u ∧
  has_section (note_line m id u line).1 = has_section u || opens line.
Proof.
  intros [Hi Hf Ha Hp]. destruct u as [ls c f at_ d h]. unfold note_line, opens, nlines in *. cbn in *.
  destruct (d && negb f && for_mime m line) eqn:E.
  - apply andb_true_iff in E as [[Hd _]%andb_true_iff _]. rewrite (Hi Hd). split; [by split|done].
  - destruct (first_is "[" line); cbn; [|by rewrite orb_false_r].
    split; [|by destruct (d && negb f)]. destruct d, f, h, (has_prefix DEFAULTS line); cbn in *; split; cbn; unfold nlines; cbn; try done; try lia;
      naive_solver lia.
Qed.

Lemma update_line_total m id u line : flags u → grown (nlines u) (cap u) →
  ∃ u', update_line m id u line = Some u' ∧ flags u' ∧ grown (nlines u') (cap u') ∧ nlines u' = nlines u + 1 ∧
    has_section u' = has_section u || opens line ∧
    ∃ c, u' = (note_line m id u line).1 <| cap := c |> <| lns := lns u ++ [(note_line m id u line).2] |>.
Proof.
  intros Hfl Hg. destruct (grown_step _ _ Hg) as [Hg' Hlt]. set (c' := if cap u <=? nlines u then _ else _) in *.
  assert (E : update_line m id u line = push_line (note_line m id u line).2 ((note_line m id u line).1 <| cap := c' |>)).
  { unfold update_line, note_line, c'. destruct u as [ls c f at_ d h]. unfold nlines. cbn.
    destruct (c <=? Z.of_nat (length ls)); cbn; unfold nlines; cbn;
      (destruct (d && negb f && for_mime m line); [done|]; destruct (first_is "[" line); [|done]; by destruct (d && negb f)). }
  destruct (note_flags m id u line Hfl) as (Hfl' & El & Eh). destruct (note_line m id u line) as [v l]. cbn [fst snd] in *.
  assert (En : nlines (v <| cap := c' |>) = nlines u) by (unfold nlines; cbn; by rewrite El).
  rewrite E, push_some by (rewrite En; exact Hlt). eexists. split; [done|]. rewrite nlines_push, En.
  split_and!; [|exact Hg'|done|exact Eh|exists c'; cbn; by rewrite El]. apply flags_push. destruct Hfl' as [Hi Hf Ha Hp]. by split.
Qed.

Lemma update_lines_total m id u raw : flags u → grown (nlines u) (cap u) →
  ∃ u', update_lines m id u raw = Some u' ∧ flags u' ∧ grown (nlines u') (cap u') ∧
    nlines u' = nlines u + Z.of_nat (length raw) ∧
    has_section u' = has_section u || existsb opens (map cstr raw) ∧
    (has_section u' = true → found u' = false → 0 ≤ insert_at u').
Proof.
  revert u. induction raw as [|l raw IH]; intros u Hf Hg; cbn [update_lines].
  - exists (if in_defaults u && negb (found u) then u <| insert_at := nlines u |> else u). split; [done|].
    destruct Hf as [Hi Hfd Ha Hp]. destruct (in_defaults u && negb (found u)) eqn:E.
    + split_and!; [|exact Hg|cbn; change (nlines u = nlines u + 0); lia|cbn; by rewrite orb_false_r|unfold nlines; cbn; lia].
      split; cbn; [done|done|unfold nlines; cbn; lia|unfold nlines; cbn; lia].
    + split_and!; [by split|exact Hg|cbn; lia|cbn; by rewrite orb_false_r|]. intros Hs Hnf.
      destruct (Hp Hs Hnf) as [Hd|]; [|done]. by rewrite Hd, Hnf in E.
  - destruct (update_line_total m id u (cstr l) Hf Hg) as (u1 & -> & Hf1 & Hg1 & En & Eh & _). cbn [mbind option_bind].
    destruct (IH u1 Hf1 Hg1) as (u' & E & Hf' & Hg' & En' & Eh' & Hp). exists u'. split_and!; try done.
    + rewrite En', En. cbn [length]. lia.
    + rewrite Eh', Eh. cbn [map existsb]. by rewrite orb_assoc.
Qed.

(** One or two short of the capacity: the three new lines do not fit. *)
Definition overrun (n : Z) : Prop := ∃ k, 0 ≤ k ∧ (n = 64 * 2 ^ k - 1 ∨ n = 64 * 2 ^ k - 2).

Lemma overrun_cap n k : 0 ≤ k → n ≤ 64 * 2 ^ k → 1 ≤ n → (k = 0 ∨ 32 * 2 ^ k < n) →
  overrun n ↔ 64 * 2 ^ k - 2 ≤ n < 64 * 2 ^ k.
Proof.
  intros Hk Hn H1 Hlow. split.
  - intros (j & Hj & Hnj). enough (j = k) as -> by lia.
    destruct (Z.lt_trichotomy j k) as [Hlt|[->|Hlt]]; [|done|]; exfalso.
    + assert (2 ^ (j + 1) ≤ 2 ^ k) by (apply Z.pow_le_mono_r; lia). rewrite Z.pow_add_r in H by lia. lia.
    + assert (2 ^ (k + 1) ≤ 2 ^ j) by (apply Z.pow_le_mono_r; lia). rewrite Z.pow_add_r in H by lia.
      pose proof (Z.pow_pos_nonneg 2 k ltac:(lia) Hk). lia.
  - intros Hr. exists k. split; [done|]. lia.
Qed.

Lemma overrun_or n c : grown n c → overrun n ∨ ¬ overrun n.
Proof.
  intros [[-> _]|(k & Hk & -> & Hn & H1 & Hlow)].
  - right. intros (k & Hk & Hn). pose proof (Z.pow_pos_nonneg 2 k ltac:(lia) Hk). lia.
  - rewrite (overrun_cap n k) by done. lia.
Qed.

(** What is added when the type was not found. *)
Definition added (m id : text) (u : update) : list text :=
  if found u then lns u
  else if has_section u then take (Z.to_nat (insert_at u)) (lns u) ++ entry m id :: drop (Z.to_nat (insert_at u)) (lns u)
  else lns u ++ (if 0 <? nlines u then [[LF]] else []) ++ [DEFAULTS ++ [LF]; entry m id].

Lemma push_more l u : nlines u < cap u →
  ∃ u', push_line l u = Some u' ∧ lns u' = lns u ++ [l] ∧ nlines u' = nlines u + 1 ∧ cap u' = cap u.
Proof. intros Hn. rewrite push_some by done. eexists. split; [done|]. split; [done|]. by rewrite nlines_push. Qed.

Lemma push_none l u : cap u ≤ nlines u → push_line l u = None.
Proof. intros Hn. unfold push_line. by rewrite (proj2 (Z.ltb_ge _ _)). Qed.

Lemma add_app_some m id u :
  flags u → grown (nlines u) (cap u) → (has_section u = true → found u = false → 0 ≤ insert_at u) →
  has_section u = true ∨ ¬ overrun (nlines u) → ∃ u', add_app m id u = Some u' ∧ lns u' = added m id u.
Proof.
  intros Hf Hg Hp Hor. unfold add_app, added. destruct (found u) eqn:Ef; [by exists u|].
  destruct (has_section u) eqn:Eh; cbn [negb].
  - rewrite (proj2 (Z.leb_le _ _)) by auto. set (u1 := if cap u <=? nlines u + 1 then _ else u).
    assert (E1 : lns u1 = lns u ∧ insert_at u1 = insert_at u ∧ nlines u1 < cap u1).
    { unfold u1. assert (Hle : 0 ≤ nlines u) by (unfold nlines; lia).
      assert (Hc : nlines u ≤ cap u) by (destruct Hg as [[-> ->]|(k & _ & -> & ? & _)]; lia).
      destruct (Z.leb_spec (cap u) (nlines u + 1)); [|split_and!; done || lia].
      split_and!; [done|done|]. unfold nlines in *. cbn. lia. }
    clearbody u1. destruct E1 as (El & Ea & Hlt). rewrite (proj2 (Z.ltb_lt _ _)) by done.
    eexists. split; [done|]. cbn. by rewrite El, Ea.
  - set (u1 := if cap u <=? nlines u then _ else u).
    assert (E1 : lns u1 = lns u ∧ nlines u1 = nlines u ∧ nlines u + 1 < cap u1 ∧ (0 < nlines u → nlines u + 2 < cap u1)).
    { unfold u1. destruct (Z.leb_spec (cap u) (nlines u)) as [Hle|Hlt].
      - change (cap (u <| cap := cap u + 4 |>)) with (cap u + 4). split; [done|]. split; [done|].
        destruct Hg as [[-> ->]|(k & Hk & Ec & Hn & _)]; lia.
      - split; [done|]. split; [done|]. destruct Hor as [|Hor]; [done|].
        destruct Hg as [[E0 Ec]|(k & Hk & Ec & Hn & H1 & Hlow)]; [lia|].
        rewrite Ec in *. rewrite (overrun_cap _ k) in Hor by done. lia. }
    clearbody u1. destruct E1 as (El & En & H1 & H2). rewrite En.
    assert (Hpre : ∃ u2, (if 0 <? nlines u then push_line [LF] u1 else Some u1) = Some u2 ∧
      lns u2 = lns u ++ (if 0 <? nlines u then [[LF]] else []) ∧ nlines u2 + 1 < cap u2).
    { destruct (Z.ltb_spec 0 (nlines u)); [|exists u1; rewrite app_nil_r; split_and!; done || lia].
      destruct (push_more [LF] u1) as (u2 & -> & E2 & En2 & Ec2); [lia|]. exists u2. rewrite E2, El.
      split_and!; try done. lia. }
    destruct Hpre as (u2 & -> & E2 & Hc2). cbn [mbind option_bind].
    destruct (push_more (DEFAULTS ++ [LF]) u2) as (u3 & -> & E3 & En3 & Ec3); [lia|]. cbn [mbind option_bind].
    destruct (push_more (entry m id) u3) as (u4 & -> & E4 & _); [lia|]. exists u4. split; [done|].
    by rewrite E4, E3, E2, <- !app_assoc.
Qed.

Lemma add_app_none m id u :
  flags u → grown (nlines u) (cap u) → has_section u = false → overrun (nlines u) → add_app m id u = None.
Proof.
  intros Hf Hg Eh Hov. unfold add_app. destruct (found u) eqn:Ef; [by rewrite (fl_found _ Hf Ef) in Eh|].
  rewrite Eh. cbn [negb]. destruct Hg as [[E0 _]|(k & Hk & Ec & Hn & H1 & Hlow)].
  { destruct Hov as (k & Hk & Hn). pose proof (Z.pow_pos_nonneg 2 k ltac:(lia) Hk). lia. }
  rewrite Ec in *. apply (overrun_cap _ k) in Hov; [|done..]. rewrite (proj2 (Z.leb_gt _ _)) by lia. rewrite (proj2 (Z.ltb_lt _ _)) by lia.
  destruct (push_more [LF] u) as (u2 & -> & E2 & En2 & Ec2); [lia|]. cbn [mbind option_bind].
  destruct (Z.ltb_spec (nlines u2) (cap u2)).
  - destruct (push_more (DEFAULTS ++ [LF]) u2) as (u3 & -> & E3 & En3 & Ec3); [lia|]. cbn [mbind option_bind].
    apply push_none. lia.
  - by rewrite push_none by lia.
Qed.

(** *** What is written *)

(** The loop after the lines [ts], none of which had the type. *)
Record reading (ts : list text) (u : update) : Prop := mkReading {
  rd_lines : lns u = map nl ts;
  rd_found : found u = false;
  rd_in : in_defaults u = in_defs false ts;
  rd_section : has_section u = true ∨ has_section u = false ∧ unopened (first_is "[") (has_prefix DEFAULTS) ts;
  rd_at : insert_at u = -1 ∨ ∃ a b, ts = a ++ b ∧ insert_at u = Z.of_nat (length a) ∧ in_defs false a = true
}.

Lemma nlines_reading ts u : reading ts u → nlines u = Z.of_nat (length ts).
Proof. intros Hr. unfold nlines. by rewrite (rd_lines _ _ Hr), length_map. Qed.

Lemma opens_nl t : first_is "[" (nl t) = first_is "[" t ∧ has_prefix DEFAULTS (nl t) = has_prefix DEFAULTS t.
Proof. split; [by apply first_nl|]. apply prefix_nl. by apply (bool_decide_unpack _). Qed.

Lemma for_mime_nl m t : for_mime m (nl t) = for_mime m t.
Proof. apply for_mime_app. by apply (bool_decide_unpack _). Qed.

Lemma at_longer (P : list text → Prop) (z : Z) ts t :
  (z = -1 ∨ ∃ a b, ts = a ++ b ∧ z = Z.of_nat (length a) ∧ P a) →
  z = -1 ∨ ∃ a b, ts ++ [t] = a ++ b ∧ z = Z.of_nat (length a) ∧ P a.
Proof.
  intros [?|(a & b & -> & Hz & Ha)]; [by left|right]. exists a, (b ++ [t]). by rewrite app_assoc.
Qed.

Lemma reading_line m id ts u t c :
  reading ts u → in_defs false ts && for_mime m t = false →
  reading (ts ++ [t]) ((note_line m id u (nl t)).1 <| cap := c |> <| lns := lns u ++ [(note_line m id u (nl t)).2] |>).
Proof.
  intros Hr Hm. pose proof (nlines_reading _ _ Hr) as Hn. destruct Hr as [Hl Hf Hi Hs Ha]. unfold note_line.
  destruct (opens_nl t) as [E1 E2]. rewrite E1, E2, for_mime_nl, Hf, Hi. cbn [negb]. rewrite andb_true_r, Hm.
  destruct (first_is "[" t) eqn:Et; cbn [fst snd].
  - assert (Hin : in_defs false (ts ++ [t]) = has_prefix DEFAULTS t) by (rewrite in_section_app; cbn [in_section]; by rewrite Et).
    set (u1 := if in_defs false ts then u <| insert_at := nlines u |> else u).
    assert (E : lns u1 = lns u ∧ found u1 = found u ∧ has_section u1 = has_section u ∧
      (insert_at u1 = -1 ∨ ∃ a b, ts = a ++ b ∧ insert_at u1 = Z.of_nat (length a) ∧ in_defs false a = true)).
    { unfold u1. destruct (in_defs false ts) eqn:Ed; [|by split_and!]. split_and!; [done..|]. right. exists ts, [].
      rewrite app_nil_r. by split_and!. }
    clearbody u1. destruct E as (El & Ef & Es & Eat). split; cbn.
    + by rewrite Hl, map_app.
    + by rewrite Ef.
    + by rewrite Hin.
    + rewrite Es. destruct (has_prefix DEFAULTS t) eqn:Ep; [left; apply orb_true_r|]. rewrite orb_false_r.
      destruct Hs as [?|[? Hu]]; [by left|right]. split; [done|]. apply Forall_app. split; [done|]. constructor; [|done].
      by rewrite Ep, andb_false_r.
    + by apply at_longer.
  - split; cbn.
    + by rewrite Hl, map_app.
    + done.
    + rewrite in_section_app. cbn [in_section]. by rewrite Et.
    + destruct Hs as [?|[? Hu]]; [by left|right]. split; [done|]. apply Forall_app. split; [done|]. constructor; [|done].
      by rewrite Et.
    + by apply at_longer.
Qed.

(** After the type is found the lines are copied. *)
Lemma copied m id u ts : found u = true → flags u → grown (nlines u) (cap u) → Forall short ts →
  ∃ u', update_lines m id u (map nl ts) = Some u' ∧ lns u' = lns u ++ map nl ts ∧ found u' = true.
Proof.
  intros Hf Hfl Hg Hs. revert u Hf Hfl Hg. induction Hs as [|t ts (_ & Hz & _) _ IH]; intros u Hf Hfl Hg; cbn [map update_lines].
  - rewrite Hf, andb_false_r. exists u. by rewrite app_nil_r.
  - rewrite cstr_nl by done. destruct (update_line_total m id u (nl t) Hfl Hg) as (u1 & -> & Hf1 & Hg1 & _ & _ & c & E1).
    cbn [mbind option_bind].
    assert (Hn : found (note_line m id u (nl t)).1 = true ∧ (note_line m id u (nl t)).2 = nl t).
    { unfold note_line. rewrite Hf, andb_false_r. cbn [negb andb]. by destruct (first_is "[" (nl t)). }
    destruct Hn as [Hn1 Hn2]. rewrite Hn2 in E1. destruct (IH u1) as (u' & E & El & Ef'); [by rewrite E1|done|done|].
    exists u'. split; [done|]. split; [|done]. rewrite El, E1. cbn. by rewrite <- app_assoc.
Qed.

Lemma update_lines_reads m id ts1 ts2 u :
  reading ts1 u → flags u → grown (nlines u) (cap u) → Forall short ts2 → good_mime m →
  ∃ u', update_lines m id u (map nl ts2) = Some u' ∧
  match find_mime m (in_defs false ts1) ts2 with
  | Some _ => ∃ a l b, ts2 = a ++ l :: b ∧ find_mime m (in_defs false ts1) a = None ∧
      in_defs false (ts1 ++ a) = true ∧ first_is "[" l = false ∧ for_mime m l = true ∧
      lns u' = map nl (ts1 ++ a) ++ entry m id :: map nl b ∧ found u' = true
  | None => reading (ts1 ++ ts2) u'
  end.
Proof.
  intros Hr Hf Hg Hs Hm. revert ts1 u Hr Hf Hg. induction Hs as [|t ts2 (_ & Hz & _) Hs IH]; intros ts1 u Hr Hf Hg;
    cbn [map update_lines find_line].
  - eexists. split; [done|]. rewrite app_nil_r. rewrite (rd_found _ _ Hr), (rd_in _ _ Hr), andb_true_r.
    destruct (in_defs false ts1) eqn:Ed; [|done]. pose proof (nlines_reading _ _ Hr) as Hn. destruct Hr as [Hl Hfd Hi Hsec Ha].
    split; cbn; try done. right. exists ts1, []. by rewrite app_nil_r.
  - rewrite cstr_nl by done. destruct (update_line_total m id u (nl t) Hf Hg) as (u1 & -> & Hf1 & Hg1 & _ & _ & c & E1).
    cbn [mbind option_bind]. destruct (in_defs false ts1 && for_mime m t) eqn:Ek.
    + apply andb_true_iff in Ek as [Ed Ek]. destruct (for_mime_head m t Hm Ek) as (Et & _). rewrite Et.
      assert (En : note_line m id u (nl t) = (u <| found := true |>, entry m id)).
      { unfold note_line. by rewrite for_mime_nl, (rd_in _ _ Hr), (rd_found _ _ Hr), Ed, Ek. }
      rewrite En in E1. cbn [fst snd] in E1.
      destruct (copied m id u1 ts2) as (u' & E & El & Ef'); [by rewrite E1|done..|].
      exists u'. split; [done|]. exists [], t, ts2. rewrite app_nil_r. split_and!; try done.
      rewrite El, E1. cbn. by rewrite (rd_lines _ _ Hr), <- app_assoc.
    + destruct (IH (ts1 ++ [t]) u1) as (u' & E & Hu'); [rewrite E1; by apply reading_line|done|done|].
      exists u'. split; [done|]. rewrite in_section_app in Hu'. cbn [in_section] in Hu'.
      set (st := if first_is "[" t then has_prefix DEFAULTS t else in_defs false ts1) in *.
      assert (Ef : (if first_is "[" t then find_mime m (has_prefix DEFAULTS t) ts2 else find_mime m (in_defs false ts1) ts2) =
        find_mime m st ts2) by (unfold st; by destruct (first_is "[" t)). rewrite Ef.
      destruct (find_mime m st ts2) as [v|].
      * destruct Hu' as (a & l & b & -> & Ea & Ein & El & Ekl & Els & Eff). exists (t :: a), l, b.
        rewrite (cons_middle t ts1 a), app_assoc. split_and!; try done. cbn [find_line]. rewrite Ek. unfold st in Ea.
        by destruct (first_is "[" t).
      * by rewrite (cons_middle t ts1 ts2), app_assoc.
Qed.

(** Where the entry of a type goes. *)
Abbreviation spot_for m := (spot (first_is "[") (has_prefix DEFAULTS) (for_mime m) DEFAULTS).

Lemma join_nl ls : concat (map nl ls) = join_lines ls.
Proof. done. Qed.

Lemma opens_lines ts : Forall short ts → existsb opens (map cstr (map nl ts)) = existsb opens ts.
Proof.
  induction 1 as [|t ts (_ & Hz & _) _ IH]; [done|]. cbn [map existsb]. rewrite IH, cstr_nl by done. f_equal.
  unfold opens. by destruct (opens_nl t) as [-> ->].
Qed.

Lemma default_written m id ts :
  Forall short ts → good_mime m → good_app m id →
  existsb opens ts = true ∨ ¬ overrun (Z.of_nat (length ts)) →
  ∃ u u' a b, update_lines m id no_lines (map nl ts) = Some u ∧ add_app m id u = Some u' ∧
    concat (lns u') = join_lines (a ++ app_entry m id :: b) ∧ spot_for m ts a b.
Proof.
  intros Hs Hm Hid Hor.
  assert (Hf : flags no_lines) by (split; cbn; unfold nlines; cbn; lia || done).
  assert (Hg : grown (nlines no_lines) (cap no_lines)) by by left.
  assert (Hr : reading [] no_lines) by (split; [done|done|done|right; split; [done|constructor]|by left]).
  destruct (update_lines_total m id no_lines (map nl ts) Hf Hg) as (u & E & Hfu & Hgu & En & Eh & Hp).
  destruct (update_lines_reads m id [] ts no_lines Hr Hf Hg Hs Hm) as (u1 & E1 & Hu). rewrite E in E1. injection E1 as <-.
  rewrite length_map in En. rewrite opens_lines in Eh by done. cbn [has_section no_lines orb] in Eh. cbn [app] in Hu.
  assert (En' : nlines u = Z.of_nat (length ts)) by (rewrite En; unfold nlines; cbn; lia).
  destruct (add_app_some m id u Hfu Hgu Hp) as (u' & E' & Ea); [by rewrite Eh, En'|].
  exists u, u'. change (in_defs false []) with false in Hu. pose proof (entry_nl m id Hid) as Ee.
  destruct (find_mime m false ts) as [v|] eqn:Ev.
  - destruct Hu as (a & l & b & -> & Hna & Hin & Hl & Hkl & Els & Ef). exists a, b. split_and!; [done|done| |by eapply Replaced].
    rewrite Ea. unfold added. by rewrite Ef, Els, Ee, <- join_nl, map_app.
  - destruct Hu as [Hl Hfd Hi Hsec Hat]. unfold added in Ea. rewrite Hfd, Hl, En' in Ea.
    destruct (has_section u) eqn:Ehu.
    + specialize (Hp eq_refl Hfd). destruct Hat as [Hat|(a & b & -> & Hat & Hin)]; [lia|]. exists a, b.
      split_and!; [done|done| |by eapply Inserted].
      rewrite Ea, Hat, Nat2Z.id, map_app.
      rewrite take_app_length', drop_app_length' by by rewrite length_map.
      by rewrite Ee, <- join_nl, map_app.
    + destruct Hsec as [|[_ Hun]]; [done|]. set (pre := if 0 <? Z.of_nat (length ts) then [[]] else [] : list text).
      exists (ts ++ pre ++ [DEFAULTS]), []. split_and!; [done|done| |].
      * rewrite Ea, Ee, <- join_nl. f_equal. rewrite !map_app, <- !app_assoc. f_equal.
        unfold pre. by destruct (0 <? Z.of_nat (length ts)).
      * apply Appended; [done|]. unfold pre. destruct (0 <? _); auto.
Qed.
