(* ===== verification/MimeClaims.v ===== *)
(** * MIME types and their applications: the theorems

    The type of a file name is that of the best glob; the default application that
    is set is the one that is found, and no other association changes; the lists for
    which setting it writes past its array. *)

From S2P Require Import Prelude.
From S2P Require Import CString.
From S2P Require Import CFloat.
From S2P Require Import TwoState.
From S2P Require Import LineIpc.
From S2P Require Import DesktopClaims.
From S2P Require Import ConfigFile.
From S2P Require Import Sections.
From S2P Require Import ConfigClaims.
From S2P Require Import MimeFile.
From S2P Require Import MimeProof.
From stdpp Require Import gmap.
Open Scope Z_scope.
#[local] Arguments DEFAULTS : simpl never.

(** ** The type of a file *)

(** The best glob for an extension: of the highest weight, the first of those. *)
Definition best_glob (e : text) (table : list GlobEntry) (g : GlobEntry) : Prop :=
  ∃ p q, table = p ++ g :: q ∧ same_ci (ext g) e = true ∧ 0 ≤ weight g ∧
    Forall (fun g' => same_ci (ext g') e = true → weight g' < weight g) p ∧
    Forall (fun g' => same_ci (ext g') e = true → weight g' ≤ weight g) q.

Definition file_type (table : list GlobEntry) (filename : option text) (t : text) : Prop :=
  match filename ≫= extension with
  | None | Some [] => t = OCTET_STREAM
  | Some e => (∃ g, best_glob e table g ∧ t = mime g) ∨
      t = OCTET_STREAM ∧ Forall (fun g => same_ci (ext g) e = true → weight g < 0) table
  end.

Lemma best_found e table :
  match foldl (better e) (None, -1) table with
  | (Some t, w) => ∃ g, best_glob e table g ∧ t = mime g ∧ w = weight g
  | (None, w) => w = -1 ∧ Forall (fun g => same_ci (ext g) e = true → weight g < 0) table
  end.
Proof.
  induction table as [|g table IH] using rev_ind; [done|]. rewrite foldl_snoc. unfold better at 1.
  destruct (foldl (better e) (None, -1) table) as [b w]. cbn [snd].
  assert (Hkeep : ∀ g0, best_glob e table g0 → (same_ci (ext g) e = true → weight g ≤ weight g0) → best_glob e (table ++ [g]) g0).
  { intros g0 (p & q & -> & He & Hw & Hp & Hq) Hg. exists p, (q ++ [g]). rewrite <- app_assoc. split_and!; try done.
    apply Forall_app. by split; [|constructor]. }
  destruct (same_ci (ext g) e) eqn:Eg.
  - destruct (Z.ltb_spec w (weight g)) as [Hlt|Hge].
    + exists g. split; [|done]. exists table, []. destruct b as [t|].
      * destruct IH as (g0 & (p & q & -> & He & Hw & Hp & Hq) & -> & ->). split_and!; try done; [lia|].
        apply Forall_app. split; [eapply Forall_impl; [done|]; intros ? Hx ?; specialize (Hx ltac:(done)); lia|].
        constructor; [lia|]. eapply Forall_impl; [done|]. intros ? Hx ?. specialize (Hx ltac:(done)). lia.
      * destruct IH as [-> Hf]. split_and!; try done; [lia|]. eapply Forall_impl; [done|].
        intros ? Hx ?. specialize (Hx ltac:(done)). lia.
    + destruct b as [t|].
      * destruct IH as (g0 & Hg0 & -> & ->). exists g0. split; [by apply Hkeep|done].
      * destruct IH as [-> Hf]. split; [done|]. apply Forall_app. split; [done|]. constructor; [lia|done].
  - destruct b as [t|].
    + destruct IH as (g0 & Hg0 & -> & ->). exists g0. split; [by apply Hkeep|done].
    + destruct IH as [-> Hf]. split; [done|]. apply Forall_app. split; [done|]. by constructor; [congruence|].
Qed.

(** The table that a call uses: read from the disk the first time. *)
Definition globs_at `{Volume} (m : Mime) : list GlobEntry :=
  if glob_loaded m then glob_table m
  else match (if readable (disk m) GLOBS2 then files (disk m) !! GLOBS2 else None) with
       | Some file => omap (fun l => glob_line (cstr l)) (fgets_sized 511 511 [] file)
       | None => glob_table m
       end.

(** The type of a file name is that of the glob of the highest weight for what follows
    its last dot, upper and lower case alike, the first one of these, and the type of
    plain bytes when there is none; the globs are read once. *)
Theorem type_of_best_glob `{Volume} (m : Mime) (filename : option text) :
  wp no_fault (isde_mime_type_for_file filename)
    (fun t m' => file_type (globs_at m) filename t ∧ disk m' = disk m ∧
       glob_loaded m' = true ∧ glob_table m' = globs_at m ∧ globs_at m' = globs_at m) m.
Proof.
  unfold isde_mime_type_for_file. apply wp_bind.
  assert (Hl : wp no_fault load_globs (fun _ m' => disk m' = disk m ∧ glob_loaded m' = true ∧ glob_table m' = globs_at m) m).
  { unfold load_globs, globs_at. apply wp_bind, wp_gets. destruct (glob_loaded m) eqn:El; [by apply wp_ret|].
    apply wp_bind, wp_modify, wp_bind, wp_gets. change (disk (m <| glob_loaded := true |>)) with (disk m).
    destruct (if readable (disk m) GLOBS2 then _ else _) as [f|]; [by apply wp_modify|by apply wp_ret]. }
  eapply wp_mono; [exact Hl|]. cbn beta. intros _ m' (Hd & El & Et).
  assert (Hm' : globs_at m' = globs_at m) by (unfold globs_at at 1; by rewrite El).
  unfold file_type. destruct (filename ≫= extension) as [[|c e]|]; [by apply wp_ret| |by apply wp_ret].
  apply wp_bind, wp_gets, wp_ret. split; [|done]. rewrite Et. pose proof (best_found (c :: e) (globs_at m)) as Hb.
  destruct (foldl _ _ _) as [[t|] w]; cbn; [left; naive_solver|right; naive_solver].
Qed.

(** ** The default application *)

Section Apps.
Context `{Volume, Environment}.

(** What a list says about a type, and the first list that says something. *)
Definition says (d : Disk) (m path : text) : option text :=
  match (if readable d path then files d !! path else None) with
  | Some file => search_lines m false (fgets_lines 1023 [] file)
  | None => None
  end.
Fixpoint first_says (d : Disk) (m : text) (paths : list text) : option text :=
  match paths with
  | [] => None
  | p :: ps => match says d m p with Some app => Some app | None => first_says d m ps end
  end.

Lemma search_files_says d m paths : search_files paths m d = Ok (first_says d m paths) d.
Proof.
  induction paths as [|p ps IH]; [done|]. cbn [search_files first_says].
  unfold search_mimeapps, read_whole, mbind, prog_bind, gets, mret, prog_ret. cbv beta iota. fold (says d m p).
  destruct (says d m p); [done|exact IH].
Qed.

(** The permissions do not depend on what the files hold. *)
Definition steady : Prop := ∀ d d' p, readable d p = readable d' p.

(** A list of whole lines, or none. *)
Record list_file (d : Disk) (path : text) (ts : list text) : Prop := mkListFile {
  lf_short : Forall short ts;
  lf_clean : Forall clean ts;
  lf_file : files d !! path = Some (join_lines ts) ∨ files d !! path = None ∧ ts = []
}.

Definition raw_lines (d : Disk) (path : text) : list text :=
  match files d !! path with Some file => fgets_lines 1023 [] file | None => [] end.

Lemma raw_list d path ts : list_file d path ts → raw_lines d path = map nl ts.
Proof.
  intros [Hs _ Hf]. unfold raw_lines. destruct Hf as [->|[-> ->]]; [|done]. rewrite fgets_join; [done|].
  eapply Forall_impl; [done|]. by intros l (? & ? & ?).
Qed.

Lemma says_list d m path ts :
  readable d path = true → list_file d path ts → good_mime m →
  says d m path = find_mime m false ts ≫= fun t => app_value (rstrip_line t).
Proof.
  intros Hr Hl Hm. pose proof (raw_list _ _ _ Hl) as Hraw. destruct Hl as [Hs Hc Hf]. unfold says, raw_lines in *. rewrite Hr.
  destruct Hf as [Ef|[Ef ->]]; rewrite Ef in *; [|done]. by rewrite Hraw, search_found.
Qed.

(** What is left after the entry was written. *)
Lemma set_default_written home m id d ts :
  HOME = Some home → accessible (user_list home) → list_file d (user_list home) ts → good_mime m → good_app m id →
  existsb opens ts = true ∨ ¬ overrun (Z.of_nat (length ts)) →
  ∃ a b, spot_for m ts a b ∧
    isde_mime_set_default (Some m) (Some id) d =
    Ok 0 (d <| files := <[user_list home := join_lines (a ++ app_entry m id :: b)]> (files d) |>).
Proof.
  intros Eh Hacc Hl Hm Hid Hor. destruct (Hacc d) as [Hr Hw].
  destruct (default_written m id ts (lf_short _ _ _ Hl) Hm Hid Hor) as (u & u' & a & b & E & E' & Ec & Hs).
  exists a, b. split; [done|]. pose proof (raw_list _ _ _ Hl) as Hraw. unfold raw_lines in Hraw.
  unfold isde_mime_set_default, read_whole, write_whole, mbind, prog_bind, gets, mret, prog_ret. rewrite Eh.
  cbv beta iota zeta. rewrite Hr, Hraw. cbn [mbind option_bind] in *.
  rewrite E. cbn [option_bind]. rewrite E'. cbv beta. rewrite Hw. unfold when, modify. cbv beta iota. by rewrite Ec.
Qed.

Lemma has_prefix_length p s : has_prefix p s = true → (length p ≤ length s)%nat.
Proof. intros E%has_prefix_split. rewrite E, length_app. lia. Qed.

Lemma entry_clean m id : good_mime m → clean (app_entry m id).
Proof.
  intros Hm Hp. exfalso. pose proof (app_entry_section m id Hm) as Hs. apply has_prefix_split in Hp. by rewrite Hp in Hs.
Qed.

Lemma entry_short m id : good_mime m → good_app m id → short (app_entry m id).
Proof.
  intros [_ (_ & Hl & Hz) _] [_ (_ & Hl' & Hz') _ _ Hf]. unfold app_entry in *.
  split; [|split; [|lia]]; rewrite !not_elem_of_app; (split_and!; [done| |done]); by apply (bool_decide_unpack _).
Qed.

(** A list that is written is a list again, and says of every other type what it said. *)
Lemma written_list home m id d ts a b :
  list_file d (user_list home) ts → good_mime m → good_app m id → spot_for m ts a b →
  list_file (d <| files := <[user_list home := join_lines (a ++ app_entry m id :: b)]> (files d) |>)
    (user_list home) (a ++ app_entry m id :: b).
Proof.
  intros [Hs Hc Hf] Hm Hid Hsp.
  assert (Hd : short DEFAULTS) by (split_and!; [by apply (bool_decide_unpack _)..|vm_compute; lia]).
  destruct (spot_forall _ _ short _ _ _ _ _ Hsp Hd short_nil Hs) as [Hsa Hsb].
  destruct (spot_forall _ _ clean _ _ _ _ _ Hsp) as [Hca Hcb]; [by intros _; vm_compute|done|done|].
  split.
  - apply Forall_app. split; [done|]. constructor; [by apply entry_short|done].
  - apply Forall_app. split; [done|]. constructor; [by apply entry_clean|done].
  - left. apply lookup_insert_eq.
Qed.

(** C35: The application that is set for a type is the default that is looked up from then
    on, whatever the other lists say, and no other type gets another default: for a list
    of whole lines with clean headers that has the section or room for it. *)
Theorem default_app_set home m id d ts :
  HOME = Some home → accessible (user_list home) → list_file d (user_list home) ts → good_mime m → good_app m id →
  existsb opens ts = true ∨ ¬ overrun (Z.of_nat (length ts)) → steady →
  ∃ d' ts', isde_mime_set_default (Some m) (Some id) d = Ok 0 d' ∧ only_file (user_list home) d d' ∧
    list_file d' (user_list home) ts' ∧ existsb opens ts' = true ∧
    isde_mime_default_app (Some m) d' = Ok (Some id) d' ∧
    ∀ m', good_mime m' → m' ≠ m →
      ∃ r, isde_mime_default_app (Some m') d = Ok r d ∧ isde_mime_default_app (Some m') d' = Ok r d'.
Proof.
  intros Eh Hacc Hl Hm Hid Hor Hst. destruct (set_default_written home m id d ts) as (a & b & Hs & E); [done..|].
  pose proof (written_list home m id d ts a b Hl Hm Hid Hs) as Hl'.
  set (d' := d <| files := _ |>) in *. set (ts' := a ++ app_entry m id :: b) in *. exists d', ts'.
  destruct (spot_before _ _ _ _ _ _ _ Hs) as [Ha Hin];
    [done|by vm_compute|done|by apply for_mime_nil|].
  assert (Hf : find_mime m false ts' = Some (app_entry m id)).
  { unfold ts'. rewrite find_line_app, Ha, Hin. cbn [find_line]. by rewrite app_entry_section, app_entry_for. }
  assert (Honly : only_file (user_list home) d d') by apply only_write.
  split_and!; try done.
  - unfold ts'. rewrite existsb_app. apply orb_true_iff. left. destruct (existsb opens a) eqn:Eo; [done|].
    rewrite (unopened_in (first_is "[") (has_prefix DEFAULTS)) in Hin; [done| |done].
    apply Forall_forall. intros l Hl0. destruct (first_is "[" l && has_prefix DEFAULTS l) eqn:Ex; [|done].
    rewrite <- Eo. symmetry. apply existsb_exists. exists l. split; [by apply list_elem_of_In|done].
  - cbn [isde_mime_default_app]. rewrite search_files_says. f_equal. unfold mimeapps_files. rewrite Eh.
    cbn [app first_says]. rewrite (says_list _ _ _ ts'), Hf by (done || apply Hacc).
    cbn [mbind option_bind]. by rewrite app_entry_value.
  - intros m' Hm' Hne. cbn [isde_mime_default_app]. eexists. rewrite !search_files_says. split; [done|]. f_equal.
    induction mimeapps_files as [|p ps IH]; [done|]. cbn [first_says]. rewrite <- IH.
    assert (Ep : says d' m' p = says d m' p); [|by rewrite Ep].
    destruct (decide (p = user_list home)) as [->|Hp]; [|unfold says; by rewrite (Hst d' d), Honly].
    rewrite (says_list d' m' _ ts') by (done || apply Hacc). rewrite (says_list d m' _ ts) by (done || apply Hacc). f_equal.
    eapply (spot_keeps _ _ _ _ (for_mime m')); [exact Hs|..]; try done; [by apply app_entry_section|by apply app_entry_for|].
    left. unfold for_mime. intros x [_ H2%bool_decide_eq_true_1]%andb_true_iff. apply andb_false_iff. right.
    apply bool_decide_eq_false_2. congruence.
Qed.
(** C36: Setting a default writes past the array of lines exactly when the list has no
    section of default applications and one or two lines less than a capacity of the
    array: 62, 63, 126, 127, 254 and so on; otherwise it ends without a fault. *)
Theorem long_list_overruns home m id d :
  HOME = Some home → readable d (user_list home) = true →
  isde_mime_set_default (Some m) (Some id) d = Fault OutOfBounds ↔
    existsb opens (map cstr (raw_lines d (user_list home))) = false ∧
    overrun (Z.of_nat (length (raw_lines d (user_list home)))).
Proof.
  intros Eh Hr. unfold isde_mime_set_default, read_whole, write_whole, mbind, prog_bind, gets, mret, prog_ret. rewrite Eh.
  cbv beta iota zeta. rewrite Hr. fold (raw_lines d (user_list home)). set (raw := raw_lines d (user_list home)).
  assert (Hf : flags no_lines) by (split; cbn; unfold nlines; cbn; lia || done).
  destruct (update_lines_total m id no_lines raw Hf) as (u & -> & Hfu & Hgu & En & Eo & Hp); [by left|].
  cbn [mbind option_bind]. cbn [has_section no_lines orb] in Eo. rewrite <- Eo.
  assert (En' : Z.of_nat (length raw) = nlines u) by (rewrite En; unfold nlines; cbn; lia). rewrite En'.
  split.
  - intros E. destruct (decide (has_section u = false)) as [Hs|Hs].
    + split; [done|]. destruct (overrun_or _ _ Hgu) as [|Hov]; [done|]. destruct (add_app_some m id u Hfu Hgu Hp (or_intror Hov)) as (u' & E' & _).
      rewrite E' in E. cbv beta in E. by destruct (writable d _) in E.
    + apply not_false_is_true in Hs. destruct (add_app_some m id u Hfu Hgu Hp (or_introl Hs)) as (u' & E' & _).
      rewrite E' in E. cbv beta in E. by destruct (writable d _) in E.
  - intros [Hs Hov]. by rewrite (add_app_none m id u).
Qed.
End Apps.

(** ** Examples *)

Instance sample_env : Environment := {| HOME := Some (str "/home/u"); XDG_CONFIG_HOME := None; access_ok := fun _ _ => true |}.
Definition sample_list : text := str "/home/u/.config/mimeapps.list".
Definition sample_apps : list text :=
  map str ["# mine"; "[Added Associations]"; "text/plain=a.desktop;b.desktop"; "[Default Applications]"; "text/plain=a.desktop";
           "image/png=v.desktop;"].
Definition list_disk : Disk := mkDisk {[ sample_list := join_lines sample_apps ]} [].

Lemma sample_user : user_list (str "/home/u") = sample_list.
Proof. by vm_compute. Qed.

Instance clean_dec t : Decision (clean t) := ltac:(unfold clean; apply _).
Lemma sample_list_file : list_file list_disk (user_list (str "/home/u")) sample_apps.
Proof.
  split; [apply (bool_decide_unpack _); by vm_compute|apply (bool_decide_unpack _); by vm_compute|].
  left. rewrite sample_user. apply lookup_insert_eq.
Qed.

Definition mime_ok (m : text) : bool :=
  bool_decide (m ≠ []) && bool_decide ("="%char ∉ m ∧ LF ∉ m ∧ NUL ∉ m) &&
  bool_decide (first_is "[" m = false ∧ first_is "#" m = false).
Lemma mime_ok_sound m : mime_ok m = true → good_mime m.
Proof. unfold mime_ok. rewrite !andb_true_iff, !bool_decide_eq_true. by intros [[? ?] ?]. Qed.
Definition app_ok (m id : text) : bool :=
  bool_decide (id ≠ []) && bool_decide (";"%char ∉ id ∧ LF ∉ id ∧ NUL ∉ id) && bool_decide (skip_blank id = id) &&
  bool_decide (rstrip_line id = id) && Nat.ltb (length (app_entry m id)) 1022.
Lemma app_ok_sound m id : app_ok m id = true → good_app m id.
Proof. unfold app_ok. rewrite !andb_true_iff, !bool_decide_eq_true, Nat.ltb_lt. by intros [[[[? ?] ?] ?] ?]. Qed.

Lemma default_app_set_witness :
  ∃ d' ts', isde_mime_set_default (Some (str "image/png")) (Some (str "gimp.desktop")) list_disk = Ok 0 d' ∧
    only_file (user_list (str "/home/u")) list_disk d' ∧
    list_file d' (user_list (str "/home/u")) ts' ∧ existsb opens ts' = true ∧
    isde_mime_default_app (Some (str "image/png")) d' = Ok (Some (str "gimp.desktop")) d' ∧
    ∀ m', good_mime m' → m' ≠ str "image/png" →
      ∃ r, isde_mime_default_app (Some m') list_disk = Ok r list_disk ∧ isde_mime_default_app (Some m') d' = Ok r d'.
Proof.
  apply (default_app_set (str "/home/u") (str "image/png") (str "gimp.desktop") list_disk sample_apps);
    [done|exact (open_accessible _)|exact sample_list_file|by apply mime_ok_sound; vm_compute|
     by apply app_ok_sound; vm_compute|left; by vm_compute|done].
Defined.

(** The list after this, and after a type that was not there. *)
Example default_replaced :
  files (run_disk (isde_mime_set_default (Some (str "image/png")) (Some (str "gimp.desktop"))) list_disk) !! sample_list =
  Some (join_lines (take 5 sample_apps ++ [str "image/png=gimp.desktop"])).
Proof. by vm_compute. Qed.
Example section_added :
  files (run_disk (isde_mime_set_default (Some (str "image/png")) (Some (str "gimp.desktop"))) (mkDisk ∅ [])) !! sample_list =
  Some (join_lines [DEFAULTS; str "image/png=gimp.desktop"]).
Proof. by vm_compute. Qed.

(** A list of 62 lines that only associates: one store lands behind the array. *)
Definition long_list : Disk := mkDisk {[ sample_list := join_lines (repeat (str "a/b=c.desktop") 62) ]} [].

Lemma long_list_overruns_witness :
  isde_mime_set_default (Some (str "image/png")) (Some (str "gimp.desktop")) long_list = Fault OutOfBounds ↔
    existsb opens (map cstr (raw_lines long_list (user_list (str "/home/u")))) = false ∧
    overrun (Z.of_nat (length (raw_lines long_list (user_list (str "/home/u"))))).
Proof.
  apply (long_list_overruns (str "/home/u") (str "image/png") (str "gimp.desktop") long_list); by vm_compute.
Defined.

Example overrun_at_62 :
  isde_mime_set_default (Some (str "image/png")) (Some (str "gimp.desktop")) long_list = Fault OutOfBounds.
Proof. by vm_compute. Qed.

(** A last line without its newline runs into the entry that is put after it: both types
    lose their application. *)
Example last_line_joined :
  let d := mkDisk {[ sample_list := DEFAULTS ++ [LF] ++ str "text/plain=a.desktop" ]} [] in
  let d' := run_disk (isde_mime_set_default (Some (str "image/png")) (Some (str "gimp.desktop"))) d in
  files d' !! sample_list = Some (join_lines [DEFAULTS; str "text/plain=a.desktopimage/png=gimp.desktop"]) ∧
  says d' (str "text/plain") sample_list = Some (str "a.desktopimage/png=gimp.desktop") ∧
  says d' (str "image/png") sample_list = None.
Proof. by vm_compute. Qed.

(** The writer takes a header for the section that the reader does not. *)
Example header_only_starts :
  let d := mkDisk {[ sample_list := join_lines [DEFAULTS ++ str " # mine"] ]} [] in
  says (run_disk (isde_mime_set_default (Some (str "image/png")) (Some (str "gimp.desktop"))) d) (str "image/png") sample_list = None.
Proof. by vm_compute. Qed.

Example best_of_three :
  let globs := map str ["# globs"; "50:image/x-foo:*.PNG"; "60:image/png:*.png"; "60:image/apng:*.png"; "80:text/x-a:a*.png"] in
  let m := mkMime (mkDisk {[ GLOBS2 := join_lines globs ]} []) [] false in
  match isde_mime_type_for_file (Some (str "shot.of.Screen.pNg")) m with Ok t _ => t = str "image/png" | Fault _ => False end.
Proof. by vm_compute. Qed.
