(* ===== verification/ConfigRead.v ===== *)
(** * Reading configuration (platform/common/isde-config.c)

    The parser (tomlc99) is third-party code: its tables and look-ups are the class
    [Toml].  Programs hold tables through handles, which are cells of a static pool of 64:
    the sixty-fourth table that is looked up after a handle was made takes its cell. *)

From S2P Require Import Prelude.
From S2P Require Import CString.
From S2P Require Import CFloat.
Open Scope Z_scope.

(** [toml_table_in] and its like: a value of the right type, or nothing. *)
Class Toml := {
  toml_table : Type;
  toml_array : Type;
  toml_table_in : toml_table → text → option toml_table;
  toml_array_in : toml_table → text → option toml_array;
  toml_string_in : toml_table → text → option text;
  toml_int_in : toml_table → text → option Z;
  toml_bool_in : toml_table → text → option Z;
  toml_double_in : toml_table → text → option double;
  toml_array_nelem : toml_array → nat;
  toml_table_at : toml_array → Z → option toml_table;
  toml_string_at : toml_array → nat → option text;
  toml_table_nkval : toml_table → Z;
  toml_table_narr : toml_table → Z;
  toml_table_ntab : toml_table → Z;
  toml_key_in : toml_table → Z → option text }.

Definition TABLE_POOL_SIZE : Z := 64.
(** [IsdeConfigTable *]: the index of a cell, or [NULL]. *)
Definition handle := option nat.

Section Read.
Context `{Toml}.

(** The statics of the file: the tables the handles point to, the number of handles made,
    and the double-click time. *)
Record Conf := mkConf { table_pool : list (option toml_table); table_pool_next : Z; dclick_cached : Z }.
#[export] Instance conf_eta : RecEta Conf := Build_RecEta _ (fun c => mkConf (table_pool c) (table_pool_next c) (dclick_cached c)).
Definition conf_start : Conf := mkConf (replicate (Z.to_nat TABLE_POOL_SIZE) None) 0 (-1).

Definition wrap_table (t : option toml_table) : prog Conf handle :=
  match t with
  | None => mret None
  | Some t =>
    c ← gets id;
    let i := Z.rem (table_pool_next c) TABLE_POOL_SIZE in
    modify (fun c => c <| table_pool_next := s32 (table_pool_next c + 1) |>);;
    if (0 <=? i) && (i <? Z.of_nat (length (table_pool c)))
    then modify (fun c => c <| table_pool := <[Z.to_nat i := Some t]> (table_pool c) |>);; mret (Some (Z.to_nat i))
    else raise OutOfBounds
  end.

(** [tbl && tbl->tbl] *)
Definition table_of (tbl : handle) : prog Conf (option toml_table) :=
  match tbl with
  | None => mret None
  | Some i =>
    c ← gets id;
    match table_pool c !! i with Some t => mret t | None => raise OutOfBounds end
  end.

Definition isde_config_root (cfg : option toml_table) : prog Conf handle := wrap_table cfg.
Definition isde_config_table (parent : handle) (key : text) : prog Conf handle :=
  t ← table_of parent;
  match t with None => mret None | Some t => wrap_table (toml_table_in t key) end.

Definition isde_config_string (tbl : handle) (key : text) (def : option text) : prog Conf (option text) :=
  t ← table_of tbl;
  mret (match t with None => def | Some t => match toml_string_in t key with Some s => Some s | None => def end end).
Definition isde_config_int (tbl : handle) (key : text) (def : Z) : prog Conf Z :=
  t ← table_of tbl; mret (match t with None => def | Some t => default def (toml_int_in t key) end).
Definition isde_config_bool (tbl : handle) (key : text) (def : Z) : prog Conf Z :=
  t ← table_of tbl; mret (match t with None => def | Some t => default def (toml_bool_in t key) end).
Definition isde_config_double (tbl : handle) (key : text) (def : double) : prog Conf double :=
  t ← table_of tbl; mret (match t with None => def | Some t => default def (toml_double_in t key) end).

Definition isde_config_array_count (tbl : handle) (key : text) : prog Conf nat :=
  t ← table_of tbl;
  mret (match t with None => 0%nat | Some t => match toml_array_in t key with Some a => toml_array_nelem a | None => 0%nat end end).
Definition isde_config_array_table (tbl : handle) (key : text) (index : Z) : prog Conf handle :=
  t ← table_of tbl;
  match t with
  | None => mret None
  | Some t => match toml_array_in t key with None => mret None | Some a => wrap_table (toml_table_at a index) end
  end.
Definition isde_config_table_count (tbl : handle) : prog Conf Z :=
  t ← table_of tbl; mret (match t with None => 0 | Some t => toml_table_ntab t end).
Definition isde_config_table_key (tbl : handle) (index : Z) : prog Conf (option text) :=
  t ← table_of tbl;
  mret (match t with None => None | Some t => toml_key_in t (toml_table_nkval t + toml_table_narr t + index) end).
Definition isde_config_string_array (tbl : handle) (key : text) : prog Conf (list text) :=
  t ← table_of tbl;
  mret (match t with
        | None => []
        | Some t =>
          match toml_array_in t key with
          | None => []
          | Some a => omap (toml_string_at a) (seq 0 (toml_array_nelem a))
          end
        end).

(** [cfg]: what [isde_config_load_xdg] gives for isde.toml. *)
Definition isde_config_double_click_ms (cfg : option toml_table) : prog Conf Z :=
  c ← gets id;
  if 0 <=? dclick_cached c then mret (dclick_cached c) else
  modify (fun c => c <| dclick_cached := 400 |>);;
  match cfg with
  | None => skip
  | Some _ =>
    root ← isde_config_root cfg;
    input ← isde_config_table root (str "input");
    match input with
    | None => skip
    | Some _ => ms ← isde_config_int input (str "double_click_ms") 400; modify (fun c => c <| dclick_cached := s32 ms |>)
    end
  end;;
  gets dclick_cached.
Definition isde_config_invalidate_cache : prog Conf unit := modify (fun c => c <| dclick_cached := -1 |>).
End Read.

(** ** How long a handle is good *)

Section Handles.
Context `{Toml}.

(** There is room for [k] more handles. *)
Definition conf_ok (k : Z) (c : Conf) : Prop :=
  length (table_pool c) = 64%nat ∧ 0 ≤ table_pool_next c ∧ table_pool_next c + k < 2 ^ 31.
(** The handle names the table, and will through [k] more look-ups. *)
Definition lives (c : Conf) (h : handle) (t : toml_table) (k : Z) : Prop :=
  ∃ j, h = Some (Z.to_nat (j mod 64)) ∧ 0 ≤ j < table_pool_next c ∧ table_pool_next c + k ≤ j + 64 ∧
    table_pool c !! Z.to_nat (j mod 64) = Some (Some t).
Definition aged (c c' : Conf) : Prop := ∀ h t k, 0 ≤ k → lives c h t (k + 1) → lives c' h t k.

Lemma lives_weaken c h t k k' : k' ≤ k → lives c h t k → lives c h t k'.
Proof. intros Hk (j & E & Hj & Hn & Hp). exists j. split_and!; try done; lia. Qed.
Lemma aged_refl c : aged c c.
Proof. intros h t k Hk. apply lives_weaken. lia. Qed.
Lemma conf_ok_weaken k k' c : k' ≤ k → conf_ok k c → conf_ok k' c.
Proof. intros Hk (? & ? & ?). split_and!; try done; lia. Qed.

Lemma mod_distinct a b : 0 ≤ a < b → b < a + 64 → a mod 64 ≠ b mod 64.
Proof.
  intros Ha Hb E. pose proof (Z.div_mod a 64). pose proof (Z.div_mod b 64). nia.
Qed.

Lemma wrap_run t c k :
  0 ≤ k → conf_ok (k + 1) c →
  wrap_table (Some t) c = Ok (Some (Z.to_nat (table_pool_next c mod 64)))
    (c <| table_pool_next := table_pool_next c + 1 |> <| table_pool := <[Z.to_nat (table_pool_next c mod 64) := Some t]> (table_pool c) |>).
Proof.
  intros Hk (Hl & H0 & Hn). unfold wrap_table, mbind, prog_bind, gets, modify. cbn [id]. rewrite Z.rem_mod_nonneg by done.
  change TABLE_POOL_SIZE with 64. pose proof (Z.mod_pos_bound (table_pool_next c) 64). cbn [table_pool].
  rewrite (proj2 (Z.leb_le 0 _)) by lia. change (length (table_pool _)) with (length (table_pool c)). rewrite (proj2 (Z.ltb_lt _ _)) by lia. cbn [andb].
  rewrite s32_id by lia. done.
Qed.

Lemma wp_wrap t c k :
  0 ≤ k → conf_ok (k + 1) c →
  wp no_fault (wrap_table (Some t)) (fun h c' => lives c' h t 63 ∧ conf_ok k c' ∧ aged c c') c.
Proof.
  intros Hk Hc. unfold wp. rewrite (wrap_run _ _ _ Hk Hc). destruct Hc as (Hl & H0 & Hn). set (n := table_pool_next c) in *.
  pose proof (Z.mod_pos_bound n 64). split_and!.
  - exists n. cbn. split_and!; try done; try lia. apply list_lookup_insert_eq. lia.
  - split_and!; cbn; [by rewrite length_insert|lia|lia].
  - intros h t' k' Hk' (j & -> & Hj & Hn' & Hp). exists j. cbn. fold n in Hj, Hn'. split_and!; try done; try lia.
    rewrite list_lookup_insert_ne; [done|]. pose proof (mod_distinct j n). pose proof (Z.mod_pos_bound j 64). lia.
Qed.

Lemma wp_table_of c h t k : 0 ≤ k → lives c h t k → wp no_fault (table_of h) (fun r c' => r = Some t ∧ c' = c) c.
Proof.
  intros Hk (j & -> & Hj & Hn & Hp). unfold table_of. apply wp_bind, wp_gets. cbn [id]. rewrite Hp. by apply wp_ret.
Qed.

Lemma wp_handle_get c h t k {A} (f : toml_table → A) d :
  0 ≤ k → lives c h t k →
  wp no_fault (r ← table_of h; mret (match r with None => d | Some t => f t end)) (fun v c' => v = f t ∧ c' = c) c.
Proof. intros Hk Hh. apply wp_bind. eapply wp_mono; [by apply (wp_table_of _ _ t k)|]. cbn beta. intros r c' [-> ->]. by apply wp_ret. Qed.

Lemma wp_table c h t k0 key k :
  0 ≤ k0 → 0 ≤ k → lives c h t k0 → conf_ok (k + 1) c →
  wp no_fault (isde_config_table h key)
    (fun h' c' => match toml_table_in t key with Some t' => lives c' h' t' 63 | None => h' = None end ∧ conf_ok k c' ∧ aged c c') c.
Proof.
  intros Hk0 Hk Hh Hc. apply wp_bind. eapply wp_mono; [by apply (wp_table_of _ _ t k0)|]. cbn beta. intros r c' [-> ->].
  destruct (toml_table_in t key) as [t'|].
  - eapply wp_mono; [by apply wp_wrap|]. cbn beta. done.
  - apply wp_ret. split_and!; [done|eapply conf_ok_weaken; [|done]; lia|apply aged_refl].
Qed.

(** Tables that are looked up one after the other. *)
Fixpoint wrap_all (ts : list toml_table) : prog Conf unit :=
  match ts with [] => skip | t :: ts' => wrap_table (Some t);; wrap_all ts' end.

Lemma wrap_all_snoc ts t c : wrap_all (ts ++ [t]) c = (wrap_all ts;; wrap_table (Some t);; skip) c.
Proof.
  revert c. induction ts as [|t' ts IH]; intros c; cbn [wrap_all app]; [done|]. unfold mbind, prog_bind in *.
  destruct (wrap_table (Some t') c) as [h c'|]; [apply IH|done].
Qed.

(** A handle names its table through the next 63 look-ups and no longer: after [n] of
    them it names the table found by the last one whose number is a multiple of 64. *)
Theorem handle_names t ts c h c1 c2 :
  conf_ok (1 + Z.of_nat (length ts)) c → wrap_table (Some t) c = Ok h c1 → wrap_all ts c1 = Ok tt c2 →
  table_of h c2 = Ok ((t :: ts) !! (64 * (length ts / 64)))%nat c2.
Proof.
  intros Hc Hw Hall. assert (Hr := wrap_run t c 0 ltac:(lia) ltac:(eapply conf_ok_weaken; [|exact Hc]; lia)). rewrite Hr in Hw. injection Hw as <- Hc1.
  set (j := table_pool_next c) in *. set (cell := Z.to_nat (j mod 64)) in *.
  assert (Hinv : table_pool c2 !! cell = Some ((t :: ts) !! (64 * (length ts / 64)))%nat ∧
    length (table_pool c2) = 64%nat ∧ table_pool_next c2 = j + 1 + Z.of_nat (length ts)).
  2: { unfold table_of, mbind, prog_bind, gets. cbn [id]. by rewrite (proj1 Hinv). }
  revert c2 Hall Hc. induction ts as [|t' ts IH] using rev_ind; intros c2 Hall Hc.
  - injection Hall as <-. subst c1. destruct Hc as (Hl & H0 & Hn). fold j in H0. pose proof (Z.mod_pos_bound j 64).
    cbn. rewrite length_insert. split_and!; [apply list_lookup_insert_eq; unfold cell; lia|done|unfold j; lia].
  - rewrite wrap_all_snoc in Hall. unfold mbind, prog_bind in Hall. destruct (wrap_all ts c1) as [[] c3|] eqn:E3; [|done].
    rewrite length_app in *. cbn [length] in *.
    destruct (IH c3 eq_refl) as (Hcell & Hlen & Hnext); [eapply conf_ok_weaken; [|exact Hc]; lia|].
    destruct Hc as (Hl & H0 & Hn). fold j in H0, Hn.
    rewrite (wrap_run t' c3 0) in Hall by (try lia; split_and!; try done; rewrite Hnext; lia). injection Hall as <-. cbn -[Nat.div Nat.mul lookup]. rewrite length_insert, Hnext.
    split_and!; [|done|lia]. set (n := length ts) in *. pose proof (Z.mod_pos_bound (j + 1 + Z.of_nat n) 64). pose proof (Z.mod_pos_bound j 64).
    pose proof (Nat.div_mod_eq (n + 1) 64) as D1. pose proof (Nat.mod_upper_bound (n + 1) 64 ltac:(lia)) as B1.
    pose proof (Nat.div_mod_eq n 64) as D0. pose proof (Nat.mod_upper_bound n 64 ltac:(lia)) as B0.
    destruct (decide ((n + 1) mod 64 = 0)%nat) as [E|E].
    + replace (Z.to_nat ((j + 1 + Z.of_nat n) mod 64)) with cell.
      2: { unfold cell. f_equal. replace (j + 1 + Z.of_nat n) with (j + Z.of_nat ((n + 1) / 64) * 64) by lia. by rewrite Z_mod_plus_full. }
      rewrite list_lookup_insert_eq by (unfold cell; lia). replace (64 * ((n + 1) / 64))%nat with (n + 1)%nat by lia.
      change (t :: ts ++ [t']) with ((t :: ts) ++ [t']). rewrite (lookup_app_r (t :: ts)) by (unfold n; cbn [length]; lia).
      replace (n + 1 - length (t :: ts))%nat with 0%nat by (unfold n; cbn [length]; lia). done.
    + assert (Hne : Z.to_nat ((j + 1 + Z.of_nat n) mod 64) ≠ cell).
      { unfold cell. intros F. apply Z2Nat.inj in F; [|lia..]. pose proof (Z.div_mod (j + 1 + Z.of_nat n) 64). pose proof (Z.div_mod j 64).
        apply E. apply Nat2Z.inj. rewrite Nat2Z.inj_mod. change (Z.of_nat 64) with 64. change (Z.of_nat 0) with 0.
        replace (Z.of_nat (n + 1)) with (((j + 1 + Z.of_nat n) / 64 - j / 64) * 64) by lia. apply Z_mod_mult. }
      rewrite list_lookup_insert_ne, Hcell by done. assert (Hdiv : ((n + 1) / 64 = n / 64)%nat) by lia. rewrite Hdiv. f_equal.
      change (t :: ts ++ [t']) with ((t :: ts) ++ [t']). rewrite (lookup_app_l (t :: ts)); [done|]. cbn [length]. fold n. lia.
Qed.
End Handles.

(** ** Tables as lists *)

Inductive value := VInt (z : Z) | VBool (z : Z) | VTable (l : list (text * value)).
Definition table := list (text * value).
Definition value_in (t : table) (key : text) : option value := snd <$> List.find (fun p => bool_decide (fst p = key)) t.
Definition tables : Toml := {|
  toml_table := table;
  toml_array := list table;
  toml_table_in t key := match value_in t key with Some (VTable t') => Some t' | _ => None end;
  toml_array_in t key := None;
  toml_string_in t key := None;
  toml_int_in t key := match value_in t key with Some (VInt z) => Some z | _ => None end;
  toml_bool_in t key := match value_in t key with Some (VBool z) => Some z | _ => None end;
  toml_double_in t key := None;
  toml_array_nelem a := length a;
  toml_table_at a i := if i <? 0 then None else a !! Z.to_nat i;
  toml_string_at a i := None;
  toml_table_nkval t := Z.of_nat (length (List.filter (fun p => match snd p with VTable _ => false | _ => true end) t));
  toml_table_narr t := 0;
  toml_table_ntab t := Z.of_nat (length (List.filter (fun p => match snd p with VTable _ => true | _ => false end) t));
  toml_key_in t i := if i <? 0 then None else fst <$> t !! Z.to_nat i |}.

(** The sixty-fourth look-up takes the cell of a handle that is still in use. *)
Definition numbered (i : nat) : table := [(str "n", VInt (Z.of_nat i))].
Definition conf_after (n : nat) : Conf (H := tables) :=
  match (wrap_table (H := tables) (Some (numbered 0));; wrap_all (H := tables) (map numbered (seq 1 n))) conf_start with Ok _ c => c | Fault _ => conf_start end.
Lemma handle_names_witness :
  table_of (H := tables) (Some 0%nat) (conf_after 63) = Ok (Some (numbered 0)) (conf_after 63) ∧
  table_of (H := tables) (Some 0%nat) (conf_after 64) = Ok (Some (numbered 64)) (conf_after 64).
Proof.
  split.
  - refine (handle_names (H := tables) (numbered 0) (map numbered (seq 1 63)) conf_start (Some 0%nat) (conf_after 0) (conf_after 63) _ _ _);
      [by split_and!|vm_compute; reflexivity..].
  - refine (handle_names (H := tables) (numbered 0) (map numbered (seq 1 64)) conf_start (Some 0%nat) (conf_after 0) (conf_after 64) _ _ _);
      [by split_and!|vm_compute; reflexivity..].
Defined.
