(* ===== verification/Display.v ===== *)
(** * The display daemon (displayd/src/main.c, platform/X11/common/randr.c)

    Outputs are switched on and off over RandR: what is connected is observed, a plan is
    made from the profile of the configuration that fits the monitors, and the plan is
    applied.  Any server may answer ([RandR]). *)

From S2P Require Import Prelude.
From S2P Require Import CString.
From S2P Require Import CFloat.
From S2P Require Import ConfigRead.
Open Scope Z_scope.

(** ** The X server *)

Definition NONE : Z := 0.
Definition CONNECTED : Z := 0.
Definition SUCCESS : Z := 0.
Definition MODE_FLAG_INTERLACE : Z := 16.
Definition MODE_FLAG_DOUBLE_SCAN : Z := 32.

Record ModeInfo := mkModeInfo { m_id : Z; m_width : Z; m_height : Z; dot_clock : Z; htotal : Z; vtotal : Z; mode_flags : Z }.
Record Resources := mkResources { config_timestamp : Z; res_outputs : list Z; res_crtcs : list Z; res_modes : list ModeInfo }.
Record OutputInfo := mkOutputInfo {
  connection : Z; o_crtc : Z; o_modes : list Z; num_preferred : Z; o_crtcs : list Z; o_name : text }.
Record CrtcInfo := mkCrtcInfo { c_x : Z; c_y : Z; c_width : Z; c_height : Z; c_mode : Z; c_outputs : list Z }.

(** Events that were waiting: for X the type of each. *)
Inductive xcall :=
  | GetScreenResources (current : bool) | GetOutputInfo (o ts : Z) | GetCrtcInfo (c ts : Z)
  | SetCrtcConfig (c ts x y mode : Z) (outs : list Z) | InternAtom (name : text) | GetOutputProperty (o atom : Z)
  | GetGeometry | SetScreenSize (w h mm_w mm_h : Z) | SetOutputPrimary (o : Z) | GetOutputPrimary
  | DpmsOn | ResetSaver | USleep (us : Z) | LoadConfig | Poll (timeout : Z) | DBusDispatch | UdevEvents | XEvents | XError.

(** A reply may be missing, which is how errors show.  [Poll] tells of the signals that
    came by then, SIGHUP and SIGTERM. *)
Definition xresult `{Toml} (c : xcall) : Type :=
  match c with
  | GetScreenResources _ => option Resources
  | GetOutputInfo _ _ => option OutputInfo
  | GetCrtcInfo _ _ => option CrtcInfo
  | SetCrtcConfig _ _ _ _ _ _ => option Z
  | InternAtom _ => option Z
  | GetOutputProperty _ _ => option (list Z)
  | GetGeometry => option (Z * Z)
  | GetOutputPrimary => option Z
  | LoadConfig => option toml_table
  | Poll _ => bool * bool
  | DBusDispatch => list text
  | UdevEvents => nat
  | XEvents => list Z
  | XError => bool
  | SetScreenSize _ _ _ _ | SetOutputPrimary _ | DpmsOn | ResetSaver | USleep _ => unit
  end.

Class RandR (S : Type) `{Toml} := x_ : ∀ c : xcall, S → xresult c * S.

(** [xcb_screen_t] *)
Record Screen := mkScreen { width_in_pixels : Z; height_in_pixels : Z; width_in_millimeters : Z; height_in_millimeters : Z }.

Inductive plan_action_t := PLAN_SKIP | PLAN_KEEP | PLAN_APPLY.
#[export] Instance plan_action_eq_dec : EqDecision plan_action_t.
Proof. solve_decision. Defined.
Record output_state_t := mkOutputState {
  st_id : Z; st_name : text; st_connected : bool; bound_crtc : Z; crtc_active : bool; active_mode : Z;
  active_x : Z; active_y : Z; active_w : Z; active_h : Z; st_oi : option OutputInfo }.
#[export] Instance output_state_eta : RecEta output_state_t := Build_RecEta _ (fun s =>
  mkOutputState (st_id s) (st_name s) (st_connected s) (bound_crtc s) (crtc_active s) (active_mode s)
    (active_x s) (active_y s) (active_w s) (active_h s) (st_oi s)).
Record desired_state_t := mkDesired {
  action : plan_action_t; d_mode : Z; d_x : Z; d_y : Z; d_w : Z; d_h : Z; refresh : double; is_primary : Z }.
#[export] Instance desired_eta : RecEta desired_state_t := Build_RecEta _ (fun d =>
  mkDesired (action d) (d_mode d) (d_x d) (d_y d) (d_w d) (d_h d) (refresh d) (is_primary d)).

(** [isde_randr_refresh] *)
Definition isde_randr_refresh (mi : ModeInfo) : double :=
  if (htotal mi =? 0) || (vtotal mi =? 0) then dzero else
  let vt := d_of_Z (vtotal mi) in
  let vt := if truthy (Z.land (mode_flags mi) MODE_FLAG_DOUBLE_SCAN) then dmul vt (d_of_Z 2) else vt in
  let vt := if truthy (Z.land (mode_flags mi) MODE_FLAG_INTERLACE) then ddiv vt (d_of_Z 2) else vt in
  ddiv (d_of_Z (dot_clock mi)) (dmul (d_of_Z (htotal mi)) vt).

(** [strcmp]: bytes compare unsigned, a NUL ends a string. *)
Fixpoint strcmp (a b : text) : Z :=
  match a, b with
  | [], [] => 0
  | [], d :: _ => - Z.of_nat (nat_of_ascii d)
  | c :: _, [] => Z.of_nat (nat_of_ascii c)
  | c :: a', d :: b' =>
    if bool_decide (c = d) then (if bool_decide (c = "000"%char) then 0 else strcmp a' b') else Z.of_nat (nat_of_ascii c) - Z.of_nat (nat_of_ascii d)
  end.
Definition hash_cmp : text → text → Z := strcmp.

Fixpoint join_commas (ls : list text) : text :=
  match ls with [] => [] | [l] => l | l :: ls' => l ++ ","%char :: join_commas ls' end.

(** [sprintf("%02x")] *)
Definition hex_char (d : Z) : ascii := ascii_of_N (Z.to_N (if d <? 10 then 48 + d else 87 + d)).
Definition hex_byte (b : Z) : text := [hex_char (b / 16); hex_char (b mod 16)].

(** The daemon: the server, the static pool of configuration tables, its flags, and the
    calls it made, latest first. *)
Record World `{Toml} {S : Type} := mkWorld {
  server : S; confs : Conf; reload_flag : bool; quit_flag : bool; dbus_reload_flag : bool; no_outputs : bool; calls : list xcall }.
Arguments World {_} S.
#[export] Instance world_eta `{Toml} {S} : RecEta (World S) := Build_RecEta _ (fun w =>
  mkWorld _ _ (server w) (confs w) (reload_flag w) (quit_flag w) (dbus_reload_flag w) (no_outputs w) (calls w)).

Section Daemon.
Context `{Toml} {S : Type} `{!RandR S} `{!Qsort}.

Abbreviation dprog := (prog (World S)) (only parsing).
Definition call (c : xcall) : dprog (xresult c) := fun w =>
  let '(r, s) := x_ c (server w) in Ok r (w <| server := s |> <| calls := c :: calls w |>).
Definition on_conf {A} (m : prog Conf A) : dprog A := fun w =>
  match m (confs w) with Ok a c => Ok a (w <| confs := c |>) | Fault f => Fault f end.

(** [m] for every element, with what it gives, from left to right. *)
Fixpoint collect {A B} (m : A → dprog B) (l : list A) : dprog (list B) :=
  match l with [] => mret [] | a :: l' => b ← m a; bs ← collect m l'; mret (b :: bs) end.
Definition somes {A} (l : list (option A)) : list A := omap id l.

(** ** Queries *)

Definition is_connected (oi : OutputInfo) : bool := connection oi =? CONNECTED.

(** The first CRTC that drives nothing. *)
Fixpoint find_free (ts : Z) (crtcs : list Z) : dprog Z :=
  match crtcs with
  | [] => mret NONE
  | c :: cs =>
    ci ← call (GetCrtcInfo c ts);
    match ci : option CrtcInfo with
    | Some ci => if (Nat.eqb (length (c_outputs ci)) 0) && (c_mode ci =? NONE) then mret c else find_free ts cs
    | None => find_free ts cs
    end
  end.
Definition isde_randr_find_free_crtc (oi : OutputInfo) (ts : Z) : dprog Z := find_free ts (o_crtcs oi).

Definition isde_randr_read_edid_hash (o : Z) : dprog (option text) :=
  atom ← call (InternAtom (str "EDID"));
  match atom : option Z with
  | None => mret None
  | Some a =>
    if a =? NONE then mret None else
    prop ← call (GetOutputProperty o a);
    match prop : option (list Z) with
    | Some data => if (length data <? 16)%nat then mret None else mret (Some (concat (map hex_byte (take 16 data))))
    | None => mret None
    end
  end.

(** ** The key of a profile *)

(** The hash of an output that is connected and tells its EDID. *)
Definition output_hash (ts o : Z) : dprog (option text) :=
  oi ← call (GetOutputInfo o ts);
  match oi : option OutputInfo with
  | Some oi => if is_connected oi then isde_randr_read_edid_hash o else mret None
  | None => mret None
  end.

Definition key_of (hashes : list text) : option text :=
  match hashes with [] => None | _ => Some (join_commas (qsort hash_cmp hashes)) end.

Definition build_profile_key : dprog (option text) :=
  res ← call (GetScreenResources true);
  match res : option Resources with
  | None => mret None
  | Some res => hashes ← collect (output_hash (config_timestamp res)) (res_outputs res); mret (key_of (somes hashes))
  end.

(** ** Switching off *)

Definition switch_off (c ts : Z) : dprog unit := call (SetCrtcConfig c ts 0 0 NONE []);; skip.

Definition disable_output (ts o : Z) : dprog unit :=
  oi ← call (GetOutputInfo o ts);
  match oi : option OutputInfo with
  | Some oi => if is_connected oi || (o_crtc oi =? NONE) then skip else switch_off (o_crtc oi) ts
  | None => skip
  end.

Definition disable_disconnected : dprog unit :=
  res ← call (GetScreenResources true);
  match res : option Resources with
  | None => skip
  | Some res => collect (disable_output (config_timestamp res)) (res_outputs res);; skip
  end.

(** ** Observe *)

Definition blank_output (o : Z) : output_state_t := mkOutputState o [] false NONE false NONE 0 0 0 0 None.

Definition output_get_state (ts o : Z) : dprog output_state_t :=
  oi ← call (GetOutputInfo o ts);
  match oi : option OutputInfo with
  | None => mret (blank_output o)
  | Some oi =>
    let st := mkOutputState o (cstr (take 63 (o_name oi))) (is_connected oi) (o_crtc oi) false NONE 0 0 0 0 (Some oi) in
    if o_crtc oi =? NONE then mret st else
    ci ← call (GetCrtcInfo (o_crtc oi) ts);
    match ci : option CrtcInfo with
    | None => mret st
    | Some ci =>
      mret (st <| crtc_active := negb (c_mode ci =? NONE) |> <| active_mode := c_mode ci |>
               <| active_x := c_x ci |> <| active_y := c_y ci |> <| active_w := c_width ci |> <| active_h := c_height ci |>)
    end
  end.

(** ** Plan *)

(** The size of the output's first mode, when it is a preferred one. *)
Definition preferred_size (oi : OutputInfo) (modes : list ModeInfo) : option (Z * Z) :=
  match o_modes oi with
  | m :: _ => if 0 <? num_preferred oi then (fun mi => (m_width mi, m_height mi)) <$> List.find (fun mi => m_id mi =? m) modes else None
  | [] => None
  end.

(** The best mode of the size so far, and its refresh rate. *)
Definition better (w h m : Z) (best : double * Z) (mi : ModeInfo) : double * Z :=
  if negb (m_id mi =? m) then best else
  if (m_width mi =? w) && (m_height mi =? h) then
    let r := isde_randr_refresh mi in if dlt (fst best) r then (r, m_id mi) else best
  else best.
Definition best_mode (w h : Z) (out_modes : list Z) (modes : list ModeInfo) : double * Z :=
  fold_left (fun best m => fold_left (better w h m) modes best) out_modes (dzero, NONE).

Definition no_plan : desired_state_t := mkDesired PLAN_SKIP NONE 0 0 0 0 dzero 0.

(** What the configuration says of a monitor. *)
Record wish := mkWish { w_enabled : bool; w_w : Z; w_h : Z; w_x : Z; w_y : Z; w_primary : Z }.
Definition no_wish : wish := mkWish true 0 0 0 0 0.

Definition read_wish (name : text) (outs_tbl : handle) : prog Conf wish :=
  mon ← isde_config_table outs_tbl name;
  match mon with
  | None => mret no_wish
  | Some _ =>
    e ← isde_config_bool mon (str "enabled") 1;
    if e =? 0 then mret (mkWish false 0 0 0 0 0) else
    w ← isde_config_int mon (str "width") 0;
    h ← isde_config_int mon (str "height") 0;
    x ← isde_config_int mon (str "x") 0;
    y ← isde_config_int mon (str "y") 0;
    p ← isde_config_bool mon (str "primary") 0;
    mret (mkWish true (s32 w) (s32 h) (s32 x) (s32 y) p)
  end.

Definition usable (w h : Z) : bool := (0 <? w) && (0 <? h).

(** The plan for an output that is connected and not switched off. *)
Definition plan_for (st : output_state_t) (oi : OutputInfo) (modes : list ModeInfo) (k : wish) : desired_state_t :=
  let d := no_plan <| is_primary := w_primary k |> in
  let '(w, h) := if usable (w_w k) (w_h k) then (w_w k, w_h k) else default (w_w k, w_h k) (preferred_size oi modes) in
  if negb (usable w h) then d else
  let '(r, m) := best_mode (u16 w) (u16 h) (o_modes oi) modes in
  let d := d <| d_w := u16 w |> <| d_h := u16 h |> <| d_x := s16 (w_x k) |> <| d_y := s16 (w_y k) |> <| refresh := r |> <| d_mode := m |> in
  if m =? NONE then d else
  if crtc_active st && (active_mode st =? m) && (active_x st =? d_x d) && (active_y st =? d_y d) && (active_w st =? d_w d) && (active_h st =? d_h d)
  then d <| action := PLAN_KEEP |> else d <| action := PLAN_APPLY |>.

Definition plan_output (outs_tbl : handle) (modes : list ModeInfo) (st : output_state_t) : dprog desired_state_t :=
  match st_oi st with
  | Some oi =>
    if negb (st_connected st) then mret no_plan else
    k ← on_conf (read_wish (st_name st) outs_tbl);
    mret (if w_enabled k then plan_for st oi modes k else no_plan)
  | None => mret no_plan
  end.

(** ** Apply *)

Definition refresh_cfg_ts (fallback : Z) : dprog Z :=
  fresh ← call (GetScreenResources true);
  mret (match fresh : option Resources with Some r => config_timestamp r | None => fallback end).

Definition acquire_crtc (st : output_state_t) (oi : OutputInfo) (ts : Z) : dprog Z :=
  if negb (bound_crtc st =? NONE) then mret (bound_crtc st) else isde_randr_find_free_crtc oi ts.

Definition show (c ts : Z) (des : desired_state_t) (o : Z) : dprog bool :=
  r ← call (SetCrtcConfig c ts (d_x des) (d_y des) (d_mode des) [o]);
  mret (match r : option Z with Some status => status =? SUCCESS | None => false end).

(** Did it work, and the timestamp to go on with. *)
Definition apply_desired (st : output_state_t) (oi : OutputInfo) (des : desired_state_t) (ts : Z) : dprog (bool * Z) :=
  crtc ← acquire_crtc st oi ts;
  if crtc =? NONE then mret (false, ts) else
  ts ← refresh_cfg_ts ts;
  ok ← show crtc ts des (st_id st);
  if (ok : bool) then mret (true, ts) else
  ts ← refresh_cfg_ts ts;
  crtc2 ← isde_randr_find_free_crtc oi ts;
  ok ← show (if negb (crtc2 =? NONE) then crtc2 else crtc) ts des (st_id st);
  mret (ok, ts).

(** Right and bottom edge of what a plan leaves on the screen. *)
Definition extent (st : output_state_t) (des : desired_state_t) : option (Z * Z) :=
  match action des with
  | PLAN_APPLY => Some (d_x des + d_w des, d_y des + d_h des)
  | PLAN_KEEP => Some (active_x st + active_w st, active_y st + active_h st)
  | PLAN_SKIP => None
  end.
Definition needed (sw sh : Z) (plans : list (output_state_t * desired_state_t)) : Z * Z :=
  fold_left (fun '(w, h) e => (Z.max w (fst e), Z.max h (snd e))) (omap (fun '(st, des) => extent st des) plans) (sw, sh).

Definition in_mm (pixels mm screen : Z) : Z := if 0 <? screen then Z.quot (s32 (pixels * mm)) screen else pixels.

Definition is_apply (p : output_state_t * desired_state_t) : bool := bool_decide (action (snd p) = PLAN_APPLY).

(** The screen is made large enough for what is planned. *)
Definition grow_screen (scr : Screen) (plans : list (output_state_t * desired_state_t)) : dprog unit :=
  when (existsb is_apply plans) (
    g ← call GetGeometry;
    let '(sw, sh) := default (width_in_pixels scr, height_in_pixels scr) (g : option (Z * Z)) in
    let '(w, h) := needed sw sh plans in
    when ((sw <? w) || (sh <? h))
      (call (SetScreenSize (u16 w) (u16 h) (u32 (in_mm w (width_in_millimeters scr) (width_in_pixels scr)))
               (u32 (in_mm h (height_in_millimeters scr) (height_in_pixels scr))));; skip)).

Definition first_of (first o : Z) : Z := if first =? NONE then o else first.

(** The first output that is on, and the last one that is and is to be primary. *)
Fixpoint apply_plans (plans : list (output_state_t * desired_state_t)) (ts first primary : Z) : dprog (Z * Z) :=
  match plans with
  | [] => mret (first, primary)
  | (st, des) :: ps =>
    let lit := (first_of first (st_id st), if truthy (is_primary des) then st_id st else primary) in
    match action des, st_oi st with
    | PLAN_KEEP, _ => apply_plans ps ts (fst lit) (snd lit)
    | PLAN_APPLY, Some oi =>
      r ← apply_desired st oi des ts;
      let '(ok, ts) := r in
      if (ok : bool) then apply_plans ps ts (fst lit) (snd lit) else apply_plans ps ts first primary
    | PLAN_APPLY, None => raise OutOfBounds
    | PLAN_SKIP, _ => apply_plans ps ts first primary
    end
  end.

Definition observe_and_plan (outs_tbl : handle) (res : Resources) : dprog (list (output_state_t * desired_state_t)) :=
  states ← collect (output_get_state (config_timestamp res)) (res_outputs res);
  plans ← collect (plan_output outs_tbl (res_modes res)) states;
  mret (zip states plans).

(** The table of the outputs of a profile. *)
Definition profile_table (disp : handle) (key : text) : prog Conf handle :=
  profiles ← isde_config_table disp (str "profiles");
  match profiles with
  | None => mret None
  | Some _ =>
    profile ← isde_config_table profiles key;
    match profile with None => mret None | Some _ => isde_config_table profile (str "outputs") end
  end.

Definition enable_connected (scr : Screen) : dprog bool :=
  res ← call (GetScreenResources false);
  match res : option Resources with
  | None => mret false
  | Some res =>
    key ← build_profile_key;
    cfg ← call LoadConfig;
    outs_tbl ←
      match cfg : option toml_table, key with
      | Some _, Some key =>
        on_conf (root ← isde_config_root cfg; disp ← isde_config_table root (str "display");
                 match disp with None => mret None | Some _ => profile_table disp key end)
      | _, _ => mret None
      end;
    match res_outputs res with
    | [] => mret false
    | _ =>
      plans ← observe_and_plan outs_tbl res;
      grow_screen scr plans;;
      r ← apply_plans plans (config_timestamp res) NONE NONE;
      let first := fst r in
      when (negb (first =? NONE)) (call (SetOutputPrimary first);; skip);;
      mret (negb (first =? NONE))
    end
  end.

(** An output that is connected but not wanted is switched off. *)
Definition switch_off_unwanted (outs_tbl : handle) (ts o : Z) : dprog bool :=
  oi ← call (GetOutputInfo o ts);
  match oi : option OutputInfo with
  | None => mret false
  | Some oi =>
    if negb (is_connected oi) then mret false else
    mon ← on_conf (isde_config_table outs_tbl (cstr (o_name oi)));
    match mon with
    | None => mret false
    | Some _ =>
      e ← on_conf (isde_config_bool mon (str "enabled") 1);
      if (e =? 0) && negb (o_crtc oi =? NONE) then switch_off (o_crtc oi) ts;; mret true else mret false
    end
  end.

Definition apply_profile (scr : Screen) (outs_tbl : handle) (res : Resources) : dprog bool :=
  match res_outputs res with
  | [] => mret false
  | _ =>
    plans ← observe_and_plan outs_tbl res;
    grow_screen scr plans;;
    r ← apply_plans plans (config_timestamp res) NONE NONE;
    let '(first, primary) := r in
    let new_primary := if negb (primary =? NONE) then primary else first in
    when (negb (new_primary =? NONE)) (call (SetOutputPrimary new_primary);; skip);;
    mret (negb (first =? NONE))
  end.

Definition apply_config (scr : Screen) : dprog bool :=
  cfg ← call LoadConfig;
  match cfg : option toml_table with
  | None => mret false
  | Some _ =>
    key ← build_profile_key;
    root ← on_conf (isde_config_root cfg);
    disp ← on_conf (isde_config_table root (str "display"));
    match disp with
    | None => mret false
    | Some _ =>
      outs_tbl ← match key with Some key => on_conf (profile_table disp key) | None => mret None end;
      match outs_tbl with
      | None => enable_connected scr
      | Some _ =>
        res ← call (GetScreenResources true);
        match res : option Resources with
        | None => mret false
        | Some res =>
          offs ← collect (switch_off_unwanted outs_tbl (config_timestamp res)) (res_outputs res);
          if existsb id offs then
            res2 ← call (GetScreenResources true);
            match res2 : option Resources with
            | None => mret false
            | Some res2 => apply_profile scr outs_tbl res2
            end
          else apply_profile scr outs_tbl res
        end
      end
    end
  end.

(** ** The main loop *)

Definition on_settings_changed (section : text) : dprog unit :=
  when (bool_decide (section = str "display" ∨ section = str "*")) (modify (fun w => w <| dbus_reload_flag := true |>)).
Fixpoint dbus_dispatch (sections : list text) : dprog unit :=
  match sections with [] => skip | s :: ss => on_settings_changed s;; dbus_dispatch ss end.

(** [xcb_poll_for_event] until nothing is left: was there a RandR event? *)
Definition randr_event (base type : Z) : bool := let t := Z.land type 127 in (t =? base) || (t =? base + 1).

Fixpoint any_connected (ts : Z) (outs : list Z) : dprog bool :=
  match outs with
  | [] => mret false
  | o :: os =>
    oi ← call (GetOutputInfo o ts);
    match oi : option OutputInfo with
    | Some oi => if is_connected oi then mret true else any_connected ts os
    | None => any_connected ts os
    end
  end.

Definition configure (scr : Screen) : dprog bool :=
  ok ← apply_config scr; modify (fun w => w <| no_outputs := negb ok |>);; mret ok.
Definition wake_screen : dprog unit := call DpmsOn;; call ResetSaver;; skip.

(** [base]: the first event of the extension; [bus], [udev]: is there a connection? *)
Definition handle_hotplug (udev : bool) (scr : Screen) : dprog unit :=
  disable_disconnected;;
  call (USleep 200000);;
  call XEvents;;
  (if udev then call UdevEvents;; skip else skip);;
  configure scr;;
  wake_screen.

Definition probe (scr : Screen) : dprog unit :=
  res ← call (GetScreenResources false);
  match res : option Resources with
  | None => skip
  | Some res =>
    found ← any_connected (config_timestamp res) (res_outputs res);
    if (found : bool) then ok ← configure scr; when ok wake_screen else skip
  end.

Definition on_sighup : dprog unit := modify (fun w => w <| reload_flag := true |>).
Definition on_sigterm : dprog unit := modify (fun w => w <| quit_flag := true |>).

(** One turn of the loop; does it go on? *)
Definition round (bus udev : bool) (base : Z) (scr : Screen) : dprog bool :=
  no ← gets no_outputs;
  signals ← call (Poll (if (no : bool) then 1000 else -1));
  let '(hup, term) := signals : bool * bool in
  when hup on_sighup;;
  when term on_sigterm;;
  (if bus then sections ← call DBusDispatch; dbus_dispatch sections else skip);;
  rel ← gets reload_flag;
  when rel (modify (fun w => w <| reload_flag := false |>);; apply_config scr;; skip);;
  dbus_rel ← gets dbus_reload_flag;
  when dbus_rel (modify (fun w => w <| dbus_reload_flag := false |>);; apply_config scr;; skip);;
  got_hotplug ← (if udev then n ← call UdevEvents; mret (0 <? n)%nat else mret false);
  types ← call XEvents;
  let got_randr := existsb (randr_event base) types in
  err ← call XError;
  if (err : bool) then mret false else
  when (got_randr || got_hotplug) (handle_hotplug udev scr);;
  no ← gets no_outputs;
  when (no && negb got_randr && negb got_hotplug) (probe scr);;
  quit ← gets quit_flag;
  mret (negb quit).

Fixpoint rounds (n : nat) (bus udev : bool) (base : Z) (scr : Screen) : dprog unit :=
  match n with
  | O => skip
  | Datatypes.S n' => go ← round bus udev base scr; if (go : bool) then rounds n' bus udev base scr else skip
  end.

Definition main (n : nat) (bus udev : bool) (base : Z) (scr : Screen) : dprog unit :=
  apply_config scr;;
  quit ← gets quit_flag;
  if (quit : bool) then skip else rounds n bus udev base scr.
End Daemon.
