(* ===== verification/DisplayProof.v ===== *)
(** * The display daemon on a RandR server

    A server with what the protocol documents of outputs, CRTCs, modes, screen size and
    primary output, as far as the daemon uses it, and what observing, planning, applying
    and [apply_config] as a whole make of one. *)

From stdpp Require Import gmap.
From S2P Require Import Prelude.
From S2P Require Import CString.
From S2P Require Import CFloat.
From S2P Require Import ConfigRead.
From S2P Require Import Display.
Open Scope Z_scope.

(** ** The server

    A request with an old timestamp, for what does not exist, does not fit together or lies
    outside of the screen is refused; a change is announced by an event. *)

Record Output := mkOutput {
  out_name : text; out_connected : bool; out_modes : list Z; out_preferred : Z; out_crtcs : list Z; out_edid : list Z }.
(** What a CRTC shows, where, and on which outputs. *)
Record Use := mkUse { u_mode : Z; u_x : Z; u_y : Z; u_outs : list Z }.
#[export] Instance use_eq_dec : EqDecision Use.
Proof. solve_decision. Defined.

(** [events]: the types of the events that are waiting. *)
Record Server `{Toml} := mkServer {
  outputs : list (Z * Output); crtc_ids : list Z; modes : list ModeInfo; s_ts : Z;
  uses : gmap Z Use; screen : Z * Z; primary : Z; events : list Z; config : option toml_table }.
#[export] Instance server_eta `{Toml} : RecEta Server := Build_RecEta _ (fun s =>
  mkServer _ (outputs s) (crtc_ids s) (modes s) (s_ts s) (uses s) (screen s) (primary s) (events s) (config s)).

Definition EDID : Z := 77.
Definition BASE : Z := 89.

Section Server.
Context `{Toml}.

Definition find_output (o : Z) (s : Server) : option Output := snd <$> List.find (fun p => fst p =? o) (outputs s).
Definition find_mode (m : Z) (s : Server) : option ModeInfo := List.find (fun mi => m_id mi =? m) (modes s).
Definition drives (s : Server) (o c : Z) : bool :=
  match uses s !! c with Some u => existsb (Z.eqb o) (u_outs u) | None => false end.
Definition crtc_of (o : Z) (s : Server) : Z := default NONE (List.find (drives s o) (crtc_ids s)).

Definition output_info (o : Z) (s : Server) (out : Output) : OutputInfo :=
  mkOutputInfo (if out_connected out then CONNECTED else 1) (crtc_of o s) (out_modes out) (out_preferred out) (out_crtcs out) (out_name out).
Definition crtc_info (c : Z) (s : Server) : option CrtcInfo :=
  if negb (existsb (Z.eqb c) (crtc_ids s)) then None else
  match uses s !! c with
  | None => Some (mkCrtcInfo 0 0 0 0 NONE [])
  | Some u =>
    match find_mode (u_mode u) s with
    | Some mi => Some (mkCrtcInfo (u_x u) (u_y u) (m_width mi) (m_height mi) (u_mode u) (u_outs u))
    | None => None
    end
  end.

(** Can the mode be shown there on all of the outputs? *)
Definition on_screen (x y : Z) (mi : ModeInfo) (size : Z * Z) : bool :=
  (0 <=? x) && (0 <=? y) && (x + m_width mi <=? fst size) && (y + m_height mi <=? snd size).
Definition can_show (s : Server) (c m o : Z) : bool :=
  match find_output o s with
  | Some out => existsb (Z.eqb m) (out_modes out) && existsb (Z.eqb c) (out_crtcs out) && ((crtc_of o s =? NONE) || (crtc_of o s =? c))
  | None => false
  end.

Definition note (e : Z) (s : Server) : Server := s <| events := events s ++ [BASE + e] |>.

Definition set_crtc (c ts x y m : Z) (outs : list Z) (s : Server) : option Z * Server :=
  if negb (ts =? s_ts s) then (Some 1, s) else
  if negb (existsb (Z.eqb c) (crtc_ids s)) then (None, s) else
  if m =? NONE then (match outs with [] => (Some SUCCESS, note 1 (s <| uses := delete c (uses s) |>)) | _ => (None, s) end) else
  match find_mode m s with
  | Some mi =>
    if on_screen x y mi (screen s) && forallb (can_show s c m) outs && negb (Nat.eqb (length outs) 0)
    then (Some SUCCESS, note 1 (s <| uses := <[c := mkUse m x y outs]> (uses s) |>)) else (None, s)
  | None => (None, s)
  end.

Definition use_fits (s : Server) (size : Z * Z) (u : Use) : bool :=
  match find_mode (u_mode u) s with Some mi => on_screen (u_x u) (u_y u) mi size | None => false end.
Definition set_screen (w h : Z) (s : Server) : Server :=
  if forallb (fun p => use_fits s (w, h) (snd p)) (map_to_list (uses s)) then note 0 (s <| screen := (w, h) |>) else s.

Definition set_primary (o : Z) (s : Server) : Server := if primary s =? o then s else note 1 (s <| primary := o |>).

#[export] Instance randr : RandR Server := fun c s =>
  match c with
  | GetScreenResources _ => (Some (mkResources (s_ts s) (map fst (outputs s)) (crtc_ids s) (modes s)), s)
  | GetOutputInfo o _ => (output_info o s <$> find_output o s, s)
  | GetCrtcInfo c _ => (crtc_info c s, s)
  | SetCrtcConfig c ts x y m outs => set_crtc c ts x y m outs s
  | InternAtom _ => (Some EDID, s)
  | GetOutputProperty o _ => (out_edid <$> find_output o s, s)
  | GetGeometry => (Some (screen s), s)
  | SetScreenSize w h _ _ => (tt, set_screen w h s)
  | SetOutputPrimary o => (tt, set_primary o s)
  | GetOutputPrimary => (Some (primary s), s)
  | LoadConfig => (config s, s)
  | Poll _ => ((false, false), s)
  | DBusDispatch => ([], s)
  | UdevEvents => (0%nat, s)
  | XEvents => (events s, s <| events := [] |>)
  | XError => (false, s)
  | DpmsOn | ResetSaver | USleep _ => (tt, s)
  end.
End Server.

(** ** The configuration, read once and for all *)

Section Proof.
Context `{Toml} `{!Qsort}.
Abbreviation dprog := (prog (World Server)) (only parsing).

(** What the table of the outputs of a profile says of a monitor. *)
Definition wish_of (t : option toml_table) (name : text) : wish :=
  match t ≫= (fun t => toml_table_in t name) with
  | None => no_wish
  | Some m =>
    let int key := s32 (default 0 (toml_int_in m (str key))) in
    if default 1 (toml_bool_in m (str "enabled")) =? 0 then mkWish false 0 0 0 0 0 else
    mkWish true (int "width"%string) (int "height"%string) (int "x"%string) (int "y"%string) (default 0 (toml_bool_in m (str "primary")))
  end.

(** The handle of a table that may be missing. *)
Definition names (c : Conf) (h : handle) (t : option toml_table) (k : Z) : Prop :=
  match t with Some t => lives c h t k | None => h = None end.

Lemma names_weaken c h t k k' : k' ≤ k → names c h t k → names c h t k'.
Proof. destruct t; [|done]. apply lives_weaken. Qed.
Lemma names_aged c c' h t k : 0 ≤ k → aged c c' → names c h t (k + 1) → names c' h t k.
Proof. destruct t; [|done]. intros Hk Ha. by apply Ha. Qed.

Lemma wp_lookup c h t k0 key k :
  0 ≤ k0 → 0 ≤ k → names c h t k0 → conf_ok (k + 1) c →
  wp no_fault (isde_config_table h key)
    (fun h' c' => names c' h' (t ≫= fun t => toml_table_in t key) 63 ∧ conf_ok k c' ∧ aged c c') c.
Proof.
  intros Hk0 Hk Hh Hc. destruct t as [t|].
  - eapply wp_mono; [by eapply (wp_table c h t k0)|]. cbn beta. intros h' c' (E & ? & ?). cbn. destruct (toml_table_in t key); done.
  - cbn in Hh. subst h. apply wp_bind, wp_ret, wp_ret. split_and!; [done|eapply conf_ok_weaken; [|done]; lia|apply aged_refl].
Qed.

Lemma wp_read_wish c h t name b k :
  0 ≤ b → 0 ≤ k → names c h t (k + 1) → conf_ok (b + k + 1) c →
  wp no_fault (read_wish name h) (fun w c' => w = wish_of t name ∧ conf_ok (b + k) c' ∧ names c' h t k) c.
Proof.
  intros Hb Hk Hh Hc. apply wp_bind. eapply wp_mono; [apply (wp_lookup c h t (k + 1) _ (b + k)); [lia|lia|done|done]|]. cbn beta. intros mon c' (Hm & Hc' & Ha).
  pose proof (names_aged _ _ _ _ _ Hk Ha Hh) as Hh'. unfold wish_of.
  destruct (t ≫= _) as [m|]; cbn in Hm; [|by subst mon; apply wp_ret].
  assert (Hm0 : lives c' mon m 0) by (eapply lives_weaken; [|exact Hm]; lia). destruct mon as [i|]; [|by destruct Hm as (j & ? & _)].
  apply wp_bind. eapply wp_mono; [by eapply (wp_handle_get c' _ m 0)|]. cbn beta. intros e ? [-> ->].
  destruct (_ =? 0); [by apply wp_ret|].
  do 5 (apply wp_bind; eapply wp_mono; [by eapply (wp_handle_get c' _ m 0)|]; cbn beta; intros ? ? [-> ->]). by apply wp_ret.
Qed.

(** The table of the outputs of the profile with the key. *)
Definition profile_in (disp : toml_table) (key : text) : option toml_table :=
  toml_table_in disp (str "profiles") ≫= (fun t => toml_table_in t key ≫= (fun t => toml_table_in t (str "outputs"))).

Lemma names_none c h t k : names c h t k → (h = None ↔ t = None).
Proof. destruct t; cbn; [|done]. intros (j & -> & _). done. Qed.

Lemma wp_profile_table c h disp key k :
  0 ≤ k → lives c h disp 0 → conf_ok (k + 3) c →
  wp no_fault (profile_table h key) (fun h' c' => names c' h' (profile_in disp key) 63 ∧ conf_ok k c') c.
Proof.
  intros Hk Hh Hc. unfold profile_table, profile_in. apply wp_bind.
  eapply wp_mono; [apply (wp_lookup c h (Some disp) 0 _ (k + 2)); [lia|lia|done|by replace (k + 2 + 1) with (k + 3) by lia]|].
  cbn beta. intros h1 c1 (H1 & Hc1 & _). change (Some disp ≫= _) with (toml_table_in disp (str "profiles")) in H1.
  destruct (toml_table_in disp _) as [t1|]; cbn in H1 |- *; [|subst h1; apply wp_ret; split; [done|eapply conf_ok_weaken; [|done]; lia]].
  destruct h1 as [i1|]; [|by destruct H1 as (j & ? & _)].
  apply wp_bind. eapply wp_mono; [apply (wp_lookup c1 (Some i1) (Some t1) 63 _ (k + 1)); [lia|lia|done|by replace (k + 1 + 1) with (k + 2) by lia]|].
  cbn beta. intros h2 c2 (H2 & Hc2 & _). cbn in H2. destruct (toml_table_in t1 key) as [t2|]; cbn in H2 |- *; [|subst h2; apply wp_ret; split; [done|eapply conf_ok_weaken; [|done]; lia]].
  destruct h2 as [i2|]; [|by destruct H2 as (j & ? & _)].
  eapply wp_mono; [apply (wp_lookup c2 (Some i2) (Some t2) 63 _ k); [lia|lia|done|done]|]. cbn beta. by intros h3 c3 (? & ? & _).
Qed.

(** ** Calls *)

Lemma wp_xcall E (c : xcall) (Q : xresult c → World Server → Prop) w :
  Q (fst (x_ c (server w))) (w <| server := snd (x_ c (server w)) |> <| calls := c :: calls w |>) → wp E (call c) Q w.
Proof. intros Hq. unfold wp, call. destruct (x_ c (server w)) as [r s]. exact Hq. Qed.

Lemma wp_on_conf {A} E (m : prog Conf A) (Q : A → World Server → Prop) w :
  wp E m (fun a c => Q a (w <| confs := c |>)) (confs w) → wp E (on_conf m) Q w.
Proof. unfold wp, on_conf. by destruct (m (confs w)). Qed.

(** Only calls were made that change nothing. *)
Definition same (w w' : World Server) : Prop := w' = w <| calls := calls w' |>.
Lemma same_refl w : same w w.
Proof. by destruct w. Qed.
Lemma same_trans w1 w2 w3 : same w1 w2 → same w2 w3 → same w1 w3.
Proof. unfold same. intros -> ->. done. Qed.

Lemma wp_query E (c : xcall) (Q : xresult c → World Server → Prop) w0 w :
  same w0 w → snd (x_ c (server w0)) = server w0 → (∀ w', same w0 w' → Q (fst (x_ c (server w0))) w') → wp E (call c) Q w.
Proof.
  intros Hs Hx Hq. assert (Es : server w = server w0) by (by rewrite Hs). apply wp_xcall. rewrite Es. apply Hq. rewrite Hx, Hs. by destruct w0.
Qed.

Lemma wp_collect_same {A B} E (m : A → dprog B) (f : A → B) w0 l w :
  (∀ a w, a ∈ l → same w0 w → wp E (m a) (fun b w' => b = f a ∧ same w0 w') w) → same w0 w →
  wp E (collect m l) (fun bs w' => bs = map f l ∧ same w0 w') w.
Proof.
  intros Hm. revert w. induction l as [|a l IH]; intros w Hs; cbn [collect map]; [by apply wp_ret|].
  apply wp_bind. eapply wp_mono; [apply Hm; [by left|done]|]. cbn beta. intros b w1 [-> Hs1].
  apply wp_bind. eapply wp_mono; [apply IH; [|done]; intros a' w' Ha'; apply Hm; by right|]. cbn beta. intros bs w2 [-> Hs2]. by apply wp_ret.
Qed.

(** [I n]: what holds while [n] more steps are to be made. *)
Lemma wp_collect_count {A B} E (m : A → dprog B) (f : A → B) (I : Z → World Server → Prop) l w n :
  0 ≤ n → (∀ a w n, a ∈ l → 0 ≤ n → I (n + 1) w → wp E (m a) (fun b w' => b = f a ∧ I n w') w) → I (n + Z.of_nat (length l)) w →
  wp E (collect m l) (fun bs w' => bs = map f l ∧ I n w') w.
Proof.
  intros Hn Hm. revert w. induction l as [|a l IH]; intros w Hi; cbn [collect map length] in *; [apply wp_ret; by rewrite Z.add_0_r in Hi|].
  apply wp_bind. eapply wp_mono; [apply (Hm a w (n + Z.of_nat (length l))); [by left|lia|]|].
  { replace (n + Z.of_nat (length l) + 1) with (n + Z.of_nat (S (length l))) by lia. exact Hi. }
  cbn beta. intros b w1 [-> Hi1]. apply wp_bind. eapply wp_mono; [apply IH; [|done]; intros a' w' n' Ha'; apply Hm; by right|].
  cbn beta. intros bs w2 [-> Hi2]. by apply wp_ret.
Qed.
End Proof.

(** ** Servers on which each CRTC drives one output *)

Section Ok.
Context `{Toml} `{!Qsort}.

Record server_ok (s : Server) : Prop := {
  ok_outputs : NoDup (map fst (outputs s));
  ok_output_ids : NONE ∉ map fst (outputs s);
  ok_crtcs : NoDup (crtc_ids s);
  ok_crtc_ids : NONE ∉ crtc_ids s;
  ok_modes : NoDup (map m_id (modes s));
  ok_uses c u : uses s !! c = Some u →
    c ∈ crtc_ids s ∧ u_mode u ≠ NONE ∧ use_fits s (screen s) u = true ∧ ∃ o, u_outs u = [o] ∧ o ∈ map fst (outputs s);
  ok_alone c c' u u' : uses s !! c = Some u → uses s !! c' = Some u' → u_outs u = u_outs u' → c = c';
  ok_room : (length (outputs s) ≤ length (crtc_ids s))%nat;
  ok_any o out : find_output o s = Some out → out_connected out = true → out_crtcs out ≡ₚ crtc_ids s }.

(** What does not change when CRTCs are set. *)
Definition same_hardware (s s' : Server) : Prop :=
  outputs s' = outputs s ∧ crtc_ids s' = crtc_ids s ∧ modes s' = modes s ∧ s_ts s' = s_ts s ∧ config s' = config s.
Lemma same_hardware_refl s : same_hardware s s.
Proof. by split_and!. Qed.
Lemma same_hardware_trans s1 s2 s3 : same_hardware s1 s2 → same_hardware s2 s3 → same_hardware s1 s3.
Proof. intros (?&?&?&?&?) (?&?&?&?&?). split_and!; congruence. Qed.

Lemma find_output_in o s out : find_output o s = Some out → (o, out) ∈ outputs s.
Proof.
  unfold find_output. destruct (List.find _ _) as [[o' out']|] eqn:E; [|done]. intros [= <-].
  apply List.find_some in E as [Hin Ho]. cbn in Ho. apply Z.eqb_eq in Ho as ->. by apply list_elem_of_In.
Qed.
Lemma find_output_some o s : o ∈ map fst (outputs s) → is_Some (find_output o s).
Proof.
  intros Hin. unfold find_output. destruct (List.find _ _) as [p|] eqn:E; [by eexists|].
  apply list_elem_of_fmap in Hin as ([o' out] & -> & Hin). pose proof (List.find_none _ _ E _ (proj1 (list_elem_of_In _ _) Hin)) as Hn.
  cbn in Hn. by rewrite Z.eqb_refl in Hn.
Qed.

Lemma find_mode_in mi s : NoDup (map m_id (modes s)) → mi ∈ modes s → find_mode (m_id mi) s = Some mi.
Proof.
  unfold find_mode. generalize (modes s) as l. induction l as [|mi' l IH]; intros Hd Hin; [by apply not_elem_of_nil in Hin|]. cbn in *.
  apply NoDup_cons in Hd as [Hn Hd]. apply elem_of_cons in Hin as [->|Hin]; [by rewrite Z.eqb_refl|].
  destruct (Z.eqb_spec (m_id mi') (m_id mi)) as [E|_]; [|by apply IH]. exfalso. apply Hn. rewrite E. by apply list_elem_of_fmap_2.
Qed.

Lemma drives_spec s o c : drives s o c = true ↔ ∃ u, uses s !! c = Some u ∧ o ∈ u_outs u.
Proof.
  unfold drives. destruct (uses s !! c) as [u|]; [|split; [done|by intros (? & ? & _)]]. rewrite existsb_exists. split.
  - intros (x & Hin & ->%Z.eqb_eq). exists u. split; [done|by apply list_elem_of_In].
  - intros (u' & [= <-] & Hin). exists o. split; [by apply list_elem_of_In|apply Z.eqb_refl].
Qed.

Lemma crtc_of_some o s : server_ok s → crtc_of o s ≠ NONE → ∃ u, uses s !! crtc_of o s = Some u ∧ u_outs u = [o].
Proof.
  intros Hok Hne. unfold crtc_of in *. destruct (List.find _ _) as [c|] eqn:E; [|done]. cbn in *.
  apply List.find_some in E as [_ Hd]. apply drives_spec in Hd as (u & Hu & Hin). exists u. split; [done|].
  destruct (ok_uses _ Hok _ _ Hu) as (_ & _ & _ & o' & Ho & _). rewrite Ho in Hin. apply list_elem_of_singleton in Hin as ->. done.
Qed.
Lemma crtc_of_none o s c u : server_ok s → crtc_of o s = NONE → uses s !! c = Some u → o ∉ u_outs u.
Proof.
  intros Hok He Hu Hin. destruct (ok_uses _ Hok _ _ Hu) as (Hc & _). unfold crtc_of in He.
  destruct (List.find _ _) as [c'|] eqn:E; cbn in He.
  - subst c'. apply List.find_some in E as [Hin' _]. apply (ok_crtc_ids _ Hok). by apply list_elem_of_In.
  - pose proof (List.find_none _ _ E _ (proj1 (list_elem_of_In _ _) Hc)) as Hd. assert (drives s o c = true) by (apply drives_spec; by exists u). congruence.
Qed.
Lemma crtc_of_unique o s c u : server_ok s → uses s !! c = Some u → u_outs u = [o] → crtc_of o s = c.
Proof.
  intros Hok Hu Ho. destruct (decide (crtc_of o s = NONE)) as [E|E].
  - exfalso. apply (crtc_of_none o s c u Hok E Hu). rewrite Ho. by left.
  - destruct (crtc_of_some o s Hok E) as (u' & Hu' & Ho'). eapply (ok_alone _ Hok); [exact Hu'|exact Hu|congruence].
Qed.

(** An output shows a mode at a place. *)
Definition shows (s : Server) (o : Z) (v : Z * Z * Z) : Prop :=
  ∃ c, uses s !! c = Some (mkUse (fst (fst v)) (snd (fst v)) (snd v) [o]).
Definition dark (s : Server) (o : Z) : Prop := crtc_of o s = NONE.

(** A CRTC is free for an output that has none. *)
Lemma free_crtc s o : server_ok s → dark s o → o ∈ map fst (outputs s) → ∃ c, c ∈ crtc_ids s ∧ uses s !! c = None.
Proof.
  intros Hok Hd Ho. destruct (decide (Forall (fun c => is_Some (uses s !! c)) (crtc_ids s))) as [Hall|Hno].
  2: { apply not_Forall_Exists in Hno; [|intros ?; apply _]. apply Exists_exists in Hno as (c & Hin & Hn). exists c. split; [done|].
       cbn in Hn. destruct (uses s !! c) as [u|]; [by destruct Hn; exists u|done]. }
  exfalso. rewrite Forall_forall in Hall.
  set (driven := fun c => match uses s !! c with Some u => match u_outs u with o' :: _ => o' | [] => NONE end | None => NONE end).
  assert (Hinj : NoDup (map driven (crtc_ids s))).
  { apply NoDup_fmap_2_strong; [|apply (ok_crtcs _ Hok)]. intros c c' Hc Hc' E. destruct (Hall c Hc) as [u Hu], (Hall c' Hc') as [u' Hu'].
    destruct (ok_uses _ Hok _ _ Hu) as (_ & _ & _ & x & Hx & _), (ok_uses _ Hok _ _ Hu') as (_ & _ & _ & x' & Hx' & _).
    unfold driven in E. rewrite Hu, Hu', Hx, Hx' in E. subst x'. eapply (ok_alone _ Hok); [exact Hu|exact Hu'|congruence]. }
  assert (Hsub : o :: map driven (crtc_ids s) ⊆ map fst (outputs s)).
  { intros x Hx. apply elem_of_cons in Hx as [->|Hx]; [done|]. apply list_elem_of_fmap in Hx as (c & -> & Hc). destruct (Hall c Hc) as [u Hu].
    destruct (ok_uses _ Hok _ _ Hu) as (_ & _ & _ & x & Hx & Hx'). unfold driven. by rewrite Hu, Hx. }
  assert (Hd' : NoDup (o :: map driven (crtc_ids s))).
  { apply NoDup_cons. split; [|done]. intros Hx. apply list_elem_of_fmap in Hx as (c & E & Hc). destruct (Hall c Hc) as [u Hu].
    destruct (ok_uses _ Hok _ _ Hu) as (_ & _ & _ & x & Hx & _). unfold driven in E. rewrite Hu, Hx in E. subst x.
    apply (crtc_of_none o s c u Hok Hd Hu). rewrite Hx. by left. }
  pose proof (submseteq_length _ _ (NoDup_submseteq _ _ Hd' Hsub)) as Hl. cbn in Hl. rewrite !length_map in Hl. pose proof (ok_room _ Hok). lia.
Qed.

(** ** Setting a CRTC *)

Definition relit (c o m x y : Z) (s : Server) : Server := note 1 (s <| uses := <[c := mkUse m x y [o]]> (uses s) |>).
Definition unlit (c : Z) (s : Server) : Server := note 1 (s <| uses := delete c (uses s) |>).

Lemma drives_ext s s' o l : (∀ c, drives s' o c = drives s o c) → List.find (drives s' o) l = List.find (drives s o) l.
Proof. intros E. induction l as [|c l IH]; cbn; [done|]. by rewrite E, IH. Qed.

(** The CRTC is free or the output's own. *)
Definition for_output (s : Server) (c o : Z) : Prop :=
  c ∈ crtc_ids s ∧ ((uses s !! c = None ∧ dark s o) ∨ crtc_of o s = c).

Lemma for_output_drives s c o o' : server_ok s → for_output s c o → o' ≠ o → drives s o' c = false.
Proof.
  intros Hok [Hc Hf] Hne. unfold drives. destruct (uses s !! c) as [u|] eqn:Hu; [|done].
  destruct Hf as [[? _]|Hf]; [done|]. assert (Hn : crtc_of o s ≠ NONE) by (rewrite Hf; intros ->; by apply (ok_crtc_ids _ Hok)).
  destruct (crtc_of_some o s Hok Hn) as (u' & Hu' & Ho). rewrite Hf in Hu'. assert (u' = u) as -> by congruence. rewrite Ho. cbn.
  rewrite (proj2 (Z.eqb_neq o' o)) by done. done.
Qed.

Lemma relit_others s c o m x y o' : server_ok s → for_output s c o → o' ≠ o → crtc_of o' (relit c o m x y s) = crtc_of o' s.
Proof.
  intros Hok Hf Hne. unfold crtc_of. change (crtc_ids (relit c o m x y s)) with (crtc_ids s). f_equal. apply drives_ext. intros c'.
  destruct (decide (c' = c)) as [->|Hc].
  - rewrite (for_output_drives s c o o') by done. unfold drives. change (uses (relit c o m x y s)) with (<[c := mkUse m x y [o]]> (uses s)).
    rewrite lookup_insert_eq. cbn. by rewrite (proj2 (Z.eqb_neq o' o)).
  - unfold drives. change (uses (relit c o m x y s)) with (<[c := mkUse m x y [o]]> (uses s)). by rewrite lookup_insert_ne.
Qed.

Lemma relit_shows_others s c o m x y o' v : server_ok s → for_output s c o → o' ≠ o → shows s o' v → shows (relit c o m x y s) o' v.
Proof.
  intros Hok Hf Hne [c' Hc']. exists c'. change (uses (relit c o m x y s)) with (<[c := mkUse m x y [o]]> (uses s)). rewrite lookup_insert_ne; [done|].
  intros ->. pose proof (for_output_drives s c' o o' Hok Hf Hne) as Hd. unfold drives in Hd. rewrite Hc' in Hd. cbn in Hd. by rewrite Z.eqb_refl in Hd.
Qed.
Lemma relit_shows s c o m x y : shows (relit c o m x y s) o (m, x, y).
Proof. exists c. change (uses (relit c o m x y s)) with (<[c := mkUse m x y [o]]> (uses s)). by rewrite lookup_insert_eq. Qed.

Lemma use_fits_same s s' size u : modes s' = modes s → use_fits s' size u = use_fits s size u.
Proof. intros E. unfold use_fits, find_mode. by rewrite E. Qed.

Lemma relit_ok s c o m x y :
  server_ok s → for_output s c o → o ∈ map fst (outputs s) → m ≠ NONE → use_fits s (screen s) (mkUse m x y [o]) = true →
  server_ok (relit c o m x y s).
Proof.
  intros Hok Hf Ho Hm Hfit. pose proof Hf as [Hc Hcase].
  set (s' := relit c o m x y s). assert (Hu : uses s' = <[c := mkUse m x y [o]]> (uses s)) by done.
  assert (Hnot : ∀ c' u', c' ≠ c → uses s !! c' = Some u' → u_outs u' ≠ [o]).
  { intros c' u' Hne Hu' Ho'. assert (crtc_of o s = c') as E by (by apply (crtc_of_unique o s c' u')).
    destruct Hcase as [[_ Hd]|E']; [|congruence]. unfold dark in Hd. apply (ok_crtc_ids _ Hok). rewrite <- Hd, E. by destruct (ok_uses _ Hok _ _ Hu'). }
  split; try apply Hok.
  - intros c' u'. rewrite Hu. intros [[<- <-]|[Hne Hu']]%lookup_insert_Some.
    + split_and!; [done|done|exact Hfit|by exists o].
    + exact (ok_uses _ Hok _ _ Hu').
  - intros c1 c2 u1 u2. rewrite Hu. intros [[<- <-]|[Hne1 Hu1]]%lookup_insert_Some [[<- <-]|[Hne2 Hu2]]%lookup_insert_Some E; cbn in E.
    + done.
    + by destruct (Hnot c2 u2).
    + by destruct (Hnot c1 u1).
    + by eapply (ok_alone _ Hok).
Qed.

Lemma unlit_ok s c : server_ok s → server_ok (unlit c s).
Proof.
  intros Hok. split; try apply Hok.
  - intros c' u'. change (uses (unlit c s)) with (delete c (uses s)). intros [_ Hu']%lookup_delete_Some. exact (ok_uses _ Hok _ _ Hu').
  - intros c1 c2 u1 u2. change (uses (unlit c s)) with (delete c (uses s)). intros [_ Hu1]%lookup_delete_Some [_ Hu2]%lookup_delete_Some. by apply (ok_alone _ Hok).
Qed.
Lemma unlit_others s c o o' : server_ok s → crtc_of o s = c → c ≠ NONE → o' ≠ o → crtc_of o' (unlit c s) = crtc_of o' s.
Proof.
  intros Hok Hc Hn Hne. unfold crtc_of. change (crtc_ids (unlit c s)) with (crtc_ids s). f_equal. apply drives_ext. intros c'.
  unfold drives. change (uses (unlit c s)) with (delete c (uses s)). destruct (decide (c' = c)) as [->|Hc'].
  - rewrite lookup_delete_eq. pose proof (for_output_drives s c o o' Hok) as Hd. unfold drives in Hd. symmetry. apply Hd; [|done]. split; [|by right].
    subst c. destruct (crtc_of_some o s Hok Hn) as (u & Hu & _). by destruct (ok_uses _ Hok _ _ Hu).
  - by rewrite lookup_delete_ne.
Qed.
Lemma unlit_dark s c o : server_ok s → crtc_of o s = c → c ≠ NONE → dark (unlit c s) o.
Proof.
  intros Hok Hc Hn. pose proof (unlit_ok s c Hok) as Hok'. unfold dark. destruct (decide (crtc_of o (unlit c s) = NONE)) as [|E]; [done|exfalso].
  destruct (crtc_of_some o _ Hok' E) as (u & Hu & Ho). change (uses (unlit c s)) with (delete c (uses s)) in Hu.
  apply lookup_delete_Some in Hu as [Hne Hu]. apply Hne. etrans; [symmetry; exact Hc|]. by apply (crtc_of_unique o s _ u).
Qed.
Lemma unlit_shows_others s c o o' v : server_ok s → crtc_of o s = c → c ≠ NONE → o' ≠ o → shows s o' v → shows (unlit c s) o' v.
Proof.
  intros Hok Hc Hn Hne [c' Hc']. exists c'. change (uses (unlit c s)) with (delete c (uses s)). rewrite lookup_delete_ne; [done|].
  intros ->. destruct (crtc_of_some o s Hok) as (u & Hu & Ho); [congruence|]. rewrite Hc, Hc' in Hu. injection Hu as <-. cbn in Ho. congruence.
Qed.
End Ok.

Open Scope Z_scope.

Section Proof.
Context `{Toml} `{!Qsort}.
Abbreviation dprog := (prog (World Server)) (only parsing).

(** ** Plans *)

Lemma better_spec w h m ms : ∀ best,
  let res := fold_left (better w h m) ms best in
  res = best ∨ (snd res = m ∧ ∃ mi, mi ∈ ms ∧ m_id mi = m ∧ m_width mi = w ∧ m_height mi = h ∧ isde_randr_refresh mi = fst res).
Proof.
  induction ms as [|mi ms IH]; intros best; cbn; [by left|]. destruct (IH (better w h m best mi)) as [E|(E & mi' & Hin & ?)].
  - rewrite E. unfold better. destruct (Z.eqb_spec (m_id mi) m) as [Em|_]; cbn; [|by left].
    destruct ((m_width mi =? w) && (m_height mi =? h)) eqn:Es; [|by left]. destruct (dlt _ _); [|by left]. cbn.
    apply andb_prop in Es as [?%Z.eqb_eq ?%Z.eqb_eq]. right. split; [done|]. exists mi. split; [by left|]. done.
  - right. split; [done|]. exists mi'. split; [by right|done].
Qed.

Lemma best_mode_spec w h oms ms :
  let res := best_mode w h oms ms in
  res = (dzero, NONE) ∨ (snd res ∈ oms ∧ ∃ mi, mi ∈ ms ∧ m_id mi = snd res ∧ m_width mi = w ∧ m_height mi = h ∧ isde_randr_refresh mi = fst res).
Proof.
  unfold best_mode. cut (∀ best, let res := fold_left (fun best m => fold_left (better w h m) ms best) oms best in
    res = best ∨ (snd res ∈ oms ∧ ∃ mi, mi ∈ ms ∧ m_id mi = snd res ∧ m_width mi = w ∧ m_height mi = h ∧ isde_randr_refresh mi = fst res)); [intros Hc; apply Hc|].
  induction oms as [|o oms IH]; intros best; cbn; [by left|].
  destruct (IH (fold_left (better w h o) ms best)) as [E|(Hin & Hmi)]; cbn in *; [|right; split; [by right|done]].
  rewrite E. destruct (better_spec w h o ms best) as [E'|[E' Hmi]]; cbn in *; [by left|]. right. rewrite E'. split; [by left|done].
Qed.

(** Does an output show what is planned? *)
Definition at_wish (st : output_state_t) (d : desired_state_t) : bool :=
  crtc_active st && (active_mode st =? d_mode d) && (active_x st =? d_x d) && (active_y st =? d_y d) && (active_w st =? d_w d) && (active_h st =? d_h d).

(** The plan for an output that is dark. *)
Definition ideal (oi : OutputInfo) (ms : list ModeInfo) (k : wish) : desired_state_t := plan_for (blank_output NONE) oi ms k.

Lemma plan_for_ideal st oi ms k :
  plan_for st oi ms k =
    match action (ideal oi ms k) with
    | PLAN_APPLY => (ideal oi ms k) <| action := if at_wish st (ideal oi ms k) then PLAN_KEEP else PLAN_APPLY |>
    | _ => ideal oi ms k
    end.
Proof.
  unfold ideal, plan_for. destruct (if usable (w_w k) (w_h k) then _ else _) as [w h]. destruct (negb (usable w h)); [done|].
  destruct (best_mode _ _ _ _) as [r m]. destruct (m =? NONE); [done|]. cbn. unfold at_wish. cbn. by destruct (_ && _).
Qed.

Lemma ideal_cases oi ms k :
  action (ideal oi ms k) = PLAN_SKIP ∨
  (action (ideal oi ms k) = PLAN_APPLY ∧ d_mode (ideal oi ms k) ≠ NONE ∧ d_mode (ideal oi ms k) ∈ o_modes oi ∧
   ∃ mi, mi ∈ ms ∧ m_id mi = d_mode (ideal oi ms k) ∧ m_width mi = d_w (ideal oi ms k) ∧ m_height mi = d_h (ideal oi ms k)).
Proof.
  unfold ideal, plan_for. destruct (if usable (w_w k) (w_h k) then _ else _) as [w h]. destruct (negb (usable w h)); [by left|].
  pose proof (best_mode_spec (u16 w) (u16 h) (o_modes oi) ms) as Hb. destruct (best_mode _ _ _ _) as [r m]. cbn in Hb.
  destruct (Z.eqb_spec m NONE) as [E|E]; [by left|]. right. cbn. destruct Hb as [[= _ ?]|(Hin & mi & ? & ? & ? & ? & _)]; [done|]. split_and!; try done. by exists mi.
Qed.

(** ** Observing *)

Definition observed (s : Server) (o : Z) : output_state_t :=
  match find_output o s with
  | None => blank_output o
  | Some out =>
    let st := mkOutputState o (cstr (take 63 (out_name out))) (out_connected out) (crtc_of o s) false NONE 0 0 0 0 (Some (output_info o s out)) in
    match uses s !! crtc_of o s ≫= (fun u => mi ← find_mode (u_mode u) s; Some (u, mi)) with
    | Some (u, mi) =>
      st <| crtc_active := true |> <| active_mode := u_mode u |> <| active_x := u_x u |> <| active_y := u_y u |>
         <| active_w := m_width mi |> <| active_h := m_height mi |>
    | None => st
    end
  end.

Lemma is_connected_info o s out : is_connected (output_info o s out) = out_connected out.
Proof. unfold is_connected. cbn. by destruct (out_connected out). Qed.

Lemma crtc_info_used s c u : server_ok s → uses s !! c = Some u → ∃ mi, find_mode (u_mode u) s = Some mi ∧
  crtc_info c s = Some (mkCrtcInfo (u_x u) (u_y u) (m_width mi) (m_height mi) (u_mode u) (u_outs u)).
Proof.
  intros Hok Hu. destruct (ok_uses _ Hok _ _ Hu) as (Hc & Hm & Hf & _). unfold use_fits in Hf.
  destruct (find_mode (u_mode u) s) as [mi|] eqn:E; [|done]. exists mi. split; [done|]. unfold crtc_info.
  replace (existsb (Z.eqb c) (crtc_ids s)) with true; [by rewrite Hu, E|].
  symmetry. apply existsb_exists. exists c. split; [by apply list_elem_of_In|apply Z.eqb_refl].
Qed.

Lemma wp_get_state E ts o w0 w :
  server_ok (server w0) → same w0 w →
  wp E (output_get_state ts o) (fun st w' => st = observed (server w0) o ∧ same w0 w') w.
Proof.
  intros Hok Hs. set (s := server w0) in *. apply wp_bind. apply (wp_query E (GetOutputInfo o ts) _ w0); [done|done|]. intros w1 Hs1. cbn. fold s. unfold observed.
  destruct (find_output o s) as [out|] eqn:Eo; [|by apply wp_ret]. cbn. rewrite is_connected_info.
  destruct (Z.eqb_spec (crtc_of o s) NONE) as [En|En].
  - rewrite En. assert (uses s !! NONE = None) as -> by (destruct (uses s !! NONE) as [u|] eqn:Hu; [by destruct (ok_crtc_ids _ Hok); destruct (ok_uses _ Hok _ _ Hu)|done]).
    by apply wp_ret.
  - apply wp_bind. apply (wp_query E (GetCrtcInfo (crtc_of o s) ts) _ w0); [done|done|]. intros w2 Hs2. cbn. fold s.
    destruct (crtc_of_some o s Hok En) as (u & Hu & _). destruct (crtc_info_used s _ u Hok Hu) as (mi & Emi & Eci).
    rewrite Eci, Hu. cbn. rewrite Emi. cbn. destruct (ok_uses _ Hok _ _ Hu) as (_ & Hm & _).
    rewrite (proj2 (Z.eqb_neq _ _)) by done. by apply wp_ret.
Qed.

Lemma at_wish_shows s o d :
  server_ok s → at_wish (observed s o) d = true → shows s o (d_mode d, d_x d, d_y d).
Proof.
  intros Hok Ha. unfold observed in Ha. destruct (find_output o s) as [out|] eqn:Eo; [|done].
  destruct (uses s !! crtc_of o s ≫= _) as [[u mi]|] eqn:Eu; [|done]. unfold at_wish in Ha. cbn in Ha.
  apply bind_Some in Eu as (u' & Hu & Eu). apply bind_Some in Eu as (mi' & Emi & [= -> ->]).
  rewrite !andb_true_iff, !Z.eqb_eq in Ha. destruct Ha as [[[[Em Ex] Ey] Ew] Eh].
  assert (Hn : crtc_of o s ≠ NONE) by (intros En; rewrite En in Hu; apply (ok_crtc_ids _ Hok); by destruct (ok_uses _ Hok _ _ Hu)).
  destruct (crtc_of_some o s Hok Hn) as (u' & Hu' & Ho). assert (u' = u) as -> by congruence. exists (crtc_of o s). rewrite Hu. cbn.
  destruct u as [um ux uy uo]. cbn in *. by subst.
Qed.
Lemma shows_at_wish s o out d mi :
  server_ok s → find_output o s = Some out → shows s o (d_mode d, d_x d, d_y d) →
  find_mode (d_mode d) s = Some mi → m_width mi = d_w d → m_height mi = d_h d → at_wish (observed s o) d = true.
Proof.
  intros Hok Eo [c Hc] Emi Ew Eh. cbn in Hc. assert (Ec : crtc_of o s = c) by (by eapply crtc_of_unique). unfold observed. rewrite Eo, Ec, Hc. cbn. rewrite Emi. cbn.
  unfold at_wish. cbn. by rewrite !Z.eqb_refl, Ew, Eh, !Z.eqb_refl.
Qed.

(** ** The plans for a server *)

Definition planned (s : Server) (t : option toml_table) (st : output_state_t) : desired_state_t :=
  match st_oi st with
  | Some oi => if st_connected st && w_enabled (wish_of t (st_name st)) then plan_for st oi (modes s) (wish_of t (st_name st)) else no_plan
  | None => no_plan
  end.
Definition plans (s : Server) (t : option toml_table) : list (output_state_t * desired_state_t) :=
  map (fun o => (observed s o, planned s t (observed s o))) (map fst (outputs s)).

Section Room.
(** [spare]: handles that can be made besides. *)
Context (spare : Z) (Hspare : 0 ≤ spare).

(** Nothing but look-ups was done, and [n] more can be. *)
Definition looked (w0 : World Server) (h : handle) (t : option toml_table) (n : Z) (w : World Server) : Prop :=
  w = w0 <| confs := confs w |> <| calls := calls w |> ∧ conf_ok (spare + n) (confs w) ∧ names (confs w) h t n.

Lemma same_looked w0 h t n w w' : looked w0 h t n w → same w w' → looked w0 h t n w'.
Proof. intros (E & Hc & Hn) ->. split_and!; [|done|done]. rewrite E. done. Qed.
Lemma looked_server w0 h t n w : looked w0 h t n w → server w = server w0.
Proof. by intros (-> & _). Qed.
Lemma looked_weaken w0 h t n n' w : n' ≤ n → looked w0 h t n w → looked w0 h t n' w.
Proof. intros Hn (E & Hc & Hnm). split_and!; [done|eapply conf_ok_weaken; [|exact Hc]; lia|by eapply names_weaken]. Qed.

Lemma wp_plan_output w0 h t st w n :
  0 ≤ n → looked w0 h t (n + 1) w →
  wp no_fault (plan_output h (modes (server w0)) st) (fun d w' => d = planned (server w0) t st ∧ looked w0 h t n w') w.
Proof.
  intros Hn Hl. unfold plan_output, planned. assert (Hl' : looked w0 h t n w) by (eapply looked_weaken; [|done]; lia).
  destruct (st_oi st) as [oi|]; [|by apply wp_ret]. destruct (st_connected st); cbn [negb andb]; [|by apply wp_ret].
  destruct Hl as (E & Hc & Hnm). rewrite Z.add_assoc in Hc. apply wp_bind, wp_on_conf. eapply wp_mono; [by apply (wp_read_wish _ _ t _ spare n)|]. cbn beta.
  intros k c' (-> & Hc' & Hn'). apply wp_ret. split; [by destruct (w_enabled _)|]. split_and!; [|done|done]. rewrite E. done.
Qed.

Lemma zip_maps {A B C} (f : A → B) (g : B → C) l : zip (map f l) (map g (map f l)) = map (fun a => (f a, g (f a))) l.
Proof. induction l as [|a l IH]; cbn; [done|]. by f_equal. Qed.

Lemma wp_observe_and_plan w h t n :
  server_ok (server w) → 0 ≤ n → conf_ok (spare + n + Z.of_nat (length (outputs (server w)))) (confs w) →
  names (confs w) h t (n + Z.of_nat (length (outputs (server w)))) →
  wp no_fault (observe_and_plan h (mkResources (s_ts (server w)) (map fst (outputs (server w))) (crtc_ids (server w)) (modes (server w))))
    (fun ps w' => ps = plans (server w) t ∧ looked w h t n w') w.
Proof.
  intros Hok Hn Hc Hnm. apply wp_bind. eapply wp_mono.
  { apply (wp_collect_same no_fault _ (observed (server w)) w); [|apply same_refl]. intros o w1 _ Hs. by apply wp_get_state. }
  cbn beta. intros states w1 [-> Hs1]. apply wp_bind. eapply wp_mono.
  { apply (wp_collect_count no_fault _ (planned (server w) t) (looked w h t)); [exact Hn|intros st w2 k _; apply wp_plan_output|].
    rewrite !length_map. cbn [res_outputs]. rewrite length_map. eapply same_looked; [|exact Hs1]. split_and!; [by destruct w|by rewrite Z.add_assoc|done]. }
  cbn beta. intros ps w2 [-> Hl]. apply wp_ret. split; [|done]. unfold plans. cbn [res_outputs]. apply zip_maps.
Qed.

Lemma plan_in s t st d : (st, d) ∈ plans s t → ∃ o, o ∈ map fst (outputs s) ∧ st = observed s o ∧ d = planned s t (observed s o).
Proof. intros (o & [= -> ->] & Ho)%list_elem_of_fmap. by exists o. Qed.

(** ** A larger screen *)

(** Only CRTCs, screen, primary output and events were changed. *)
Definition changed (w w' : World Server) (s' : Server) : Prop := w' = w <| server := s' |> <| calls := calls w' |>.

Lemma needed_spec sw sh (ps : list (output_state_t * desired_state_t)) :
  sw ≤ fst (needed sw sh ps) ∧ sh ≤ snd (needed sw sh ps) ∧
  (∀ st d e, (st, d) ∈ ps → extent st d = Some e → fst e ≤ fst (needed sw sh ps) ∧ snd e ≤ snd (needed sw sh ps)) ∧
  (∀ b, sw ≤ b → sh ≤ b → (∀ st d e, (st, d) ∈ ps → extent st d = Some e → fst e ≤ b ∧ snd e ≤ b) →
     fst (needed sw sh ps) ≤ b ∧ snd (needed sw sh ps) ≤ b).
Proof.
  unfold needed. revert sw sh. induction ps as [|[st d] ps IH]; intros sw sh; cbn [omap list_omap fold_left].
  - split_and!; cbn; try lia. intros st d e Hin. by apply not_elem_of_nil in Hin.
  - destruct (extent st d) as [e|] eqn:Ee; cbn [fold_left].
    + destruct (IH (Z.max sw (fst e)) (Z.max sh (snd e))) as (I1 & I2 & I3 & I4). set (r := fold_left _ _ _) in *. split_and!; try lia.
      * intros st' d' e' Hin Ee'. apply elem_of_cons in Hin as [[= -> ->]|Hin]; [|by eapply I3]. assert (e' = e) as -> by congruence. lia.
      * intros b Hw Hh Hb. destruct (Hb st d e ltac:(by left) Ee). apply I4; [lia|lia|]. intros st' d' e' Hin. apply Hb. by right.
    + destruct (IH sw sh) as (I1 & I2 & I3 & I4). set (r := fold_left _ _ _) in *. split_and!; try lia.
      * intros st' d' e' Hin Ee'. apply elem_of_cons in Hin as [[= -> ->]|Hin]; [congruence|by eapply I3].
      * intros b Hw Hh Hb. apply I4; [done|done|]. intros st' d' e' Hin. apply Hb. by right.
Qed.

Lemma use_fits_larger s u a b : fst a ≤ fst b → snd a ≤ snd b → use_fits s a u = true → use_fits s b u = true.
Proof.
  intros H1' H2'. unfold use_fits, on_screen. destruct (find_mode _ _); [|done]. rewrite !andb_true_iff, !Z.leb_le. lia.
Qed.

Definition small (z : Z) : Prop := 0 ≤ z < 2 ^ 16.

(** What making the screen larger may change. *)
Definition grown (s s' : Server) : Prop :=
  server_ok s' ∧ same_hardware s s' ∧ uses s' = uses s ∧ primary s' = primary s ∧ small (fst (screen s')) ∧ small (snd (screen s')).

Lemma set_screen_grown s w h :
  server_ok s → small w → small h → fst (screen s) ≤ w → snd (screen s) ≤ h → grown s (set_screen w h s) ∧ screen (set_screen w h s) = (w, h).
Proof.
  intros Hok Hw Hh Hw' Hh'. unfold set_screen.
  assert (forallb (fun p => use_fits s (w, h) (snd p)) (map_to_list (uses s)) = true) as ->.
  { apply forallb_forall. intros [c u] Hin. cbn. destruct (ok_uses _ Hok c u) as (_ & _ & Hf & _); [apply elem_of_map_to_list; by apply list_elem_of_In|].
    by apply (use_fits_larger s u (screen s) (w, h)). }
  split; [|done]. split_and!; try done; try (by split_and!).
  split; try apply Hok. intros c u Hu. destruct (ok_uses _ Hok c u Hu) as (? & ? & Hf & ?). split_and!; try done.
  by apply (use_fits_larger s u (screen s) (w, h)).
Qed.

Lemma wp_grow scr ps w :
  let s := server w in
  server_ok s → small (fst (screen s)) → small (snd (screen s)) →
  (∀ st d e, (st, d) ∈ ps → extent st d = Some e → fst e < 2 ^ 16 ∧ snd e < 2 ^ 16) →
  wp no_fault (grow_screen scr ps)
    (fun _ w' => ∃ s', changed w w' s' ∧ grown s s' ∧ (existsb is_apply ps = false → s' = s) ∧
       ∀ st d e, (st, d) ∈ ps → action d = PLAN_APPLY → extent st d = Some e → fst e ≤ fst (screen s') ∧ snd e ≤ snd (screen s')) w.
Proof.
  intros s Hok Hs1 Hs2 He. assert (Hrefl : grown s s) by (split_and!; try done; apply same_hardware_refl).
  apply wp_when; intros Ha.
  2: { exists s. split_and!; [by destruct w|done|done|]. intros st d e Hin Hap _. exfalso.
       assert (existsb is_apply ps = true); [|congruence]. apply existsb_exists. exists (st, d). split; [by apply list_elem_of_In|by apply bool_decide_eq_true_2]. }
  apply wp_bind. apply (wp_xcall no_fault GetGeometry). cbn [x_ randr fst snd server]. fold s. cbn [default option_map].
  destruct (screen s) as [sw sh] eqn:Es. cbn [fst snd] in *. destruct (needed_spec sw sh ps) as (N1 & N2 & N3 & N4).
  destruct (needed sw sh ps) as [nw nh] eqn:En. cbn [fst snd] in *.
  destruct (N4 (2 ^ 16 - 1)) as [B1 B2]; [unfold small in *; lia|unfold small in *; lia|intros st d e Hin Ee; destruct (He st d e Hin Ee); lia|].
  unfold small in *. cbn [id default]. rewrite En. apply wp_when; intros Hg.
  - apply wp_bind. apply (wp_xcall no_fault (SetScreenSize _ _ _ _)). cbn [x_ randr fst snd server]. apply wp_ret. rewrite !u16_id by lia. fold s.
    destruct (set_screen_grown s nw nh Hok) as [Hgr Hsc]; [unfold small; lia|unfold small; lia|rewrite Es; done|rewrite Es; done|].
    exists (set_screen nw nh s). split_and!; [done|apply Hgr..|congruence|]. intros st d e Hin _ Ee. rewrite Hsc. cbn. by apply (N3 st d e).
  - apply orb_false_iff in Hg as [?%Z.ltb_ge ?%Z.ltb_ge]. exists s. split_and!; [by destruct w|apply Hrefl..|done|].
    intros st d e Hin _ Ee. rewrite Es. cbn. destruct (N3 st d e Hin Ee). lia.
Qed.

(** ** Lighting an output *)

Lemma existsb_in (x : Z) l : x ∈ l → existsb (Z.eqb x) l = true.
Proof. intros Hin. apply existsb_exists. exists x. split; [by apply list_elem_of_In|apply Z.eqb_refl]. Qed.

Lemma wp_find_free E ts w0 l w :
  let s := server w0 in
  server_ok s → (∀ c, c ∈ l → c ∈ crtc_ids s) → (∃ c, c ∈ l ∧ uses s !! c = None) → same w0 w →
  wp E (find_free ts l) (fun c w' => c ∈ crtc_ids s ∧ uses s !! c = None ∧ same w0 w') w.
Proof.
  intros s Hok. revert w. induction l as [|c l IH]; intros w Hsub Hex Hs; [by destruct Hex as (c & Hc & _); apply not_elem_of_nil in Hc|].
  cbn [find_free]. apply wp_bind. apply (wp_query E (GetCrtcInfo c ts) _ w0); [done|done|]. intros w1 Hs1. cbn [x_ randr fst]. fold s.
  destruct (uses s !! c) as [u|] eqn:Hu.
  - destruct (crtc_info_used s c u Hok Hu) as (mi & _ & ->). cbn [c_outputs c_mode]. destruct (ok_uses _ Hok _ _ Hu) as (_ & _ & _ & o & -> & _). cbn [length Nat.eqb andb].
    apply IH; [intros c' Hc'; apply Hsub; by right| |done]. destruct Hex as (c' & Hc' & Hn). apply elem_of_cons in Hc' as [->|Hc']; [congruence|by exists c'].
  - assert (crtc_info c s = Some (mkCrtcInfo 0 0 0 0 NONE [])) as ->.
    { unfold crtc_info. rewrite (existsb_in c) by (apply Hsub; by left). cbn. by rewrite Hu. }
    cbn [c_outputs c_mode length Nat.eqb andb]. change (NONE =? NONE) with true. apply wp_ret. split_and!; [apply Hsub; by left|done|done].
Qed.

(** Ready to be lit: connected, with a mode of its own that fits on the screen. *)
Definition ready (s : Server) (o : Z) (oi : OutputInfo) (des : desired_state_t) : Prop :=
  ∃ out mi, find_output o s = Some out ∧ out_connected out = true ∧ o_crtcs oi = out_crtcs out ∧ d_mode des ≠ NONE ∧ d_mode des ∈ out_modes out ∧
    find_mode (d_mode des) s = Some mi ∧ on_screen (d_x des) (d_y des) mi (screen s) = true.

Lemma set_crtc_relit s c o oi des :
  ready s o oi des → for_output s c o → server_ok s →
  set_crtc c (s_ts s) (d_x des) (d_y des) (d_mode des) [o] s = (Some SUCCESS, relit c o (d_mode des) (d_x des) (d_y des) s).
Proof.
  intros (out & mi & Eo & Hcon & _ & Hm & Hmo & Emi & Hsc) [Hc Hcase] Hok. unfold set_crtc. rewrite Z.eqb_refl. cbn [negb]. rewrite (existsb_in c) by done. cbn [negb].
  rewrite (proj2 (Z.eqb_neq _ _)) by done. rewrite Emi, Hsc. cbn [forallb]. unfold can_show. rewrite Eo, (existsb_in (d_mode des)) by done.
  rewrite (existsb_in c) by (by rewrite (ok_any _ Hok o out Eo Hcon)). cbn [andb].
  assert ((crtc_of o s =? NONE) || (crtc_of o s =? c) = true) as ->; [|done].
  destruct Hcase as [[_ Hd]|Hd]; [unfold dark in Hd; by rewrite Hd|]. by rewrite Hd, Z.eqb_refl, orb_true_r.
Qed.

Lemma find_output_id o s out : find_output o s = Some out → o ∈ map fst (outputs s).
Proof. intros Eo%find_output_in. apply list_elem_of_fmap. by exists (o, out). Qed.

Lemma ready_fits s o oi des : ready s o oi des → use_fits s (screen s) (mkUse (d_mode des) (d_x des) (d_y des) [o]) = true.
Proof. intros (out & mi & _ & _ & _ & _ & _ & Emi & Hsc). unfold use_fits. cbn. by rewrite Emi. Qed.

Lemma wp_show w0 w c o oi des :
  ready (server w0) o oi des → for_output (server w0) c o → server_ok (server w0) → same w0 w →
  wp no_fault (show c (s_ts (server w0)) des o) (fun ok w' => ok = true ∧ changed w0 w' (relit c o (d_mode des) (d_x des) (d_y des) (server w0))) w.
Proof.
  intros Hr Hf Hok Hs. apply wp_bind. apply (wp_xcall no_fault (SetCrtcConfig _ _ _ _ _ _)). assert (server w = server w0) as Es by (by rewrite Hs).
  cbn [x_ randr]. rewrite Es, (set_crtc_relit _ c o oi) by done. cbn [fst snd]. apply wp_ret. split; [done|]. rewrite Hs. done.
Qed.

Lemma wp_acquire w st oi out ts :
  let s := server w in
  server_ok s → find_output (st_id st) s = Some out → out_connected out = true → o_crtcs oi = out_crtcs out → bound_crtc st = crtc_of (st_id st) s →
  wp no_fault (acquire_crtc st oi ts) (fun c w' => for_output s c (st_id st) ∧ c ≠ NONE ∧ same w w') w.
Proof.
  intros s Hok Eo Hcon Hcr Hb. unfold acquire_crtc. rewrite Hb. destruct (Z.eqb_spec (crtc_of (st_id st) s) NONE) as [En|En]; cbn [negb].
  - eapply wp_mono.
    { apply (wp_find_free no_fault ts w); [exact Hok| | |apply same_refl].
      - intros c. rewrite Hcr. by rewrite (ok_any _ Hok _ _ Eo Hcon).
      - destruct (free_crtc s (st_id st) Hok En (find_output_id _ _ _ Eo)) as (c & Hc & Hn). exists c. split; [|done].
        rewrite Hcr. by rewrite (ok_any _ Hok _ _ Eo Hcon). }
    cbn beta. intros c w' (Hc & Hn & Hs). split_and!; [|by intros ->; apply (ok_crtc_ids _ Hok)|done]. split; [done|by left].
  - apply wp_ret. destruct (crtc_of_some _ s Hok En) as (u & Hu & _). split_and!; [|done|apply same_refl]. split; [by destruct (ok_uses _ Hok _ _ Hu)|by right].
Qed.

Lemma wp_apply_desired w st oi des :
  let s := server w in
  server_ok s → ready s (st_id st) oi des → bound_crtc st = crtc_of (st_id st) s →
  wp no_fault (apply_desired st oi des (s_ts s))
    (fun r w' => r = (true, s_ts s) ∧ ∃ c, for_output s c (st_id st) ∧ changed w w' (relit c (st_id st) (d_mode des) (d_x des) (d_y des) s)) w.
Proof.
  intros s Hok Hr Hb. destruct Hr as (out & mi & Eo & Hcon & Hcr & Hrest). apply wp_bind.
  eapply wp_mono; [by apply (wp_acquire w st oi out)|]. cbn beta. intros c w1 (Hf & Hc & Hs1). fold s in Hf.
  rewrite (proj2 (Z.eqb_neq c NONE)) by done. apply wp_bind, wp_bind. apply (wp_query no_fault (GetScreenResources true) _ w); [done|done|]. intros w2 Hs2.
  apply wp_ret. cbn [x_ randr fst config_timestamp]. fold s. apply wp_bind.
  eapply wp_mono; [apply (wp_show w w2 c (st_id st) oi des); try done; by exists out, mi|]. cbn beta. intros ok w3 (-> & Hch). apply wp_ret. split; [done|]. by exists c.
Qed.

(** ** All plans *)

(** What [apply_plans] gives when nothing fails. *)
Fixpoint lit (ps : list (output_state_t * desired_state_t)) (first prim : Z) : Z * Z :=
  match ps with
  | [] => (first, prim)
  | (st, des) :: ps' =>
    match action des with
    | PLAN_SKIP => lit ps' first prim
    | _ => lit ps' (first_of first (st_id st)) (if truthy (is_primary des) then st_id st else prim)
    end
  end.

Lemma find_output_same s s' o : outputs s' = outputs s → find_output o s' = find_output o s.
Proof. intros E. unfold find_output. by rewrite E. Qed.
Lemma find_mode_same s s' m : modes s' = modes s → find_mode m s' = find_mode m s.
Proof. intros E. unfold find_mode. by rewrite E. Qed.
Lemma ready_same s s' o oi d : same_hardware s s' → screen s' = screen s → ready s o oi d → ready s' o oi d.
Proof.
  intros (E1 & _ & E2 & _ & _) E3 (out & mi & Eo & Hcon & Hcr & Hm & Hmo & Emi & Hsc). exists out, mi.
  rewrite (find_output_same s s'), (find_mode_same s s'), E3 by done. done.
Qed.

Definition applied (ps : list (output_state_t * desired_state_t)) (o : Z) : Prop := ∃ st d, (st, d) ∈ ps ∧ action d = PLAN_APPLY ∧ st_id st = o.

(** What applying the plans makes of a server. *)
Definition carried_out (ps : list (output_state_t * desired_state_t)) (s s' : Server) : Prop :=
  server_ok s' ∧ same_hardware s s' ∧ screen s' = screen s ∧ primary s' = primary s ∧
  (∀ st d, (st, d) ∈ ps → action d = PLAN_APPLY → shows s' (st_id st) (d_mode d, d_x d, d_y d)) ∧
  (∀ o, ¬ applied ps o → (∀ v, shows s o v → shows s' o v) ∧ crtc_of o s' = crtc_of o s) ∧
  (existsb is_apply ps = false → s' = s).

Lemma wp_apply_plans ps : ∀ w first prim,
  let s := server w in
  server_ok s → NoDup (map (fun p => st_id (fst p)) ps) →
  (∀ st d, (st, d) ∈ ps → action d = PLAN_APPLY → ∃ oi, st_oi st = Some oi ∧ ready s (st_id st) oi d ∧ bound_crtc st = crtc_of (st_id st) s) →
  wp no_fault (apply_plans ps (s_ts s) first prim)
    (fun r w' => r = lit ps first prim ∧ ∃ s', changed w w' s' ∧ carried_out ps s s') w.
Proof.
  induction ps as [|[st d] ps IH]; intros w first prim s Hok Hd Hps.
  { apply wp_ret. split; [done|]. exists s. split; [by destruct w|]. split_and!; try done. intros st d Hin. by apply not_elem_of_nil in Hin. }
  cbn [map fst] in Hd. apply NoDup_cons in Hd as [Hn Hd]. cbn [apply_plans lit].
  assert (Hrest : ∀ st' d', (st', d') ∈ ps → st_id st' ≠ st_id st).
  { intros st' d' Hin E. apply Hn. rewrite <- E. apply list_elem_of_fmap. by exists (st', d'). }
  destruct (action d) eqn:Ea.
  1,2: eapply wp_mono; [apply (IH w); [done|done|intros st' d' Hin; apply Hps; by right]|]; cbn beta; intros r w' (-> & s' & Hch & C1 & C2 & C3 & C4 & C5 & C6 & C7);
    (split; [done|]; exists s'; split; [done|]; split_and!; try done;
      [ intros st' d' Hin Ha; apply elem_of_cons in Hin as [[= -> ->]|Hin]; [congruence|by apply C5]
      | intros o Hno; apply C6; intros (st' & d' & Hin & Ha & E); apply Hno; exists st', d'; split; [by right|done]
      | cbn [existsb]; unfold is_apply at 1; cbn [snd]; rewrite Ea; exact C7 ]).
  destruct (Hps st d ltac:(by left) Ea) as (oi & Eoi & Hr & Hb). rewrite Eoi. apply wp_bind.
  eapply wp_mono; [by apply (wp_apply_desired w st oi d)|]. cbn beta. intros r w1 (-> & c & Hf & Hch1). fold s in Hf, Hch1.
  set (s1 := relit c (st_id st) (d_mode d) (d_x d) (d_y d) s) in *. assert (Es1 : server w1 = s1) by (by rewrite Hch1).
  destruct (Hr) as (out & mi & Eo & Hcon & Hcr & Hm & Hmo & Emi & Hsc).
  assert (Hok1 : server_ok s1) by (apply relit_ok; [done|done|by eapply find_output_id|done|by eapply ready_fits]).
  assert (Hh1 : same_hardware s s1) by (by split_and!).
  eapply wp_mono.
  { replace (s_ts (server w)) with (s_ts (server w1)) by (by rewrite Es1). cbn [fst snd]. apply (IH w1); rewrite ?Es1; [done|done|]. intros st' d' Hin Ha.
    destruct (Hps st' d' ltac:(by right) Ha) as (oi' & Eoi' & Hr' & Hb'). exists oi'. split_and!; [done|by apply (ready_same s s1)|].
    rewrite Hb'. symmetry. apply relit_others; [done|done|]. by apply (Hrest st' d'). }
  cbn beta. intros r w2 (-> & s' & Hch2 & C1 & C2 & C3 & C4 & C5 & C6 & C7). rewrite Es1 in *. split; [done|]. exists s'.
  assert (Hst : ¬ applied ps (st_id st)) by (intros (st' & d' & Hin & _ & E); by apply (Hrest st' d')).
  split; [unfold changed in *; rewrite Hch2, Hch1; done|]. split_and!; [done|by eapply same_hardware_trans|by rewrite C3|by rewrite C4|..].
  - intros st' d' Hin Ha. apply elem_of_cons in Hin as [[= -> ->]|Hin]; [|by apply C5]. apply C6; [done|]. apply relit_shows.
  - intros o Hno. assert (Hne : o ≠ st_id st) by (intros ->; apply Hno; exists st, d; split; [by left|done]).
    destruct (C6 o) as [D1 D2]; [intros (st' & d' & Hin & Ha & E); apply Hno; exists st', d'; split; [by right|done]|]. split.
    + intros v Hv. apply D1. by apply relit_shows_others.
    + rewrite D2. by apply relit_others.
  - cbn [existsb]. unfold is_apply at 1. cbn [snd]. by rewrite bool_decide_eq_true_2.
Qed.

(** ** What is wanted *)

Definition wish_for (t : option toml_table) (out : Output) : wish := wish_of t (cstr (take 63 (out_name out))).
Definition ideal_for (s : Server) (t : option toml_table) (o : Z) (out : Output) : desired_state_t :=
  ideal (output_info o s out) (modes s) (wish_for t out).

(** The mode and place the configuration asks for, if the output can be lit. *)
Definition want (s : Server) (t : option toml_table) (o : Z) : option (Z * Z * Z) :=
  match find_output o s with
  | Some out =>
    if out_connected out && w_enabled (wish_for t out) then
      let d := ideal_for s t o out in
      match action d with PLAN_APPLY => Some (d_mode d, d_x d, d_y d) | _ => None end
    else None
  | None => None
  end.

Definition switched_off (s : Server) (t : option toml_table) (o : Z) : bool :=
  match find_output o s with Some out => out_connected out && negb (w_enabled (wish_for t out)) | None => false end.

(** The outputs are as the configuration wants them. *)
Definition settled (s : Server) (t : option toml_table) : Prop :=
  ∀ o, (∀ v, want s t o = Some v → shows s o v) ∧ (switched_off s t o = true → dark s o).

(** What is wanted has a place on a screen. *)
Definition placed (s : Server) (t : option toml_table) : Prop :=
  ∀ o m x y mi, want s t o = Some (m, x, y) → find_mode m s = Some mi →
    0 ≤ x ∧ 0 ≤ y ∧ x + m_width mi < 2 ^ 16 ∧ y + m_height mi < 2 ^ 16.

Lemma observed_known s o out : find_output o s = Some out →
  st_id (observed s o) = o ∧ st_oi (observed s o) = Some (output_info o s out) ∧ st_connected (observed s o) = out_connected out ∧
  st_name (observed s o) = cstr (take 63 (out_name out)) ∧ bound_crtc (observed s o) = crtc_of o s.
Proof. intros Eo. unfold observed. rewrite Eo. by destruct (_ ≫= _) as [[u mi]|]. Qed.
Lemma observed_id s o : st_id (observed s o) = o.
Proof. unfold observed. destruct (find_output o s); [|done]. by destruct (_ ≫= _) as [[u mi]|]. Qed.

(** The plan for an output: nothing, or the ideal, with a note whether it is shown. *)
Lemma planned_cases s t o :
  let d := planned s t (observed s o) in
  match want s t o with
  | None => action d = PLAN_SKIP
  | Some v =>
    action d = (if at_wish (observed s o) d then PLAN_KEEP else PLAN_APPLY) ∧ v = (d_mode d, d_x d, d_y d) ∧ d_mode d ≠ NONE ∧
    ∃ out mi, find_output o s = Some out ∧ out_connected out = true ∧ d_mode d ∈ out_modes out ∧ mi ∈ modes s ∧
      m_id mi = d_mode d ∧ m_width mi = d_w d ∧ m_height mi = d_h d
  end.
Proof.
  unfold planned, want. destruct (find_output o s) as [out|] eqn:Eo; [|unfold observed; by rewrite Eo].
  destruct (observed_known s o out Eo) as (E1 & E2 & E3 & E4 & _). rewrite E2, E3, E4. fold (wish_for t out).
  destruct (out_connected out && w_enabled (wish_for t out)) eqn:Ew; [|done]. rewrite plan_for_ideal. fold (ideal_for s t o out).
  destruct (ideal_cases (output_info o s out) (modes s) (wish_for t out)) as [Ea|(Ea & Hm & Hmo & mi & Hmi & Em & Emw & Emh)]; fold (ideal_for s t o out) in *; rewrite Ea; [done|].
  cbn. split; [done|]. split; [done|]. split; [done|]. exists out, mi. apply andb_prop in Ew as [Hcon _]. done.
Qed.

Lemma want_in s t o v : want s t o = Some v → o ∈ map fst (outputs s).
Proof. unfold want. destruct (find_output o s) as [out|] eqn:Eo; [|done]. intros _. by eapply find_output_id. Qed.

(** Wants and wishes depend on the hardware only. *)
Lemma ideal_for_same s s' t o out : same_hardware s s' → ideal_for s' t o out = ideal_for s t o out.
Proof. intros (_ & _ & E & _). unfold ideal_for. rewrite E. done. Qed.
Lemma want_same s s' t o : same_hardware s s' → want s' t o = want s t o.
Proof.
  intros Hh. pose proof Hh as (E & _). unfold want. rewrite (find_output_same s s') by done. destruct (find_output o s) as [out|]; [|done].
  by rewrite (ideal_for_same s s').
Qed.
Lemma switched_off_same s s' t o : same_hardware s s' → switched_off s' t o = switched_off s t o.
Proof. intros (E & _). unfold switched_off. by rewrite (find_output_same s s'). Qed.

Lemma planned_same s s' t o : same_hardware s s' →
  (action (planned s' t (observed s' o)) = PLAN_SKIP ↔ action (planned s t (observed s o)) = PLAN_SKIP) ∧
  is_primary (planned s' t (observed s' o)) = is_primary (planned s t (observed s o)).
Proof.
  intros Hh. split.
  - pose proof (planned_cases s t o) as P. pose proof (planned_cases s' t o) as P'. cbn zeta in *. rewrite (want_same s s') in P' by done.
    destruct (want s t o); [|by rewrite P, P']. destruct P as [-> _], P' as [-> _]. by do 2 destruct (at_wish _ _).
  - pose proof Hh as (E & _). unfold planned. destruct (find_output o s) as [out|] eqn:Eo.
    + destruct (observed_known s o out Eo) as (_ & E2 & E3 & E4 & _). destruct (observed_known s' o out) as (_ & F2 & F3 & F4 & _); [by rewrite (find_output_same s s')|].
      rewrite E2, E3, E4, F2, F3, F4. destruct (_ && _); [|done]. rewrite !plan_for_ideal. fold (wish_for t out).
      fold (ideal_for s t o out) (ideal_for s' t o out). rewrite (ideal_for_same s s') by done. by destruct (action (ideal_for s t o out)).
    + unfold observed. by rewrite (find_output_same s s'), Eo.
Qed.

Lemma lit_map {A} (f g : A → output_state_t * desired_state_t) l a b :
  (∀ x, st_id (fst (f x)) = st_id (fst (g x)) ∧ (action (snd (f x)) = PLAN_SKIP ↔ action (snd (g x)) = PLAN_SKIP) ∧
     is_primary (snd (f x)) = is_primary (snd (g x))) →
  lit (map f l) a b = lit (map g l) a b.
Proof.
  intros Hfg. revert a b. induction l as [|x l IH]; intros a b; cbn [map lit]; [done|]. destruct (Hfg x) as (E1 & E2 & E3).
  destruct (f x) as [st d], (g x) as [st' d']. cbn in *. rewrite E1, E3. destruct (action d), (action d'); try done; by destruct E2 as [E2 E2']; (discriminate E2 || discriminate E2' || (by specialize (E2 eq_refl)) || (by specialize (E2' eq_refl))).
Qed.
Lemma lit_same s s' t a b : same_hardware s s' → lit (plans s' t) a b = lit (plans s t) a b.
Proof.
  intros Hh. pose proof Hh as (E & _). unfold plans. rewrite E. apply lit_map. intros o. cbn. rewrite !observed_id. split; [done|]. by apply planned_same.
Qed.

(** ** The plans are carried out *)

Lemma plans_ids s t : map (fun p => st_id (fst p)) (plans s t) = map fst (outputs s).
Proof. unfold plans. rewrite map_map. cbn. rewrite <- (map_id (map fst (outputs s))) at 2. apply map_ext. intros o. apply observed_id. Qed.

Lemma find_mode_id s m mi : find_mode m s = Some mi → m_id mi = m.
Proof. unfold find_mode. intros E. apply List.find_some in E as [_ E]. by apply Z.eqb_eq. Qed.

Lemma plan_shown s t o v : server_ok s → want s t o = Some v → action (planned s t (observed s o)) ≠ PLAN_APPLY → shows s o v.
Proof.
  intros Hok Hw Ha. pose proof (planned_cases s t o) as P. cbn zeta in P. rewrite Hw in P. destruct P as (E & -> & _).
  destruct (at_wish _ _) eqn:Eat; [|congruence]. by apply (at_wish_shows s o).
Qed.
Lemma shown_keeps s t o v : server_ok s → want s t o = Some v → shows s o v → action (planned s t (observed s o)) = PLAN_KEEP.
Proof.
  intros Hok Hw Hs. pose proof (planned_cases s t o) as P. cbn zeta in P. rewrite Hw in P. destruct P as (E & -> & _ & out & mi & Eo & _ & _ & Hmi & Em & Ew & Eh).
  rewrite E. erewrite shows_at_wish; [done|done|exact Eo|exact Hs| |done|done]. rewrite <- Em. apply find_mode_in; [apply Hok|done].
Qed.

(** Where a plan reaches. *)
Lemma plan_extent s t o e :
  server_ok s → placed s t → small (fst (screen s)) → small (snd (screen s)) →
  extent (observed s o) (planned s t (observed s o)) = Some e → fst e < 2 ^ 16 ∧ snd e < 2 ^ 16.
Proof.
  intros Hok Hpl S1 S2 He. pose proof (planned_cases s t o) as P. cbn zeta in P. unfold extent in He.
  destruct (want s t o) as [v|] eqn:Hw; [|by rewrite P in He]. destruct P as (E & -> & _ & out & mi & Eo & _ & _ & Hmi & Em & Ew & Eh).
  assert (Efm : find_mode (d_mode (planned s t (observed s o))) s = Some mi) by (rewrite <- Em; apply find_mode_in; [apply Hok|done]).
  destruct (Hpl o _ _ _ mi Hw Efm) as (P1 & P2 & P3 & P4). rewrite Ew in P3. rewrite Eh in P4.
  rewrite E in He. destruct (at_wish _ _) eqn:Eat; injection He as <-; cbn; [|done].
  unfold at_wish in Eat. rewrite !andb_true_iff, !Z.eqb_eq in Eat. destruct Eat as (((((_ & _) & ->) & ->) & ->) & ->). done.
Qed.

Lemma wp_carry scr h t w n :
  let s := server w in
  server_ok s → placed s t → small (fst (screen s)) → small (snd (screen s)) →
  0 ≤ n → conf_ok (spare + n + Z.of_nat (length (outputs s))) (confs w) → names (confs w) h t (n + Z.of_nat (length (outputs s))) →
  wp no_fault
    (ps ← observe_and_plan h (mkResources (s_ts s) (map fst (outputs s)) (crtc_ids s) (modes s));
     grow_screen scr ps;; apply_plans ps (s_ts s) NONE NONE)
    (fun r w' => r = lit (plans s t) NONE NONE ∧ conf_ok (spare + n) (confs w') ∧ ∃ s', w' = w <| server := s' |> <| confs := confs w' |> <| calls := calls w' |> ∧
       server_ok s' ∧ same_hardware s s' ∧ primary s' = primary s ∧ small (fst (screen s')) ∧ small (snd (screen s')) ∧
       (∀ o v, want s t o = Some v → shows s' o v) ∧ (∀ o, want s t o = None → crtc_of o s' = crtc_of o s) ∧
       (existsb is_apply (plans s t) = false → s' = s)) w.
Proof.
  intros s Hok Hpl S1 S2 Hn Hc Hnm. apply wp_bind. eapply wp_mono; [by apply (wp_observe_and_plan w h t n)|]. cbn beta. intros ps w1 [-> (E1 & Hc1 & _)].
  fold s. assert (Es1 : server w1 = s) by (by rewrite E1). apply wp_bind.
  eapply wp_mono.
  { apply (wp_grow scr (plans s t) w1); rewrite ?Es1; try done. intros st d e (o & _ & -> & ->)%plan_in. by apply plan_extent. }
  cbn beta. rewrite Es1. intros _ w2 (s2 & Hch2 & (G1 & G2 & G3 & G4 & G5 & G6) & G7 & G8).
  assert (Es2 : server w2 = s2) by (by rewrite Hch2). pose proof G2 as (GO & GC & GM & GT & _).
  assert (Hcrtc : ∀ o, crtc_of o s2 = crtc_of o s).
  { intros o. unfold crtc_of. rewrite GC. f_equal. apply drives_ext. intros c. unfold drives. by rewrite G3. }
  eapply wp_mono.
  { replace (s_ts s) with (s_ts (server w2)) by (by rewrite Es2). apply (wp_apply_plans (plans s t) w2); rewrite ?Es2; [done|rewrite plans_ids; apply Hok|].
    intros st d (o & Ho & -> & ->)%plan_in Ha. pose proof (planned_cases s t o) as P. cbn zeta in P.
    destruct (want s t o) as [v|] eqn:Hw; [|congruence]. destruct P as (_ & -> & Hm & out & mi & Eo & Hcon & Hmo & Hmi & Em & Ew & Eh).
    assert (Efm : find_mode (d_mode (planned s t (observed s o))) s = Some mi) by (rewrite <- Em; apply find_mode_in; [apply Hok|done]).
    destruct (observed_known s o out Eo) as (F1 & F2 & _ & _ & F5). exists (output_info o s out). rewrite F1, F2, F5, Hcrtc. split_and!; [done| |done].
    exists out, mi. rewrite (find_output_same s s2), (find_mode_same s s2) by done. split_and!; try done.
    destruct (Hpl o _ _ _ mi Hw Efm) as (P1 & P2 & P3 & P4). destruct (G8 (observed s o) (planned s t (observed s o)) (d_x (planned s t (observed s o)) + d_w (planned s t (observed s o)), d_y (planned s t (observed s o)) + d_h (planned s t (observed s o)))) as [B1 B2].
    { unfold plans. apply list_elem_of_fmap. by exists o. } { done. } { unfold extent. by rewrite Ha. }
    cbn in B1, B2. unfold on_screen. rewrite Ew, Eh. rewrite !andb_true_iff, !Z.leb_le. done. }
  cbn beta. rewrite Es2. intros r w3 (-> & s3 & Hch3 & C1 & C2 & C3 & C4 & C5 & C6 & C7).
  split; [done|]. split; [unfold changed in *; rewrite Hch3, Hch2; done|]. exists s3.
  assert (Happ : ∀ o, applied (plans s t) o → want s t o ≠ None).
  { intros o (st & d & Hin & Ha & Ho) Hw. apply plan_in in Hin as (o' & Ho' & -> & ->). rewrite observed_id in Ho. subst o'.
    pose proof (planned_cases s t o) as P. cbn zeta in P. rewrite Hw in P. congruence. }
  split_and!; [|done|by eapply same_hardware_trans|by rewrite C4, G4|by rewrite C3|by rewrite C3|..].
  - unfold changed in *. rewrite Hch3, Hch2, E1. done.
  - intros o v Hw. destruct (decide (action (planned s t (observed s o)) = PLAN_APPLY)) as [Ha|Ha].
    + pose proof (planned_cases s t o) as P. cbn zeta in P. rewrite Hw in P. destruct P as (_ & -> & _).
      assert (Hin : (observed s o, planned s t (observed s o)) ∈ plans s t) by (unfold plans; apply list_elem_of_fmap; exists o; split; [done|by eapply want_in]).
      specialize (C5 _ _ Hin Ha). by rewrite observed_id in C5.
    + apply C6.
      * intros (st & d & Hin & Ha' & Ho). apply plan_in in Hin as (o' & Ho' & -> & ->). rewrite observed_id in Ho. by subst o'.
      * destruct (plan_shown s t o v Hok Hw Ha) as [c Hc']. exists c. by rewrite G3.
  - intros o Hw. destruct (C6 o) as [_ ->]; [|by rewrite Hcrtc]. intros Ha. by apply (Happ o Ha).
  - intros Hno. rewrite C7 by done. by apply G7.
Qed.

(** ** Switching off *)

Definition short_names (s : Server) : Prop := ∀ o out, find_output o s = Some out → (length (out_name out) ≤ 63)%nat.
Lemma short_names_same s s' : same_hardware s s' → short_names s → short_names s'.
Proof. intros (E & _) Hs o out. rewrite (find_output_same s s') by done. apply Hs. Qed.

Lemma set_crtc_off s c : c ∈ crtc_ids s → set_crtc c (s_ts s) 0 0 NONE [] s = (Some SUCCESS, unlit c s).
Proof. intros Hc. unfold set_crtc. rewrite Z.eqb_refl, (existsb_in c) by done. done. Qed.
Lemma crtc_of_id o s : server_ok s → crtc_of o s ≠ NONE → crtc_of o s ∈ crtc_ids s.
Proof. intros Hok Hn. destruct (crtc_of_some o s Hok Hn) as (u & Hu & _). by destruct (ok_uses _ Hok _ _ Hu). Qed.

Lemma wp_switch_off c w : c ∈ crtc_ids (server w) → wp no_fault (switch_off c (s_ts (server w))) (fun _ w' => changed w w' (unlit c (server w))) w.
Proof.
  intros Hc. apply wp_bind. apply (wp_xcall no_fault (SetCrtcConfig _ _ _ _ _ _)). cbn [x_ randr]. rewrite set_crtc_off by done. by apply wp_ret.
Qed.

(** An output that is on is switched off if [p] says so. *)
Definition off_one (p : Z → bool) (s : Server) (o : Z) : Server := if p o && negb (crtc_of o s =? NONE) then unlit (crtc_of o s) s else s.

(** What switching off makes of a server. *)
Definition offed (p : Z → bool) (l : list Z) (s s' : Server) : Prop :=
  server_ok s' ∧ same_hardware s s' ∧ screen s' = screen s ∧ primary s' = primary s ∧
  (∀ o, o ∈ l → p o = true → dark s' o) ∧ (∀ o, dark s o → dark s' o) ∧ (∀ o, p o = false → crtc_of o s' = crtc_of o s) ∧
  ((∀ o, o ∈ l → p o = true → dark s o) → s' = s).

Lemma off_one_offed p s o : server_ok s → offed p [o] s (off_one p s o).
Proof.
  intros Hok. unfold off_one. destruct (p o) eqn:Ep, (Z.eqb_spec (crtc_of o s) NONE) as [En|En]; cbn [negb andb].
  2: { split_and!; try done; [by apply unlit_ok|..].
       - intros o' ->%list_elem_of_singleton _. by apply unlit_dark.
       - intros o' Hd. unfold dark. rewrite <- Hd. apply (unlit_others s _ o); [done|done|done|]. by intros ->.
       - intros o' Ho'. apply (unlit_others s _ o); [done|done|done|]. intros ->. congruence.
       - intros Hall. destruct En. apply Hall; [by left|done]. }
  all: split_and!; try done; intros o' ->%list_elem_of_singleton; (done || congruence).
Qed.

Lemma offed_all p l : ∀ s, server_ok s → offed p l s (fold_left (off_one p) l s).
Proof.
  induction l as [|o l IH]; intros s Hok; cbn [fold_left]; [split_and!; try done; intros o Hin; by apply not_elem_of_nil in Hin|].
  destruct (off_one_offed p s o Hok) as (A1 & A2 & A3 & A4 & A5 & A6 & A7 & A8). destruct (IH _ A1) as (B1 & B2 & B3 & B4 & B5 & B6 & B7 & B8).
  split_and!; [done|by eapply same_hardware_trans|congruence|congruence|..].
  - intros o' Hin Ho'. apply elem_of_cons in Hin as [->|Hin]; [apply B6, A5; [by left|done]|by apply B5].
  - intros o' Hd. by apply B6, A6.
  - intros o' Ho'. by rewrite B7, A7.
  - intros Hall. assert (E : off_one p s o = s) by (apply A8; intros o' ->%list_elem_of_singleton; apply Hall; by left).
    rewrite E in *. apply B8. intros o' Hin. apply Hall. by right.
Qed.

Lemma wp_off_one h t o w n :
  let s := server w in
  server_ok s → short_names s → 0 ≤ n → conf_ok (spare + n + 1) (confs w) → names (confs w) h t (n + 1) →
  wp no_fault (switch_off_unwanted h (s_ts s) o)
    (fun _ w' => conf_ok (spare + n) (confs w') ∧ names (confs w') h t n ∧
       w' = w <| server := off_one (switched_off s t) s o |> <| confs := confs w' |> <| calls := calls w' |>) w.
Proof.
  intros s Hok Hsh Hn Hc Hnm. assert (Hc0 : conf_ok (spare + n) (confs w)) by (eapply conf_ok_weaken; [|exact Hc]; lia).
  assert (Hnm0 : names (confs w) h t n) by (eapply names_weaken; [|exact Hnm]; lia).
  unfold switch_off_unwanted, off_one, switched_off. apply wp_bind. apply (wp_query no_fault (GetOutputInfo o (s_ts s)) _ w); [apply same_refl|done|].
  intros w1 Hs1. cbn [x_ randr fst]. fold s. assert (E1 : confs w1 = confs w) by (by rewrite Hs1).
  assert (Hstay : wp no_fault (mret false) (fun (_ : bool) w' => conf_ok (spare + n) (confs w') ∧ names (confs w') h t n ∧
       w' = w <| server := s |> <| confs := confs w' |> <| calls := calls w' |>) w1).
  { apply wp_ret. rewrite E1. split_and!; try done; rewrite Hs1; by destruct w. }
  destruct (find_output o s) as [out|] eqn:Eo; [|exact Hstay]. cbn [fmap option_fmap option_map]. rewrite is_connected_info.
  destruct (out_connected out); cbn [negb andb]; [|exact Hstay]. apply wp_bind, wp_on_conf. rewrite E1.
  eapply wp_mono; [apply (wp_lookup (confs w) h t (n + 1) _ (spare + n)); [lia|lia|done|done]|]. cbn beta. intros mon c' (Hm & Hc' & Ha).
  unfold wish_for, wish_of. assert (Ename : cstr (take 63 (out_name out)) = cstr (o_name (output_info o s out))) by (cbn; f_equal; apply take_ge, (Hsh o out Eo)).
  rewrite Ename. assert (Hn' : names c' h t n) by (by apply (names_aged (confs w))).
  destruct (t ≫= _) as [m|]; cbn in Hm.
  2: { subst mon. apply wp_ret. cbn. split_and!; try done; rewrite Hs1; by destruct w. }
  destruct mon as [i|]; [|by destruct Hm as (j & ? & _)]. apply wp_bind, wp_on_conf.
  eapply wp_mono; [apply (wp_handle_get c' (Some i) m 0); [lia|eapply lives_weaken; [|exact Hm]; lia]|]. cbn beta. intros e ? [-> ->].
  destruct (default 1 (toml_bool_in m (str "enabled")) =? 0); cbn [andb negb w_enabled].
  2: { apply wp_ret. cbn. split_and!; try done; rewrite Hs1; by destruct w. }
  cbn [o_crtc output_info]. destruct (Z.eqb_spec (crtc_of o s) NONE) as [En|En]; cbn [negb].
  { apply wp_ret. cbn. split_and!; try done; rewrite Hs1; by destruct w. }
  apply wp_bind. set (w2 := _ <| confs := c' |>). assert (E2 : server w2 = s) by (unfold w2; cbn; by rewrite Hs1).
  eapply wp_mono; [replace (s_ts s) with (s_ts (server w2)) by (by rewrite E2); apply wp_switch_off; rewrite E2; by apply crtc_of_id|].
  cbn beta. rewrite E2. intros _ w3 Hch. apply wp_ret. unfold changed in Hch. rewrite Hch. cbn. split_and!; try done; unfold w2; by rewrite Hs1.
Qed.

Lemma wp_phase0 h t p l : ∀ w n,
  let s := server w in
  server_ok s → short_names s → (∀ o, p o = switched_off s t o) → 0 ≤ n →
  conf_ok (spare + n + Z.of_nat (length l)) (confs w) → names (confs w) h t (n + Z.of_nat (length l)) →
  wp no_fault (collect (switch_off_unwanted h (s_ts s)) l)
    (fun _ w' => conf_ok (spare + n) (confs w') ∧ names (confs w') h t n ∧
       w' = w <| server := fold_left (off_one p) l s |> <| confs := confs w' |> <| calls := calls w' |>) w.
Proof.
  induction l as [|o l IH]; intros w n s Hok Hsh Hp Hn Hc Hnm; cbn [collect length fold_left] in *.
  { apply wp_ret. split; [eapply conf_ok_weaken; [|exact Hc]; lia|]. split; [eapply names_weaken; [|exact Hnm]; lia|]. by destruct w. }
  apply wp_bind. set (n' := n + Z.of_nat (length l)).
  replace (spare + n + Z.of_nat (S (length l))) with (spare + n' + 1) in * by lia. replace (n + Z.of_nat (S (length l))) with (n' + 1) in * by lia.
  eapply wp_mono; [apply (wp_off_one h t o w n'); [done|done|lia|done|done]|]. cbn beta. intros b w1 (Hc1 & Hn1 & E1). fold s in E1.
  assert (Eo : off_one (switched_off s t) s o = off_one p s o) by (unfold off_one; by rewrite Hp). rewrite Eo in E1.
  destruct (off_one_offed p s o Hok) as (Hok1 & Hh1 & _). assert (Es1 : server w1 = off_one p s o) by (by rewrite E1).
  apply wp_bind. eapply wp_mono.
  { replace (s_ts s) with (s_ts (server w1)) by (rewrite Es1; by destruct Hh1 as (_ & _ & _ & -> & _)).
    apply (IH w1 n); rewrite ?Es1; [done|by eapply short_names_same|intros o'; by rewrite Hp, (switched_off_same s (off_one p s o))|done|by rewrite <- Z.add_assoc|done]. }
  cbn beta. rewrite Es1. intros offs w2 (Hc2 & Hn2 & E2). apply wp_ret. split; [done|]. split; [done|]. rewrite E2, E1. done.
Qed.

(** ** The profile for the monitors *)

Definition edid_hash (edid : list Z) : option text := if (length edid <? 16)%nat then None else Some (concat (map hex_byte (take 16 edid))).
Definition hash_of (out : Output) : option text := if out_connected out then edid_hash (out_edid out) else None.
Definition monitors (s : Server) : list text := omap hash_of (map snd (outputs s)).

Definition display_of (s : Server) : option toml_table := config s ≫= (fun t => toml_table_in t (str "display")).
Definition table_for (s : Server) : option toml_table :=
  display_of s ≫= (fun disp => key_of (monitors s) ≫= profile_in disp).
Lemma table_for_same s s' : same_hardware s s' → table_for s' = table_for s.
Proof. intros (E1 & _ & _ & _ & E2). unfold table_for, display_of, monitors. by rewrite E1, E2. Qed.

Definition hash_at (s : Server) (o : Z) : option text := find_output o s ≫= hash_of.

Lemma wp_output_hash ts o w0 w : same w0 w →
  wp no_fault (output_hash ts o) (fun r w' => r = hash_at (server w0) o ∧ same w0 w') w.
Proof.
  intros Hs. apply wp_bind. apply (wp_query no_fault (GetOutputInfo o ts) _ w0); [done|done|]. intros w1 Hs1. cbn [x_ randr fst].
  unfold hash_at. destruct (find_output o (server w0)) as [out|] eqn:Eo; [|by apply wp_ret]. cbn [fmap option_fmap option_map mbind option_bind]. rewrite is_connected_info.
  unfold hash_of. destruct (out_connected out); [|by apply wp_ret]. unfold isde_randr_read_edid_hash.
  apply wp_bind. apply (wp_query no_fault (InternAtom _) _ w0); [done|done|]. intros w2 Hs2. cbn [x_ randr fst]. change (EDID =? NONE) with false. cbn iota.
  apply wp_bind. apply (wp_query no_fault (GetOutputProperty o EDID) _ w0); [done|done|]. intros w3 Hs3. cbn [x_ randr fst]. rewrite Eo. cbn [fmap option_fmap option_map].
  unfold edid_hash. destruct (length (out_edid out) <? 16)%nat; by apply wp_ret.
Qed.

Lemma hash_at_all s : server_ok s → somes (map (hash_at s) (map fst (outputs s))) = monitors s.
Proof.
  intros Hok. unfold somes, monitors. assert (Hall : ∀ p, p ∈ outputs s → hash_at s (fst p) = hash_of (snd p)).
  { intros [o out] Hin. cbn. pose proof (ok_outputs _ Hok) as Hd. unfold hash_at, find_output. revert Hd Hin. generalize (outputs s) as l.
    induction l as [|[o' out'] l IH]; intros Hd Hin; [by apply not_elem_of_nil in Hin|]. cbn in *. apply NoDup_cons in Hd as [Hn Hd].
    apply elem_of_cons in Hin as [[= -> ->]|Hin]; [by rewrite Z.eqb_refl|]. destruct (Z.eqb_spec o' o) as [->|_]; [|by apply IH].
    exfalso. apply Hn. apply list_elem_of_fmap. by exists (o, out). }
  revert Hall. generalize (outputs s) as l. induction l as [|[o out] l IH]; intros Hall; [done|]. cbn [map omap list_omap fst snd].
  pose proof (Hall (o, out) ltac:(by left)) as E. cbn [fst snd] in E. rewrite E. cbn [id]. destruct (hash_of out); rewrite IH by (intros p Hp; apply Hall; by right); done.
Qed.

Lemma wp_build_key w0 w : server_ok (server w0) → same w0 w →
  wp no_fault build_profile_key (fun key w' => key = key_of (monitors (server w0)) ∧ same w0 w') w.
Proof.
  intros Hok Hs. apply wp_bind. apply (wp_query no_fault (GetScreenResources true) _ w0); [done|done|]. intros w1 Hs1. cbn [x_ randr fst config_timestamp res_outputs].
  apply wp_bind. eapply wp_mono; [apply (wp_collect_same no_fault _ (hash_at (server w0)) w0); [intros o w2 _; apply wp_output_hash|done]|].
  cbn beta. intros hs w2 [-> Hs2]. apply wp_ret. by rewrite hash_at_all.
Qed.

(** ** The whole configuration *)

(** The output that becomes the primary one. *)
Definition chosen (s : Server) (t : option toml_table) : Z :=
  let '(first, prim) := lit (plans s t) NONE NONE in
  match t with Some _ => if negb (prim =? NONE) then prim else first | None => first end.
Definition any_lit (s : Server) (t : option toml_table) : bool := negb (fst (lit (plans s t) NONE NONE) =? NONE).

Lemma chosen_same s s' t : same_hardware s s' → chosen s' t = chosen s t.
Proof. intros Hh. unfold chosen. by rewrite (lit_same s s'). Qed.

(** What [k] more configurations need. *)
Definition budget (k : Z) (w : World Server) : Prop := conf_ok (100 * k) (confs w).

Record ready_server (s : Server) : Prop := {
  rd_ok : server_ok s;
  rd_names : short_names s;
  rd_few : (length (outputs s) ≤ 31)%nat;
  rd_placed : placed s (table_for s);
  rd_width : small (fst (screen s));
  rd_height : small (snd (screen s)) }.

Lemma placed_same s s' t : same_hardware s s' → placed s t → placed s' t.
Proof.
  intros Hh Hp o m x y mi. rewrite (want_same s s') by done. pose proof Hh as (_ & _ & E & _). rewrite (find_mode_same s s') by done. apply Hp.
Qed.
Lemma ready_server_same s s' : same_hardware s s' → server_ok s' → small (fst (screen s')) → small (snd (screen s')) → ready_server s → ready_server s'.
Proof.
  intros Hh Hok S1 S2 Hr. split; [done|by eapply short_names_same, Hr|..|done|done].
  - destruct Hh as (-> & _). apply Hr.
  - rewrite (table_for_same s s') by done. eapply placed_same; [done|apply Hr].
Qed.

(** The screen is configured: the server is as the configuration wants it, the rest as it
    was. *)
Definition configured (s s' : Server) (t : option toml_table) : Prop :=
  ready_server s' ∧ same_hardware s s' ∧ settled s' t ∧ (chosen s t ≠ NONE → primary s' = chosen s t) ∧
  (∀ o, want s t o = None → switched_off s t o = false → crtc_of o s' = crtc_of o s) ∧
  (settled s t → (chosen s t ≠ NONE → primary s = chosen s t) → s' = s).

Lemma settled_no_apply s t : server_ok s → settled s t → existsb is_apply (plans s t) = false.
Proof.
  intros Hok Hs. apply not_true_iff_false. rewrite existsb_exists. intros ([st d] & Hin & Ha). apply bool_decide_eq_true in Ha. cbn in Ha.
  apply list_elem_of_In in Hin. apply plan_in in Hin as (o & Ho & -> & ->). pose proof (planned_cases s t o) as P. cbn zeta in P.
  destruct (want s t o) as [v|] eqn:Hw; [|congruence]. rewrite (shown_keeps s t o v) in Ha; [done|done|done|]. by apply Hs.
Qed.

Lemma set_primary_ok o s : server_ok s → server_ok (set_primary o s).
Proof. intros Hok. unfold set_primary. destruct (_ =? _); [done|]. split; apply Hok. Qed.
Lemma set_primary_hardware o s : same_hardware s (set_primary o s).
Proof. unfold set_primary. by destruct (_ =? _). Qed.
Lemma set_primary_uses o s : uses (set_primary o s) = uses s ∧ screen (set_primary o s) = screen s ∧ primary (set_primary o s) = o.
Proof. unfold set_primary. destruct (Z.eqb_spec (primary s) o); done. Qed.

Lemma crtc_of_uses s s' o : same_hardware s s' → uses s' = uses s → crtc_of o s' = crtc_of o s.
Proof. intros (_ & E & _) Hu. unfold crtc_of. rewrite E, (drives_ext s s') by (intros c; unfold drives; by rewrite Hu). done. Qed.

Lemma settled_uses s s' t : same_hardware s s' → uses s' = uses s → settled s t → settled s' t.
Proof.
  intros Hh Hu Hs o. rewrite (want_same s s'), (switched_off_same s s') by done. destruct (Hs o) as [S1 S2]. split.
  - intros v Hv. destruct (S1 v Hv) as [c Hc]. exists c. by rewrite Hu.
  - intros Ho. specialize (S2 Ho). unfold dark in *. by rewrite (crtc_of_uses s s').
Qed.

(** From a server that is as it was but for the outputs that were switched off. *)
Lemma wp_apply_here scr h t w n (prim : Z * Z → Z) :
  let s := server w in
  ready_server s → t = table_for s → (∀ o, switched_off s t o = true → dark s o) → prim (lit (plans s t) NONE NONE) = chosen s t →
  0 ≤ n → conf_ok (spare + n + Z.of_nat (length (outputs s))) (confs w) → names (confs w) h t (n + Z.of_nat (length (outputs s))) →
  wp no_fault
    (ps ← observe_and_plan h (mkResources (s_ts s) (map fst (outputs s)) (crtc_ids s) (modes s));
     grow_screen scr ps;; r ← apply_plans ps (s_ts s) NONE NONE;
     when (negb (prim r =? NONE)) (call (SetOutputPrimary (prim r));; skip);; mret (negb (fst r =? NONE)))
    (fun ok w' => ok = any_lit s t ∧ conf_ok (spare + n) (confs w') ∧ ∃ s', w' = w <| server := s' |> <| confs := confs w' |> <| calls := calls w' |> ∧ configured s s' t) w.
Proof.
  intros s Hr Ht Hoff Hprim Hn Hc Hnm. pose proof (wp_carry scr h t w n) as Hw. cbn zeta in Hw. fold s in Hw.
  specialize (Hw (rd_ok _ Hr) ltac:(rewrite Ht; apply Hr) (rd_width _ Hr) (rd_height _ Hr) Hn Hc Hnm).
  unfold wp in Hw |- *. unfold mbind, prog_bind in *. destruct (observe_and_plan _ _ _) as [ps w1|]; [|done]. destruct (grow_screen _ _ _) as [[] w2|]; [|done].
  destruct (apply_plans _ _ _ _ _) as [r w3|]; [|done]. destruct Hw as (-> & Hc3 & s3 & E3 & Hok3 & Hh3 & P3 & S1 & S2 & Hshow & Hcrtc & Hsame).
  rewrite Hprim. fold (any_lit s t). set (s' := if chosen s t =? NONE then s3 else set_primary (chosen s t) s3).
  assert (Hfinal : configured s s' t).
  { assert (Hset3 : settled s3 t).
    { intros o. rewrite (want_same s s3), (switched_off_same s s3) by done. split; [apply Hshow|]. intros Ho. unfold dark. rewrite Hcrtc; [by apply Hoff|].
      unfold want, switched_off in *. destruct (find_output o s) as [out|]; [|done]. apply andb_prop in Ho as [-> Ho]. apply negb_true_iff in Ho. by rewrite Ho. }
    assert (Hready3 : ready_server s3) by (by eapply ready_server_same).
    unfold s'. destruct (Z.eqb_spec (chosen s t) NONE) as [En|En].
    - split_and!; [done|done|done|done|by intros o Ho _; apply Hcrtc|]. intros Hset _. apply Hsame. apply settled_no_apply; [apply Hr|done].
    - destruct (set_primary_uses (chosen s t) s3) as (U1 & U2 & U3). split_and!; [|by eapply same_hardware_trans, set_primary_hardware|..].
      + eapply ready_server_same; [apply set_primary_hardware|by apply set_primary_ok|by rewrite U2|by rewrite U2|done].
      + eapply settled_uses; [apply set_primary_hardware|exact U1|done].
      + by intros _.
      + intros o Ho _. rewrite <- (Hcrtc o Ho). apply crtc_of_uses; [apply set_primary_hardware|exact U1].
      + intros Hset Hp. rewrite Hsame by (apply settled_no_apply; [apply Hr|done]). unfold set_primary. by rewrite Hp, Z.eqb_refl by done. }
  unfold s' in *. destruct (Z.eqb_spec (chosen s t) NONE) as [En|En]; cbn [negb when].
  - cbn. split; [done|]. split; [done|]. by exists s3.
  - unfold call, mret, prog_ret. cbn [x_ randr]. split; [done|]. split; [done|]. assert (server w3 = s3) as -> by (by rewrite E3).
    exists (set_primary (chosen s t) s3). split; [rewrite E3; done|done].
Qed.

Definition resources (s : Server) : Resources := mkResources (s_ts s) (map fst (outputs s)) (crtc_ids s) (modes s).
Lemma resources_same s s' : same_hardware s s' → resources s' = resources s.
Proof. intros (E1 & E2 & E3 & E4 & _). unfold resources. by rewrite E1, E2, E3, E4. Qed.

(** [w'] is [w] after the server went to a state of which [P] holds. *)
Definition went (w w' : World Server) (P : Server → Prop) : Prop :=
  ∃ s', w' = w <| server := s' |> <| confs := confs w' |> <| calls := calls w' |> ∧ P s'.

Lemma no_outputs_configured s t : ready_server s → outputs s = [] → any_lit s t = false ∧ configured s s t.
Proof.
  intros Hr Hn. assert (Hf : ∀ o, find_output o s = None) by (intros o; unfold find_output; by rewrite Hn).
  assert (Hp : plans s t = []) by (unfold plans; by rewrite Hn).
  split; [unfold any_lit; by rewrite Hp|]. split_and!; [done|apply same_hardware_refl|..|done|done].
  - intros o. unfold want, switched_off. by rewrite Hf.
  - intros Hc. destruct Hc. unfold chosen. rewrite Hp. by destruct t.
Qed.

Lemma wp_apply_profile scr h t w n :
  let s := server w in
  ready_server s → Some t = table_for s → (∀ o, switched_off s (Some t) o = true → dark s o) →
  0 ≤ n → conf_ok (spare + n + Z.of_nat (length (outputs s))) (confs w) → names (confs w) h (Some t) (n + Z.of_nat (length (outputs s))) →
  wp no_fault (apply_profile scr h (resources s))
    (fun ok w' => ok = any_lit s (Some t) ∧ conf_ok (spare + n) (confs w') ∧ went w w' (fun s' => configured s s' (Some t))) w.
Proof.
  intros s Hr Ht Hoff Hn Hc Hnm. unfold apply_profile. cbn [res_outputs resources].
  destruct (outputs s) as [|p l] eqn:Eo; cbn [map].
  { destruct (no_outputs_configured s (Some t) Hr Eo) as [E Hcf]. apply wp_ret. split; [by rewrite E|]. split; [eapply conf_ok_weaken; [|exact Hc]; cbn; lia|].
    exists s. split; [by destruct w|done]. }
  set (prim := fun r : Z * Z => if negb (snd r =? NONE) then snd r else fst r).
  pose proof (wp_apply_here scr h (Some t) w n prim) as Hw. cbn zeta in Hw. fold s in Hw. rewrite Eo in Hw.
  specialize (Hw Hr Ht Hoff). unfold chosen in Hw. destruct (lit (plans s (Some t)) NONE NONE) as [fi pr] eqn:El. specialize (Hw eq_refl Hn Hc Hnm).
  unfold wp in Hw |- *. unfold mbind, prog_bind in *. unfold resources. rewrite Eo. cbn [map fst config_timestamp].
  destruct (observe_and_plan _ _ _) as [ps w1|]; [|done]. destruct (grow_screen _ _ _) as [[] w2|]; [|done].
  destruct (apply_plans _ _ _ _ _) as [[r1 r2] w3|]; [|done]. cbn [fst snd] in *. exact Hw.
Qed.

Lemma wp_enable scr w n :
  let s := server w in
  ready_server s → table_for s = None → 0 ≤ n → conf_ok (spare + n + 5 + Z.of_nat (length (outputs s))) (confs w) →
  wp no_fault (enable_connected scr)
    (fun ok w' => ok = any_lit s None ∧ conf_ok (spare + n) (confs w') ∧ went w w' (fun s' => configured s s' None)) w.
Proof.
  intros s Hr Ht Hn Hc. unfold enable_connected. apply wp_bind. apply (wp_query no_fault (GetScreenResources false) _ w); [apply same_refl|done|].
  intros w1 Hs1. cbn [x_ randr fst]. fold s. apply wp_bind. eapply wp_mono; [apply (wp_build_key w); [apply Hr|done]|]. cbn beta. fold s. intros key w2 [-> Hs2].
  apply wp_bind. apply (wp_query no_fault LoadConfig _ w); [done|done|]. intros w3 Hs3. cbn [x_ randr fst]. fold s.
  set (m := Z.of_nat (length (outputs s))) in *. assert (Em : 0 ≤ m) by lia. assert (E3 : confs w3 = confs w) by (by rewrite Hs3).
  apply wp_bind. apply (wp_mono no_fault _ (fun (h : handle) w' => h = None ∧ conf_ok (spare + n + m) (confs w') ∧ w' = w <| confs := confs w' |> <| calls := calls w' |>)).
  { assert (Hskip : wp no_fault (mret (None : handle)) (fun (h : handle) w' => h = None ∧ conf_ok (spare + n + m) (confs w') ∧ w' = w <| confs := confs w' |> <| calls := calls w' |>) w3).
    { apply wp_ret. split; [done|]. split; [rewrite E3; eapply conf_ok_weaken; [|exact Hc]; lia|]. rewrite Hs3. by destruct w. }
    destruct (config s) as [cfg|] eqn:Ecfg; [|exact Hskip]. destruct (key_of (monitors s)) as [key|] eqn:Ekey; [|exact Hskip].
    apply wp_on_conf. rewrite E3. apply wp_bind. eapply wp_mono; [apply (wp_wrap cfg _ (spare + n + m + 4)); [lia|by replace (spare + n + m + 4 + 1) with (spare + n + 5 + m) by lia]|].
    cbn beta. intros root c1 (Hroot & Hc1 & _). apply wp_bind.
    eapply wp_mono; [apply (wp_lookup c1 root (Some cfg) 63 _ (spare + n + m + 3)); [lia|lia|done|by replace (spare + n + m + 3 + 1) with (spare + n + m + 4) by lia]|].
    cbn beta. intros disp c2 (Hd & Hc2 & _). change (Some cfg ≫= _) with (toml_table_in cfg (str "display")) in Hd.
    unfold table_for, display_of in Ht. rewrite Ecfg, Ekey in Ht. cbn [mbind option_bind] in Ht.
    destruct (toml_table_in cfg (str "display")) as [td|]; cbn [names] in Hd.
    2: { subst disp. apply wp_ret. split; [done|]. split; [eapply conf_ok_weaken; [|exact Hc2]; lia|]. rewrite Hs3. done. }
    destruct disp as [i|]; [|by destruct Hd as (j & ? & _)].
    eapply wp_mono; [apply (wp_profile_table c2 _ td key (spare + n + m)); [lia|eapply lives_weaken; [|exact Hd]; lia|done]|]. cbn beta.
    intros h c3 (Hh & Hc3). cbn [mbind option_bind] in Ht. rewrite Ht in Hh. cbn in Hh. split; [done|]. split; [done|]. rewrite Hs3. done. }
  cbn beta. intros h w4 (-> & Hc4 & E4). assert (Es4 : server w4 = s) by (by rewrite E4). cbn [res_outputs].
  destruct (outputs s) as [|p l] eqn:Eo; cbn [map].
  { destruct (no_outputs_configured s None Hr Eo) as [E Hcf]. apply wp_ret. split; [by rewrite E|]. split; [eapply conf_ok_weaken; [|exact Hc4]; lia|].
    exists s. split; [|done]. rewrite E4. by destruct w. }
  pose proof (wp_apply_here scr None None w4 n fst) as Hw. cbn zeta in Hw. rewrite Es4, Eo in Hw.
  specialize (Hw Hr ltac:(done)). unfold chosen in Hw.
  assert (Hoff : ∀ o, switched_off s None o = true → dark s o).
  { intros o. unfold switched_off, wish_for, wish_of. destruct (find_output o s) as [out|]; [|done]. cbn. by rewrite andb_false_r. }
  specialize (Hw Hoff). destruct (lit (plans s None) NONE NONE) as [fi pr] eqn:El. specialize (Hw eq_refl Hn Hc4 ltac:(done)). cbn [map] in Hw.
  eapply wp_mono; [exact Hw|]. cbn beta. intros ok w5 (-> & Hc5 & s' & E5 & Hcf). split; [done|]. split; [done|]. exists s'. split; [|done]. rewrite E5, E4. done.
Qed.

(** The profile is applied after what it switches off is dark. *)
Lemma configured_after s s1 s' t :
  same_hardware s s1 → (settled s t → s1 = s) → primary s1 = primary s → (∀ o, switched_off s t o = false → crtc_of o s1 = crtc_of o s) →
  configured s1 s' t → configured s s' t.
Proof.
  intros Hh Hback Hp Hcr (C1 & C2 & C3 & C4 & C5 & C6). rewrite (chosen_same s s1) in C4, C6 by done.
  split_and!; [done|by eapply same_hardware_trans|done|done|..].
  { intros o Hw Ho. rewrite <- (Hcr o Ho). apply C5; [by rewrite (want_same s s1)|by rewrite (switched_off_same s s1)]. }
  intros Hset Hpr. rewrite <- (Hback Hset). apply C6; rewrite (Hback Hset); done.
Qed.

Lemma wp_with_profile scr h t w n :
  let s := server w in
  ready_server s → Some t = table_for s → 0 ≤ n →
  conf_ok (spare + n + 2 * Z.of_nat (length (outputs s))) (confs w) → names (confs w) h (Some t) (n + 2 * Z.of_nat (length (outputs s))) →
  wp no_fault
    (res ← call (GetScreenResources true);
     match res : option Resources with
     | None => mret false
     | Some res =>
       offs ← collect (switch_off_unwanted h (config_timestamp res)) (res_outputs res);
       if existsb id offs then
         res2 ← call (GetScreenResources true);
         match res2 : option Resources with None => mret false | Some res2 => apply_profile scr h res2 end
       else apply_profile scr h res
     end)
    (fun ok w' => ok = any_lit s (Some t) ∧ conf_ok (spare + n) (confs w') ∧ went w w' (fun s' => configured s s' (Some t))) w.
Proof.
  intros s Hr Ht Hn Hc Hnm. set (m := Z.of_nat (length (outputs s))) in *. replace (n + 2 * m) with (n + m + m) in * by lia. replace (spare + n + 2 * m) with (spare + (n + m) + m) in * by lia.
  apply wp_bind. apply (wp_query no_fault (GetScreenResources true) _ w); [apply same_refl|done|]. intros w1 Hs1. cbn [x_ randr fst]. fold s. fold (resources s).
  assert (server w1 = s ∧ confs w1 = confs w) as [E1 E1'] by (by rewrite Hs1). apply wp_bind. cbn [config_timestamp resources res_outputs].
  assert (Em : m = Z.of_nat (length (map fst (outputs s)))) by (by rewrite length_map).
  eapply wp_mono.
  { replace (s_ts s) with (s_ts (server w1)) by (by rewrite E1).
    apply (wp_phase0 h (Some t) (switched_off s (Some t)) (map fst (outputs s)) w1 (n + m)); rewrite ?E1, ?E1', <- ?Em; [apply Hr|apply Hr|done|lia|done|done]. }
  cbn beta. rewrite E1. intros offs w2 (Hc2 & Hn2 & E2). rewrite Z.add_assoc in Hc2.
  destruct (offed_all (switched_off s (Some t)) (map fst (outputs s)) s (rd_ok _ Hr)) as (Hok2 & Hh2 & S2 & P2 & D2 & K2 & L2 & I2).
  set (s2 := fold_left _ _ _) in *. assert (Es2 : server w2 = s2) by (by rewrite E2).
  assert (Hr2 : ready_server s2) by (eapply ready_server_same; [done|done|rewrite S2; apply Hr|rewrite S2; apply Hr|done]).
  assert (Hlen : length (outputs s2) = length (outputs s)) by (by destruct Hh2 as (-> & _)).
  assert (Happ : ∀ w3, same w2 w3 →
    wp no_fault (apply_profile scr h (resources s2)) (fun ok w' => ok = any_lit s (Some t) ∧ conf_ok (spare + n) (confs w') ∧ went w w' (fun s' => configured s s' (Some t))) w3).
  { intros w3 Hs3. assert (server w3 = s2 ∧ confs w3 = confs w2) as [Es3 Ec3] by (by rewrite Hs3).
    pose proof (wp_apply_profile scr h t w3 n) as Hw. cbn zeta in Hw. rewrite Es3, Ec3, Hlen, (table_for_same s s2) in Hw by done.
    eapply wp_mono; [apply Hw; try done|].
    - intros o Ho. rewrite (switched_off_same s s2) in Ho by done. apply D2; [|done]. unfold switched_off in Ho. destruct (find_output o s) as [out|] eqn:Eo; [|done]. by eapply find_output_id.
    - cbn beta. intros ok w4 (-> & Hc4 & s4 & E4 & Hcf). split; [unfold any_lit; by rewrite (lit_same s s2)|]. split; [done|]. exists s4. split; [rewrite E4, Hs3, E2, Hs1; done|].
      apply (configured_after s s2); [done| |done|done|done]. intros Hset. apply I2. intros o _ Ho. by apply Hset. }
  fold (resources s). rewrite <- (resources_same s s2) by done. destruct (existsb id offs); [|by apply Happ, same_refl].
  apply wp_bind. apply (wp_query no_fault (GetScreenResources true) _ w2); [apply same_refl|done|]. intros w3 Hs3. cbn [x_ randr fst]. rewrite Es2. by apply Happ.
Qed.

End Room.

(** What [apply_config] makes of a server. *)
Definition config_result (s : Server) : bool := match display_of s with Some _ => any_lit s (table_for s) | None => false end.
Definition config_done (s s' : Server) : Prop := match display_of s with Some _ => configured s s' (table_for s) | None => s' = s end.

Lemma wp_apply_config scr w n :
  let s := server w in
  ready_server s → 0 ≤ n → conf_ok (n + 100) (confs w) →
  wp no_fault (apply_config scr)
    (fun ok w' => ok = config_result s ∧ conf_ok n (confs w') ∧ went w w' (config_done s)) w.
Proof.
  intros s Hr Hn Hc. pose proof (rd_few _ Hr) as Hfew. apply wp_bind. apply (wp_query no_fault LoadConfig _ w); [apply same_refl|done|]. intros w1 Hs1. cbn [x_ randr fst]. fold s.
  unfold config_result, config_done, display_of. destruct (config s) as [cfg|] eqn:Ecfg; cbn [mbind option_bind].
  2: { apply wp_ret. rewrite Hs1. split; [done|]. split; [eapply conf_ok_weaken; [|exact Hc]; lia|]. exists s. by destruct w. }
  apply wp_bind. eapply wp_mono; [apply (wp_build_key w); [apply Hr|done]|]. cbn beta. fold s. intros key w2 [-> Hs2]. assert (E2 : confs w2 = confs w) by (by rewrite Hs2).
  apply wp_bind, wp_on_conf. rewrite E2. eapply wp_mono; [apply (wp_wrap cfg _ (n + 99)); [lia|by replace (n + 99 + 1) with (n + 100) by lia]|].
  cbn beta. intros root c1 (Hroot & Hc1 & _). apply wp_bind, wp_on_conf.
  eapply wp_mono; [apply (wp_lookup c1 root (Some cfg) 63 _ (n + 98)); [lia|lia|done|by replace (n + 98 + 1) with (n + 99) by lia]|].
  cbn beta. intros disp c2 (Hd & Hc2 & _). change (Some cfg ≫= _) with (toml_table_in cfg (str "display")) in Hd.
  assert (Et : table_for s = toml_table_in cfg (str "display") ≫= (fun disp => key_of (monitors s) ≫= profile_in disp)) by (unfold table_for, display_of; by rewrite Ecfg).
  destruct (toml_table_in cfg (str "display")) as [td|]; cbn [names] in Hd.
  2: { subst disp. apply wp_ret. split; [done|]. split; [eapply conf_ok_weaken; [|exact Hc2]; lia|]. exists s. split; [|done]. rewrite Hs2. by destruct w. }
  destruct disp as [i|]; [|by destruct Hd as (j & ? & _)].
  apply wp_bind. apply (wp_mono no_fault _ (fun (h : handle) w' => names (confs w') h (table_for s) 63 ∧ conf_ok (n + 95) (confs w') ∧ w' = w <| confs := confs w' |> <| calls := calls w' |>)).
  { rewrite Et. cbn [mbind option_bind]. destruct (key_of (monitors s)) as [key|]; cbn [mbind option_bind].
    - apply wp_on_conf. eapply wp_mono; [apply (wp_profile_table c2 _ td key (n + 95)); [lia|eapply lives_weaken; [|exact Hd]; lia|by replace (n + 95 + 3) with (n + 98) by lia]|].
      cbn beta. intros h c3 (Hh & Hc3). split; [done|]. split; [done|]. rewrite Hs2. done.
    - apply wp_ret. split; [done|]. split; [eapply conf_ok_weaken; [|exact Hc2]; lia|]. rewrite Hs2. done. }
  cbn beta. intros h w3 (Hh & Hc3 & E3). assert (Es3 : server w3 = s) by (by rewrite E3).
  destruct (table_for s) as [t|] eqn:Etab; cbn [names] in Hh.
  - destruct h as [k|]; [|by destruct Hh as (? & ? & _)]. eapply wp_mono; [apply (wp_with_profile n Hn scr (Some k) t w3 0); rewrite ?Es3; [done|done|done|..]|].
    + eapply conf_ok_weaken; [|exact Hc3]. lia.
    + eapply names_weaken; [|exact Hh]. lia.
    + cbn beta. rewrite Z.add_0_r. rewrite Es3. intros ok w4 (-> & Hc4 & s4 & E4 & Hcf). split; [done|]. split; [done|]. exists s4. split; [|done]. rewrite E4, E3. done.
  - cbn in Hh. subst h. eapply wp_mono; [apply (wp_enable 0 (Z.le_refl 0) scr w3 n); rewrite ?Es3; [done|done|done|]|].
    + eapply conf_ok_weaken; [|exact Hc3]. lia.
    + cbn beta. rewrite Es3. intros ok w4 (-> & Hc4 & s4 & E4 & Hcf). split; [done|]. split; [done|]. exists s4. split; [|done]. rewrite E4, E3. done.
Qed.
End Proof.
