(* ===== verification/DisplayClaims.v ===== *)
(** * What the display daemon brings about *)

From stdpp Require Import gmap sorting.
From S2P Require Import Prelude.
From S2P Require Import CString.
From S2P Require Import CFloat.
From S2P Require Import ConfigRead.
From S2P Require Import Display.
From S2P Require Import DisplayProof.
Open Scope Z_scope.

Section Claims.
Context `{Toml} `{!Qsort}.
Abbreviation dprog := (prog (World Server)) (only parsing).

(** ** After a hotplug *)

Definition unplugged (s : Server) (o : Z) : bool := match find_output o s with Some out => negb (out_connected out) | None => false end.
Definition unplugged_dark (s : Server) : Prop := ∀ o, unplugged s o = true → dark s o.
Lemma unplugged_same s s' o : same_hardware s s' → unplugged s' o = unplugged s o.
Proof. intros (E & _). unfold unplugged. by rewrite (find_output_same s s'). Qed.

Lemma wp_disable_one o w :
  let s := server w in
  server_ok s → wp no_fault (disable_output (s_ts s) o) (fun _ w' => changed w w' (off_one (unplugged s) s o)) w.
Proof.
  intros s Hok. apply wp_bind. apply (wp_query no_fault (GetOutputInfo o (s_ts s)) _ w); [apply same_refl|done|]. intros w1 Hs1. cbn [x_ randr fst]. fold s.
  assert (Hstay : wp no_fault skip (fun _ w' => changed w w' s) w1) by (apply wp_ret; unfold changed; rewrite Hs1; by destruct w).
  unfold off_one, unplugged. destruct (find_output o s) as [out|] eqn:Eo; [|exact Hstay]. cbn [fmap option_fmap option_map]. rewrite is_connected_info. cbn [o_crtc output_info].
  destruct (out_connected out); cbn [orb negb andb]; [exact Hstay|]. destruct (Z.eqb_spec (crtc_of o s) NONE) as [En|En]; cbn [negb]; [exact Hstay|].
  assert (E1 : server w1 = s) by (by rewrite Hs1). eapply wp_mono; [replace (s_ts s) with (s_ts (server w1)) by (by rewrite E1); apply wp_switch_off; rewrite E1; by apply crtc_of_id|].
  cbn beta. rewrite E1. intros _ w2 Hch. unfold changed in *. rewrite Hch, Hs1. done.
Qed.

Lemma wp_disable_all p l : ∀ w,
  let s := server w in
  server_ok s → (∀ o, p o = unplugged s o) →
  wp no_fault (collect (disable_output (s_ts s)) l) (fun _ w' => changed w w' (fold_left (off_one p) l s)) w.
Proof.
  induction l as [|o l IH]; intros w s Hok Hp; cbn [collect fold_left]; [apply wp_ret; by destruct w|].
  apply wp_bind. eapply wp_mono; [by apply wp_disable_one|]. cbn beta. fold s. intros u w1 E1. assert (Eo : off_one (unplugged s) s o = off_one p s o) by (unfold off_one; by rewrite Hp).
  rewrite Eo in E1. destruct (off_one_offed p s o Hok) as (Hok1 & Hh1 & _). unfold changed in E1. assert (Es1 : server w1 = off_one p s o) by (by rewrite E1).
  apply wp_bind. eapply wp_mono.
  { replace (s_ts s) with (s_ts (server w1)) by (rewrite Es1; by destruct Hh1 as (_ & _ & _ & -> & _)).
    apply (IH w1); rewrite Es1; [done|]. intros o'. by rewrite Hp, (unplugged_same s (off_one p s o)). }
  cbn beta. rewrite Es1. intros bs w2 E2. apply wp_ret. unfold changed in *. rewrite E2, E1. done.
Qed.

Lemma wp_disable w :
  let s := server w in
  server_ok s → wp no_fault disable_disconnected (fun _ w' => ∃ s', changed w w' s' ∧ offed (unplugged s) (map fst (outputs s)) s s') w.
Proof.
  intros s Hok. apply wp_bind. apply (wp_query no_fault (GetScreenResources true) _ w); [apply same_refl|done|]. intros w1 Hs1. cbn [x_ randr fst config_timestamp res_outputs]. fold s.
  assert (E1 : server w1 = s) by (by rewrite Hs1). apply wp_bind. eapply wp_mono.
  { replace (s_ts s) with (s_ts (server w1)) by (by rewrite E1). apply (wp_disable_all (unplugged s)); by rewrite E1. }
  cbn beta. rewrite E1. intros us w2 E2. apply wp_ret. eexists. split; [|by apply offed_all]. unfold changed in *. rewrite E2, Hs1. done.
Qed.

(** The server needs no more changes. *)
Definition tuned (s : Server) : Prop :=
  match display_of s with
  | Some _ => settled s (table_for s) ∧ (chosen s (table_for s) ≠ NONE → primary s = chosen s (table_for s))
  | None => True
  end.
Definition at_rest (s : Server) : Prop := unplugged_dark s ∧ tuned s.

Lemma display_of_same s s' : same_hardware s s' → display_of s' = display_of s.
Proof. intros (_ & _ & _ & _ & E). unfold display_of. by rewrite E. Qed.

Lemma config_done_spec s s' :
  ready_server s → config_done s s' →
  ready_server s' ∧ same_hardware s s' ∧ tuned s' ∧ (unplugged_dark s → unplugged_dark s') ∧ (tuned s → s' = s).
Proof.
  intros Hr. unfold config_done, tuned. destruct (display_of s) as [d|] eqn:Ed.
  2: { intros ->. rewrite Ed. split_and!; try done. }
  intros (C1 & C2 & C3 & C4 & C5 & C6). rewrite (display_of_same s s'), Ed, (table_for_same s s'), (chosen_same s s') by done. split_and!; try done.
  - intros Hu o Ho. rewrite (unplugged_same s s') in Ho by done. unfold dark. rewrite C5; [by apply Hu|..].
    + unfold want, unplugged in *. destruct (find_output o s) as [out|]; [|done]. by destruct (out_connected out).
    + unfold switched_off, unplugged in *. destruct (find_output o s) as [out|]; [|done]. by destruct (out_connected out).
  - intros [T1 T2]. by apply C6.
Qed.

Lemma ready_events s e : ready_server s → ready_server (s <| events := e |>).
Proof. intros Hr. eapply ready_server_same; [by apply (same_hardware_refl s)| |apply Hr|apply Hr|done]. pose proof (rd_ok _ Hr) as Hok. split; apply Hok. Qed.
Lemma at_rest_events s e : at_rest s → at_rest (s <| events := e |>).
Proof. done. Qed.

Definition quiet (s : Server) : Server := s <| events := [] |>.

(** No flag is set. *)
Definition calm (w : World Server) : Prop := reload_flag w = false ∧ quit_flag w = false ∧ dbus_reload_flag w = false.

Lemma wp_configure scr w n :
  let s := server w in
  ready_server s → 0 ≤ n → conf_ok (n + 100) (confs w) → calm w →
  wp no_fault (configure scr) (fun _ w' => calm w' ∧ conf_ok n (confs w') ∧ config_done s (server w')) w.
Proof.
  intros s Hr Hn Hc Hcalm. apply wp_bind. eapply wp_mono; [by apply (wp_apply_config scr w n)|]. cbn beta. intros ok w1 (-> & Hc1 & s1 & E1 & Hd).
  apply wp_bind, wp_modify, wp_ret. cbn. rewrite E1. done.
Qed.

Lemma wp_wake w : wp no_fault wake_screen (fun _ w' => same w w') w.
Proof.
  apply wp_bind. apply (wp_query no_fault DpmsOn _ w); [apply same_refl|done|]. intros w1 Hs1. apply wp_bind. apply (wp_query no_fault ResetSaver _ w); [done|done|].
  intros w2 Hs2. by apply wp_ret.
Qed.

(** What the operations of the loop keep. *)
Definition steady (n : Z) (s : Server) (w : World Server) : Prop :=
  calm w ∧ conf_ok n (confs w) ∧ ready_server (server w) ∧ same_hardware s (server w).
Lemma steady_same n s w w' : same w w' → steady n s w → steady n s w'.
Proof. intros ->. done. Qed.

Lemma wp_hotplug udev scr w n :
  let s := server w in
  ready_server s → 0 ≤ n → conf_ok (n + 100) (confs w) → calm w →
  wp no_fault (handle_hotplug udev scr)
    (fun _ w' => steady n s w' ∧ at_rest (server w') ∧
       (at_rest s → server w' = quiet s)) w.
Proof.
  intros s Hr Hn Hc Hcalm. apply wp_bind. eapply wp_mono; [apply wp_disable, Hr|]. cbn beta. fold s.
  intros u w1 (s1 & E1 & (A1 & A2 & A3 & A4 & A5 & A6 & A7 & A8)). unfold changed in E1.
  apply wp_bind. apply (wp_xcall no_fault (USleep _)). cbn [x_ randr fst snd]. apply wp_bind. apply (wp_xcall no_fault XEvents). cbn [x_ randr fst snd server].
  set (w3 := _ <| calls := _ |>). assert (E3 : server w3 = quiet s1 ∧ confs w3 = confs w ∧ calm w3) by (unfold w3; rewrite E1; done). destruct E3 as (E3 & Ec3 & Hcalm3).
  apply wp_bind. apply (wp_mono no_fault _ (fun _ w4 => server w4 = quiet s1 ∧ confs w4 = confs w ∧ calm w4)).
  { destruct udev; [|by apply wp_ret]. apply wp_bind. apply (wp_xcall no_fault UdevEvents). by apply wp_ret. }
  cbn beta. intros _ w4 (E4 & Ec4 & Hcalm4). assert (Hr1 : ready_server s1) by (eapply ready_server_same; [done|done|rewrite A3; apply Hr|rewrite A3; apply Hr|done]).
  assert (Hrq : ready_server (quiet s1)) by (by apply ready_events). assert (Hu1 : unplugged_dark s1).
  { intros o Ho. rewrite (unplugged_same s s1) in Ho by done. apply A5; [|done]. unfold unplugged in Ho. destruct (find_output o s) as [out|] eqn:Eo; [|done]. by eapply find_output_id. }
  apply wp_bind. eapply wp_mono; [apply (wp_configure scr w4 n); rewrite ?E4, ?Ec4; done|]. cbn beta. rewrite E4. intros ok w5 (Hcalm5 & Hc5 & Hd).
  destruct (config_done_spec _ _ Hrq Hd) as (D1 & D2 & D3 & D4 & D5).
  eapply wp_mono; [apply wp_wake|]. cbn beta. intros _ w6 Hs6. assert (E6 : server w6 = server w5) by (by rewrite Hs6). rewrite E6.
  split; [apply (steady_same n s w5); [done|]; split; [done|]; split; [done|]; split; [done|by eapply same_hardware_trans]|]. split; [split; [by apply D4|exact D3]|].
  intros [R1 R2]. assert (Es1 : s1 = s) by (apply A8; intros o _; apply R1). rewrite Es1 in *. by apply D5.
Qed.

Lemma wp_any_connected ts l w0 : ∀ w, same w0 w → wp no_fault (any_connected ts l) (fun _ w' => same w0 w') w.
Proof.
  induction l as [|o l IH]; intros w Hs; [by apply wp_ret|]. apply wp_bind. apply (wp_query no_fault (GetOutputInfo o ts) _ w0); [done|done|]. intros w1 Hs1. cbn [x_ randr fst].
  destruct (_ <$> _) as [oi|]; [|by apply IH]. destruct (is_connected oi); [by apply wp_ret|by apply IH].
Qed.

Lemma wp_probe_outputs scr w n :
  let s := server w in
  ready_server s → 0 ≤ n → conf_ok (n + 100) (confs w) → calm w →
  wp no_fault (probe scr) (fun _ w' => steady n s w' ∧ (at_rest s → server w' = s)) w.
Proof.
  intros s Hr Hn Hc Hcalm. apply wp_bind. apply (wp_query no_fault (GetScreenResources false) _ w); [apply same_refl|done|]. intros w1 Hs1. cbn [x_ randr fst config_timestamp res_outputs]. fold s.
  apply wp_bind. eapply wp_mono; [by apply (wp_any_connected _ _ w)|]. cbn beta. intros found w2 Hs2. assert (E2 : server w2 = s ∧ confs w2 = confs w ∧ calm w2) by (by rewrite Hs2). destruct E2 as (E2 & Ec2 & Hcalm2).
  destruct found.
  2: { apply wp_ret. rewrite E2. split; [|done]. split; [done|]. rewrite E2, Ec2. split; [eapply conf_ok_weaken; [|exact Hc]; lia|done]. }
  apply wp_bind. eapply wp_mono; [apply (wp_configure scr w2 n); rewrite ?E2, ?Ec2; done|]. cbn beta. rewrite E2. intros ok w3 (Hcalm3 & Hc3 & Hd).
  destruct (config_done_spec _ _ Hr Hd) as (D1 & D2 & D3 & D4 & D5). assert (Hst : steady n s w3) by done. apply wp_when; intros _.
  - eapply wp_mono; [apply wp_wake|]. cbn beta. intros _ w4 Hs4. assert (E4 : server w4 = server w3) by (by rewrite Hs4). rewrite E4.
    split; [by apply (steady_same n s w3)|]. intros [_ R]. by apply D5.
  - split; [done|]. intros [_ R]. by apply D5.
Qed.

(** One turn of the loop. *)
Lemma wp_turn bus udev scr w n :
  let s := server w in
  ready_server s → 0 ≤ n → conf_ok (n + 100) (confs w) → calm w →
  wp no_fault (round bus udev BASE scr)
    (fun go w' => go = true ∧ steady n s w' ∧
       (existsb (randr_event BASE) (events s) = true → at_rest (server w')) ∧ (at_rest s → server w' = quiet s)) w.
Proof.
  intros s Hr Hn Hc Hcalm. pose proof Hcalm as (F1 & F2 & F3). apply wp_bind, wp_gets. apply wp_bind. apply (wp_xcall no_fault (Poll _)). cbn [x_ randr fst snd when].
  apply wp_bind, wp_ret. apply wp_bind, wp_ret.
  set (w1 := _ <| calls := _ |>). assert (E1 : server w1 = s ∧ confs w1 = confs w ∧ calm w1) by done. clearbody w1.
  apply wp_bind. apply (wp_mono no_fault _ (fun _ w2 => server w2 = s ∧ confs w2 = confs w ∧ calm w2)).
  { destruct bus; [|by apply wp_ret]. apply wp_bind. apply (wp_xcall no_fault DBusDispatch). cbn [x_ randr fst snd dbus_dispatch]. apply wp_ret. by destruct E1 as (-> & ? & ?). }
  cbn beta. intros _ w2 (E2 & Ec2 & Hcalm2). pose proof Hcalm2 as (G1 & G2 & G3). apply wp_bind, wp_gets. rewrite G1. apply wp_bind, wp_ret. apply wp_bind, wp_gets. rewrite G3. apply wp_bind, wp_ret.
  apply wp_bind. apply (wp_mono no_fault _ (fun (got : bool) w3 => got = false ∧ server w3 = s ∧ confs w3 = confs w ∧ calm w3)).
  { destruct udev; [|by apply wp_ret]. apply wp_bind. apply (wp_xcall no_fault UdevEvents). by apply wp_ret. }
  cbn beta. intros got w3 (-> & E3 & Ec3 & Hcalm3). apply wp_bind. apply (wp_xcall no_fault XEvents). cbn [x_ randr fst snd]. rewrite E3.
  apply wp_bind. apply (wp_xcall no_fault XError). cbn [x_ randr fst snd].
  set (w4 := _ <| calls := _ |>). assert (E4 : server w4 = quiet s ∧ confs w4 = confs w ∧ calm w4) by done. clearbody w4. destruct E4 as (E4 & Ec4 & Hcalm4). rewrite orb_false_r.
  assert (Hrq : ready_server (quiet s)) by (by apply ready_events). assert (Hrest : at_rest s → at_rest (quiet s)) by apply at_rest_events.
  apply wp_bind. destruct (existsb (randr_event BASE) (events s)) eqn:Eg; cbn [when].
  - eapply wp_mono; [apply (wp_hotplug udev scr w4 n); rewrite ?E4, ?Ec4; done|]. cbn beta. rewrite E4. intros _ w5 (Hst & D3 & D4). pose proof Hst as ((_ & Hq & _) & _).
    apply wp_bind, wp_gets. rewrite andb_false_r. cbn [andb when]. apply wp_bind, wp_ret. apply wp_bind, wp_gets, wp_ret. rewrite Hq. split; [done|]. split; [done|]. split; [done|].
    intros R. by apply D4, Hrest.
  - apply wp_ret. apply wp_bind, wp_gets. rewrite !andb_true_r. apply wp_bind. apply wp_when; intros _.
    + eapply wp_mono; [apply (wp_probe_outputs scr w4 n); rewrite ?E4, ?Ec4; done|]. cbn beta. rewrite E4. intros _ w5 (Hst & D3). pose proof Hst as ((_ & Hq & _) & _).
      apply wp_bind, wp_gets, wp_ret. rewrite Hq. split; [done|]. split; [done|]. split; [done|]. intros R. by apply D3, Hrest.
    + apply wp_bind, wp_gets, wp_ret. pose proof Hcalm4 as (_ & -> & _). rewrite E4. split; [done|]. split; [|done]. split; [done|]. rewrite E4, Ec4. split; [eapply conf_ok_weaken; [|exact Hc]; lia|done].
Qed.

Lemma wp_rounds_rest bus udev scr k : ∀ w,
  let s := server w in
  ready_server s → at_rest s → events s = [] → conf_ok (100 * Z.of_nat k) (confs w) → calm w →
  wp no_fault (rounds k bus udev BASE scr) (fun _ w' => server w' = s) w.
Proof.
  induction k as [|k IH]; intros w s Hr Hrest He Hc Hcalm; cbn [rounds]; [by apply wp_ret|].
  apply wp_bind. eapply wp_mono; [apply (wp_turn bus udev scr w (100 * Z.of_nat k)); [done|lia| |done]|]; [by replace (100 * Z.of_nat k + 100) with (100 * Z.of_nat (S k)) by lia|].
  cbn beta. fold s. intros go w1 (-> & (Hcalm1 & Hc1 & D1 & _) & _ & D3). specialize (D3 Hrest).
  assert (E1 : server w1 = s) by (rewrite D3; unfold quiet; rewrite <- He; by destruct s).
  eapply wp_mono; [apply (IH w1); rewrite ?E1; done|]. cbn beta. by rewrite E1.
Qed.

(** ** Keys *)

Definition code (c : ascii) : Z := Z.of_nat (nat_of_ascii c).
Lemma code_inj c d : code c = code d → c = d.
Proof. unfold code. intros E%Nat2Z.inj. rewrite <- (ascii_nat_embedding c), <- (ascii_nat_embedding d). by rewrite E. Qed.

(** The byte at the start, the NUL at the end of a string. *)
Definition head (a : text) : Z := match a with c :: _ => code c | [] => 0 end.
Lemma strcmp_head a b :
  strcmp a b = if bool_decide (head a = head b) then (if bool_decide (head a = 0) then 0 else strcmp (tail a) (tail b)) else head a - head b.
Proof.
  destruct a as [|c a], b as [|d b]; cbn [strcmp head tail]; [done|..].
  - fold (code d). case_bool_decide as E; [by rewrite <- E|lia].
  - fold (code c). case_bool_decide as E; [by rewrite E|lia].
  - fold (code c) (code d). case_bool_decide as E.
    + subst d. rewrite (bool_decide_eq_true_2 (code c = code c)) by done. case_bool_decide as Ec; [subst c; by rewrite bool_decide_eq_true_2|].
      rewrite bool_decide_eq_false_2; [done|]. intros F. apply Ec, code_inj. done.
    + rewrite (bool_decide_eq_false_2 (code c = code d)) by (intros F; by apply E, code_inj). done.
Qed.
Lemma head_range a : 0 ≤ head a.
Proof. destruct a; cbn; [done|]. unfold code. lia. Qed.
Lemma tail_shorter (a : text) : head a ≠ 0 → (length (tail a) < length a)%nat.
Proof. destruct a; cbn; [done|lia]. Qed.

Lemma strcmp_consistent : consistent strcmp.
Proof.
  split.
  - intros a. remember (length a) as n eqn:En. revert a En. induction n as [n IH] using lt_wf_ind. intros a -> b. rewrite (strcmp_head b a), (strcmp_head a b).
    destruct (decide (head a = head b)) as [E|E].
    + rewrite <- E, !(bool_decide_eq_true_2 (head a = head a)) by done. case_bool_decide; [done|]. eapply IH; [by apply tail_shorter|done].
    + rewrite (bool_decide_eq_false_2 (head a = head b)), (bool_decide_eq_false_2 (head b = head a)) by congruence. lia.
  - intros a. remember (length a) as n eqn:En. revert a En. induction n as [n IH] using lt_wf_ind. intros a -> b c.
    rewrite (strcmp_head a b), (strcmp_head b c), (strcmp_head a c). repeat case_bool_decide; try lia. intros. by eapply IH; [apply tail_shorter|..].
Qed.

(** Texts without NUL that compare as equal are equal. *)
Definition no_nul (a : text) : Prop := Forall (fun c => c ≠ "000"%char) a.
Lemma strcmp_eq a : ∀ b, no_nul a → no_nul b → strcmp a b = 0 → a = b.
Proof.
  assert (Hc : ∀ c, c ≠ "000"%char → code c ≠ 0) by (intros c Hc F; by apply Hc, (code_inj c "000"%char)).
  unfold no_nul. induction a as [|c a IH]; intros [|d b] Ha Hb; cbn [strcmp]; [done|..]; rewrite ?Forall_cons in *.
  - destruct Hb as [Hd _]. specialize (Hc d Hd). unfold code in Hc. lia.
  - destruct Ha as [Hd _]. specialize (Hc c Hd). unfold code in Hc. lia.
  - destruct Ha as [Hd Ha], Hb as [_ Hb]. case_bool_decide as E; [|intros F; by destruct E; apply code_inj; unfold code; lia].
    subst d. rewrite bool_decide_eq_false_2 by done. intros F. by rewrite (IH b Ha Hb F).
Qed.

Lemma sorted_unique l l' :
  Forall no_nul l → l ≡ₚ l' → qsort hash_cmp l = qsort hash_cmp l'.
Proof.
  intros Hl Hp. assert (Hn : ∀ x, x ∈ qsort hash_cmp l → no_nul x) by (intros x Hx; rewrite qsort_perm in Hx; rewrite Forall_forall in Hl; by apply Hl).
  assert (Hpp : qsort hash_cmp l ≡ₚ qsort hash_cmp l') by (by rewrite !qsort_perm).
  apply (StronglySorted_unique_strong (fun a b => hash_cmp a b ≤ 0)); [|by apply qsort_sorted, consistent_all, strcmp_consistent..|done].
  intros x y Hx Hy H1' H2'. rewrite <- Hpp in Hy. apply strcmp_eq; [by apply Hn|by apply Hn|].
  pose proof (proj1 strcmp_consistent x y) as E. unfold hash_cmp in *. destruct (Z.sgn_spec (strcmp y x)) as [[? F]|[[? F]|[? F]]], (Z.sgn_spec (strcmp x y)) as [[? G]|[[? G]|[? G]]]; lia.
Qed.

(** ** Hashes *)

Definition is_byte (b : Z) : Prop := 0 ≤ b < 256.
Definition hex_val (c : ascii) : Z := let n := code c in if n <? 58 then n - 48 else n - 87.
Fixpoint unhex (t : text) : list Z := match t with a :: b :: t' => 16 * hex_val a + hex_val b :: unhex t' | _ => [] end.

Lemma hex_digit d : 0 ≤ d < 16 → hex_val (hex_char d) = d ∧ hex_char d ≠ "000"%char ∧ hex_char d ≠ ","%char.
Proof.
  intros Hd. assert (∃ n, (n < 16)%nat ∧ d = Z.of_nat n) as (n & Hn & ->) by (exists (Z.to_nat d); lia).
  do 16 (destruct n as [|n]; [by split_and!; vm_compute|]). lia.
Qed.
Lemma hex_byte_spec x : is_byte x → ∃ a b, hex_byte x = [a; b] ∧ 16 * hex_val a + hex_val b = x ∧ no_nul [a; b] ∧ a ≠ ","%char.
Proof.
  intros Hx. unfold is_byte in Hx. exists (hex_char (x / 16)), (hex_char (x mod 16)). pose proof (Z.div_mod x 16). pose proof (Z.mod_pos_bound x 16).
  destruct (hex_digit (x / 16)) as (-> & N1 & C1); [lia|]. destruct (hex_digit (x mod 16)) as (-> & N2 & _); [lia|]. split; [done|]. split; [lia|]. split; [|done].
  by repeat constructor.
Qed.

Definition hex (l : list Z) : text := concat (map hex_byte l).
Lemma unhex_hex l : Forall is_byte l → unhex (hex l) = l ∧ no_nul (hex l) ∧ length (hex l) = (2 * length l)%nat.
Proof.
  unfold hex. induction l as [|x l IH]; intros Hl; [by split_and!; [| constructor |]|]. apply Forall_cons in Hl as [Hx Hl]. destruct (IH Hl) as (I1 & I2 & I3).
  destruct (hex_byte_spec x Hx) as (a & b & E & E' & Hn & _). cbn [map concat]. rewrite E. cbn. rewrite I1, E'. split; [done|]. split; [|rewrite I3; lia].
  unfold no_nul in *. by repeat (apply Forall_cons in Hn as [? Hn]; constructor).
Qed.

(** Texts of one length can be told apart in a list of them. *)
Lemma join_inj n l : ∀ l', Forall (fun t : text => length t = n) l → Forall (fun t : text => length t = n) l' → l ≠ [] → l' ≠ [] →
  join_commas l = join_commas l' → l = l'.
Proof.
  induction l as [|t l IH]; intros [|t' l'] Hl Hl' Hne Hne' E; try done. apply Forall_cons in Hl as [Ht Hl]. apply Forall_cons in Hl' as [Ht' Hl'].
  destruct l as [|u l], l' as [|u' l']; cbn [join_commas] in E.
  - by rewrite E.
  - apply (f_equal length) in E. rewrite length_app in E. cbn in E. lia.
  - apply (f_equal length) in E. rewrite length_app in E. cbn in E. lia.
  - apply app_inj_1 in E as [-> E]; [|congruence]. injection E as E. f_equal. by apply IH.
Qed.

(** What the key is made of: the first 16 bytes of the EDID of each connected monitor. *)
Definition prefix_of (out : Output) : option (list Z) := if out_connected out && negb (length (out_edid out) <? 16)%nat then Some (take 16 (out_edid out)) else None.
Definition prefixes (s : Server) : list (list Z) := omap prefix_of (map snd (outputs s)).
Lemma monitors_hex s : monitors s = map hex (prefixes s).
Proof.
  unfold monitors, prefixes. induction (map snd (outputs s)) as [|out l IH]; [done|]. cbn [omap list_omap map]. unfold hash_of at 1, prefix_of at 1, edid_hash.
  destruct (out_connected out); cbn [andb]; [|done]. destruct (length (out_edid out) <? 16)%nat; cbn [negb]; [done|]. by rewrite IH.
Qed.

Definition bytes_of (ps : list (list Z)) : Prop := ∀ p, p ∈ ps → Forall is_byte p ∧ length p = 16%nat.
Lemma hexes ps : bytes_of ps → Forall no_nul (map hex ps) ∧ Forall (fun t : text => length t = 32%nat) (map hex ps) ∧ map unhex (map hex ps) = ps.
Proof.
  intros Hps. split_and!; [apply Forall_map, Forall_forall; intros p Hp; by apply unhex_hex, Hps..| |].
  - apply Forall_map, Forall_forall. intros p Hp. destruct (Hps p Hp) as [Hb Hl]. destruct (unhex_hex p Hb) as (_ & _ & ->). by rewrite Hl.
  - rewrite map_map. rewrite <- (map_id ps) at 2. apply map_ext_in. intros p Hp%list_elem_of_In. by apply unhex_hex, Hps.
Qed.

Lemma key_of_same ps ps' : bytes_of ps → bytes_of ps' → key_of (map hex ps) = key_of (map hex ps') ↔ ps ≡ₚ ps'.
Proof.
  intros Hps Hps'. destruct (hexes ps Hps) as (N & L & U), (hexes ps' Hps') as (N' & L' & U'). split.
  - intros E. rewrite <- U, <- U'. apply Permutation_map. unfold key_of in E.
    destruct (map hex ps) as [|t l] eqn:El, (map hex ps') as [|t' l'] eqn:El'; [done|done|done|]. injection E as E. rewrite <- El, <- El' in *.
    assert (Hne : ∀ ts : list text, ts ≠ [] → qsort hash_cmp ts ≠ []).
    { intros ts Hts F. apply Hts. pose proof (qsort_perm hash_cmp ts) as P. rewrite F in P. by apply Permutation_nil in P. }
    assert (Es : qsort hash_cmp (map hex ps) = qsort hash_cmp (map hex ps')) by (apply (join_inj 32); [by rewrite qsort_perm|by rewrite qsort_perm|apply Hne; by rewrite El|apply Hne; by rewrite El'|exact E]).
    etrans; [symmetry; apply (qsort_perm hash_cmp)|]. rewrite Es. apply qsort_perm.
  - intros Hp. pose proof (Permutation_map hex Hp) as Hm. unfold key_of. rewrite (sorted_unique (map hex ps) (map hex ps')) by done.
    destruct (map hex ps), (map hex ps'); [done|by apply Permutation_nil_cons in Hm|by symmetry in Hm; apply Permutation_nil_cons in Hm|done].
Qed.

(** C20: The key of the profile stands for the monitors that are connected: it is the same for
    two servers exactly if the first 16 bytes of their EDIDs are, whichever outputs they are
    plugged into. *)
Theorem profile_key_means_monitors w w' :
  server_ok (server w) → server_ok (server w') → bytes_of (prefixes (server w)) → bytes_of (prefixes (server w')) →
  ∃ key key' w1 w1', build_profile_key w = Ok key w1 ∧ build_profile_key w' = Ok key' w1' ∧
    (key = key' ↔ prefixes (server w) ≡ₚ prefixes (server w')).
Proof.
  intros Hok Hok' Hb Hb'. pose proof (wp_build_key w w Hok (same_refl w)) as R. pose proof (wp_build_key w' w' Hok' (same_refl w')) as R'.
  unfold wp in R, R'. destruct (build_profile_key w) as [key w1|]; [|done]. destruct (build_profile_key w') as [key' w1'|]; [|done].
  destruct R as [-> _], R' as [-> _]. do 4 eexists. split; [done|]. split; [done|]. rewrite !monitors_hex. by apply key_of_same.
Qed.

(** ** Modes *)

Lemma dlt_trans a b c : dlt a b = true → dlt b c = true → dlt a c = true.
Proof.
  unfold dlt, SFltb. destruct a as [sa|sa| |sa ma ea], b as [sb|sb| |sb mb eb], c as [sc|sc| |sc mc ec]; cbn; try done;
    destruct sa, sb; try done; try (destruct sc; done).
  all: destruct sc; try done.
  all: destruct (Z.compare_spec ea eb), (Z.compare_spec eb ec), (Z.compare_spec ea ec); try done; try lia; subst.
  all: repeat match goal with |- context [Pos.compare_cont Eq ?x ?y] => change (Pos.compare_cont Eq x y) with (Pos.compare x y) end.
  all: destruct (Pos.compare_spec ma mb), (Pos.compare_spec mb mc), (Pos.compare_spec ma mc); cbn; try done; lia.
Qed.

Lemma dlt_irrefl a : dlt a a = false.
Proof.
  unfold dlt, SFltb. destruct a as [[]|[]| |[] m e]; cbn; try done; rewrite Z.compare_refl; change (Pos.compare_cont Eq m m) with (Pos.compare m m); by rewrite Pos.compare_refl.
Qed.

(** No mode of the size that was looked at is faster than the best one. *)
Definition fastest (w h : Z) (r : double) (mi : ModeInfo) : Prop := m_width mi = w → m_height mi = h → dlt r (isde_randr_refresh mi) = false.

Lemma faster_keeps w h r r' mi : (r' = r ∨ dlt r r' = true) → fastest w h r mi → fastest w h r' mi.
Proof. intros [->|Hlt] Hf Ew Eh; [by apply Hf|]. destruct (dlt r' _) eqn:E; [|done]. rewrite <- (Hf Ew Eh). symmetry. by eapply dlt_trans. Qed.

Lemma better_fastest w h m ms : ∀ best,
  let res := fold_left (better w h m) ms best in
  (fst res = fst best ∨ dlt (fst best) (fst res) = true) ∧ (∀ mi, mi ∈ ms → m_id mi = m → fastest w h (fst res) mi).
Proof.
  induction ms as [|mi ms IH]; intros best; cbn [fold_left]; [split; [by left|]; intros mi Hin; by apply not_elem_of_nil in Hin|].
  destruct (IH (better w h m best mi)) as [I1 I2]. set (res := fold_left _ _ _) in *. set (b1 := better w h m best mi) in *.
  assert (Hb : (fst b1 = fst best ∨ dlt (fst best) (fst b1) = true) ∧ (m_id mi = m → fastest w h (fst b1) mi)).
  { unfold b1, better, fastest. destruct (Z.eqb_spec (m_id mi) m) as [_|Hm]; cbn [negb]; [|split; [by left|done]].
    destruct (Z.eqb_spec (m_width mi) w), (Z.eqb_spec (m_height mi) h); cbn [andb]; try (split; [by left|by intros]).
    destruct (dlt (fst best) (isde_randr_refresh mi)) eqn:E; [|split; [by left|done]]. split; [by right|]. cbn. intros _ _ _.
    apply dlt_irrefl. }
  destruct Hb as [B1 B2]. split.
  - destruct I1 as [I1|I1], B1 as [B1|B1]; [left; congruence|right; by rewrite I1|right; by rewrite <- B1|right; by eapply dlt_trans].
  - intros mi' Hin Hm. apply elem_of_cons in Hin as [->|Hin]; [|by apply I2]. by apply (faster_keeps w h (fst b1)), B2.
Qed.

Lemma best_mode_fastest w h oms ms mi :
  mi ∈ ms → m_id mi ∈ oms → fastest w h (fst (best_mode w h oms ms)) mi.
Proof.
  intros Hmi. unfold best_mode. cut (∀ best, let res := fold_left (fun best m => fold_left (better w h m) ms best) oms best in
    (fst res = fst best ∨ dlt (fst best) (fst res) = true) ∧ (m_id mi ∈ oms → fastest w h (fst res) mi)); [intros Hc; apply Hc|].
  induction oms as [|m oms IH]; intros best; cbn [fold_left]; [split; [by left|]; intros Hin; by apply not_elem_of_nil in Hin|].
  destruct (better_fastest w h m ms best) as [B1 B2]. destruct (IH (fold_left (better w h m) ms best)) as [I1 I2]. set (b1 := fold_left (better w h m) ms best) in *.
  set (res := fold_left _ oms b1) in *. split.
  - destruct I1 as [I1|I1], B1 as [B1|B1]; [left; congruence|right; by rewrite I1|right; by rewrite <- B1|right; by eapply dlt_trans].
  - intros Hin. apply elem_of_cons in Hin as [Hin|Hin]; [|by apply I2]. apply (faster_keeps w h (fst b1)); [done|]. by apply B2.
Qed.

(** A mode of the output that has the size. *)
Definition candidate (oi : OutputInfo) (ms : list ModeInfo) (size : Z * Z) (mi : ModeInfo) : Prop :=
  mi ∈ ms ∧ m_id mi ∈ o_modes oi ∧ m_width mi = u16 (fst size) ∧ m_height mi = u16 (snd size).
(** The size that is configured or, if none is, preferred. *)
Definition wanted_size (oi : OutputInfo) (ms : list ModeInfo) (k : wish) : option (Z * Z) :=
  size ← (if usable (w_w k) (w_h k) then Some (w_w k, w_h k) else preferred_size oi ms); if usable (fst size) (snd size) then Some size else None.

(** C19: The mode that is planned for a monitor is one of the output's own of the wanted size,
    and none of these is refreshed faster; it goes to the configured place.  Nothing is
    planned only if no size is known or every mode of the size is one without a refresh
    rate. *)
Theorem mode_chosen st oi ms k :
  NONE ∉ o_modes oi →
  let d := plan_for st oi ms k in
  match action d with
  | PLAN_SKIP => ∀ size mi, wanted_size oi ms k = Some size → candidate oi ms size mi → dlt dzero (isde_randr_refresh mi) = false
  | _ => ∃ size mi, wanted_size oi ms k = Some size ∧ candidate oi ms size mi ∧ d_mode d = m_id mi ∧ (d_x d, d_y d) = (s16 (w_x k), s16 (w_y k)) ∧
      ∀ mi', candidate oi ms size mi' → dlt (isde_randr_refresh mi) (isde_randr_refresh mi') = false
  end.
Proof.
  intros Hn. cbn zeta. unfold plan_for, wanted_size.
  destruct (if usable (w_w k) (w_h k) then _ else default _ _) as [w h] eqn:Es.
  assert (Hsize : (if usable (w_w k) (w_h k) then Some (w_w k, w_h k) else preferred_size oi ms) = Some (w, h) ∨
    ((if usable (w_w k) (w_h k) then Some (w_w k, w_h k) else preferred_size oi ms) = None ∧ usable w h = false)).
  { destruct (usable (w_w k) (w_h k)) eqn:Eu; [left; congruence|]. destruct (preferred_size oi ms); cbn in Es; [left; congruence|]. injection Es as <- <-. by right. }
  destruct (usable w h) eqn:Eu; cbn [negb].
  2: { cbn. intros size mi Hw. exfalso. destruct Hsize as [E|[E _]]; rewrite E in Hw; cbn in Hw; [by rewrite Eu in Hw|done]. }
  destruct Hsize as [E|[_ ?]]; [|done]. rewrite E. cbn [mbind option_bind fst snd]. rewrite Eu.
  pose proof (best_mode_spec (u16 w) (u16 h) (o_modes oi) ms) as Hb. pose proof (fun mi => best_mode_fastest (u16 w) (u16 h) (o_modes oi) ms mi) as Hf.
  destruct (best_mode _ _ _ _) as [r m]. cbn [fst snd] in *. destruct (Z.eqb_spec m NONE) as [Em|Em].
  - cbn. intros size mi [= <-] (H1' & H2' & H3' & H4'). destruct Hb as [[= -> _]|(Hin & _)]; [by apply Hf|subst m; done].
  - destruct Hb as [[= _ ?]|(Hin & mi & Hmi & Eid & Ew & Eh & Er)]; [done|].
    assert (Hres : ∃ size mi, Some (w, h) = Some size ∧ candidate oi ms size mi ∧ m = m_id mi ∧ (s16 (w_x k), s16 (w_y k)) = (s16 (w_x k), s16 (w_y k)) ∧
      ∀ mi', candidate oi ms size mi' → dlt (isde_randr_refresh mi) (isde_randr_refresh mi') = false).
    { exists (w, h), mi. split; [done|]. split; [split_and!; try done; by rewrite Eid|]. split; [done|]. split; [done|]. intros mi' (? & ? & ? & ?). rewrite Er. by apply Hf. }
    cbn. destruct (_ && _); exact Hres.
Qed.

(** ** The configuration *)


End Claims.

(** ** A desk *)

#[local] Existing Instance tables.
#[local] Existing Instance insertion_sorts.

(** A laptop with a monitor; a third monitor was just unplugged. *)
Definition laptop : Output := mkOutput (str "eDP-1") true [70; 71] 1 [63; 64; 65] (map Z.of_nat (seq 1 128)).
Definition monitor : Output := mkOutput (str "HDMI-1") true [72; 70] 1 [63; 64; 65] (map Z.of_nat (seq 100 128)).
Definition socket : Output := mkOutput (str "DP-1") false [] 0 [63; 64; 65] [].
Definition desk_outputs (a b : Output) : list (Z * Output) := [(66, a); (67, b); (68, socket)].
Definition desk_modes : list ModeInfo :=
  [mkModeInfo 70 1920 1080 138500000 2080 1111 0; mkModeInfo 71 1920 1080 110800000 2080 1111 0; mkModeInfo 72 2560 1440 241500000 2720 1481 0].
Definition entry (l : list (string * value)) : value := VTable (map (fun p => (str (fst p), snd p)) l).
Definition desk_config : table :=
  [(str "display", entry [("profiles"%string, VTable [(default [] (key_of (omap hash_of (map snd (desk_outputs laptop monitor)))), entry [("outputs"%string, entry
     [("eDP-1"%string, entry [("x"%string, VInt 2560); ("width"%string, VInt 1920); ("height"%string, VInt 1080)]);
      ("HDMI-1"%string, entry [("primary"%string, VBool 1)])])])])])].
Definition desk_with (a b : Output) : Server :=
  mkServer _ (desk_outputs a b) [63; 64; 65] desk_modes 5 {[65 := mkUse 70 0 0 [68]]} (1920, 1080) 68 [BASE + 1] (Some desk_config).
Definition desk_start : Server := desk_with laptop monitor.
Definition desk : World Server := mkWorld _ _ desk_start conf_start false false false false [].

Lemma desk_output a b o out : find_output o (desk_with a b) = Some out → (o = 66 ∧ out = a) ∨ (o = 67 ∧ out = b) ∨ (o = 68 ∧ out = socket).
Proof.
  intros Ho%find_output_in. unfold desk_with, desk_outputs in Ho. cbn [outputs] in Ho. repeat (apply elem_of_cons in Ho as [[= -> ->]|Ho]; [tauto|]). by apply not_elem_of_nil in Ho.
Qed.
Lemma desk_use a b c u : uses (desk_with a b) !! c = Some u → c = 65 ∧ u = mkUse 70 0 0 [68].
Proof. unfold desk_with. cbn [uses]. by intros [<- <-]%lookup_singleton_Some. Qed.
Lemma desk_with_ok a b : out_crtcs a = [63; 64; 65] → out_crtcs b = [63; 64; 65] → server_ok (desk_with a b).
Proof.
  intros Ha Hb. split; try (apply (bool_decide_unpack _); vm_compute; reflexivity).
  - intros c u [-> ->]%desk_use. split_and!; [apply (bool_decide_unpack _); by vm_compute|done|done|]. exists 68. split; [done|]. apply (bool_decide_unpack _). by vm_compute.
  - intros c c' u u' [-> _]%desk_use [-> _]%desk_use _. done.
  - intros o out [[_ ->]|[[_ ->]|[_ ->]]]%desk_output _; [by rewrite Ha|by rewrite Hb|done].
Qed.
Lemma desk_ready : ready_server desk_start.
Proof.
  split; [by apply desk_with_ok|..|by vm_compute|by vm_compute].
  - intros o out [[_ ->]|[[_ ->]|[_ ->]]]%desk_output; cbn; lia.
  - cbn. lia.
  - intros o m x y mi Hw. assert (Ho : is_Some (find_output o desk_start)) by (apply find_output_some; by eapply want_in).
    destruct Ho as [out [[-> _]|[[-> _]|[-> _]]]%desk_output]; vm_compute in Hw; [injection Hw as <- <- <-; intros [= <-]; cbn; lia..|done].
Qed.



(** The same monitors at other sockets. *)
Definition swapped : World Server := desk <| server := desk_with monitor laptop |>.
Lemma profile_key_means_monitors_witness :
  ∃ key w1 w1', build_profile_key desk = Ok key w1 ∧ build_profile_key swapped = Ok key w1'.
Proof.
  assert (Hb : bytes_of (prefixes desk_start) ∧ bytes_of (prefixes (server swapped))).
  { split; intros p Hp; vm_compute in Hp; repeat (apply elem_of_cons in Hp as [->|Hp]; [split; [repeat constructor; lia|done]|]); by apply not_elem_of_nil in Hp. }
  destruct (profile_key_means_monitors desk swapped (desk_with_ok laptop monitor eq_refl eq_refl) (desk_with_ok monitor laptop eq_refl eq_refl) (proj1 Hb) (proj2 Hb)) as (key & key' & w1 & w1' & E & E' & Hiff).
  exists key, w1, w1'. split; [exact E|]. rewrite E'. f_equal. symmetry. apply Hiff. vm_compute. apply Permutation_swap.
Defined.

(** Without a wish the laptop gets its preferred size, at the higher rate. *)
Definition laptop_info : OutputInfo := output_info 66 desk_start laptop.
Lemma mode_chosen_witness : NONE ∉ o_modes laptop_info ∧
  ∃ size mi, wanted_size laptop_info desk_modes no_wish = Some size ∧ candidate laptop_info desk_modes size mi ∧ m_id mi = 70 ∧
    ∀ mi', candidate laptop_info desk_modes size mi' → dlt (isde_randr_refresh mi) (isde_randr_refresh mi') = false.
Proof.
  assert (Hn : NONE ∉ o_modes laptop_info) by (apply (bool_decide_unpack _); by vm_compute). split; [exact Hn|].
  pose proof (mode_chosen (blank_output 66) laptop_info desk_modes no_wish Hn) as Hm. cbn zeta in Hm.
  assert (Ha : action (plan_for (blank_output 66) laptop_info desk_modes no_wish) = PLAN_APPLY) by (by vm_compute). rewrite Ha in Hm.
  destruct Hm as (size & mi & Hw & Hc & Hd & _ & Hf). exists size, mi. split; [done|]. split; [done|]. split; [|done]. rewrite <- Hd. by vm_compute.
Defined.
