(* ===== verification/FmFiles.v ===== *)
(** * File operations of the file manager (fm/src/fileops.c)

    Copying, deleting, the trash.  The system calls are answered by any system
    [F]; what is called is logged.  Loops that no bound limits run on fuel: a run
    that is not over yet has no value but still a log. *)

From S2P Require Import Prelude.
From S2P Require Import CString.
From S2P Require Import CFloat.
From S2P Require Import DesktopEntry.
From stdpp Require Import list.
Open Scope Z_scope.

(** ** System calls *)

Inductive fkind := KDir | KLink | KFile.
#[export] Instance fkind_eq_dec : EqDecision fkind.
Proof. solve_decision. Defined.
Record fstat := mkStat { st_kind : fkind; st_mode : Z; st_size : Z }.

(** The atomic counters of a job. *)
Inductive counter := files_done | files_total | cur_bytes_done | cur_bytes_total | total_bytes_done.

Inductive fcall :=
  | Lstat (p : text) | Opendir (p : text) | Readdir (d : Z) | Closedir (d : Z)
  | Mkdir (p : text) (mode : Z) | Rmdir (p : text) | Unlink (p : text) | Rename (a b : text)
  | Symlink (target p : text) | Readlink (p : text)
  | OpenRead (p : text) | OpenWrite (p : text) (mode : Z) | Fstat (fd : Z)
  | Read (fd : Z) | Write (fd : Z) (data : text) | Close (fd : Z)
  | Cancelled | Store (c : counter) (v : Z) | Bump (c : counter) (v : Z)
  | WriteFile (p data : text) | ReadFile (p : text) | Now.

(** Calls that can fail answer an error number, or 0, or what they found. *)
Definition fresult (c : fcall) : Type :=
  match c with
  | Lstat _ => Z + fstat
  | Opendir _ | OpenRead _ | OpenWrite _ _ | Write _ _ => Z + Z
  | Readdir _ => Z + option text
  | Mkdir _ _ | Rmdir _ | Unlink _ | Rename _ _ | Symlink _ _ | Closedir _ | Close _ => Z
  | Readlink _ | Read _ => Z + text
  | Fstat _ => fstat
  | Cancelled => bool
  | WriteFile _ _ => bool
  | ReadFile _ => option text
  | Now => text
  | Store _ _ | Bump _ _ => unit
  end%type.

Class Posix (F : Type) := perform : ∀ c : fcall, F → fresult c * F.

(** The environment variables that the XDG directories are made from. *)
Class Homes := { XDG_DATA_HOME : option text; home_dir : option text }.

(** What was called, and the answer. *)
Definition event : Type := {c : fcall & fresult c}.
Definition ev (c : fcall) (r : fresult c) : event := existT c r.

Record World (F : Type) := mkWorld { fsys : F; errno : Z; log : list event }.
Arguments mkWorld {F}. Arguments fsys {F}. Arguments errno {F}. Arguments log {F}.
#[export] Instance fworld_eta F : RecEta (World F) := Build_RecEta _ (fun w => mkWorld (fsys w) (errno w) (log w)).

Definition EEXIST : Z := 17.
Definition EXDEV : Z := 18.
Definition PATH_MAX : nat := 4096.

(** Programs: without a value as long as the fuel was not enough. *)
Definition io (F A : Type) : Type := World F → option A * World F.
#[export] Instance io_ret F : MRet (io F) := fun A a w => (Some a, w).
#[export] Instance io_bind F : MBind (io F) :=
  fun A B k m w => match m w with (Some a, w') => k a w' | (None, w') => (None, w') end.

Section Files.
Context {F : Type} `{Posix F}.

Definition unfinished {A} : io F A := fun w => (None, w).
Definition call (c : fcall) : io F (fresult c) :=
  fun w => let '(r, f) := perform c (fsys w) in (Some r, mkWorld f (errno w) (ev c r :: log w)).
Definition get_errno : io F Z := fun w => (Some (errno w), w).
Definition set_errno (e : Z) : io F unit := fun w => (Some tt, w <| errno := e |>).
Definition io_when (b : bool) (m : io F unit) : io F unit := if b then m else mret tt.

(** 0, or -1 with the error number. *)
Definition status (e : Z) : io F Z := if e =? 0 then mret 0 else set_errno e;; mret (-1).
Definition found {A} (r : Z + A) : io F (option A) :=
  match r with inl e => set_errno e;; mret None | inr a => mret (Some a) end.

Definition lstat p : io F (option fstat) := r ← call (Lstat p); found r.
Definition opendir p : io F (option Z) := r ← call (Opendir p); found r.
Definition open_read p : io F (option Z) := r ← call (OpenRead p); found r.
Definition open_write p mode : io F (option Z) := r ← call (OpenWrite p mode); found r.
Definition readlink p : io F (option text) := r ← call (Readlink p); found r.
Definition mkdir p mode : io F Z := e ← call (Mkdir p mode); status e.
Definition rmdir p : io F Z := e ← call (Rmdir p); status e.
Definition unlink p : io F Z := e ← call (Unlink p); status e.
Definition rename a b : io F Z := e ← call (Rename a b); status e.
Definition symlink target p : io F Z := e ← call (Symlink target p); status e.
(** Closing can fail too; nobody looks. *)
Definition close fd : io F Z := e ← call (Close fd); status e.
Definition closedir d : io F Z := e ← call (Closedir d); status e.

(** [cancelled && atomic_load(cancelled)] *)
Definition is_cancelled (live : bool) : io F bool := if live then call Cancelled else mret false.

Definition slash (a b : text) : text := a ++ str "/" ++ b.

(** ** A free name *)

(** The directory with its slash, the name up to the first dot, and the rest. *)
Definition dir_part (p : text) : text :=
  match strchr "/"%char (rev p) with Some r => rev r | None => [] end.
Definition base_part (p : text) : text := rev (before "/" (rev p)).
Definition ext_part (base : text) : text := default [] (strchr "." base).

Definition numbered (dst : text) (i : Z) : text :=
  let base := base_part dst in
  dir_part dst ++ before "." base ++ str " (" ++ digits 10 i ++ str ")" ++ ext_part base.

Fixpoint try_names (k : nat) (dst : text) (i : Z) : io F text :=
  match k with
  | O => mret dst
  | S k' =>
    st ← lstat (numbered dst i);
    match st with None => mret (numbered dst i) | Some _ => try_names k' dst (i + 1) end
  end.

Definition resolve_conflict (dst : text) : io F text :=
  st ← lstat dst;
  match st with None => mret dst | Some _ => try_names 998 dst 2 end.

(** ** One file *)

Fixpoint write_all (n : nat) (fd : Z) (data : text) : io F Z :=
  match data with
  | [] => mret 0
  | _ =>
    match n with
    | O => unfinished
    | S n' =>
      r ← call (Write fd data);
      match r with
      | inl e => set_errno e;; mret (-1)
      | inr w => write_all n' fd (drop (Z.to_nat w) data)
      end
    end
  end.

Fixpoint copy_loop (n : nat) (live : bool) (fd_in fd_out : Z) : io F Z :=
  match n with
  | O => unfinished
  | S n' =>
    r ← call (Read fd_in);
    match r with
    | inl e => set_errno e;; mret (-1)
    | inr [] => mret 0
    | inr data =>
      c ← is_cancelled live;
      if (c : bool) then mret (-1) else
      ret ← write_all n' fd_out data;
      if negb (ret =? 0) then mret ret else
      io_when live (call (Bump cur_bytes_done (Z.of_nat (length data)));; call (Bump total_bytes_done (Z.of_nat (length data))));;
      copy_loop n' live fd_in fd_out
    end
  end.

Definition copy_file_cancellable (n : nat) (live : bool) (src dst : text) : io F Z :=
  i ← open_read src;
  match i with
  | None => mret (-1)
  | Some fd_in =>
    st ← call (Fstat fd_in);
    io_when live (call (Store cur_bytes_total (st_size st));; call (Store cur_bytes_done 0));;
    o ← open_write dst (st_mode st);
    match o with
    | None => close fd_in;; mret (-1)
    | Some fd_out =>
      ret ← copy_loop n live fd_in fd_out;
      close fd_in;; close fd_out;;
      c ← (if ret =? 0 then mret false else is_cancelled live);
      (if (c : bool) then unlink dst;; mret tt else mret tt);;
      mret ret
    end
  end.

(** [copy_file]: without progress and cancellation. *)
Definition copy_file (n : nat) (src dst : text) : io F Z := copy_file_cancellable n false src dst.

(** ** Directories *)

Definition is_dot (name : text) : bool := bool_decide (name = str "." ∨ name = str "..").

(** The entries of an open directory but [.] and [..]; the body says whether to go on.  An
    error of [readdir] is a null pointer, like the end. *)
Fixpoint read_loop (n : nat) (d : Z) (body : text → Z → io F (bool * Z)) (ret : Z) : io F Z :=
  match n with
  | O => unfinished
  | S n' =>
    e ← call (Readdir d);
    match e with
    | inl e => set_errno e;; mret ret
    | inr None => mret ret
    | inr (Some name) =>
      if is_dot name then read_loop n' d body ret else
      r ← body name ret;
      let '(stop, ret) := r in
      if (stop : bool) then mret ret else read_loop n' d body ret
    end
  end.

Fixpoint count_recursive (n : nat) (path : text) : io F Z :=
  match n with
  | O => unfinished
  | S n' =>
    st ← lstat path;
    match st with
    | None => mret 0
    | Some st =>
      if negb (bool_decide (st_kind st = KDir)) then mret 1 else
      d ← opendir path;
      match d with
      | None => mret 0
      | Some d =>
        count ← read_loop n' d (fun name count => c ← count_recursive n' (slash path name); mret (false, count + c)) 0;
        closedir d;;
        mret count
      end
    end
  end.

Fixpoint copy_recursive_cb (n : nat) (live : bool) (src dst : text) : io F Z :=
  match n with
  | O => unfinished
  | S n' =>
    c ← is_cancelled live;
    if (c : bool) then mret (-1) else
    st ← lstat src;
    match st with
    | None => mret (-1)
    | Some st =>
      match st_kind st with
      | KDir =>
        r ← mkdir dst (st_mode st);
        e ← get_errno;
        if negb (r =? 0) && negb (e =? EEXIST) then mret (-1) else
        d ← opendir src;
        match d with
        | None => mret (-1)
        | Some d =>
          ret ← read_loop n' d (fun name ret =>
            c ← is_cancelled live;
            if (c : bool) then mret (true, -1) else
            child_dst ← resolve_conflict (slash dst name);
            r ← copy_recursive_cb n' live (slash src name) child_dst;
            mret (false, if r =? 0 then ret else -1)) 0;
          closedir d;;
          mret ret
        end
      | KLink =>
        t ← readlink src;
        match t with
        | None => mret (-1)
        | Some link_target =>
          resolved ← resolve_conflict dst;
          ret ← symlink (take (PATH_MAX - 1) link_target) resolved;
          io_when live (call (Bump files_done 1));;
          mret ret
        end
      | KFile =>
        ret ← copy_file_cancellable n' live src dst;
        io_when live (call (Bump files_done 1));;
        mret ret
      end
    end
  end.

Fixpoint delete_recursive_cb (n : nat) (live : bool) (path : text) : io F Z :=
  match n with
  | O => unfinished
  | S n' =>
    c ← is_cancelled live;
    if (c : bool) then mret (-1) else
    st ← lstat path;
    match st with
    | None => mret (-1)
    | Some st =>
      if bool_decide (st_kind st = KDir) then
        d ← opendir path;
        match d with
        | None => mret (-1)
        | Some d =>
          ret ← read_loop n' d (fun name ret =>
            c ← is_cancelled live;
            if (c : bool) then mret (true, -1) else
            r ← delete_recursive_cb n' live (slash path name);
            mret (false, if r =? 0 then ret else -1)) 0;
          closedir d;;
          r ← rmdir path;
          mret (if r =? 0 then ret else -1)
        end
      else
        ret ← unlink path;
        io_when live (call (Bump files_done 1));;
        mret ret
    end
  end.

(** Without progress. *)
Fixpoint copy_recursive (n : nat) (src dst : text) : io F Z :=
  match n with
  | O => unfinished
  | S n' =>
    st ← lstat src;
    match st with
    | None => mret (-1)
    | Some st =>
      match st_kind st with
      | KDir =>
        r ← mkdir dst (st_mode st);
        e ← get_errno;
        if negb (r =? 0) && negb (e =? EEXIST) then mret (-1) else
        d ← opendir src;
        match d with
        | None => mret (-1)
        | Some d =>
          ret ← read_loop n' d (fun name ret =>
            child_dst ← resolve_conflict (slash dst name);
            r ← copy_recursive n' (slash src name) child_dst;
            mret (false, if r =? 0 then ret else -1)) 0;
          closedir d;;
          mret ret
        end
      | KLink =>
        t ← readlink src;
        match t with
        | None => mret (-1)
        | Some link_target =>
          resolved ← resolve_conflict dst;
          symlink (take (PATH_MAX - 1) link_target) resolved
        end
      | KFile => copy_file n' src dst
      end
    end
  end.

Fixpoint delete_recursive (n : nat) (path : text) : io F Z :=
  match n with
  | O => unfinished
  | S n' =>
    st ← lstat path;
    match st with
    | None => mret (-1)
    | Some st =>
      if bool_decide (st_kind st = KDir) then
        d ← opendir path;
        match d with
        | None => mret (-1)
        | Some d =>
          ret ← read_loop n' d (fun name ret =>
            r ← delete_recursive n' (slash path name);
            mret (false, if r =? 0 then ret else -1)) 0;
          closedir d;;
          r ← rmdir path;
          mret (if r =? 0 then ret else -1)
        end
      else unlink path
    end
  end.
End Files.
