(* ===== verification/FmTrash.v ===== *)
(** * The trash and the rest of the file operations (fm/src/fileops.c), and what
      the jobs of the queue do (fm/src/jobqueue.c)

    The trash is that of the XDG specification: [files] holds what was thrown away,
    [info] for each of them where it came from, with its path percent-encoded. *)

From S2P Require Import Prelude.
From S2P Require Import CString.
From S2P Require Import CFloat.
From S2P Require Import DesktopEntry.
From S2P Require Import FmFiles.
From stdpp Require Import list.
Open Scope Z_scope.

(** ** Percent encoding *)

Definition between (a b c : ascii) : bool :=
  Nat.leb (nat_of_ascii a) (nat_of_ascii c) && Nat.leb (nat_of_ascii c) (nat_of_ascii b).

Definition kept (c : ascii) : bool :=
  bool_decide (c = "/"%char) || between "A" "Z" c || between "a" "z" c || between "0" "9" c ||
  bool_decide (c ∈ str "-_.~").

Definition hex_digit (n : nat) : ascii :=
  ascii_of_nat (if Nat.ltb n 10 then 48 + n else 55 + n)%nat.

(** [sprintf(p, "%%%02X", c)] *)
Definition hex_code (c : ascii) : text :=
  let n := nat_of_ascii c in ["%"%char; hex_digit (n / 16); hex_digit (n mod 16)].

Fixpoint url_encode_path (path : text) : text :=
  match path with
  | [] => []
  | c :: p => (if kept c then [c] else hex_code c) ++ url_encode_path p
  end.

(** [(char)strtol(hex, NULL, 16)] *)
Definition hex_value (hex : text) : ascii :=
  let '(neg, s) := scan_sign (skip_space (cstr hex)) in
  let '(v, _, _) := scan_digits 16 0 0 s in
  ascii_of_nat (Z.to_nat ((if neg then - v else v) mod 256)).

Fixpoint url_decode (val : text) : text :=
  match val with
  | c :: rest =>
    if bool_decide (c = "%"%char) then
      match rest with
      | a :: b :: rest' => hex_value [a; b] :: url_decode rest'
      | _ => c :: url_decode rest
      end
    else c :: url_decode rest
  | [] => []
  end.

(** ** The trash *)

Section Trash.
Context {F : Type} `{Posix F} `{Homes}.

Definition isde_xdg_data_home : text :=
  match XDG_DATA_HOME with
  | Some (c :: v) => c :: v
  | _ => trunc 512 (default (str "/tmp") home_dir ++ str "/.local/share")
  end.

Definition get_trash_dir : text := isde_xdg_data_home ++ str "/Trash".

Definition ensure_one (path : text) (mode : Z) : io F bool :=
  r ← mkdir path mode;
  e ← get_errno;
  mret ((r =? 0) || (e =? EEXIST)).

Definition ensure_trash_dirs (trash_dir : text) : io F Z :=
  a ← ensure_one trash_dir 448;
  if negb (a : bool) then mret (-1) else
  b ← ensure_one (trunc PATH_MAX (trash_dir ++ str "/files")) 448;
  if negb (b : bool) then mret (-1) else
  c ← ensure_one (trunc PATH_MAX (trash_dir ++ str "/info")) 448;
  mret (if (c : bool) then 0 else -1).

Definition trash_path (trash_dir sub name : text) : text := trunc PATH_MAX (trash_dir ++ sub ++ name).

Definition trash_name (basename : text) (i : Z) : text :=
  trunc PATH_MAX (before "." basename ++ str "." ++ digits 10 i ++ ext_part basename).

Fixpoint try_trash_names (k : nat) (trash_dir basename : text) (i : Z) : io F text :=
  match k with
  | O => mret basename
  | S k' =>
    st ← lstat (trash_path trash_dir (str "/files/") (trash_name basename i));
    match st with
    | None => mret (trash_name basename i)
    | Some _ => try_trash_names k' trash_dir basename (i + 1)
    end
  end.

Definition unique_trash_name (trash_dir basename : text) : io F text :=
  st ← lstat (trash_path trash_dir (str "/files/") basename);
  match st with None => mret basename | Some _ => try_trash_names 9998 trash_dir basename 2 end.

(** Renaming, or copying and deleting across file systems. *)
Definition move_over (n : nat) (src dst : text) : io F Z :=
  r ← rename src dst;
  if r =? 0 then mret 0 else
  e ← get_errno;
  if e =? EXDEV then
    ret ← copy_recursive n src dst;
    if ret =? 0 then delete_recursive n src;; mret ret else mret ret
  else mret (-1).

Definition trashinfo (path date : text) : text :=
  str "[Trash Info]" ++ [LF] ++ str "Path=" ++ url_encode_path path ++ [LF] ++ str "DeletionDate=" ++ date ++ [LF].

Definition info_file (trash_dir name : text) : text := trunc PATH_MAX (trash_dir ++ str "/info/" ++ name ++ str ".trashinfo").

Definition fileops_trash (n : nat) (path : text) : io F Z :=
  let trash_dir := get_trash_dir in
  r ← ensure_trash_dirs trash_dir;
  if negb (r =? 0) then mret (-1) else
  name ← unique_trash_name trash_dir (base_part path);
  ret ← move_over n path (trash_path trash_dir (str "/files/") name);
  if ret =? 0 then
    date ← call Now;
    call (WriteFile (info_file trash_dir name) (trashinfo path date));;
    mret ret
  else mret ret.

(** ** Back from the trash *)

Definition has_path (line : text) : option text :=
  if bool_decide (take 5 line = str "Path=") then Some (url_decode (before LF (drop 5 line))) else None.

Fixpoint first_path (lines : list text) : option text :=
  match lines with
  | [] => None
  | l :: ls => match has_path (cstr l) with Some p => Some (cstr p) | None => first_path ls end
  end.

Definition read_trashinfo_path (info_path : text) : io F (option text) :=
  f ← call (ReadFile info_path);
  mret (match f with Some file => first_path (fgets_sized (PATH_MAX - 1) (PATH_MAX - 1) [] file) | None => None end).

(** The directories above, from the top: [mkdir] of every prefix that ends at a slash. *)
Fixpoint make_parents (done rest : text) : io F unit :=
  match rest with
  | [] => mret tt
  | c :: rest' =>
    (if bool_decide (c = "/"%char) then mkdir done 493;; mret tt else mret tt);;
    make_parents (done ++ [c]) rest'
  end.

Definition parent_part (p : text) : option text :=
  match strchr "/"%char (rev p) with Some (_ :: r) => Some (rev r) | _ => None end.

Definition restore_parents (orig_path : text) : io F unit :=
  match parent_part orig_path with
  | Some (c :: parent) => make_parents [c] parent;; mkdir (c :: parent) 493;; mret tt
  | _ => mret tt
  end.

Definition fileops_restore (n : nat) (name : text) : io F Z :=
  let trash_dir := get_trash_dir in
  let info_path := info_file trash_dir name in
  orig ← read_trashinfo_path info_path;
  match orig with
  | None => mret (-1)
  | Some orig_path =>
    restore_parents orig_path;;
    dst ← resolve_conflict orig_path;
    ret ← move_over n (trash_path trash_dir (str "/files/") name) dst;
    if ret =? 0 then unlink info_path;; mret ret else mret ret
  end.

(** ** The rest *)

Definition fileops_empty_trash (n : nat) : io F Z :=
  let trash_dir := get_trash_dir in
  let files := trash_path trash_dir (str "/files") [] in
  let info := trash_path trash_dir (str "/info") [] in
  d ← opendir files;
  ret ← match d with
        | None => mret 0
        | Some d =>
          ret ← read_loop n d (fun name ret =>
            r ← delete_recursive n (trunc PATH_MAX (slash files name)); mret (false, if r =? 0 then ret else -1)) 0;
          closedir d;; mret ret
        end;
  d ← opendir info;
  match d with
  | None => mret ret
  | Some d =>
    read_loop n d (fun name ret => unlink (trunc PATH_MAX (slash info name));; mret (false, ret)) ret ≫= fun _ =>
    closedir d;; mret ret
  end.

Definition fileops_trash_path : io F text :=
  let trash_dir := get_trash_dir in
  ensure_trash_dirs trash_dir;; mret (trash_dir ++ str "/files").

Definition fileops_copy (n : nat) (src dst : text) : io F Z :=
  resolved ← resolve_conflict dst; copy_recursive n src resolved.

Fixpoint try_mkdirs (k : nat) (cwd name : text) (i : Z) (ret : Z) : io F Z :=
  match k with
  | O => mret ret
  | S k' =>
    r ← mkdir (trunc 512 (slash cwd name ++ str " (" ++ digits 10 i ++ str ")")) 493;
    if r =? 0 then mret 0 else try_mkdirs k' cwd name (i + 1) ret
  end.

Definition fileops_mkdir (cwd name : text) : io F Z :=
  ret ← mkdir (slash cwd name) 493;
  e ← get_errno;
  if negb (ret =? 0) && (e =? EEXIST) then try_mkdirs 98 cwd name 2 ret else mret ret.

Definition fileops_delete (n : nat) (path : text) : io F Z := delete_recursive n path.

Definition fileops_rename (cwd oldpath newname : text) : io F Z :=
  let dir := match dir_part oldpath with [] => cwd | d => d end in
  rename oldpath (slash dir newname).

Definition fileops_count_files (n : nat) (path : text) : io F Z := count_recursive n path.
Definition fileops_copy_progress (n : nat) (src dst : text) : io F Z :=
  resolved ← resolve_conflict dst; copy_recursive_cb n true src resolved.
Definition fileops_delete_progress (n : nat) (path : text) : io F Z := delete_recursive_cb n true path.

(** ** Jobs *)

Inductive FmJobType := FM_JOB_COPY | FM_JOB_MOVE | FM_JOB_DELETE | FM_JOB_TRASH | FM_JOB_EMPTY_TRASH.

(** [files_total]: all sources are counted first. *)
Fixpoint count_all (n : nat) (srcs : list text) (total : Z) : io F unit :=
  match srcs with
  | [] => call (Store files_total total)
  | s :: ss => c ← fileops_count_files n s; count_all n ss (total + c)
  end.

(** [job->error]: the first one stays. *)
Definition note_error (ret error : Z) : io F Z :=
  e ← get_errno; mret (if negb (ret =? 0) && (error =? 0) then e else error).

Definition dest_of (dst_dir src : text) : text := slash dst_dir (base_part src).

Definition exec_copy_one (n : nat) (dst_dir src : text) (error : Z) : io F Z :=
  ret ← fileops_copy_progress n src (dest_of dst_dir src);
  note_error ret error.

Definition exec_move_one (n : nat) (dst_dir src : text) (error : Z) : io F Z :=
  let dest := dest_of dst_dir src in
  if bool_decide (src = dest) then
    c ← fileops_count_files n src;
    call (Bump files_done c);; mret error
  else
    ret ← rename src dest;
    ret ← (if ret =? 0 then
             c ← fileops_count_files n dest;
             call (Bump files_done c);; mret ret
           else
             e ← get_errno;
             if e =? EXDEV then
               ret ← fileops_copy_progress n src dest;
               if ret =? 0 then fileops_delete n src;; mret ret else mret ret
             else mret ret);
    note_error ret error.

Definition exec_delete_one (n : nat) (src : text) (error : Z) : io F Z :=
  ret ← fileops_delete_progress n src; note_error ret error.

(** The sources in turn, until the job is cancelled. *)
Fixpoint each_source (one : text → Z → io F Z) (srcs : list text) (error : Z) : io F Z :=
  match srcs with
  | [] => mret error
  | s :: ss =>
    c ← call Cancelled;
    if (c : bool) then mret error else error ← one s error; each_source one ss error
  end.

Definition exec_copy (n : nat) (srcs : list text) (dst_dir : text) : io F Z :=
  count_all n srcs 0;; each_source (exec_copy_one n dst_dir) srcs 0.
Definition exec_move (n : nat) (srcs : list text) (dst_dir : text) : io F Z :=
  count_all n srcs 0;; each_source (exec_move_one n dst_dir) srcs 0.
Definition exec_delete (n : nat) (srcs : list text) : io F Z :=
  count_all n srcs 0;; each_source (exec_delete_one n) srcs 0.

(** [files_done] counts the items. *)
Fixpoint trash_each (n : nat) (srcs : list text) (i error : Z) : io F Z :=
  match srcs with
  | [] => mret error
  | s :: ss =>
    c ← call Cancelled;
    if (c : bool) then mret error else
    ret ← fileops_trash n s;
    error ← note_error ret error;
    call (Store files_done (i + 1));;
    trash_each n ss (i + 1) error
  end.

Definition exec_trash (n : nat) (srcs : list text) : io F Z :=
  call (Store files_total (Z.of_nat (length srcs)));; trash_each n srcs 0 0.

Definition exec_empty_trash (n : nat) : io F Z :=
  call (Store files_total 1);;
  ret ← fileops_empty_trash n;
  error ← note_error ret 0;
  call (Store files_done 1);;
  mret error.
End Trash.
