(* ===== verification/FmFilesProof.v ===== *)
(** * File operations: what they may touch

    These lemmas hold on every system: they are about the calls in the log, of runs
    that end and of runs that do not. *)

From S2P Require Import Prelude.
From S2P Require Import CString.
From S2P Require Import CFloat.
From S2P Require Import DesktopEntry.
From S2P Require Import FmFiles.
From S2P Require Import FmTrash.
From stdpp Require Import list.
Open Scope Z_scope.

Section Does.
Context {F : Type} `{Posix F}.

(** [does P m]: every call of [m] and its answer satisfy [P]. *)
Definition does {A} (P : event → Prop) (m : io F A) : Prop :=
  ∀ w, ∃ new, log (m w).2 = new ++ log w ∧ Forall P new.

(** [gives P m Q]: moreover, when it is over, its value and its calls satisfy [Q]. *)
Definition gives {A} (P : event → Prop) (m : io F A) (Q : A → list event → Prop) : Prop :=
  ∀ w, ∃ new, log (m w).2 = new ++ log w ∧ Forall P new ∧ match (m w).1 with Some a => Q a new | None => True end.

Context (P : event → Prop).

Lemma does_ret {A} (a : A) : does P (mret a : io F A).
Proof. intros w. by exists []. Qed.
Lemma does_unfinished {A} : does P (unfinished : io F A).
Proof. intros w. by exists []. Qed.
Lemma does_bind {A B} (m : io F A) (k : A → io F B) : does P m → (∀ a, does P (k a)) → does P (m ≫= k).
Proof.
  intros Hm Hk w. unfold mbind, io_bind. destruct (Hm w) as (n1 & E1 & H1). destruct (m w) as [[a|] w']; [|by exists n1].
  destruct (Hk a w') as (n2 & E2 & H2). exists (n2 ++ n1). rewrite E2. cbn in E1. rewrite E1, app_assoc. split; [done|].
  by apply Forall_app.
Qed.
Lemma does_call c : (∀ r, P (ev c r)) → does P (call c).
Proof.
  intros Hc w. unfold call. destruct (perform c (fsys w)) as [r f]. exists [ev c r]. split; [done|]. by constructor.
Qed.
Lemma does_get_errno : does P get_errno.
Proof. intros w. by exists []. Qed.
Lemma does_set_errno e : does P (set_errno e : io F unit).
Proof. intros w. by exists []. Qed.
Lemma does_when b m : (b = true → does P m) → does P (io_when b m).
Proof. destruct b; [auto|]. intros _. apply does_ret. Qed.
Lemma does_status e : does P (status e : io F Z).
Proof. unfold status. destruct (e =? 0); [apply does_ret|]. apply does_bind; [apply does_set_errno|]. intros ?. apply does_ret. Qed.
Lemma does_found {A} (r : Z + A) : does P (found r : io F (option A)).
Proof. destruct r; [|apply does_ret]. apply does_bind; [apply does_set_errno|]. intros ?. apply does_ret. Qed.
End Does.

Lemma does_weaken {F} `{Posix F} {A} (P Q : event → Prop) (m : io F A) : (∀ e, P e → Q e) → does P m → does Q m.
Proof. intros HPQ Hm w. destruct (Hm w) as (n & E & Hn). exists n. split; [done|]. by eapply Forall_impl. Qed.

(** The steps of a proof of [does]; what remains are conditions on calls. *)
Create HintDb does discriminated.
#[export] Hint Resolve does_ret does_unfinished does_get_errno does_set_errno does_status does_found : does.

Ltac does_step :=
  lazymatch goal with
  | |- does _ (resolve_conflict _ ≫= _) => fail
  | |- does _ (_ ≫= _) => apply does_bind; [|intros ?]
  | |- does _ (io_when _ _) => apply does_when; intros ?
  | |- does ?P (call ?c) => apply (does_call P c); intros ?
  | |- does _ (if ?b then _ else _) => destruct b eqn:?
  | |- does _ (match ?x with _ => _ end) => destruct x eqn:?
  | |- does _ (let '(_, _) := ?x in _) => destruct x
  | |- does _ _ => solve [eauto with does]
  end.
Ltac does := repeat does_step.

(** ** Paths *)

(** [p] is [root] or a file or directory below it; links are not followed, and no step
    goes up. *)
Inductive under (root : text) : text → Prop :=
  | under_root : under root root
  | under_entry p name : under root p → is_dot name = false → under root (slash p name).

(** A path that a call changes. *)
Definition changes (c : fcall) : list text :=
  match c with
  | Mkdir p _ | Rmdir p | Unlink p | Symlink _ p | OpenWrite p _ | WriteFile p _ => [p]
  | Rename a b => [a; b]
  | _ => []
  end.

(** The small programs, and what a sub-program may call. *)
Ltac ops := unfold is_cancelled, lstat, opendir, open_read, open_write, readlink, mkdir, rmdir, unlink, rename, symlink, close, closedir.

Section Changes.
Context {F : Type} `{Posix F}.

Lemma read_loop_does P n d body ret :
  (∀ x, P (ev (Readdir d) x)) → (∀ name ret, is_dot name = false → does P (body name ret)) →
  does P (read_loop n d body ret : io F Z).
Proof.
  intros Hr Hb. revert ret. induction n as [|n IH]; intros ret; cbn [read_loop]; does; auto.
Qed.

(** *** Deleting changes nothing but what is under the path, and opens directories only
    there *)
Definition deletes (root : text) (e : event) : Prop :=
  match projT1 e with
  | Rmdir p | Unlink p | Opendir p | Lstat p => under root p
  | Readdir _ | Closedir _ | Cancelled | Bump _ _ => True
  | _ => False
  end.

Lemma delete_does n live path root : under root path → does (deletes root) (delete_recursive_cb n live path : io F Z).
Proof.
  revert path. induction n as [|n IH]; intros path Hp; cbn [delete_recursive_cb]; [does|].
  ops. does; try done. apply read_loop_does; [done|]. intros name ret Hn. does; [done|].
  apply IH. by apply under_entry.
Qed.

(** *** Copying only writes under the destination, or at a free name next to one of its
    paths, and only reads elsewhere *)
Inductive into (dst : text) : text → Prop :=
  | into_self : into dst dst
  | into_numbered p i : into dst p → into dst (numbered p i)
  | into_entry p name : into dst p → is_dot name = false → into dst (slash p name).

Definition copies (src dst : text) (e : event) : Prop :=
  match projT1 e with
  | Mkdir p _ | Symlink _ p | OpenWrite p _ | Unlink p => into dst p
  | OpenRead p | Opendir p | Readlink p => under src p
  | Lstat _ | Readdir _ | Closedir _ | Fstat _ | Read _ | Write _ _ | Close _
  | Cancelled | Store _ _ | Bump _ _ => True
  | _ => False
  end.

(** The value of a program. *)
Definition yields {A} (Q : A → Prop) (m : io F A) : Prop := ∀ w, match (m w).1 with Some a => Q a | None => True end.

Lemma yields_ret {A} (Q : A → Prop) a : Q a → yields Q (mret a).
Proof. by intros ? w. Qed.
Lemma yields_bind {A B} (Q : B → Prop) (m : io F A) k : (∀ a, yields Q (k a)) → yields Q (m ≫= k).
Proof. intros Hk w. unfold mbind, io_bind. destruct (m w) as [[a|] w']; [|done]. apply Hk. Qed.

(** A bind that knows what the value is. *)
Lemma does_bind_yields {A B} P (Q : A → Prop) (m : io F A) (k : A → io F B) :
  does P m → yields Q m → (∀ a, Q a → does P (k a)) → does P (m ≫= k).
Proof.
  intros Hm HQ Hk w. unfold mbind, io_bind. destruct (Hm w) as (n1 & E1 & H1). specialize (HQ w).
  destruct (m w) as [[a|] w']; [|by exists n1]. destruct (Hk a HQ w') as (n2 & E2 & H2). exists (n2 ++ n1).
  rewrite E2. cbn in E1. rewrite E1, app_assoc. split; [done|]. by apply Forall_app.
Qed.

Lemma resolve_yields root dst : into root dst → yields (into root) (resolve_conflict dst).
Proof.
  intros Hd. unfold resolve_conflict. apply yields_bind. intros [st|]; [|by apply yields_ret].
  generalize 998%nat, 2. intros k. induction k as [|k IH]; intros i; cbn [try_names]; [by apply yields_ret|].
  apply yields_bind. intros [st'|]; [apply IH|]. by apply yields_ret, into_numbered.
Qed.

Lemma resolve_does P dst : (∀ p r, P (ev (Lstat p) r)) → does P (resolve_conflict dst : io F text).
Proof.
  intros Hl. unfold resolve_conflict. ops. does; auto.
  generalize 998%nat, 2. intros k. induction k as [|k IH]; intros i; cbn [try_names]; ops; does; auto.
Qed.

Lemma write_all_does P n fd data : (∀ d r, P (ev (Write fd d) r)) → does P (write_all n fd data : io F Z).
Proof. intros Hw. revert data. induction n as [|n IH]; intros [|c data]; cbn [write_all]; does; auto. Qed.

Lemma copy_loop_does src dst n live a b : does (copies src dst) (copy_loop n live a b : io F Z).
Proof. induction n as [|n IH]; cbn [copy_loop]; ops; does; try done. by apply write_all_does. Qed.

Lemma copy_file_does root dst n live p q :
  under root p → into dst q → does (copies root dst) (copy_file_cancellable n live p q : io F Z).
Proof.
  intros Hp Hq. unfold copy_file_cancellable. ops. does; try done. apply copy_loop_does.
Qed.

Lemma copy_does n live p q root dst :
  under root p → into dst q → does (copies root dst) (copy_recursive_cb n live p q : io F Z).
Proof.
  revert p q. induction n as [|n IH]; intros p q Hp Hq; cbn [copy_recursive_cb]; [does|].
  unfold is_cancelled, lstat, opendir, mkdir, readlink, closedir. does; try done.
  - apply read_loop_does; [done|]. intros name ret Hn. does; try done.
    apply (does_bind_yields _ (into dst)); [by apply resolve_does|by apply resolve_yields, into_entry|].
    intros c Hc. does. apply IH; [by apply under_entry|done].
  - apply (does_bind_yields _ (into dst)); [by apply resolve_does|by apply resolve_yields|].
    intros c Hc. unfold symlink. by does.
  - by apply copy_file_does.
Qed.

(** *** The versions without progress are those with null pointers *)

Lemma io_bind_ext {A B} (m m' : io F A) (k k' : A → io F B) w :
  m w = m' w → (∀ a w', k a w' = k' a w') → (m ≫= k) w = (m' ≫= k') w.
Proof. intros Hm Hk. unfold mbind, io_bind. rewrite Hm. destruct (m' w) as [[a|] w']; auto. Qed.
Lemma bind_ret {A} (m : io F A) w : (m ≫= mret) w = m w.
Proof. unfold mbind, io_bind. by destruct (m w) as [[a|] w']. Qed.
Lemma read_loop_ext n d body body' ret w :
  (∀ name ret w, body name ret w = body' name ret w) → read_loop n d body ret w = read_loop n d body' ret w.
Proof.
  intros Hb. revert ret w. induction n as [|n IH]; intros ret w; cbn [read_loop]; [done|]. apply io_bind_ext; [done|].
  intros [e|[name|]] w'; [done| |done]. destruct (is_dot name); [apply IH|]. apply io_bind_ext; [done|]. intros [[] z] w2; [done|apply IH].
Qed.

Lemma copy_recursive_eq n p q w : copy_recursive n p q w = copy_recursive_cb n false p q w.
Proof.
  revert p q w. induction n as [|n IH]; intros p q w; cbn [copy_recursive copy_recursive_cb]; [done|].
  change ((is_cancelled false ≫= ?k) w) with (k false w). cbv beta iota. apply io_bind_ext; [done|].
  intros [st|] w1; [|done]. destruct (st_kind st).
  - do 2 (apply io_bind_ext; [done|]; intros ? ?). destruct (negb _ && _); [done|]. apply io_bind_ext; [done|].
    intros [d|] w2; [|done]. apply io_bind_ext; [|done]. apply read_loop_ext. intros name ret w3.
    change ((is_cancelled false ≫= ?k) w3) with (k false w3). cbv beta iota.
    apply io_bind_ext; [done|]. intros c w4. apply io_bind_ext; [apply IH|done].
  - apply io_bind_ext; [done|]. intros [t|] w2; [|done]. apply io_bind_ext; [done|]. intros r w3. symmetry. apply bind_ret.
  - symmetry. apply bind_ret.
Qed.

Lemma delete_recursive_eq n p w : delete_recursive n p w = delete_recursive_cb n false p w.
Proof.
  revert p w. induction n as [|n IH]; intros p w; cbn [delete_recursive delete_recursive_cb]; [done|].
  change ((is_cancelled false ≫= ?k) w) with (k false w). cbv beta iota. apply io_bind_ext; [done|].
  intros [st|] w1; [|done]. destruct (bool_decide _).
  - apply io_bind_ext; [done|]. intros [d|] w2; [|done]. apply io_bind_ext; [|done]. apply read_loop_ext. intros name ret w3.
    change ((is_cancelled false ≫= ?k) w3) with (k false w3). cbv beta iota. apply io_bind_ext; [apply IH|done].
  - symmetry. apply bind_ret.
Qed.

(** ** The story of a run

    Its calls in the order they were made, without asking whether it is cancelled and
    without the counters. *)
Definition noise (e : event) : bool :=
  match projT1 e with Cancelled | Store _ _ | Bump _ _ => true | _ => false end.
Definition story (new : list event) : list event := List.filter (fun e => negb (noise e)) (rev new).

Lemma story_app n2 n1 : story (n2 ++ n1) = story n1 ++ story n2.
Proof. unfold story. by rewrite rev_app_distr, List.filter_app. Qed.

Lemma story_forall (P : event → Prop) new : Forall P new → Forall P (story new).
Proof.
  intros Hn. unfold story. rewrite Forall_forall in Hn |- *. intros e.
  rewrite list_elem_of_In, filter_In, <- in_rev, <- list_elem_of_In. naive_solver.
Qed.

(** [traces Q m]: the value of [m], if it is over, and its story. *)
Definition traces_at {A} (Q : option A → list event → Prop) (m : io F A) (w : World F) : Prop :=
  ∃ new, log (m w).2 = new ++ log w ∧ Q (m w).1 (story new).
Definition traces {A} (Q : option A → list event → Prop) (m : io F A) : Prop := ∀ w, traces_at Q m w.

Lemma traces_ret {A} (Q : option A → list event → Prop) a : Q (Some a) [] → traces Q (mret a).
Proof. intros HQ w. by exists []. Qed.
Lemma traces_unfinished {A} (Q : option A → list event → Prop) : Q None [] → traces Q unfinished.
Proof. intros HQ w. by exists []. Qed.
Lemma traces_bind {A B} (Q1 : option A → list event → Prop) (Q : option B → list event → Prop) (m : io F A) k :
  traces Q1 m → (∀ es, Q1 None es → Q None es) →
  (∀ a es, Q1 (Some a) es → traces (fun o es' => Q o (es ++ es')) (k a)) → traces Q (m ≫= k).
Proof.
  intros Hm Hn Hk w. unfold traces_at, mbind, io_bind. destruct (Hm w) as (n1 & E1 & H1). destruct (m w) as [[a|] w'].
  - destruct (Hk a _ H1 w') as (n2 & E2 & H2). exists (n2 ++ n1). cbn in E1. rewrite E2, E1, app_assoc, story_app. done.
  - exists n1. split; [done|]. by apply Hn.
Qed.
Lemma traces_call c (Q : option (fresult c) → list event → Prop) : (∀ r, Q (Some r) (story [ev c r])) → traces Q (call c).
Proof. intros HQ w. unfold traces_at, call. destruct (perform c (fsys w)) as [r f]. exists [ev c r]. split; [done|]. apply HQ. Qed.
Lemma traces_ext {A} (m' : io F A) (Q : option A → list event → Prop) m : (∀ w, m w = m' w) → traces Q m' → traces Q m.
Proof. intros E Hm w. unfold traces_at. rewrite E. apply Hm. Qed.
Lemma traces_mono {A} (Q Q' : option A → list event → Prop) m : (∀ o n, Q o n → Q' o n) → traces Q m → traces Q' m.
Proof. intros HQ Hm w. destruct (Hm w) as (n & E & Hn). exists n. auto. Qed.
Lemma traces_and {A} (Q Q' : option A → list event → Prop) m : traces Q m → traces Q' m → traces (fun o n => Q o n ∧ Q' o n) m.
Proof.
  intros H1 H2 w. destruct (H1 w) as (n & E & Hn), (H2 w) as (n' & E' & Hn'). rewrite E in E'.
  apply app_inv_tail in E' as <-. by exists n.
Qed.
Lemma traces_does {A} P (m : io F A) : does P m → traces (fun _ => Forall P) m.
Proof. intros Hm w. destruct (Hm w) as (n & E & Hn). exists n. split; [done|]. by apply story_forall. Qed.

(** A call and what is made of its answer. *)
Lemma traces_then {B} c (Q : option B → list event → Prop) (k : fresult c → io F B) :
  (∀ r, traces (fun o es => Q o (story [ev c r] ++ es)) (k r)) → traces Q (r ← call c; k r).
Proof.
  intros Hk. eapply (traces_bind (fun o es => ∃ r, o = Some r ∧ es = story [ev c r])).
  - apply traces_call. intros r. by exists r.
  - by intros es (r & ? & _).
  - intros a es (r & [= ->] & ->). apply Hk.
Qed.
Lemma traces_set_errno {B} e (Q : option B → list event → Prop) (k : io F B) : traces Q k → traces Q (set_errno e;; k).
Proof. intros Hk w. exact (Hk (w <| errno := e |>)). Qed.
Lemma traces_get_errno {B} (Q : option B → list event → Prop) (k : Z → io F B) : (∀ e, traces Q (k e)) → traces Q (e ← get_errno; k e).
Proof. intros Hk w. exact (Hk (errno w) w). Qed.
Lemma traces_found {A B} c (f : fresult c → Z + A) (Q : option B → list event → Prop) (k : option A → io F B) :
  (∀ r, traces (fun o es => Q o (story [ev c r] ++ es)) (k (match f r with inl _ => None | inr a => Some a end))) →
  traces Q (o ← (r ← call c; found (f r)); k o).
Proof.
  intros Hk w. specialize (Hk (perform c (fsys w)).1). unfold traces_at, mbind, io_bind, call.
  destruct (perform c (fsys w)) as [r s]. cbn in Hk. unfold found. destruct (f r) as [e|x].
  - set (w1 := (mkWorld s (errno w) (ev c r :: log w)) <| errno := e |>).
    destruct (Hk w1) as (n & E & Hn). exists (n ++ [ev c r]).
    change (log (k None w1).2 = (n ++ [ev c r]) ++ log w ∧ Q (k None w1).1 (story (n ++ [ev c r]))). cbn in E.
    rewrite E, story_app, <- app_assoc. done.
  - destruct (Hk (mkWorld s (errno w) (ev c r :: log w))) as (n & E & Hn). exists (n ++ [ev c r]). cbn. cbn in E.
    rewrite E, story_app, <- app_assoc. done.
Qed.
Lemma traces_at_errno {B} (Q : option B → list event → Prop) (k : Z → io F B) w :
  traces_at Q (k (errno w)) w → traces_at Q (e ← get_errno; k e) w.
Proof. done. Qed.
(** With the error number of a call that failed. *)
Lemma traces_status {B} c (f : fresult c → Z) (Q : option B → list event → Prop) (k : Z → io F B) :
  (∀ r, f r = 0 → traces (fun o es => Q o (story [ev c r] ++ es)) (k 0)) →
  (∀ r w, f r ≠ 0 → errno w = f r → traces_at (fun o es => Q o (story [ev c r] ++ es)) (k (-1)) w) →
  traces Q (z ← (r ← call c; status (f r)); k z).
Proof.
  intros H0 H1 w. specialize (H0 (perform c (fsys w)).1). specialize (H1 (perform c (fsys w)).1).
  unfold traces_at, mbind, io_bind, call. destruct (perform c (fsys w)) as [r s]. cbn in H0, H1. unfold status.
  destruct (Z.eqb_spec (f r) 0) as [Hr|Hr]; cbn.
  - destruct (H0 Hr (mkWorld s (errno w) (ev c r :: log w))) as (n & E & Hn). exists (n ++ [ev c r]). cbn in E.
    rewrite E, story_app, <- app_assoc. done.
  - set (w1 := (mkWorld s (errno w) (ev c r :: log w)) <| errno := f r |>).
    destruct (H1 w1 Hr eq_refl) as (n & E & Hn). exists (n ++ [ev c r]). cbn in E.
    change (log (k (-1) w1).2 = (n ++ [ev c r]) ++ log w ∧ Q (k (-1) w1).1 (story (n ++ [ev c r]))).
    rewrite E, story_app, <- app_assoc. done.
Qed.

(** Whatever the status is. *)
Lemma traces_any_status {B} c (f : fresult c → Z) (Q : option B → list event → Prop) (k : Z → io F B) :
  (∀ r z, traces (fun o es => Q o (story [ev c r] ++ es)) (k z)) → traces Q (z ← (r ← call c; status (f r)); k z).
Proof. intros Hk. apply traces_status; [auto|]. intros r w _ _. apply Hk. Qed.

Lemma traces_cancelled {B} live (Q : option B → list event → Prop) (k : bool → io F B) :
  (∀ c, traces Q (k c)) → traces Q (c ← is_cancelled live; k c).
Proof. intros Hk. destruct live; [|exact (Hk false)]. apply (traces_then Cancelled). intros r. apply Hk. Qed.
Lemma traces_quiet {B} live n v (Q : option B → list event → Prop) (k : io F B) :
  traces Q k → traces Q (io_when live (call (Bump n v));; k).
Proof. intros Hk. destruct live; [|exact Hk]. apply (traces_then (Bump n v)). intros r. exact Hk. Qed.


(** *** Deleting

    What the story of a deletion of [p] can be, also of one that was cancelled or is
    not over.  Only what [lstat] has just shown to be a directory is opened and removed
    as one; what it has shown to be something else, a link included, is unlinked itself;
    the next paths are names that the open directory has listed. *)
Inductive delete_story : text → list event → Prop :=
  | deleting_not p : delete_story p []
  | deleting_gone p e : delete_story p [ev (Lstat p) (inl e)]
  | deleting_other p st es :
    st_kind st ≠ KDir → (es = [] ∨ ∃ r, es = [ev (Unlink p) r]) → delete_story p (ev (Lstat p) (inr st) :: es)
  | deleting_closed p st e :
    st_kind st = KDir → delete_story p [ev (Lstat p) (inr st); ev (Opendir p) (inl e)]
  | deleting_dir p st d es rest :
    st_kind st = KDir → delete_entries p d es →
    (rest = [] ∨ (∃ c, rest = [ev (Closedir d) c]) ∨ ∃ c r, rest = [ev (Closedir d) c; ev (Rmdir p) r]) →
    delete_story p (ev (Lstat p) (inr st) :: ev (Opendir p) (inr d) :: es ++ rest)
with delete_entries : text → Z → list event → Prop :=
  | deleting_stop p d : delete_entries p d []
  | deleting_end p d r : (r = inr None ∨ ∃ e, r = inl e) → delete_entries p d [ev (Readdir d) r]
  | deleting_dot p d name es :
    is_dot name = true → delete_entries p d es → delete_entries p d (ev (Readdir d) (inr (Some name)) :: es)
  | deleting_entry p d name sub es :
    is_dot name = false → delete_story (slash p name) sub → delete_entries p d es →
    delete_entries p d (ev (Readdir d) (inr (Some name)) :: sub ++ es).

Lemma traces_delete_loop n p d body ret :
  (∀ name r, is_dot name = false → traces (fun _ es => delete_story (slash p name) es) (body name r)) →
  traces (fun _ es => delete_entries p d es) (read_loop n d body ret : io F Z).
Proof.
  intros Hb. revert ret. induction n as [|n IH]; intros ret; cbn [read_loop]; [apply traces_unfinished, deleting_stop|].
  apply (traces_then (Readdir d)). intros [e|[name|]]; [apply traces_set_errno|..]; try (apply traces_ret; apply deleting_end; eauto).
  destruct (is_dot name) eqn:En.
  - eapply traces_mono; [|apply IH]. intros o es Hes. by apply deleting_dot.
  - eapply traces_bind; [by apply Hb|..]; cbn beta.
    + intros es Hes. rewrite <- (app_nil_r es). apply (deleting_entry p d name es []); [done|done|apply deleting_stop].
    + intros [stop r] es Hes. destruct stop.
      * apply traces_ret. apply (deleting_entry p d name es []); [done|done|apply deleting_stop].
      * eapply traces_mono; [|apply IH]. intros o es' Hes'. by apply (deleting_entry p d name es es').
Qed.

Lemma traces_delete n live p : traces (fun _ => delete_story p) (delete_recursive_cb n live p : io F Z).
Proof.
  revert p. induction n as [|n IH]; intros p; cbn [delete_recursive_cb]; [apply traces_unfinished, deleting_not|].
  apply traces_cancelled. intros []; [apply traces_ret, deleting_not|].
  apply (traces_found (Lstat p) (fun r => r)). intros [e|st]; [apply traces_ret, deleting_gone|].
  case_bool_decide as Hst.
  - apply (traces_found (Opendir p) (fun r => r)). intros [e|d]; [apply traces_ret; by apply deleting_closed|].
    eapply traces_bind; [apply (traces_delete_loop n p d)|..]; cbn beta.
    + intros name r Hn. apply traces_cancelled. intros []; [apply traces_ret, deleting_not|].
      eapply traces_bind; [apply IH|done|]. cbn beta. intros z es Hes. apply traces_ret. by rewrite app_nil_r.
    + intros es Hes. rewrite <- (app_nil_r es). apply (deleting_dir p st d es []); auto.
    + intros ret es Hes. apply (traces_any_status (Closedir d) (fun r => r)). intros c _.
      apply (traces_any_status (Rmdir p) (fun r => r)). intros r z. apply traces_ret.
      apply (deleting_dir p st d es [ev (Closedir d) c; ev (Rmdir p) r]); eauto.
  - apply (traces_any_status (Unlink p) (fun r => r)). intros r z. apply traces_quiet, traces_ret.
    apply deleting_other; eauto.
Qed.

(** *** A complete copy

    A name for a copy: the wanted one if nothing is there, else the first of (2), (3), ...
    at which nothing is found, else, after (999), the wanted one again. *)
Inductive numbers (dst : text) : Z → text → list event → Prop :=
  | numbers_free i e : i < 1000 → numbers dst i (numbered dst i) [ev (Lstat (numbered dst i)) (inl e)]
  | numbers_next i st out es :
    i < 1000 → numbers dst (i + 1) out es → numbers dst i out (ev (Lstat (numbered dst i)) (inr st) :: es)
  | numbers_over : numbers dst 1000 dst [].
Inductive named (dst : text) : text → list event → Prop :=
  | named_free e : named dst dst [ev (Lstat dst) (inl e)]
  | named_number st out es : numbers dst 2 out es → named dst out (ev (Lstat dst) (inr st) :: es).

(** All of [data] is written; all of a file is read and written. *)
Inductive written (o : Z) : text → list event → Prop :=
  | written_all : written o [] []
  | written_part data k es :
    data ≠ [] → written o (drop (Z.to_nat k) data) es → written o data (ev (Write o data) (inr k) :: es).
Inductive transferred (i o : Z) : list event → Prop :=
  | transferred_end : transferred i o [ev (Read i) (inr [])]
  | transferred_block data ws es :
    data ≠ [] → written o data ws → transferred i o es →
    transferred i o (ev (Read i) (inr data) :: ws ++ es).

(** The story of a copy of [p] to [q] that left out nothing it was shown: a directory is
    made or was there, and each name that it lists is copied; a link is made again with its
    text; of a file all bytes are read and written. *)
Inductive copy_story : text → text → list event → Prop :=
  | story_dir p q st r d es c :
    st_kind st = KDir → (r = 0 ∨ r = EEXIST) → copy_entries p q d es →
    copy_story p q (ev (Lstat p) (inr st) :: ev (Mkdir q (st_mode st)) r :: ev (Opendir p) (inr d) ::
                es ++ [ev (Closedir d) c])
  | story_link p q st target out es :
    st_kind st = KLink → named q out es →
    copy_story p q (ev (Lstat p) (inr st) :: ev (Readlink p) (inr target) ::
                es ++ [ev (Symlink (take (PATH_MAX - 1) target) out) 0])
  | story_file p q st i st' o es c c' :
    st_kind st = KFile → transferred i o es →
    copy_story p q (ev (Lstat p) (inr st) :: ev (OpenRead p) (inr i) :: ev (Fstat i) st' ::
                ev (OpenWrite q (st_mode st')) (inr o) :: es ++ [ev (Close i) c; ev (Close o) c'])
with copy_entries : text → text → Z → list event → Prop :=
  | story_end p q d r : (r = inr None ∨ ∃ e, r = inl e) → copy_entries p q d [ev (Readdir d) r]
  | story_dot p q d name es :
    is_dot name = true → copy_entries p q d es → copy_entries p q d (ev (Readdir d) (inr (Some name)) :: es)
  | story_entry p q d name out look sub es :
    is_dot name = false → named (slash q name) out look → copy_story (slash p name) out sub →
    copy_entries p q d es →
    copy_entries p q d (ev (Readdir d) (inr (Some name)) :: look ++ sub ++ es).

Lemma traces_named dst : traces (fun o es => ∀ r, o = Some r → named dst r es) (resolve_conflict dst).
Proof.
  unfold resolve_conflict. apply (traces_found (Lstat dst) (fun r => r)). intros [e|st].
  { apply traces_ret. intros r [= <-]. apply named_free. }
  assert (Hk : ∀ k i, i + Z.of_nat k = 1000 → traces (fun o es => ∀ r, o = Some r → numbers dst i r es) (try_names k dst i)).
  { induction k as [|k IH]; intros i Hi; cbn [try_names].
    - apply traces_ret. intros r [= <-]. replace i with 1000 by lia. apply numbers_over.
    - apply (traces_found (Lstat (numbered dst i)) (fun r => r)). intros [e|st'].
      + apply traces_ret. intros r [= <-]. apply numbers_free. lia.
      + eapply traces_mono; [|apply (IH (i + 1)); lia]. cbn beta. intros o es Hes r ->. apply (numbers_next dst i st'); [lia|auto]. }
  eapply traces_mono; [|apply (Hk 998%nat 2); done]. cbn beta. intros o es Hes r ->. apply (named_number dst st). auto.
Qed.

Lemma traces_write_all n fd data : traces (fun o es => o = Some 0 → written fd data es) (write_all n fd data).
Proof.
  revert data. induction n as [|n IH]; intros [|c data]; cbn [write_all]; try (apply traces_ret; intros; apply written_all); [by apply traces_unfinished|].
  apply (traces_then (Write fd (c :: data))). intros [e|k]; [by apply traces_set_errno, traces_ret|].
  eapply traces_mono; [|apply IH]. cbn beta. intros o es Hes Ho. apply (written_part fd (c :: data) k es); auto.
Qed.

Lemma traces_copy_loop n live i o : traces (fun r es => r = Some 0 → transferred i o es) (copy_loop n live i o).
Proof.
  induction n as [|n IH]; cbn [copy_loop]; [by apply traces_unfinished|].
  apply (traces_then (Read i)). intros [e|[|c data]].
  - by apply traces_set_errno, traces_ret.
  - apply traces_ret. intros _. apply transferred_end.
  - apply traces_cancelled. intros []; [by apply traces_ret|].
    eapply traces_bind; [apply traces_write_all|done|]. cbn beta. intros ret ws Hws.
    destruct (Z.eqb_spec ret 0) as [->|Hr]; cbn [negb]; [|apply traces_ret; congruence].
    assert (Hq : traces (fun r es => r = Some 0 → transferred i o (story [ev (Read i) (inr (c :: data))] ++ ws ++ es)) (copy_loop n live i o)).
    { eapply traces_mono; [|apply IH]. cbn beta. intros r es Hes Hr. apply (transferred_block i o (c :: data) ws es); auto. }
    destruct live; [|exact Hq]. cbn [io_when]. apply (traces_bind (fun r es => is_Some r ∧ es = [])).
    + apply (traces_then (Bump cur_bytes_done _)). intros r. apply (traces_call (Bump total_bytes_done _)). intros r'. by split.
    + by intros es [[] _].
    + intros [] es [_ ->]. exact Hq.
Qed.

Lemma traces_copy_file n live p q st :
  st_kind st = KFile →
  traces (fun r es => r = Some 0 → copy_story p q (ev (Lstat p) (inr st) :: es)) (copy_file_cancellable n live p q).
Proof.
  intros Hst. unfold copy_file_cancellable. apply (traces_found (OpenRead p) (fun r => r)). intros [e|i]; [by apply traces_ret|].
  apply (traces_then (Fstat i)). intros st'.
  apply (traces_bind (fun r es => is_Some r ∧ es = [])).
  { destruct live; [|by apply traces_ret]. apply (traces_then (Store cur_bytes_total _)). intros r. apply (traces_call (Store cur_bytes_done 0)). intros r'. by split. }
  { by intros es [[] _]. }
  intros [] nil [_ ->]. apply (traces_found (OpenWrite q (st_mode st')) (fun r => r)). intros [e|o].
  { apply (traces_any_status (Close i) (fun r => r)). intros. by apply traces_ret. }
  eapply traces_bind; [apply traces_copy_loop|done|]. cbn beta. intros ret es Hes.
  apply (traces_any_status (Close i) (fun r => r)). intros c _. apply (traces_any_status (Close o) (fun r => r)). intros c' _.
  destruct (Z.eqb_spec ret 0) as [->|Hr].
  - apply traces_ret. intros _. apply (story_file p q st i st' o es c c'); auto.
  - apply traces_cancelled. intros b. destruct b.
    + eapply traces_bind; [|done|intros [] ? _; apply traces_ret; congruence].
      apply (traces_does (fun _ => True)). ops. by does.
    + apply traces_ret. congruence.
Qed.

(** One pass of the loop: it ends with a 0 only if the return value was 0 before and the
    entry was copied. *)
Definition copies_entry (p q name : text) (r : Z) (o : option (bool * Z)) (es : list event) : Prop :=
  ∀ stop, o = Some (stop, 0) → stop = false ∧ r = 0 ∧
    ∃ out look sub, es = look ++ sub ∧ named (slash q name) out look ∧ copy_story (slash p name) out sub.

Lemma traces_copy_entries n p q d body ret :
  (∀ name r, is_dot name = false → traces (copies_entry p q name r) (body name r)) →
  traces (fun o es => o = Some 0 → ret = 0 ∧ copy_entries p q d es) (read_loop n d body ret : io F Z).
Proof.
  intros Hb. revert ret. induction n as [|n IH]; intros ret; cbn [read_loop]; [by apply traces_unfinished|].
  apply (traces_then (Readdir d)). intros [e|[name|]];
    [apply traces_set_errno|..]; try (apply traces_ret; intros [= ->]; split; [done|]; apply story_end; eauto).
  destruct (is_dot name) eqn:En.
  - eapply traces_mono; [|apply IH]. cbn beta. intros o es Hes Ho. destruct (Hes Ho). split; [done|]. by apply story_dot.
  - eapply traces_bind; [by apply Hb|done|]. intros [stop r] es Hes. destruct stop.
    + apply traces_ret. intros [= ->]. by destruct (Hes true eq_refl).
    + eapply traces_mono; [|apply IH]. cbn beta. intros o es' Hes' Ho. destruct (Hes' Ho) as [-> Hr].
      destruct (Hes false eq_refl) as (_ & -> & out & look & sub & -> & Hl & Hs). split; [done|].
      rewrite <- app_assoc. by apply (story_entry p q d name out look sub es').
Qed.

Lemma traces_copy n live p q : traces (fun o es => o = Some 0 → copy_story p q es) (copy_recursive_cb n live p q).
Proof.
  revert p q. induction n as [|n IH]; intros p q; cbn [copy_recursive_cb]; [by apply traces_unfinished|].
  apply traces_cancelled. intros []; [by apply traces_ret|].
  apply (traces_found (Lstat p) (fun r => r)). intros [e|st]; [by apply traces_ret|]. destruct (st_kind st) eqn:Hst.
  - set (body := fun name ret =>
      c ← is_cancelled live;
      if (c : bool) then mret (true, -1) else
      child_dst ← resolve_conflict (slash q name);
      r ← copy_recursive_cb n live (slash p name) child_dst;
      mret (false, if r =? 0 then ret else -1)).
    assert (Hbody : ∀ name r, is_dot name = false → traces (copies_entry p q name r) (body name r)).
    { intros name r Hn. apply traces_cancelled. intros []; [by apply traces_ret|].
      eapply traces_bind; [apply traces_named|done|]. cbn beta. intros out look Hl.
      eapply traces_bind; [apply IH|done|]. cbn beta. intros z sub Hs. apply traces_ret.
      destruct (Z.eqb_spec z 0) as [->|Hz]; intros stop [=]. split; [done|]. split; [done|].
      exists out, look, sub. rewrite app_nil_r. auto. }
    assert (Hrest : ∀ x, x = 0 ∨ x = EEXIST → traces (fun o es => o = Some 0 → copy_story p q (ev (Lstat p) (inr st) :: ev (Mkdir q (st_mode st)) x :: es))
      (d ← opendir p;
       match d with
       | None => mret (-1)
       | Some d => ret ← read_loop n d body 0; closedir d;; mret ret
       end)).
    { intros x Hx. apply (traces_found (Opendir p) (fun r => r)). intros [e|d]; [by apply traces_ret|].
      eapply traces_bind; [by apply (traces_copy_entries n p q d)|done|]. cbn beta. intros ret es Hes.
      apply (traces_any_status (Closedir d) (fun r => r)). intros c _. apply traces_ret. intros [= ->].
      apply (story_dir p q st x d es c); [done|done|]. by apply Hes. }
    apply (traces_status (Mkdir q (st_mode st)) (fun r => r)).
    + intros r ->. apply traces_get_errno. intros e. cbn [Z.eqb negb andb]. apply Hrest. auto.
    + intros r w Hr He. apply traces_at_errno. rewrite He. cbn [Z.eqb negb andb]. destruct (Z.eqb_spec r EEXIST) as [->|Hne]; cbn [negb].
      * apply Hrest. auto.
      * by apply traces_ret.
  - apply (traces_found (Readlink p) (fun r => r)). intros [e|target]; [by apply traces_ret|].
    eapply traces_bind; [apply traces_named|done|]. cbn beta. intros out es Hes.
    apply (traces_status (Symlink (take (PATH_MAX - 1) target) out) (fun r => r)).
    + intros r ->. apply traces_quiet, traces_ret. intros _. apply (story_link p q st target out es); auto.
    + intros r w _ _. by apply traces_quiet, traces_ret.
  - eapply traces_bind; [by apply (traces_copy_file n live p q st)|done|]. cbn beta. intros ret es Hes.
    apply traces_quiet, traces_ret. rewrite app_nil_r. intros [= ->]. by apply Hes.
Qed.

Lemma traces_copy_plain n src dst : traces (fun o es => o = Some 0 → copy_story src dst es) (copy_recursive n src dst).
Proof. apply (traces_ext (copy_recursive_cb n false src dst)); [apply copy_recursive_eq|apply traces_copy]. Qed.
Lemma traces_delete_plain n src : traces (fun _ => delete_story src) (delete_recursive n src : io F Z).
Proof. apply (traces_ext (delete_recursive_cb n false src)); [apply delete_recursive_eq|apply traces_delete]. Qed.

Lemma progress_does n src dst : does (copies src dst) (fileops_copy_progress n src dst : io F Z).
Proof.
  apply (does_bind_yields _ (into dst)); [by apply resolve_does|apply resolve_yields, into_self|].
  intros c Hc. apply copy_does; [apply under_root|done].
Qed.

(** *** Moves

    What the story of moving [src] to [dst] can be: nothing, if they are the same; a
    renaming; a renaming that fails, and nothing more; or, if it fails because the
    destination is on another file system, a copy, and only when that was complete the
    deletion of [src]. *)
Definition harmless (e : event) : Prop := changes (projT1 e) = [].

Inductive move_story (src dst : text) : list event → Prop :=
  | story_same es : src = dst → Forall harmless es → move_story src dst es
  | story_renamed es : Forall harmless es → move_story src dst (ev (Rename src dst) 0 :: es)
  | story_failed e : e ≠ 0 → e ≠ EXDEV → move_story src dst [ev (Rename src dst) e]
  | story_kept es : Forall (copies src dst) es → move_story src dst (ev (Rename src dst) EXDEV :: es)
  | story_across out look sub del :
    named dst out look → copy_story src out sub → Forall (copies src dst) (look ++ sub) → delete_story src del →
    move_story src dst (ev (Rename src dst) EXDEV :: (look ++ sub) ++ del).

Lemma count_does n path : does harmless (count_recursive n path : io F Z).
Proof.
  revert path. induction n as [|n IH]; intros path; cbn [count_recursive]; [does|]. ops. does; try done.
  apply read_loop_does; [done|]. intros name ret _. by does.
Qed.

Lemma traces_across n src dst :
  traces (fun _ es => move_story src dst (ev (Rename src dst) EXDEV :: es))
    (ret ← fileops_copy_progress n src dst; if ret =? 0 then fileops_delete n src;; mret ret else mret ret).
Proof.
  eapply traces_bind.
  - apply (traces_and (fun o es => o = Some 0 → ∃ out look sub, es = look ++ sub ∧ named dst out look ∧ copy_story src out sub)
      (fun _ => Forall (copies src dst))); [|apply traces_does, progress_does].
    unfold fileops_copy_progress. eapply traces_bind; [apply traces_named|done|]. cbn beta. intros out look Hl.
    eapply traces_mono; [|apply traces_copy]. cbn beta. intros o sub Hs Ho. exists out, look, sub. auto.
  - intros es [_ Hes]. by apply story_kept.
  - cbn beta. intros ret es [Hc Hes]. destruct (Z.eqb_spec ret 0) as [->|Hr].
    + destruct (Hc eq_refl) as (out & look & sub & -> & Hl & Hs). eapply traces_bind; [apply traces_delete_plain|..]; cbn beta.
      * intros del Hd. by apply (story_across src dst out look sub del).
      * intros _ del Hd. apply traces_ret. rewrite app_nil_r. by apply (story_across src dst out look sub del).
    + apply traces_ret. rewrite app_nil_r. by apply story_kept.
Qed.

Lemma traces_note ret error es (P : list event → Prop) : P es → traces (fun _ es' => P (es ++ es')) (note_error ret error).
Proof. intros Hp. apply traces_get_errno. intros e. apply traces_ret. by rewrite app_nil_r. Qed.

Lemma traces_move_one n dst_dir src error :
  traces (fun _ => move_story src (dest_of dst_dir src)) (exec_move_one n dst_dir src error).
Proof.
  unfold exec_move_one. set (dst := dest_of dst_dir src). case_bool_decide as Heq.
  { eapply traces_mono; [|apply (traces_does harmless)]; [intros o es Hes; by apply story_same|].
    unfold fileops_count_files. does; [apply count_does|done]. }
  apply (traces_status (Rename src dst) (fun r => r)).
  - intros r ->. cbn [Z.eqb]. eapply traces_bind; [apply (traces_does harmless)|..].
    + unfold fileops_count_files. does; [apply count_does|done].
    + intros es Hes. by apply story_renamed.
    + intros ret es Hes. apply (traces_note ret error es (fun x => move_story src dst (story [ev (Rename src dst) 0] ++ x))).
      by apply story_renamed.
  - intros r w Hr He. change (-1 =? 0) with false. cbn iota.
    change (traces_at (fun (_ : option Z) es => move_story src dst (story [ev (Rename src dst) r] ++ es))
      (e ← get_errno; ret ← (if e =? EXDEV then
         ret ← fileops_copy_progress n src dst;
         if ret =? 0 then fileops_delete n src;; mret ret else mret ret else mret (-1)); note_error ret error) w).
    apply traces_at_errno. rewrite He. destruct (Z.eqb_spec r EXDEV) as [->|Hne]; [revert w He|revert w He].
    + intros w _. revert w. change (traces (fun (_ : option Z) es => move_story src dst (story [ev (Rename src dst) EXDEV] ++ es))
        (ret ← (ret ← fileops_copy_progress n src dst;
         if ret =? 0 then fileops_delete n src;; mret ret else mret ret); note_error ret error)).
      eapply traces_bind; [apply traces_across|done|]. cbn beta. intros ret es Hes.
      by apply (traces_note ret error es (fun x => move_story src dst (story [ev (Rename src dst) EXDEV] ++ x))).
    + intros w _. revert w. apply (traces_note (-1) error [] (fun x => move_story src dst (story [ev (Rename src dst) r] ++ x))).
      by apply story_failed.
Qed.

(** The story of a whole job, source by source; it may stop after any of them. *)
Inductive job_story (dst_dir : text) : list text → list event → Prop :=
  | job_stop srcs : job_story dst_dir srcs []
  | job_next src srcs es rest :
    move_story src (dest_of dst_dir src) es → job_story dst_dir srcs rest → job_story dst_dir (src :: srcs) (es ++ rest).

Lemma traces_sources n dst_dir srcs error :
  traces (fun _ => job_story dst_dir srcs) (each_source (exec_move_one n dst_dir) srcs error).
Proof.
  revert error. induction srcs as [|src srcs IH]; intros error; cbn [each_source]; [apply traces_ret, job_stop|].
  apply (traces_then Cancelled). intros []; [apply traces_ret, job_stop|].
  eapply traces_bind; [apply traces_move_one|..]; cbn beta.
  - intros es Hes. rewrite <- (app_nil_r es). apply (job_next dst_dir src srcs es []); [done|apply job_stop].
  - intros e es Hes. eapply traces_mono; [|apply IH]. intros o rest Hrest. by apply (job_next dst_dir src srcs es rest).
Qed.

Lemma count_all_does n srcs total : does harmless (count_all n srcs total : io F unit).
Proof.
  revert total. induction srcs as [|s srcs IH]; intros total; cbn [count_all].
  - by apply (does_call harmless (Store files_total total)).
  - unfold fileops_count_files. does. apply count_does.
Qed.
End Changes.
