(* ===== verification/FmDisk.v ===== *)
(** * A file system for the file manager's operations

    A tree of directories, links and files, as POSIX describes it, on which the
    operations can be run.  All of it belongs to the user, who is not the superuser: the
    permissions are those of the owner.  A path is looked up name by name: the directories
    on the way must allow it, links on the way are followed, names and paths have their
    greatest lengths.  New nodes lose the bits of the file mode creation mask.  A directory
    handle lists what was there when it was opened.  The disk is never full, nobody else
    uses it, and nobody cancels.  Paths start at the root, and a slash at their end counts
    for nothing. *)

From S2P Require Import Prelude.
From S2P Require Import CString.
From S2P Require Import FmFiles.
From stdpp Require Import gmap.
Open Scope Z_scope.

Inductive node := NDir (mode : Z) | NLink (target : text) | NFile (mode : Z) (content : text).
#[export] Instance node_eq_dec : EqDecision node.
Proof. solve_decision. Defined.

(** ** Paths *)

Abbreviation path := (list text) (only parsing).

Definition add_name (n : text) (p : path) : path :=
  if bool_decide (n = [] ∨ n = str ".") then p else n :: p.
Fixpoint split_path (cur : text) (p : text) : path :=
  match p with
  | [] => add_name cur []
  | c :: p' => if decide (c = "/"%char) then add_name cur (split_path [] p') else split_path (cur ++ [c]) p'
  end.
Definition components (p : text) : path := split_path [] p.

(** [q] without the prefix [p]. *)
Fixpoint strip (p q : path) : option path :=
  match p, q with
  | [], _ => Some q
  | a :: p', b :: q' => if decide (a = b) then strip p' q' else None
  | _ :: _, [] => None
  end.

(** The names in a directory. *)
Definition child (p q : path) : option text :=
  match strip p q with Some [n] => Some n | _ => None end.
Definition names (f : gmap path node) (p : path) : list text := omap (fun x => child p x.1) (map_to_list f).

Definition stat_of (x : node) : fstat :=
  match x with
  | NDir m => mkStat KDir m 0
  | NLink t => mkStat KLink 511 (Z.of_nat (length t))
  | NFile m c => mkStat KFile m (Z.of_nat (length c))
  end.

(** ** System calls *)

(** [fds]: for each open file its path and the position. *)
Record Files := mkFiles {
  nodes : gmap path node; dirs : gmap Z (list text); fds : gmap Z (path * nat); next_fd : Z; date : text; umask : Z }.
#[export] Instance files_eta : RecEta Files :=
  Build_RecEta _ (fun f => mkFiles (nodes f) (dirs f) (fds f) (next_fd f) (date f) (umask f)).

Definition ENOENT : Z := 2.
Definition EACCES : Z := 13.
Definition ENOTDIR : Z := 20.
Definition EISDIR : Z := 21.
Definition EINVAL : Z := 22.
Definition ENAMETOOLONG : Z := 36.
Definition ENOTEMPTY : Z := 39.
Definition ELOOP : Z := 40.
Definition EBADF : Z := 9.
Definition NAME_MAX : nat := 255.
Definition SYMLOOP_MAX : nat := 40.

(** The owner's permissions. *)
Definition S_IRUSR (m : Z) : bool := Z.testbit m 8.
Definition S_IWUSR (m : Z) : bool := Z.testbit m 7.
Definition S_IXUSR (m : Z) : bool := Z.testbit m 6.
#[global] Arguments S_IRUSR : simpl never.
#[global] Arguments S_IWUSR : simpl never.
#[global] Arguments S_IXUSR : simpl never.

(** What is read at once. *)
Definition chunk : nat := Z.to_nat 65536.
#[global] Arguments chunk : simpl never.

Definition parent (p : path) : path := take (length p - 1) p.
(** A directory in which names can be made and removed. *)
Definition may_write (f : gmap path node) (p : path) : bool :=
  match f !! p with Some (NDir m) => S_IWUSR m && S_IXUSR m | _ => false end.

(** *** Looking up a path

    From the directory [here] the names [todo] are followed; [k] links may be followed, the
    last name only if [follow]. *)
Definition absolute (p : text) : bool := match p with c :: _ => bool_decide (c = "/"%char) | [] => false end.

Fixpoint walk (k : nat) (f : gmap path node) (follow : bool) (here todo : path) : Z + path :=
  (fix go (here todo : path) : Z + path :=
     match todo with
     | [] => inr here
     | n :: rest =>
       match f !! here with
       | None => inl ENOENT
       | Some (NDir m) =>
         if negb (S_IXUSR m) then inl EACCES
         else if Nat.ltb NAME_MAX (length n) then inl ENAMETOOLONG
         else if bool_decide (n = str "..") then go (parent here) rest
         else
           match f !! (here ++ [n]) with
           | Some (NLink t) =>
             if bool_decide (rest = []) && negb follow then inr (here ++ [n])
             else
               match k with
               | O => inl ELOOP
               | S k' => walk k' f follow (if absolute t then [] else here) (components t ++ rest)
               end
           | _ => go (here ++ [n]) rest
           end
       | Some _ => inl ENOTDIR
       end
     end) here todo.

(** The place that a path means; nothing need be there, but its directory is. *)
Definition resolve (follow : bool) (f : gmap path node) (p : text) : Z + path :=
  if bool_decide (p = []) then inl ENOENT
  else if Nat.leb PATH_MAX (length p) then inl ENAMETOOLONG
  else walk SYMLOOP_MAX f follow [] (components p).

(** What is done at the place, or the error. *)
Definition at_place {A} (follow : bool) (p : text) (s : Files) (fails : Z → A) (act : path → A * Files) : A * Files :=
  match resolve follow (nodes s) p with inl e => (fails e, s) | inr q => act q end.
Definition set_nodes (g : gmap path node → gmap path node) (s : Files) : Files := s <| nodes := g (nodes s) |>.

(** A new node: 0, or why not. *)
Definition make (p : path) (x : node) (s : Files) : Z * Files :=
  match nodes s !! p with
  | Some _ => (EEXIST, s)
  | None =>
    match nodes s !! parent p with
    | Some (NDir m) => if S_IWUSR m && S_IXUSR m then (0, set_nodes <[p := x]> s) else (EACCES, s)
    | _ => (ENOENT, s)
    end
  end.
(** The mode a new node gets. *)
Definition masked (s : Files) (mode : Z) : Z := Z.land mode (Z.lnot (umask s)).
#[global] Arguments masked : simpl never.

(** The subtree at [a], at [b] instead. *)
Definition subtree (a b : path) (f : gmap path node) : gmap path node :=
  list_to_map (omap (M := list) (fun x => match strip a x.1 with Some r => Some (b ++ r, x.2) | None => None end) (map_to_list f)).

(** It goes to [b]. *)
Definition graft (a b : path) (f : gmap path node) : gmap path node :=
  subtree a b f ∪ filter (fun x => strip a x.1 = None ∧ strip b x.1 = None) f.

Definition open_fd (p : path) (s : Files) : (Z + Z) * Files :=
  (inr (next_fd s), s <| fds := <[next_fd s := (p, 0%nat)]> (fds s) |> <| next_fd := next_fd s + 1 |>).

(** Opening for writing empties the file or makes it. *)
Definition empty_file (p : path) (mode : Z) (s : Files) : Z * Files :=
  match nodes s !! p with
  | Some (NFile m _) => if S_IWUSR m then (0, set_nodes <[p := NFile m []]> s) else (EACCES, s)
  | Some (NDir _) => (EISDIR, s)
  | Some (NLink _) => (ENOENT, s)
  | None => make p (NFile (masked s mode) []) s
  end.

Section Device.
(** The file system that a directory is on. *)
Context (device : path → Z).

Definition do_rename (a b : path) (s : Files) : Z * Files :=
  match nodes s !! a with
  | None => (ENOENT, s)
  | Some x =>
    if bool_decide (device (parent a) ≠ device (parent b)) then (EXDEV, s)
    else if negb (may_write (nodes s) (parent a) && may_write (nodes s) (parent b)) then (EACCES, s)
    else if bool_decide (a = b) then (0, s)
    else if bool_decide (is_Some (strip a b)) then (EINVAL, s)
    else if match x with NDir m => negb (bool_decide (parent a = parent b)) && negb (S_IWUSR m) | _ => false end
      then (EACCES, s)
    else
      match nodes s !! b, x with
      | None, _ => (0, set_nodes (graft a b) s)
      | Some (NDir _), NDir _ =>
        if bool_decide (names (nodes s) b = []) then (0, set_nodes (graft a b) s) else (ENOTEMPTY, s)
      | Some (NDir _), _ => (EISDIR, s)
      | Some _, NDir _ => (ENOTDIR, s)
      | Some _, _ => (0, set_nodes (graft a b) s)
      end
  end.

#[export] Instance files_posix : Posix Files := fun c s =>
  match c return fresult c * Files with
  | Lstat p =>
    at_place (A := Z + fstat) false p s inl (fun q =>
      match nodes s !! q with Some x => (inr (stat_of x), s) | None => (inl ENOENT, s) end)
  | Opendir p =>
    at_place (A := Z + Z) true p s inl (fun q =>
      match nodes s !! q with
      | Some (NDir m) =>
        if S_IRUSR m then
          (inr (next_fd s), s <| dirs := <[next_fd s := names (nodes s) q]> (dirs s) |> <| next_fd := next_fd s + 1 |>)
        else (inl EACCES, s)
      | Some _ => (inl ENOTDIR, s)
      | None => (inl ENOENT, s)
      end)
  | Readdir d =>
    match dirs s !! d with
    | Some (n :: ns) => (inr (Some n), s <| dirs := <[d := ns]> (dirs s) |>)
    | Some [] => (inr None, s)
    | None => (inl EBADF, s)
    end
  | Closedir d => match dirs s !! d with Some _ => (0, s <| dirs := delete d (dirs s) |>) | None => (EBADF, s) end
  | Mkdir p mode => at_place (A := Z) false p s (fun e => e) (fun q => make q (NDir (masked s mode)) s)
  | Rmdir p =>
    at_place (A := Z) false p s (fun e => e) (fun q =>
      match nodes s !! q with
      | Some (NDir _) =>
        if negb (bool_decide (names (nodes s) q = [])) then (ENOTEMPTY, s)
        else if may_write (nodes s) (parent q) then (0, set_nodes (delete q) s) else (EACCES, s)
      | Some _ => (ENOTDIR, s)
      | None => (ENOENT, s)
      end)
  | Unlink p =>
    at_place (A := Z) false p s (fun e => e) (fun q =>
      match nodes s !! q with
      | Some (NDir _) => (EISDIR, s)
      | Some _ => if may_write (nodes s) (parent q) then (0, set_nodes (delete q) s) else (EACCES, s)
      | None => (ENOENT, s)
      end)
  | Rename a b =>
    at_place (A := Z) false a s (fun e => e) (fun a =>
      at_place (A := Z) false b s (fun e => e) (fun b => do_rename a b s))
  | Symlink target p => at_place (A := Z) false p s (fun e => e) (fun q => make q (NLink target) s)
  | Readlink p =>
    at_place (A := Z + text) false p s inl (fun q =>
      match nodes s !! q with
      | Some (NLink t) => (inr (take (PATH_MAX - 1) t), s)
      | Some _ => (inl EINVAL, s)
      | None => (inl ENOENT, s)
      end)
  | OpenRead p =>
    at_place (A := Z + Z) true p s inl (fun q =>
      match nodes s !! q with
      | Some (NFile m _) | Some (NDir m) => if S_IRUSR m then open_fd q s else (inl EACCES, s)
      | _ => (inl ENOENT, s)
      end)
  | OpenWrite p mode =>
    at_place (A := Z + Z) true p s inl (fun q =>
      let '(e, s) := empty_file q mode s in
      if e =? 0 then open_fd q s else (inl e, s))
  | Fstat fd =>
    (default (mkStat KFile 0 0) (x ← fds s !! fd; stat_of <$> nodes s !! x.1), s)
  | Read fd =>
    match fds s !! fd with
    | Some (p, pos) =>
      match nodes s !! p with
      | Some (NFile _ c) =>
        let data := take chunk (drop pos c) in
        (inr data, s <| fds := <[fd := (p, pos + length data)%nat]> (fds s) |>)
      | Some (NDir _) => (inl EISDIR, s)
      | _ => (inl EBADF, s)
      end
    | None => (inl EBADF, s)
    end
  | Write fd data =>
    match fds s !! fd with
    | Some (p, _) =>
      match nodes s !! p with
      | Some (NFile m c) => (inr (Z.of_nat (length data)), set_nodes <[p := NFile m (c ++ data)]> s)
      | _ => (inl EBADF, s)
      end
    | None => (inl EBADF, s)
    end
  | Close fd => match fds s !! fd with Some _ => (0, s <| fds := delete fd (fds s) |>) | None => (EBADF, s) end
  | Cancelled => (false, s)
  | Store _ _ | Bump _ _ => (tt, s)
  | WriteFile p data =>
    at_place (A := bool) true p s (fun _ => false) (fun q =>
      let '(e, s) := empty_file q 438 s in
      if e =? 0 then
        (true, set_nodes (alter (fun x => match x with NFile m _ => NFile m data | _ => x end) q) s)
      else (false, s))
  | ReadFile p =>
    at_place (A := option text) true p s (fun _ => None) (fun q =>
      (match nodes s !! q with Some (NFile m c) => if S_IRUSR m then Some c else None | _ => None end, s))
  | Now => (date s, s)
  end.
End Device.
