(* ===== verification/FmDiskProof.v ===== *)
(** * File operations on the file system: lemmas *)

From S2P Require Import Prelude.
From S2P Require Import CString.
From S2P Require Import CFloat.
From S2P Require Import FmFiles.
From S2P Require Import FmTrash.
From S2P Require Import FmDisk.
From stdpp Require Import gmap.
Open Scope Z_scope.

(** ** Paths *)

(** A name that can be in a directory. *)
Record plain_name (n : text) : Prop := mkPlain {
  pn_some : n ≠ []; pn_slash : "/"%char ∉ n; pn_dot : is_dot n = false; pn_nul : NUL ∉ n }.

Lemma split_path_app cur a b : split_path cur (a ++ "/"%char :: b) = split_path cur a ++ split_path [] b.
Proof.
  revert cur. induction a as [|c a IH]; intros cur; cbn [app split_path].
  - rewrite decide_True by done. unfold add_name. by case_bool_decide.
  - case_decide; [|apply IH]. unfold add_name. rewrite IH. by case_bool_decide.
Qed.

Lemma split_path_name cur n : "/"%char ∉ n → split_path cur n = add_name (cur ++ n) [].
Proof.
  revert cur. induction n as [|c n IH]; intros cur Hn; cbn [split_path]; [by rewrite app_nil_r|].
  rewrite decide_False by set_solver. rewrite IH by set_solver. by rewrite <- app_assoc.
Qed.

Lemma components_slash p n : plain_name n → components (slash p n) = components p ++ [n].
Proof.
  intros [Hne Hs Hd _]. unfold components, slash. change (str "/" ++ n) with ("/"%char :: n).
  rewrite split_path_app, (split_path_name [] n) by done. f_equal. unfold add_name. cbn [app].
  rewrite bool_decide_eq_false_2; [done|]. intros [?| ->]; [done|]. done.
Qed.

Lemma strip_Some a q r : strip a q = Some r ↔ q = a ++ r.
Proof.
  revert q. induction a as [|x a IH]; intros q; cbn [strip app]; [naive_solver|].
  destruct q as [|y q]; [naive_solver|]. case_decide; [subst; rewrite IH; naive_solver|naive_solver].
Qed.
Lemma strip_app a r : strip a (a ++ r) = Some r.
Proof. by apply strip_Some. Qed.
Lemma strip_same a : strip a a = Some [].
Proof. apply strip_Some. by rewrite app_nil_r. Qed.
Lemma strip_None a q : strip a q = None ↔ ∀ r, q ≠ a ++ r.
Proof.
  split.
  - intros E r ->. by rewrite strip_app in E.
  - intros Hq. destruct (strip a q) as [r|] eqn:E; [|done]. apply strip_Some in E. by destruct (Hq r).
Qed.

Lemma names_spec f p n : n ∈ names f p ↔ is_Some (f !! (p ++ [n])).
Proof.
  unfold names. rewrite list_elem_of_omap. split.
  - intros ([q x] & Hin & E). cbn in E. unfold child in E. destruct (strip p q) as [[|a [|]]|] eqn:Es; try done.
    injection E as ->. apply strip_Some in Es as ->. apply elem_of_map_to_list in Hin. by exists x.
  - intros [x Hx]. exists (p ++ [n], x). split; [by apply elem_of_map_to_list|]. cbn. unfold child. by rewrite strip_app.
Qed.

Lemma names_nodup f p : NoDup (names f p).
Proof.
  unfold names. pose proof (NoDup_fst_map_to_list f) as Hn. revert Hn.
  induction (map_to_list f) as [|[q x] l IH]; [constructor|]. cbn [fmap list_fmap]. intros [Hq Hl]%NoDup_cons.
  specialize (IH Hl). cbn [omap list_omap]. destruct (child p (q, x).1) as [n|] eqn:E; [|done].
  apply NoDup_cons. split; [|done]. intros Hin. apply Hq. apply list_elem_of_omap in Hin as ([q' x'] & Hin & E').
  cbn in *. unfold child in *. destruct (strip p q) as [[|a [|]]|] eqn:E1; try done.
  destruct (strip p q') as [[|a' [|]]|] eqn:E2; try done. injection E as ->. injection E' as ->.
  apply strip_Some in E1 as ->, E2 as ->. apply list_elem_of_fmap. by exists (p ++ [n], x').
Qed.

Lemma strip_further a x q : strip a q = None → strip (a ++ x) q = None.
Proof. rewrite !strip_None. intros Hq r ->. by apply (Hq (x ++ r)); rewrite app_assoc. Qed.
Lemma strip_below a d n n' : strip a d = None → strip (a ++ [n]) (d ++ [n']) = None.
Proof.
  rewrite !strip_None. intros Hd r E. destruct r as [|y r _] using rev_ind.
  - rewrite app_nil_r in E. apply app_inj_tail in E as [-> _]. by apply (Hd []); rewrite app_nil_r.
  - rewrite <- app_assoc in E. rewrite (app_assoc _ _ [y]), (app_assoc a) in E. apply app_inj_tail in E as [-> _].
    by apply (Hd ([n] ++ r)).
Qed.
Lemma strip_not_above d a x : strip d a = None → strip a d = None → strip d (a ++ x) = None.
Proof.
  rewrite !strip_None. intros Hd Ha r E. revert a Hd Ha E. induction d as [|y d IH]; intros a Hd Ha E; [by apply (Hd a)|].
  destruct a as [|z a]; [by apply (Ha (y :: d))|]. cbn in E. injection E as -> E. apply (IH a); [| |done].
  - intros r' ->. by apply (Hd r').
  - intros r' ->. by apply (Ha r').
Qed.
Lemma parent_app p n : parent (p ++ [n]) = p.
Proof. unfold parent. rewrite length_app. cbn. rewrite Nat.add_sub. by apply take_app_length'. Qed.

(** ** Trees *)

(** The same tree at [a] in [f] and at [b] in [g]; the same everything but what is at
    [d]; nothing at [d]. *)
Definition same_tree (f g : gmap path node) (a b : path) : Prop := ∀ r, g !! (b ++ r) = f !! (a ++ r).
Definition same_but (f g : gmap path node) (d : path) : Prop := ∀ q, strip d q = None → g !! q = f !! q.
Definition vacant (f : gmap path node) (d : path) : Prop := ∀ r, f !! (d ++ r) = None.

(** *** Places that can be reached

    All directories above the path are there and may be searched, and its names are
    names. *)
Definition short_name (n : text) : Prop := (length n ≤ NAME_MAX)%nat ∧ n ≠ str "..".
Definition searchable (f : gmap path node) (q : path) : Prop := ∃ m, f !! q = Some (NDir m) ∧ S_IXUSR m = true.
Record reach (f : gmap path node) (a : path) : Prop := mkReach {
  rc_dirs q r : a = q ++ r → r ≠ [] → searchable f q;
  rc_names : Forall short_name a }.
Definition fits (p : text) : Prop := p ≠ [] ∧ (length p < PATH_MAX)%nat.

Lemma walk_nil k f follow here : walk k f follow here [] = inr here.
Proof. by destruct k. Qed.
Lemma walk_cons k f follow here n rest m :
  f !! here = Some (NDir m) → S_IXUSR m = true → short_name n →
  (∀ t, f !! (here ++ [n]) = Some (NLink t) → rest = [] ∧ follow = false) →
  walk k f follow here (n :: rest) = walk k f follow (here ++ [n]) rest.
Proof.
  intros Hd Hx [Hn Hdd] Hl. assert (E : Nat.ltb NAME_MAX (length n) = false) by by apply Nat.ltb_ge.
  assert (Hw : walk k f follow here (n :: rest) =
    match f !! (here ++ [n]) with
    | Some (NLink t) =>
      if bool_decide (rest = []) && negb follow then inr (here ++ [n])
      else match k with O => inl ELOOP | S k' => walk k' f follow (if absolute t then [] else here) (components t ++ rest) end
    | _ => walk k f follow (here ++ [n]) rest
    end).
  { destruct k; cbn [walk]; rewrite Hd, Hx, E; cbn [negb]; rewrite bool_decide_eq_false_2 by done; done. }
  rewrite Hw. destruct (f !! (here ++ [n])) as [[m'|t|m' c]|] eqn:El; try done.
  destruct (Hl t eq_refl) as [-> ->]. by rewrite walk_nil.
Qed.

Lemma walk_reach k f follow here todo :
  reach f (here ++ todo) → (follow = true → ∀ t, f !! (here ++ todo) ≠ Some (NLink t)) →
  walk k f follow here todo = inr (here ++ todo).
Proof.
  revert here. induction todo as [|n todo IH]; intros here [Hd Hn] Hl; [by rewrite walk_nil, app_nil_r|].
  destruct (Hd here (n :: todo)) as (m & Em & Hx); [done|done|].
  rewrite (walk_cons k f follow here n todo m); [|done|done| |].
  - rewrite IH; rewrite <- ?app_assoc; [done|by split|exact Hl].
  - apply Forall_app in Hn as [_ Hn]. by inversion Hn.
  - intros t Et. destruct todo as [|n' todo].
    + split; [done|]. destruct follow; [|done]. by destruct (Hl eq_refl t).
    + destruct (Hd (here ++ [n]) (n' :: todo)) as (m' & E' & _); [by rewrite <- app_assoc|done|congruence].
Qed.

Lemma resolve_reach follow f p :
  reach f (components p) → fits p → (follow = true → ∀ t, f !! components p ≠ Some (NLink t)) →
  resolve follow f p = inr (components p).
Proof.
  intros Hr [Hne Hl] Hf. unfold resolve. rewrite bool_decide_eq_false_2 by done.
  rewrite (proj2 (Nat.leb_gt _ _)) by done. by apply (walk_reach SYMLOOP_MAX f follow []).
Qed.

Lemma reach_prefix f a x : reach f (a ++ x) → reach f a.
Proof.
  intros [Hd Hn]. split.
  - intros q r -> Hr. apply (Hd q (r ++ x)); [by rewrite <- app_assoc|]. by destruct r.
  - by apply Forall_app in Hn as [? _].
Qed.
Lemma reach_down f a n m :
  reach f a → f !! a = Some (NDir m) → S_IXUSR m = true → short_name n → reach f (a ++ [n]).
Proof.
  intros [Hd Hn] Ha Hx Hs. split.
  - intros q r E Hr. destruct r as [|y r _] using rev_ind; [done|]. rewrite app_assoc in E. apply app_inj_tail in E as [E _].
    destruct (decide (r = [])) as [->|Hne]; [|by apply (Hd q r)]. rewrite app_nil_r in E. subst q. by exists m.
  - apply Forall_app. split; [done|]. by apply Forall_singleton.
Qed.
Lemma reach_keep f g a : reach f a → (∀ q r, a = q ++ r → r ≠ [] → g !! q = f !! q) → reach g a.
Proof.
  intros [Hd Hn] Hg. split; [|done]. intros q r E Hr. destruct (Hd q r E Hr) as (m & Em & Hx). exists m.
  by rewrite (Hg q r).
Qed.
Lemma reach_but f g a d : reach f a → same_but f g d → strip d a = None → reach g a.
Proof.
  intros Hr Hb Hd. eapply reach_keep; [done|]. intros q r -> _. apply Hb. rewrite strip_None in Hd |- *. intros r' ->.
  apply (Hd (r' ++ r)). by rewrite app_assoc.
Qed.

(** The paths of a tree, starting with one of length [len], are not too long. *)
Definition weight (r : path) : nat := sum_list (map (fun n => 1 + length n)%nat r).
Definition within (f : gmap path node) (a : path) (len : nat) : Prop :=
  (0 < len)%nat ∧ ∀ r, is_Some (f !! (a ++ r)) → (len + weight r < PATH_MAX)%nat.

Lemma within_fits f p : within f (components p) (length p) → is_Some (f !! components p) → fits p.
Proof.
  intros [H0 Hw] Hp. split; [intros ->; cbn in H0; lia|]. specialize (Hw []). rewrite app_nil_r in Hw. specialize (Hw Hp).
  unfold weight in Hw. cbn in Hw. lia.
Qed.
Lemma length_slash p n : length (slash p n) = (length p + (1 + length n))%nat.
Proof. unfold slash. rewrite !length_app. cbn. lia. Qed.
Lemma within_down f a p n : within f a (length p) → within f (a ++ [n]) (length (slash p n)).
Proof.
  intros [H0 Hw]. rewrite length_slash. split; [lia|]. intros r Hr. rewrite <- app_assoc in Hr. specialize (Hw _ Hr).
  unfold weight in *. cbn in *. lia.
Qed.
Lemma within_same f g a b len : same_tree f g a b → within f a len → within g b len.
Proof. intros Hs [H0 Hw]. split; [done|]. intros r. rewrite (Hs r). apply Hw. Qed.

(** The tree at [a] is one: names are in directories, which may be read, written and
    searched; files may be read; the number of names, the length of files and the depth are
    bounded. *)
Definition open_mode (m : Z) : bool := S_IRUSR m && S_IWUSR m && S_IXUSR m.
Record tree (f : gmap path node) (a : path) (k h : nat) : Prop := mkTree {
  tree_in r n : is_Some (f !! (a ++ r ++ [n])) → plain_name n ∧ (length n ≤ NAME_MAX)%nat ∧ ∃ m, f !! (a ++ r) = Some (NDir m);
  tree_dirs r m : f !! (a ++ r) = Some (NDir m) → open_mode m = true;
  tree_height r : is_Some (f !! (a ++ r)) → (length r ≤ h)%nat;
  tree_names r : (length (names f (a ++ r)) ≤ k)%nat;
  tree_size r m c : f !! (a ++ r) = Some (NFile m c) → S_IRUSR m = true ∧ (length c ≤ k)%nat;
  tree_links r t : f !! (a ++ r) = Some (NLink t) → (length t < PATH_MAX)%nat }.

Lemma open_mode_bits m : open_mode m = true → S_IRUSR m = true ∧ S_IWUSR m = true ∧ S_IXUSR m = true.
Proof. unfold open_mode. rewrite !andb_true_iff. tauto. Qed.
Lemma open_may_write f q m : f !! q = Some (NDir m) → open_mode m = true → may_write f q = true.
Proof. intros E (_ & Hw & Hx)%open_mode_bits. unfold may_write. by rewrite E, Hw, Hx. Qed.

Lemma names_length f g a b : (∀ n, g !! (b ++ [n]) = f !! (a ++ [n])) → length (names g b) = length (names f a).
Proof.
  intros Hfg. apply Permutation_length, NoDup_Permutation; [apply names_nodup..|].
  intros n. by rewrite !names_spec, Hfg.
Qed.

Lemma same_tree_down f g a b n : same_tree f g a b → same_tree f g (a ++ [n]) (b ++ [n]).
Proof. intros Hs r. rewrite <- !app_assoc. apply Hs. Qed.

Lemma tree_same f g a b k h : same_tree f g a b → tree f a k h → tree g b k h.
Proof.
  intros Hs [Hi Hd Hh Hn Hz Hl]. split.
  - intros r n. rewrite Hs. intros (? & ? & m & E)%Hi. split; [done|]. split; [done|]. exists m. by rewrite Hs.
  - intros r m. rewrite Hs. apply Hd.
  - intros r. rewrite Hs. apply Hh.
  - intros r. rewrite (names_length f g (a ++ r) (b ++ r)); [done|]. intros n. rewrite <- !app_assoc. apply Hs.
  - intros r m c. rewrite Hs. apply Hz.
  - intros r t. rewrite Hs. apply Hl.
Qed.

Lemma tree_down f a k h n : tree f a k (S h) → tree f (a ++ [n]) k h.
Proof.
  intros [Hi Hd Hh Hn Hz Hl]. split.
  - intros r n'. rewrite <- !app_assoc. apply (Hi ([n] ++ r)).
  - intros r m. rewrite <- !app_assoc. apply Hd.
  - intros r. rewrite <- !app_assoc. intros Hr%Hh. cbn in Hr. lia.
  - intros r. rewrite <- !app_assoc. apply Hn.
  - intros r m c. rewrite <- !app_assoc. apply Hz.
  - intros r t. rewrite <- !app_assoc. apply Hl.
Qed.

(** The root of a tree. *)
Lemma tree_top_dir f a k h m : tree f a k h → f !! a = Some (NDir m) → open_mode m = true.
Proof. intros Ht E. apply (tree_dirs _ _ _ _ Ht []). by rewrite app_nil_r. Qed.

(** What is in a tree is under its entries. *)
Lemma tree_entry f a k h n r : tree f a k h → is_Some (f !! (a ++ n :: r)) → n ∈ names f a.
Proof.
  intros Ht. rewrite names_spec. induction r as [|y r IH] using rev_ind; intros Hr; [done|].
  apply IH. change (n :: r ++ [y]) with ((n :: r) ++ [y]) in Hr.
  destruct (tree_in _ _ _ _ Ht (n :: r) y Hr) as (_ & _ & m & E). by eexists.
Qed.
Lemma tree_not_entry f a k h n r : tree f a k h → n ∉ names f a → f !! (a ++ n :: r) = None.
Proof. intros Ht Hn. apply eq_None_not_Some. intros ?. by eapply Hn, tree_entry. Qed.
Lemma tree_plain f a k h n : tree f a k h → n ∈ names f a → plain_name n.
Proof. intros Ht Hn%names_spec. by apply (tree_in _ _ _ _ Ht [] n). Qed.
Lemma tree_short f a k h n : tree f a k h → n ∈ names f a → short_name n.
Proof.
  intros Ht Hn%names_spec. destruct (tree_in _ _ _ _ Ht [] n Hn) as ([_ _ Hd _] & Hl & _). split; [done|].
  intros ->. unfold is_dot in Hd. rewrite bool_decide_eq_true_2 in Hd by auto. done.
Qed.
Lemma tree_dir f a k h n : tree f a k h → n ∈ names f a → ∃ m, f !! a = Some (NDir m) ∧ open_mode m = true.
Proof.
  intros Ht Hn%names_spec. destruct (tree_in _ _ _ _ Ht [] n Hn) as (_ & _ & m & E). rewrite app_nil_r in E.
  exists m. split; [done|]. by eapply tree_top_dir.
Qed.
Lemma tree_writable f a k h n : tree f a k h → n ∈ names f a → may_write f a = true.
Proof. intros Ht Hn. destruct (tree_dir _ _ _ _ _ Ht Hn) as (m & E & Hm). by eapply open_may_write. Qed.
(** Its entries can be reached if it can. *)
Lemma tree_reach f a k h n : tree f a k h → n ∈ names f a → reach f a → reach f (a ++ [n]).
Proof.
  intros Ht Hn Hr. destruct (tree_dir _ _ _ _ _ Ht Hn) as (m & E & (_ & _ & Hx)%open_mode_bits).
  eapply reach_down; [done|done|done|]. by eapply tree_short.
Qed.
Lemma tree_low f a k n : tree f a k 0 → n ∉ names f a.
Proof. intros Ht Hn%names_spec. apply (tree_height _ _ _ _ Ht [n]) in Hn. cbn in Hn. lia. Qed.

(** ** Programs on the file system *)

Lemma chunk_pos : (0 < chunk)%nat.
Proof. unfold chunk. lia. Qed.

Lemma take_read {A} k pos (c : list A) :
  take (pos + length (take k (drop pos c))) c = take pos c ++ take k (drop pos c).
Proof.
  rewrite <- take_take_drop, length_take. f_equal. set (l := drop pos c).
  destruct (Nat.le_ge_cases k (length l)); [by rewrite Nat.min_l|]. rewrite Nat.min_r by done. by rewrite !take_ge by done.
Qed.

Section Disk.
Context (device : path → Z).
Let P : Posix Files := files_posix device.
#[local] Existing Instance P.

(** [ends m s Q]: from [s] the program ends, with a value and a file system in [Q]. *)
Definition ends {A} (m : io Files A) (s : Files) (Q : A → Files → Prop) : Prop :=
  ∀ w, fsys w = s → match m w with (Some a, w') => Q a (fsys w') | (None, _) => False end.

Lemma ends_ret {A} (a : A) s (Q : A → Files → Prop) : Q a s → ends (mret a) s Q.
Proof. intros HQ w <-. exact HQ. Qed.
Lemma ends_bind {A B} (m : io Files A) (k : A → io Files B) s Q :
  ends m s (fun a s' => ends (k a) s' Q) → ends (m ≫= k) s Q.
Proof.
  intros Hm w Hw. specialize (Hm w Hw). unfold mbind, io_bind. destruct (m w) as [[a|] w']; [|done]. by apply Hm.
Qed.
Lemma ends_mono {A} (m : io Files A) s (Q Q' : A → Files → Prop) :
  ends m s Q → (∀ a s', Q a s' → Q' a s') → ends m s Q'.
Proof. intros Hm HQ w Hw. specialize (Hm w Hw). destruct (m w) as [[a|] w']; [|done]. auto. Qed.
Lemma ends_call c s (Q : fresult c → Files → Prop) : Q (perform c s).1 (perform c s).2 → ends (call c) s Q.
Proof. intros HQ w <-. unfold call. by destruct (perform c (fsys w)). Qed.
Lemma ends_errno s (Q : Z → Files → Prop) : (∀ e, Q e s) → ends get_errno s Q.
Proof. intros HQ w <-. apply HQ. Qed.
Lemma ends_status e s (Q : Z → Files → Prop) : Q (if e =? 0 then 0 else -1) s → ends (status e) s Q.
Proof. intros HQ w <-. unfold status. by destruct (e =? 0). Qed.
Lemma ends_found {A} (r : Z + A) s (Q : option A → Files → Prop) :
  Q (match r with inr a => Some a | inl _ => None end) s → ends (found r) s Q.
Proof. intros HQ w <-. unfold found. by destruct r. Qed.
(** *** The system calls *)
Lemma ends_when (b : bool) m s (Q : unit → Files → Prop) : (b = true → ends m s Q) → (b = false → Q tt s) → ends (io_when b m) s Q.
Proof. destruct b; [auto|]. intros _ HQ. by apply ends_ret, HQ. Qed.
Lemma ends_cancelled live s (Q : bool → Files → Prop) : Q false s → ends (is_cancelled live) s Q.
Proof. intros HQ. destruct live; [|by apply ends_ret]. by apply (ends_call Cancelled). Qed.
(** The path [p] can be reached, and is not too long. *)
Definition placed (s : Files) (p : text) : Prop := reach (nodes s) (components p) ∧ fits p.
Definition no_link (f : gmap path node) (a : path) : Prop := ∀ t, f !! a ≠ Some (NLink t).

Lemma at_placed {A} follow p s (err : Z → A) act :
  placed s p → (follow = true → no_link (nodes s) (components p)) → at_place follow p s err act = act (components p).
Proof. intros [Hr Hf] Hl. unfold at_place. by rewrite resolve_reach. Qed.

Lemma ends_lstat p s (Q : option fstat → Files → Prop) :
  placed s p → Q (stat_of <$> nodes s !! components p) s → ends (lstat p) s Q.
Proof.
  intros Hp HQ. apply ends_bind, (ends_call (Lstat p)). cbn. rewrite at_placed by done.
  destruct (nodes s !! components p) as [x|]; by apply ends_found.
Qed.
Lemma ends_opendir p s m (Q : option Z → Files → Prop) :
  placed s p → nodes s !! components p = Some (NDir m) → S_IRUSR m = true →
  Q (Some (next_fd s)) (s <| dirs := <[next_fd s := names (nodes s) (components p)]> (dirs s) |> <| next_fd := next_fd s + 1 |>) →
  ends (opendir p) s Q.
Proof.
  intros Hp E Hr HQ. apply ends_bind, (ends_call (Opendir p)). cbn. rewrite at_placed; [|done|by intros _ t; rewrite E].
  rewrite E, Hr. by apply ends_found.
Qed.
Lemma ends_closedir d s l (Q : Z → Files → Prop) :
  dirs s !! d = Some l → Q 0 (s <| dirs := delete d (dirs s) |>) → ends (closedir d) s Q.
Proof. intros E HQ. apply ends_bind, (ends_call (Closedir d)). cbn. rewrite E. by apply ends_status. Qed.
Lemma ends_close fd s x (Q : Z → Files → Prop) :
  fds s !! fd = Some x → Q 0 (s <| fds := delete fd (fds s) |>) → ends (close fd) s Q.
Proof. intros E HQ. apply ends_bind, (ends_call (Close fd)). cbn. rewrite E. by apply ends_status. Qed.
Lemma ends_mkdir p mode s (Q : Z → Files → Prop) :
  placed s p →
  (let '(e, s') := make (components p) (NDir (masked s mode)) s in Q (if e =? 0 then 0 else -1) s') → ends (mkdir p mode) s Q.
Proof.
  intros Hp HQ. apply ends_bind, (ends_call (Mkdir p mode)). cbn. rewrite at_placed by done.
  destruct (make _ _ _) as [e s']. by apply ends_status.
Qed.
Lemma ends_symlink t p s (Q : Z → Files → Prop) :
  placed s p →
  (let '(e, s') := make (components p) (NLink t) s in Q (if e =? 0 then 0 else -1) s') → ends (symlink t p) s Q.
Proof.
  intros Hp HQ. apply ends_bind, (ends_call (Symlink t p)). cbn. rewrite at_placed by done.
  destruct (make _ _ _) as [e s']. by apply ends_status.
Qed.
Lemma ends_readlink p s t (Q : option text → Files → Prop) :
  placed s p → nodes s !! components p = Some (NLink t) → Q (Some (take (PATH_MAX - 1) t)) s → ends (readlink p) s Q.
Proof.
  intros Hp E HQ. apply ends_bind, (ends_call (Readlink p)). cbn -[PATH_MAX]. rewrite at_placed by done.
  cbn -[PATH_MAX]. rewrite E. by apply ends_found.
Qed.
Lemma ends_rename a b s (Q : Z → Files → Prop) :
  placed s a → placed s b →
  (let '(e, s') := do_rename device (components a) (components b) s in Q (if e =? 0 then 0 else -1) s') →
  ends (rename a b) s Q.
Proof.
  intros Ha Hb HQ. apply ends_bind, (ends_call (Rename a b)). cbn. rewrite at_placed, at_placed by done.
  destruct (do_rename _ _ _ _) as [e s']. by apply ends_status.
Qed.

(** Removing a node from a writable directory. *)
Lemma ends_unlink p s x (Q : Z → Files → Prop) :
  placed s p → nodes s !! components p = Some x → (∀ m, x ≠ NDir m) → may_write (nodes s) (parent (components p)) = true →
  Q 0 (set_nodes (delete (components p)) s) → ends (unlink p) s Q.
Proof.
  intros Hp E Hx Hw HQ. apply ends_bind, (ends_call (Unlink p)). cbn. rewrite at_placed by done. rewrite E, Hw.
  destruct x as [m|t|m c]; [by destruct (Hx m)| |]; by apply ends_status.
Qed.
Lemma ends_rmdir p s m (Q : Z → Files → Prop) :
  placed s p → nodes s !! components p = Some (NDir m) → names (nodes s) (components p) = [] →
  may_write (nodes s) (parent (components p)) = true →
  Q 0 (set_nodes (delete (components p)) s) → ends (rmdir p) s Q.
Proof.
  intros Hp E Hn Hw HQ. apply ends_bind, (ends_call (Rmdir p)). cbn. rewrite at_placed by done. rewrite E, Hn, Hw.
  rewrite bool_decide_eq_true_2 by done. by apply ends_status.
Qed.

(** ** Handles *)

(** The handles that were given out before are as they were. *)
Record calm (s s' : Files) : Prop := mkCalm {
  calm_next : next_fd s ≤ next_fd s';
  calm_dirs i : i < next_fd s → dirs s' !! i = dirs s !! i;
  calm_fds i : i < next_fd s → fds s' !! i = fds s !! i;
  calm_date : date s' = date s;
  calm_umask : umask s' = umask s }.

#[export] Instance calm_po : PreOrder calm.
Proof.
  split; [by constructor|]. intros s1 s2 s3 [A1 B1 C1 D1 E1] [A2 B2 C2 D2 E2].
  split; [lia| | |congruence|congruence]; intros i Hi; rewrite ?B2, ?C2 by lia; auto.
Qed.
Lemma calm_nodes g s : calm s (set_nodes g s).
Proof. by split. Qed.
(** Opening, reading and closing a directory. *)
Lemma calm_opened s l : calm s (s <| dirs := <[next_fd s := l]> (dirs s) |> <| next_fd := next_fd s + 1 |>).
Proof. split; cbn; [lia| |done..]. intros i Hi. by rewrite lookup_insert_ne by lia. Qed.
Lemma calm_dir_read s s' h l : calm s s' → next_fd s ≤ h → calm s (s' <| dirs := <[h := l]> (dirs s') |>).
Proof. intros [A B C D E] Hh. split; try done. intros i Hi. cbn. rewrite lookup_insert_ne by lia. by apply B. Qed.
Lemma calm_dir_closed s s' h : calm s s' → next_fd s ≤ h → calm s (s' <| dirs := delete h (dirs s') |>).
Proof. intros [A B C D E] Hh. split; try done. intros i Hi. cbn. rewrite lookup_delete_ne by lia. by apply B. Qed.

(** ** Copying a file *)

Lemma ends_write_all n fd data s p z m c (Q : Z → Files → Prop) :
  fds s !! fd = Some (p, z) → nodes s !! p = Some (NFile m c) → (1 ≤ n)%nat → data ≠ [] →
  Q 0 (set_nodes <[p := NFile m (c ++ data)]> s) → ends (write_all n fd data) s Q.
Proof.
  intros Hfd Hp Hn Hd HQ. destruct n as [|n]; [lia|]. destruct data as [|b data]; [done|]. cbn [write_all].
  apply ends_bind, (ends_call (Write fd _)). cbn -[Z.of_nat length drop]. rewrite Hfd, Hp. cbn -[Z.of_nat length drop].
  rewrite Nat2Z.id, drop_all. destruct n; by apply ends_ret.
Qed.

(** Both files open, what was read so far is what was written so far. *)
Definition copying (s : Files) (i o : Z) (a d : path) (m m' : Z) (c : text) (pos : nat) : Prop :=
  fds s !! i = Some (a, pos) ∧ (∃ z, fds s !! o = Some (d, z)) ∧ i ≠ o ∧ a ≠ d ∧
  nodes s !! a = Some (NFile m c) ∧ nodes s !! d = Some (NFile m' (take pos c)).

Lemma ends_copy_loop n live i o a d m m' c pos s :
  copying s i o a d m m' c pos → (length c - pos + 2 ≤ n)%nat →
  ends (copy_loop n live i o) s (fun z s' => z = 0 ∧
    nodes s' = <[d := NFile m' c]> (nodes s) ∧ dirs s' = dirs s ∧ next_fd s' = next_fd s ∧ date s' = date s ∧
    umask s' = umask s ∧ is_Some (fds s' !! i) ∧ is_Some (fds s' !! o) ∧
    (∀ j, j ≠ i → j ≠ o → fds s' !! j = fds s !! j)).
Proof.
  revert pos s. induction n as [|n IH]; intros pos s (Hi & (z & Ho) & Hio & Had & Ha & Hd) Hn; [lia|]. cbn [copy_loop].
  apply ends_bind, (ends_call (Read i)). cbn -[Nat.add take drop]. rewrite Hi, Ha. cbn -[Nat.add take drop].
  destruct (take chunk (drop pos c)) as [|b data] eqn:E.
  { apply ends_ret. cbn. assert (length c ≤ pos)%nat.
    { apply (f_equal length) in E. rewrite length_take, length_drop in E. cbn -[Nat.min] in E. pose proof chunk_pos. lia. }
    rewrite take_ge in Hd by done. rewrite insert_id by done. split_and!; try done; cbn.
    - rewrite lookup_insert_eq. by eexists.
    - rewrite lookup_insert_ne by done. rewrite Ho. by eexists.
    - intros j Hj _. by rewrite lookup_insert_ne. }
  assert (Hl : (length (b :: data) ≤ length c - pos)%nat).
  { rewrite <- E, length_take, length_drop. lia. }
  assert (Hc : take (pos + length (b :: data)) c = take pos c ++ (b :: data)) by (rewrite <- E; apply take_read).
  apply ends_bind, ends_cancelled. apply ends_bind.
  eapply ends_write_all; [cbn; by rewrite lookup_insert_ne|exact Hd|cbn in Hl; lia|done|].
  rewrite Z.eqb_refl. cbn [negb]. apply ends_bind. set (s2 := set_nodes _ _).
  assert (Hnext : copying s2 i o a d m m' c (pos + length (b :: data))).
  { split_and!; try done; cbn; [by rewrite lookup_insert_eq|exists z; by rewrite lookup_insert_ne| |].
    - by rewrite lookup_insert_ne.
    - rewrite lookup_insert_eq. by setoid_rewrite Hc. }
  assert (Hrest : ends (copy_loop n live i o) s2 (fun z s' => z = 0 ∧
    nodes s' = <[d := NFile m' c]> (nodes s) ∧ dirs s' = dirs s ∧ next_fd s' = next_fd s ∧ date s' = date s ∧
    umask s' = umask s ∧ is_Some (fds s' !! i) ∧ is_Some (fds s' !! o) ∧
    (∀ j, j ≠ i → j ≠ o → fds s' !! j = fds s !! j))).
  { eapply ends_mono; [apply (IH _ _ Hnext); cbn [length] in *; lia|].
    intros r s' (-> & Hn' & Hd' & Hx & Hy & Hu & Hfi & Hfo & Hf). split_and!; try done; [by rewrite Hn'; cbn; rewrite insert_insert_eq|].
    intros j Hj Hj'. rewrite Hf by done. cbn. by rewrite lookup_insert_ne. }
  apply ends_when; [intros _|by intros _].
  by apply ends_bind, (ends_call (Bump cur_bytes_done _)), (ends_call (Bump total_bytes_done _)).
Qed.

Lemma make_new p x s :
  nodes s !! p = None → may_write (nodes s) (parent p) = true → make p x s = (0, set_nodes <[p := x]> s).
Proof.
  unfold make, may_write. intros ->. destruct (nodes s !! parent p) as [[m| |]|]; try done. by intros ->.
Qed.

(** The mode keeps all its bits under the mask [u]. *)
Definition unmasked (u m : Z) : Prop := Z.land m (Z.lnot u) = m.
Lemma masked_same s m : unmasked (umask s) m → masked s m = m.
Proof. done. Qed.

(** Opening a file that is there, and making a new one. *)
Lemma ends_open_read p s m c (Q : option Z → Files → Prop) :
  placed s p → nodes s !! components p = Some (NFile m c) → S_IRUSR m = true →
  Q (Some (next_fd s)) (s <| fds := <[next_fd s := (components p, 0%nat)]> (fds s) |> <| next_fd := next_fd s + 1 |>) →
  ends (open_read p) s Q.
Proof.
  intros Hp E Hr HQ. apply ends_bind, (ends_call (OpenRead p)). cbn. rewrite at_placed; [|done|by intros _ t; rewrite E].
  rewrite E, Hr. by apply ends_found.
Qed.
Lemma ends_open_new p mode s (Q : option Z → Files → Prop) :
  placed s p → nodes s !! components p = None → may_write (nodes s) (parent (components p)) = true → unmasked (umask s) mode →
  Q (Some (next_fd s)) (set_nodes <[components p := NFile mode []]> s
     <| fds := <[next_fd s := (components p, 0%nat)]> (fds s) |> <| next_fd := next_fd s + 1 |>) →
  ends (open_write p mode) s Q.
Proof.
  intros Hp E Hw Hm HQ. apply ends_bind, (ends_call (OpenWrite p mode)). cbn. rewrite at_placed; [|done|by intros _ t; rewrite E].
  unfold empty_file. rewrite E, (masked_same s mode Hm), make_new by done. by apply ends_found.
Qed.

Lemma ends_copy_file n live p q s m c :
  placed s p → placed s q → S_IRUSR m = true → unmasked (umask s) m →
  nodes s !! components p = Some (NFile m c) → nodes s !! components q = None →
  may_write (nodes s) (parent (components q)) = true → (length c + 2 ≤ n)%nat →
  ends (copy_file_cancellable n live p q) s
    (fun z s' => z = 0 ∧ nodes s' = <[components q := NFile m c]> (nodes s) ∧ calm s s').
Proof.
  intros Hp Hq Hr Hm Ha Hd Hw Hn. assert (Had : components p ≠ components q) by congruence. unfold copy_file_cancellable.
  apply ends_bind. eapply ends_open_read; [done..|].
  apply ends_bind, (ends_call (Fstat (next_fd s))). cbn. rewrite lookup_insert_eq. cbn. rewrite Ha. cbn.
  apply ends_bind. set (s1 := _ <| next_fd := _ |>).
  assert (Hopen : ends (open_write q m) s1 (fun o s2 => o = Some (next_fd s + 1) ∧
    nodes s2 = <[components q := NFile m []]> (nodes s) ∧ dirs s2 = dirs s ∧ next_fd s2 = next_fd s + 1 + 1 ∧ date s2 = date s ∧
    umask s2 = umask s ∧
    fds s2 = <[next_fd s + 1 := (components q, 0%nat)]> (<[next_fd s := (components p, 0%nat)]> (fds s)))).
  { by apply ends_open_new. }
  assert (Hrest : ends (o ← open_write q m;
    match o with
    | Some fd_out =>
      ret ← copy_loop n live (next_fd s) fd_out; close (next_fd s);; close fd_out;;
      c ← (if ret =? 0 then mret false else is_cancelled live);
      (if (c : bool) then unlink q;; mret tt else mret tt);; mret ret
    | None => close (next_fd s);; mret (-1)
    end) s1 (fun z s' => z = 0 ∧ nodes s' = <[components q := NFile m c]> (nodes s) ∧ calm s s')).
  { apply ends_bind. eapply ends_mono; [exact Hopen|]. intros o s2 (-> & N2 & D2 & F2 & T2 & U2 & H2).
    apply ends_bind. eapply ends_mono; [eapply (ends_copy_loop n live (next_fd s) (next_fd s + 1) (components p) (components q) m m c 0 s2); [|lia]|].
    { split_and!; rewrite ?N2, ?H2; [|exists 0%nat|lia|done| |]; rewrite ?lookup_insert_eq; rewrite ?lookup_insert_ne by (done || lia); rewrite ?lookup_insert_eq; done. }
    intros z s3 (-> & N3 & D3 & F3 & T3 & U3 & [x Hx] & [y Hy] & H3).
    apply ends_bind. eapply ends_close; [exact Hx|]. apply ends_bind. eapply (ends_close _ _ y).
    { cbn. by rewrite lookup_delete_ne by lia. }
    apply ends_bind, ends_ret, ends_bind, ends_ret, ends_ret. split; [done|]. split; [cbn; by rewrite N3, N2, insert_insert_eq|].
    split; cbn; rewrite ?F3, ?F2, ?D3, ?D2, ?T3, ?T2, ?U3, ?U2; [lia|done| |done..].
    intros i Hi. rewrite !lookup_delete_ne by lia. rewrite H3 by lia. rewrite H2. by rewrite !lookup_insert_ne by lia. }
  apply ends_when; [intros _; apply ends_bind, (ends_call (Store _ _)), (ends_call (Store _ _)); cbn; exact Hrest|intros _; exact Hrest].
Qed.

(** ** Reading a directory *)

(** [d] still lists [L]. *)
Lemma ends_read_loop (I : list text → Z → Files → Prop) n d body ret L s :
  (∀ L ret s nodes', I L ret s → I L ret (s <| dirs := <[d := nodes']> (dirs s) |>)) →
  (∀ m L ret s, is_dot m = false → dirs s !! d = Some L → I (m :: L) ret s →
     ends (body m ret) s (fun r s' => r.1 = false ∧ dirs s' !! d = Some L ∧ I L r.2 s')) →
  (∀ m, m ∈ L → is_dot m = false) → dirs s !! d = Some L → I L ret s → (length L < n)%nat →
  ends (read_loop n d body ret) s (fun z s' => dirs s' !! d = Some [] ∧ I [] z s').
Proof.
  intros Hr Hb. revert n ret s. induction L as [|m L IH]; intros n ret s Hdot Hd HI Hn; destruct n as [|n]; [cbn in Hn; lia| |cbn in Hn; lia|].
  - cbn [read_loop]. apply ends_bind, (ends_call (Readdir d)). cbn. rewrite Hd. by apply ends_ret.
  - cbn [read_loop]. apply ends_bind, (ends_call (Readdir d)). cbn. rewrite Hd. cbn. rewrite Hdot by set_solver.
    apply ends_bind. eapply ends_mono; [apply (Hb m L)|].
    + apply Hdot. set_solver.
    + cbn. by rewrite lookup_insert_eq.
    + by apply Hr.
    + intros [stop z] s' (E & Hd' & HI'). cbn in *. subst stop. apply IH; [set_solver|done..|lia].
Qed.

(** A free name is taken. *)
Lemma ends_resolve_free p s (Q : text → Files → Prop) :
  placed s p → nodes s !! components p = None → Q p s → ends (resolve_conflict p) s Q.
Proof. intros Hp E HQ. apply ends_bind, ends_lstat; [done|]. rewrite E. by apply ends_ret. Qed.

(** ** Copying *)

(** Names [L] of the directory [a] are still to be copied. *)
Record copies_left (f : gmap path node) (s0 : Files) (a d : path) (m h0 : Z) (L : list text) (ret : Z) (s : Files) : Prop := {
  cl_ret : ret = 0;
  cl_calm : calm s0 s;
  cl_handle : next_fd s0 ≤ h0 < next_fd s;
  cl_dir : nodes s !! d = Some (NDir m);
  cl_but : same_but f (nodes s) d;
  cl_todo n r : n ∈ L → nodes s !! (d ++ n :: r) = None;
  cl_done n r : n ∉ L → nodes s !! (d ++ n :: r) = f !! (a ++ n :: r);
  cl_nodup : NoDup L;
  cl_names : ∀ n, n ∈ L → n ∈ names f a }.

Lemma same_but_outside f g a d : same_but f g d → strip d a = None → strip a d = None → same_tree f g a a.
Proof. intros Hs Hd Ha r. apply Hs. by apply strip_not_above. Qed.

(** What a copy does. *)
Definition copied (s : Files) (a d : path) (z : Z) (s' : Files) : Prop :=
  z = 0 ∧ same_tree (nodes s) (nodes s') a d ∧ same_but (nodes s) (nodes s') d ∧ calm s s'.

(** The way is free: both places can be reached, the paths in the tree and in its copy,
    which start with [la] and [ld] bytes, are not too long, and the mask [u] takes nothing. *)
Record passable (f : gmap path node) (u : Z) (a d : path) (la ld : nat) : Prop := mkPassable {
  ps_reach_a : reach f a;
  ps_reach_d : reach f d;
  ps_within_a : within f a la;
  ps_within_d : within f a ld;
  ps_modes r x : f !! (a ++ r) = Some x → match x with NDir m | NFile m _ => unmasked u m | NLink _ => True end }.

Definition copyable (s : Files) (a d : path) (la ld k h : nat) : Prop :=
  tree (nodes s) a k h ∧ is_Some (nodes s !! a) ∧ vacant (nodes s) d ∧ may_write (nodes s) (parent d) = true ∧
  strip a d = None ∧ passable (nodes s) (umask s) a d la ld.

Lemma passable_keep f g u a d la ld :
  passable f u a d la ld → same_tree f g a a → (∀ q r, a = q ++ r → r ≠ [] → g !! q = f !! q) →
  (∀ q r, d = q ++ r → r ≠ [] → g !! q = f !! q) → passable g u a d la ld.
Proof.
  intros [Hra Hrd Hla Hld Hm] Hs Ha Hd. split.
  - by eapply reach_keep.
  - by eapply reach_keep.
  - by eapply within_same.
  - by eapply within_same.
  - intros r x. rewrite Hs. apply Hm.
Qed.

Lemma placed_from s p u q la ld :
  passable (nodes s) u (components p) q la ld → is_Some (nodes s !! components p) → la = length p → placed s p.
Proof. intros [Hra _ Hla _ _] Hp ->. split; [done|]. by apply (within_fits (nodes s)). Qed.
Lemma placed_to s a u q la ld :
  passable (nodes s) u a (components q) la ld → is_Some (nodes s !! a) → ld = length q → placed s q.
Proof.
  intros [_ Hrd _ [H0 Hld] _] Hp ->. split; [done|]. split; [intros ->; cbn in H0; lia|]. specialize (Hld []).
  rewrite app_nil_r in Hld. specialize (Hld Hp). unfold weight in Hld. cbn in Hld. lia.
Qed.

(** Proper prefixes of the place are outside of it. *)
Lemma strip_proper (q r : path) : r ≠ [] → strip (q ++ r) q = None.
Proof.
  intros Hr. apply strip_None. intros r' E. apply (f_equal length) in E. rewrite !length_app in E.
  destruct r; [done|]. cbn in E. lia.
Qed.

(** From a directory and its copy [md] to an entry of it. *)
Lemma passable_down f g u p q x md k h :
  passable f u (components p) (components q) (length p) (length q) →
  tree f (components p) k h → x ∈ names f (components p) →
  same_but f g (components q) → g !! components q = Some (NDir md) → open_mode md = true →
  strip (components p) (components q) = None → strip (components q) (components p) = None →
  passable g u (components p ++ [x]) (components q ++ [x]) (length (slash p x)) (length (slash q x)).
Proof.
  intros [Hra Hrd Hla Hld Hm] Ht Hx Hb Hg Ho Had Hda.
  pose proof (same_but_outside _ _ _ _ Hb Hda Had) as Hs. split.
  - eapply reach_but; [by eapply tree_reach|exact Hb|]. by apply strip_not_above.
  - eapply reach_down; [|exact Hg|by apply open_mode_bits in Ho as (_ & _ & ?)|by eapply tree_short].
    eapply reach_keep; [exact Hrd|]. intros y r E Hr. apply Hb. rewrite E. by apply strip_proper.
  - eapply within_same; [by apply same_tree_down|]. by apply within_down.
  - eapply within_same; [by apply same_tree_down|]. by apply within_down.
  - intros r y. rewrite <- app_assoc, Hs. apply Hm.
Qed.

Lemma strip_self a x : strip a (a ++ x) = None → False.
Proof. by rewrite strip_app. Qed.

Lemma vacant_apart f a d : is_Some (f !! a) → vacant f d → strip d a = None.
Proof. intros [x Hx] Hv. apply strip_None. intros r ->. by rewrite Hv in Hx. Qed.

Lemma copies_step f g g' a d x L n r :
  same_tree g g' (a ++ [x]) (d ++ [x]) → same_but g g' (d ++ [x]) →
  same_tree f g a a → n ∉ L → (n ∉ x :: L → g !! (d ++ n :: r) = f !! (a ++ n :: r)) →
  g' !! (d ++ n :: r) = f !! (a ++ n :: r).
Proof.
  intros Hs Hb Hf Hn Hd. destruct (decide (n = x)) as [->|Hne].
  - specialize (Hs r). rewrite <- !app_assoc in Hs. cbn in Hs. by rewrite Hs, (Hf (x :: r)).
  - rewrite Hb; [by apply Hd; set_solver|]. apply strip_None. intros r' E. rewrite <- app_assoc in E.
    apply app_inv_head in E. by injection E.
Qed.

Lemma ends_copy_entry n live p q f s0 md h0 x L ret s k h :
  (∀ p' q' s', copyable s' (components p') (components q') (length p') (length q') k h →
     ends (copy_recursive_cb n live p' q') s' (copied s' (components p') (components q'))) →
  tree f (components p) k (S h) → strip (components p) (components q) = None → strip (components q) (components p) = None →
  passable f (umask s0) (components p) (components q) (length p) (length q) → open_mode md = true →
  dirs s !! h0 = Some L → copies_left f s0 (components p) (components q) md h0 (x :: L) ret s →
  ends (c ← is_cancelled live;
         if (c : bool) then mret (true, -1) else
         child_dst ← resolve_conflict (slash q x);
         r ← copy_recursive_cb n live (slash p x) child_dst;
         mret (false, if r =? 0 then ret else -1)) s
    (fun r s' => r.1 = false ∧ dirs s' !! h0 = Some L ∧ copies_left f s0 (components p) (components q) md h0 L r.2 s').
Proof.
  intros IH Ht Had Hda Hps Hmd HL [Hret Hcalm Hh Hdir Hbut Htodo Hdone Hnd Hnames].
  assert (Hxn : x ∈ names f (components p)) by (apply Hnames; set_solver).
  assert (Hx : plain_name x) by (by eapply tree_plain).
  pose proof (same_but_outside f (nodes s) _ _ Hbut Hda Had) as Hsame.
  pose proof (passable_down f (nodes s) _ p q x md k (S h) Hps Ht Hxn Hbut Hdir Hmd Had Hda) as Hps'.
  assert (Hthere : is_Some (nodes s !! (components p ++ [x]))) by (rewrite (Hsame [x]); by apply names_spec).
  apply ends_bind, ends_cancelled, ends_bind, ends_resolve_free.
  { eapply placed_to; [by rewrite components_slash|exact Hthere|done]. }
  { rewrite components_slash by done. apply (Htodo x []). set_solver. }
  apply ends_bind. eapply ends_mono.
  - apply IH. rewrite !components_slash by done. split_and!; try done.
    + apply tree_down. by eapply tree_same.
    + intros r. rewrite <- app_assoc. apply Htodo. set_solver.
    + rewrite parent_app. by eapply open_may_write.
    + by apply strip_below.
    + by rewrite (calm_umask _ _ Hcalm).
  - intros z s' (-> & Hs' & Hb' & Hc'). rewrite !components_slash in * by done. apply ends_ret. cbn.
    apply NoDup_cons in Hnd as [HxL HL'].
    split; [done|]. split; [by rewrite (calm_dirs _ _ Hc') by lia|]. split; try done.
    + by rewrite Hcalm.
    + pose proof (calm_next _ _ Hc'). lia.
    + rewrite Hb'; [done|]. by apply strip_proper.
    + intros y Hy. rewrite Hb'; [by apply Hbut|]. by apply strip_further.
    + intros y r Hy. rewrite Hb'; [apply Htodo; set_solver|]. apply strip_None. intros r' E. rewrite <- app_assoc in E.
      apply app_inv_head in E. injection E as -> _. done.
    + intros y r Hy. eapply (copies_step f (nodes s) (nodes s') _ _ x L); [exact Hs'|exact Hb'|exact Hsame|done|apply Hdone].
    + set_solver.
Qed.

(** A node that is no directory is copied alone. *)
Lemma copied_alone s s' a d x la ld k h :
  copyable s a d la ld k h → nodes s !! a = Some x → (∀ m, x ≠ NDir m) →
  nodes s' = <[d := x]> (nodes s) → calm s s' → copied s a d 0 s'.
Proof.
  intros (Ht & Ha & Hv & Hw & Had & Hps) Hx Hnd E Hc. split; [done|]. split; [|split; [|done]].
  - intros r. rewrite E. destruct r as [|n r]; [by rewrite !app_nil_r, lookup_insert_eq|].
    rewrite lookup_insert_ne, Hv.
    + symmetry. apply (tree_not_entry _ _ k h); [done|]. intros Hn%names_spec.
      destruct (tree_in _ _ _ _ Ht [] n Hn) as (_ & _ & m & Em). rewrite app_nil_r in Em. apply (Hnd m). congruence.
    + intros Er. apply (f_equal length) in Er. rewrite length_app in Er. cbn in Er. lia.
  - intros y Hy. rewrite E. apply lookup_insert_ne. intros <-. by rewrite strip_same in Hy.
Qed.

(** The directory is made, and none of its names is copied yet. *)
Lemma copies_start s0 a d m la ld k h s :
  copyable s0 a d la ld k h → nodes s0 !! a = Some (NDir m) →
  nodes s = <[d := NDir m]> (nodes s0) → calm s0 s → next_fd s0 < next_fd s →
  copies_left (<[d := NDir m]> (nodes s0)) s0 a d m (next_fd s0) (names (<[d := NDir m]> (nodes s0)) a) 0 s.
Proof.
  intros (Ht & Ha & Hv & Hw & Had & Hps) Hm E Hc Hn. pose proof (vacant_apart _ _ _ Ha Hv) as Hda.
  assert (Hs : same_tree (nodes s0) (<[d := NDir m]> (nodes s0)) a a).
  { intros r. apply lookup_insert_ne. intros ->. by rewrite strip_app in Had. }
  assert (Hnone : ∀ n r, nodes s !! (d ++ n :: r) = None).
  { intros n r. rewrite E, lookup_insert_ne; [apply Hv|]. intros Er. apply (f_equal length) in Er.
    rewrite length_app in Er. cbn in Er. lia. }
  split; try done; [| | |by apply names_nodup].
  - by rewrite E, lookup_insert_eq.
  - intros y _. by rewrite E.
  - intros n r Hn'. rewrite Hnone. symmetry. apply (tree_not_entry _ _ k h); [|done]. by eapply tree_same.
Qed.

Lemma copies_end f s0 a d m h0 ret s :
  f !! a = Some (NDir m) → copies_left f s0 a d m h0 [] ret s → same_tree f (nodes s) a d.
Proof.
  intros Hm [_ _ _ Hd _ _ Hdone _ _] r. destruct r as [|n r]; [by rewrite !app_nil_r, Hd|]. apply Hdone. set_solver.
Qed.

Lemma copies_read f s0 a d m h0 L ret s l :
  copies_left f s0 a d m h0 L ret s → copies_left f s0 a d m h0 L ret (s <| dirs := <[h0 := l]> (dirs s) |>).
Proof.
  intros [? Hc Hh ? ? ? ? ? ?]. split; try done. apply calm_dir_read; [done|lia].
Qed.

(** The entries in turn. *)
Lemma ends_copy_listing n live p q f s0 md h0 s k h :
  (∀ p' q' s' h', copyable s' (components p') (components q') (length p') (length q') k h' → (h' + k + 3 ≤ n)%nat →
     ends (copy_recursive_cb n live p' q') s' (copied s' (components p') (components q'))) →
  tree f (components p) k h → open_mode md = true →
  passable f (umask s0) (components p) (components q) (length p) (length q) →
  strip (components p) (components q) = None → strip (components q) (components p) = None →
  dirs s !! h0 = Some (names f (components p)) → (h + k + 2 ≤ n)%nat →
  copies_left f s0 (components p) (components q) md h0 (names f (components p)) 0 s →
  ends (read_loop n h0 (fun name ret =>
          c ← is_cancelled live;
          if (c : bool) then mret (true, -1) else
          child_dst ← resolve_conflict (slash q name);
          r ← copy_recursive_cb n live (slash p name) child_dst;
          mret (false, if r =? 0 then ret else -1)) 0) s
    (fun z s' => dirs s' !! h0 = Some [] ∧ copies_left f s0 (components p) (components q) md h0 [] z s').
Proof.
  intros IH Ht Hmd Hps Had Hda Hd Hn Hleft.
  eapply (ends_read_loop (copies_left f s0 (components p) (components q) md h0)); [| | |exact Hd|exact Hleft|].
  - intros. by apply copies_read.
  - intros x L ret s' _ HL Hl. assert (Hxn : x ∈ names f (components p)).
    { apply (cl_names _ _ _ _ _ _ _ _ _ Hl). set_solver. }
    destruct h as [|h]; [by destruct (tree_low f (components p) k x)|].
    eapply (ends_copy_entry n live p q f s0 md h0 x L ret s' k h); try done.
    intros p' q' s1 Hc. apply (IH p' q' s1 h); [done|lia].
  - intros x Hxn. by apply (tree_plain f (components p) k h) in Hxn as [].
  - pose proof (tree_names _ _ _ _ Ht []) as Hk. rewrite app_nil_r in Hk. lia.
Qed.

Lemma ends_copy n live p q s k h :
  copyable s (components p) (components q) (length p) (length q) k h → (h + k + 3 ≤ n)%nat →
  ends (copy_recursive_cb n live p q) s (copied s (components p) (components q)).
Proof.
  revert p q s h. induction n as [|n IH]; intros p q s h Hc Hn; [lia|]. pose proof Hc as (Ht & Ha & Hv & Hw & Had & Hps).
  cbn [copy_recursive_cb]. pose proof (vacant_apart _ _ _ Ha Hv) as Hda.
  assert (Hfree : nodes s !! components q = None) by (specialize (Hv []); by rewrite app_nil_r in Hv).
  assert (Hp : placed s p) by (by eapply placed_from). assert (Hq : placed s q) by (by eapply placed_to).
  assert (Hmode : ∀ x, nodes s !! components p = Some x → match x with NDir m | NFile m _ => unmasked (umask s) m | NLink _ => True end).
  { intros x Hx. apply (ps_modes _ _ _ _ _ _ Hps []). by rewrite app_nil_r. }
  apply ends_bind, ends_cancelled, ends_bind, ends_lstat; [done|]. destruct Ha as [x Hx]. rewrite Hx. specialize (Hmode x Hx).
  destruct x as [m|t|m c]; cbn [stat_of fmap option_fmap option_map st_kind st_mode].
  - pose proof (tree_top_dir _ _ _ _ _ Ht Hx) as Hm.
    apply ends_bind, ends_mkdir; [done|]. rewrite (masked_same s m Hmode), (make_new _ _ s) by done. cbn [Z.eqb].
    apply ends_bind, ends_errno. intros e. cbn [Z.eqb negb andb]. set (f := <[components q := NDir m]> (nodes s)).
    assert (Hs : same_tree (nodes s) f (components p) (components p)).
    { intros r. apply lookup_insert_ne. intros Er. rewrite Er in Had. by rewrite strip_app in Had. }
    assert (Hma : f !! components p = Some (NDir m)) by (specialize (Hs []); by rewrite app_nil_r in Hs; rewrite Hs).
    assert (Hpf : passable f (umask s) (components p) (components q) (length p) (length q)).
    { eapply passable_keep; [exact Hps|exact Hs|..]; intros y r E Hr; apply lookup_insert_ne; intros Ey.
      - rewrite E, <- Ey in Hda. by rewrite strip_app in Hda.
      - apply (f_equal length) in E. rewrite Ey, length_app in E. destruct r; [done|]. cbn in E. lia. }
    apply ends_bind. eapply (ends_opendir p _ m); [split; [apply Hpf|apply Hp]|exact Hma|by apply open_mode_bits in Hm as (? & _)|].
    change (next_fd (set_nodes <[components q := NDir m]> s)) with (next_fd s).
    change (nodes (set_nodes <[components q := NDir m]> s)) with f.
    apply ends_bind. eapply ends_mono.
    + eapply (ends_copy_listing n live p q f s m (next_fd s) _ k h); try done; [by eapply tree_same|cbn; by rewrite lookup_insert_eq|lia|].
      apply (copies_start s (components p) (components q) m (length p) (length q) k h); try done; [|cbn; lia].
      transitivity (set_nodes <[components q := NDir m]> s); [apply calm_nodes|apply (calm_opened (set_nodes <[components q := NDir m]> s))].
    + intros ret s' [Hd' Hleft]. apply ends_bind. eapply ends_closedir; [exact Hd'|]. apply ends_ret.
      pose proof (copies_end _ _ _ _ _ _ _ _ Hma Hleft) as Hend. destruct Hleft as [Hret Hcl Hh _ Hb _ _ _ _].
      split; [done|]. split; [|split; [|apply calm_dir_closed; [done|lia]]].
      * intros r. cbn. by rewrite (Hend r).
      * intros y Hy. cbn. rewrite Hb by done. apply lookup_insert_ne. intros E. by rewrite <- E, strip_same in Hy.
  - apply ends_bind. eapply ends_readlink; [exact Hp|exact Hx|]. apply ends_bind, ends_resolve_free; [done|done|].
    assert (Hl : (length t < PATH_MAX)%nat) by (apply (tree_links _ _ _ _ Ht []); by rewrite app_nil_r).
    apply ends_bind, ends_symlink; [done|]. rewrite (take_ge t) by lia. rewrite (take_ge t) by lia.
    rewrite (make_new _ _ s) by done. apply ends_bind, ends_when; intros _; [apply (ends_call (Bump _ _))|];
    apply ends_ret; by apply (copied_alone s _ _ _ (NLink t) (length p) (length q) k h).
  - destruct (tree_size _ _ _ _ Ht [] m c) as [Hr Hl]; [by rewrite app_nil_r|].
    apply ends_bind. eapply ends_mono; [apply (ends_copy_file n live p q s m c); try done; lia|].
    intros z s' (-> & E & Hcl). assert (copied s (components p) (components q) 0 s').
    { by apply (copied_alone s _ _ _ (NFile m c) (length p) (length q) k h). }
    apply ends_bind, ends_when; intros _; [apply (ends_call (Bump _ _))|]; by apply ends_ret.
Qed.
End Disk.
