(* ===== verification/FmMoveProof.v ===== *)
(** * Deleting and moving on the file system *)

From S2P Require Import Prelude.
From S2P Require Import CString.
From S2P Require Import CFloat.
From S2P Require Import FmFiles.
From S2P Require Import FmTrash.
From S2P Require Import FmFilesProof.
From S2P Require Import FmDisk.
From S2P Require Import FmDiskProof.
From stdpp Require Import gmap.
Open Scope Z_scope.

Section Delete.
Context (device : path → Z).
Let P : Posix Files := files_posix device.
#[local] Existing Instance P.

(** ** Deleting *)

Definition deletable (s : Files) (a : path) (la k h : nat) : Prop :=
  tree (nodes s) a k h ∧ is_Some (nodes s !! a) ∧ may_write (nodes s) (parent a) = true ∧ a ≠ [] ∧
  reach (nodes s) a ∧ within (nodes s) a la.
Definition removed (s : Files) (a : path) (z : Z) (s' : Files) : Prop :=
  z = 0 ∧ vacant (nodes s') a ∧ same_but (nodes s) (nodes s') a ∧ calm s s'.

(** Names [L] of the directory [a] are still there. *)
Record deletes_left (s0 : Files) (a : path) (h0 : Z) (L : list text) (ret : Z) (s : Files) : Prop := {
  dl_ret : ret = 0;
  dl_calm : calm s0 s;
  dl_handle : next_fd s0 ≤ h0 < next_fd s;
  dl_dir : nodes s !! a = nodes s0 !! a;
  dl_but : same_but (nodes s0) (nodes s) a;
  dl_todo n r : n ∈ L → nodes s !! (a ++ n :: r) = nodes s0 !! (a ++ n :: r);
  dl_done n r : n ∉ L → nodes s !! (a ++ n :: r) = None;
  dl_nodup : NoDup L;
  dl_names : ∀ n, n ∈ L → n ∈ names (nodes s0) a }.

Lemma strip_parent a : a ≠ [] → strip a (parent a) = None.
Proof.
  intros Ha. apply strip_None. intros r E. apply (f_equal length) in E. unfold parent in E.
  rewrite length_take, length_app in E. destruct a; [done|]. cbn [length] in E. lia.
Qed.

Lemma other_entry a (n x : text) r : n ≠ x → strip (a ++ [x]) (a ++ n :: r) = None.
Proof.
  intros Hn. apply strip_None. intros r' E. rewrite <- app_assoc in E. apply app_inv_head in E. by injection E.
Qed.
Lemma entry_not_dir a (x : text) : strip (a ++ [x]) a = None.
Proof. apply strip_None. intros r E. apply (f_equal length) in E. rewrite !length_app in E. cbn in E. lia. Qed.

(** What was outside of [a] is there: [a] can still be reached. *)
Lemma reach_outside f g a : reach f a → same_but f g a → reach g a.
Proof. intros Hr Hb. eapply reach_keep; [done|]. intros q r -> Hne. apply Hb. by apply strip_proper. Qed.

Lemma ends_delete_entry n live p s0 h0 x L ret s k h :
  (∀ p' s', deletable s' (components p') (length p') k h →
     ends (delete_recursive_cb n live p') s' (removed s' (components p'))) →
  tree (nodes s0) (components p) k (S h) → reach (nodes s0) (components p) →
  within (nodes s0) (components p) (length p) → dirs s !! h0 = Some L →
  deletes_left s0 (components p) h0 (x :: L) ret s →
  ends (c ← is_cancelled live;
         if (c : bool) then mret (true, -1) else
         r ← delete_recursive_cb n live (slash p x);
         mret (false, if r =? 0 then ret else -1)) s
    (fun r s' => r.1 = false ∧ dirs s' !! h0 = Some L ∧ deletes_left s0 (components p) h0 L r.2 s').
Proof.
  intros IH Ht Hr Hl HL [Hret Hcalm Hh Hdir Hbut Htodo Hdone Hnd Hnames].
  assert (Hx : x ∈ names (nodes s0) (components p)) by (apply Hnames; set_solver).
  assert (Hsame : same_tree (nodes s0) (nodes s) (components p ++ [x]) (components p ++ [x])).
  { intros r. rewrite <- !app_assoc. apply Htodo. set_solver. }
  destruct (tree_dir _ _ _ _ _ Ht Hx) as (md & Emd & (_ & _ & Hmd)%open_mode_bits).
  assert (Hp : plain_name x) by (by eapply tree_plain).
  apply ends_bind, ends_cancelled, ends_bind. eapply ends_mono.
  - apply IH. rewrite components_slash by done. split_and!.
    + eapply tree_same; [exact Hsame|by apply tree_down].
    + rewrite (Htodo x []) by set_solver. by apply names_spec.
    + rewrite parent_app. unfold may_write. rewrite Hdir. by eapply (tree_writable _ _ _ _ x).
    + by destruct (components p).
    + eapply reach_down; [by eapply reach_outside|by rewrite Hdir|exact Hmd|by eapply tree_short].
    + eapply within_same; [exact Hsame|by apply within_down].
  - intros z s' (-> & Hv & Hb' & Hc'). rewrite components_slash in * by done. apply ends_ret. cbn.
    apply NoDup_cons in Hnd as [HxL HL'].
    split; [done|]. split; [by rewrite (calm_dirs _ _ Hc') by lia|]. split; try done.
    + by rewrite Hcalm.
    + pose proof (calm_next _ _ Hc'). lia.
    + rewrite Hb' by apply entry_not_dir. done.
    + intros y Hy. rewrite Hb'; [by apply Hbut|]. by apply strip_further.
    + intros y r Hy. rewrite Hb'; [apply Htodo; set_solver|]. apply other_entry. by intros ->.
    + intros y r Hy. destruct (decide (y = x)) as [->|Hne].
      * specialize (Hv r). by rewrite <- app_assoc in Hv.
      * rewrite Hb' by (by apply other_entry). apply Hdone. set_solver.
    + intros y Hy. apply Hnames. set_solver.
Qed.

Lemma deletes_read s0 a h0 L ret s l :
  deletes_left s0 a h0 L ret s → deletes_left s0 a h0 L ret (s <| dirs := <[h0 := l]> (dirs s) |>).
Proof.
  intros [? Hc Hh ? ? ? ? ? ?]. split; try done. apply calm_dir_read; [done|lia].
Qed.

(** The node itself goes last. *)
Lemma removed_last s s1 a :
  nodes s1 !! a = nodes s !! a → (∀ n r, nodes s1 !! (a ++ n :: r) = None) → same_but (nodes s) (nodes s1) a → calm s s1 →
  removed s a 0 (set_nodes (delete a) s1).
Proof.
  intros Ha Hn Hb Hc. split; [done|]. split; [|split].
  - intros [|n r]; cbn; [by rewrite app_nil_r, lookup_delete_eq|]. rewrite lookup_delete_ne, Hn; [done|].
    intros E. apply (f_equal length) in E. rewrite length_app in E. cbn in E. lia.
  - intros q Hq. cbn. rewrite lookup_delete_ne; [by apply Hb|]. intros <-. by rewrite strip_same in Hq.
  - etransitivity; [done|apply calm_nodes].
Qed.

Lemma ends_delete n live p s k h :
  deletable s (components p) (length p) k h → (h + k + 3 ≤ n)%nat →
  ends (delete_recursive_cb n live p) s (removed s (components p)).
Proof.
  revert p s h. induction n as [|n IH]; intros p s h (Ht & [x Hx] & Hw & Hne & Hr & Hl) Hn; [lia|]. cbn [delete_recursive_cb].
  assert (Hp : placed s p) by (split; [done|]; eapply within_fits; [exact Hl|by eexists]).
  apply ends_bind, ends_cancelled, ends_bind, ends_lstat; [done|]. rewrite Hx. cbn [fmap option_fmap option_map].
  case_bool_decide as Hk.
  - destruct x as [m|t|m c]; [|done..]. apply ends_bind. pose proof (tree_top_dir _ _ _ _ _ Ht Hx) as (Hmr & _)%open_mode_bits.
    eapply (ends_opendir _ p _ m); [exact Hp|exact Hx|exact Hmr|].
    apply ends_bind. eapply ends_mono.
    + eapply (ends_read_loop _ (deletes_left s (components p) (next_fd s))).
      * intros. by apply deletes_read.
      * intros x L ret s' Hx' HL Hleft. destruct h as [|h].
        { exfalso. apply (tree_low _ _ _ x Ht), (dl_names _ _ _ _ _ _ Hleft). set_solver. }
        apply (ends_delete_entry n live p s (next_fd s) x L ret s' k h); try done.
        intros p' s1 Hd. apply (IH p' s1 h); [done|lia].
      * intros x Hxn. by apply (tree_plain (nodes s) (components p) k h) in Hxn as [].
      * cbn. by rewrite lookup_insert_eq.
      * split; try done; cbn; [|lia| |apply names_nodup].
        -- apply calm_opened.
        -- intros y r Hy. by apply (tree_not_entry _ _ k h).
      * pose proof (tree_names _ _ _ _ Ht []) as Hk'. rewrite app_nil_r in Hk'. lia.
    + intros ret s' [Hd' [-> Hc Hh Hd Hb _ Hdone _ _]]. apply ends_bind. eapply ends_closedir; [exact Hd'|].
      assert (Hc' : calm s (s' <| dirs := delete (next_fd s) (dirs s') |>)) by (apply calm_dir_closed; [done|lia]).
      apply ends_bind. eapply (ends_rmdir _ _ _ m); cbn.
      * split; [|apply Hp]. by eapply reach_outside.
      * by rewrite Hd.
      * destruct (names (nodes s') (components p)) as [|y L] eqn:E; [done|].
        assert (Hy : y ∈ names (nodes s') (components p)) by (rewrite E; set_solver). apply names_spec in Hy as [v Hv].
        rewrite Hdone in Hv; [done|set_solver].
      * unfold may_write. rewrite Hb; [done|by apply strip_parent].
      * apply ends_ret, removed_last; try done. intros y r. apply Hdone. set_solver.
  - assert (Hrm : removed s (components p) 0 (set_nodes (delete (components p)) s)).
    { apply removed_last; try done. intros y r. apply (tree_not_entry _ _ k h); [done|]. intros Hy%names_spec.
      destruct (tree_in _ _ _ _ Ht [] y Hy) as (_ & _ & m & E). rewrite app_nil_r in E. rewrite Hx in E. by injection E as ->. }
    apply ends_bind. eapply ends_unlink; [exact Hp|exact Hx|by intros m ->|done|].
    by apply ends_bind, ends_when; intros _; [apply (ends_call _ (Bump _ _))|]; apply ends_ret.
Qed.

(** The same without progress. *)
Lemma ends_ext {A} (m m' : io Files A) s (Q : A → Files → Prop) : (∀ w, m w = m' w) → ends m' s Q → ends m s Q.
Proof. intros E Hm w Hw. rewrite E. by apply Hm. Qed.
Lemma ends_copy_plain n p q s k h :
  copyable s (components p) (components q) (length p) (length q) k h → (h + k + 3 ≤ n)%nat →
  ends (copy_recursive n p q) s (copied s (components p) (components q)).
Proof. intros Hc Hn. eapply ends_ext; [intros w; apply copy_recursive_eq|]. by eapply ends_copy. Qed.
Lemma ends_delete_plain n p s k h :
  deletable s (components p) (length p) k h → (h + k + 3 ≤ n)%nat → ends (delete_recursive n p) s (removed s (components p)).
Proof. intros Hc Hn. eapply ends_ext; [intros w; apply delete_recursive_eq|]. by eapply ends_delete. Qed.

(** ** Moving *)

Lemma subtree_lookup a b f q : subtree a b f !! q = match strip b q with Some r => f !! (a ++ r) | None => None end.
Proof.
  unfold subtree. set (l := omap _ _).
  assert (Hl : ∀ y x, (y, x) ∈ l ↔ ∃ r, y = b ++ r ∧ f !! (a ++ r) = Some x).
  { intros y x. unfold l. rewrite list_elem_of_omap. split.
    - intros ([q' x'] & Hin & E). apply elem_of_map_to_list in Hin. cbn in E. destruct (strip a q') as [r|] eqn:Es; [|done].
      injection E as <- <-. apply strip_Some in Es as ->. by exists r.
    - intros (r & -> & E). exists (a ++ r, x). split; [by apply elem_of_map_to_list|]. cbn. by rewrite strip_app. }
  assert (Hlook : ∀ y x, list_to_map (M := gmap path node) l !! y = Some x ↔ (y, x) ∈ l).
  { intros y x. split; [apply elem_of_list_to_map_2|]. intros Hin. apply elem_of_list_to_map_1'; [|done].
    intros x' Hin'. apply Hl in Hin as (r & -> & E), Hin' as (r' & Er & E'). apply app_inv_head in Er as ->. congruence. }
  apply option_eq. intros x. rewrite Hlook, Hl. destruct (strip b q) as [r|] eqn:Eb.
  - apply strip_Some in Eb as ->. split; [|by eauto]. intros (r' & E & Ex). by apply app_inv_head in E as ->.
  - split; [|done]. intros (r & -> & _). by rewrite strip_app in Eb.
Qed.

Lemma graft_lookup a b f q :
  graft a b f !! q = match strip b q with Some r => f !! (a ++ r) | None => match strip a q with Some _ => None | None => f !! q end end.
Proof.
  unfold graft. rewrite lookup_union, subtree_lookup. apply option_eq. intros x. destruct (strip b q) as [r|] eqn:Eb.
  - rewrite (proj2 (map_lookup_filter_None _ _ _)); [by rewrite (right_id_L None union)|].
    right. intros y _ [_ Hb]. cbn in Hb. by rewrite Eb in Hb.
  - rewrite (left_id_L None union), map_lookup_filter_Some. cbn. rewrite Eb. destruct (strip a q); naive_solver.
Qed.

(** What the operations mean: removing a tree, and having it at [b] as well. *)
Definition prune (a : path) (f : gmap path node) : gmap path node := filter (fun x => strip a x.1 = None) f.
Definition plant (a b : path) (f : gmap path node) : gmap path node :=
  subtree a b f ∪ filter (fun x => strip b x.1 = None) f.

Lemma plant_lookup a b f q : plant a b f !! q = match strip b q with Some r => f !! (a ++ r) | None => f !! q end.
Proof.
  unfold plant. rewrite lookup_union, subtree_lookup. apply option_eq. intros x. destruct (strip b q) as [r|] eqn:Eb.
  - rewrite (proj2 (map_lookup_filter_None _ _ _)); [by rewrite (right_id_L None union)|].
    right. intros y _ Hb. cbn in Hb. by rewrite Eb in Hb.
  - rewrite (left_id_L None union), map_lookup_filter_Some. cbn. rewrite Eb. naive_solver.
Qed.
Lemma prune_lookup a f q : prune a f !! q = match strip a q with Some _ => None | None => f !! q end.
Proof.
  unfold prune. apply option_eq. intros x. rewrite map_lookup_filter_Some. cbn. destruct (strip a q); naive_solver.
Qed.

Lemma copied_plant s a d z s' : copied s a d z s' → nodes s' = plant a d (nodes s).
Proof.
  intros (_ & Hs & Hb & _). apply map_eq. intros q. rewrite plant_lookup. destruct (strip d q) as [r|] eqn:E; [|by apply Hb].
  apply strip_Some in E as ->. apply Hs.
Qed.
Lemma removed_prune s a z s' : removed s a z s' → nodes s' = prune a (nodes s).
Proof.
  intros (_ & Hv & Hb & _). apply map_eq. intros q. rewrite prune_lookup. destruct (strip a q) as [r|] eqn:E; [|by apply Hb].
  apply strip_Some in E as ->. apply Hv.
Qed.

Definition movable (s : Files) (a d : path) (la ld k h : nat) : Prop :=
  copyable s a d la ld k h ∧ may_write (nodes s) (parent a) = true ∧ a ≠ [].
Definition moved (s : Files) (a d : path) (z : Z) (s' : Files) : Prop :=
  z = 0 ∧ same_tree (nodes s) (nodes s') a d ∧ vacant (nodes s') a ∧
  (∀ q, strip a q = None → strip d q = None → nodes s' !! q = nodes s !! q) ∧ calm s s'.

Lemma moved_graft s a d z s' : moved s a d z s' → nodes s' = graft a d (nodes s).
Proof.
  intros (_ & Hs & Hv & Hr & _). apply map_eq. intros q. rewrite graft_lookup. destruct (strip d q) as [r|] eqn:E.
  { apply strip_Some in E as ->. apply Hs. }
  destruct (strip a q) as [r|] eqn:Ea; [|by apply Hr]. apply strip_Some in Ea as ->. apply Hv.
Qed.

(** [rename], and what follows on success and on failure. *)
Lemma ends_rename_else {A} p q s (m : Z → io Files A) (k : Z → Z → io Files A) (Q : A → Files → Prop) :
  placed s p → placed s q →
  (let '(e, s') := do_rename device (components p) (components q) s in if e =? 0 then ends (m 0) s' Q else ends (k (-1) e) s' Q) →
  ends (r ← rename p q; if r =? 0 then m r else e ← get_errno; k r e) s Q.
Proof.
  intros Hp Hq HQ w <-. cbv [rename mbind io_bind call perform P files_posix status get_errno set_errno mret io_ret].
  rewrite !at_placed by done. destruct (do_rename _ _ _ _) as [e s']. destruct (e =? 0); [by apply HQ|]. by apply HQ.
Qed.
Lemma ends_rename_then {A B} p q s (m : Z → io Files A) (k : Z → Z → io Files A) (j : A → io Files B) (Q : B → Files → Prop) :
  placed s p → placed s q →
  (let '(e, s') := do_rename device (components p) (components q) s in
   if e =? 0 then ends (m 0 ≫= j) s' Q else ends (k (-1) e ≫= j) s' Q) →
  ends (r ← rename p q; x ← (if r =? 0 then m r else e ← get_errno; k r e); j x) s Q.
Proof.
  intros Hp Hq HQ w <-. cbv [rename mbind io_bind call perform P files_posix status get_errno set_errno mret io_ret] in *.
  rewrite !at_placed by done. destruct (do_rename _ _ _ _) as [e s']. destruct (e =? 0); [by apply HQ|]. by apply HQ.
Qed.

Lemma rename_moves s a d la ld k h :
  movable s a d la ld k h →
  if bool_decide (device (parent a) = device (parent d)) then
    ∃ s', do_rename device a d s = (0, s') ∧ moved s a d 0 s'
  else do_rename device a d s = (EXDEV, s).
Proof.
  intros ((Ht & [x Hx] & Hv & Hw & Had & Hps) & Hwa & Hne). unfold do_rename. rewrite Hx, Hwa, Hw.
  case_bool_decide as Hdev; [|by rewrite bool_decide_eq_true_2].
  rewrite bool_decide_eq_false_2 by (intros ?; done). cbn [negb andb].
  rewrite bool_decide_eq_false_2 by (intros ->; by rewrite strip_same in Had).
  rewrite bool_decide_eq_false_2 by (rewrite Had; by intros [? [=]]).
  assert (Hx' : (match x with NDir m => negb (bool_decide (parent a = parent d)) && negb (S_IWUSR m) | _ => false end) = false).
  { destruct x as [m| |]; [|done..]. pose proof (tree_top_dir _ _ _ _ _ Ht Hx) as (_ & -> & _)%open_mode_bits.
    by rewrite andb_false_r. }
  rewrite Hx'. pose proof (Hv []) as Hd. rewrite app_nil_r in Hd. rewrite Hd. eexists. split; [done|].
  assert (Hda : strip d a = None) by (apply (vacant_apart (nodes s)); [by exists x|done]).
  split; [done|]. split_and!; cbn.
  - intros r. by rewrite graft_lookup, strip_app.
  - intros r. rewrite graft_lookup, (strip_not_above d a r) by done. by rewrite strip_app.
  - intros q Ha Hd'. by rewrite graft_lookup, Hd', Ha.
  - apply calm_nodes.
Qed.

(** Copying and then deleting. *)
Lemma moved_across s s1 s2 a d la ld k h :
  movable s a d la ld k h → copied s a d 0 s1 → removed s1 a 0 s2 → moved s a d 0 s2.
Proof.
  intros ((Ht & Ha & Hv & Hw & Had & Hps) & Hwa & Hne) (_ & Hs & Hb & Hc) (_ & Hv' & Hb' & Hc').
  pose proof (vacant_apart _ _ _ Ha Hv) as Hda.
  split; [done|]. split_and!.
  - intros r. rewrite Hb'; [apply Hs|]. by apply strip_not_above.
  - exact Hv'.
  - intros q Hqa Hqd. rewrite Hb' by done. by apply Hb.
  - by etransitivity.
Qed.

Lemma parent_split a : a ≠ [] → ∃ n, a = parent a ++ [n].
Proof.
  intros Ha. destruct a as [|n p _] using rev_ind; [done|]. exists n. by rewrite parent_app.
Qed.
Lemma strip_of_parent d a : a ≠ [] → strip d a = None → strip d (parent a) = None.
Proof.
  intros Hne. destruct (parent_split a Hne) as [n E]. rewrite !strip_None. intros Hd r Er. apply (Hd (r ++ [n])).
  by rewrite E, Er, app_assoc.
Qed.

Lemma deletable_after s s1 a d la ld k h : movable s a d la ld k h → copied s a d 0 s1 → deletable s1 a la k h.
Proof.
  intros ((Ht & Ha & Hv & Hw & Had & [Hra _ Hla _ _]) & Hwa & Hne) (_ & Hs & Hb & Hc).
  pose proof (vacant_apart _ _ _ Ha Hv) as Hda.
  pose proof (same_but_outside _ _ _ _ Hb Hda Had) as Hsame.
  split_and!; [by eapply tree_same| |unfold may_write; by rewrite Hb by (by apply strip_of_parent)|done|by eapply reach_but|by eapply within_same].
  specialize (Hsame []). rewrite app_nil_r in Hsame. by rewrite Hsame.
Qed.

Lemma movable_placed s p q k h :
  movable s (components p) (components q) (length p) (length q) k h → placed s p ∧ placed s q.
Proof.
  intros ((_ & Ha & _ & _ & _ & Hps) & _ & _). split; [by eapply placed_from|by eapply placed_to].
Qed.

Lemma ends_move_over n p q s k h :
  movable s (components p) (components q) (length p) (length q) k h → (h + k + 3 ≤ n)%nat →
  ends (move_over n p q) s (moved s (components p) (components q)).
Proof.
  intros Hm Hn. destruct (movable_placed _ _ _ _ _ Hm) as [Hp Hq].
  unfold move_over. apply ends_rename_else; [done|done|]. pose proof (rename_moves _ _ _ _ _ _ _ Hm) as Hr.
  case_bool_decide.
  - destruct Hr as (s' & -> & Hs'). cbn [Z.eqb]. by apply ends_ret.
  - rewrite Hr. cbn [Z.eqb EXDEV Z.eq_dec]. apply ends_bind. eapply ends_mono; [apply ends_copy_plain with (k := k) (h := h); [apply Hm|done]|].
    intros z s1 Hc. pose proof Hc as (-> & _). cbn [Z.eqb]. apply ends_bind. eapply ends_mono.
    + apply ends_delete_plain with (k := k) (h := h); [by eapply deletable_after|done].
    + intros z s2 Hd. pose proof Hd as (-> & _). apply ends_ret. by eapply moved_across.
Qed.
End Delete.
