(* ===== verification/FmTrashProof.v ===== *)
(** * The trash: what is encoded is read back, and what was thrown away comes back *)

From S2P Require Import Prelude.
From S2P Require Import CString.
From S2P Require Import CFloat.
From S2P Require Import DesktopEntry.
From S2P Require Import FmFiles.
From S2P Require Import FmTrash.
From S2P Require Import FmDisk.
From S2P Require Import FmDiskProof.
From S2P Require Import FmMoveProof.
From stdpp Require Import gmap.
Open Scope Z_scope.

(** ** Percent encoding *)

Lemma hex_value_code c : hex_value (tail (hex_code c)) = c.
Proof. by destruct c as [[] [] [] [] [] [] [] []]; vm_compute. Qed.

Lemma kept_plain c : kept c = true → c ≠ "%"%char ∧ c ≠ LF ∧ c ≠ NUL.
Proof. by destruct c as [[] [] [] [] [] [] [] []]; vm_compute. Qed.

Lemma hex_code_plain c : LF ∉ hex_code c ∧ NUL ∉ hex_code c.
Proof. destruct c as [[] [] [] [] [] [] [] []]; (split; apply (bool_decide_unpack _); by vm_compute). Qed.

Lemma url_decode_encode p : url_decode (url_encode_path p) = p.
Proof.
  induction p as [|c p IH]; [done|]. cbn [url_encode_path]. destruct (kept c) eqn:E.
  - cbn [app url_decode]. rewrite bool_decide_eq_false_2 by by apply kept_plain in E as [? _]. by rewrite IH.
  - pose proof (hex_value_code c) as Hv. unfold hex_code in *. cbn [app url_decode tail] in *.
    by rewrite bool_decide_eq_true_2, Hv, IH.
Qed.

Lemma url_encode_plain p : LF ∉ url_encode_path p ∧ NUL ∉ url_encode_path p.
Proof.
  induction p as [|c p [IH1 IH2]]; [split; apply not_elem_of_nil|]. cbn [url_encode_path].
  assert (Hc : LF ∉ (if kept c then [c] else hex_code c) ∧ NUL ∉ (if kept c then [c] else hex_code c)).
  { destruct (kept c) eqn:E; [|apply hex_code_plain]. apply kept_plain in E as (_ & ? & ?). set_solver. }
  rewrite !not_elem_of_app. tauto.
Qed.

Lemma url_encode_length p : (length (url_encode_path p) ≤ 3 * length p)%nat.
Proof. induction p as [|c p IH]; [done|]. cbn [url_encode_path]. rewrite length_app. destruct (kept c); cbn [length hex_code]; lia. Qed.

(** ** The info file *)

Lemma fgets_sized_line size n cur l rest :
  LF ∉ l → (length l < n)%nat →
  fgets_sized size n cur (l ++ LF :: rest) = (cur ++ l ++ [LF]) :: fgets_sized size size [] rest.
Proof.
  revert n cur. induction l as [|c l IH]; intros [|n] cur Hl Hn; cbn in Hn; try lia; cbn [app fgets_sized].
  - by rewrite decide_True by by left.
  - rewrite decide_False by (intros [->|]; [set_solver|lia]).
    rewrite IH by (set_solver || lia). by rewrite <- app_assoc.
Qed.

Lemma trashinfo_path path date :
  NUL ∉ path → (3 * length path + 5 < PATH_MAX - 1)%nat →
  first_path (fgets_sized (PATH_MAX - 1) (PATH_MAX - 1) [] (trashinfo path date)) = Some path.
Proof.
  intros Hn Hl. pose proof (url_encode_plain path) as [Hlf Hnul]. pose proof (url_encode_length path) as He.
  set (rest := str "DeletionDate=" ++ date ++ [LF]).
  assert (Ht : trashinfo path date = str "[Trash Info]" ++ LF :: (str "Path=" ++ url_encode_path path) ++ LF :: rest).
  { unfold trashinfo, rest. cbn [app]. by rewrite <- !app_assoc. }
  rewrite Ht, fgets_sized_line; [|apply (bool_decide_unpack _); by vm_compute|by vm_compute; lia].
  rewrite fgets_sized_line; [|rewrite not_elem_of_app; split; [apply (bool_decide_unpack _); by vm_compute|done]|rewrite length_app; change (length (str "Path=")) with 5%nat; lia].
  generalize (fgets_sized (PATH_MAX - 1) (PATH_MAX - 1) [] rest) as ls. intros ls.
  cbn [app]. change (first_path (?a :: ?l)) with (match has_path (cstr a) with Some p => Some (cstr p) | None => first_path l end).
  replace (has_path (cstr (str "[Trash Info]" ++ [LF]))) with (None (A := text)) by by vm_compute.
  assert (Hc : cstr ((str "Path=" ++ url_encode_path path) ++ [LF]) = str "Path=" ++ url_encode_path path ++ [LF]).
  { rewrite <- app_assoc. apply before_none. rewrite !not_elem_of_app. split_and!; [|done|];
    apply (bool_decide_unpack _); by vm_compute. }
  cbn [first_path]. rewrite Hc. unfold has_path.
  rewrite bool_decide_eq_true_2 by by rewrite take_app_length'.
  rewrite drop_app_length' by done. rewrite before_app_mem by done.
  rewrite url_decode_encode. f_equal. by apply before_none.
Qed.

(** ** Making directories that are there *)

Section Trash.
Context (device : path → Z).
Let P : Posix Files := files_posix device.
#[local] Existing Instance P.

Lemma ends_ensure_one p mode s x (Q : bool → Files → Prop) :
  placed s p → nodes s !! components p = Some x → Q true s → ends (ensure_one p mode) s Q.
Proof.
  intros Hp Hx HQ w <-. cbv [ensure_one mkdir mbind io_bind call perform P files_posix status get_errno set_errno mret io_ret].
  rewrite at_placed by done. unfold make. rewrite Hx. cbn. by destruct w.
Qed.

Lemma ends_mkdir_exists p mode s x (Q : Z → Files → Prop) :
  placed s p → nodes s !! components p = Some x → Q (-1) s → ends (mkdir p mode) s Q.
Proof. intros Hp Hx HQ. apply ends_mkdir; [done|]. unfold make. by rewrite Hx. Qed.

Lemma components_app p q : components (p ++ str "/" ++ q) = components p ++ components q.
Proof. apply split_path_app. Qed.

(** A directory above a place that can be reached. *)
Lemma above_placed s a q r p :
  reach (nodes s) a → a = q ++ r → r ≠ [] → components p = q → p ≠ [] → (length p < PATH_MAX)%nat →
  placed s p ∧ ∃ m, nodes s !! components p = Some (NDir m).
Proof.
  intros Ha E Hr Hq Hp Hl. split.
  - split; [|done]. rewrite Hq. apply (reach_prefix _ _ r). by rewrite <- E.
  - rewrite Hq. destruct (rc_dirs _ _ Ha q r E Hr) as (m & Em & _). by exists m.
Qed.

Lemma ends_make_parents don rest s a :
  reach (nodes s) a → (∃ r, a = components (don ++ rest) ++ r ∧ r ≠ []) →
  don ≠ [] → (length don + length rest < PATH_MAX)%nat →
  ends (make_parents don rest) s (fun _ s' => s' = s).
Proof.
  intros Ha. revert don. induction rest as [|c rest IH]; intros don Hp Hne Hl; cbn [make_parents]; [by apply ends_ret|].
  cbn [length] in Hl.
  assert (Hrest : ends (make_parents (don ++ [c]) rest) s (fun _ s' => s' = s)).
  { apply IH; [|by destruct don|rewrite length_app; cbn [length]; lia].
    destruct Hp as (r & E & Hr). exists r. by rewrite <- app_assoc. }
  apply ends_bind. case_bool_decide as Hc; [|by apply ends_ret].
  subst c. destruct Hp as (r & E & Hr). change ("/"%char :: rest) with (str "/" ++ rest) in E.
  rewrite components_app, <- app_assoc in E.
  destruct (above_placed s a (components don) (components rest ++ r) don) as [Hp [x Hx]]; try done; [by destruct (components rest)|lia|].
  apply ends_bind. eapply ends_mkdir_exists; [done|done|]. by apply ends_ret.
Qed.

Lemma strchr_app c a b : c ∉ a → strchr c (a ++ c :: b) = Some (c :: b).
Proof.
  induction a as [|x a IH]; intros Ha; cbn [app strchr]; [by rewrite decide_True|].
  rewrite decide_False by set_solver. apply IH. set_solver.
Qed.

Lemma rev_slash dir name : rev (slash dir name) = rev name ++ "/"%char :: rev dir.
Proof. unfold slash. by rewrite !rev_app_distr, <- app_assoc. Qed.
Lemma not_in_rev {A} (x : A) l : x ∉ l → x ∉ rev l.
Proof. by rewrite !list_elem_of_In, <- in_rev. Qed.

Lemma parent_part_slash dir name : "/"%char ∉ name → parent_part (slash dir name) = Some dir.
Proof.
  intros Hn. unfold parent_part. rewrite rev_slash, strchr_app by by apply not_in_rev.
  by rewrite rev_involutive.
Qed.
Lemma base_part_slash dir name : "/"%char ∉ name → base_part (slash dir name) = name.
Proof.
  intros Hn. unfold base_part. rewrite rev_slash, before_app_mem by by apply not_in_rev.
  by rewrite rev_involutive.
Qed.

Lemma ends_restore_parents dir name s :
  plain_name name → reach (nodes s) (components (slash dir name)) → (length (slash dir name) < PATH_MAX)%nat →
  ends (restore_parents (slash dir name)) s (fun _ s' => s' = s).
Proof.
  intros Hn Ha Hl. rewrite length_slash in Hl. unfold restore_parents. rewrite parent_part_slash by apply Hn.
  rewrite components_slash in Ha by done.
  destruct dir as [|c parent]; [by apply ends_ret|]. apply ends_bind. eapply ends_mono.
  - eapply (ends_make_parents [c] parent); [exact Ha|by exists [name]|done|cbn [length] in *; lia].
  - intros _ s' ->.
    destruct (above_placed s _ (components (c :: parent)) [name] (c :: parent) Ha) as [Hp [x Hx]]; try done; [lia|].
    apply ends_bind. eapply ends_mkdir_exists; [done|done|]. by apply ends_ret.
Qed.

(** ** Into the trash *)

Context `{Homes}.

Definition trash_at : path := components get_trash_dir.
Definition kept_at (name : text) : path := trash_at ++ [str "files"; name].
Definition info_at (name : text) : path := trash_at ++ [str "info"; name ++ str ".trashinfo"].

Definition in_trash (name : text) : text := trash_path get_trash_dir (str "/files/") name.

(** The node [name] of [dir] can be thrown away under its own name. *)
Record trashable (s : Files) (dir name : text) (k h : nat) : Prop := {
  tb_name : plain_name name;
  tb_nul : NUL ∉ dir;
  tb_encoded : (3 * length (slash dir name) + 5 < PATH_MAX - 1)%nat;
  tb_short : (length (get_trash_dir ++ str "/files/" ++ name ++ str ".trashinfo") < PATH_MAX)%nat;
  tb_info_name : (length (name ++ str ".trashinfo") ≤ NAME_MAX)%nat;
  tb_mask : S_IRUSR (masked s 438) = true;
  tb_files : may_write (nodes s) (trash_at ++ [str "files"]) = true;
  tb_infos : may_write (nodes s) (trash_at ++ [str "info"]) = true;
  tb_move : movable s (components (slash dir name)) (kept_at name) (length (slash dir name)) (length (in_trash name)) k h;
  tb_info : nodes s !! info_at name = None;
  tb_apart : strip (components (slash dir name)) (info_at name) = None }.

Lemma plain_files : plain_name (str "files").
Proof. split; apply (bool_decide_unpack _); by vm_compute. Qed.
Lemma plain_info : plain_name (str "info").
Proof. split; apply (bool_decide_unpack _); by vm_compute. Qed.
Lemma plain_trashinfo name : plain_name name → plain_name (name ++ str ".trashinfo").
Proof.
  intros [Hne Hs Hd Hn]. split.
  - by destruct name.
  - rewrite not_elem_of_app. split; [done|]. apply (bool_decide_unpack _). by vm_compute.
  - unfold is_dot. apply bool_decide_eq_false_2. destruct name as [|a [|b [|c name]]]; [done|..]; intros [E|E]; done.
  - rewrite not_elem_of_app. split; [done|]. apply (bool_decide_unpack _). by vm_compute.
Qed.

Lemma files_path name : plain_name name → (length (get_trash_dir ++ str "/files/" ++ name) < PATH_MAX)%nat →
  components (in_trash name) = kept_at name.
Proof.
  intros Hn Hl. unfold in_trash, trash_path. rewrite trunc_short by done.
  assert (E : get_trash_dir ++ str "/files/" ++ name = slash (slash get_trash_dir (str "files")) name).
  { unfold slash. by rewrite <- !app_assoc. }
  rewrite E, !components_slash by (done || apply plain_files). by rewrite <- app_assoc.
Qed.
Lemma info_path name : plain_name name → (length (get_trash_dir ++ str "/info/" ++ name ++ str ".trashinfo") < PATH_MAX)%nat →
  components (info_file get_trash_dir name) = info_at name.
Proof.
  intros Hn Hl. unfold info_file. rewrite trunc_short by done.
  assert (E : get_trash_dir ++ str "/info/" ++ name ++ str ".trashinfo" = slash (slash get_trash_dir (str "info")) (name ++ str ".trashinfo")).
  { unfold slash. by rewrite <- !app_assoc. }
  rewrite E, !components_slash by (apply plain_info || by apply plain_trashinfo). by rewrite <- app_assoc.
Qed.

Lemma may_write_some f p : may_write f p = true → is_Some (f !! p).
Proof. unfold may_write. by destruct (f !! p). Qed.

Lemma reach_kept s name : reach (nodes s) (kept_at name) →
  reach (nodes s) (trash_at ++ [str "files"]) ∧ searchable (nodes s) trash_at ∧ reach (nodes s) trash_at.
Proof.
  intros Hr. split; [|split].
  - apply (reach_prefix _ _ [name]). by rewrite <- app_assoc.
  - by apply (rc_dirs _ _ Hr trash_at [str "files"; name]).
  - by apply (reach_prefix _ _ [str "files"; name]).
Qed.
Lemma short_info : short_name (str "info").
Proof. split; [|done]. apply Nat.leb_le. by vm_compute. Qed.
Lemma short_trashinfo name : (length (name ++ str ".trashinfo") ≤ NAME_MAX)%nat → short_name (name ++ str ".trashinfo").
Proof. intros Hl. split; [done|]. by destruct name as [|a [|b [|c name]]]. Qed.

Lemma reach_info s name :
  reach (nodes s) (kept_at name) → may_write (nodes s) (trash_at ++ [str "info"]) = true →
  (length (name ++ str ".trashinfo") ≤ NAME_MAX)%nat → reach (nodes s) (info_at name).
Proof.
  intros Hr Hi Hl. destruct (reach_kept s name Hr) as (_ & (m & Em & Hm) & Ht).
  unfold may_write in Hi. destruct (nodes s !! (trash_at ++ [str "info"])) as [[mi| |]|] eqn:Ei; try done.
  apply andb_prop in Hi as [_ Hx]. unfold info_at.
  change [str "info"; name ++ str ".trashinfo"] with ([str "info"] ++ [name ++ str ".trashinfo"]). rewrite app_assoc.
  eapply reach_down; [|exact Ei|exact Hx|by apply short_trashinfo].
  eapply reach_down; [exact Ht|exact Em|exact Hm|apply short_info].
Qed.

Lemma trash_dir_some : get_trash_dir ≠ [].
Proof. unfold get_trash_dir. by destruct isde_xdg_data_home. Qed.

Lemma ends_ensure_trash s name (Q : Z → Files → Prop) :
  (length (get_trash_dir ++ str "/files") < PATH_MAX)%nat →
  reach (nodes s) (kept_at name) → is_Some (nodes s !! (trash_at ++ [str "info"])) →
  Q 0 s → ends (ensure_trash_dirs get_trash_dir) s Q.
Proof.
  intros Hl Hr [z Hz] HQ. unfold ensure_trash_dirs.
  destruct (reach_kept s name Hr) as (Hrf & (m & Em & Hm) & Hrt).
  assert (Hf : components (trunc PATH_MAX (get_trash_dir ++ str "/files")) = trash_at ++ [str "files"]).
  { rewrite trunc_short by done. apply components_slash, plain_files. }
  assert (Hli : (length (get_trash_dir ++ str "/info") < PATH_MAX)%nat) by (rewrite length_app in *; cbn in *; lia).
  assert (Hi : components (trunc PATH_MAX (get_trash_dir ++ str "/info")) = trash_at ++ [str "info"]).
  { rewrite trunc_short by done. apply components_slash, plain_info. }
  pose proof trash_dir_some as Hne.
  assert (Hfits : ∀ x, (length (get_trash_dir ++ x) < PATH_MAX)%nat → fits (trunc PATH_MAX (get_trash_dir ++ x))).
  { intros x Hx. rewrite trunc_short by done. split; [by destruct get_trash_dir|done]. }
  assert (Hkf : ∃ y, nodes s !! (trash_at ++ [str "files"]) = Some y).
  { destruct (rc_dirs _ _ Hr (trash_at ++ [str "files"]) [name]) as (y & Ey & _); [by rewrite <- app_assoc|done|]. by eexists. }
  destruct Hkf as [y Hy].
  apply ends_bind. eapply ends_ensure_one; [|exact Em|].
  { split; [exact Hrt|]. split; [done|]. rewrite length_app in Hl. lia. }
  cbn [negb]. apply ends_bind. eapply ends_ensure_one; [|by rewrite Hf|].
  { split; [by rewrite Hf|by apply Hfits]. }
  cbn [negb]. apply ends_bind. eapply ends_ensure_one; [|by rewrite Hi|by apply ends_ret].
  split; [|by apply Hfits]. rewrite Hi. eapply reach_down; [exact Hrt|exact Em|exact Hm|apply short_info].
Qed.

Lemma ends_write_new p data s (Q : bool → Files → Prop) :
  placed s p → nodes s !! components p = None → may_write (nodes s) (parent (components p)) = true →
  Q true (set_nodes <[components p := NFile (masked s 438) data]> s) → ends (call (WriteFile p data)) s Q.
Proof.
  intros Hp Hn Hw HQ. apply (ends_call device (WriteFile p data)). cbn. rewrite at_placed; [|done|by intros _ t; rewrite Hn].
  unfold empty_file. rewrite Hn. rewrite (make_new (components p) _ s) by done. cbn.
  unfold set_nodes. cbn. by rewrite alter_insert_eq.
Qed.

Lemma ends_read_file p m c s (Q : option text → Files → Prop) :
  placed s p → nodes s !! components p = Some (NFile m c) → S_IRUSR m = true → Q (Some c) s → ends (call (ReadFile p)) s Q.
Proof.
  intros Hp E Hm HQ. apply (ends_call device (ReadFile p)). cbn. rewrite at_placed; [|done|by intros _ t; rewrite E].
  by rewrite E, Hm.
Qed.

(** What throwing away does. *)
Record trashed (s : Files) (dir name : text) (s' : Files) : Prop := {
  td_tree : same_tree (nodes s) (nodes s') (components (slash dir name)) (kept_at name);
  td_gone : vacant (nodes s') (components (slash dir name));
  td_info : ∃ d, nodes s' !! info_at name = Some (NFile (masked s 438) (trashinfo (slash dir name) d));
  td_rest q : strip (components (slash dir name)) q = None → strip (kept_at name) q = None → q ≠ info_at name →
    nodes s' !! q = nodes s !! q;
  td_calm : calm s s' }.

Lemma info_not_kept name r : strip (kept_at name) (trash_at ++ str "info" :: r) = None.
Proof.
  apply strip_None. intros r' E. unfold kept_at in E. rewrite <- app_assoc in E. by apply app_inv_head in E.
Qed.
Lemma strip_shorten a p r : strip a (p ++ r) = None → strip a p = None.
Proof. rewrite !strip_None. intros Hs r' ->. by apply (Hs (r' ++ r)); rewrite app_assoc. Qed.

(** Lengths of the paths in the trash. *)
Lemma trash_lengths s dir name k h : trashable s dir name k h →
  (length (get_trash_dir ++ str "/files") < PATH_MAX)%nat ∧
  (length (get_trash_dir ++ str "/files/" ++ name) < PATH_MAX)%nat ∧
  (length (get_trash_dir ++ str "/info/" ++ name ++ str ".trashinfo") < PATH_MAX)%nat ∧
  (length (slash dir name) < PATH_MAX)%nat.
Proof.
  intros [_ _ Henc Hsh _ _ _ _ _ _ _]. rewrite !length_app in *. change (length (str "/files/")) with 7%nat in *.
  change (length (str "/files")) with 6%nat. change (length (str "/info/")) with 6%nat. lia.
Qed.

Lemma trash_paths s dir name k h : trashable s dir name k h →
  components (in_trash name) = kept_at name ∧ components (info_file get_trash_dir name) = info_at name ∧
  fits (info_file get_trash_dir name).
Proof.
  intros Hs. destruct (trash_lengths _ _ _ _ _ Hs) as (_ & Hk & Hi & _). pose proof (tb_name _ _ _ _ _ Hs) as Hn.
  split; [by apply files_path|]. split; [by apply info_path|]. unfold info_file. rewrite trunc_short by done.
  split; [|done]. pose proof trash_dir_some. by destruct get_trash_dir.
Qed.

Lemma trash_info_reach s dir name k h : trashable s dir name k h → reach (nodes s) (info_at name).
Proof.
  intros Hs. destruct (tb_move _ _ _ _ _ Hs) as ((_ & _ & _ & _ & _ & Hps) & _ & _).
  apply reach_info; [apply Hps|apply (tb_infos _ _ _ _ _ Hs)|apply (tb_info_name _ _ _ _ _ Hs)].
Qed.

(** What is neither the node nor its place in the trash is still above the information. *)
Lemma info_above s dir name k h q r : trashable s dir name k h → info_at name = q ++ r →
  strip (components (slash dir name)) q = None ∧ strip (kept_at name) q = None.
Proof.
  intros Hs E. split.
  - apply (strip_shorten _ _ r). rewrite <- E. apply (tb_apart _ _ _ _ _ Hs).
  - apply (strip_shorten _ _ r). rewrite <- E. apply (info_not_kept name [name ++ str ".trashinfo"]).
Qed.

Lemma masked_calm s s' m : calm s s' → masked s' m = masked s m.
Proof. intros Hc. unfold masked. by rewrite (calm_umask _ _ Hc). Qed.

Lemma parent_info name : parent (info_at name) = trash_at ++ [str "info"].
Proof.
  unfold info_at. change [str "info"; name ++ str ".trashinfo"] with ([str "info"] ++ [name ++ str ".trashinfo"]).
  by rewrite app_assoc, parent_app.
Qed.

Lemma ends_trash n s dir name k h :
  trashable s dir name k h → (h + k + 3 ≤ n)%nat →
  ends (fileops_trash n (slash dir name)) s (fun z s' => z = 0 ∧ trashed s dir name s').
Proof.
  intros Hs Hfuel. pose proof Hs as [Hn Hnul Henc Hsh Hil Hmk Hf Hi Hm Hin Hap].
  destruct (trash_lengths _ _ _ _ _ Hs) as (Hl & _). destruct (trash_paths _ _ _ _ _ Hs) as (Hk & Hio & Hfit).
  pose proof (trash_info_reach _ _ _ _ _ Hs) as Hri. pose proof Hm as ((_ & _ & Hv & _ & Had & Hps) & _ & _).
  unfold fileops_trash. apply ends_bind. apply (ends_ensure_trash s name); [done|apply Hps|by apply may_write_some|].
  cbn [Z.eqb negb]. rewrite base_part_slash by apply Hn. fold (in_trash name).
  assert (Hm' : movable s (components (slash dir name)) (components (in_trash name)) (length (slash dir name)) (length (in_trash name)) k h)
    by by rewrite Hk.
  destruct (movable_placed _ _ _ _ _ Hm') as [_ Hplace].
  apply ends_bind. unfold unique_trash_name. fold (in_trash name). apply ends_bind, ends_lstat; [done|]. rewrite Hk.
  pose proof (Hv []) as Hv0. rewrite app_nil_r in Hv0. rewrite Hv0. apply ends_ret. fold (in_trash name).
  apply ends_bind. eapply ends_mono; [by apply (ends_move_over device n _ _ s k h)|].
  rewrite Hk. intros z s1 (-> & Hs1 & Hv1 & Hr1 & Hc1). cbn [Z.eqb].
  apply ends_bind, (ends_call device Now). cbn. apply ends_bind.
  assert (Hkeep : ∀ q r, info_at name = q ++ r → nodes s1 !! q = nodes s !! q).
  { intros q r E. destruct (info_above _ _ _ _ _ q r Hs E). by apply Hr1. }
  apply ends_write_new; rewrite ?Hio.
  - split; [|done]. rewrite Hio. eapply reach_keep; [exact Hri|]. intros q r E _. by eapply Hkeep.
  - rewrite (Hkeep _ []); [done|]. by rewrite app_nil_r.
  - rewrite parent_info. unfold may_write. rewrite (Hkeep _ [name ++ str ".trashinfo"]); [exact Hi|].
    unfold info_at. by rewrite <- app_assoc.
  - apply ends_ret. split; [done|]. split; cbn.
    + intros r. rewrite lookup_insert_ne; [apply Hs1|]. intros E. pose proof (info_not_kept name [name ++ str ".trashinfo"]) as Hx.
      fold (info_at name) in Hx. by rewrite E, strip_app in Hx.
    + intros r. rewrite lookup_insert_ne; [apply Hv1|]. intros E. by rewrite E, strip_app in Hap.
    + eexists. by rewrite lookup_insert_eq, (masked_calm _ _ _ Hc1).
    + intros q Ha Hd Hq. rewrite lookup_insert_ne by done. by apply Hr1.
    + etransitivity; [done|apply calm_nodes].
Qed.

(** ** Back from the trash *)

(** A proper prefix. *)
Lemma strip_shorter (a q r : path) : a = q ++ r → r ≠ [] → strip a q = None.
Proof.
  intros E Hr. apply strip_None. intros r' E'. apply (f_equal length) in E, E'. rewrite length_app in *.
  destruct r; [done|]. cbn [length] in *. lia.
Qed.

(** What is above what was thrown away, its place in the trash and its information is as
    it was. *)
Lemma above_same s dir name k h s' q r :
  trashable s dir name k h → trashed s dir name s' → components (slash dir name) = q ++ r → r ≠ [] →
  nodes s' !! q = nodes s !! q.
Proof.
  intros Hs Ht E Hr. destruct (tb_move _ _ _ _ _ Hs) as ((_ & Ha & Hv & _ & _ & Hps) & _).
  destruct (rc_dirs _ _ (ps_reach_a _ _ _ _ _ _ Hps) q r E Hr) as (m & Hq & _). apply (td_rest _ _ _ _ Ht).
  - by eapply strip_shorter.
  - apply (vacant_apart (nodes s)); [by eexists|done].
  - intros ->. by rewrite (tb_info _ _ _ _ _ Hs) in Hq.
Qed.
Lemma kept_above_same s dir name k h s' q r :
  trashable s dir name k h → trashed s dir name s' → kept_at name = q ++ r → r ≠ [] → nodes s' !! q = nodes s !! q.
Proof.
  intros Hs Ht E Hr. destruct (tb_move _ _ _ _ _ Hs) as ((_ & Ha & Hv & _ & Had & Hps) & _).
  destruct (rc_dirs _ _ (ps_reach_d _ _ _ _ _ _ Hps) q r E Hr) as (m & Hq & _). apply (td_rest _ _ _ _ Ht).
  - apply (strip_shorten _ _ r). by rewrite <- E.
  - by eapply strip_shorter.
  - intros ->. by rewrite (tb_info _ _ _ _ _ Hs) in Hq.
Qed.
Lemma info_above_same s dir name k h s' q r :
  trashable s dir name k h → trashed s dir name s' → info_at name = q ++ r → r ≠ [] → nodes s' !! q = nodes s !! q.
Proof.
  intros Hs Ht E Hr. destruct (info_above _ _ _ _ _ q r Hs E). apply (td_rest _ _ _ _ Ht); [done..|].
  intros ->. apply (f_equal length) in E. rewrite length_app in E. destruct r; [done|]. cbn in E. lia.
Qed.

Lemma kept_split name : kept_at name = (trash_at ++ [str "files"]) ++ [name].
Proof. unfold kept_at. by rewrite <- app_assoc. Qed.
Lemma parent_kept name : parent (kept_at name) = trash_at ++ [str "files"].
Proof. by rewrite kept_split, parent_app. Qed.

Lemma trashed_movable s dir name k h s' :
  trashable s dir name k h → trashed s dir name s' →
  movable s' (kept_at name) (components (slash dir name)) (length (in_trash name)) (length (slash dir name)) k h.
Proof.
  intros Hs Ht. destruct (tb_move _ _ _ _ _ Hs) as ((Htree & Ha & Hv & Hw & Had & [Hra Hrd Hla Hld Hms]) & Hwa & Hne).
  assert (Hpar : ∀ p, may_write (nodes s) p = true → nodes s' !! p = nodes s !! p → may_write (nodes s') p = true).
  { intros p Hp E. unfold may_write in *. by rewrite E. }
  pose proof (td_tree _ _ _ _ Ht) as Htr. destruct (parent_split _ Hne) as [x Ex].
  split; [unfold copyable; split_and!|split].
  - by eapply tree_same.
  - pose proof (Htr []) as E. rewrite !app_nil_r in E. by rewrite E.
  - apply (td_gone _ _ _ _ Ht).
  - apply Hpar; [done|]. by apply (above_same s dir name k h s' _ [x]).
  - by apply (vacant_apart (nodes s)).
  - split.
    + eapply reach_keep; [exact Hrd|]. intros q r E Hr. by eapply kept_above_same.
    + eapply reach_keep; [exact Hra|]. intros q r E Hr. by eapply above_same.
    + by eapply within_same.
    + by eapply within_same.
    + intros r y. rewrite Htr, (calm_umask _ _ (td_calm _ _ _ _ Ht)). apply Hms.
  - rewrite parent_kept in Hw |- *. apply Hpar; [done|]. by apply (kept_above_same s dir name k h s' _ [name]); rewrite ?kept_split.
  - unfold kept_at. by destruct trash_at.
Qed.

(** The file system is as it was before. *)
Lemma restored_nodes s dir name k h s' s2 :
  trashable s dir name k h → trashed s dir name s' →
  moved s' (kept_at name) (components (slash dir name)) 0 s2 →
  delete (info_at name) (nodes s2) = nodes s.
Proof.
  intros Hs Ht (_ & Htr & Hgone & Hrest & _).
  destruct (tb_move _ _ _ _ _ Hs) as ((Htree & Ha & Hv & Hw & Had & Hps) & Hwa & Hne).
  apply map_eq. intros q. destruct (decide (q = info_at name)) as [->|Hq].
  { by rewrite lookup_delete_eq, (tb_info _ _ _ _ _ Hs). }
  rewrite lookup_delete_ne by done. destruct (strip (kept_at name) q) as [r|] eqn:Ek.
  { apply strip_Some in Ek as ->. by rewrite Hgone, Hv. }
  destruct (strip (components (slash dir name)) q) as [r|] eqn:Ea.
  - apply strip_Some in Ea as ->. by rewrite Htr, (td_tree _ _ _ _ Ht).
  - rewrite Hrest by done. by apply (td_rest _ _ _ _ Ht).
Qed.

Lemma ends_restore n s dir name k h s' :
  trashable s dir name k h → trashed s dir name s' → (h + k + 3 ≤ n)%nat →
  ends (fileops_restore n name) s' (fun z s3 => z = 0 ∧ nodes s3 = nodes s).
Proof.
  intros Hs Ht Hn. pose proof (trashed_movable _ _ _ _ _ _ Hs Ht) as Hm. unfold fileops_restore.
  pose proof Hs as [Hname Hnul Henc _ _ Hmk _ Hi _ _ Hap].
  destruct (trash_lengths _ _ _ _ _ Hs) as (_ & _ & _ & Hlen). destruct (trash_paths _ _ _ _ _ Hs) as (Hk & Hio & Hfit).
  pose proof (trash_info_reach _ _ _ _ _ Hs) as Hri.
  destruct (td_info _ _ _ _ Ht) as [d Hd]. apply ends_bind. unfold read_trashinfo_path.
  apply ends_bind. eapply ends_read_file; [|by rewrite Hio|exact Hmk|].
  { split; [|done]. rewrite Hio. eapply reach_keep; [exact Hri|]. intros q r E Hr. by eapply info_above_same. }
  apply ends_ret.
  rewrite trashinfo_path; [|unfold slash; rewrite !not_elem_of_app; split_and!; [done| |apply Hname]; apply (bool_decide_unpack _); by vm_compute|done].
  assert (Hm' : movable s' (components (in_trash name)) (components (slash dir name)) (length (in_trash name)) (length (slash dir name)) k h)
    by by rewrite Hk.
  destruct (movable_placed _ _ _ _ _ Hm') as [_ Hplace].
  apply ends_bind. eapply ends_mono; [apply (ends_restore_parents dir name s' Hname); [apply Hplace|done]|].
  intros _ s1 ->. apply ends_bind, ends_resolve_free; [done| |].
  { pose proof (td_gone _ _ _ _ Ht []) as E. by rewrite app_nil_r in E. }
  fold (in_trash name). apply ends_bind. eapply ends_mono; [by apply (ends_move_over device n _ _ s' k h)|].
  rewrite Hk. intros z s2 Hmv. pose proof Hmv as (-> & _ & _ & Hrest & _). cbn [Z.eqb]. apply ends_bind.
  assert (Hkeep : ∀ q r, info_at name = q ++ r → nodes s2 !! q = nodes s' !! q).
  { intros q r E. destruct (info_above _ _ _ _ _ q r Hs E). by apply Hrest. }
  eapply ends_unlink; rewrite ?Hio.
  - split; [|done]. rewrite Hio. eapply reach_keep; [exact Hri|]. intros q r E Hr.
    rewrite (Hkeep q r E). by eapply info_above_same.
  - rewrite (Hkeep _ []); [exact Hd|]. by rewrite app_nil_r.
  - done.
  - rewrite parent_info. assert (E : info_at name = (trash_at ++ [str "info"]) ++ [name ++ str ".trashinfo"]).
    { unfold info_at. by rewrite <- app_assoc. }
    unfold may_write in *. rewrite (Hkeep _ _ E). erewrite (info_above_same s dir name k h s'); [exact Hi|done..|exact E|done].
  - apply ends_ret. split; [done|]. cbn. by eapply restored_nodes.
Qed.
End Trash.
