(* ===== verification/FmMoves.v ===== *)
(** * Whole jobs on the file system *)

From stdpp Require Import gmap.
From S2P Require Import Prelude.
From S2P Require Import CString.
From S2P Require Import CFloat.
From S2P Require Import FmFiles.
From S2P Require Import FmTrash.
From S2P Require Import FmDisk.
From S2P Require Import FmDiskProof.
From S2P Require Import FmMoveProof.
From S2P Require Import FmTrashProof.

(** ** Whole file systems: well-formed ones, their extent, and how much is counted *)
Open Scope Z_scope.

(** ** Well-formed file systems *)

#[export] Instance plain_name_dec n : Decision (plain_name n).
Proof.
  refine (cast_if (decide (n ≠ [] ∧ "/"%char ∉ n ∧ is_dot n = false ∧ NUL ∉ n))).
  - abstract (by destruct a as (? & ? & ? & ?)).
  - abstract (by intros []; apply n0).
Defined.

Definition is_dir (o : option node) : bool := match o with Some (NDir _) => true | _ => false end.

(** Names are names and are in directories; links can be read. *)
Definition node_ok (f : gmap path node) (q : path) (x : node) : bool :=
  match last q with
  | Some n => bool_decide (plain_name n) && bool_decide (length n ≤ NAME_MAX)%nat && is_dir (f !! parent q)
  | None => true
  end &&
  match x with NLink t => bool_decide (length t < PATH_MAX)%nat | _ => true end.
Definition fs_ok (f : gmap path node) : Prop := map_Forall (fun q x => node_ok f q x = true) f.

(** All that is at and under [a] is [ok]. *)
Definition all_under (f : gmap path node) (a : path) (ok : path → node → bool) : Prop :=
  map_Forall (fun q x => match strip a q with Some r => ok r x | None => true end = true) f.
(** The owner may do all with a directory, and read a file. *)
Definition owned (r : path) (x : node) : bool :=
  match x with NDir m => open_mode m | NFile m _ => S_IRUSR m | NLink _ => true end.
(** The mask takes nothing from the mode. *)
Definition unmasked_node (u : Z) (r : path) (x : node) : bool :=
  match x with NDir m | NFile m _ => Z.land m (Z.lnot u) =? m | NLink _ => true end.
(** Below a path of [len] bytes it is not too deep. *)
Definition fitting (len : nat) (r : path) (x : node) : bool := bool_decide (len + weight r < PATH_MAX)%nat.

Lemma under_lookup f a ok r x : all_under f a ok → f !! (a ++ r) = Some x → ok r x = true.
Proof. intros Hu Hx. specialize (Hu _ _ Hx). cbv beta in Hu. by rewrite strip_app in Hu. Qed.

Lemma under_within f a len : (0 < len)%nat → all_under f a (fitting len) → within f a len.
Proof.
  intros H0 Hu. split; [done|]. intros r [x Hx]. pose proof (under_lookup _ _ _ _ _ Hu Hx) as Hl.
  by apply bool_decide_eq_true in Hl.
Qed.

(** All directories above the place may be searched. *)
Definition search_ok (o : option node) : bool := match o with Some (NDir m) => S_IXUSR m | _ => false end.
Definition reachable (f : gmap path node) (a : path) : Prop :=
  Forall (fun i => search_ok (f !! take i a) = true) (seq 0 (length a)) ∧ Forall short_name a.
Lemma reachable_reach f a : reachable f a → reach f a.
Proof.
  intros [Hd Hn]. split; [|done]. intros q r -> Hr. rewrite Forall_forall in Hd.
  assert (Hin : length q ∈ seq 0 (length (q ++ r))).
  { apply elem_of_seq. rewrite length_app. destruct r; [done|]. cbn. lia. }
  specialize (Hd _ Hin). cbv beta in Hd. rewrite take_app_length in Hd. unfold search_ok in Hd.
  destruct (f !! q) as [[m| |]|] eqn:E; try done. by exists m.
Qed.

Lemma fs_ok_in f q n : fs_ok f → is_Some (f !! (q ++ [n])) →
  plain_name n ∧ (length n ≤ NAME_MAX)%nat ∧ ∃ m, f !! q = Some (NDir m).
Proof.
  intros Hf [x Hx]. specialize (Hf _ _ Hx). unfold node_ok in Hf. rewrite last_snoc, parent_app in Hf.
  apply andb_prop in Hf as [[[Hn Hl]%andb_prop Hd]%andb_prop _]. apply bool_decide_eq_true in Hn, Hl. split; [done|]. split; [done|].
  destruct (f !! q) as [[m| |]|]; try done. by exists m.
Qed.

(** All entries, the length of their paths and of files. *)
Definition size_of (x : node) : nat := match x with NFile _ c => length c | _ => 0%nat end.
Definition extent (f : gmap path node) : nat :=
  sum_list (map (fun e => length e.1 + size_of e.2 + 1)%nat (map_to_list f)).

Lemma sum_list_elem {A} (g : A → nat) l x : x ∈ l → (g x ≤ sum_list (map g l))%nat.
Proof. induction 1 as [|x y l Hx IH]; cbn; lia. Qed.
Lemma sum_list_length {A} (g : A → nat) l : (∀ x, 1 ≤ g x)%nat → (length l ≤ sum_list (map g l))%nat.
Proof. intros Hg. induction l as [|x l IH]; cbn; [lia|]. specialize (Hg x). lia. Qed.
Lemma omap_length_le {A B} (g : A → option B) l : (length (omap g l) ≤ length l)%nat.
Proof. induction l as [|x l IH]; cbn; [lia|]. destruct (g x); cbn; lia. Qed.

Lemma extent_lookup f q x : f !! q = Some x → (length q + size_of x + 1 ≤ extent f)%nat.
Proof.
  intros Hx. apply elem_of_map_to_list in Hx.
  by apply (sum_list_elem (fun e => length e.1 + size_of e.2 + 1)%nat) in Hx.
Qed.

Lemma fs_tree f a : fs_ok f → all_under f a owned → tree f a (extent f) (extent f).
Proof.
  intros Hf Hw. split.
  - intros r n. rewrite app_assoc. intros Hn. by apply (fs_ok_in _ _ _ Hf Hn).
  - intros r m E. apply (under_lookup _ _ _ _ _ Hw E).
  - intros r [x Hx]. apply extent_lookup in Hx. rewrite length_app in Hx. lia.
  - intros r. unfold names, extent. etransitivity; [apply omap_length_le|]. apply sum_list_length. lia.
  - intros r m c Hx. split; [apply (under_lookup _ _ _ _ _ Hw Hx)|]. apply extent_lookup in Hx. cbn in Hx. lia.
  - intros r t Hx. specialize (Hf _ _ Hx). unfold node_ok in Hf. apply andb_prop in Hf as [_ Ht].
    by apply bool_decide_eq_true in Ht.
Qed.

Lemma fs_vacant f d : fs_ok f → f !! d = None → vacant f d.
Proof.
  intros Hf Hd r. induction r as [|n r IH] using rev_ind; [by rewrite app_nil_r|].
  apply eq_None_not_Some. rewrite app_assoc. intros Hn. destruct (fs_ok_in _ _ _ Hf Hn) as (_ & _ & m & E). congruence.
Qed.

(** ** What is counted *)

(** The nodes at and under [a] that are not directories. *)
Definition leaf_at (a : path) (e : path * node) : Prop := is_Some (strip a e.1) ∧ is_dir (Some e.2) = false.
#[export] Instance leaf_at_dec a e : Decision (leaf_at a e) := _.
Definition leaves (f : gmap path node) (a : path) : nat := length (filter (leaf_at a) (map_to_list f)).

Lemma filter_length_iff {A} (P Q : A → Prop) `{∀ x, Decision (P x)} `{∀ x, Decision (Q x)} l :
  (∀ x, x ∈ l → P x ↔ Q x) → length (filter P l) = length (filter Q l).
Proof.
  induction l as [|x l IH]; intros Hpq; [done|]. rewrite !filter_cons. assert (Hx : P x ↔ Q x) by (apply Hpq; set_solver).
  specialize (IH (fun y Hy => Hpq y (list_elem_of_further _ _ _ Hy))).
  destruct (decide (P x)), (decide (Q x)); cbn; [lia|tauto|tauto|done].
Qed.
Lemma filter_length_or {A} (P Q : A → Prop) `{∀ x, Decision (P x)} `{∀ x, Decision (Q x)} l :
  (∀ x, P x → ¬ Q x) → length (filter (fun x => P x ∨ Q x) l) = (length (filter P l) + length (filter Q l))%nat.
Proof.
  intros Hpq. induction l as [|x l IH]; [done|]. rewrite !filter_cons.
  specialize (Hpq x). repeat case_decide; cbn [length]; first [lia | tauto].
Qed.

Lemma leaf_disjoint a n n' e : leaf_at (a ++ [n]) e → leaf_at (a ++ [n']) e → n = n'.
Proof.
  intros [[r Hr] _] [[r' Hr'] _]. apply strip_Some in Hr, Hr'. rewrite Hr, <- !app_assoc in Hr'.
  apply app_inv_head in Hr'. by injection Hr'.
Qed.

Lemma leaves_sum a L l : NoDup L →
  length (filter (fun e => Exists (fun n => leaf_at (a ++ [n]) e) L) l) =
  sum_list (map (fun n => length (filter (leaf_at (a ++ [n])) l)) L).
Proof.
  induction 1 as [|n L Hn HL IH].
  - rewrite (filter_length_iff _ (fun _ => False)); [by induction l|].
    intros e _. apply Exists_nil.
  - cbn [map]. change (sum_list (?x :: ?l)) with (x + sum_list l)%nat. rewrite <- IH, <- filter_length_or.
    + apply filter_length_iff. intros e _. apply Exists_cons.
    + intros e He Hx. apply Exists_exists in Hx as (n' & Hn' & He'). by rewrite (leaf_disjoint _ _ _ _ He He') in Hn.
Qed.

Lemma leaves_dir f a k h m :
  tree f a k h → f !! a = Some (NDir m) → leaves f a = sum_list (map (fun n => leaves f (a ++ [n])) (names f a)).
Proof.
  intros Ht Ha. unfold leaves. rewrite <- leaves_sum by apply names_nodup. apply filter_length_iff.
  intros [q x] Hin. apply elem_of_map_to_list in Hin. rewrite Exists_exists. unfold leaf_at. cbn. split.
  - intros [[r Hr] Hx]. apply strip_Some in Hr as ->. destruct r as [|n r].
    { rewrite app_nil_r in Hin. rewrite Ha in Hin. by injection Hin as <-. }
    exists n. split; [eapply tree_entry; [done|by exists x]|]. split; [|done]. exists r. apply strip_Some. by rewrite <- app_assoc.
  - intros (n & _ & [r Hr] & Hx). apply strip_Some in Hr as ->. rewrite <- app_assoc, strip_app. by split.
Qed.

Lemma leaves_leaf f a k h x : tree f a k h → f !! a = Some x → is_dir (Some x) = false → leaves f a = 1%nat.
Proof.
  intros Ht Ha Hx. unfold leaves. assert (E : length (filter (fun e : path * node => e = (a, x)) (map_to_list f)) = 1%nat).
  { pose proof (NoDup_map_to_list f) as Hnd. apply elem_of_map_to_list in Ha. revert Ha Hnd. clear.
    induction (map_to_list f) as [|e l IH]; intros Hin Hnd; [set_solver|]. apply NoDup_cons in Hnd as [He Hl].
    rewrite filter_cons. case_decide as Hd.
    - subst e. cbn. f_equal. rewrite (filter_length_iff _ (fun _ => False)); [by clear; induction l|]. intros y Hy. split; [|done]. by intros ->.
    - apply IH; [set_solver|done]. }
  rewrite <- E. apply filter_length_iff. intros [q y] Hin. apply elem_of_map_to_list in Hin. unfold leaf_at. cbn. split.
  - intros [[r Hr] Hy]. apply strip_Some in Hr as ->. destruct r as [|n r]; [rewrite app_nil_r in *; congruence|]. exfalso.
    assert (Hn : n ∈ names f a) by (eapply tree_entry; [done|by exists y]). apply names_spec in Hn.
    destruct (tree_in _ _ _ _ Ht [] n Hn) as (_ & _ & m & E'). rewrite app_nil_r, Ha in E'. by injection E' as ->.
  - intros [= -> ->]. split; [|done]. rewrite strip_same. by eexists.
Qed.

Section Count.
Context (device : path → Z).
Let P : Posix Files := files_posix device.
#[local] Existing Instance P.

Definition counts_left (f : gmap path node) (s0 : Files) (a : path) (h0 : Z) (L : list text) (ret : Z) (s : Files) : Prop :=
  ret + Z.of_nat (sum_list (map (fun n => leaves f (a ++ [n])) L)) = Z.of_nat (leaves f a) ∧
  nodes s = f ∧ calm s0 s ∧ next_fd s0 ≤ h0 < next_fd s ∧ (∀ n, n ∈ L → n ∈ names f a).

Lemma ends_count n p s k h :
  tree (nodes s) (components p) k h → is_Some (nodes s !! components p) →
  reach (nodes s) (components p) → within (nodes s) (components p) (length p) → (h + k + 3 ≤ n)%nat →
  ends (count_recursive n p) s (fun z s' => z = Z.of_nat (leaves (nodes s) (components p)) ∧ nodes s' = nodes s ∧ calm s s').
Proof.
  revert p s h. induction n as [|n IH]; intros p s h Ht [x Hx] Hr Hl Hn; [lia|]. cbn [count_recursive].
  assert (Hp : placed s p) by (split; [done|]; eapply within_fits; [exact Hl|by eexists]).
  apply ends_bind, ends_lstat; [done|]. rewrite Hx. cbn [fmap option_fmap option_map].
  destruct (bool_decide (st_kind (stat_of x) = KDir)) eqn:Hk; cbn [negb].
  2: { apply ends_ret. rewrite (leaves_leaf _ _ k h x); try done. by destruct x. }
  destruct x as [m|t|m c]; [|done..]. apply ends_bind. pose proof (tree_top_dir _ _ _ _ _ Ht Hx) as (Hmr & _)%open_mode_bits.
  eapply (ends_opendir _ p _ m); [exact Hp|exact Hx|exact Hmr|].
  apply ends_bind. eapply ends_mono.
  - eapply (ends_read_loop device (counts_left (nodes s) s (components p) (next_fd s))).
    + intros L ret s' l (Hs & Hf & Hc & Hh & Hls). split_and!; try done; try apply Hh. apply calm_dir_read; [done|lia].
    + intros x L ret s' Hx' HL (Hs & Hf & Hc & Hh & Hls). assert (Hxn : x ∈ names (nodes s) (components p)) by (apply Hls; set_solver).
      destruct h as [|h]; [by destruct (tree_low _ _ _ x Ht)|].
      assert (Hpx : plain_name x) by (by eapply tree_plain).
      apply ends_bind. eapply ends_mono; [apply (IH (slash p x) s' h)|].
      * rewrite Hf, components_slash by done. by apply tree_down.
      * rewrite Hf, components_slash by done. by apply names_spec.
      * rewrite Hf, components_slash by done. by eapply tree_reach.
      * rewrite Hf, components_slash by done. by apply within_down.
      * lia.
      * intros z s2 (-> & E2 & Hc2). rewrite components_slash, Hf in * by done. apply ends_ret. cbn.
        split; [done|]. split; [by rewrite (calm_dirs _ _ Hc2) by lia|]. pose proof (calm_next _ _ Hc2).
        split_and!; [cbn [map] in Hs; change (sum_list (?x :: ?l)) with (x + sum_list l)%nat in Hs; lia|done|by etransitivity|lia|lia|]. set_solver.
    + intros x Hxn. by apply (tree_plain (nodes s) (components p) k h) in Hxn as [].
    + cbn. by rewrite lookup_insert_eq.
    + split_and!; cbn; try lia; try done.
      * by rewrite (leaves_dir _ _ k h m) by done.
      * apply calm_opened.
    + pose proof (tree_names _ _ _ _ Ht []) as Hkn. rewrite app_nil_r in Hkn. lia.
  - intros ret s' (Hd' & Hs & Hf & Hc & Hh & _). apply ends_bind. eapply ends_closedir; [exact Hd'|]. apply ends_ret.
    cbn in Hs. split; [lia|]. split; [done|]. apply calm_dir_closed; [done|lia].
Qed.
End Count.


Section Jobs.
Context (device : path → Z).
Let P : Posix Files := files_posix device.
#[local] Existing Instance P.

Lemma ends_note error s (Q : Z → Files → Prop) : Q error s → ends (note_error 0 error) s Q.
Proof. intros HQ. apply ends_bind, ends_errno. intros e. by apply ends_ret. Qed.

Lemma ends_copy_progress n p q s k h :
  copyable s (components p) (components q) (length p) (length q) k h → (h + k + 3 ≤ n)%nat →
  ends (fileops_copy_progress n p q) s (copied s (components p) (components q)).
Proof.
  intros Hc Hn. pose proof Hc as (_ & Ha & Hv & _ & _ & Hps). specialize (Hv []). rewrite app_nil_r in Hv.
  apply ends_bind, ends_resolve_free; [by eapply placed_to|done|]. by apply (ends_copy device n true p q s k h).
Qed.

Lemma ends_move_one n dst_dir src error s k h :
  movable s (components src) (components (dest_of dst_dir src)) (length src) (length (dest_of dst_dir src)) k h → (h + k + 3 ≤ n)%nat →
  ends (exec_move_one n dst_dir src error) s (fun z s' => z = error ∧ moved s (components src) (components (dest_of dst_dir src)) 0 s').
Proof.
  intros Hm Hn. pose proof Hm as ((Htree & Ha & Hv & Hw & Had & Hps) & Hwa & Hne).
  destruct (movable_placed _ _ _ _ _ Hm) as [Hp Hq]. unfold exec_move_one.
  rewrite bool_decide_eq_false_2 by (intros E; rewrite <- E, strip_same in Had; done).
  apply ends_rename_then; [done|done|]. pose proof (rename_moves device _ _ _ _ _ _ _ Hm) as Hr. case_bool_decide.
  - destruct Hr as (s' & -> & Hs'). pose proof Hs' as (_ & Hs & _). cbn [Z.eqb]. apply ends_bind, ends_bind.
    eapply ends_mono; [apply (ends_count device n _ s' k h)|].
    + by eapply tree_same.
    + specialize (Hs []). rewrite !app_nil_r in Hs. by rewrite Hs.
    + destruct Hs' as (_ & _ & _ & Hrest & _). eapply reach_keep; [apply Hps|]. intros q r E Hr. apply Hrest.
      * apply (strip_shorten _ _ r). by rewrite <- E.
      * rewrite E. by apply strip_proper.
    + eapply within_same; [exact Hs|apply Hps].
    + done.
    + intros z s2 (_ & E & Hc). apply ends_bind, (ends_call device (Bump _ _)). cbn. apply ends_ret, ends_note.
      split; [done|]. destruct Hs' as (? & ? & ? & ? & ?). split_and!; rewrite ?E; try done. by etransitivity.
  - rewrite Hr. change (EXDEV =? 0) with false. cbv iota. change (EXDEV =? EXDEV) with true. cbv iota. apply ends_bind, ends_bind.
    eapply ends_mono; [apply (ends_copy_progress n src (dest_of dst_dir src) s k h); [by split_and!|done]|].
    intros z s1 Hc. pose proof Hc as (-> & _). cbn [Z.eqb]. apply ends_bind. eapply ends_mono.
    + apply (ends_delete_plain device n src s1 k h); [by eapply deletable_after|done].
    + intros z s2 Hd. pose proof Hd as (-> & _). apply ends_ret, ends_note. split; [done|]. by eapply moved_across.
Qed.

(** ** Several sources *)

(** Moving one node leaves another movable. *)
Lemma movable_other s s' a d a2 d2 la ld la2 ld2 k h :
  movable s a d la ld k h → moved s a d 0 s' → movable s a2 d2 la2 ld2 k h →
  strip a a2 = None → strip a2 a = None → strip d d2 = None → strip d2 d = None →
  strip a d2 = None → strip a2 d = None → d2 ≠ [] → movable s' a2 d2 la2 ld2 k h.
Proof.
  intros ((_ & Ha & Hv & _ & Had & _) & _ & _) (_ & _ & _ & Hr & Hcalm) ((Ht2 & Ha2 & Hv2 & Hw2 & Had2 & Hps2) & Hwa2 & Hne2) H1 H2 H3 H4 H5 H6 H7.
  pose proof (vacant_apart _ _ _ Ha2 Hv) as Hda2. pose proof (vacant_apart _ _ _ Ha Hv2) as Hd2a.
  assert (Hs : same_tree (nodes s) (nodes s') a2 a2) by (intros r; apply Hr; by apply strip_not_above).
  assert (Hpar : ∀ q, may_write (nodes s) q = true → strip a q = None → strip d q = None → may_write (nodes s') q = true).
  { intros q Hq Hqa Hqd. unfold may_write in *. by rewrite Hr. }
  split; [unfold copyable; split_and!|split; [|done]].
  - by eapply tree_same.
  - specialize (Hs []). rewrite !app_nil_r in Hs. by rewrite Hs.
  - intros r. rewrite Hr; [apply Hv2| |]; by apply strip_not_above.
  - apply Hpar; [done|by apply strip_of_parent..].
  - done.
  - rewrite (calm_umask _ _ Hcalm). eapply passable_keep; [exact Hps2|done|..]; intros q r E _; apply Hr;
      apply (strip_shorten _ _ r); by rewrite <- E.
  - apply Hpar; [done|by apply strip_of_parent..].
Qed.

(** The names [ns] of directory [c], to be moved to directory [d]. *)
Record selection (s : Files) (c d : text) (ns : list text) (k h : nat) : Prop := {
  sl_nodup : NoDup ns;
  sl_plain n : n ∈ ns → plain_name n;
  sl_else : components c ≠ components d;
  sl_apart n : n ∈ ns → strip (components c ++ [n]) (components d) = None;
  sl_move n : n ∈ ns → movable s (components c ++ [n]) (components d ++ [n]) (length (slash c n)) (length (slash d n)) k h }.

Lemma strip_sibling (c : path) n m : n ≠ m → strip (c ++ [n]) (c ++ [m]) = None.
Proof. intros Hn. by apply other_entry. Qed.
Lemma strip_elsewhere (c d : path) n m : c ≠ d → strip (c ++ [n]) d = None → strip (c ++ [n]) (d ++ [m]) = None.
Proof.
  intros Hcd. rewrite !strip_None. intros Hs r E. destruct r as [|x r _] using rev_ind.
  - rewrite app_nil_r in E. by apply app_inj_tail in E as [-> _].
  - rewrite app_assoc in E. apply app_inj_tail in E as [-> _]. by apply (Hs r).
Qed.

Lemma selection_next s s' c d n ns k h :
  selection s c d (n :: ns) k h → moved s (components c ++ [n]) (components d ++ [n]) 0 s' → selection s' c d ns k h.
Proof.
  intros [Hnd Hp Hcd Hap Hm] Hmv. apply NoDup_cons in Hnd as [Hn Hnd].
  split; [done|intros m Hin; apply Hp; set_solver|done|intros m Hin; apply Hap; set_solver|].
  intros m Hin. assert (Hnm : n ≠ m) by by intros ->.
  eapply (movable_other s s' _ _ _ _ _ _ _ _ k h (Hm n ltac:(set_solver)) Hmv (Hm m ltac:(set_solver)));
    try (by apply strip_sibling); try (apply strip_elsewhere; [done|apply Hap; set_solver]).
  by destruct (components d).
Qed.

Lemma ends_each_move n c d ns s error k h :
  selection s c d ns k h → (h + k + 3 ≤ n)%nat →
  ends (each_source (exec_move_one n d) (map (slash c) ns) error) s
    (fun z s' => z = error ∧
       nodes s' = foldl (fun f m => graft (components c ++ [m]) (components d ++ [m]) f) (nodes s) ns).
Proof.
  intros Hs Hn. revert s Hs. induction ns as [|m ns IH]; intros s Hs; cbn [map each_source foldl]; [by apply ends_ret|].
  assert (Hp : plain_name m) by (apply (sl_plain _ _ _ _ _ _ Hs); set_solver).
  apply ends_bind, (ends_call device Cancelled). cbn. apply ends_bind.
  assert (Hd : dest_of d (slash c m) = slash d m) by (unfold dest_of; by rewrite base_part_slash by apply Hp).
  eapply ends_mono; [apply (ends_move_one n d (slash c m) error s k h); [|done]|]; rewrite Hd, !components_slash by done.
  - apply (sl_move _ _ _ _ _ _ Hs). set_solver.
  - intros z s' (-> & Hmv). eapply ends_mono; [apply IH; by eapply selection_next|].
    intros z s2 [-> E]. split; [done|]. by rewrite E, (moved_graft _ _ _ _ _ Hmv).
Qed.

Lemma ends_count_all n c ns s total k h :
  (∀ m, m ∈ ns → plain_name m ∧ tree (nodes s) (components c ++ [m]) k h ∧ is_Some (nodes s !! (components c ++ [m])) ∧
     reach (nodes s) (components c ++ [m]) ∧ within (nodes s) (components c ++ [m]) (length (slash c m))) →
  (h + k + 3 ≤ n)%nat → ends (count_all n (map (slash c) ns) total) s (fun _ s' => nodes s' = nodes s ∧ calm s s').
Proof.
  intros Hs Hn. revert s total Hs. induction ns as [|m ns IH]; intros s total Hs; cbn [map count_all].
  { by apply (ends_call device (Store _ _)). }
  destruct (Hs m) as (Hp & Ht & Hm & Hr & Hl); [set_solver|].
  apply ends_bind. eapply ends_mono; [apply (ends_count device n (slash c m) s k h)|]; rewrite ?components_slash by done; try done.
  intros z s' (_ & E & Hc). eapply ends_mono; [apply IH|]; rewrite ?E.
  - intros m' Hm'. apply Hs. set_solver.
  - intros _ s2 [E2 Hc2]. split; [congruence|]. by etransitivity.
Qed.

Lemma ends_exec_move n c d ns s k h :
  selection s c d ns k h → (h + k + 3 ≤ n)%nat →
  ends (exec_move n (map (slash c) ns) d) s
    (fun z s' => z = 0 ∧ nodes s' = foldl (fun f m => graft (components c ++ [m]) (components d ++ [m]) f) (nodes s) ns).
Proof.
  intros Hs Hn. unfold exec_move. apply ends_bind. eapply ends_mono; [apply (ends_count_all n c ns s 0 k h)|].
  - intros m Hm. split; [by apply (sl_plain _ _ _ _ _ _ Hs)|]. by destruct (sl_move _ _ _ _ _ _ Hs m Hm) as ((? & ? & _ & _ & _ & []) & _).
  - done.
  - intros _ s' [E Hc]. rewrite <- E. apply (ends_each_move n c d ns s' 0 k h); [|done].
    destruct Hs as [H1 H2 H3 H4 H5]. split; try done. intros m Hm. specialize (H5 m Hm).
    unfold movable, copyable in *. rewrite E. by rewrite (calm_umask _ _ Hc).
Qed.
End Jobs.
