(* ===== verification/FmClaims.v ===== *)
(** * What the file operations promise *)

From S2P Require Import Prelude.
From S2P Require Import CString.
From S2P Require Import CFloat.
From S2P Require Import FmFiles.
From S2P Require Import FmTrash.
From S2P Require Import FmFilesProof.
From S2P Require Import FmDisk.
From S2P Require Import FmDiskProof.
From S2P Require Import FmMoveProof.
From S2P Require Import FmTrashProof.
From S2P Require Import FmMoves.
From stdpp Require Import gmap.
Open Scope Z_scope.

(** Fuel for every operation on [s]. *)
Definition enough (s : Files) (n : nat) : Prop := (2 * extent (nodes s) + 3 ≤ n)%nat.

(** The tree at [p] can be copied to [q]: it is there, all its directories have all
    permissions of the owner and its files can be read; nothing is at [q], which is not in
    the tree and whose directory can be written to; all directories above both can be
    searched; the mask takes no bit from a mode in the tree; and no path in the tree or in
    its copy is too long.  Names are of 255 bytes at most. *)
Definition can_copy (s : Files) (p q : text) : Prop :=
  fs_ok (nodes s) ∧ p ≠ [] ∧ q ≠ [] ∧ is_Some (nodes s !! components p) ∧
  reachable (nodes s) (components p) ∧ reachable (nodes s) (components q) ∧
  all_under (nodes s) (components p) owned ∧
  all_under (nodes s) (components p) (unmasked_node (umask s)) ∧
  all_under (nodes s) (components p) (fitting (length p)) ∧
  all_under (nodes s) (components p) (fitting (length q)) ∧
  nodes s !! components q = None ∧ may_write (nodes s) (parent (components q)) = true ∧
  strip (components p) (components q) = None.

(** It can be removed. *)
Definition can_remove (s : Files) (p : text) : Prop :=
  fs_ok (nodes s) ∧ p ≠ [] ∧ is_Some (nodes s !! components p) ∧ reachable (nodes s) (components p) ∧
  all_under (nodes s) (components p) owned ∧ all_under (nodes s) (components p) (fitting (length p)) ∧
  may_write (nodes s) (parent (components p)) = true ∧ components p ≠ [].

Lemma some_length {A} (l : list A) : l ≠ [] → (0 < length l)%nat.
Proof. destruct l; [done|]. cbn. lia. Qed.

Lemma can_copy_copyable s p q : can_copy s p q →
  copyable s (components p) (components q) (length p) (length q) (extent (nodes s)) (extent (nodes s)).
Proof.
  intros (Hf & Hp & Hq & Ha & Hra & Hrd & Hown & Hmask & Hla & Hld & Hd & Hw & Had).
  split_and!; [by apply fs_tree|done|by apply fs_vacant|done|done|]. split.
  - by apply reachable_reach.
  - by apply reachable_reach.
  - by apply under_within; [apply some_length|].
  - by apply under_within; [apply some_length|].
  - intros r x Hx. pose proof (under_lookup _ _ _ _ _ Hmask Hx) as Hm. destruct x as [m|t|m c]; [|done|]; by apply Z.eqb_eq in Hm.
Qed.
Lemma can_remove_deletable s p :
  can_remove s p → deletable s (components p) (length p) (extent (nodes s)) (extent (nodes s)).
Proof.
  intros (Hf & Hp & Ha & Hr & Hown & Hl & Hw & Hne).
  split_and!; [by apply fs_tree|done|done|done|by apply reachable_reach|by apply under_within; [apply some_length|]].
Qed.

(** ** On the file system *)

(** C24: Copying a tree to a new name that is free and not in the tree ends with success,
    if permissions, lengths and the mask allow it and the disk is not full (see [can_copy]),
    and then the file system is what it was with the tree at the new name as well, file
    contents, links and modes included; nothing else has changed. *)
Theorem copy_is_plant device n live p q s :
  can_copy s p q → enough s n →
  ends (copy_recursive_cb (H := files_posix device) n live p q) s
    (fun z s' => z = 0 ∧ nodes s' = plant (components p) (components q) (nodes s)).
Proof.
  intros Hc Hn. eapply ends_mono; [eapply ends_copy; [by apply can_copy_copyable|unfold enough in Hn; lia]|].
  intros z s' Hcp. split; [apply Hcp|by eapply copied_plant].
Qed.

(** Deleting a path ends with success, and then the file system is what it was
    without the path and all below it. *)
Theorem delete_is_prune device n live p s :
  can_remove s p → enough s n →
  ends (delete_recursive_cb (H := files_posix device) n live p) s
    (fun z s' => z = 0 ∧ nodes s' = prune (components p) (nodes s)).
Proof.
  intros Hc Hn. eapply ends_mono; [eapply ends_delete; [by apply can_remove_deletable|unfold enough in Hn; lia]|].
  intros z s' Hr. split; [apply Hr|by eapply removed_prune].
Qed.

(** The names [ns] of directory [c] can be moved to directory [d]: each of them to a name
    that is free there. *)
Definition can_move (s : Files) (c d : text) (ns : list text) : Prop :=
  NoDup ns ∧ Forall plain_name ns ∧ components c ≠ components d ∧ may_write (nodes s) (components c) = true ∧
  Forall (fun n => can_copy s (slash c n) (slash d n)) ns.

Lemma can_move_selection s c d ns : can_move s c d ns → selection s c d ns (extent (nodes s)) (extent (nodes s)).
Proof.
  intros (Hnd & Hpl & Hcd & Hwc & Hns). rewrite Forall_forall in Hns, Hpl.
  split; [done|done|done| |]; intros n Hn; specialize (Hns n Hn); specialize (Hpl n Hn); pose proof (can_copy_copyable _ _ _ Hns) as Hc;
    rewrite !components_slash in Hc by done.
  - destruct Hc as (_ & _ & _ & _ & Had & _). by apply (strip_shorten _ _ [n]).
  - split; [done|]. rewrite parent_app. split; [done|]. by destruct (components c).
Qed.

(** C23: A move job of names that are free in the other directory ends without an error, if
    permissions, lengths and the mask allow it and the disk is not full (see [can_move]), and
    then every selected tree is in the other directory and no longer where it was, with
    nothing else changed: the same file system whether the directories are on one device,
    and each tree is renamed, or on two, and each is copied and then deleted. *)
Theorem move_is_graft device n c d ns s :
  can_move s c d ns → enough s n →
  ends (exec_move (H := files_posix device) n (map (slash c) ns) d) s
    (fun z s' => z = 0 ∧
       nodes s' = foldl (fun f m => graft (components c ++ [m]) (components d ++ [m]) f) (nodes s) ns).
Proof.
  intros Hm Hn. apply (ends_exec_move device n c d ns s (extent (nodes s)) (extent (nodes s)));
  [by apply can_move_selection|unfold enough in Hn; lia].
Qed.

(** [name] in directory [dir] can be thrown away: it can be moved into the trash, which is
    there and has neither a file of this name nor its information; with [.trashinfo] the
    name is still of 255 bytes at most; the paths are not too long, the encoded one
    included; and the mask leaves the owner able to read a new file. *)
Definition can_trash `{Homes} (s : Files) (dir name : text) : Prop :=
  can_copy s (slash dir name) (in_trash name) ∧ may_write (nodes s) (components dir) = true ∧
  plain_name name ∧ NUL ∉ dir ∧
  (3 * length (slash dir name) + 5 < PATH_MAX - 1)%nat ∧
  (length (get_trash_dir ++ str "/files/" ++ name ++ str ".trashinfo") < PATH_MAX)%nat ∧
  (length (name ++ str ".trashinfo") ≤ NAME_MAX)%nat ∧ S_IRUSR (masked s 438) = true ∧
  may_write (nodes s) (trash_at ++ [str "info"]) = true ∧ nodes s !! info_at name = None ∧
  strip (components dir ++ [name]) (info_at name) = None.

Lemma can_trash_trashable `{Homes} s dir name :
  can_trash s dir name → trashable s dir name (extent (nodes s)) (extent (nodes s)).
Proof.
  intros (Hc & Hwd & Hn & Hnul & He & Hsh & Hil & Hmk & Hin & Hi & Hai).
  assert (Hk : components (in_trash name) = kept_at name).
  { apply files_path; [done|]. rewrite !length_app in *. lia. }
  pose proof Hc as (_ & _ & _ & _ & _ & _ & _ & _ & _ & _ & _ & Hw & _).
  pose proof (can_copy_copyable _ _ _ Hc) as Hcp. rewrite Hk in Hw, Hcp. rewrite parent_kept in Hw.
  split; rewrite ?components_slash by done; try done.
  rewrite components_slash in Hcp by done. split; [done|]. rewrite parent_app. split; [done|]. by destruct (components dir).
Qed.

(** C21: What is thrown away and then restored is back: both operations succeed, and the
    whole file system is as it was before, whatever bytes the path is made of and whether
    or not the trash is on the same device.  The conditions, in [can_trash]: the trash is
    there without an entry of this name, the name is of at most 245 bytes and the
    paths are not too long, and permissions, the mask and the room on the disk allow it. *)
Theorem trash_then_restore device `{Homes} n dir name s :
  can_trash s dir name → enough s n →
  ends (a ← fileops_trash (H := files_posix device) n (slash dir name);
        b ← fileops_restore (H := files_posix device) n name; mret (a, b)) s
    (fun z s' => z = (0, 0) ∧ nodes s' = nodes s).
Proof.
  intros Hc Hn. pose proof (can_trash_trashable _ _ _ Hc) as Ht. apply ends_bind.
  eapply ends_mono; [apply (ends_trash device n s dir name _ _ Ht); unfold enough in Hn; lia|].
  intros z s1 [-> Htd]. apply ends_bind.
  eapply ends_mono; [apply (ends_restore device n s dir name _ _ s1 Ht Htd); unfold enough in Hn; lia|].
  intros z s2 [-> E]. by apply ends_ret.
Qed.

(** The name found for a new file is free, unless the name itself and all of its
    variants from (2) to (999) are taken: then it is the name itself, and what is
    there is written over. *)
Theorem free_name device dst s :
  placed s dst → (∀ i, 2 ≤ i ≤ 999 → placed s (numbered dst i)) →
  ends (resolve_conflict (H := files_posix device) dst) s (fun r s' => s' = s ∧
    (nodes s !! components r = None ∨
     r = dst ∧ is_Some (nodes s !! components dst) ∧
     ∀ i, 2 ≤ i ≤ 999 → is_Some (nodes s !! components (numbered dst i)))).
Proof.
  intros Hp Hps. unfold resolve_conflict. apply ends_bind, ends_lstat; [done|]. destruct (nodes s !! components dst) as [x|] eqn:Hd; cbn; [|apply ends_ret; auto].
  assert (Hk : ∀ k i, 2 ≤ i → i + Z.of_nat k = 1000 → (∀ j, 2 ≤ j < i → is_Some (nodes s !! components (numbered dst j))) →
    ends (try_names (H := files_posix device) k dst i) s (fun r s' => s' = s ∧ (nodes s !! components r = None ∨
      r = dst ∧ is_Some (Some x) ∧ ∀ i, 2 ≤ i ≤ 999 → is_Some (nodes s !! components (numbered dst i))))).
  { induction k as [|k IH]; intros i Hi Hik Hall; cbn [try_names].
    - apply ends_ret. split; [done|]. right. split_and!; [done|by eexists|]. intros j Hj. apply Hall. lia.
    - apply ends_bind, ends_lstat; [apply Hps; lia|]. destruct (nodes s !! components (numbered dst i)) as [y|] eqn:Hy; cbn; [|apply ends_ret; auto].
      apply IH; [lia..|]. intros j Hj. destruct (decide (j = i)) as [->|]; [by rewrite Hy; eexists|]. apply Hall. lia. }
  apply (Hk 998%nat 2); [done|done|]. intros j Hj. lia.
Qed.

(** ** On any system *)

(** C25: However calls fail and whatever directories list, deleting a path changes and
    opens nothing but the path and what is below it, and follows no link: what it opens and
    removes as a directory is what [lstat] has just shown to be one, at the path itself or at
    a name that a directory so opened has listed; anything else, a link included, is unlinked
    itself. *)
Theorem delete_stays_under {F} `{Posix F} n live root (w : World F) :
  ∃ new, log (delete_recursive_cb n live root w).2 = new ++ log w ∧
    delete_story root (story new) ∧ Forall (deletes root) new.
Proof.
  destruct (traces_delete n live root w) as (new & E & Hs). exists new. split; [done|]. split; [done|].
  destruct (delete_does n live root root (under_root root) w) as (new' & E' & Hd). rewrite E in E'.
  by apply app_inv_tail in E' as <-.
Qed.

(** C22: However calls fail, a move job first only counts, and then goes through its
    sources in turn: each is renamed; or, if and only if that fails because the destination
    is on another file system, copied, and it is deleted only after a complete copy: one in
    which every name that a directory listed, until it listed no more, was copied to a name
    of the copy, every byte that was read from a file until its end was written, and every
    link was made again with its text, all without a failed call.  Nothing else is deleted.
    (An error of [readdir] counts as the end of a directory, and one of [close] is not seen:
    see the findings.) *)
Theorem moves_delete_copied {F} `{Posix F} n dst_dir srcs (w : World F) :
  ∃ counted new, log (exec_move n srcs dst_dir w).2 = new ++ counted ++ log w ∧
    Forall harmless counted ∧ job_story dst_dir srcs (story new).
Proof.
  unfold exec_move, mbind, io_bind. destruct (count_all_does n srcs 0 w) as (n1 & E1 & H1).
  destruct (count_all n srcs 0 w) as [[[]|] w'].
  - destruct (traces_sources n dst_dir srcs 0 w') as (n2 & E2 & H2). exists n1, n2. cbn in E1. rewrite E2, E1. auto.
  - exists n1, []. split; [done|]. split; [done|]. apply job_stop.
Qed.

(** ** Witnesses: a home with a directory, a link and a trash, on two devices *)

Definition home_files : gmap path node :=
  list_to_map [
    ([], NDir 493);
    ([str "h"], NDir 493);
    ([str "h"; str "a b"], NDir 493);
    ([str "h"; str "a b"; str "l"], NLink (str "../x"));
    ([str "h"; str "a b"; str "100%"], NFile 420 (str "hello"));
    ([str "h"; str "a b"; str "sub"], NDir 448);
    ([str "h"; str "a b"; str "sub"; str "f"], NFile 384 (str "data"));
    ([str "h"; str "x"], NFile 420 (str "other"));
    ([str "h"; str ".local"], NDir 493);
    ([str "h"; str ".local"; str "share"], NDir 493);
    ([str "h"; str ".local"; str "share"; str "Trash"], NDir 448);
    ([str "h"; str ".local"; str "share"; str "Trash"; str "files"], NDir 448);
    ([str "h"; str ".local"; str "share"; str "Trash"; str "info"], NDir 448);
    ([str "mnt"], NDir 493)].
Definition home_state : Files := mkFiles home_files ∅ ∅ 3 (str "2026-01-01T00:00:00") 18.
Definition two_devices (p : path) : Z := match p with x :: _ => if bool_decide (x = str "mnt") then 2 else 1 | [] => 1 end.
#[local] Instance home_homes : Homes := {| XDG_DATA_HOME := None; home_dir := Some (str "/h") |}.

Ltac by_eval := repeat split; first [apply (bool_decide_unpack _); vm_compute; exact I | unfold enough; apply Nat.leb_le; vm_compute; reflexivity].

Lemma copy_is_plant_witness :
  can_copy home_state (str "/h/a b") (str "/mnt/c") ∧
  ends (copy_recursive_cb (H := files_posix two_devices) 1000 true (str "/h/a b") (str "/mnt/c")) home_state
    (fun z s' => z = 0 ∧ nodes s' = plant (components (str "/h/a b")) (components (str "/mnt/c")) (nodes home_state)).
Proof. split; [by_eval|apply copy_is_plant; by_eval]. Defined.

Lemma delete_is_prune_witness :
  can_remove home_state (str "/h/a b") ∧
  ends (delete_recursive_cb (H := files_posix two_devices) 1000 true (str "/h/a b")) home_state
    (fun z s' => z = 0 ∧ nodes s' = prune (components (str "/h/a b")) (nodes home_state)).
Proof. split; [by_eval|apply delete_is_prune; by_eval]. Defined.

Lemma move_is_graft_witness :
  can_move home_state (str "/h") (str "/mnt") [str "a b"; str "x"] ∧
  ends (exec_move (H := files_posix two_devices) 1000 (map (slash (str "/h")) [str "a b"; str "x"]) (str "/mnt")) home_state
    (fun z s' => z = 0 ∧ nodes s' = foldl (fun f m => graft (components (str "/h") ++ [m]) (components (str "/mnt") ++ [m]) f)
       (nodes home_state) [str "a b"; str "x"]).
Proof. split; [by_eval|apply move_is_graft; by_eval]. Defined.

Lemma trash_then_restore_witness :
  can_trash home_state (str "/h") (str "a b") ∧
  ends (a ← fileops_trash (H := files_posix two_devices) 1000 (slash (str "/h") (str "a b"));
        b ← fileops_restore (H := files_posix two_devices) 1000 (str "a b"); mret (a, b)) home_state
    (fun z s' => z = (0, 0) ∧ nodes s' = nodes home_state).
Proof. split; [by_eval|apply trash_then_restore; by_eval]. Defined.

(** ** Outside of the conditions *)

(** What a program leaves at some places. *)
Definition leaves_at {A} (m : io Files A) (s : Files) (places : list text) : option A * list (option node) :=
  let '(z, w) := m (mkWorld s 0 []) in (z, map (fun p => nodes (fsys w) !! components p) places).

(** A move to a name that is taken: on one device the file there is written over, on two the
    moved one gets another name. *)
Definition taken_state : Files := set_nodes <[components (str "/h/sub/x") := NFile 420 (str "kept?")]>
  (set_nodes <[components (str "/mnt/x") := NFile 420 (str "kept?")]>
  (set_nodes <[components (str "/h/sub") := NDir 493]> home_state)).
Lemma move_onto_taken :
  leaves_at (exec_move (H := files_posix two_devices) 100 [str "/h/x"] (str "/h/sub")) taken_state
    [str "/h/x"; str "/h/sub/x"] = (Some 0, [None; Some (NFile 420 (str "other"))]) ∧
  leaves_at (exec_move (H := files_posix two_devices) 100 [str "/h/x"] (str "/mnt")) taken_state
    [str "/h/x"; str "/mnt/x"; str "/mnt/x (2)"] =
    (Some 0, [None; Some (NFile 420 (str "kept?")); Some (NFile 420 (str "other"))]).
Proof. by vm_compute. Qed.

(** A name of 246 bytes is thrown away although its information cannot be written; it cannot
    be restored. *)
Definition long_name : text := repeat "x"%char (Z.to_nat 246).
Definition long_state : Files := set_nodes <[components (slash (str "/h") long_name) := NFile 420 (str "data")]> home_state.
Lemma long_name_not_restored :
  leaves_at (a ← fileops_trash (H := files_posix two_devices) 100 (slash (str "/h") long_name);
             b ← fileops_restore (H := files_posix two_devices) 100 long_name; mret (a, b)) long_state
    [slash (str "/h") long_name; in_trash long_name] = (Some (0, -1), [None; Some (NFile 420 (str "data"))]).
Proof. by vm_compute. Qed.

(** A directory copied into itself: its copy is there when it is listed, and is copied into
    itself, until the path is too long. *)
Fixpoint nested (k : nat) (p name : text) : text := match k with O => p | S k' => nested k' (slash p name) name end.
Definition wide_name : text := repeat "y"%char (Z.to_nat 250).
Definition empty_dir_state : Files := set_nodes <[components (str "/h/d") := NDir 493]> home_state.
Lemma copy_into_itself :
  leaves_at (copy_recursive_cb (H := files_posix two_devices) 1000 true (str "/h/d") (slash (str "/h/d") wide_name))
    empty_dir_state [nested 16 (str "/h/d") wide_name; nested 17 (str "/h/d") wide_name] = (Some (-1), [Some (NDir 493); None]).
Proof. by vm_compute. Qed.
