(* ===== verification/FmJobs.v ===== *)
(** * The job queue of the file manager (fm/src/jobqueue.c, and the progress timer of
      fm/src/dialogs.c)

    Two threads: the main thread submits jobs, shows their progress and frees them, the
    worker runs one after the other.  They share the heap with the jobs, two linked
    lists and a pipe.  What a thread does between two points where the other can come in
    (a critical section, or steps the other does not see) is one program of
    [prog Queue]; a schedule says whose turn it is and which callbacks the toolkit
    makes. *)

From S2P Require Import Prelude.
From S2P Require Import CString.
From S2P Require Import FmFiles.
From S2P Require Import FmTrash.
From stdpp Require Import gmap.
Open Scope Z_scope.

(** Pointers; 0 is NULL. *)
Abbreviation ptr := Z (only parsing).
Definition NULL : ptr := 0.

(** [progress]: the progress dialog of the job, when it has one, with whether the timer
    that opens it is set. *)
Record FmJob := mkJob {
  job_type : FmJobType; src_paths : list text; dst_dir : option text; cancelled : bool; finished : bool; error : Z;
  origin_win : ptr; progress : option bool; progress_timer : bool; next : ptr }.
#[export] Instance fmjob_eta : RecEta FmJob := Build_RecEta _ (fun j =>
  mkJob (job_type j) (src_paths j) (dst_dir j) (cancelled j) (finished j) (error j) (origin_win j) (progress j) (progress_timer j) (next j)).

(** What a job is asked to do. *)
Definition request : Type := FmJobType * list text * option text.
Definition request_of (j : FmJob) : request := (job_type j, src_paths j, dst_dir j).

(** Where the worker is: before [dequeue_pending], asleep in it, in a job, before
    [finished] is set, before [enqueue_done], before the write to the pipe, over. *)
Inductive worker_at := W_dequeue | W_asleep | W_run (job : ptr) | W_finish (job : ptr) | W_done (job : ptr) | W_notify | W_exit.
(** Where the main thread is: in the event loop, between submitting and showing a job,
    between reading the pipe and taking the list, before freeing the rest of a list, in
    [pthread_join], freeing what is left. *)
Inductive main_at := M_loop | M_submitted (job : ptr) | M_drain | M_collect (list : ptr) | M_join | M_pending (job : ptr) | M_rest (job : ptr) | M_closed.

#[export] Instance worker_at_eq_dec : EqDecision worker_at.
Proof. solve_decision. Defined.
#[export] Instance main_at_eq_dec : EqDecision main_at.
Proof. solve_decision. Defined.

(** [heap]: the jobs that are allocated; [timers], [shows], [dialogs]: the jobs that the
    toolkit has a poll timer, a timer that opens the dialog, and a dialog for; [submitted], [started]: all requests so
    far, in order. *)
Record Queue (F : Type) := mkQueue {
  world : World F; heap : gmap Z FmJob; job_head : ptr; job_tail : ptr; done_head : ptr; worker_running : bool;
  notify_pipe : Z; windows : list ptr; timers : list ptr; shows : list ptr; dialogs : list ptr;
  worker : worker_at; main : main_at; submitted : list request; started : list request }.
Arguments mkQueue {F}. Arguments world {F}. Arguments heap {F}. Arguments job_head {F}. Arguments job_tail {F}.
Arguments done_head {F}. Arguments worker_running {F}. Arguments notify_pipe {F}. Arguments windows {F}. Arguments timers {F}.
Arguments shows {F}. Arguments dialogs {F}. Arguments worker {F}. Arguments main {F}. Arguments submitted {F}. Arguments started {F}.
#[export] Instance queue_eta F : RecEta (Queue F) := Build_RecEta _ (fun q =>
  mkQueue (world q) (heap q) (job_head q) (job_tail q) (done_head q) (worker_running q) (notify_pipe q) (windows q) (timers q)
    (shows q) (dialogs q) (worker q) (main q) (submitted q) (started q)).

Section Jobs.
Context {F : Type} `{Posix F} `{Homes}.
(** The fuel of file operations, and what the pipe holds. *)
Context (fuel : nat) (pipe_size : Z).

Abbreviation qprog := (prog (Queue F)) (only parsing).

(** ** The heap *)

Definition deref (p : ptr) : qprog FmJob :=
  fun q => match heap q !! p with Some j => Ok j q | None => Fault OutOfBounds end.
Definition upd_job (p : ptr) (f : FmJob → FmJob) : qprog unit :=
  j ← deref p; modify (fun q => q <| heap := <[p := f j]> (heap q) |>).

(** ** Jobs *)

Definition job_alloc (type : FmJobType) (win : ptr) (srcs : list text) (dst : option text) : FmJob :=
  mkJob type srcs dst false false 0 win None false NULL.

Definition job_free (p : ptr) : qprog unit := deref p;; modify (fun q => q <| heap := delete p (heap q) |>).

(** [pthread_cond_signal] wakes the worker if it waits. *)
Definition cond_signal : qprog unit :=
  modify (fun q => match worker q with W_asleep => q <| worker := W_dequeue |> | _ => q end).

Definition enqueue_pending (job : ptr) : qprog unit :=
  tail ← gets job_tail;
  (if tail =? NULL then modify (fun q => q <| job_head := job |>) else upd_job tail (fun j => j <| next := job |>));;
  modify (fun q => q <| job_tail := job |>);;
  cond_signal.

(** The worker at [dequeue_pending]: to sleep, to the first job, or over. *)
Definition dequeue_pending : qprog unit :=
  job ← gets job_head;
  running ← gets worker_running;
  if (job =? NULL) && (running : bool) then modify (fun q => q <| worker := W_asleep |>)
  else if job =? NULL then modify (fun q => q <| worker := W_exit |>)
  else
    j ← deref job;
    modify (fun q => q <| job_head := next j |>);;
    head ← gets job_head;
    when (head =? NULL) (modify (fun q => q <| job_tail := NULL |>));;
    upd_job job (fun j => j <| next := NULL |>);;
    modify (fun q => q <| worker := W_run job |> <| started := started q ++ [request_of j] |>).

Definition enqueue_done (job : ptr) : qprog unit :=
  done ← gets done_head;
  upd_job job (fun j => j <| next := done |>);;
  modify (fun q => q <| done_head := job |>).

(** What the worker does with a job: its error number, when it is over. *)
Definition exec_job (j : FmJob) : io F Z :=
  match job_type j with
  | FM_JOB_COPY => exec_copy fuel (src_paths j) (default [] (dst_dir j))
  | FM_JOB_MOVE => exec_move fuel (src_paths j) (default [] (dst_dir j))
  | FM_JOB_DELETE => exec_delete fuel (src_paths j)
  | FM_JOB_TRASH => exec_trash fuel (src_paths j)
  | FM_JOB_EMPTY_TRASH => exec_empty_trash fuel
  end.

(** ** The worker *)

(** One turn of [worker_func].  The whole job is one turn: if it is not over within the
    fuel the turn is not, and the worker is still in it.  The write to a full pipe waits
    as well. *)
Definition worker_func : qprog unit :=
  at_ ← gets worker;
  match at_ with
  | W_dequeue => dequeue_pending
  | W_asleep | W_exit => skip
  | W_run job =>
    j ← deref job;
    w ← gets world;
    match exec_job j w with
    | (Some e, w') =>
      modify (fun q => q <| world := w' |>);;
      upd_job job (fun j => j <| error := e |>);;
      modify (fun q => q <| worker := W_finish job |>)
    | (None, _) => skip
    end
  | W_finish job =>
    upd_job job (fun j => j <| finished := true |>);; modify (fun q => q <| worker := W_done job |>)
  | W_done job => enqueue_done job;; modify (fun q => q <| worker := W_notify |>)
  | W_notify =>
    used ← gets notify_pipe;
    when (used <? pipe_size) (modify (fun q => q <| notify_pipe := notify_pipe q + 1 |> <| worker := W_dequeue |>))
  end.

(** ** Progress *)

(** A window that was freed is not in the list any more. *)
Definition deref_window (win : ptr) : qprog unit :=
  ws ← gets windows; if bool_decide (win ∈ ws) then skip else raise OutOfBounds.

Definition progress_start (job : ptr) : qprog unit :=
  j ← deref job;
  if origin_win j =? NULL then skip else
  deref_window (origin_win j);;
  upd_job job (fun j => j <| progress := Some true |>);;
  modify (fun q => q <| shows := job :: shows q |>);;
  upd_job job (fun j => j <| progress_timer := true |>);;
  modify (fun q => q <| timers := job :: timers q |>).

Definition progress_stop (job : ptr) : qprog unit :=
  j ← deref job;
  when (progress_timer j) (
    modify (fun q => q <| timers := filter (fun p => p ≠ job) (timers q) |>);;
    upd_job job (fun j => j <| progress_timer := false |>));;
  match progress j with
  | Some show_timer =>
    when show_timer (modify (fun q => q <| shows := filter (fun p => p ≠ job) (shows q) |>));;
    modify (fun q => q <| dialogs := filter (fun p => p ≠ job) (dialogs q) |>)
  | None => skip
  end;;
  upd_job job (fun j => j <| progress := None |>).

(** The dialog opens some time after the job was submitted; its parent is the window. *)
Definition progress_show_delay_cb (job : ptr) : qprog unit :=
  modify (fun q => q <| shows := filter (fun p => p ≠ job) (shows q) |>);;
  upd_job job (fun j => j <| progress := Some false |>);;
  j ← deref job;
  deref_window (origin_win j);;
  modify (fun q => q <| dialogs := job :: dialogs q |>).

(** The toolkit has destroyed the dialog. *)
Definition progress_shell_destroyed (job : ptr) : qprog unit :=
  modify (fun q => q <| dialogs := filter (fun p => p ≠ job) (dialogs q) |>).

(** The timer has fired: it is gone, and set again while the job runs. *)
Definition poll_timer_cb (job : ptr) : qprog unit :=
  modify (fun q => q <| timers := filter (fun p => p ≠ job) (timers q) |>);;
  upd_job job (fun j => j <| progress_timer := false |>);;
  j ← deref job;
  if finished j then skip else
  if origin_win j =? NULL then skip else
  deref_window (origin_win j);;
  upd_job job (fun j => j <| progress_timer := true |>);;
  modify (fun q => q <| timers := job :: timers q |>).

Definition cancel_cb (job : ptr) : qprog unit := upd_job job (fun j => j <| cancelled := true |>).

(** ** The main thread *)

(** The body of the loop of [notify_cb], but for the refresh of the window's view. *)
Definition collect (job : ptr) : qprog unit :=
  j ← deref job;
  modify (fun q => q <| main := M_collect (next j) |>);;
  upd_job job (fun j => j <| next := NULL |>);;
  progress_stop job;;
  job_free job.

Definition free_job (job : ptr) (go : ptr → main_at) : qprog unit :=
  j ← deref job;
  progress_stop job;;
  job_free job;;
  modify (fun q => q <| main := go (next j) |>).

(** What the main thread does next when it is not in the event loop. *)
Definition main_step : qprog unit :=
  at_ ← gets main;
  match at_ with
  | M_loop | M_closed => skip
  | M_submitted job => progress_start job;; modify (fun q => q <| main := M_loop |>)
  | M_drain => modify (fun q => q <| main := M_collect (done_head q) |> <| done_head := NULL |>)
  | M_collect job => if job =? NULL then modify (fun q => q <| main := M_loop |>) else collect job
  | M_join =>
    w ← gets worker;
    match w with W_exit => modify (fun q => q <| main := M_pending (job_head q) |>) | _ => skip end
  | M_pending job =>
    if job =? NULL then
      modify (fun q => q <| job_head := NULL |> <| job_tail := NULL |> <| main := M_rest (done_head q) |>)
    else free_job job M_pending
  | M_rest job =>
    if job =? NULL then modify (fun q => q <| done_head := NULL |> <| main := M_closed |>) else free_job job M_rest
  end.

(** [submit job ...]: [malloc] gave the address [job].  [notify_cb] reads at most 64
    bytes. *)
Definition submit (job : ptr) (type : FmJobType) (win : ptr) (srcs : list text) (dst : option text) : qprog unit :=
  modify (fun q => q <| heap := <[job := job_alloc type win srcs dst]> (heap q) |>
                     <| submitted := submitted q ++ [(type, srcs, dst)] |>);;
  enqueue_pending job;;
  modify (fun q => q <| main := M_submitted job |>).

Definition notify_cb : qprog unit :=
  modify (fun q => q <| notify_pipe := Z.max 0 (notify_pipe q - 64) |> <| main := M_drain |>).

Definition jobqueue_shutdown : qprog unit :=
  modify (fun q => q <| worker_running := false |>);; cond_signal;; modify (fun q => q <| main := M_join |>).

(** ** Schedules *)

Inductive event :=
  | Submit (job : ptr) (type : FmJobType) (win : ptr) (srcs : list text) (dst : option text)
  | CancelButton (job : ptr) | DismissDialog (job : ptr) | PollTimer (job : ptr) | ShowTimer (job : ptr) | OpenWindow (win : ptr) | CloseWindow (win : ptr)
  | PipeReadable | Quit | MainStep | WorkerStep.

Definition in_loop (q : Queue F) : bool := match main q with M_loop => true | _ => false end.

(** The window goes, and its progress dialogs go with it. *)
Definition fm_destroy_cb (win : ptr) : qprog unit :=
  modify (fun q => q <| windows := filter (fun w => w ≠ win) (windows q) |>
    <| dialogs := filter (fun p => (origin_win <$> heap q !! p) ≠ Some win) (dialogs q) |>).

(** Only what can happen does. *)
Definition happens (e : event) : qprog unit :=
  match e with
  | Submit job type win srcs dst =>
    q ← gets id;
    when (in_loop q && bool_decide (win ∈ windows q ∧ win ≠ NULL ∧ job ≠ NULL ∧ heap q !! job = None)) (submit job type win srcs dst)
  | CancelButton job => q ← gets id; when (in_loop q && bool_decide (job ∈ dialogs q)) (cancel_cb job)
  | DismissDialog job => q ← gets id; when (in_loop q && bool_decide (job ∈ dialogs q)) (progress_shell_destroyed job)
  | ShowTimer job => q ← gets id; when (in_loop q && bool_decide (job ∈ shows q)) (progress_show_delay_cb job)
  | PollTimer job => q ← gets id; when (in_loop q && bool_decide (job ∈ timers q)) (poll_timer_cb job)
  | OpenWindow win =>
    q ← gets id; when (in_loop q && bool_decide (win ∉ windows q ∧ win ≠ NULL)) (modify (fun q => q <| windows := win :: windows q |>))
  | CloseWindow win => q ← gets id; when (in_loop q && bool_decide (win ∈ windows q)) (fm_destroy_cb win)
  | PipeReadable => q ← gets id; when (in_loop q && (0 <? notify_pipe q)) notify_cb
  | Quit => q ← gets id; when (in_loop q) jobqueue_shutdown
  | MainStep => main_step
  | WorkerStep => worker_func
  end.

Fixpoint run (sched : list event) : qprog unit :=
  match sched with [] => skip | e :: es => happens e;; run es end.

(** [jobqueue_init] *)
Definition jobqueue_init (w : World F) : Queue F :=
  mkQueue w ∅ NULL NULL NULL true 0 [] [] [] [] W_dequeue M_loop [] [].
End Jobs.
