(* ===== verification/FmJobsProof.v ===== *)
(** * The job queue: who owns which job, in every schedule *)

From S2P Require Import Prelude.
From S2P Require Import CString.
From S2P Require Import FmFiles.
From S2P Require Import FmTrash.
From S2P Require Import FmJobs.
From stdpp Require Import gmap.
Open Scope Z_scope.

(** ** Linked lists *)

Fixpoint linked (h : gmap Z FmJob) (p : Z) (l : list Z) : Prop :=
  match l with
  | [] => p = NULL
  | a :: l' => p = a ∧ a ≠ NULL ∧ ∃ j, h !! a = Some j ∧ linked h (next j) l'
  end.

Lemma linked_ext h h' p l :
  (∀ a, a ∈ l → next <$> h' !! a = next <$> h !! a) → linked h p l → linked h' p l.
Proof.
  revert p. induction l as [|a l IH]; intros p Hn; cbn [linked]; [done|]. intros (-> & Ha & j & Hj & Hl).
  split; [done|]. split; [done|]. assert (E : next <$> h' !! a = next <$> h !! a) by (apply Hn; set_solver).
  rewrite Hj in E. destruct (h' !! a) as [j'|]; [|done]. injection E as E. exists j'. split; [done|].
  rewrite E. apply IH; [|done]. intros b Hb. apply Hn. set_solver.
Qed.
Lemma linked_insert h p l a j : a ∉ l → linked h p l → linked (<[a := j]> h) p l.
Proof. intros Ha. apply linked_ext. intros b Hb. rewrite lookup_insert_ne; [done|]. by intros <-. Qed.
Lemma linked_delete h p l a : a ∉ l → linked h p l → linked (delete a h) p l.
Proof. intros Ha. apply linked_ext. intros b Hb. rewrite lookup_delete_ne; [done|]. by intros <-. Qed.
Lemma linked_update h p l a j j' : h !! a = Some j → next j' = next j → linked h p l → linked (<[a := j']> h) p l.
Proof.
  intros Ha Hn. apply linked_ext. intros b Hb. destruct (decide (a = b)) as [<-|]; [|by rewrite lookup_insert_ne].
  rewrite lookup_insert_eq, Ha. cbn. by rewrite Hn.
Qed.
Lemma linked_head h p l : linked h p l → p = default NULL (head l).
Proof. by destruct l as [|a l]; [|intros (-> & _)]. Qed.
Lemma linked_null h l : linked h NULL l → l = [].
Proof. destruct l as [|a l]; [done|]. by intros (E & Ha & _). Qed.
Lemma linked_nonnull h p l : p ≠ NULL → linked h p l → ∃ l' j, l = p :: l' ∧ h !! p = Some j ∧ linked h (next j) l'.
Proof. destruct l as [|a l]; [done|]. intros _ (-> & _ & j & Hj & Hl). eauto. Qed.

(** A job at the end. *)
Lemma linked_snoc h p l t a j ja :
  linked h p (l ++ [t]) → h !! t = Some j → NoDup (l ++ [t]) → h !! a = Some ja → next ja = NULL → a ≠ NULL → a ∉ l ++ [t] →
  linked (<[t := j <| next := a |>]> h) p (l ++ [t; a]).
Proof.
  intros Hl Hj Hnd Ha Hna Hnn Hal. revert p Hl. induction l as [|b l IH]; intros p Hl; cbn [app linked] in *.
  - destruct Hl as (-> & Ht & j' & Hj' & _). split; [done|]. split; [done|]. exists (j <| next := a |>).
    rewrite lookup_insert_eq. split; [done|]. cbn. split; [done|]. split; [done|]. exists ja.
    rewrite lookup_insert_ne by set_solver. done.
  - destruct Hl as (-> & Hb & jb & Hjb & Hl). apply NoDup_cons in Hnd as [Hbl Hnd]. split; [done|]. split; [done|].
    exists jb. rewrite lookup_insert_ne by set_solver. split; [done|]. apply IH; [done|set_solver|done].
Qed.

(** ** Who owns what *)

Definition held (w : worker_at) : list Z := match w with W_run p | W_finish p | W_done p => [p] | _ => [] end.
(** The lists the main thread has in hand. *)
Definition collected (m : main_at) : Z := match m with M_collect p => p | _ => NULL end.

Section Own.
Context {F : Type} `{Posix F} `{Homes} (n : nat) (cap : Z).

Definition finished_list (q : Queue F) : Z := match main q with M_rest p => p | _ => done_head q end.
Definition requests (h : gmap Z FmJob) (l : list Z) : list request := omap (fun p => request_of <$> h !! p) l.
(** The event loop is left for good. *)
Definition closing (m : main_at) : bool := match m with M_join | M_pending _ | M_rest _ | M_closed => true | _ => false end.

(** Every job that is allocated is in exactly one place: with the worker, in the queue, in
    the list of finished jobs, or in the list the main thread frees. *)
Record owned (q : Queue F) (pend fin coll : list Z) : Prop := mkOwned {
  ow_pend : linked (heap q) (job_head q) pend;
  ow_tail : job_tail q = default NULL (last pend);
  ow_fin : linked (heap q) (finished_list q) fin;
  ow_coll : linked (heap q) (collected (main q)) coll;
  ow_nodup : NoDup (held (worker q) ++ pend ++ fin ++ coll);
  ow_heap p : is_Some (heap q !! p) ↔ p ∈ held (worker q) ++ pend ++ fin ++ coll;
  ow_null : NULL ∉ held (worker q);
  ow_order : submitted q = started q ++ requests (heap q) pend;
  ow_running : worker_running q = negb (closing (main q));
  ow_asleep : worker q = W_asleep → pend = [] ∧ worker_running q = true;
  ow_exit : worker q = W_exit → pend = [] ∧ worker_running q = false;
  ow_pipe : 0 ≤ notify_pipe q;
  ow_told : fin ≠ [] → 0 < notify_pipe q ∨ worker q = W_notify ∨ main q = M_drain ∨ closing (main q) = true;
  ow_after : match main q with M_pending p => worker q = W_exit ∧ p = NULL | M_rest _ => worker q = W_exit | M_closed => worker q = W_exit ∧ fin = [] | _ => True end }.

(** The toolkit's timers and buttons are for jobs that are allocated. *)
Record shown (q : Queue F) : Prop := mkShown {
  sh_timers p : p ∈ timers q → ∃ j, heap q !! p = Some j ∧ progress_timer j = true;
  sh_shows p : p ∈ shows q → ∃ j, heap q !! p = Some j ∧ progress j = Some true;
  sh_dialogs p : p ∈ dialogs q → ∃ j, heap q !! p = Some j ∧ progress j ≠ None;
  sh_submitted p : main q = M_submitted p → ∃ j, heap q !! p = Some j ∧ origin_win j ∈ windows q ∧ origin_win j ≠ NULL }.

Definition good (q : Queue F) : Prop := (∃ pend fin coll, owned q pend fin coll) ∧ shown q.

Lemma good_init w : good (jobqueue_init w).
Proof.
  split; [exists [], [], []; split; try done|split; cbn; try done; by intros p ?%not_elem_of_nil].
  - apply NoDup_nil_2.
  - intros p. cbn. rewrite lookup_empty, elem_of_nil. by split; [intros [? [=]]|].
  - apply not_elem_of_nil.
Qed.

(** ** Rules *)

Lemma wp_deref_job E p j (Q : FmJob → Queue F → Prop) q : heap q !! p = Some j → Q j q → wp E (deref p) Q q.
Proof. intros Hj HQ. unfold wp, deref. by rewrite Hj. Qed.
Lemma wp_upd_job E p f j (Q : unit → Queue F → Prop) q :
  heap q !! p = Some j → Q tt (q <| heap := <[p := f j]> (heap q) |>) → wp E (upd_job p f) Q q.
Proof. intros Hj HQ. apply wp_bind. eapply wp_deref_job; [done|]. by apply wp_modify. Qed.

Lemma requests_ext h h' l : (∀ p, p ∈ l → request_of <$> h' !! p = request_of <$> h !! p) → requests h' l = requests h l.
Proof.
  unfold requests. induction l as [|a l IH]; intros Hl; [done|]. cbn. rewrite (Hl a) by set_solver.
  rewrite IH; [done|]. intros p Hp. apply Hl. set_solver.
Qed.
Lemma requests_update h l p j j' : h !! p = Some j → request_of j' = request_of j → requests (<[p := j']> h) l = requests h l.
Proof.
  intros Hj Hr. apply requests_ext. intros a _. destruct (decide (p = a)) as [<-|]; [|by rewrite lookup_insert_ne].
  rewrite lookup_insert_eq, Hj. cbn. by rewrite Hr.
Qed.

(** Updating a job without its link and what it asks. *)
Lemma owned_update q pend fin coll p j j' :
  owned q pend fin coll → heap q !! p = Some j → next j' = next j → request_of j' = request_of j →
  owned (q <| heap := <[p := j']> (heap q) |>) pend fin coll.
Proof.
  intros Ho Hj Hn Hr. pose proof (requests_update (heap q) pend p j j' Hj Hr) as Hrq.
  destruct Ho. split; try done.
  - by eapply linked_update.
  - by eapply linked_update.
  - by eapply linked_update.
  - intros p'. rewrite <- ow_heap0. cbn. destruct (decide (p = p')) as [<-|]; [|by rewrite lookup_insert_ne].
    rewrite lookup_insert_eq, Hj. by split; eexists.
  - cbn. by rewrite Hrq.
Qed.
Lemma shown_update q p j j' :
  shown q → heap q !! p = Some j → origin_win j' = origin_win j → (progress_timer j = true → progress_timer j' = true) →
  (progress j = Some true → progress j' = Some true) → (progress j ≠ None → progress j' ≠ None) → shown (q <| heap := <[p := j']> (heap q) |>).
Proof.
  intros [Ht Hw Hd Hs] Hj Ho Hpt Hpw Hpg. split; cbn; intros p' Hp'.
  - destruct (Ht p' Hp') as (j0 & E & E'). destruct (decide (p = p')) as [<-|]; [|rewrite lookup_insert_ne by done; eauto].
    rewrite lookup_insert_eq. exists j'. naive_solver.
  - destruct (Hw p' Hp') as (j0 & E & E'). destruct (decide (p = p')) as [<-|]; [|rewrite lookup_insert_ne by done; eauto].
    rewrite lookup_insert_eq. exists j'. naive_solver.
  - destruct (Hd p' Hp') as (j0 & E & E'). destruct (decide (p = p')) as [<-|]; [|rewrite lookup_insert_ne by done; eauto].
    rewrite lookup_insert_eq. exists j'. naive_solver.
  - destruct (Hs p' Hp') as (j0 & E & E1 & E2). destruct (decide (p = p')) as [<-|]; [|rewrite lookup_insert_ne by done; eauto].
    rewrite lookup_insert_eq. exists j'. rewrite Ho. naive_solver.
Qed.

Lemma shown_ext q q' :
  shown q → heap q' = heap q → timers q' = timers q → shows q' = shows q → dialogs q' = dialogs q → windows q' = windows q → main q' = main q → shown q'.
Proof. intros [A B C D] E1 E2 E3 E4 E5 E6. split; by rewrite ?E1, ?E2, ?E3, ?E4, ?E5, ?E6. Qed.

(** What the toolkit and the world hold does not matter to ownership. *)
Lemma owned_toolkit q q' pend fin coll :
  owned q pend fin coll →
  heap q' = heap q → job_head q' = job_head q → job_tail q' = job_tail q → done_head q' = done_head q →
  worker_running q' = worker_running q → notify_pipe q' = notify_pipe q → worker q' = worker q → main q' = main q →
  submitted q' = submitted q → started q' = started q → owned q' pend fin coll.
Proof.
  intros Ho E1 E2 E3 E4 E5 E6 E7 E8 E9 E10. destruct Ho.
  split; unfold finished_list in *; rewrite ?E1, ?E2, ?E3, ?E4, ?E5, ?E6, ?E7, ?E8, ?E9, ?E10; done.
Qed.

(** ** The callbacks *)

Lemma good_cancel q p : good q → p ∈ dialogs q → wp no_fault (cancel_cb p) (fun _ => good) q.
Proof.
  intros [(pend & fin & coll & Ho) Hs] Hp. destruct (sh_dialogs _ Hs p Hp) as (j & Hj & _).
  eapply wp_upd_job; [done|]. split; [exists pend, fin, coll; by eapply owned_update|by eapply shown_update].
Qed.

Lemma elem_filter_ne (l : list Z) p x : x ∈ filter (fun y => y ≠ p) l → x ∈ l ∧ x ≠ p.
Proof. rewrite list_elem_of_filter. tauto. Qed.

Lemma good_poll q p :
  good q → p ∈ timers q → (∀ j, heap q !! p = Some j → finished j = false → origin_win j ≠ NULL → origin_win j ∈ windows q) →
  wp no_fault (poll_timer_cb p) (fun _ => good) q.
Proof.
  intros [(pend & fin & coll & Ho) Hs] Hp Hwin. destruct (sh_timers _ Hs p Hp) as (j & Hj & _).
  apply wp_bind, wp_modify, wp_bind. set (q1 := q <| timers := _ |>).
  eapply (wp_upd_job _ _ _ j); [done|]. set (j1 := j <| progress_timer := false |>). set (q2 := q1 <| heap := _ |>).
  assert (Ho2 : owned q2 pend fin coll) by (by eapply owned_update; [by eapply (owned_toolkit q)|..]).
  assert (Hj2 : heap q2 !! p = Some j1) by apply lookup_insert_eq.
  assert (Hs2 : shown q2).
  { destruct Hs as [Ht Hw Hd Hsb]. split; cbn; intros p' Hp'.
    - apply elem_filter_ne in Hp' as [Hp' Hne]. destruct (Ht p' Hp') as (j0 & E & E'). rewrite lookup_insert_ne by done. eauto.
    - destruct (Hw p' Hp') as (j0 & E & E'). destruct (decide (p = p')) as [<-|]; [|rewrite lookup_insert_ne by done; eauto].
      rewrite lookup_insert_eq. exists j1. rewrite Hj in E. by injection E as <-.
    - destruct (Hd p' Hp') as (j0 & E & E'). destruct (decide (p = p')) as [<-|]; [|rewrite lookup_insert_ne by done; eauto].
      rewrite lookup_insert_eq. exists j1. rewrite Hj in E. by injection E as <-.
    - destruct (Hsb p' Hp') as (j0 & E & E'). destruct (decide (p = p')) as [<-|]; [|rewrite lookup_insert_ne by done; eauto].
      rewrite lookup_insert_eq. exists j1. rewrite Hj in E. by injection E as <-. }
  apply wp_bind, (wp_deref_job _ _ j1); [done|]. change (finished j1) with (finished j). change (origin_win j1) with (origin_win j).
  destruct (finished j) eqn:Hf; [apply wp_ret; split; eauto|]. destruct (Z.eqb_spec (origin_win j) NULL); [apply wp_ret; split; eauto|].
  apply wp_bind. unfold deref_window. apply wp_bind, wp_gets. change (windows q2) with (windows q).
  rewrite bool_decide_eq_true_2 by by apply Hwin. apply wp_ret, wp_bind. eapply wp_upd_job; [done|]. apply wp_modify.
  assert (Ho3 : owned (q2 <| heap := <[p := j1 <| progress_timer := true |>]> (heap q2) |>) pend fin coll) by by eapply owned_update.
  split; [exists pend, fin, coll; by apply (owned_toolkit _ _ _ _ _ Ho3)|].
  assert (Hs3 : shown (q2 <| heap := <[p := j1 <| progress_timer := true |>]> (heap q2) |>)) by by eapply shown_update.
  destruct Hs3 as [Ht Hw Hd Hsb]. split; cbn; [|done..]. intros p' [->|Hp']%elem_of_cons; [|by apply Ht].
  rewrite lookup_insert_eq. by eexists.
Qed.

Lemma good_dismiss q p : good q → wp no_fault (progress_shell_destroyed p) (fun _ => good) q.
Proof.
  intros [(pend & fin & coll & Ho) [Ht Hw Hd Hs]]. apply wp_modify. split; [exists pend, fin, coll; by apply (owned_toolkit q)|].
  split; cbn; [done|done| |done]. intros x [Hx _]%elem_filter_ne. by apply Hd.
Qed.

Lemma good_show q p :
  good q → p ∈ shows q → (∀ j, heap q !! p = Some j → origin_win j ∈ windows q) →
  wp no_fault (progress_show_delay_cb p) (fun _ => good) q.
Proof.
  intros [(pend & fin & coll & Ho) Hs] Hp Hwin. destruct (sh_shows _ Hs p Hp) as (j & Hj & _).
  apply wp_bind, wp_modify, wp_bind. set (q1 := q <| shows := _ |>).
  eapply (wp_upd_job _ _ _ j); [done|]. set (j1 := j <| progress := Some false |>). apply wp_bind, (wp_deref_job _ _ j1); [apply lookup_insert_eq|].
  apply wp_bind. unfold deref_window. apply wp_bind, wp_gets. rewrite bool_decide_eq_true_2 by apply (Hwin j Hj).
  apply wp_ret, wp_modify.
  assert (Hox : owned (q <| heap := <[p := j1]> (heap q) |>) pend fin coll) by by eapply owned_update.
  split; [exists pend, fin, coll; by apply (owned_toolkit _ _ _ _ _ Hox)|].
  assert (Hkeep : ∀ (P : FmJob → Prop) x, (P j → P j1) → (∃ j0, heap q !! x = Some j0 ∧ P j0) → ∃ j0, <[p := j1]> (heap q) !! x = Some j0 ∧ P j0).
  { intros P x HP (j0 & E & HP0). destruct (decide (p = x)) as [<-|]; [|rewrite lookup_insert_ne by done; eauto].
    rewrite lookup_insert_eq. exists j1. split; [done|]. apply HP. congruence. }
  destruct Hs as [Ht Hw Hd Hsb]. split; cbn; intros x Hx.
  - apply Hkeep; [done|]. by apply Ht.
  - apply elem_filter_ne in Hx as [Hx Hne]. rewrite lookup_insert_ne by done. by apply Hw.
  - apply elem_of_cons in Hx as [->|Hx]; [rewrite lookup_insert_eq; by eexists|]. apply Hkeep; [done|]. by apply Hd.
  - apply Hkeep; [done|]. by apply Hsb.
Qed.

(** ** Submitting *)

(** Signalling changes only where a sleeping worker is. *)
Lemma wp_signal E (Q : unit → Queue F → Prop) q :
  Q tt (match worker q with W_asleep => q <| worker := W_dequeue |> | _ => q end) → wp E cond_signal Q q.
Proof. by intros HQ; apply wp_modify. Qed.

(** Where the worker is after a signal. *)
Definition woken (w : worker_at) : worker_at := match w with W_asleep => W_dequeue | w => w end.

Lemma wp_signalled E (Q : unit → Queue F → Prop) q :
  (∀ q', q' = q ∨ q' = q <| worker := woken (worker q) |> → worker q' = woken (worker q) → Q tt q') → wp E cond_signal Q q.
Proof.
  intros HQ. apply wp_signal. destruct (worker q) eqn:E1; apply HQ; rewrite ?E1; auto.
Qed.

Lemma linked_not_null h p l : linked h p l → NULL ∉ l.
Proof.
  revert p. induction l as [|a l IH]; intros p; [intros _; apply not_elem_of_nil|]. intros (-> & Ha & j & _ & Hl).
  rewrite not_elem_of_cons. split; [done|]. by eapply IH.
Qed.

Lemma linked_in h p l a : linked h p l → a ∈ l → is_Some (h !! a).
Proof.
  revert p. induction l as [|b l IH]; intros p; [by intros _ ?%not_elem_of_nil|]. intros (-> & _ & j & Hj & Hl).
  intros [->|Ha]%elem_of_cons; [by eexists|by eapply IH].
Qed.

(** A new job at the end of a list, whose last job is [t]. *)
Definition appended (h h' : gmap Z FmJob) (x t x' a : Z) (ja : FmJob) : Prop :=
  if t =? NULL then x' = a ∧ h' = <[a := ja]> h
  else x' = x ∧ ∃ j, h !! t = Some j ∧ h' = <[t := j <| next := a |>]> (<[a := ja]> h).

Lemma appended_linked h h' x t x' a ja pend :
  linked h x pend → t = default NULL (last pend) → NoDup pend → h !! a = None → a ≠ NULL → next ja = NULL →
  appended h h' x t x' a ja → linked h' x' (pend ++ [a]).
Proof.
  intros Hl Ht Hnd Ha Hnn Hja. assert (Hap : a ∉ pend).
  { intros Hin. destruct (linked_in _ _ _ _ Hl Hin) as [? E]. congruence. }
  pose proof (linked_not_null _ _ _ Hl) as Hnull. unfold appended. destruct pend as [|b l _] using rev_ind.
  - cbn in Ht. subst t. rewrite Z.eqb_refl. intros [-> ->]. cbn. split; [done|]. split; [done|].
    exists ja. by rewrite lookup_insert_eq.
  - rewrite last_snoc in Ht. cbn in Ht. subst t. rewrite (proj2 (Z.eqb_neq b NULL)) by (intros ->; set_solver).
    intros (-> & j & Hj & ->). rewrite <- app_assoc. cbn [app].
    eapply (linked_snoc _ _ _ _ _ j ja); try done; [by apply linked_insert|rewrite lookup_insert_ne by set_solver; done|by rewrite lookup_insert_eq].
Qed.

Lemma appended_lookup h h' x t x' a ja p :
  h !! a = None → appended h h' x t x' a ja →
  match h' !! p with
  | Some j' => p = a ∧ j' = ja ∨ p ≠ a ∧ ∃ j, h !! p = Some j ∧ (p ≠ t → next j' = next j) ∧ request_of j' = request_of j ∧
      origin_win j' = origin_win j ∧ progress j' = progress j ∧ progress_timer j' = progress_timer j
  | None => h !! p = None ∧ p ≠ a
  end.
Proof.
  intros Ha. unfold appended. case_match.
  - intros [_ ->]. destruct (decide (a = p)) as [<-|Hp]; [rewrite lookup_insert_eq; auto|rewrite lookup_insert_ne by done].
    destruct (h !! p) as [j|] eqn:E; [right; split; [done|]; exists j; by split_and!|done].
  - intros (_ & j & Hj & ->). destruct (decide (t = p)) as [<-|Ht].
    + rewrite lookup_insert_eq. right. split; [congruence|]. exists j. by split_and!.
    + rewrite lookup_insert_ne by done. destruct (decide (a = p)) as [<-|Hp]; [rewrite lookup_insert_eq; auto|rewrite lookup_insert_ne by done].
      destruct (h !! p) as [j'|] eqn:E; [right; split; [done|]; exists j'; by split_and!|done].
Qed.

(** The lists after a new job at the end. *)
Lemma owned_enqueue q q' pend fin coll a ja :
  owned q pend fin coll → heap q !! a = None → a ≠ NULL → next ja = NULL → main q = M_loop →
  appended (heap q) (heap q') (job_head q) (job_tail q) (job_head q') a ja →
  job_tail q' = a → done_head q' = done_head q → worker_running q' = worker_running q → notify_pipe q' = notify_pipe q →
  worker q' = woken (worker q) → main q' = M_submitted a → submitted q' = submitted q ++ [request_of ja] → started q' = started q →
  owned q' (pend ++ [a]) fin coll.
Proof.
  intros Ho Ha Hnn Hja Hm Hap Et Ed Er Ep Ew Em Es Est.
  assert (Hheld : held (worker q') = held (worker q)) by (rewrite Ew; by destruct (worker q)).
  assert (Hnew : a ∉ held (worker q) ++ pend ++ fin ++ coll).
  { rewrite <- (ow_heap _ _ _ _ Ho), Ha. by intros [? [=]]. }
  pose proof (ow_nodup _ _ _ _ Ho) as Hnd.
  assert (Htail : job_tail q ∈ pend ∨ job_tail q = NULL).
  { rewrite (ow_tail _ _ _ _ Ho). destruct pend as [|t l _] using rev_ind; [by right|]. rewrite last_snoc. left. set_solver. }
  assert (Hother : ∀ x l, a ∉ l → job_tail q ∉ l → linked (heap q) x l → linked (heap q') x l).
  { intros x l Hal Htl Hl. eapply linked_ext; [|done]. intros b Hb. pose proof (appended_lookup _ _ _ _ _ _ _ b Ha Hap) as Hlook.
    destruct (heap q' !! b) as [j'|].
    - destruct Hlook as [[-> _]|(_ & j & -> & Hn & _)]; [done|]. cbn. by rewrite Hn by (by intros ->).
    - by destruct Hlook as [-> _]. }
  assert (Hfin : job_tail q ∉ fin ∧ job_tail q ∉ coll).
  { pose proof (linked_not_null _ _ _ (ow_fin _ _ _ _ Ho)). pose proof (linked_not_null _ _ _ (ow_coll _ _ _ _ Ho)).
    destruct Htail as [Hin| ->]; [|done]. apply NoDup_app in Hnd as (_ & _ & (_ & Hd & _)%NoDup_app).
    specialize (Hd _ Hin). set_solver. }
  assert (Hreq : requests (heap q') pend = requests (heap q) pend).
  { apply requests_ext. intros p Hp. pose proof (appended_lookup _ _ _ _ _ _ _ p Ha Hap) as Hlook. destruct (heap q' !! p) as [j'|].
    - destruct Hlook as [[-> _]|(_ & j & -> & _ & Hr & _)]; [set_solver|]. cbn. by rewrite Hr.
    - by destruct Hlook as [-> _]. }
  assert (Hat : request_of <$> heap q' !! a = Some (request_of ja)).
  { pose proof (appended_lookup _ _ _ _ _ _ _ a Ha Hap) as Hlook. destruct (heap q' !! a); [|by destruct Hlook].
    by destruct Hlook as [[_ ->]|[? _]]. }
  destruct Ho. split; rewrite ?Hheld; try done.
  - eapply appended_linked; try done. apply NoDup_app in Hnd as (_ & _ & (? & _)%NoDup_app). done.
  - by rewrite last_snoc.
  - unfold finished_list in *. rewrite Em, Ed. rewrite Hm in ow_fin0. apply Hother; set_solver.
  - rewrite Em, Hm in *. apply Hother; set_solver.
  - replace (held (worker q) ++ (pend ++ [a]) ++ fin ++ coll) with ((held (worker q) ++ pend) ++ a :: (fin ++ coll)) by (by rewrite <- !app_assoc).
    rewrite <- Permutation_middle, <- app_assoc. by apply NoDup_cons.
  - intros p. pose proof (appended_lookup _ _ _ _ _ _ _ p Ha Hap) as Hlook. specialize (ow_heap0 p).
    destruct (heap q' !! p) as [j'|].
    + split; [|by eexists]. intros _. destruct Hlook as [[-> _]|(_ & j & E & _)]; [set_solver|].
      rewrite E in ow_heap0. destruct ow_heap0 as [Hin _]. specialize (Hin ltac:(by eexists)). set_solver.
    + split; [by intros [? [=]]|]. destruct Hlook as [E Hne]. rewrite E in ow_heap0. intros Hin.
      exfalso. destruct ow_heap0 as [_ Hx]. destruct Hx as [? [=]]. set_solver.
  - rewrite Es, Est, ow_order0, <- app_assoc. f_equal. unfold requests in *. rewrite omap_app, Hreq. cbn. by rewrite Hat.
  - by rewrite Er, ow_running0, Em, Hm.
  - rewrite Ew. by destruct (worker q).
  - rewrite Ew. intros Hw. assert (worker q = W_exit) as Hx by (by destruct (worker q)). apply ow_exit0 in Hx as [_ Hx].
    rewrite Hm in ow_running0. cbn in ow_running0. congruence.
  - by rewrite Ep.
  - rewrite Ep, Ew, Em. intros Hf. destruct (ow_told0 Hf) as [?|[E|[E|E]]]; [by left| |congruence|by rewrite Hm in E].
    right. left. by rewrite E.
  - by rewrite Em.
Qed.

Lemma shown_enqueue q q' a ja :
  shown q → heap q !! a = None → main q = M_loop →
  appended (heap q) (heap q') (job_head q) (job_tail q) (job_head q') a ja →
  timers q' = timers q → shows q' = shows q → dialogs q' = dialogs q → windows q' = windows q → main q' = M_submitted a →
  origin_win ja ∈ windows q → origin_win ja ≠ NULL → shown q'.
Proof.
  intros [Ht Hw Hd Hs] Ha Hm Hap E1 E5 E2 E3 E4 Hwin Hnn.
  assert (Hkeep : ∀ p j, heap q !! p = Some j → ∃ j', heap q' !! p = Some j' ∧ progress j' = progress j ∧ progress_timer j' = progress_timer j).
  { intros p j Hj. pose proof (appended_lookup _ _ _ _ _ _ _ p Ha Hap) as Hlook. destruct (heap q' !! p) as [j'|].
    - destruct Hlook as [[-> _]|(_ & j0 & E & _ & _ & _ & Hp & Hpt)]; [congruence|]. exists j'. split; [done|].
      rewrite Hj in E. injection E as <-. done.
    - destruct Hlook as [E _]. congruence. }
  split; rewrite ?E1, ?E2, ?E3, ?E4, ?E5.
  - intros p Hp. destruct (Ht p Hp) as (j & Hj & Hf). destruct (Hkeep _ _ Hj) as (j' & ? & _ & E). exists j'. by rewrite E.
  - intros p Hp. destruct (Hw p Hp) as (j & Hj & Hf). destruct (Hkeep _ _ Hj) as (j' & ? & E & _). exists j'. by rewrite E.
  - intros p Hp. destruct (Hd p Hp) as (j & Hj & Hf). destruct (Hkeep _ _ Hj) as (j' & ? & E & _). exists j'. by rewrite E.
  - intros p [= ->]. pose proof (appended_lookup _ _ _ _ _ _ _ p Ha Hap) as Hlook. destruct (heap q' !! p) as [j'|]; [|by destruct Hlook].
    destruct Hlook as [[_ ->]|[? _]]; [eauto|done].
Qed.

Lemma good_submit q a type win srcs dst :
  good q → main q = M_loop → win ∈ windows q → win ≠ NULL → a ≠ NULL → heap q !! a = None →
  wp no_fault (submit a type win srcs dst) (fun _ => good) q.
Proof.
  intros [(pend & fin & coll & Ho) Hs] Hm Hwin Hw Ha Hnone. set (ja := job_alloc type win srcs dst).
  assert (Hdone : ∀ q', appended (heap q) (heap q') (job_head q) (job_tail q) (job_head q') a ja →
    job_tail q' = a → done_head q' = done_head q → worker_running q' = worker_running q → notify_pipe q' = notify_pipe q →
    worker q' = woken (worker q) → main q' = M_submitted a → submitted q' = submitted q ++ [request_of ja] → started q' = started q →
    timers q' = timers q → shows q' = shows q → dialogs q' = dialogs q → windows q' = windows q → good q').
  { intros q' Hap. intros. split; [exists (pend ++ [a]), fin, coll; by apply (owned_enqueue q q' pend fin coll a ja)|by apply (shown_enqueue q q' a ja)]. }
  unfold submit. apply wp_bind, wp_modify, wp_bind. set (q1 := _ <| submitted := _ |>).
  unfold enqueue_pending. apply wp_bind, wp_gets. change (job_tail q1) with (job_tail q). apply wp_bind.
  destruct (job_tail q =? NULL) eqn:Et.
  - apply wp_modify, wp_bind, wp_modify, wp_signalled. intros q2 Hq2 Hw2. apply wp_modify.
    destruct Hq2 as [-> | ->]; apply Hdone; try done; unfold appended; by rewrite Et.
  - assert (Hin : is_Some (heap q !! job_tail q)).
    { pose proof (ow_tail _ _ _ _ Ho) as Htl. destruct (last pend) as [t|] eqn:El; [|by rewrite Htl in Et].
      cbn in Htl. rewrite Htl. eapply linked_in; [apply (ow_pend _ _ _ _ Ho)|]. apply last_Some_elem_of. done. }
    destruct Hin as [j Hj]. eapply (wp_upd_job _ _ _ j).
    { cbn. rewrite lookup_insert_ne; [done|]. intros ->. congruence. }
    apply wp_bind, wp_modify, wp_signalled. intros q2 Hq2 Hw2. apply wp_modify.
    destruct Hq2 as [-> | ->]; apply Hdone; try done; unfold appended; rewrite Et; (split; [done|]); by exists j.
Qed.

(** The main thread goes on; lists and worker are as they were. *)
Lemma owned_goes q q' pend fin coll m :
  owned q pend fin coll → collected m = collected (main q) → closing m = closing (main q) → finished_list (q <| main := m |>) = finished_list q →
  match m with M_pending _ | M_rest _ | M_closed => False | _ => True end → (main q = M_drain → fin = []) →
  q' = q <| main := m |> → owned q' pend fin coll.
Proof.
  intros Ho Ec Ecl Ef Hm Hd ->. destruct Ho. split; cbn; try done.
  - by rewrite Ef.
  - by rewrite Ec.
  - by rewrite Ecl.
  - intros Hf. destruct (ow_told0 Hf) as [?|[?|[E|E]]]; [by left|right; by left| |right; right; right; by rewrite Ecl].
    by rewrite Hd in Hf.
  - by destruct m.
Qed.

Lemma good_submitted q a : good q → main q = M_submitted a → wp no_fault main_step (fun _ => good) q.
Proof.
  intros [(pend & fin & coll & Ho) Hs] Hm. destruct (sh_submitted _ Hs a Hm) as (j & Hj & Hw & Hn).
  apply wp_bind, wp_gets. rewrite Hm. apply wp_bind. apply wp_bind, (wp_deref_job _ _ j); [done|].
  rewrite (proj2 (Z.eqb_neq _ _) Hn). apply wp_bind. apply wp_bind, wp_gets. rewrite bool_decide_eq_true_2 by done.
  apply wp_ret, wp_bind, (wp_upd_job _ _ _ j); [done|]. set (j1 := j <| progress := Some true |>).
  apply wp_bind, wp_modify, wp_bind. set (q1 := _ <| shows := _ |>).
  assert (Hj1 : heap q1 !! a = Some j1) by apply lookup_insert_eq.
  eapply (wp_upd_job _ _ _ j1); [done|]. set (j2 := j1 <| progress_timer := true |>). apply wp_modify, wp_modify.
  assert (Ho1 : owned q1 pend fin coll).
  { assert (Hox : owned (q <| heap := <[a := j1]> (heap q) |>) pend fin coll) by by eapply owned_update.
    by apply (owned_toolkit _ _ _ _ _ Hox). }
  assert (Ho2 : owned (q1 <| heap := <[a := j2]> (heap q1) |>) pend fin coll) by by eapply owned_update.
  assert (Hs2 : shown (q <| heap := <[a := j2]> (<[a := j1]> (heap q)) |>)).
  { rewrite insert_insert_eq. by eapply shown_update. }
  split.
  - exists pend, fin, coll. eapply (owned_goes (q1 <| heap := <[a := j2]> (heap q1) |> <| timers := a :: timers q1 |>) _ _ _ _ M_loop); try done.
    + by apply (owned_toolkit _ _ _ _ _ Ho2).
    + cbn. by rewrite Hm.
    + cbn. by rewrite Hm.
    + unfold finished_list. cbn. by rewrite Hm.
    + cbn. by rewrite Hm.
  - destruct Hs2 as [Ht Hsw Hd Hsb]. split; cbn; [| |done..].
    + intros p [->|Hp]%elem_of_cons; [rewrite lookup_insert_eq; by eexists|by apply Ht].
    + intros p [->|Hp]%elem_of_cons; [rewrite lookup_insert_eq; by eexists|by apply Hsw].
Qed.

Lemma good_open q win : good q → good (q <| windows := win :: windows q |>).
Proof.
  intros [(pend & fin & coll & Ho) [Ht Hw Hd Hs]]. split; [exists pend, fin, coll; by apply (owned_toolkit q)|]. split; try done.
  intros p Hp. destruct (Hs p Hp) as (j & ? & ? & ?). exists j. split; [done|]. split; [|done]. cbn. set_solver.
Qed.
Lemma good_close q win : good q → main q = M_loop → wp no_fault (fm_destroy_cb win) (fun _ => good) q.
Proof.
  intros [(pend & fin & coll & Ho) [Ht Hw Hd Hs]] Hm. apply wp_modify. split; [exists pend, fin, coll; by apply (owned_toolkit q)|].
  split; cbn; [done|done| |].
  - intros p Hp. apply list_elem_of_filter in Hp as [_ Hp]. by apply Hd.
  - intros p Hp. by rewrite Hm in Hp.
Qed.

Lemma good_notify q : good q → main q = M_loop → wp no_fault notify_cb (fun _ => good) q.
Proof.
  intros [(pend & fin & coll & Ho) [Ht Hw Hd Hs]] Hm. apply wp_modify. split; [|by split].
  exists pend, fin, coll. destruct Ho. rewrite Hm in *. split; cbn; try done.
  - unfold finished_list in *. cbn. by rewrite Hm in *.
  - lia.
  - auto.
Qed.

Lemma good_drain q : good q → main q = M_drain → wp no_fault main_step (fun _ => good) q.
Proof.
  intros [(pend & fin & coll & Ho) [Ht Hw Hd Hs]] Hm. apply wp_bind, wp_gets. rewrite Hm. apply wp_modify. split; [|by split].
  assert (coll = []) as -> by (pose proof (ow_coll _ _ _ _ Ho) as Hc; rewrite Hm in Hc; by eapply linked_null).
  exists pend, [], fin. destruct Ho. unfold finished_list in *. rewrite Hm, app_nil_r in *. split; cbn; try done; by rewrite ?app_nil_r.
Qed.

(** ** Freeing *)

Record freed (q : Queue F) (p : Z) (q' : Queue F) : Prop := mkFreed {
  fr_heap : heap q' = delete p (heap q);
  fr_timers x : x ∈ timers q' → x ∈ timers q ∧ x ≠ p;
  fr_shows x : x ∈ shows q' → x ∈ shows q ∧ x ≠ p;
  fr_dialogs x : x ∈ dialogs q' → x ∈ dialogs q ∧ x ≠ p;
  fr_same : job_head q' = job_head q ∧ job_tail q' = job_tail q ∧ done_head q' = done_head q ∧
    worker_running q' = worker_running q ∧ notify_pipe q' = notify_pipe q ∧ worker q' = worker q ∧
    submitted q' = submitted q ∧ started q' = started q }.

Lemma wp_stop_free p j q (Q : unit → Queue F → Prop) :
  heap q !! p = Some j → shown q →
  (∀ q', freed q p q' → main q' = main q → Q tt q') → wp no_fault (progress_stop p;; job_free p) Q q.
Proof.
  intros Hj Hs HQ. assert (Hat : ∀ (P : FmJob → Prop), (∃ j', heap q !! p = Some j' ∧ P j') → P j) by (intros P (j' & E & HP); congruence).
  pose proof (fun Hx => Hat _ (sh_timers _ Hs p Hx)) as Ht. pose proof (fun Hx => Hat _ (sh_shows _ Hs p Hx)) as Hw.
  pose proof (fun Hx => Hat _ (sh_dialogs _ Hs p Hx)) as Hd. clear Hat. cbn beta in Ht, Hw, Hd.
  apply wp_bind. unfold progress_stop. apply wp_bind, (wp_deref_job _ _ j); [done|].
  assert (Hend : ∀ ts ss ds j1, (∀ x, x ∈ ts → x ∈ timers q ∧ x ≠ p) → (∀ x, x ∈ ss → x ∈ shows q ∧ x ≠ p) → (∀ x, x ∈ ds → x ∈ dialogs q ∧ x ≠ p) →
    wp no_fault (upd_job p (fun j => j <| progress := None |>)) (fun _ => wp no_fault (job_free p) Q)
      (q <| heap := <[p := j1]> (heap q) |> <| timers := ts |> <| shows := ss |> <| dialogs := ds |>)).
  { intros ts ss ds j1 Hts Hss Hds. eapply (wp_upd_job _ _ _ j1); [apply lookup_insert_eq|].
    apply wp_bind. eapply wp_deref_job; [apply lookup_insert_eq|]. apply wp_modify, HQ; [|done].
    split; cbn; [by rewrite insert_insert_eq, delete_insert_eq|done..]. }
  assert (Hrest : ∀ ts j1, (∀ x, x ∈ ts → x ∈ timers q ∧ x ≠ p) →
    wp no_fault (match progress j with
                 | Some b => when b (modify (fun q => q <| shows := filter (fun y => y ≠ p) (shows q) |>));;
                             modify (fun q => q <| dialogs := filter (fun y => y ≠ p) (dialogs q) |>)
                 | None => skip end;;
                 upd_job p (fun j => j <| progress := None |>)) (fun _ => wp no_fault (job_free p) Q)
      (q <| heap := <[p := j1]> (heap q) |> <| timers := ts |>)).
  { intros ts j1 Hts. apply wp_bind. destruct (progress j) as [b|] eqn:Epg.
    - apply wp_bind, wp_when; intros Hb.
      + apply wp_modify, wp_modify. apply (Hend ts (filter (fun y => y ≠ p) (shows q)) (filter (fun y => y ≠ p) (dialogs q)) j1); [done|apply elem_filter_ne..].
      + apply wp_modify. apply (Hend ts (shows q) (filter (fun y => y ≠ p) (dialogs q)) j1); [done| |apply elem_filter_ne].
        intros x Hx. split; [done|]. intros ->. specialize (Hw Hx). congruence.
    - apply wp_ret. apply (Hend ts (shows q) (dialogs q) j1); [done| |].
      + intros x Hx. split; [done|]. intros ->. specialize (Hw Hx). congruence.
      + intros x Hx. split; [done|]. intros ->. specialize (Hd Hx). congruence. }
  apply wp_bind, wp_when; intros Hpt.
  - apply wp_bind, wp_modify. eapply (wp_upd_job _ _ _ j); [done|].
    eapply (Hrest (filter (fun y => y ≠ p) (timers q)) (j <| progress_timer := false |>)). apply elem_filter_ne.
  - replace q with (q <| heap := <[p := j]> (heap q) |> <| timers := timers q |>) at 1; [|rewrite insert_id by done; by destruct q].
    apply Hrest. intros x Hx. split; [done|]. intros ->. specialize (Ht Hx). congruence.
Qed.

Lemma shown_freed q p q' : shown q → freed q p q' → (∀ a, main q' ≠ M_submitted a) → shown q'.
Proof.
  intros [Ht Hw Hd _] [Eh Et Ew Ed _] Hm. split; [| | |by intros a ?%Hm].
  - intros x Hx. destruct (Et x Hx) as [Hx' Hne]. rewrite Eh, lookup_delete_ne by done. by apply Ht.
  - intros x Hx. destruct (Ew x Hx) as [Hx' Hne]. rewrite Eh, lookup_delete_ne by done. by apply Hw.
  - intros x Hx. destruct (Ed x Hx) as [Hx' Hne]. rewrite Eh, lookup_delete_ne by done. by apply Hd.
Qed.

Lemma freed_update q m p j' q' : freed (q <| main := m |> <| heap := <[p := j']> (heap q) |>) p q' → freed q p q'.
Proof. intros [Eh Et Ew Ed Es]. split; [|done..]. rewrite Eh. cbn. by rewrite delete_insert_eq. Qed.

Lemma requests_freed h p l : p ∉ l → requests (delete p h) l = requests h l.
Proof. intros Hp. apply requests_ext. intros a Ha. rewrite lookup_delete_ne; [done|]. by intros <-. Qed.

Lemma heap_freed (h : gmap Z FmJob) p (l l' : list Z) :
  l ≡ₚ p :: l' → NoDup l → (∀ x, is_Some (h !! x) ↔ x ∈ l) → ∀ x, is_Some (delete p h !! x) ↔ x ∈ l'.
Proof.
  intros Hl Hnd Hh x. rewrite Hl in Hnd. apply NoDup_cons in Hnd as [Hp _]. destruct (decide (p = x)) as [<-|Hne].
  - rewrite lookup_delete_eq. split; [by intros [? [=]]|done].
  - rewrite lookup_delete_ne by done. rewrite Hh, Hl. set_solver.
Qed.

(** The first job of the list in hand is freed. *)
Lemma owned_collected q q' pend fin coll p j :
  owned q pend fin (p :: coll) → heap q !! p = Some j → linked (heap q) (next j) coll → main q = M_collect p →
  freed q p q' → main q' = M_collect (next j) → owned q' pend fin coll.
Proof.
  intros Ho Hj Hl Hm [Eh _ _ _ (E1 & E2 & E3 & E4 & E5 & E6 & E7 & E8)] Hm'. pose proof (ow_nodup _ _ _ _ Ho) as Hnd.
  assert (Hperm : held (worker q) ++ pend ++ fin ++ p :: coll ≡ₚ p :: held (worker q) ++ pend ++ fin ++ coll).
  { rewrite !app_assoc. by rewrite <- Permutation_middle. }
  assert (Hnot : p ∉ held (worker q) ++ pend ++ fin ++ coll) by (rewrite Hperm in Hnd; by apply NoDup_cons in Hnd as []).
  rewrite !not_elem_of_app in Hnot. destruct Hnot as (Hn1 & Hn2 & Hn3 & Hn4).
  destruct Ho. unfold finished_list in *. rewrite Hm in *. split; unfold finished_list; rewrite ?Hm', ?Eh, ?E1, ?E2, ?E3, ?E4, ?E5, ?E6, ?E7, ?E8; try done.
  - by apply linked_delete.
  - by apply linked_delete.
  - by apply linked_delete.
  - rewrite Hperm in Hnd. by apply NoDup_cons in Hnd as [].
  - by eapply heap_freed.
  - by rewrite requests_freed.
  - intros Hf. destruct (ow_told0 Hf) as [?|[?|[E|E]]]; [by left|right; by left|done|done].
Qed.
Lemma owned_rest q q' pend fin coll p j :
  owned q pend (p :: fin) coll → heap q !! p = Some j → linked (heap q) (next j) fin → main q = M_rest p →
  freed q p q' → main q' = M_rest (next j) → owned q' pend fin coll.
Proof.
  intros Ho Hj Hl Hm [Eh _ _ _ (E1 & E2 & E3 & E4 & E5 & E6 & E7 & E8)] Hm'. pose proof (ow_nodup _ _ _ _ Ho) as Hnd.
  assert (Hperm : held (worker q) ++ pend ++ (p :: fin) ++ coll ≡ₚ p :: held (worker q) ++ pend ++ fin ++ coll).
  { cbn. rewrite !app_assoc. by rewrite <- Permutation_middle, <- !app_assoc. }
  assert (Hnot : p ∉ held (worker q) ++ pend ++ fin ++ coll) by (rewrite Hperm in Hnd; by apply NoDup_cons in Hnd as []).
  rewrite !not_elem_of_app in Hnot. destruct Hnot as (Hn1 & Hn2 & Hn3 & Hn4).
  destruct Ho. unfold finished_list in *. rewrite Hm in *. split; unfold finished_list; rewrite ?Hm', ?Eh, ?E1, ?E2, ?E3, ?E4, ?E5, ?E6, ?E7, ?E8; try done.
  - by apply linked_delete.
  - by apply linked_delete.
  - by apply linked_delete.
  - rewrite Hperm in Hnd. by apply NoDup_cons in Hnd as [].
  - by eapply heap_freed.
  - by rewrite requests_freed.
  - intros _. by do 3 right.
Qed.

Lemma shown_collecting q p p' j :
  shown q → heap q !! p = Some j → shown (q <| main := M_collect p' |> <| heap := <[p := j <| next := NULL |>]> (heap q) |>).
Proof. intros Hs Hj. assert (Hx : shown (q <| heap := <[p := j <| next := NULL |>]> (heap q) |>)) by by eapply shown_update. by destruct Hx. Qed.

Lemma good_collect q p : good q → main q = M_collect p → wp no_fault main_step (fun _ => good) q.
Proof.
  intros [(pend & fin & coll & Ho) Hs] Hm. apply wp_bind, wp_gets. rewrite Hm.
  pose proof (ow_coll _ _ _ _ Ho) as Hc. rewrite Hm in Hc. cbn in Hc. destruct (Z.eqb_spec p NULL) as [->|Hp].
  - apply wp_modify. split; [|destruct Hs; by split]. exists pend, fin, coll.
    eapply (owned_goes q _ _ _ _ M_loop); try done; rewrite ?Hm; try done. unfold finished_list. by rewrite Hm.
  - destruct (linked_nonnull _ _ _ Hp Hc) as (coll' & j & -> & Hj & Hl).
    apply wp_bind, (wp_deref_job _ _ j); [done|]. apply wp_bind, wp_modify, wp_bind, (wp_upd_job _ _ _ j); [done|].
    eapply (wp_stop_free p (j <| next := NULL |>)); [apply lookup_insert_eq|exact (shown_collecting q p (next j) j Hs Hj)|].
    + intros q' Hfr Hm'. apply (freed_update q (M_collect (next j)) p (j <| next := NULL |>)) in Hfr. cbn in Hm'. split.
      * exists pend, fin, coll'. by eapply owned_collected.
      * eapply shown_freed; [done..|]. intros a. by rewrite Hm'.
Qed.

Lemma good_rest q p : good q → main q = M_rest p → wp no_fault main_step (fun _ => good) q.
Proof.
  intros [(pend & fin & coll & Ho) Hs] Hm. apply wp_bind, wp_gets. rewrite Hm.
  pose proof (ow_fin _ _ _ _ Ho) as Hc. unfold finished_list in Hc. rewrite Hm in Hc. destruct (Z.eqb_spec p NULL) as [->|Hp].
  - apply wp_modify. apply linked_null in Hc as ->. split; [|destruct Hs; by split]. exists pend, [], coll.
    destruct Ho. unfold finished_list in *. rewrite Hm in *. split; unfold finished_list; cbn; try done.
  - destruct (linked_nonnull _ _ _ Hp Hc) as (fin' & j & -> & Hj & Hl).
    apply wp_bind, (wp_deref_job _ _ j); [done|]. apply wp_bind.
    assert (Hsf : wp no_fault (progress_stop p;; job_free p) (fun _ => wp no_fault (modify (fun q => q <| main := M_rest (next j) |>)) (fun _ => good)) q).
    { eapply (wp_stop_free p j); [done|done|].
      + intros q' Hfr Hm'. apply wp_modify.
        assert (Hfr' : freed q p (q' <| main := M_rest (next j) |>)) by (destruct Hfr; by split).
        split; [exists pend, fin', coll; by eapply owned_rest|]. eapply shown_freed; [done..|]. intros a. by cbn. }
    unfold wp, mbind, prog_bind in *. destruct (progress_stop p q) as [[] q1|]; [|done]. by destruct (job_free p q1) as [[] q2|].
Qed.

Lemma good_quit q : good q → main q = M_loop → wp no_fault jobqueue_shutdown (fun _ => good) q.
Proof.
  intros [(pend & fin & coll & Ho) Hs] Hm. apply wp_bind, wp_modify, wp_bind, wp_signalled. intros q' Hq' Hw. apply wp_modify.
  assert (Hx : owned (q <| worker_running := false |> <| worker := woken (worker q) |> <| main := M_join |>) pend fin coll).
  { assert (Hheld : held (woken (worker q)) = held (worker q)) by by destruct (worker q).
    destruct Ho. unfold finished_list in *. rewrite Hm in *. split; unfold finished_list; cbn; rewrite ?Hheld; try done.
    - by destruct (worker q).
    - intros Hw'. assert (worker q = W_exit) as [? ?]%ow_exit0 by (by destruct (worker q)). done.
    - intros _. by do 3 right. }
  assert (Hsx : shown (q <| worker_running := false |> <| worker := woken (worker q) |> <| main := M_join |>)) by (destruct Hs; by split).
  destruct Hq' as [->| ->]; [|split; [exists pend, fin, coll; exact Hx|exact Hsx]].
  cbn in Hw. split; [exists pend, fin, coll; rewrite <- Hw in Hx; by destruct Hx; split|by destruct Hsx; split].
Qed.

Lemma good_join q : good q → main q = M_join → wp no_fault main_step (fun _ => good) q.
Proof.
  intros [(pend & fin & coll & Ho) Hs] Hm. apply wp_bind, wp_gets. rewrite Hm. apply wp_bind, wp_gets.
  assert (Hg : good q) by (split; eauto). destruct (worker q) eqn:Hw; try (by apply wp_ret).
  apply wp_modify. split; [|destruct Hs; by split]. destruct (ow_exit _ _ _ _ Ho Hw) as [-> _]. exists [], fin, coll.
  destruct Ho. unfold finished_list in *. rewrite Hm, Hw in *. split; unfold finished_list; cbn; rewrite ?Hw; try done.
  intros _. by do 3 right.
Qed.
Lemma good_pending q p : good q → main q = M_pending p → wp no_fault main_step (fun _ => good) q.
Proof.
  intros [(pend & fin & coll & Ho) Hs] Hm. apply wp_bind, wp_gets. rewrite Hm.
  pose proof (ow_after _ _ _ _ Ho) as Ha. rewrite Hm in Ha. destruct Ha as [Hw ->]. rewrite Z.eqb_refl. apply wp_modify.
  split; [|destruct Hs; by split]. destruct (ow_exit _ _ _ _ Ho Hw) as [-> _]. exists [], fin, coll.
  destruct Ho. unfold finished_list in *. rewrite Hm, Hw in *. split; unfold finished_list; cbn; rewrite ?Hw; try done.
  intros _. by do 3 right.
Qed.

Lemma good_main_step q : good q → wp no_fault main_step (fun _ => good) q.
Proof.
  intros Hg. destruct (main q) eqn:Hm.
  - apply wp_bind, wp_gets. rewrite Hm. by apply wp_ret.
  - by eapply good_submitted.
  - by apply good_drain.
  - by eapply good_collect.
  - by apply good_join.
  - by eapply good_pending.
  - by eapply good_rest.
  - apply wp_bind, wp_gets. rewrite Hm. by apply wp_ret.
Qed.

(** ** The worker *)

(** The worker goes on with the same job; it is neither asleep nor over. *)
Lemma owned_works q pend fin coll w :
  owned q pend fin coll → held w = held (worker q) → worker q ≠ W_exit → worker q ≠ W_notify → w ≠ W_asleep → w ≠ W_exit →
  owned (q <| worker := w |>) pend fin coll.
Proof.
  intros Ho Hh He Hn Ha Hx. destruct Ho. split; cbn; rewrite ?Hh; try done.
  - intros Hf. destruct (ow_told0 Hf) as [?|[?|[?|?]]]; [by left|done|right; right; by left|by do 3 right].
  - destruct (main q); naive_solver.
Qed.
Lemma shown_worker q w : shown q → shown (q <| worker := w |>).
Proof. intros []. by split. Qed.
Lemma good_works q w :
  good q → held w = held (worker q) → worker q ≠ W_exit → worker q ≠ W_notify → w ≠ W_asleep → w ≠ W_exit → good (q <| worker := w |>).
Proof. intros [(pend & fin & coll & Ho) Hs] ? ? ? ? ?. split; [exists pend, fin, coll; by apply owned_works|by apply shown_worker]. Qed.

(** While the worker works, the main thread is not past the join. *)
Lemma not_over q pend fin coll : owned q pend fin coll → worker q ≠ W_exit → finished_list q = done_head q.
Proof. intros Ho Hw. pose proof (ow_after _ _ _ _ Ho). unfold finished_list. destruct (main q); naive_solver. Qed.

Lemma good_sleeps q : good q → worker q = W_dequeue → job_head q = NULL →
  good (q <| worker := if worker_running q then W_asleep else W_exit |>).
Proof.
  intros [(pend & fin & coll & Ho) Hs] Hw Hh. split; [|by apply shown_worker]. exists pend, fin, coll.
  assert (pend = []) as -> by (pose proof (ow_pend _ _ _ _ Ho) as Hp; rewrite Hh in Hp; by apply linked_null in Hp).
  destruct Ho. rewrite Hw in *. destruct (worker_running q) eqn:Hr; split; cbn; try done.
  - by rewrite Hr.
  - intros Hf. destruct (ow_told0 Hf) as [?|[?|[?|?]]]; [by left|done|right; right; by left|by do 3 right].
  - destruct (main q); naive_solver.
  - by rewrite Hr.
  - intros Hf. destruct (ow_told0 Hf) as [?|[?|[?|?]]]; [by left|done|right; right; by left|by do 3 right].
  - destruct (main q); naive_solver.
Qed.

(** The first job leaves the queue. *)
Lemma owned_dequeue q q' p j pend fin coll :
  owned q (p :: pend) fin coll → worker q = W_dequeue → heap q !! p = Some j → p ≠ NULL → linked (heap q) (next j) pend →
  heap q' = <[p := j <| next := NULL |>]> (heap q) → job_head q' = next j →
  job_tail q' = (if next j =? NULL then NULL else job_tail q) → done_head q' = done_head q →
  worker_running q' = worker_running q → notify_pipe q' = notify_pipe q → worker q' = W_run p → main q' = main q →
  submitted q' = submitted q → started q' = started q ++ [request_of j] → owned q' pend fin coll.
Proof.
  intros Ho Hw Hj Hnn Hl Eh E1 E2 E3 E4 E5 E6 E7 E8 E9. pose proof (ow_nodup _ _ _ _ Ho) as Hnd.
  rewrite Hw in Hnd. cbn in Hnd. pose proof Hnd as [Hnot _]%NoDup_cons. rewrite !not_elem_of_app in Hnot. destruct Hnot as (Hn1 & Hn2 & Hn3).
  assert (Hfl : finished_list q' = finished_list q) by (unfold finished_list; by rewrite E7, E3).
  destruct Ho. rewrite Hw in *. split; rewrite ?Hfl, ?Eh, ?E1, ?E2, ?E3, ?E4, ?E5, ?E6, ?E7, ?E8, ?E9; try done.
  - by apply linked_insert.
  - destruct pend as [|b pend]; [by rewrite (linked_head _ _ _ Hl)|]. destruct Hl as (E & Hb & _).
    rewrite (proj2 (Z.eqb_neq _ _)) by congruence. by rewrite ow_tail0.
  - by apply linked_insert.
  - by apply linked_insert.
  - intros x. rewrite <- ow_heap0. destruct (decide (p = x)) as [<-|]; [|by rewrite lookup_insert_ne].
    rewrite lookup_insert_eq, Hj. by split; eexists.
  - cbn. set_solver.
  - rewrite ow_order0, <- app_assoc. f_equal. rewrite (requests_update _ _ _ _ _ Hj) by done.
    unfold requests. cbn. by rewrite Hj.
  - intros Hf. destruct (ow_told0 Hf) as [?|[?|[?|?]]]; [by left|done|right; right; by left|by do 3 right].
  - destruct (main q); naive_solver.
Qed.

Lemma good_dequeue q : good q → worker q = W_dequeue → wp no_fault dequeue_pending (fun _ => good) q.
Proof.
  intros Hg Hw. pose proof Hg as [(pend & fin & coll & Ho) Hs]. apply wp_bind, wp_gets, wp_bind, wp_gets.
  pose proof (good_sleeps q Hg Hw) as Hsl. destruct (Z.eqb_spec (job_head q) NULL) as [Hh|Hh].
  - specialize (Hsl Hh). destruct (worker_running q); by apply wp_modify.
  - cbn [andb]. destruct (linked_nonnull _ _ _ Hh (ow_pend _ _ _ _ Ho)) as (pend' & j & -> & Hj & Hl).
    apply wp_bind, (wp_deref_job _ _ j); [done|]. apply wp_bind, wp_modify, wp_bind, wp_gets. cbn.
    assert (Hfin : ∀ q', heap q' = <[job_head q := j <| next := NULL |>]> (heap q) → job_head q' = next j →
      job_tail q' = (if next j =? NULL then NULL else job_tail q) → done_head q' = done_head q →
      worker_running q' = worker_running q → notify_pipe q' = notify_pipe q → worker q' = W_run (job_head q) → main q' = main q →
      submitted q' = submitted q → started q' = started q ++ [request_of j] →
      timers q' = timers q → shows q' = shows q → dialogs q' = dialogs q → windows q' = windows q → good q').
    { intros q' Eh. intros. split; [exists pend', fin, coll; by apply (owned_dequeue q q' (job_head q) j)|].
      assert (Hsx : shown (q <| heap := <[job_head q := j <| next := NULL |>]> (heap q) |>)) by by eapply shown_update.
      by apply (shown_ext _ _ Hsx). }
    apply wp_bind, wp_when; intros Hnx.
    + apply wp_modify, wp_bind, (wp_upd_job _ _ _ j); [done|]. apply wp_modify, Hfin; try done. by rewrite Hnx.
    + apply wp_bind, (wp_upd_job _ _ _ j); [done|]. apply wp_modify, Hfin; try done. by rewrite Hnx.
Qed.

(** The list of finished jobs gets the job at its head. *)
Lemma owned_done q p j pend fin coll :
  owned q pend fin coll → worker q = W_done p → heap q !! p = Some j →
  owned (q <| heap := <[p := j <| next := done_head q |>]> (heap q) |> <| done_head := p |> <| worker := W_notify |>) pend (p :: fin) coll.
Proof.
  intros Ho Hw Hj. pose proof (not_over _ _ _ _ Ho) as Hfl. rewrite Hw in Hfl. specialize (Hfl ltac:(done)).
  pose proof (ow_nodup _ _ _ _ Ho) as Hnd. rewrite Hw in Hnd. cbn in Hnd. pose proof Hnd as [Hnot _]%NoDup_cons.
  rewrite !not_elem_of_app in Hnot. destruct Hnot as (Hn1 & Hn2 & Hn3).
  assert (Hperm : p :: pend ++ fin ++ coll ≡ₚ pend ++ (p :: fin) ++ coll) by (cbn; by rewrite <- Permutation_middle).
  destruct Ho. rewrite Hw in *. split; cbn; try done.
  - by apply linked_insert.
  - unfold finished_list in *. cbn. assert (Hm : match main q with M_rest p' => p' | _ => p end = p) by (destruct (main q); naive_solver).
    rewrite Hm. cbn. split; [done|]. split; [set_solver|]. exists (j <| next := done_head q |>). rewrite lookup_insert_eq.
    split; [done|]. apply linked_insert; [done|]. by rewrite <- Hfl.
  - by apply linked_insert.
  - by rewrite <- Hperm.
  - intros x. rewrite <- Hperm. rewrite <- (ow_heap0 x). destruct (decide (p = x)) as [<-|]; [|by rewrite lookup_insert_ne].
    rewrite lookup_insert_eq, Hj. by split; eexists.
  - set_solver.
  - by rewrite (requests_update _ _ _ _ _ Hj).
  - intros _. right. by left.
  - destruct (main q); naive_solver.
Qed.

Lemma good_worker q : good q → wp no_fault (worker_func n cap) (fun _ => good) q.
Proof.
  intros Hg. pose proof Hg as [(pend & fin & coll & Ho) Hs]. apply wp_bind, wp_gets.
  assert (Hheld : ∀ p, held (worker q) = [p] → ∃ j, heap q !! p = Some j).
  { intros p Hp. assert (Hx : is_Some (heap q !! p)) by (apply (ow_heap _ _ _ _ Ho); rewrite Hp; set_solver).
    destruct Hx as [j Hj]. by exists j. }
  destruct (worker q) as [| |p|p|p| |] eqn:Hw.
  - by apply good_dequeue.
  - by apply wp_ret.
  - destruct (Hheld p) as [j Hj]; [done|]. apply wp_bind, (wp_deref_job _ _ j); [done|]. apply wp_bind, wp_gets.
    destruct (exec_job n j (world q)) as [[e|] w'].
    + apply wp_bind, wp_modify, wp_bind, (wp_upd_job _ _ _ j); [done|]. apply wp_modify.
      apply good_works; cbn; rewrite ?Hw; try done. split.
      * exists pend, fin, coll. assert (Hx : owned (q <| heap := <[p := j <| error := e |>]> (heap q) |>) pend fin coll) by by eapply owned_update.
        by apply (owned_toolkit _ _ _ _ _ Hx).
      * assert (Hx : shown (q <| heap := <[p := j <| error := e |>]> (heap q) |>)) by by eapply shown_update.
        by apply (shown_ext _ _ Hx).
    + by apply wp_ret.
  - destruct (Hheld p) as [j Hj]; [done|]. apply wp_bind, (wp_upd_job _ _ _ j); [done|]. apply wp_modify.
    apply good_works; cbn; rewrite ?Hw; try done. split; [exists pend, fin, coll; by eapply owned_update|by eapply shown_update].
  - destruct (Hheld p) as [j Hj]; [done|]. apply wp_bind. unfold enqueue_done. apply wp_bind, wp_gets, wp_bind, (wp_upd_job _ _ _ j); [done|].
    apply wp_modify, wp_modify. split; [exists pend, (p :: fin), coll; by apply owned_done|].
    assert (Hx : shown (q <| heap := <[p := j <| next := done_head q |>]> (heap q) |>)) by by eapply shown_update.
    by apply (shown_ext _ _ Hx).
  - apply wp_bind, wp_gets, wp_when; intros _; [|done]. apply wp_modify. split; [|destruct Hs; by split]. exists pend, fin, coll. destruct Ho. rewrite Hw in *.
    split; cbn; try done; [lia| |destruct (main q); naive_solver]. intros _. left. lia.
  - by apply wp_ret.
Qed.

(** ** Whole schedules *)

(** A timer of a progress dialog fires after the window is gone: the poll timer while its
    job runs on, or the timer that opens the dialog. *)
Definition stale_timer (q : Queue F) (e : event) : bool :=
  let gone (j : FmJob) := bool_decide (origin_win j ∉ windows q) in
  match e with
  | PollTimer p =>
    in_loop q && bool_decide (p ∈ timers q) &&
    match heap q !! p with Some j => negb (finished j) && negb (origin_win j =? NULL) && gone j | None => false end
  | ShowTimer p =>
    in_loop q && bool_decide (p ∈ shows q) && match heap q !! p with Some j => gone j | None => false end
  | _ => false
  end.

Lemma good_event q e : good q → stale_timer q e = false → wp no_fault (happens n cap e) (fun _ => good) q.
Proof.
  intros Hg Hst. assert (Hloop : in_loop q = true → main q = M_loop) by (unfold in_loop; by destruct (main q)).
  destruct e; cbn [happens]; try (apply wp_bind, wp_gets; apply wp_when; [|done];
    try (intros [Hl%Hloop Hc%bool_decide_eq_true]%andb_prop)).
  - destruct Hc as (? & ? & ? & ?). by apply good_submit.
  - by apply good_cancel.
  - by apply good_dismiss.
  - apply good_poll; [done..|]. intros j Hj Hf Hn. destruct (decide (origin_win j ∈ windows q)) as [|Hw]; [done|].
    cbn [stale_timer] in Hst. unfold in_loop in Hst. rewrite Hl, Hj, Hf, !bool_decide_eq_true_2, (proj2 (Z.eqb_neq _ _) Hn) in Hst by done. done.
  - apply good_show; [done..|]. intros j Hj. destruct (decide (origin_win j ∈ windows q)) as [|Hw]; [done|].
    cbn [stale_timer] in Hst. unfold in_loop in Hst. rewrite Hl, Hj, !bool_decide_eq_true_2 in Hst by done. done.
  - by apply wp_modify, good_open.
  - by apply good_close.
  - intros [Hl%Hloop _]%andb_prop. by apply good_notify.
  - intros Hl%Hloop. by apply good_quit.
  - by apply good_main_step.
  - by apply good_worker.
Qed.

(** It reads a freed window. *)
Lemma stale_faults q e : stale_timer q e = true → happens n cap e q = Fault OutOfBounds.
Proof.
  destruct e; try done; cbn [stale_timer happens]; intros [[Hl Hp]%andb_prop Hj]%andb_prop; unfold mbind, prog_bind at 1; cbn;
    rewrite Hl, Hp; cbn [andb when]; (destruct (heap q !! job) as [j|] eqn:E; [|done]).
  - apply andb_prop in Hj as [[Hf Hn]%andb_prop Hw%bool_decide_eq_true]. apply negb_true_iff in Hf, Hn.
    unfold poll_timer_cb, upd_job, deref, modify, mbind, prog_bind. cbn. rewrite E. cbn. rewrite lookup_insert_eq. cbn.
    rewrite Hf, Hn. unfold deref_window, gets, mbind, prog_bind. cbn. by rewrite bool_decide_eq_false_2.
  - apply bool_decide_eq_true in Hj.
    unfold progress_show_delay_cb, upd_job, deref, modify, mbind, prog_bind. cbn. rewrite E. cbn. rewrite lookup_insert_eq. cbn.
    unfold deref_window, gets, mbind, prog_bind. cbn. by rewrite bool_decide_eq_false_2.
Qed.

(** What is reachable is good. *)
Lemma run_good sched q0 : good q0 →
  match run n cap sched q0 with
  | Ok _ q => good q
  | Fault _ => ∃ pre e post q, sched = pre ++ e :: post ∧ run n cap pre q0 = Ok tt q ∧ stale_timer q e = true
  end.
Proof.
  revert q0. induction sched as [|e sched IH]; intros q0 Hg; cbn [run]; [done|]. unfold mbind, prog_bind.
  destruct (stale_timer q0 e) eqn:Hst.
  - rewrite (stale_faults _ _ Hst). by exists [], e, sched, q0.
  - pose proof (good_event q0 e Hg Hst) as Hw. unfold wp in Hw. destruct (happens n cap e q0) as [[] q1|f] eqn:E; [|done].
    specialize (IH q1 Hw). destruct (run n cap sched q1) as [[] q|f]; [done|].
    destruct IH as (pre & e' & post & q & -> & Hrun & Hs). exists (e :: pre), e', post, q. split; [done|]. split; [|done].
    cbn [run]. unfold mbind, prog_bind. by rewrite E.
Qed.
End Own.
