(* ===== verification/FmJobsClaims.v ===== *)
(** * What the job queue promises *)

From S2P Require Import Prelude.
From S2P Require Import CString.
From S2P Require Import FmFiles.
From S2P Require Import FmTrash.
From S2P Require Import FmJobs.
From S2P Require Import FmJobsProof.
From stdpp Require Import gmap.
Open Scope Z_scope.

Section Claims.
Context {F : Type} `{Posix F} `{Homes} (n : nat) (cap : Z).

(** When all is closed, nothing is left. *)
Lemma closed_empty (q : Queue F) :
  good q → main q = M_closed → worker q = W_exit ∧ started q = submitted q ∧ heap q = ∅ ∧ timers q = [] ∧ shows q = [] ∧ dialogs q = [].
Proof.
  intros [(pend & fin & coll & Ho) Hs] Hm. pose proof (ow_after _ _ _ _ Ho) as Ha. rewrite Hm in Ha. destruct Ha as [Hw ->].
  destruct (ow_exit _ _ _ _ Ho Hw) as [-> _].
  assert (coll = []) as -> by (pose proof (ow_coll _ _ _ _ Ho) as Hc; rewrite Hm in Hc; by apply linked_null in Hc).
  assert (Hempty : ∀ p, heap q !! p = None).
  { intros p. apply eq_None_not_Some. rewrite (ow_heap _ _ _ _ Ho), Hw. apply not_elem_of_nil. }
  split_and!; [done| | | | |].
  - rewrite (ow_order _ _ _ _ Ho). unfold requests. cbn. by rewrite app_nil_r.
  - by apply map_empty.
  - destruct (timers q) as [|p l] eqn:E; [done|]. destruct (sh_timers _ Hs p) as (j & Hj & _); [rewrite E; set_solver|]. by rewrite Hempty in Hj.
  - destruct (shows q) as [|p l] eqn:E; [done|]. destruct (sh_shows _ Hs p) as (j & Hj & _); [rewrite E; set_solver|]. by rewrite Hempty in Hj.
  - destruct (dialogs q) as [|p l] eqn:E; [done|]. destruct (sh_dialogs _ Hs p) as (j & Hj & _); [rewrite E; set_solver|]. by rewrite Hempty in Hj.
Qed.

(** C26: Whatever the order in which the two threads run and the user acts, freed memory is
    read only by a timer of a progress dialog whose window was closed, before its job was
    done: jobs, lists and buttons never dangle. *)
Theorem jobs_memory_safe w sched f :
  run n cap sched (jobqueue_init w) = Fault f →
  ∃ pre e post q, sched = pre ++ e :: post ∧ run n cap pre (jobqueue_init w) = Ok tt q ∧ stale_timer q e = true.
Proof.
  intros Hf. pose proof (run_good n cap sched (jobqueue_init w) (good_init w)) as Hg. by rewrite Hf in Hg.
Qed.

(** C27: In every schedule the worker has started the jobs in the order in which they were
    submitted, each once, and those that are left are in the queue, in order; when the
    queue is shut down all jobs have been run and everything is freed. *)
Theorem jobs_in_order w sched q :
  run n cap sched (jobqueue_init w) = Ok tt q →
  (∃ pend, linked (heap q) (job_head q) pend ∧ submitted q = started q ++ requests (heap q) pend) ∧
  (main q = M_closed → started q = submitted q ∧ heap q = ∅ ∧ timers q = [] ∧ shows q = [] ∧ dialogs q = []).
Proof.
  intros Hr. pose proof (run_good n cap sched (jobqueue_init w) (good_init w)) as Hg. rewrite Hr in Hg.
  split; [|intros Hm; by destruct (closed_empty q Hg Hm)].
  destruct Hg as [(pend & fin & coll & Ho) _]. exists pend. split; apply Ho.
Qed.

(** C28: No completion and no submission is lost: when the event loop waits and a job is
    finished, there is a byte in the pipe or the worker is about to write it; and the
    worker sleeps only while the queue is empty and open. *)
Theorem no_lost_wakeup w sched q :
  run n cap sched (jobqueue_init w) = Ok tt q →
  (main q = M_loop → done_head q ≠ NULL → 0 < notify_pipe q ∨ worker q = W_notify) ∧
  (worker q = W_asleep → job_head q = NULL ∧ worker_running q = true).
Proof.
  intros Hr. pose proof (run_good n cap sched (jobqueue_init w) (good_init w)) as Hg. rewrite Hr in Hg.
  destruct Hg as [(pend & fin & coll & Ho) Hs]. split.
  - intros Hm Hd. pose proof (ow_fin _ _ _ _ Ho) as Hf. unfold finished_list in Hf. rewrite Hm in Hf.
    destruct (ow_told _ _ _ _ Ho) as [?|[?|[E|E]]]; [|by left|by right|congruence|by rewrite Hm in E].
    intros ->. by rewrite Hf in Hd.
  - intros Hw. destruct (ow_asleep _ _ _ _ Ho Hw) as [-> Hrun]. split; [|done]. apply (ow_pend _ _ _ _ Ho).
Qed.

(** ** Shutting down *)

(** Turns of the worker until it is over, turns of the main thread after that. *)
Definition waiting (q : Queue F) : nat := length (submitted q) - length (started q).
Definition worker_left (q : Queue F) : nat :=
  match worker q with
  | W_exit => 0 | W_asleep | W_dequeue => 5 * waiting q + 1 | W_notify => 5 * waiting q + 2
  | W_done _ => 5 * waiting q + 3 | W_finish _ => 5 * waiting q + 4 | W_run _ => 5 * waiting q + 5
  end%nat.
Definition main_left (q : Queue F) : nat :=
  match main q with
  | M_closed => 0 | M_rest _ => size (heap q) + 1 | M_pending _ => size (heap q) + 2 | _ => size (heap q) + 3
  end%nat.

Lemma requests_length q pend fin coll : owned q pend fin coll → waiting q = length pend.
Proof.
  intros Ho. unfold waiting. rewrite (ow_order _ _ _ _ Ho), length_app.
  assert (Hl : length (requests (heap q) pend) = length pend); [|lia].
  assert (Hin : ∀ p, p ∈ pend → is_Some (heap q !! p)) by (intros p; eapply linked_in, (ow_pend _ _ _ _ Ho)).
  clear Ho. unfold requests. induction pend as [|p l IH]; [done|]. cbn. destruct (Hin p) as [j ->]; [set_solver|]. cbn.
  f_equal. apply IH. intros x Hx. apply Hin. set_solver.
Qed.

(** The worker waits: for a job that is not over within the fuel, or for room in the
    pipe. *)
Definition blocked (q : Queue F) : bool :=
  match worker q with
  | W_run p => match heap q !! p with Some j => match (exec_job n j (world q)).1 with Some _ => false | None => true end | None => false end
  | W_notify => cap <=? notify_pipe q
  | _ => false
  end.

Lemma updated_size (h : gmap Z FmJob) p j j' : h !! p = Some j → size (<[p := j']> h) = size h.
Proof. intros Hj. apply map_size_insert_Some. by exists j. Qed.

Lemma worker_turn q :
  blocked q = false → good q → worker_running q = false →
  wp no_fault (worker_func n cap) (fun _ q' => main q' = main q ∧ worker_running q' = false ∧ size (heap q') = size (heap q) ∧ submitted q' = submitted q ∧
    (worker q = W_exit → q' = q) ∧ (worker q ≠ W_exit → (worker_left q' < worker_left q)%nat)) q.
Proof.
  intros Hbl [(pend & fin & coll & Ho) Hs] Hrun. apply wp_bind, wp_gets. unfold blocked in Hbl.
  assert (Hheld : ∀ p, held (worker q) = [p] → ∃ j, heap q !! p = Some j).
  { intros p Hp. assert (Hx : is_Some (heap q !! p)) by (apply (ow_heap _ _ _ _ Ho); rewrite Hp; set_solver).
    destruct Hx as [j Hj]. by exists j. }
  destruct (worker q) as [| |p|p|p| |] eqn:Hw.
  - apply wp_bind, wp_gets, wp_bind, wp_gets. rewrite Hrun, andb_false_r. destruct (Z.eqb_spec (job_head q) NULL) as [Hh|Hh].
    + apply wp_modify. unfold worker_left. cbn. rewrite Hw. split_and!; try done; try (by apply (updated_size _ _ j)); lia.
    + destruct (linked_nonnull _ _ _ Hh (ow_pend _ _ _ _ Ho)) as (pend' & j & -> & Hj & Hl).
      pose proof (requests_length _ _ _ _ Ho) as Hlen. cbn in Hlen.
      apply wp_bind, (wp_deref_job _ _ j); [done|]. apply wp_bind, wp_modify, wp_bind, wp_gets.
      apply wp_bind, wp_when; intros Hnx; [apply wp_modify|]; apply wp_bind, (wp_upd_job _ _ _ j); try done; apply wp_modify;
        unfold worker_left, waiting in *; cbn; rewrite Hw, length_app; cbn; (split_and!; [done|done|by apply (updated_size _ _ j)|done|done|lia]).
  - destruct (ow_asleep _ _ _ _ Ho Hw). congruence.
  - destruct (Hheld p) as [j Hj]; [done|]. apply wp_bind, (wp_deref_job _ _ j); [done|]. apply wp_bind, wp_gets.
    rewrite Hj in Hbl. destruct (exec_job n j (world q)) as [[e|] w']; [|done].
    apply wp_bind, wp_modify, wp_bind, (wp_upd_job _ _ _ j); [done|]. apply wp_modify.
    unfold worker_left, waiting. cbn. rewrite Hw. split_and!; try done; try (by apply (updated_size _ _ j)); lia.
  - destruct (Hheld p) as [j Hj]; [done|]. apply wp_bind, (wp_upd_job _ _ _ j); [done|]. apply wp_modify.
    unfold worker_left, waiting. cbn. rewrite Hw. split_and!; try done; try (by apply (updated_size _ _ j)); lia.
  - destruct (Hheld p) as [j Hj]; [done|]. apply wp_bind. apply wp_bind, wp_gets, wp_bind, (wp_upd_job _ _ _ j); [done|].
    apply wp_modify, wp_modify. unfold worker_left, waiting. cbn. rewrite Hw. split_and!; try done; try (by apply (updated_size _ _ j)); lia.
  - apply wp_bind, wp_gets, wp_when; intros Hroom.
    { apply wp_modify. unfold worker_left, waiting. cbn. rewrite Hw. split_and!; try done; try (by apply (updated_size _ _ j)); lia. }
    apply Z.leb_gt in Hbl. apply Z.ltb_ge in Hroom. lia.
  - by apply wp_ret.
Qed.

(** What a turn of the main thread leaves alone. *)
Definition keeps_worker (q q' : Queue F) : Prop :=
  closing (main q') = true ∧ worker q' = worker q ∧ worker_running q' = worker_running q ∧
  submitted q' = submitted q ∧ started q' = started q.

Lemma main_turn q :
  good q → closing (main q) = true →
  wp no_fault main_step (fun _ q' => keeps_worker q q' ∧ (main_left q' ≤ main_left q)%nat ∧
    (worker q = W_exit → main q ≠ M_closed → (main_left q' < main_left q)%nat)) q.
Proof.
  intros [(pend & fin & coll & Ho) Hs] Hc. apply wp_bind, wp_gets. unfold keeps_worker, main_left.
  destruct (main q) as [| | | | |p|p|] eqn:Hm; try done.
  - apply wp_bind, wp_gets. destruct (worker q) eqn:Hw; try (apply wp_ret; rewrite Hm; cbn; split_and!; try done; lia).
    apply wp_modify. cbn. split_and!; try done; lia.
  - pose proof (ow_after _ _ _ _ Ho) as Ha. rewrite Hm in Ha. destruct Ha as [_ ->]. rewrite Z.eqb_refl. apply wp_modify.
    cbn. split_and!; try done; lia.
  - destruct (Z.eqb_spec p NULL) as [->|Hp]; [apply wp_modify; cbn; split_and!; try done; lia|].
    pose proof (ow_fin _ _ _ _ Ho) as Hf. unfold finished_list in Hf. rewrite Hm in Hf.
    destruct (linked_nonnull _ _ _ Hp Hf) as (fin' & j & -> & Hj & Hl). apply wp_bind, (wp_deref_job _ _ j); [done|]. apply wp_bind.
    assert (Hsf : wp no_fault (progress_stop p;; job_free p) (fun _ q' => freed q p q' ∧ main q' = main q) q).
    { by eapply (wp_stop_free p j). }
    unfold wp, mbind, prog_bind in *. destruct (progress_stop p q) as [[] q1|]; [|done].
    destruct (job_free p q1) as [[] q2|]; [|done]. destruct Hsf as [[Eh _ _ _ (_ & _ & _ & E4 & _ & E6 & E7 & E8)] _].
    assert (Hsz : size (heap q2) = Nat.pred (size (heap q))) by (rewrite Eh; apply map_size_delete_Some; by exists j).
    assert (size (heap q) ≠ 0%nat) by (intros E%map_size_empty_inv; by rewrite E, lookup_empty in Hj).
    unfold modify. cbn [main worker worker_running heap submitted started closing].
    split_and!; try done; cbn; rewrite ?E7, ?E8; try lia; intros; lia.
  - apply wp_ret. rewrite Hm. split_and!; done.
Qed.

Definition is_worker (e : event) : bool := match e with WorkerStep => true | _ => false end.
Definition is_main (e : event) : bool := match e with MainStep => true | _ => false end.
Definition turns (p : event → bool) (sched : list event) : nat := length (filter (fun e => p e = true) sched).

(** After the event loop only the two threads act. *)
Lemma other_event q e : closing (main q) = true → is_worker e = false → is_main e = false → happens n cap e q = Ok tt q.
Proof.
  intros Hc Hw Hm. assert (Hl : in_loop q = false) by (unfold in_loop; by destruct (main q)).
  destruct e; try done; cbn [happens]; unfold mbind, prog_bind, gets; cbn; by rewrite Hl.
Qed.

Lemma turns_cons p e sched : turns p (e :: sched) = (turns p [e] + turns p sched)%nat.
Proof. unfold turns. rewrite (filter_cons _ e sched), (filter_cons _ e []). by case_decide. Qed.

(** A worker that waits after the event loop does so for ever. *)
Lemma blocked_main q : good q → closing (main q) = true → blocked q = true → main q = M_join.
Proof.
  intros [(pend & fin & coll & Ho) _] Hc Hb. pose proof (ow_after _ _ _ _ Ho) as Ha. unfold blocked in Hb.
  destruct (main q); try done; [destruct Ha as [Hw _]|rename Ha into Hw|destruct Ha as [Hw _]]; by rewrite Hw in Hb.
Qed.
Lemma blocked_stays sched q : main q = M_join → blocked q = true → run n cap sched q = Ok tt q.
Proof.
  intros Hm Hb. induction sched as [|e sched IH]; [done|]. cbn [run].
  assert (E : happens n cap e q = Ok tt q).
  { destruct (is_worker e) eqn:Ew; [|destruct (is_main e) eqn:Em; [|by apply other_event; [rewrite Hm|..]]].
    - destruct e; try done. cbn [happens]. unfold worker_func, mbind, prog_bind, gets. unfold blocked in Hb.
      destruct (worker q) eqn:Hw; try done.
      + unfold deref. destruct (heap q !! job) as [j|]; [|done]. destruct (exec_job n j (world q)) as [[z|] w']; done.
      + by rewrite (proj2 (Z.ltb_ge _ _)) by by apply Z.leb_le.
    - destruct e; try done. cbn [happens]. unfold main_step, mbind, prog_bind, gets. rewrite Hm. unfold blocked in Hb. by destruct (worker q). }
  unfold mbind, prog_bind. by rewrite E.
Qed.

Lemma closing_step e q :
  blocked q = false → good q → closing (main q) = true → worker_running q = false → stale_timer q e = false →
  ∃ q1, happens n cap e q = Ok tt q1 ∧ good q1 ∧ closing (main q1) = true ∧ submitted q1 = submitted q ∧
    (worker_left q1 ≤ worker_left q - turns is_worker [e])%nat ∧ (main_left q1 ≤ main_left q)%nat ∧
    (worker q = W_exit → worker q1 = W_exit ∧ (main_left q1 ≤ main_left q - turns is_main [e])%nat).
Proof.
  intros Hend Hg Hc Hrun Hst. pose proof (good_event n cap q e Hg Hst) as Hge.
  destruct (is_worker e) eqn:Ew; [|destruct (is_main e) eqn:Em].
  - destruct e; try done. pose proof (worker_turn q Hend Hg Hrun) as Ht. cbn [happens] in *. unfold wp in *.
    destruct (worker_func n cap q) as [[] q1|]; [|done]. destruct Ht as (E1 & E2 & E0 & Esb & E3 & E4). exists q1.
    change (turns is_worker [WorkerStep]) with 1%nat. change (turns is_main [WorkerStep]) with 0%nat.
    split_and!; try done; [by rewrite E1| | |].
    + destruct (decide (worker q = W_exit)) as [Hw|Hw]; [|specialize (E4 Hw); lia]. rewrite (E3 Hw). unfold worker_left. rewrite Hw. lia.
    + unfold main_left. rewrite E1, E0. lia.
    + intros Hw. rewrite (E3 Hw). split; [done|lia].
  - destruct e; try done. pose proof (main_turn q Hg Hc) as Ht. cbn [happens] in *. unfold wp in *.
    destruct (main_step q) as [[] q1|]; [|done]. destruct Ht as ((E1 & E2 & E3 & E4 & E4') & E5 & E6). exists q1.
    change (turns is_worker [MainStep]) with 0%nat. change (turns is_main [MainStep]) with 1%nat.
    split_and!; try done; [unfold worker_left, waiting; rewrite E2, E4, E4'; lia|].
    intros Hw. rewrite E2. split; [done|]. destruct (decide (main q = M_closed)) as [Hm|Hm]; [|specialize (E6 Hw Hm); lia].
    unfold main_left in *. rewrite Hm in *. lia.
  - rewrite (other_event q e) by done. exists q. 
    assert (Et : turns is_worker [e] = 0%nat ∧ turns is_main [e] = 0%nat) by (by destruct e). destruct Et as [-> ->].
    split_and!; try done; try lia.
    intros Hw. split; [done|lia].
Qed.

Lemma closing_run sched q :
  good q → closing (main q) = true →
  ∃ q', run n cap sched q = Ok tt q' ∧ good q' ∧ closing (main q') = true ∧ submitted q' = submitted q ∧
    (blocked q' = true ∨
     (worker_left q' ≤ worker_left q - turns is_worker sched)%nat ∧ (main_left q' ≤ main_left q)%nat ∧
     (worker q = W_exit → worker q' = W_exit ∧ (main_left q' ≤ main_left q - turns is_main sched)%nat)).
Proof.
  revert q. induction sched as [|e sched IH]; intros q Hg Hc; cbn [run].
  { exists q. change (turns is_worker []) with 0%nat. change (turns is_main []) with 0%nat. split_and!; try done. right.
    split_and!; [lia|lia|]. intros Hw. split; [done|lia]. }
  destruct (blocked q) eqn:Hb.
  { exists q. split; [apply (blocked_stays (e :: sched)); [by apply blocked_main|done]|]. split_and!; try done. by left. }
  assert (Hrun : worker_running q = false).
  { destruct Hg as [(pend & fin & coll & Ho) _]. by rewrite (ow_running _ _ _ _ Ho), Hc. }
  assert (Hst : stale_timer q e = false) by (unfold stale_timer, in_loop; destruct e; try done; by destruct (main q)).
  destruct (closing_step e q Hb Hg Hc Hrun Hst) as (q1 & E & Hg1 & Hc1 & Hsb1 & Hw1 & Hm1 & Hx1).
  destruct (IH q1 Hg1 Hc1) as (q2 & E2 & Hg2 & Hc2 & Hsb2 & Hrest).
  exists q2. unfold mbind, prog_bind. rewrite E, !(turns_cons _ e sched). split_and!; try done; [congruence|].
  destruct Hrest as [?|(Hw2 & Hm2 & Hx2)]; [by left|]. right. split_and!; [lia|lia|].
  intros Hw. destruct (Hx1 Hw) as [Hw' Hm']. destruct (Hx2 Hw') as [Hw'' Hm'']. split; [done|]. lia.
Qed.

Lemma run_app s1 s2 q : run n cap (s1 ++ s2) q = (run n cap s1;; run n cap s2) q.
Proof.
  revert q. induction s1 as [|e s1 IH]; intros q; [done|]. cbn [run app]. unfold mbind, prog_bind.
  destruct (happens n cap e q) as [[] q'|]; [|done]. rewrite IH. done.
Qed.

(** C29: Quitting ends, however the threads are scheduled, unless the worker waits for ever:
    once the worker has had five turns for each waiting job and some more, and the main
    thread after that one for each job that is allocated, all submitted jobs have been run,
    in order, and nothing is left; or else the main thread still waits for the worker, and
    that is in a job whose file operations are not over, or waits to write to the full
    pipe, which nobody reads any more. *)
Theorem shutdown_ends w sched q s1 s2 :
  run n cap sched (jobqueue_init w) = Ok tt q → main q = M_loop →
  (5 * waiting q + 6 ≤ turns is_worker s1)%nat → (size (heap q) + 4 ≤ turns is_main s2)%nat →
  ∃ q', run n cap (Quit :: s1 ++ s2) q = Ok tt q' ∧ submitted q' = submitted q ∧
    (main q' = M_closed ∧ worker q' = W_exit ∧ started q' = submitted q' ∧ heap q' = ∅ ∨
     main q' = M_join ∧ blocked q' = true).
Proof.
  intros Hr Hm Ht1 Ht2. pose proof (run_good n cap sched (jobqueue_init w) (good_init w)) as Hg. rewrite Hr in Hg.
  pose proof (good_quit q Hg Hm) as Hq. unfold wp in Hq.
  assert (Hquit : ∃ q1, happens n cap Quit q = Ok tt q1 ∧ good q1 ∧ main q1 = M_join ∧ heap q1 = heap q ∧ submitted q1 = submitted q ∧ started q1 = started q).
  { assert (E : happens n cap Quit q = jobqueue_shutdown q) by (cbn [happens]; unfold mbind, prog_bind, gets, in_loop; cbn; by rewrite Hm).
    rewrite E. destruct (jobqueue_shutdown q) as [[] q1|] eqn:E'; [|done]. exists q1. split; [done|]. split; [done|].
    revert E'. unfold jobqueue_shutdown, cond_signal, modify, mbind, prog_bind. cbn. intros [= <-]. by destruct (worker q). }
  destruct Hquit as (q1 & E & Hg1 & Hm1 & Eh & Es & Est).
  destruct (closing_run s1 q1 Hg1) as (q2 & E2 & Hg2 & Hc2 & Hsb2 & H2); [by rewrite Hm1|].
  destruct (closing_run s2 q2 Hg2 Hc2) as (q3 & E3 & Hg3 & Hc3 & Hsb3 & H3).
  exists q3. split. { cbn [run]. unfold mbind, prog_bind at 1. rewrite E, run_app. unfold mbind, prog_bind. by rewrite E2. }
  split; [congruence|]. destruct (blocked q3) eqn:Hb3; [right; split; [by apply blocked_main|done]|left].
  destruct H3 as [?|(_ & _ & Hx3)]; [done|]. destruct H2 as [Hb2|(Hw2 & Hm2 & _)].
  { rewrite (blocked_stays s2 q2) in E3 by first [done | by apply blocked_main]. congruence. }
  assert (Hx2 : worker q2 = W_exit).
  { assert (worker_left q2 = 0%nat) as Hz; [|unfold worker_left in Hz; destruct (worker q2); lia || done].
    assert (worker_left q1 ≤ 5 * waiting q + 5)%nat; [|lia].
    unfold worker_left, waiting. rewrite Es, Est. destruct (worker q1); lia. }
  destruct (Hx3 Hx2) as [Hx3' Hm3].
  assert (Hcl : main q3 = M_closed).
  { assert (main_left q3 = 0%nat) as Hz; [|unfold main_left in Hz; destruct (main q3); try done; lia].
    assert (main_left q1 ≤ size (heap q) + 3)%nat; [|lia]. unfold main_left. rewrite Hm1, Eh. lia. }
  destruct (closed_empty q3 Hg3 Hcl) as (? & ? & ? & _). by split_and!.
Qed.
End Claims.

(** ** Witnesses: a system where every path is an empty file *)

Definition empty_files : Posix unit := fun c s =>
  (match c return fresult c with
   | Lstat _ => inr (mkStat KFile 420 0)
   | Opendir _ => inl 20 | Readdir _ => inr None | Closedir _ => 0
   | Mkdir _ _ => EEXIST | Rmdir _ => 20 | Unlink _ => 0 | Rename _ _ => 0 | Symlink _ _ => EEXIST | Readlink _ => inl 22
   | OpenRead _ => inr 3 | OpenWrite _ _ => inr 4 | Fstat _ => mkStat KFile 420 0
   | Read _ => inr [] | Write _ data => inr (Z.of_nat (length data)) | Close _ => 0
   | Cancelled => false | Store _ _ => tt | Bump _ _ => tt
   | WriteFile _ _ => true | ReadFile _ => None | Now => str "2026-01-01T00:00:00"
   end, s).
#[local] Existing Instance empty_files.
#[local] Instance no_homes : Homes := {| XDG_DATA_HOME := None; home_dir := None |}.

(** A window, and a copy that is submitted from it. *)
Definition empty_world : World unit := mkWorld tt 0 [].
Definition one_copy : list event := [OpenWindow 8; Submit 16 FM_JOB_COPY 8 [str "/a"] (Some (str "/b")); MainStep].
(** The worker has taken the job, the window is closed, the timer fires. *)
Definition closed_too_early : list event := one_copy ++ [WorkerStep; CloseWindow 8; PollTimer 16].
(** A second job while the first is run. *)
Definition two_jobs : list event :=
  one_copy ++ [WorkerStep; Submit 24 FM_JOB_DELETE 8 [str "/a"] None; MainStep; ShowTimer 16; CancelButton 16; WorkerStep; WorkerStep; WorkerStep].

Definition state_after (sched : list event) : Queue unit :=
  match run 2 65536 sched (jobqueue_init empty_world) with Ok _ q => q | Fault _ => jobqueue_init empty_world end.

Lemma jobs_memory_safe_witness :
  ∃ pre e post q, closed_too_early = pre ++ e :: post ∧ run 2 65536 pre (jobqueue_init empty_world) = Ok tt q ∧ stale_timer q e = true.
Proof. apply (jobs_memory_safe 2 65536 empty_world closed_too_early OutOfBounds). vm_compute. reflexivity. Defined.

Lemma jobs_in_order_witness :
  let q := state_after two_jobs in
  length (submitted q) = 2%nat ∧ length (started q) = 1%nat ∧
  (∃ pend, linked (heap q) (job_head q) pend ∧ submitted q = started q ++ requests (heap q) pend) ∧
  (main q = M_closed → started q = submitted q ∧ heap q = ∅ ∧ timers q = [] ∧ shows q = [] ∧ dialogs q = []).
Proof.
  cbv zeta. split; [vm_compute; reflexivity|]. split; [vm_compute; reflexivity|].
  apply (jobs_in_order 2 65536 empty_world two_jobs). vm_compute. reflexivity.
Defined.

Lemma no_lost_wakeup_witness :
  let q := state_after two_jobs in
  main q = M_loop ∧ done_head q = 16 ∧ notify_pipe q = 0 ∧
  (main q = M_loop → done_head q ≠ NULL → 0 < notify_pipe q ∨ worker q = W_notify) ∧
  (worker q = W_asleep → job_head q = NULL ∧ worker_running q = true).
Proof.
  cbv zeta. split; [vm_compute; reflexivity|]. split; [vm_compute; reflexivity|]. split; [vm_compute; reflexivity|].
  apply (no_lost_wakeup 2 65536 empty_world two_jobs). vm_compute. reflexivity.
Defined.

Lemma shutdown_ends_witness :
  ∃ q', run 2 65536 (Quit :: repeat WorkerStep 11 ++ repeat MainStep 6) (state_after two_jobs) = Ok tt q' ∧
    submitted q' = submitted (state_after two_jobs) ∧
    (main q' = M_closed ∧ worker q' = W_exit ∧ started q' = submitted q' ∧ heap q' = ∅ ∨ main q' = M_join ∧ blocked 2 65536 q' = true).
Proof.
  apply (shutdown_ends 2 65536 empty_world two_jobs); [vm_compute; reflexivity|vm_compute; reflexivity|
    apply Nat.leb_le; vm_compute; reflexivity|apply Nat.leb_le; vm_compute; reflexivity].
Defined.

(** It is the first case there; with a pipe that holds one byte the quitting program and its
    worker wait for each other. *)
Example two_jobs_quit :
  match run 2 65536 (Quit :: repeat WorkerStep 11 ++ repeat MainStep 6) (state_after two_jobs) with
  | Ok _ q' => bool_decide (main q' = M_closed) | Fault _ => false
  end = true.
Proof. vm_compute. reflexivity. Qed.
Example small_pipe_deadlock :
  match run 2 1 (two_jobs ++ [WorkerStep; Quit] ++ repeat WorkerStep 11 ++ repeat MainStep 6) (jobqueue_init empty_world) with
  | Ok _ q' => bool_decide (main q' = M_join) && bool_decide (worker q' = W_notify) | Fault _ => false
  end = true.
Proof. vm_compute. reflexivity. Qed.
