(* ===== verification/FmWindow.v ===== *)
(** * A window of the file manager (fm/src/browser.c, navigate.c, navbar.c, shortcuts.c,
      fileview.c)

    Reading and sorting a directory, the history, and what keys and clicks do in the
    view.  Directories answer from the history of calls, so that they may change at any
    time; the widgets' selection is part of the state and changes when the user selects. *)

From S2P Require Import Prelude.
From S2P Require Import CString.
From S2P Require Import CFloat.
From S2P Require Import DesktopEntry.
From S2P Require Import FmTrash.
From stdpp Require Import list sorting.
Open Scope Z_scope.

(** ** [strcasecmp] *)

Definition code (c : ascii) : Z := Z.of_nat (nat_of_ascii (lower c)).
Definition head_code (s : text) : Z := match s with [] => 0 | c :: _ => code c end.
Fixpoint strcasecmp (a b : text) : Z :=
  match a with
  | [] => - head_code b
  | c :: a' =>
    if code c =? head_code b then (if code c =? 0 then 0 else strcasecmp a' (tail b)) else code c - head_code b
  end.

(** ** Data *)

Inductive FmViewMode := FM_VIEW_ICON | FM_VIEW_LIST.
#[export] Instance view_mode_eq_dec : EqDecision FmViewMode.
Proof. solve_decision. Defined.
Inductive FmSortColumn := FM_SORT_NAME | FM_SORT_TYPE | FM_SORT_SIZE.

Record FmEntry := mkFmEntry { name : text; full_path : text; mode : Z; size : Z; is_dir : bool; is_hidden : bool }.
(** What [readdir] and [stat] tell: mode, size and whether it is a directory. *)
Record dirent := mkDirent { d_name : text; d_stat : option (Z * Z * bool) }.

Inductive FmClipOp := FM_CLIP_COPY | FM_CLIP_CUT.

(** What the window asks others to do. *)
Inductive fmcall :=
  | ReadDir (path : text) | Watch (path : text) | Submit (type : FmJobType) (srcs : list text) (dst : option text)
  | RenameFile (old new : text) | MakeDir (cwd name : text) | RestoreFile (name : text) | RemoveFile (path : text)
  | Run (dir path : text) (args : list text) | Launch (app : IsdeDesktopEntry) (files : list text)
  | NewWindow (path : text) | Terminal (dir : text) | Chmod (path : text) (mode : Z) | SetDefault (mime id : text).

Class Directories := {
  listing : list fmcall → text → option (list dirent);
  watchable : list fmcall → text → bool;
  exists_now : list fmcall → text → bool }.
(** The types of files ([MimeFile]) and the desktop entries of the application. *)
Class FileTypes := {
  mime_type_for_file : text → text;
  default_app : text → option text;
  find_and_load : text → option IsdeDesktopEntry;
  desktop_entries : list IsdeDesktopEntry }.

(** A cell of the history: from [calloc], a string, a string that was freed. *)
Inductive hist_cell := HNull | HStr (path : text) | HFreed.
Definition FM_HISTORY_MAX : nat := 64.

(** What a menu item does. *)
Inductive CtxAction :=
  | ctx_cut | ctx_copy | ctx_paste | ctx_rename | ctx_delete_action | ctx_new_folder | ctx_open_terminal | ctx_properties
  | ctx_restore | ctx_empty_trash | ctx_set_default.
#[export] Instance ctx_action_eq_dec : EqDecision CtxAction.
Proof. solve_decision. Defined.

(** The menu that is open: entries to open the file with (indices of the desktop entries),
    the file, custom actions (indices, and where they start), labels and actions. *)
Record Menu := mkMenu {
  ctx_in_trash : bool; ow_indices : list nat; ow_file_path : option text; ow_mime : option text; ctx_action_indices : list nat;
  ctx_action_offset : Z; dyn_labels : list text; dyn_actions : list (option CtxAction) }.

(** A pointer to a dialog: no dialog, one that is open, one that was destroyed without the
    window being told (its Escape key). *)
Inductive shell := NoShell | OpenShell | GoneShell.
#[export] Instance shell_eq_dec : EqDecision shell.
Proof. solve_decision. Defined.

(** [delete_ctx]: whether the items are to be deleted for good, and the question that is
    asked; [props_path], [set_default]: what the other dialogs are about. *)
Record Fm := mkFm {
  cwd : text; entries : list FmEntry; history : list hist_cell; hist_pos : Z; hist_count : Z;
  cwd_wd : option text; cwd_refresh_timer : bool;
  view_mode : FmViewMode; show_hidden : bool; double_click : bool; sort_col : FmSortColumn; sort_descending : bool;
  last_click_index : Z; last_click_time : Z; typeahead : option text; typeahead_match : Z; selected : list Z;
  ctx_menu : option Menu; ctx_target_index : Z; rename_shell : shell; rename_index : Z;
  delete_shell : shell; delete_ctx : bool * text; empty_trash_shell : shell; props_shell : shell; props_path : text;
  set_default_shell : shell; set_default : text * list nat; clipboard : option (FmClipOp * list text); clip_owner : bool;
  dnd_drag_paths : list text; dnd_drop_was_noop : bool; dnd_drop_highlight : Z; log : list fmcall }.
#[export] Instance fm_eta : RecEta Fm := Build_RecEta _ (fun m =>
  mkFm (cwd m) (entries m) (history m) (hist_pos m) (hist_count m) (cwd_wd m) (cwd_refresh_timer m)
    (view_mode m) (show_hidden m) (double_click m) (sort_col m) (sort_descending m)
    (last_click_index m) (last_click_time m) (typeahead m) (typeahead_match m) (selected m)
    (ctx_menu m) (ctx_target_index m) (rename_shell m) (rename_index m)
    (delete_shell m) (delete_ctx m) (empty_trash_shell m) (props_shell m) (props_path m)
    (set_default_shell m) (set_default m) (clipboard m) (clip_owner m)
    (dnd_drag_paths m) (dnd_drop_was_noop m) (dnd_drop_highlight m) (log m)).

Abbreviation fprog := (prog Fm) (only parsing).
Definition fm_call (c : fmcall) : fprog unit := modify (fun m => m <| log := c :: log m |>).

(** ** Comparisons *)

Definition entry_cmp (a b : FmEntry) : Z :=
  if negb (Bool.eqb (is_dir a) (is_dir b)) then of_bool (is_dir b) - of_bool (is_dir a)
  else strcasecmp (name a) (name b).

Definition S_IXUSR : Z := 64.
Definition entry_type_str (e : FmEntry) : text :=
  if is_dir e then str "Folder" else
  match (if bool_decide ("."%char ∈ name e) then rev (before "." (rev (name e))) else []) with
  | c :: s => c :: s
  | [] => if negb (Z.land (mode e) S_IXUSR =? 0) then str "Executable" else str "File"
  end.

Definition cmp_name_asc (a b : FmEntry) : Z := strcasecmp (name a) (name b).
Definition cmp_name_desc (a b : FmEntry) : Z := strcasecmp (name b) (name a).
Definition cmp_type_asc (a b : FmEntry) : Z :=
  let r := strcasecmp (entry_type_str a) (entry_type_str b) in
  if negb (r =? 0) then r else strcasecmp (name a) (name b).
Definition cmp_type_desc (a b : FmEntry) : Z :=
  let r := strcasecmp (entry_type_str b) (entry_type_str a) in
  if negb (r =? 0) then r else strcasecmp (name a) (name b).
Definition cmp_size_asc (a b : FmEntry) : Z :=
  if size a <? size b then -1 else if size b <? size a then 1 else strcasecmp (name a) (name b).
Definition cmp_size_desc (a b : FmEntry) : Z :=
  if size b <? size a then -1 else if size a <? size b then 1 else strcasecmp (name a) (name b).

Definition column_cmp (col : FmSortColumn) (descending : bool) : FmEntry → FmEntry → Z :=
  match col, descending with
  | FM_SORT_NAME, false => cmp_name_asc | FM_SORT_NAME, true => cmp_name_desc
  | FM_SORT_TYPE, false => cmp_type_asc | FM_SORT_TYPE, true => cmp_type_desc
  | FM_SORT_SIZE, false => cmp_size_asc | FM_SORT_SIZE, true => cmp_size_desc
  end.

(** ** Reading a directory *)

Definition dots (name : text) : bool := bool_decide (name = str "." ∨ name = str "..").
Definition hidden_name (name : text) : bool := match name with c :: _ => bool_decide (c = "."%char) | [] => false end.
Definition is_shown (show : bool) (d : dirent) : bool :=
  negb (dots (d_name d)) && (negb (hidden_name (d_name d)) || show).

Definition child_path (path n : text) : text :=
  if Nat.ltb 1 (length path) then path ++ str "/" ++ n else str "/" ++ n.
Definition read_entry (path : text) (d : dirent) : FmEntry :=
  let '(mode, size, dir) := default (0, 0, false) (d_stat d) in
  mkFmEntry (d_name d) (child_path path (d_name d)) mode size dir (hidden_name (d_name d)).

Section Window.
Context `{Qsort} `{Directories} `{FileTypes}.

Definition browser_read_dir (path : text) : fprog bool :=
  l ← gets log;
  fm_call (ReadDir path);;
  match listing l path with
  | None => mret false
  | Some ds =>
    modify (fun m => m <| entries := qsort entry_cmp (map (read_entry path) (List.filter (is_shown (show_hidden m)) ds)) |>);;
    mret true
  end.

(** ** The view *)

Definition sort_entries : fprog unit :=
  modify (fun m => m <| entries := qsort (column_cmp (sort_col m) (sort_descending m)) (entries m) |>).

Definition fileview_typeahead_close : fprog unit := modify (fun m => m <| typeahead := None |>).

(** What the widgets are given is not kept. *)
Definition fileview_populate : fprog unit :=
  fileview_typeahead_close;;
  v ← gets view_mode;
  when (bool_decide (v = FM_VIEW_LIST)) sort_entries.

Definition fileview_set_mode (v : FmViewMode) : fprog unit :=
  old ← gets view_mode;
  when (negb (bool_decide (old = v))) (modify (fun m => m <| view_mode := v |>);; fileview_populate).

Definition reorder_callback (column : Z) (descending : bool) : fprog unit :=
  match (if column =? 0 then Some FM_SORT_NAME else if column =? 1 then Some FM_SORT_TYPE
         else if column =? 2 then Some FM_SORT_SIZE else None) with
  | None => skip
  | Some col =>
    modify (fun m => m <| sort_col := col |> <| sort_descending := descending |>);;
    sort_entries;;
    fileview_populate
  end.

(** The widgets' first selected item, or -1; the target of a context menu comes first. *)
Definition fileview_get_selected : fprog Z :=
  m ← gets id;
  mret (if 0 <=? ctx_target_index m then ctx_target_index m else default (-1) (head (selected m))).
Definition fileview_get_selected_items : fprog (list Z) :=
  m ← gets id;
  mret (if 0 <=? ctx_target_index m then [ctx_target_index m] else selected m).

(** [fm->entries[i]] *)
Definition entry_at (i : Z) (m : Fm) : option FmEntry := if 0 <=? i then entries m !! Z.to_nat i else None.
Definition nentries (m : Fm) : Z := Z.of_nat (length (entries m)).

(** ** Navigation *)

Definition fm_dismiss_context : fprog unit := modify (fun m => m <| ctx_menu := None |>).

Definition cwd_watch_start (path : text) : fprog unit :=
  modify (fun m => m <| cwd_refresh_timer := false |> <| cwd_wd := None |>);;
  l ← gets log;
  fm_call (Watch path);;
  when (watchable l path) (modify (fun m => m <| cwd_wd := Some path |>)).

(** [free(fm->history[i])] for [k] cells from [i] on. *)
Fixpoint free_history (k : nat) (i : Z) : fprog unit :=
  match k with
  | O => skip
  | S k' =>
    m ← gets id;
    match (if 0 <=? i then history m !! Z.to_nat i else None) with
    | Some HNull => skip
    | Some (HStr _) => modify (fun m => m <| history := <[Z.to_nat i := HFreed]> (history m) |>)
    | Some HFreed | None => raise OutOfBounds
    end;;
    free_history k' (i + 1)
  end.

Definition set_history (i : Z) (p : text) : fprog unit :=
  m ← gets id;
  if (0 <=? i) && (i <? Z.of_nat (length (history m)))
  then modify (fun m => m <| history := <[Z.to_nat i := HStr p]> (history m) |>)
  else raise OutOfBounds.

(** [strdup(fm->history[i])] *)
Definition get_history (i : Z) : fprog text :=
  m ← gets id;
  match (if 0 <=? i then history m !! Z.to_nat i else None) with
  | Some (HStr p) => mret p
  | _ => raise OutOfBounds
  end.

Definition fm_navigate (path : text) : fprog unit :=
  fm_dismiss_context;;
  ok ← browser_read_dir path;
  if negb (ok : bool) then skip else
  modify (fun m => m <| cwd := path |> <| hist_pos := hist_pos m + 1 |>);;
  pos ← gets hist_pos;
  count ← gets hist_count;
  when (pos <? Z.of_nat FM_HISTORY_MAX) (
    free_history (Z.to_nat (count - pos)) pos;;
    set_history pos path;;
    modify (fun m => m <| hist_count := pos + 1 |>));;
  cwd_watch_start path;;
  fileview_populate.

Definition fm_refresh : fprog unit :=
  fm_dismiss_context;;
  path ← gets cwd;
  browser_read_dir path;;
  fileview_populate.

(** To a page of the history. *)
Definition show_page (pos : Z) : fprog unit :=
  modify (fun m => m <| hist_pos := pos |>);;
  p ← get_history pos;
  modify (fun m => m <| cwd := p |>);;
  fm_refresh.

(** The keys. *)
Definition act_go_back : fprog unit :=
  pos ← gets hist_pos; if pos <=? 0 then skip else show_page (pos - 1).
Definition act_go_fwd : fprog unit :=
  pos ← gets hist_pos; count ← gets hist_count; if count - 1 <=? pos then skip else show_page (pos + 1).

(** The buttons. *)
Definition navigate_history (pos : Z) : fprog unit :=
  count ← gets hist_count; if (pos <? 0) || (count <=? pos) then skip else show_page pos.
Definition back_cb : fprog unit := pos ← gets hist_pos; when (0 <? pos) (navigate_history (pos - 1)).
Definition fwd_cb : fprog unit :=
  pos ← gets hist_pos; count ← gets hist_count; when (pos <? count - 1) (navigate_history (pos + 1)).

Definition parent_dir (path : text) : text :=
  match strchr "/" (rev path) with Some (_ :: c :: r) => rev (c :: r) | _ => str "/" end.
Definition act_go_up : fprog unit := path ← gets cwd; fm_navigate (parent_dir path).
Definition up_cb : fprog unit := path ← gets cwd; fm_navigate (parent_dir path).

(** ** Opening *)

Definition has_id (id : text) (e : IsdeDesktopEntry) : bool := bool_decide (desktop_id e = id).
Definition candidate (mime : text) (e : IsdeDesktopEntry) : bool :=
  negb (e_hidden e || e_no_display e) && isde_desktop_handles_mime e mime.

(** The application a file of the type is opened with. *)
Definition app_for (mime : text) : option IsdeDesktopEntry :=
  let explicit :=
    match default_app mime with
    | None => None
    | Some id => match List.find (has_id id) desktop_entries with Some e => Some e | None => find_and_load id end
    end in
  match explicit with Some e => Some e | None => List.find (candidate mime) desktop_entries end.

Definition browser_open_entry (index : Z) : fprog unit :=
  m ← gets id;
  if (index <? 0) || (nentries m <=? index) then skip else
  match entry_at index m with
  | None => raise OutOfBounds
  | Some e =>
    if is_dir e then fm_navigate (full_path e)
    else if negb (Z.land (mode e) S_IXUSR =? 0) then fm_call (Run (cwd m) (full_path e) [name e])
    else
      let mime := mime_type_for_file (name e) in
      if bool_decide (mime = str "application/octet-stream") then skip else
      match app_for mime with Some de => fm_call (Launch de [full_path e]) | None => skip end
  end.

Definition act_open : fprog unit :=
  sel ← fileview_get_selected;
  m ← gets id;
  when ((0 <=? sel) && (sel <? nentries m)) (browser_open_entry sel).

(** [limit]: [isde_config_double_click_ms]; times are in milliseconds. *)
Definition is_double_click (limit now index : Z) : fprog bool :=
  m ← gets id;
  modify (fun m => m <| last_click_index := index |> <| last_click_time := now |>);;
  mret ((index =? last_click_index m) && (now - last_click_time m <? limit)).

(** The views call back: from the keyboard, from a button that goes up, or down. *)
Inductive press := KeyPress | ButtonUp | ButtonDown.
Definition item_callback (from : press) (limit now index : Z) : fprog unit :=
  match from with
  | KeyPress => browser_open_entry index
  | ButtonUp => skip
  | ButtonDown =>
    dc ← gets double_click;
    if (dc : bool) then
      dbl ← is_double_click limit now index;
      when dbl (browser_open_entry index)
    else browser_open_entry index
  end.
Definition iconview_callback (from : press) (limit now index : Z) : fprog unit :=
  fm_dismiss_context;; item_callback from limit now index.
Definition listview_callback (from : press) (limit now row : Z) : fprog unit :=
  fm_dismiss_context;;
  m ← gets id;
  if (row <? 0) || (nentries m <=? row) then skip else item_callback from limit now row.

Definition act_toggle_hidden : fprog unit :=
  modify (fun m => m <| show_hidden := negb (show_hidden m) |>);; fm_refresh.
Definition act_toggle_view : fprog unit :=
  v ← gets view_mode;
  fileview_set_mode (if bool_decide (v = FM_VIEW_ICON) then FM_VIEW_LIST else FM_VIEW_ICON).

(** The settings were changed: [general] is the section, when the file has it. *)
Definition fm_reload_config (general : option (bool * bool)) : fprog unit :=
  match general with
  | Some (dbl, show) => modify (fun m => m <| double_click := dbl |> <| show_hidden := show |>)
  | None => skip
  end;;
  fm_refresh.

Definition cwd_watch_cb : fprog unit := modify (fun m => m <| cwd_refresh_timer := true |>).
Definition cwd_refresh_timer_cb : fprog unit :=
  modify (fun m => m <| cwd_refresh_timer := false |>);; fm_refresh.

(** ** Type-ahead search *)

(** [strncasecmp(name, text, strlen(text)) == 0] *)
Definition starts_with (s n : text) : bool := bool_decide (map lower (take (length s) n) = map lower s).

Definition search_index (start step i n : Z) : Z := Z.rem (Z.rem (start + i * step) n + n) n.

Fixpoint search_loop (k : nat) (s : text) (start step i : Z) : fprog unit :=
  match k with
  | O => skip
  | S k' =>
    m ← gets id;
    let idx := search_index start step i (nentries m) in
    match entry_at idx m with
    | None => raise OutOfBounds
    | Some e =>
      if starts_with s (name e) then modify (fun m => m <| typeahead_match := idx |> <| selected := [idx] |>)
      else search_loop k' s start step (i + 1)
    end
  end.

Definition typeahead_search (start step : Z) : fprog unit :=
  m ← gets id;
  let s := default [] (typeahead m) in
  if (Nat.eqb (length s) 0) || (nentries m <=? 0) then skip else search_loop (length (entries m)) s start step 0.

(** A key with its code point, whether Control, Alt or Super is down, and its text. *)
Definition typeahead_key_handler (unicode : Z) (modified : bool) (s : text) : fprog unit :=
  m ← gets id;
  if bool_decide (is_Some (typeahead m)) then skip else
  if (unicode <=? 32) || (unicode =? 127) then skip else
  if modified then skip else
  modify (fun m => m <| typeahead := Some s |> <| typeahead_match := -1 |>);;
  typeahead_search 0 1.

Definition fileview_typeahead_update : fprog unit :=
  k ← gets typeahead_match; typeahead_search (if k <? 0 then 0 else k) 1.
Definition fileview_typeahead_step (step : Z) : fprog unit :=
  k ← gets typeahead_match; typeahead_search (k + step) step.
Definition act_typeahead_open : fprog unit :=
  k ← gets typeahead_match;
  fileview_typeahead_close;;
  m ← gets id;
  when ((0 <=? k) && (k <? nentries m)) (browser_open_entry k).

(** ** A new window *)

(** [home]: [getenv("HOME")]. *)
Definition start_dir (home : option text) (path : text) : fprog text :=
  ok ← browser_read_dir path;
  if (ok : bool) then mret path else
  let h := match home with Some (c :: s) => c :: s | _ => str "/" end in
  ok2 ← browser_read_dir h;
  let start := if (ok2 : bool) then h else str "/" in
  browser_read_dir start;;
  mret start.

Definition fm_window_new (home : option text) (path : text) : fprog unit :=
  start ← start_dir home path;
  modify (fun m => m <| cwd := start |>);;
  set_history 0 start;;
  modify (fun m => m <| hist_pos := 0 |> <| hist_count := 1 |>);;
  cwd_watch_start start;;
  fileview_populate.

(** [calloc], with the settings and what [fileview_init] and [dnd_init] set. *)
Definition fresh_window (dbl show : bool) (past : list fmcall) : Fm :=
  mkFm [] [] (replicate FM_HISTORY_MAX HNull) 0 0 None false FM_VIEW_ICON show dbl FM_SORT_NAME true
    (-1) 0 None (-1) [] None (-1) NoShell (-1) NoShell (false, []) NoShell NoShell []
    NoShell ([], []) None false [] false (-1) past.
End Window.
