(* ===== verification/FmActions.v ===== *)
(** * What a window of the file manager does with files (fm/src/clipboard.c, dialogs.c,
      context.c, dnd.c, actions.c)

    Clipboard, dialogs, the context menu, drag and drop, and the events of a window. *)

From S2P Require Import Prelude.
From S2P Require Import CString.
From S2P Require Import CFloat.
From S2P Require Import DesktopEntry.
From S2P Require Import FmFiles.
From S2P Require Import FmTrash.
From S2P Require Import FmWindow.
From stdpp Require Import list.
Open Scope Z_scope.

(** A custom action: a script, and when it is offered. *)
Record FmAction := mkFmAction {
  script_path : text; action_name : text; mime_types : option (list text); file_patterns : option (list text) }.
(** The actions that were found, and [fnmatch(pattern, name, 0) == 0]. *)
Class Scripts := { actions : list FmAction; fnmatch : text → text → bool }.

Definition CR : ascii := "013"%char.
Definition FILE_SCHEME : text := str "file://".

(** [strtok_r] with the characters of [delim]. *)
Fixpoint strtok (delim : ascii → bool) (cur s : text) : list text :=
  match s with
  | [] => match cur with [] => [] | _ => [cur] end
  | c :: s' =>
    if delim c then match cur with [] => strtok delim [] s' | _ => cur :: strtok delim [] s' end
    else strtok delim (cur ++ [c]) s'
  end.

(** ** URIs *)

Definition uri_line (path : text) : text := FILE_SCHEME ++ path ++ [CR; LF].
Definition uri_data (paths : list text) : text := concat (map uri_line paths).
Fixpoint join_lines (ls : list text) : text :=
  match ls with [] => [] | [l] => l | l :: ls' => l ++ LF :: join_lines ls' end.
Definition gnome_data (op : FmClipOp) (paths : list text) : text :=
  match op with FM_CLIP_CUT => str "cut" | FM_CLIP_COPY => str "copy" end ++ [LF] ++
  join_lines (map (fun p => FILE_SCHEME ++ p) paths).

Definition strip_scheme (uri : text) : text := if has_prefix FILE_SCHEME uri then drop 7 uri else uri.
Definition is_absolute (path : text) : bool := match path with c :: _ => bool_decide (c = "/"%char) | [] => false end.
Definition line_end (c : ascii) : bool := bool_decide (c = CR ∨ c = LF).
Definition uri_paths (data : text) : list text :=
  List.filter is_absolute (map strip_scheme (strtok line_end [] data)).

(** The operation and what follows it. *)
Definition gnome_op (data : text) : FmClipOp * text :=
  if has_prefix (str "cut" ++ [LF]) data then (FM_CLIP_CUT, drop 4 data)
  else if has_prefix (str "copy" ++ [LF]) data then (FM_CLIP_COPY, drop 5 data)
  else (FM_CLIP_COPY, data).

Section Actions.
Context `{Qsort} `{Directories} `{FileTypes} `{Scripts} `{Homes}.

(** The paths of those indices that are in range. *)
Definition paths_at (indices : list Z) (m : Fm) : list text := omap (fun i => full_path <$> entry_at i m) indices.

(** ** Clipboard *)

Definition clip_set_from_selection (op : FmClipOp) : fprog unit :=
  indices ← fileview_get_selected_items;
  m ← gets id;
  match paths_at indices m with
  | [] => modify (fun m => m <| clipboard := None |>)
  | paths => modify (fun m => m <| clipboard := Some (op, paths) |> <| clip_owner := true |>)
  end.
Definition clipboard_copy : fprog unit := clip_set_from_selection FM_CLIP_COPY.
Definition clipboard_cut : fprog unit := clip_set_from_selection FM_CLIP_CUT.

(** What another client gets that asks for one of the two targets. *)
Definition convert_selection (gnome : bool) (m : Fm) : option text :=
  match clipboard m with
  | None => None
  | Some (op, paths) => Some (if gnome then gnome_data op paths else uri_data paths)
  end.
Definition lose_selection : fprog unit := modify (fun m => m <| clip_owner := false |>).

Definition submit_paste_job (paths : list text) (op : FmClipOp) : fprog unit :=
  m ← gets id;
  match paths with
  | [] => skip
  | _ => fm_call (Submit (match op with FM_CLIP_CUT => FM_JOB_MOVE | FM_CLIP_COPY => FM_JOB_COPY end) paths (Some (cwd m)))
  end.

(** The data has arrived: a list with an operation, or a list of URIs. *)
Definition receive_paste (gnome : bool) (value : text) : fprog unit :=
  let '(op, data) := if gnome then gnome_op (cstr value) else (FM_CLIP_COPY, cstr value) in
  submit_paste_job (uri_paths data) op.

(** Without data of its own the window asks the owner of the clipboard. *)
Definition clipboard_paste : fprog bool :=
  m ← gets id;
  match clipboard m with
  | Some (op, paths) => if clip_owner m then submit_paste_job paths op;; mret false else mret true
  | None => mret true
  end.

(** ** Dialogs *)

Definition isde_dialog_dismiss (s : shell) : fprog unit :=
  match s with GoneShell => raise OutOfBounds | _ => skip end.

Definition show_rename_dialog : fprog unit :=
  sel ← fileview_get_selected;
  m ← gets id;
  if (sel <? 0) || (nentries m <=? sel) then skip else
  modify (fun m => m <| rename_index := sel |>);;
  isde_dialog_dismiss (rename_shell m);;
  modify (fun m => m <| rename_shell := OpenShell |>).

(** The new name, or nothing when it was cancelled. *)
Definition rename_result_cb (new : option text) : fprog unit :=
  modify (fun m => m <| rename_shell := NoShell |>);;
  m ← gets id;
  match new, entry_at (rename_index m) m with
  | Some (c :: s), Some e => fm_call (RenameFile (full_path e) (c :: s));; fm_refresh
  | _, _ => skip
  end.

Definition trash_files : text := get_trash_dir ++ str "/files".
Definition in_trash (m : Fm) : bool := has_prefix trash_files (cwd m).

Definition delete_question (permanent : bool) (indices : list Z) (m : Fm) : text :=
  trunc 256 (match indices with
  | [i] =>
    let n := match entry_at i m with Some e => name e | None => str "selected item" end in
    if permanent then str "Permanently delete " ++ ["034"%char] ++ n ++ ["034"%char] ++ str "?"
    else str "Move " ++ ["034"%char] ++ n ++ ["034"%char] ++ str " to Trash?"
  | _ =>
    let n := digits 10 (Z.of_nat (length indices)) in
    if permanent then str "Permanently delete " ++ n ++ str " items?" else str "Move " ++ n ++ str " items to Trash?"
  end).

Definition fm_delete_confirm (permanent : bool) : fprog unit :=
  indices ← fileview_get_selected_items;
  m ← gets id;
  match indices with
  | [] => skip
  | _ =>
    let permanent := in_trash m || permanent in
    isde_dialog_dismiss (delete_shell m);;
    modify (fun m => m <| delete_shell := OpenShell |> <| delete_ctx := (permanent, delete_question permanent indices m) |>)
  end.

Definition delete_result_cb (ok : bool) : fprog unit :=
  modify (fun m => m <| delete_shell := NoShell |>);;
  if negb ok then skip else
  indices ← fileview_get_selected_items;
  m ← gets id;
  match paths_at indices m with
  | [] => skip
  | paths => fm_call (Submit (if fst (delete_ctx m) then FM_JOB_DELETE else FM_JOB_TRASH) paths None)
  end.

Definition open_empty_trash : fprog unit :=
  m ← gets id; isde_dialog_dismiss (empty_trash_shell m);; modify (fun m => m <| empty_trash_shell := OpenShell |>).
Definition empty_trash_result_cb (ok : bool) : fprog unit :=
  modify (fun m => m <| empty_trash_shell := NoShell |>);;
  when ok (fm_call (Submit FM_JOB_EMPTY_TRASH [] None)).

Definition show_properties_dialog : fprog unit :=
  sel ← fileview_get_selected;
  m ← gets id;
  if (sel <? 0) || (nentries m <=? sel) then skip else
  match entry_at sel m with
  | None => raise OutOfBounds
  | Some e =>
    if negb (exists_now (log m) (full_path e)) then skip else
    isde_dialog_dismiss (props_shell m);;
    modify (fun m => m <| props_path := full_path e |> <| props_shell := OpenShell |>)
  end.
(** The nine toggles, from the owner's read bit on. *)
Fixpoint mode_bits (bit : Z) (toggles : list bool) : Z :=
  match toggles with [] => 0 | b :: ts => Z.lor (if b then bit else 0) (mode_bits (bit / 2) ts) end.
Definition props_apply_cb (toggles : list bool) : fprog unit :=
  m ← gets id; fm_call (Chmod (props_path m) (mode_bits 256 (take 9 toggles))).
Definition props_close_cb : fprog unit := modify (fun m => m <| props_shell := NoShell |>).

Definition show_set_default : fprog unit :=
  m ← gets id;
  match ctx_menu m with
  | Some menu =>
    match ow_mime menu, ow_indices menu with
    | Some mime, i :: is_ =>
      isde_dialog_dismiss (set_default_shell m);;
      modify (fun m => m <| set_default := (mime, i :: is_) |> <| set_default_shell := OpenShell |>)
    | _, _ => skip
    end
  | None => skip
  end.
(** The row that is highlighted, if any. *)
Definition set_default_ok_cb (row : Z) : fprog unit :=
  m ← gets id;
  let '(mime, indices) := set_default m in
  match (if 0 <=? row then indices !! Z.to_nat row else None) with
  | Some i =>
    match desktop_entries !! i with
    | Some e => fm_call (SetDefault mime (desktop_id e))
    | None => raise OutOfBounds
    end
  | None => skip
  end;;
  modify (fun m => m <| set_default_shell := NoShell |>).
Definition set_default_cancel_cb : fprog unit := modify (fun m => m <| set_default_shell := NoShell |>).

(** ** The context menu *)

Definition MAX_OPEN_WITH : nat := 16.
Definition MAX_CTX_ACTIONS : nat := 32.

Definition ow_entry_eligible (mime : text) (e : IsdeDesktopEntry) : bool :=
  negb (e_hidden e || e_no_display e) && isde_desktop_handles_mime e mime && bool_decide (is_Some (e_name e)).

Definition numbered_entries : list (nat * IsdeDesktopEntry) := zip (seq 0 (length desktop_entries)) desktop_entries.
Definition default_entry (mime : text) : option nat :=
  match default_app mime with
  | None => None
  | Some id => fst <$> List.find (fun '(i, e) => has_id id e && ow_entry_eligible mime e) numbered_entries
  end.
Definition open_with_entries (mime : text) : list nat :=
  let d := default_entry mime in
  take MAX_OPEN_WITH
    (match d with Some i => [i] | None => [] end ++
     map fst (List.filter (fun '(i, e) => negb (bool_decide (d = Some i)) && ow_entry_eligible mime e) numbered_entries)).
Definition open_with_label (mime : text) (i : nat) : text :=
  let n := default [] (desktop_entries !! i ≫= e_name) in
  trunc 256 (str "Open with " ++ n ++ if bool_decide (default_entry mime = Some i) then str " (default)" else []).

(** The applications for the file at hand, with its path and type. *)
Definition ctx_build_open_with : fprog (list nat * option (text * text)) :=
  sel ← fileview_get_selected;
  m ← gets id;
  match entry_at sel m with
  | None => mret ([], None)
  | Some e =>
    if is_dir e then mret ([], None) else
    let mime := mime_type_for_file (name e) in
    if bool_decide (mime = str "application/octet-stream") then mret ([], None) else
    mret (open_with_entries mime, Some (full_path e, mime))
  end.

(** Does an action with a filter match the entry? *)
Definition entry_matches (a : FmAction) (e : FmEntry) : bool :=
  match mime_types a with Some ts => existsb (fun t => bool_decide (mime_type_for_file (name e) = t)) ts | None => false end ||
  match file_patterns a with Some ps => existsb (fun p => fnmatch p (name e)) ps | None => false end.

(** [None] is an access out of bounds.  The entries are looked at until one does not match. *)
Fixpoint all_match (a : FmAction) (es : list (option FmEntry)) : option bool :=
  match es with
  | [] => Some true
  | None :: _ => None
  | Some e :: es' => if entry_matches a e then all_match a es' else Some false
  end.

Fixpoint match_from (i : nat) (acts : list FmAction) (es : list (option FmEntry)) (max : nat) : option (list nat) :=
  match acts, max with
  | [], _ | _, O => Some []
  | a :: acts', S max' =>
    match (match mime_types a, file_patterns a with
           | None, None => Some true
           | _, _ => match es with [] => Some false | _ => all_match a es end
           end) with
    | None => None
    | Some true => cons i <$> match_from (S i) acts' es max'
    | Some false => match_from (S i) acts' es max
    end
  end.
Definition actions_match (es : list (option FmEntry)) (max : nat) : option (list nat) := match_from 0 actions es max.

Definition ctx_build_actions : fprog (list nat) :=
  indices ← fileview_get_selected_items;
  m ← gets id;
  match actions_match (map (fun i => entry_at i m) indices) MAX_CTX_ACTIONS with
  | Some l => mret l
  | None => raise OutOfBounds
  end.

Definition base_items : list (text * option CtxAction) :=
  [(str "Cut", Some ctx_cut); (str "Copy", Some ctx_copy); (str "Paste", Some ctx_paste); (str "---", None);
   (str "Rename", Some ctx_rename); (str "Delete", Some ctx_delete_action); (str "---", None);
   (str "New Folder", Some ctx_new_folder); (str "Open Terminal Here", Some ctx_open_terminal); (str "---", None);
   (str "Properties", Some ctx_properties)].
Definition trash_items : list (text * option CtxAction) :=
  [(str "Restore", Some ctx_restore); (str "Delete Permanently", Some ctx_delete_action); (str "---", None);
   (str "Empty Trash", Some ctx_empty_trash)].

Definition script_name (i : nat) : text := match actions !! i with Some a => action_name a | None => [] end.

(** Labels and actions, side by side; what opens the file and what runs a script is found
    by its place. *)
Definition menu_items (mime : text) (ow acts : list nat) : list (text * option CtxAction) :=
  map (fun i => (open_with_label mime i, None)) ow ++
  (match ow with [] => [] | _ => [(str "Set Default Application...", Some ctx_set_default); (str "---", None)] end) ++
  map (fun i => (script_name i, None)) acts ++
  (match acts with [] => [] | _ => [(str "---", None)] end) ++ base_items.

Definition ctx_build_menu (ow : list nat) (file : option (text * text)) (acts : list nat) : Menu :=
  let items := menu_items (default [] (snd <$> file)) ow acts in
  mkMenu false ow (fst <$> file) (snd <$> file) acts
    (Z.of_nat (length ow + match ow with [] => 0 | _ => 2 end)) (map fst items) (map snd items).

(** The right button, on the item [hit] (-1 for none). *)
Definition ctx_handler (hit : Z) : fprog unit :=
  fm_dismiss_context;;
  modify (fun m => m <| ctx_target_index := hit |>);;
  m ← gets id;
  if in_trash m then modify (fun m => m <| ctx_menu := Some (mkMenu true [] None None [] 0 (map fst trash_items) (map snd trash_items)) |>)
  else
    open ← ctx_build_open_with;
    let '(ow, file) := open in
    acts ← ctx_build_actions;
    modify (fun m => m <| ctx_menu := Some (ctx_build_menu ow file acts) |>).

Definition ctx_run_action (i : nat) : fprog unit :=
  match actions !! i with
  | None => skip
  | Some a =>
    indices ← fileview_get_selected_items;
    m ← gets id;
    match indices with
    | [] => skip
    | _ =>
      match mapM (fun i => full_path <$> entry_at i m) indices with
      | Some paths => fm_call (Run [] (script_path a) (script_path a :: paths))
      | None => raise OutOfBounds
      end
    end
  end.

Fixpoint restore_all (names : list text) : fprog unit :=
  match names with [] => skip | n :: ns => fm_call (RestoreFile n);; restore_all ns end.

Definition run_item (a : CtxAction) : fprog unit :=
  match a with
  | ctx_cut => clipboard_cut
  | ctx_copy => clipboard_copy
  | ctx_paste => clipboard_paste;; skip
  | ctx_rename => show_rename_dialog
  | ctx_delete_action => fm_delete_confirm false
  | ctx_new_folder => dir ← gets cwd; fm_call (MakeDir dir (str "New Folder"));; fm_refresh
  | ctx_open_terminal => dir ← gets cwd; fm_call (Terminal dir)
  | ctx_properties => show_properties_dialog
  | ctx_restore =>
    indices ← fileview_get_selected_items;
    m ← gets id;
    restore_all (omap (fun i => name <$> entry_at i m) indices);;
    match indices with [] => skip | _ => fm_refresh end
  | ctx_empty_trash => open_empty_trash
  | ctx_set_default => show_set_default
  end.

(** What the item at a place of the menu is. *)
Inductive chosen := OpenWith (entry : nat) | RunScript (action : nat) | RunItem (a : CtxAction) | NoItem.
Definition item_at (menu : Menu) (idx : Z) : chosen :=
  if idx <? 0 then NoItem else
  let acts := match dyn_actions menu !! Z.to_nat idx with Some (Some a) => RunItem a | _ => NoItem end in
  if ctx_in_trash menu then acts else
  if idx <? Z.of_nat (length (ow_indices menu)) then
    match ow_indices menu !! Z.to_nat idx with Some i => OpenWith i | None => NoItem end
  else if (ctx_action_offset menu <=? idx) && (idx <? ctx_action_offset menu + Z.of_nat (length (ctx_action_indices menu))) then
    match ctx_action_indices menu !! Z.to_nat (idx - ctx_action_offset menu) with Some i => RunScript i | None => NoItem end
  else acts.

Definition ctx_select_cb (idx : Z) : fprog unit :=
  m ← gets id;
  match ctx_menu m with
  | None => skip
  | Some menu =>
    match item_at menu idx with
    | OpenWith i =>
      match desktop_entries !! i, ow_file_path menu with
      | Some e, Some file => fm_call (Launch e [file])
      | None, _ => raise OutOfBounds
      | _, None => skip
      end
    | RunScript i => ctx_run_action i
    | RunItem a => run_item a
    | NoItem => skip
    end
  end;;
  modify (fun m => m <| ctx_target_index := -1 |>).

(** ** Drag and drop *)

Definition start_drag : fprog unit :=
  modify (fun m => m <| dnd_drag_paths := [] |> <| dnd_drop_was_noop := false |>);;
  indices ← fileview_get_selected_items;
  modify (fun m => m <| dnd_drag_paths := paths_at indices m |>).

Definition drag_convert (m : Fm) : option text :=
  match dnd_drag_paths m with [] => None | paths => Some (uri_data paths) end.

Fixpoint remove_all (paths : list text) : fprog unit :=
  match paths with
  | [] => skip
  | p :: ps =>
    m ← gets id;
    when (exists_now (log m) p) (fm_call (RemoveFile p));;
    remove_all ps
  end.

(** The toolkit says whether the drop was accepted, and as a move. *)
Definition drag_finished (moved : bool) (accepted : bool) : fprog unit :=
  m ← gets id;
  when (accepted && moved && negb (dnd_drop_was_noop m) && negb (Nat.eqb (length (dnd_drag_paths m)) 0))
    (remove_all (dnd_drag_paths m);; fm_refresh);;
  modify (fun m => m <| dnd_drag_paths := [] |>).

(** The lines of the data that are not comments, each up to a NUL. *)
Fixpoint data_lines (cur s : text) : list text :=
  match s with
  | [] => match cur with [] => [] | _ => [cur] end
  | c :: s' => if bool_decide (c = LF) then cur :: data_lines [] s' else data_lines (cur ++ [c]) s'
  end.
Definition chop_cr (l : text) : text := match rev l with c :: r => if bool_decide (c = CR) then rev r else l | [] => l end.
Definition extract_uris (data : text) : list text :=
  map cstr (List.filter (fun l => match l with [] => false | c :: _ => negb (bool_decide (c = "#"%char)) end) (map chop_cr (data_lines [] data))).

Definition src_dir (path : text) : text := match strchr "/" (rev path) with Some (_ :: r) => rev r | _ => [] end.
Definition collect_paths (uris : list text) (target_dir : text) (moved : bool) : list text :=
  List.filter (fun p => is_absolute p && negb (bool_decide (src_dir p = target_dir) && moved)) (map strip_scheme uris).

Definition set_drop_highlight (i : Z) : fprog unit := modify (fun m => m <| dnd_drop_highlight := i |>).
Definition drag_motion_cb (hit : Z) : fprog unit :=
  m ← gets id;
  set_drop_highlight (match entry_at hit m with Some e => if is_dir e then hit else -1 | None => -1 end).
Definition drag_leave_cb : fprog unit := set_drop_highlight (-1).

Definition drop_cb (uris : list text) (moved : bool) : fprog unit :=
  match uris with
  | [] => skip
  | _ =>
    m ← gets id;
    let target_dir := match entry_at (dnd_drop_highlight m) m with
                      | Some e => if is_dir e then full_path e else cwd m | None => cwd m end in
    set_drop_highlight (-1);;
    modify (fun m => m <| dnd_drop_was_noop := true |>);;
    match collect_paths uris target_dir moved with
    | [] => skip
    | paths => modify (fun m => m <| dnd_drop_was_noop := false |>);; fm_call (Submit FM_JOB_COPY paths (Some target_dir))
    end
  end.

(** ** The events of a window *)

Inductive fm_event :=
  | Navigate (path : text) | GoUp | GoBack | GoForward | BackButton | ForwardButton | UpButton
  | Refresh | OpenSelected | ToggleHidden | ToggleView | SetView (v : FmViewMode) | Reorder (column : Z) (descending : bool)
  | SettingsChanged (general : option (bool * bool)) | DirChanged | RefreshTimer
  | Select (items : list Z) | Activate (from : press) (limit now index : Z)
  | TypeKey (unicode : Z) (modified : bool) (s : text) | TypeText (s : text) | TypeStep (step : Z) | TypeCancel | TypeOpen
  | Copy | Cut | Paste | PasteData (gnome : bool) (value : text) | LoseClipboard
  | Delete | DeletePermanently | RenameKey | RightClick (hit : Z) | MenuItem (idx : Z)
  | RenameResult (new : option text) | DeleteResult (ok : bool) | EmptyTrashResult (ok : bool)
  | PropsApply (toggles : list bool) | PropsClose | DefaultResult (row : option Z)
  | EscapeRename | EscapeDelete | EscapeEmptyTrash | EscapeProps | EscapeDefault
  | StartDrag | DragMotion (hit : Z) | DragLeave | DropUris (uris : list text) (moved : bool) | DropData (data : text) (moved : bool)
  | DragFinished (moved accepted : bool) | OpenWindow.

Definition is_open (s : shell) : bool := bool_decide (s = OpenShell).

Definition handle (e : fm_event) : fprog unit :=
  m ← gets id;
  match e with
  | Navigate path => fm_navigate path
  | GoUp => act_go_up | GoBack => act_go_back | GoForward => act_go_fwd
  | BackButton => back_cb | ForwardButton => fwd_cb | UpButton => up_cb
  | Refresh => fm_refresh | OpenSelected => act_open
  | ToggleHidden => act_toggle_hidden | ToggleView => act_toggle_view | SetView v => fileview_set_mode v
  | Reorder column descending => reorder_callback column descending
  | SettingsChanged general => fm_reload_config general
  | DirChanged => when (bool_decide (is_Some (cwd_wd m))) cwd_watch_cb
  | RefreshTimer => when (cwd_refresh_timer m) cwd_refresh_timer_cb
  | Select items => modify (fun m => m <| selected := items |>)
  | Activate from limit now index =>
    match view_mode m with
    | FM_VIEW_ICON => iconview_callback from limit now index
    | FM_VIEW_LIST => listview_callback from limit now index
    end
  | TypeKey unicode modified s => typeahead_key_handler unicode modified s
  | TypeText s =>
    when (bool_decide (is_Some (typeahead m))) (modify (fun m => m <| typeahead := Some s |>);; fileview_typeahead_update)
  | TypeStep step => when (bool_decide (is_Some (typeahead m))) (fileview_typeahead_step step)
  | TypeCancel => fileview_typeahead_close
  | TypeOpen => when (bool_decide (is_Some (typeahead m))) act_typeahead_open
  | Copy => clipboard_copy | Cut => clipboard_cut | Paste => clipboard_paste;; skip
  | PasteData gnome value => receive_paste gnome value
  | LoseClipboard => lose_selection
  | Delete => fm_delete_confirm false | DeletePermanently => fm_delete_confirm true | RenameKey => show_rename_dialog
  | RightClick hit => ctx_handler hit
  | MenuItem idx => when (bool_decide (is_Some (ctx_menu m))) (ctx_select_cb idx)
  | RenameResult new => when (is_open (rename_shell m)) (rename_result_cb new)
  | DeleteResult ok => when (is_open (delete_shell m)) (delete_result_cb ok)
  | EmptyTrashResult ok => when (is_open (empty_trash_shell m)) (empty_trash_result_cb ok)
  | PropsApply toggles => when (is_open (props_shell m)) (props_apply_cb toggles)
  | PropsClose => when (is_open (props_shell m)) props_close_cb
  | DefaultResult row =>
    when (is_open (set_default_shell m)) (match row with Some r => set_default_ok_cb r | None => set_default_cancel_cb end)
  | EscapeRename => when (is_open (rename_shell m)) (modify (fun m => m <| rename_shell := GoneShell |>))
  | EscapeDelete => when (is_open (delete_shell m)) (modify (fun m => m <| delete_shell := GoneShell |>))
  | EscapeEmptyTrash => when (is_open (empty_trash_shell m)) (modify (fun m => m <| empty_trash_shell := GoneShell |>))
  | EscapeProps => when (is_open (props_shell m)) (modify (fun m => m <| props_shell := GoneShell |>))
  | EscapeDefault => when (is_open (set_default_shell m)) (modify (fun m => m <| set_default_shell := GoneShell |>))
  | StartDrag => start_drag
  | DragMotion hit => drag_motion_cb hit | DragLeave => drag_leave_cb
  | DropUris uris moved => drop_cb uris moved
  | DropData data moved => drop_cb (extract_uris data) moved
  | DragFinished moved accepted => drag_finished moved accepted
  | OpenWindow => fm_call (NewWindow (cwd m))
  end.

Fixpoint handle_all (es : list fm_event) : fprog unit :=
  match es with [] => skip | e :: es' => handle e;; handle_all es' end.
End Actions.
