(* ===== verification/FmHistory.v ===== *)
(** * The history of a window of the file manager *)

From stdpp Require Import list.
From S2P Require Import Prelude.
From S2P Require Import CString.
From S2P Require Import FmTrash.
From S2P Require Import FmWindow.
Open Scope Z_scope.

(** ** What a history is: the pages that were visited, and which of them is shown *)

Record pages := mkPages { visited : list text; shown_page : nat }.

(** A new page takes the place of what was ahead. *)
Definition visit (p : text) (h : pages) : pages :=
  mkPages (take (S (shown_page h)) (visited h) ++ [p]) (S (shown_page h)).
Definition go_back (h : pages) : pages := mkPages (visited h) (pred (shown_page h)).
Definition go_forward (h : pages) : pages :=
  mkPages (visited h) (if (S (shown_page h) <? length (visited h))%nat then S (shown_page h) else shown_page h).

(** ** The array *)

Definition cell_path (c : hist_cell) : option text := match c with HStr p => Some p | _ => None end.
Definition stored (m : Fm) : list text := omap cell_path (take (Z.to_nat (hist_count m)) (history m)).

Record hist_ok (m : Fm) : Prop := mkHistOk {
  ho_size : length (history m) = FM_HISTORY_MAX;
  ho_count : 1 ≤ hist_count m ≤ 64;
  ho_cells i : (i < Z.to_nat (hist_count m))%nat → ∃ p, history m !! i = Some (HStr p);
  ho_pos : 0 ≤ hist_pos m;
  ho_end : hist_pos m < hist_count m ∨ hist_count m = 64 ∧ 64 ≤ hist_pos m }.

Definition hist_same (m m' : Fm) : Prop :=
  history m' = history m ∧ hist_pos m' = hist_pos m ∧ hist_count m' = hist_count m ∧ cwd m' = cwd m.

Lemma hist_same_refl m : hist_same m m. Proof. done. Qed.
Lemma hist_same_trans m1 m2 m3 : hist_same m1 m2 → hist_same m2 m3 → hist_same m1 m3.
Proof. intros (A & B & C & D) (A' & B' & C' & D'). unfold hist_same. by rewrite A', B', C', D'. Qed.
Lemma hist_ok_same m m' : hist_same m m' → hist_ok m → hist_ok m'.
Proof. intros (A & B & C & D) Hok. destruct Hok. split; rewrite ?A, ?B, ?C, ?D; done. Qed.
Lemma stored_same m m' : hist_same m m' → stored m' = stored m.
Proof. intros (A & _ & C & _). unfold stored. by rewrite A, C. Qed.

Lemma omap_cells (cells : list hist_cell) n :
  (∀ i, (i < n)%nat → ∃ p, cells !! i = Some (HStr p)) → ∀ i, (i < n)%nat → omap cell_path (take n cells) !! i = cells !! i ≫= cell_path.
Proof.
  revert n. induction cells as [|c cells IH]; intros n Hc i Hi.
  - destruct (Hc i Hi) as [p E]. by destruct i.
  - destruct n as [|n]; [lia|]. destruct (Hc 0%nat ltac:(lia)) as [p [= ->]]. cbn. destruct i as [|i]; [done|]. cbn.
    apply IH; [|lia]. intros j Hj. apply (Hc (S j)). lia.
Qed.

Lemma omap_cells_length (cells : list hist_cell) n :
  (∀ i, (i < n)%nat → ∃ p, cells !! i = Some (HStr p)) → length (omap cell_path (take n cells)) = n.
Proof.
  revert n. induction cells as [|c cells IH]; intros n Hc.
  - destruct n as [|n]; [done|]. destruct (Hc 0%nat ltac:(lia)) as [p E]. done.
  - destruct n as [|n]; [done|]. destruct (Hc 0%nat ltac:(lia)) as [p [= ->]]. cbn. f_equal. apply IH.
    intros j Hj. apply (Hc (S j)). lia.
Qed.

Lemma stored_length m : hist_ok m → length (stored m) = Z.to_nat (hist_count m).
Proof. intros Ho. apply omap_cells_length, Ho. Qed.
Lemma stored_lookup m i : hist_ok m → (i < Z.to_nat (hist_count m))%nat → ∃ p, stored m !! i = Some p ∧ history m !! i = Some (HStr p).
Proof.
  intros Ho Hi. destruct (ho_cells _ Ho i Hi) as [p Hp]. exists p. split; [|done].
  unfold stored. rewrite omap_cells by (done || apply Ho). by rewrite Hp.
Qed.

Section History.
Context `{Qsort} `{Directories} `{FileTypes}.

(** ** Rules *)

Lemma wp_fm_call E c (Q : unit → Fm → Prop) m : Q tt (m <| log := c :: log m |>) → wp E (fm_call c) Q m.
Proof. by intros HQ; apply wp_modify. Qed.

Lemma wp_get_history m i p (Q : text → Fm → Prop) :
  0 ≤ i → history m !! Z.to_nat i = Some (HStr p) → Q p m → wp no_fault (get_history i) Q m.
Proof.
  intros Hi Hp HQ. apply wp_bind, wp_gets. rewrite (proj2 (Z.leb_le 0 i)) by done. cbn. rewrite Hp. by apply wp_ret.
Qed.

Lemma wp_set_history m i p (Q : unit → Fm → Prop) :
  0 ≤ i < Z.of_nat (length (history m)) → Q tt (m <| history := <[Z.to_nat i := HStr p]> (history m) |>) → wp no_fault (set_history i p) Q m.
Proof.
  intros Hi HQ. apply wp_bind, wp_gets. cbn. rewrite (proj2 (Z.leb_le 0 i)), (proj2 (Z.ltb_lt i _)) by lia. by apply wp_modify.
Qed.

(** Freeing the pages ahead. *)
Lemma wp_free_history k i m (Q : unit → Fm → Prop) :
  0 ≤ i → (∀ j, (Z.to_nat i ≤ j < Z.to_nat i + k)%nat → ∃ p, history m !! j = Some (HStr p)) →
  (∀ hs, length hs = length (history m) → (∀ j, (j < Z.to_nat i)%nat → hs !! j = history m !! j) → Q tt (m <| history := hs |>)) →
  wp no_fault (free_history k i) Q m.
Proof.
  revert i m. induction k as [|k IH]; intros i m Hi Hc HQ; cbn [free_history].
  - apply wp_ret. specialize (HQ (history m)). destruct m. cbn in *. by apply HQ.
  - apply wp_bind, wp_gets, wp_bind. cbn [id]. rewrite (proj2 (Z.leb_le 0 i)) by done.
    destruct (Hc (Z.to_nat i)) as [p Hp]; [lia|]. rewrite Hp. apply wp_modify. apply IH; [lia| |].
    + intros j Hj. cbn. rewrite list_lookup_insert_ne by lia. apply Hc. lia.
    + intros hs Hl Hsame. cbn in Hl, Hsame. rewrite length_insert in Hl. apply (HQ hs Hl). intros j Hj.
      rewrite Hsame by lia. by rewrite list_lookup_insert_ne by lia.
Qed.

(** ** What does not touch the history *)

(** The applications in the menu and in a dialog are ones the program has. *)
Definition known_apps (is_ : list nat) : Prop := Forall (fun i => (i < length desktop_entries)%nat) is_.
Definition apps_ok (m : Fm) : Prop :=
  (∀ menu, ctx_menu m = Some menu → known_apps (ow_indices menu)) ∧ known_apps (snd (set_default m)).
Definition calm (m m' : Fm) : Prop := hist_same m m' ∧ (apps_ok m → apps_ok m').

Definition quiet {A} (c : prog Fm A) : Prop := ∀ m, wp no_fault c (fun _ m' => calm m m') m.

Lemma calm_trans m1 m2 m3 : calm m1 m2 → calm m2 m3 → calm m1 m3.
Proof. intros [A B] [A' B']. split; [by eapply hist_same_trans|auto]. Qed.

Lemma quietly_bind {A B} (c : prog Fm A) (k : A → prog Fm B) : quiet c → (∀ a, quiet (k a)) → quiet (c ≫= k).
Proof.
  intros Hc Hk m. apply wp_bind. eapply wp_mono; [apply Hc|]. cbn beta. intros a m1 Hs1.
  eapply wp_mono; [apply Hk|]. cbn beta. intros b m2 Hs2. by eapply calm_trans.
Qed.
Lemma quietly_ret {A} (a : A) : quiet (mret a).
Proof. intros m. by apply wp_ret. Qed.
Lemma quiet_gets {A} (f : Fm → A) : quiet (gets f).
Proof. intros m. by apply wp_gets. Qed.
Lemma quiet_modify f : (∀ m, calm m (f m)) → quiet (modify f).
Proof. intros Hf m. apply wp_modify, Hf. Qed.
Lemma quiet_when b c : quiet c → quiet (when b c).
Proof. intros Hc. destruct b; [done|apply quietly_ret]. Qed.
Lemma quiet_call c : quiet (fm_call c).
Proof. by apply quiet_modify; intros m; split. Qed.
Lemma quiet_read path : quiet (browser_read_dir path).
Proof.
  unfold browser_read_dir. apply quietly_bind; [apply quiet_gets|]. intros l. apply quietly_bind; [apply quiet_call|]. intros _.
  destruct (listing l path); [|apply quietly_ret]. apply quietly_bind; [by apply quiet_modify; intros m; split|]. intros _. apply quietly_ret.
Qed.
Lemma quiet_populate : quiet fileview_populate.
Proof.
  apply quietly_bind; [by apply quiet_modify; intros m; split|]. intros _. apply quietly_bind; [apply quiet_gets|]. intros v.
  apply quiet_when. by apply quiet_modify; intros m; split.
Qed.
Lemma quiet_watch path : quiet (cwd_watch_start path).
Proof.
  apply quietly_bind; [by apply quiet_modify; intros m; split|]. intros _. apply quietly_bind; [apply quiet_gets|]. intros l.
  apply quietly_bind; [apply quiet_call|]. intros _. apply quiet_when. by apply quiet_modify; intros m; split.
Qed.
Lemma quiet_dismiss : quiet fm_dismiss_context.
Proof. apply quiet_modify. intros m. split; [done|]. intros [_ Hd]. by split. Qed.
Lemma quiet_refresh : quiet fm_refresh.
Proof.
  apply quietly_bind; [apply quiet_dismiss|]. intros _. apply quietly_bind; [apply quiet_gets|]. intros p.
  apply quietly_bind; [apply quiet_read|]. intros b. apply quiet_populate.
Qed.

(** ** Visiting a page *)

Lemma wp_read path m (Q : bool → Fm → Prop) :
  (listing (log m) path = None → Q false (m <| log := ReadDir path :: log m |>)) →
  (∀ ds, listing (log m) path = Some ds →
     Q true (m <| log := ReadDir path :: log m |>
               <| entries := qsort entry_cmp (map (read_entry path) (List.filter (is_shown (show_hidden m)) ds)) |>)) →
  wp no_fault (browser_read_dir path) Q m.
Proof.
  intros HN HS. apply wp_bind, wp_gets, wp_bind, wp_fm_call. destruct (listing (log m) path) as [ds|] eqn:E.
  - apply wp_bind, wp_modify, wp_ret. by apply HS.
  - by apply wp_ret, HN.
Qed.

(** The array after the store at [pos]. *)
Lemma stored_visit m hs pos p :
  hist_ok m → 0 ≤ pos ≤ hist_count m → pos < 64 → length hs = length (history m) →
  (∀ j, (j < Z.to_nat pos)%nat → hs !! j = history m !! j) →
  let m' := m <| history := <[Z.to_nat pos := HStr p]> hs |> <| hist_count := pos + 1 |> <| hist_pos := pos |> <| cwd := p |> in
  hist_ok m' ∧ stored m' = take (Z.to_nat pos) (stored m) ++ [p].
Proof.
  intros Ho Hpos H64 Hlen Hsame m'. pose proof (ho_size _ Ho) as Hsz. unfold FM_HISTORY_MAX in Hsz.
  assert (Hcells : ∀ j, (j < Z.to_nat (pos + 1))%nat → ∃ q, history m' !! j = Some (HStr q)).
  { intros j Hj. cbn. destruct (decide (j = Z.to_nat pos)) as [->|Hne]; [rewrite list_lookup_insert_eq by lia; by exists p|].
    rewrite list_lookup_insert_ne by done. rewrite Hsame by lia. apply (ho_cells _ Ho). lia. }
  assert (Ho' : hist_ok m').
  { split; [cbn; by rewrite length_insert, Hlen, Hsz|cbn; lia|exact Hcells|cbn; lia|cbn; lia]. }
  split; [done|]. apply list_eq. intros j. pose proof (stored_length _ Ho) as Hsl. pose proof (stored_length _ Ho') as Hsl'. cbn in Hsl'.
  destruct (decide (j < Z.to_nat (pos + 1))%nat) as [Hj|Hj].
  - destruct (stored_lookup _ _ Ho' Hj) as (q & -> & Hq). cbn in Hq. destruct (decide (j = Z.to_nat pos)) as [->|Hne].
    + rewrite list_lookup_insert_eq in Hq by lia. injection Hq as <-.
      rewrite lookup_app_r by (rewrite length_take; lia). by rewrite length_take, Nat.min_l, Nat.sub_diag by lia.
    + rewrite list_lookup_insert_ne in Hq by done. rewrite Hsame in Hq by lia.
      rewrite lookup_app_l by (rewrite length_take; lia). rewrite lookup_take_lt by lia.
      destruct (stored_lookup m j Ho) as (q' & -> & Hq'); [lia|]. congruence.
  - rewrite (lookup_ge_None_2 (stored m')) by lia. symmetry. apply lookup_ge_None_2. rewrite length_app, length_take. cbn. lia.
Qed.

(** What visiting a page does. *)
Definition visited_page (p : text) (m m' : Fm) : Prop :=
  cwd m' = p ∧ hist_pos m' = hist_pos m + 1 ∧
  stored m' = if hist_pos m + 1 <? 64 then take (Z.to_nat (hist_pos m + 1)) (stored m) ++ [p] else stored m.

Lemma wp_navigate p m :
  hist_ok m →
  wp no_fault (fm_navigate p) (fun _ m' => hist_ok m' ∧ (apps_ok m → apps_ok m') ∧ if listing (log m) p then visited_page p m m' else hist_same m m') m.
Proof.
  intros Ho. apply wp_bind, wp_modify, wp_bind, wp_read; cbn.
  { intros E. rewrite E. split; [by apply (hist_ok_same m)|]. split; [|done]. intros [_ Hd]. by split. }
  intros ds E'. rewrite E'. set (m1 := m <| ctx_menu := None |> <| log := _ |> <| entries := _ |>).
  assert (Hs1 : hist_same m m1) by done. cbn [negb]. apply wp_bind, wp_modify, wp_bind, wp_gets, wp_bind, wp_gets.
  change (hist_count (_ <| hist_pos := _ |>)) with (hist_count m). change (hist_pos (_ <| hist_pos := _ |>)) with (hist_pos m + 1).
  set (pos := hist_pos m + 1). set (m2 := _ <| hist_pos := _ |>). apply wp_bind.
  assert (Htail : ∀ m3, hist_ok m3 → (apps_ok m → apps_ok m3) → visited_page p m m3 → wp no_fault (cwd_watch_start p;; fileview_populate)
    (fun _ m' => hist_ok m' ∧ (apps_ok m → apps_ok m') ∧ visited_page p m m') m3).
  { intros m3 Ho3 Ha3 (Hc & Hp & Hst). assert (Hq : quiet (cwd_watch_start p;; fileview_populate)) by (apply quietly_bind; [apply quiet_watch|intros; apply quiet_populate]).
    eapply wp_mono; [apply Hq|]. cbn beta. intros _ m' [Hs Ha]. split; [by eapply hist_ok_same|]. split; [auto|]. split_and!.
    - destruct Hs as (_ & _ & _ & ->). done.
    - destruct Hs as (_ & -> & _). done.
    - by rewrite (stored_same _ _ Hs). }
  pose proof (ho_pos _ Ho). pose proof (ho_count _ Ho). pose proof (ho_end _ Ho). pose proof (ho_size _ Ho) as Hsz. unfold FM_HISTORY_MAX in Hsz.
  apply wp_when; intros Hlt.
  - apply Z.ltb_lt in Hlt. change (Z.of_nat FM_HISTORY_MAX) with 64 in Hlt. apply wp_bind, wp_free_history; [lia| |].
    { intros j Hj. change (history m2) with (history m). apply (ho_cells _ Ho). lia. }
    intros hs Hl Hsame. apply wp_bind, wp_set_history; [cbn; rewrite Hl; cbn; lia|]. apply wp_modify.
    destruct (stored_visit m hs pos p Ho) as [Ho' Hst']; [lia|lia|done|done|].
    apply Htail.
    + destruct Ho'. by split.
    + intros [_ Hd]. by split.
    + split_and!; [done|done|]. rewrite (proj2 (Z.ltb_lt _ _)) by (unfold pos in *; lia). exact Hst'.
  - apply Z.ltb_ge in Hlt. change (Z.of_nat FM_HISTORY_MAX) with 64 in Hlt. apply Htail.
    + split; [done|done|apply (ho_cells _ Ho)|cbn; lia|cbn; lia].
    + intros [_ Hd]. by split.
    + split_and!; [done|done|]. rewrite (proj2 (Z.ltb_ge _ _)) by (unfold pos in *; lia). done.
Qed.

Lemma wp_show_page pos m :
  hist_ok m → 0 ≤ pos < hist_count m →
  wp no_fault (show_page pos) (fun _ m' => hist_ok m' ∧ (apps_ok m → apps_ok m') ∧ stored m' = stored m ∧ hist_pos m' = pos ∧ stored m !! Z.to_nat pos = Some (cwd m')) m.
Proof.
  intros Ho Hp. destruct (stored_lookup m (Z.to_nat pos) Ho) as (p & Hst & Hh); [lia|].
  apply wp_bind, wp_modify, wp_bind, (wp_get_history _ _ p); [lia|done|]. apply wp_bind, wp_modify.
  eapply wp_mono; [apply quiet_refresh|]. cbn beta. intros _ m' [Hs Ha]. pose proof (stored_same _ _ Hs) as Hst'.
  assert (Ho1 : hist_ok (m <| hist_pos := pos |> <| cwd := p |>)) by (destruct Ho; split; cbn; try done; lia).
  split; [by eapply hist_ok_same|]. split; [intros Hx; by apply Ha|]. destruct Hs as (E1 & E2 & E3 & E4). split_and!; [done|done|]. by rewrite E4.
Qed.
End History.
