(* ===== verification/FmEvents.v ===== *)
(** * The events of a window: when they go wrong, and what they do to the history *)

From stdpp Require Import list.
From S2P Require Import Prelude.
From S2P Require Import CString.
From S2P Require Import CFloat.
From S2P Require Import DesktopEntry.
From S2P Require Import FmFiles.
From S2P Require Import FmTrash.
From S2P Require Import FmWindow.
From S2P Require Import FmActions.
From S2P Require Import FmHistory.
Open Scope Z_scope.

Create HintDb quiet.
#[export] Hint Resolve quietly_ret quiet_gets quiet_call quiet_read quiet_populate quiet_watch quiet_refresh quiet_dismiss : quiet.

Ltac quiet :=
  repeat first
    [ solve [auto with quiet nocore] | apply quiet_when | apply quiet_modify; intros ?; split; [done|intros [? ?]; by split]
    | apply quietly_bind; [|intros ?] | case_match ].

Section Events.
Context `{Qsort} `{Directories} `{FileTypes} `{Scripts} `{Homes}.

(** ** What goes wrong *)

Definition gone (s : shell) : bool := bool_decide (s = GoneShell).
Definition sel_of (m : Fm) : Z := if 0 <=? ctx_target_index m then ctx_target_index m else default (-1) (head (selected m)).
Definition sels_of (m : Fm) : list Z := if 0 <=? ctx_target_index m then [ctx_target_index m] else selected m.
Definition has_sel (m : Fm) : bool := negb (Nat.eqb (length (sels_of m)) 0).
Definition entry_there (i : Z) (m : Fm) : bool := bool_decide (is_Some (entry_at i m)).

(** A dialog is opened whose predecessor was left with Escape: the pointer to it dangles. *)
Definition dialog_hazard (m : Fm) (a : CtxAction) : bool :=
  match a with
  | ctx_rename => entry_there (sel_of m) m && gone (rename_shell m)
  | ctx_delete_action => has_sel m && gone (delete_shell m)
  | ctx_properties =>
    match entry_at (sel_of m) m with Some e => exists_now (log m) (full_path e) && gone (props_shell m) | None => false end
  | ctx_empty_trash => gone (empty_trash_shell m)
  | ctx_set_default =>
    match ctx_menu m with
    | Some menu => bool_decide (is_Some (ow_mime menu)) && negb (Nat.eqb (length (ow_indices menu)) 0) && gone (set_default_shell m)
    | None => false
    end
  | _ => false
  end.

(** A script gets what is selected, in range or not. *)
Definition script_hazard (m : Fm) (i : nat) : bool :=
  bool_decide (is_Some (actions !! i)) && negb (forallb (fun k => entry_there k m) (sels_of m)).

Definition hazard (m : Fm) (e : fm_event) : bool :=
  match e with
  | GoBack => 65 <=? hist_pos m
  | RenameKey => dialog_hazard m ctx_rename
  | Delete | DeletePermanently => dialog_hazard m ctx_delete_action
  | MenuItem idx =>
    match ctx_menu m with
    | Some menu => match item_at menu idx with RunItem a => dialog_hazard m a | RunScript i => script_hazard m i | _ => false end
    | None => false
    end
  | RightClick hit =>
    let m' := m <| ctx_menu := None |> <| ctx_target_index := hit |> in
    negb (in_trash m') && negb (bool_decide (is_Some (actions_match (map (fun i => entry_at i m') (sels_of m')) MAX_CTX_ACTIONS)))
  | _ => false
  end.

(** ** Where an event leads *)

Definition dir_at (i : Z) (m : Fm) : option text :=
  match entry_at i m with Some e => if is_dir e then Some (full_path e) else None | None => None end.

Definition dest (m : Fm) (e : fm_event) : option text :=
  match e with
  | Navigate p => Some p
  | GoUp | UpButton => Some (parent_dir (cwd m))
  | OpenSelected => dir_at (sel_of m) m
  | Activate KeyPress _ _ i => dir_at i m
  | Activate ButtonDown limit now i =>
    if negb (double_click m) || ((i =? last_click_index m) && (now - last_click_time m <? limit)) then dir_at i m else None
  | TypeOpen => if typeahead m then dir_at (typeahead_match m) m else None
  | _ => None
  end.

Definition nav_effect (p : text) (m m' : Fm) : Prop := if listing (log m) p then visited_page p m m' else hist_same m m'.
Definition paged (m : Fm) (pos : Z) (m' : Fm) : Prop :=
  stored m' = stored m ∧ hist_pos m' = pos ∧ stored m !! Z.to_nat pos = Some (cwd m').

Definition move (m : Fm) (e : fm_event) (m' : Fm) : Prop :=
  match dest m e with
  | Some p => nav_effect p m m'
  | None =>
    match e with
    | GoBack => if hist_pos m <=? 0 then hist_same m m' else paged m (hist_pos m - 1) m'
    | BackButton => if (0 <? hist_pos m) && (hist_pos m - 1 <? hist_count m) then paged m (hist_pos m - 1) m' else hist_same m m'
    | GoForward | ForwardButton => if hist_pos m <? hist_count m - 1 then paged m (hist_pos m + 1) m' else hist_same m m'
    | _ => hist_same m m'
    end
  end.

(** ** Opening entries *)

Definition went (m : Fm) (d : option text) (m' : Fm) : Prop :=
  hist_ok m' ∧ (apps_ok m → apps_ok m') ∧ match d with Some p => nav_effect p m m' | None => hist_same m m' end.

Lemma went_from m m1 d m' :
  hist_same m m1 → log m1 = log m → (apps_ok m → apps_ok m1) → went m1 d m' → went m d m'.
Proof.
  intros Hs Hl Ha (Ho & Ha' & Hd). split; [done|]. split; [auto|]. destruct d as [p|]; [|by eapply hist_same_trans].
  unfold nav_effect in *. rewrite Hl in Hd. destruct (listing (log m) p); [|by eapply hist_same_trans].
  destruct Hd as (E1 & E2 & E3). pose proof (stored_same _ _ Hs) as Es. destruct Hs as (_ & Ep & _ & _).
  split_and!; [done|by rewrite E2, Ep|by rewrite E3, Ep, Es].
Qed.

Lemma entry_at_range i m : entry_at i m = None ↔ (i <? 0) || (nentries m <=? i) = true.
Proof.
  unfold entry_at, nentries. destruct (Z.leb_spec 0 i), (Z.ltb_spec i 0); try lia; cbn; [|done].
  rewrite lookup_ge_None, Z.leb_le. lia.
Qed.

Lemma wp_open_entry i m : hist_ok m → wp no_fault (browser_open_entry i) (fun _ => went m (dir_at i m)) m.
Proof.
  intros Ho. apply wp_bind, wp_gets. cbn [id]. unfold dir_at. destruct (entry_at i m) as [e|] eqn:Ee.
  - assert (Hr : (i <? 0) || (nentries m <=? i) = false).
    { apply not_true_iff_false. rewrite <- entry_at_range. congruence. }
    rewrite Hr. destruct (is_dir e).
    + eapply wp_mono; [by apply wp_navigate|]. cbn beta. intros _ m' (A & B & C). by split_and!.
    + assert (Hq : ∀ c : prog Fm unit, quiet c → wp no_fault c (fun _ => went m None) m).
      { intros c Hc. eapply wp_mono; [apply Hc|]. cbn beta. intros _ m' [A B]. split; [by eapply hist_ok_same|done]. }
      apply Hq. quiet.
  - apply entry_at_range in Ee. rewrite Ee. apply wp_ret. by split_and!.
Qed.

(** ** Handlers that stay on the page *)

Lemma wp_selected_items E m (Q : list Z → Fm → Prop) : Q (sels_of m) m → wp E fileview_get_selected_items Q m.
Proof. done. Qed.
Lemma wp_selected E m (Q : Z → Fm → Prop) : Q (sel_of m) m → wp E fileview_get_selected Q m.
Proof. done. Qed.
Lemma quiet_selected_items : quiet fileview_get_selected_items.
Proof. intros m. by apply wp_selected_items. Qed.
#[local] Hint Resolve quiet_selected_items : quiet.
Lemma quiet_selected : quiet fileview_get_selected.
Proof. intros m. by apply wp_selected. Qed.
#[local] Hint Resolve quiet_selected : quiet.

Lemma search_index_range start step i n : 0 < n → 0 ≤ search_index start step i n < n.
Proof.
  intros Hn. unfold search_index. pose proof (Z.rem_bound_abs (start + i * step) n).
  assert (0 ≤ Z.rem (start + i * step) n + n) by lia. pose proof (Z.rem_bound_pos (Z.rem (start + i * step) n + n) n). lia.
Qed.

Lemma wp_search k s start step i m : 0 < nentries m → wp no_fault (search_loop k s start step i) (fun _ m' => calm m m') m.
Proof.
  intros Hn. revert i. induction k as [|k IH]; intros i; cbn [search_loop]; [by apply wp_ret|]. apply wp_bind, wp_gets. cbn [id].
  pose proof (search_index_range start step i (nentries m) Hn) as Hi.
  destruct (entry_at (search_index start step i (nentries m)) m) as [e|] eqn:Ee; [|apply entry_at_range in Ee; lia].
  destruct (starts_with s (name e)); [by apply wp_modify|apply IH].
Qed.
Lemma quiet_search start step : quiet (typeahead_search start step).
Proof.
  intros m. apply wp_bind, wp_gets. cbn [id]. destruct (_ || _) eqn:E; [by apply wp_ret|].
  apply orb_false_iff in E as [_ E%Z.leb_gt]. by apply wp_search.
Qed.
#[local] Hint Resolve quiet_search : quiet.
Lemma quiet_key u c s : quiet (typeahead_key_handler u c s).
Proof. unfold typeahead_key_handler. quiet. Qed.
#[local] Hint Resolve quiet_key : quiet.
Lemma quiet_update : quiet fileview_typeahead_update.
Proof. unfold fileview_typeahead_update. quiet. Qed.
#[local] Hint Resolve quiet_update : quiet.
Lemma quiet_step k : quiet (fileview_typeahead_step k).
Proof. unfold fileview_typeahead_step. quiet. Qed.
#[local] Hint Resolve quiet_step : quiet.

Lemma quiet_sort : quiet sort_entries.
Proof. unfold sort_entries. quiet. Qed.
#[local] Hint Resolve quiet_sort : quiet.
Lemma quiet_set_mode v : quiet (fileview_set_mode v).
Proof. unfold fileview_set_mode. quiet. Qed.
#[local] Hint Resolve quiet_set_mode : quiet.
Lemma quiet_reorder c d : quiet (reorder_callback c d).
Proof. unfold reorder_callback. quiet. Qed.
#[local] Hint Resolve quiet_reorder : quiet.
Lemma quiet_toggle_view : quiet act_toggle_view.
Proof. unfold act_toggle_view. quiet. Qed.
#[local] Hint Resolve quiet_toggle_view : quiet.
Lemma quiet_reload g : quiet (fm_reload_config g).
Proof. unfold fm_reload_config. quiet. Qed.
#[local] Hint Resolve quiet_reload : quiet.
Lemma quiet_clip op : quiet (clip_set_from_selection op).
Proof. unfold clip_set_from_selection. quiet. Qed.
#[local] Hint Resolve quiet_clip : quiet.
Lemma quiet_submit paths op : quiet (submit_paste_job paths op).
Proof. unfold submit_paste_job. quiet. Qed.
#[local] Hint Resolve quiet_submit : quiet.
Lemma quiet_paste : quiet clipboard_paste.
Proof. unfold clipboard_paste. quiet. Qed.
#[local] Hint Resolve quiet_paste : quiet.
Lemma quiet_receive g v : quiet (receive_paste g v).
Proof. unfold receive_paste. case_match. apply quiet_submit. Qed.
#[local] Hint Resolve quiet_receive : quiet.
Lemma quiet_rename_result new : quiet (rename_result_cb new).
Proof. unfold rename_result_cb. quiet. Qed.
#[local] Hint Resolve quiet_rename_result : quiet.
Lemma quiet_delete_result ok : quiet (delete_result_cb ok).
Proof. unfold delete_result_cb. quiet. Qed.
#[local] Hint Resolve quiet_delete_result : quiet.
Lemma quiet_restore names : quiet (restore_all names).
Proof. induction names; cbn [restore_all]; quiet. Qed.
#[local] Hint Resolve quiet_restore : quiet.
Lemma quiet_remove paths : quiet (remove_all paths).
Proof. induction paths; cbn [remove_all]; quiet. Qed.
#[local] Hint Resolve quiet_remove : quiet.
Lemma quiet_finished a b : quiet (drag_finished a b).
Proof. unfold drag_finished. quiet. Qed.
#[local] Hint Resolve quiet_finished : quiet.
Lemma quiet_drag : quiet start_drag.
Proof. unfold start_drag. quiet. Qed.
#[local] Hint Resolve quiet_drag : quiet.
Lemma quiet_drop uris moved : quiet (drop_cb uris moved).
Proof. unfold drop_cb, set_drop_highlight. quiet. Qed.
#[local] Hint Resolve quiet_drop : quiet.

(** Dialogs, when no pointer dangles. *)
Lemma wp_dismiss s (Q : unit → Fm → Prop) m : gone s = false → Q tt m → wp no_fault (isde_dialog_dismiss s) Q m.
Proof. unfold gone. rewrite bool_decide_eq_false. by destruct s. Qed.

Lemma calm_rename m : dialog_hazard m ctx_rename = false → wp no_fault show_rename_dialog (fun _ m' => calm m m') m.
Proof.
  intros Hz. apply wp_bind, wp_selected, wp_bind, wp_gets. cbn [id]. cbn [dialog_hazard] in Hz. unfold entry_there in Hz.
  destruct (_ || _) eqn:Er; [by apply wp_ret|]. apply wp_bind, wp_modify, wp_bind, wp_dismiss; [|by apply wp_modify].
  destruct (entry_at (sel_of m) m) eqn:Ee; [done|]. apply entry_at_range in Ee. congruence.
Qed.
Lemma calm_delete perm m : dialog_hazard m ctx_delete_action = false → wp no_fault (fm_delete_confirm perm) (fun _ m' => calm m m') m.
Proof.
  intros Hz. apply wp_bind, wp_selected_items, wp_bind, wp_gets. cbn [id]. cbn [dialog_hazard] in Hz. unfold has_sel in Hz.
  destruct (sels_of m) as [|k l] eqn:Es; [by apply wp_ret|]. apply wp_bind, wp_dismiss; [done|]. by apply wp_modify.
Qed.
Lemma calm_properties m : dialog_hazard m ctx_properties = false → wp no_fault show_properties_dialog (fun _ m' => calm m m') m.
Proof.
  intros Hz. apply wp_bind, wp_selected, wp_bind, wp_gets. cbn [id]. cbn [dialog_hazard] in Hz.
  destruct (entry_at (sel_of m) m) as [e|] eqn:Ee.
  - destruct (_ || _); [by apply wp_ret|]. destruct (exists_now _ _); [|by apply wp_ret].
    apply wp_bind, wp_dismiss; [done|]. by apply wp_modify.
  - apply entry_at_range in Ee. rewrite Ee. by apply wp_ret.
Qed.
Lemma calm_empty_trash m : dialog_hazard m ctx_empty_trash = false → wp no_fault open_empty_trash (fun _ m' => calm m m') m.
Proof. intros Hz. apply wp_bind, wp_gets, wp_bind, wp_dismiss; [done|]. by apply wp_modify. Qed.
Lemma calm_set_default m : dialog_hazard m ctx_set_default = false → wp no_fault show_set_default (fun _ m' => calm m m') m.
Proof.
  intros Hz. apply wp_bind, wp_gets. cbn [id]. cbn [dialog_hazard] in Hz. destruct (ctx_menu m) as [menu|] eqn:Em; [|by apply wp_ret].
  destruct (ow_mime menu) as [mime|]; [|by apply wp_ret]. destruct (ow_indices menu) as [|i l] eqn:Ei; [by apply wp_ret|].
  apply wp_bind, wp_dismiss; [done|]. apply wp_modify. split; [done|]. intros [Ha _]. split; [done|]. cbn. rewrite <- Ei. by apply Ha.
Qed.

Lemma calm_item a m : dialog_hazard m a = false → wp no_fault (run_item a) (fun _ m' => calm m m') m.
Proof.
  intros Hz. destruct a; cbn [run_item].
  - apply quiet_clip.
  - apply quiet_clip.
  - apply quietly_bind; [apply quiet_paste|intros; apply quietly_ret].
  - by apply calm_rename.
  - by apply calm_delete.
  - quiet.
  - quiet.
  - by apply calm_properties.
  - apply quietly_bind; [apply quiet_selected_items|]. intros is_. apply quietly_bind; [apply quiet_gets|]. intros m'.
    apply quietly_bind; [apply quiet_restore|]. intros _. quiet.
  - by apply calm_empty_trash.
  - by apply calm_set_default.
Qed.

Lemma calm_script i m : script_hazard m i = false → wp no_fault (ctx_run_action i) (fun _ m' => calm m m') m.
Proof.
  intros Hz. unfold ctx_run_action. unfold script_hazard in Hz. destruct (actions !! i) as [a|]; [|by apply wp_ret].
  apply wp_bind, wp_selected_items, wp_bind, wp_gets. cbn [id]. cbn in Hz. apply negb_false_iff in Hz.
  destruct (sels_of m) as [|k l] eqn:Es; [by apply wp_ret|]. rewrite <- Es in *.
  assert (Hm : is_Some (mapM (fun i => full_path <$> entry_at i m) (sels_of m))).
  { apply mapM_is_Some. apply Forall_forall. intros x Hx. rewrite forallb_forall in Hz. apply fmap_is_Some.
    specialize (Hz x). rewrite <- list_elem_of_In in Hz. specialize (Hz Hx). by apply bool_decide_eq_true in Hz. }
  destruct Hm as [paths ->]. by apply wp_modify.
Qed.

(** ** Every event *)

Lemma calm_wp {A} (c : prog Fm A) m : quiet c → wp no_fault c (fun _ m' => calm m m') m.
Proof. auto. Qed.

Lemma calm_then {A} (c : prog Fm unit) (k : prog Fm A) m :
  wp no_fault c (fun _ m' => calm m m') m → quiet k → wp no_fault (c;; k) (fun _ m' => calm m m') m.
Proof.
  intros Hc Hk. apply wp_bind. eapply wp_mono; [done|]. cbn beta. intros _ m1 H1'.
  eapply wp_mono; [apply Hk|]. cbn beta. intros a m2 H2'. by eapply calm_trans.
Qed.

Lemma known_lookup is_ k i : known_apps is_ → is_ !! k = Some i → is_Some (desktop_entries !! i).
Proof. intros Hk Hi. apply lookup_lt_is_Some. by eapply Forall_lookup_1 in Hk. Qed.

Lemma item_open_with menu idx i : item_at menu idx = OpenWith i → ∃ k, ow_indices menu !! k = Some i.
Proof. unfold item_at. repeat case_match; try done. intros [= <-]. eauto. Qed.

Lemma calm_select idx menu m :
  apps_ok m → ctx_menu m = Some menu → hazard m (MenuItem idx) = false → wp no_fault (ctx_select_cb idx) (fun _ m' => calm m m') m.
Proof.
  intros [Ha _] Em Hz. unfold ctx_select_cb. apply wp_bind, wp_gets. cbn [id]. rewrite Em. cbn [hazard] in Hz. rewrite Em in Hz.
  apply calm_then; [|by apply quiet_modify; intros ?; split]. destruct (item_at menu idx) as [i|i|a|] eqn:Ei.
  - destruct (item_open_with _ _ _ Ei) as [k Hk]. destruct (known_lookup _ _ _ (Ha _ Em) Hk) as [e ->].
    destruct (ow_file_path menu); apply calm_wp; quiet.
  - by apply calm_script.
  - by apply calm_item.
  - by apply wp_ret.
Qed.

Lemma numbered_known : known_apps (map fst numbered_entries).
Proof.
  unfold known_apps, numbered_entries. apply Forall_forall. intros i Hi. apply list_elem_of_fmap in Hi as ([j e] & -> & Hin).
  apply elem_of_zip_l, elem_of_seq in Hin. cbn. lia.
Qed.
Lemma open_with_known mime : known_apps (open_with_entries mime).
Proof.
  pose proof numbered_known as Hn. unfold known_apps, open_with_entries in *. apply Forall_take, Forall_app. split.
  - unfold default_entry. destruct (default_app mime) as [id|]; [|done]. destruct (List.find _ _) as [[i e]|] eqn:Ef; [|done].
    apply List.find_some in Ef as [Ef _]. constructor; [|done]. rewrite Forall_forall in Hn. apply Hn.
    apply list_elem_of_fmap. exists (i, e). split; [done|]. by apply list_elem_of_In.
  - rewrite Forall_forall in *. intros i Hi. apply Hn. apply list_elem_of_fmap in Hi as (x & -> & Hx).
    apply list_elem_of_fmap. exists x. split; [done|]. apply list_elem_of_In in Hx. apply List.filter_In in Hx as [Hx _].
    by apply list_elem_of_In.
Qed.

Lemma calm_right_click hit m : hazard m (RightClick hit) = false → wp no_fault (ctx_handler hit) (fun _ m' => calm m m') m.
Proof.
  intros Hz. cbn [hazard] in Hz. unfold ctx_handler. apply wp_bind, wp_modify, wp_bind, wp_modify, wp_bind, wp_gets. cbn [id].
  set (m1 := _ <| ctx_target_index := hit |>) in *.
  assert (Hc : ∀ menu, (apps_ok m → known_apps (ow_indices menu)) → calm m (m1 <| ctx_menu := Some menu |>)).
  { intros menu Hk. split; [done|]. intros Ha. split; [intros ? [= <-]; by apply Hk|apply Ha]. }
  change (m <| ctx_menu := None |> <| ctx_target_index := hit |>) with m1 in Hz. destruct (in_trash m1) eqn:Et.
  - apply wp_modify, Hc. intros _. constructor.
  - apply wp_bind. unfold ctx_build_open_with. apply wp_bind, wp_selected, wp_bind, wp_gets. cbn [id].
    assert (Hrest : ∀ ow file, known_apps ow →
      wp no_fault (acts ← ctx_build_actions; modify (fun m => m <| ctx_menu := Some (ctx_build_menu ow file acts) |>)) (fun _ m' => calm m m') m1).
    { intros ow file Hk. apply wp_bind. unfold ctx_build_actions. apply wp_bind, wp_selected_items, wp_bind, wp_gets. cbn [id].
      cbn [negb andb] in Hz. apply negb_false_iff, bool_decide_eq_true in Hz as [l Hl]. rewrite Hl. by apply wp_ret, wp_modify, Hc. }
    destruct (entry_at (sel_of m1) m1) as [e|]; [|apply wp_ret, Hrest; constructor].
    destruct (is_dir e); [apply wp_ret, Hrest; constructor|].
    destruct (bool_decide (mime_type_for_file _ = _)); [apply wp_ret, Hrest; constructor|]. apply wp_ret, Hrest, open_with_known.
Qed.

Lemma calm_set_default_ok r m : apps_ok m → wp no_fault (set_default_ok_cb r) (fun _ m' => calm m m') m.
Proof.
  intros [_ Hd]. unfold set_default_ok_cb. apply wp_bind, wp_gets. cbn [id]. destruct (set_default m) as [mime is_] eqn:E. cbn in Hd.
  apply calm_then; [|by apply quiet_modify; intros ?; split]. destruct (if 0 <=? r then _ else None) as [i|] eqn:Ei; [|by apply wp_ret].
  destruct (0 <=? r); [|done]. destruct (known_lookup _ _ _ Hd Ei) as [e ->]. apply calm_wp. quiet.
Qed.

Lemma wp_calm_when E (b : bool) (c : prog Fm unit) m :
  (b = true → wp E c (fun _ m' => calm m m') m) → wp E (when b c) (fun _ m' => calm m m') m.
Proof. intros Hc. apply wp_when; [done|]. by intros _. Qed.

(** An event that is no navigation. *)
Definition local (e : fm_event) : bool :=
  match e with
  | Navigate _ | GoUp | GoBack | GoForward | BackButton | ForwardButton | UpButton | OpenSelected | Activate _ _ _ _ | TypeOpen => false
  | _ => true
  end.

Lemma handle_local e m : apps_ok m → local e = true → hazard m e = false → wp no_fault (handle e) (fun _ m' => calm m m') m.
Proof.
  intros Ha Hl Hz. apply wp_bind, wp_gets. cbn [id]. destruct e; try done; try (apply calm_wp; quiet; done);
    try (apply wp_calm_when; intros _; apply calm_wp; quiet; done).
  - by apply calm_delete.
  - by apply calm_delete.
  - by apply calm_rename.
  - by apply calm_right_click.
  - apply wp_calm_when. intros [menu Hm]%bool_decide_eq_true. by eapply calm_select.
  - apply wp_calm_when. intros _. destruct row; [by apply calm_set_default_ok|]. by apply wp_modify.
Qed.

(** ** Navigation *)

Lemma went_calm m m' : hist_ok m → calm m m' → went m None m'.
Proof. intros Ho [Hs Ha]. split; [by eapply hist_ok_same|done]. Qed.

Lemma dir_at_none i m : (i <? 0) || (nentries m <=? i) = true → dir_at i m = None.
Proof. intros E%entry_at_range. unfold dir_at. by rewrite E. Qed.

Lemma went_navigate p m : hist_ok m → wp no_fault (fm_navigate p) (fun _ => went m (Some p)) m.
Proof. intros Ho. eapply wp_mono; [by apply wp_navigate|]. cbn beta. intros _ m' (? & ? & ?). by split_and!. Qed.

Lemma went_open m : hist_ok m → wp no_fault act_open (fun _ => went m (dir_at (sel_of m) m)) m.
Proof.
  intros Ho. apply wp_bind, wp_selected, wp_bind, wp_gets. cbn [id]. apply wp_when; intros Hr; [by apply wp_open_entry|].
  rewrite dir_at_none; [by apply went_calm|]. apply orb_true_iff. apply andb_false_iff in Hr as [?%Z.leb_gt|?%Z.ltb_ge]; [left|right]; lia.
Qed.

Lemma went_callback from limit now i m :
  hist_ok m → wp no_fault (item_callback from limit now i) (fun _ => went m (dest m (Activate from limit now i))) m.
Proof.
  intros Ho. unfold item_callback. cbn [dest]. destruct from; [by apply wp_open_entry|by apply wp_ret, went_calm|].
  apply wp_bind, wp_gets. destruct (double_click m) eqn:Ed; [|by apply wp_open_entry]. cbn [negb orb].
  apply wp_bind. unfold is_double_click. apply wp_bind, wp_gets, wp_bind, wp_modify, wp_ret. cbn [id].
  set (m1 := m <| last_click_index := i |> <| last_click_time := now |>).
  apply wp_when; intros Hb; rewrite Hb; [|by apply went_calm].
  eapply wp_mono; [apply (wp_open_entry i m1); by apply (hist_ok_same m)|]. cbn beta. intros _ m' Hw. by apply (went_from m m1).
Qed.

Lemma went_activate from limit now i m :
  hist_ok m → wp no_fault (match view_mode m with FM_VIEW_ICON => iconview_callback from limit now i | FM_VIEW_LIST => listview_callback from limit now i end)
    (fun _ => went m (dest m (Activate from limit now i))) m.
Proof.
  intros Ho. set (m1 := m <| ctx_menu := None |>). assert (Ha1 : apps_ok m → apps_ok m1) by (intros [_ ?]; by split).
  assert (Hcb : wp no_fault (item_callback from limit now i) (fun _ => went m (dest m (Activate from limit now i))) m1).
  { eapply wp_mono; [apply (went_callback from limit now i m1); by apply (hist_ok_same m)|]. cbn beta. intros _ m' Hw.
    by apply (went_from m m1). }
  destruct (view_mode m); [by apply wp_bind, wp_modify|].
  apply wp_bind, wp_modify, wp_bind, wp_gets. cbn [id]. change (nentries (m <| ctx_menu := None |>)) with (nentries m).
  destruct (_ || _) eqn:Er; [|done]. apply wp_ret. pose proof (dir_at_none i m Er) as Hd.
  assert (Hn : dest m (Activate from limit now i) = None) by (cbn [dest]; destruct from; rewrite ?Hd; [done..|by case_match]).
  rewrite Hn. apply went_calm; [done|by split].
Qed.

Lemma went_type_open m :
  hist_ok m → wp no_fault act_typeahead_open (fun _ => went m (dir_at (typeahead_match m) m)) m.
Proof.
  intros Ho. apply wp_bind, wp_gets, wp_bind, wp_modify, wp_bind, wp_gets. cbn [id].
  set (m1 := m <| typeahead := None |>). change (nentries m1) with (nentries m). apply wp_when; intros Hr.
  - eapply wp_mono; [apply (wp_open_entry _ m1); by apply (hist_ok_same m)|]. cbn beta. intros _ m' Hw. by apply (went_from m m1).
  - rewrite dir_at_none; [by apply went_calm|].
    apply orb_true_iff. apply andb_false_iff in Hr as [?%Z.leb_gt|?%Z.ltb_ge]; [left|right]; lia.
Qed.

(** What an event that is handled to its end does to the history. *)
Lemma handle_moves e m :
  hist_ok m → apps_ok m → hazard m e = false → wp no_fault (handle e) (fun _ m' => hist_ok m' ∧ apps_ok m' ∧ move m e m') m.
Proof.
  intros Ho Ha Hz. destruct (local e) eqn:El.
  { eapply wp_mono; [by apply handle_local|]. cbn beta. intros _ m' [Hs Ha']. split; [by eapply hist_ok_same|]. split; [auto|].
    unfold move. by destruct e. }
  assert (Hwent : ∀ c, dest m e = c → (∀ m', move m e m' ↔ match c with Some p => nav_effect p m m' | None => hist_same m m' end) →
    wp no_fault (handle e) (fun _ => went m c) m → wp no_fault (handle e) (fun _ m' => hist_ok m' ∧ apps_ok m' ∧ move m e m') m).
  { intros c Hc Hm Hw. eapply wp_mono; [done|]. cbn beta. intros _ m' (? & ? & Hd). split; [done|]. split; [auto|]. by apply Hm. }
  assert (Hpage : ∀ pos, 0 ≤ pos < hist_count m → (∀ m', paged m pos m' → move m e m') → wp no_fault (show_page pos) (fun _ m' => hist_ok m' ∧ apps_ok m' ∧ move m e m') m).
  { intros pos Hp Hm. eapply wp_mono; [by apply wp_show_page|]. cbn beta. intros _ m' (? & ? & ? & ? & ?). split; [done|]. split; [auto|].
    apply Hm. by split_and!. }
  assert (Hstay : hist_same m m → move m e m → hist_ok m ∧ apps_ok m ∧ move m e m) by done.
  pose proof (ho_pos _ Ho). pose proof (ho_count _ Ho). pose proof (ho_end _ Ho).
  destruct e; try done; try (eapply Hwent; [reflexivity|intros m'; unfold move; cbn [dest]; try case_match; done|apply wp_bind, wp_gets; cbn [id]]).
  - by apply went_navigate.
  - apply wp_bind, wp_gets. by apply went_navigate.
  - apply wp_bind, wp_gets, wp_bind, wp_gets. cbn [hazard] in Hz. apply Z.leb_gt in Hz. unfold move in *. cbn [dest] in *.
    destruct (Z.leb_spec (hist_pos m) 0); [by apply wp_ret|]. apply Hpage; [lia|done].
  - apply wp_bind, wp_gets, wp_bind, wp_gets, wp_bind, wp_gets. unfold move in *. cbn [dest] in *.
    destruct (Z.leb_spec (hist_count m - 1) (hist_pos m)), (Z.ltb_spec (hist_pos m) (hist_count m - 1)); try lia; [by apply wp_ret|].
    apply Hpage; [lia|done].
  - apply wp_bind, wp_gets, wp_bind, wp_gets. unfold move in *. cbn [dest] in *. apply wp_when; intros Hb.
    + apply Z.ltb_lt in Hb. apply wp_bind, wp_gets. rewrite (proj2 (Z.ltb_lt 0 (hist_pos m))), (proj2 (Z.ltb_ge (hist_pos m - 1) 0)) in * by lia. cbn [orb andb] in *.
      destruct (Z.leb_spec (hist_count m) (hist_pos m - 1)), (Z.ltb_spec (hist_pos m - 1) (hist_count m)); try lia; [by apply wp_ret|].
      apply Hpage; [lia|done].
    + rewrite Hb in *. cbn [andb] in *. by apply Hstay.
  - apply wp_bind, wp_gets, wp_bind, wp_gets, wp_bind, wp_gets. unfold move in *. cbn [dest] in *. apply wp_when; intros Hb; rewrite Hb in *.
    + apply Z.ltb_lt in Hb. apply wp_bind, wp_gets. rewrite (proj2 (Z.ltb_ge (hist_pos m + 1) 0)), (proj2 (Z.leb_gt (hist_count m) (hist_pos m + 1))) by lia. cbn [orb].
      apply Hpage; [lia|done].
    + by apply Hstay.
  - apply wp_bind, wp_gets. by apply went_navigate.
  - by apply went_open.
  - by apply went_activate.
  - cbn [dest]. destruct (typeahead m) as [s|] eqn:Et; cbn.
    + by apply went_type_open.
    + by apply went_calm.
Qed.

(** ** When an event goes wrong *)

Lemma bind_fault {A B} (c : prog Fm A) (k : A → prog Fm B) m f : c m = Fault f → (c ≫= k) m = Fault f.
Proof. unfold mbind, prog_bind. by intros ->. Qed.

Lemma gone_faults s : gone s = true → isde_dialog_dismiss s = raise OutOfBounds.
Proof. by intros ->%bool_decide_eq_true. Qed.

Lemma delete_faults perm m : dialog_hazard m ctx_delete_action = true → fm_delete_confirm perm m = Fault OutOfBounds.
Proof.
  cbn [dialog_hazard]. unfold has_sel. intros [Hi Hs]%andb_prop. unfold fm_delete_confirm, fileview_get_selected_items, gets, mbind, prog_bind. cbn.
  change (if 0 <=? ctx_target_index m then _ else _) with (sels_of m). destruct (sels_of m) as [|k l]; [done|]. by rewrite (gone_faults _ Hs).
Qed.

Lemma item_faults a m : dialog_hazard m a = true → run_item a m = Fault OutOfBounds.
Proof.
  pose proof gone_faults as Hg.
  destruct a; try done; cbn [dialog_hazard run_item].
  - unfold entry_there. intros [Hi Hs]%andb_prop. apply bool_decide_eq_true in Hi as [e Hi].
    assert (Hr : (sel_of m <? 0) || (nentries m <=? sel_of m) = false) by (apply not_true_iff_false; rewrite <- entry_at_range; congruence).
    unfold show_rename_dialog, fileview_get_selected, gets, mbind, prog_bind. cbn. change (if 0 <=? ctx_target_index m then _ else _) with (sel_of m).
    rewrite Hr. cbn. by rewrite (Hg _ Hs).
  - apply delete_faults.
  - destruct (entry_at (sel_of m) m) as [e|] eqn:Ei; [|done]. intros [He Hs]%andb_prop.
    assert (Hr : (sel_of m <? 0) || (nentries m <=? sel_of m) = false) by (apply not_true_iff_false; rewrite <- entry_at_range; congruence).
    unfold show_properties_dialog, fileview_get_selected, gets, mbind, prog_bind. cbn. change (if 0 <=? ctx_target_index m then _ else _) with (sel_of m).
    rewrite Hr, Ei, He. cbn. by rewrite (Hg _ Hs).
  - intros Hs. unfold open_empty_trash, gets, mbind, prog_bind. cbn. by rewrite (Hg _ Hs).
  - destruct (ctx_menu m) as [menu|] eqn:Em; [|done]. intros [[[mime Hmi]%bool_decide_eq_true Hi]%andb_prop Hs]%andb_prop.
    unfold show_set_default, gets, mbind, prog_bind. cbn. rewrite Em, Hmi. destruct (ow_indices menu); [done|]. by rewrite (Hg _ Hs).
Qed.

Lemma script_faults i m : script_hazard m i = true → ctx_run_action i m = Fault OutOfBounds.
Proof.
  unfold script_hazard. intros [[a Ha]%bool_decide_eq_true Hs]%andb_prop. unfold ctx_run_action. rewrite Ha.
  unfold fileview_get_selected_items, gets, mbind, prog_bind. cbn. change (if 0 <=? ctx_target_index m then _ else _) with (sels_of m).
  destruct (sels_of m) as [|k l] eqn:Es; [done|]. rewrite <- Es in *. destruct (mapM _ (sels_of m)) as [paths|] eqn:Ep; [|done].
  apply mapM_Some in Ep. apply negb_true_iff, not_true_iff_false in Hs. exfalso. apply Hs, forallb_forall. intros x Hx%list_elem_of_In.
  apply bool_decide_eq_true. apply Forall2_Forall_l with (Q := fun x => is_Some (entry_at x m)) in Ep.
  - rewrite Forall_forall in Ep. by apply Ep.
  - apply Forall_forall. intros p _ y Hy. destruct (entry_at y m); [by eexists|done].
Qed.

Lemma handle_faults e m : hist_ok m → hazard m e = true → handle e m = Fault OutOfBounds.
Proof.
  intros Ho Hz. unfold handle. unfold mbind, prog_bind, gets at 1. cbn [id]. destruct e; try done; cbn [hazard] in Hz.
  - apply Z.leb_le in Hz. pose proof (ho_size _ Ho) as Hsz. unfold act_go_back, show_page, get_history, gets, modify, mbind, prog_bind. cbn.
    rewrite (proj2 (Z.leb_gt (hist_pos m) 0)), (proj2 (Z.leb_le 0 (hist_pos m - 1))) by lia. cbn.
    rewrite lookup_ge_None_2; [done|]. rewrite Hsz. unfold FM_HISTORY_MAX. lia.
  - by apply delete_faults.
  - by apply delete_faults.
  - by apply (item_faults ctx_rename).
  - apply andb_prop in Hz as [Ht Hb]. apply negb_true_iff in Ht, Hb. apply bool_decide_eq_false in Hb.
    unfold ctx_handler, fm_dismiss_context, modify, gets, mbind, prog_bind. cbn [id]. rewrite Ht.
    set (m1 := m <| ctx_menu := None |> <| ctx_target_index := hit |>) in *.
    assert (Hact : ∀ ow file, (acts ← ctx_build_actions; modify (fun m => m <| ctx_menu := Some (ctx_build_menu ow file acts) |>)) m1 = Fault OutOfBounds).
    { intros ow file. unfold ctx_build_actions, fileview_get_selected_items, gets, mbind, prog_bind. cbn [id].
      change (if 0 <=? ctx_target_index m1 then _ else _) with (sels_of m1).
      unfold mret, prog_ret.
      destruct (actions_match _ _) eqn:E; [|done]. exfalso. apply Hb. by eexists. }
    unfold ctx_build_open_with, fileview_get_selected, gets, mbind, prog_bind. cbn [id].
    unfold mret, prog_ret.
    change (if 0 <=? ctx_target_index m1 then _ else _) with (sel_of m1). destruct (entry_at (sel_of m1) m1) as [e|]; [|apply Hact].
    destruct (is_dir e); [apply Hact|]. destruct (bool_decide (mime_type_for_file _ = _)); apply Hact.
  - destruct (ctx_menu m) as [menu|] eqn:Em; [|done]. cbn [bool_decide]. rewrite bool_decide_eq_true_2 by by eexists. cbn [when].
    unfold ctx_select_cb. unfold mbind, prog_bind at 1, gets at 1. cbn [id]. rewrite Em. destruct (item_at menu idx) as [i|i|a|] eqn:Ei; try done.
    + unfold mbind, prog_bind. by rewrite (script_faults _ _ Hz).
    + unfold mbind, prog_bind. by rewrite (item_faults _ _ Hz).
Qed.
End Events.
