(* ===== verification/FmWindowClaims.v ===== *)
(** * What the windows of the file manager promise *)

From stdpp Require Import list sorting.
From S2P Require Import Prelude.
From S2P Require Import CString.
From S2P Require Import CFloat.
From S2P Require Import DesktopEntry.
From S2P Require Import FmFiles.
From S2P Require Import FmTrash.
From S2P Require Import FmWindow.
From S2P Require Import FmActions.
From S2P Require Import FmHistory.
From S2P Require Import FmEvents.

(** ** Windows of the file manager: comparisons, listings, type-ahead *)
Open Scope Z_scope.

(** ** Comparisons that make sense *)

Lemma head_code_nonneg s : 0 ≤ head_code s.
Proof. destruct s; cbn; unfold code; lia. Qed.

Lemma strcasecmp_flip a b : strcasecmp b a = - strcasecmp a b.
Proof.
  revert b. induction a as [|c a IH]; intros [|d b]; cbn [strcasecmp head_code tail]; try lia.
  - destruct (Z.eqb_spec (code d) 0); lia.
  - destruct (Z.eqb_spec (code c) 0); lia.
  - rewrite (Z.eqb_sym (code d)). destruct (Z.eqb_spec (code c) (code d)) as [E|E]; [|lia]. rewrite <- E.
    destruct (code c =? 0); [done|]. apply IH.
Qed.

(** The comparison of the first characters decides, or that of the rest does. *)
Lemma strcasecmp_step a b :
  strcasecmp a b = (if head_code a =? head_code b then (if head_code a =? 0 then 0 else strcasecmp (tail a) (tail b))
                    else head_code a - head_code b).
Proof.
  destruct a as [|c a]; [|done]. cbn [strcasecmp head_code]. destruct (Z.eqb_spec 0 (head_code b)) as [E|E]; [|lia]. by rewrite <- E.
Qed.

Lemma strcasecmp_trans a b c : strcasecmp a b ≤ 0 → strcasecmp b c ≤ 0 → strcasecmp a c ≤ 0.
Proof.
  revert b c. induction a as [|x a IH]; intros b c; rewrite (strcasecmp_step b c).
  - cbn [strcasecmp]. pose proof (head_code_nonneg b). pose proof (head_code_nonneg c).
    destruct (Z.eqb_spec (head_code b) (head_code c)); lia.
  - rewrite (strcasecmp_step (x :: a) b), (strcasecmp_step (x :: a) c). cbn [head_code tail].
    pose proof (head_code_nonneg (x :: a)) as Hx. cbn [head_code] in Hx. pose proof (head_code_nonneg b). pose proof (head_code_nonneg c).
    destruct (Z.eqb_spec (code x) (head_code b)) as [E|E], (Z.eqb_spec (head_code b) (head_code c)) as [E'|E'],
      (Z.eqb_spec (code x) (head_code c)) as [E''|E'']; try lia.
    rewrite <- E. destruct (code x =? 0); [done|]. apply IH.
Qed.

Lemma consistent_strcasecmp : consistent strcasecmp.
Proof. split; [intros a b; rewrite strcasecmp_flip; apply Z.sgn_opp|apply strcasecmp_trans]. Qed.

Lemma consistent_on {A B} (f : A → B) cmp : consistent cmp → consistent (fun a b => cmp (f a) (f b)).
Proof. intros [H1 H2]. split; intros *; [apply H1|apply H2]. Qed.
Lemma consistent_flip {A} (cmp : A → A → Z) : consistent cmp → consistent (fun a b => cmp b a).
Proof. intros [H1 H2]. split; intros *; [apply H1|]. intros Hab Hbc. by eapply H2. Qed.

(** One comparison, and another when it finds no difference. *)
Lemma consistent_lex {A} (c1 c2 : A → A → Z) :
  consistent c1 → consistent c2 → consistent (fun a b => if negb (c1 a b =? 0) then c1 a b else c2 a b).
Proof.
  intros [F1 T1] [F2 T2]. split.
  - intros a b. pose proof (F1 a b). destruct (Z.eqb_spec (c1 a b) 0), (Z.eqb_spec (c1 b a) 0); cbn; auto; lia.
  - intros a b c. pose proof (F1 a b). pose proof (F1 b c). pose proof (F1 a c). pose proof (T1 a b c). pose proof (T1 b c a). pose proof (T1 c a b).
    pose proof (T2 a b c). destruct (Z.eqb_spec (c1 a b) 0), (Z.eqb_spec (c1 b c) 0), (Z.eqb_spec (c1 a c) 0); cbn; intros; auto; try lia.
Qed.

Lemma consistent_ext {A} (c c' : A → A → Z) : (∀ a b, c' a b = c a b) → consistent c → consistent c'.
Proof. intros E [F T]. split; [intros a b; rewrite !E; apply F|intros x y z; rewrite !E; apply T]. Qed.

Lemma consistent_size : consistent (fun a b : FmEntry => if size a <? size b then -1 else if size b <? size a then 1 else 0).
Proof.
  split.
  - intros a b. destruct (Z.ltb_spec (size a) (size b)), (Z.ltb_spec (size b) (size a)); cbn; lia.
  - intros a b c. destruct (Z.ltb_spec (size a) (size b)), (Z.ltb_spec (size b) (size a)), (Z.ltb_spec (size b) (size c)),
      (Z.ltb_spec (size c) (size b)), (Z.ltb_spec (size a) (size c)), (Z.ltb_spec (size c) (size a)); lia.
Qed.

Lemma consistent_entry : consistent entry_cmp.
Proof.
  eapply (consistent_ext (fun a b => if negb (of_bool (is_dir b) - of_bool (is_dir a) =? 0) then of_bool (is_dir b) - of_bool (is_dir a)
    else strcasecmp (name a) (name b))).
  - intros a b. unfold entry_cmp. by destruct (is_dir a), (is_dir b).
  - apply consistent_lex; [|apply consistent_on, consistent_strcasecmp].
    split; [intros a b; destruct (is_dir a), (is_dir b); done|]. intros a b c. destruct (is_dir a), (is_dir b), (is_dir c); cbn; lia.
Qed.

Lemma consistent_column col d : consistent (column_cmp col d).
Proof.
  assert (Hn : consistent (fun a b => strcasecmp (name a) (name b))) by apply consistent_on, consistent_strcasecmp.
  assert (Ht : consistent (fun a b => strcasecmp (entry_type_str a) (entry_type_str b))) by apply consistent_on, consistent_strcasecmp.
  destruct col, d; cbn [column_cmp].
  - apply (consistent_flip (fun a b => strcasecmp (name a) (name b)) Hn).
  - exact Hn.
  - apply (consistent_lex _ _ (consistent_flip _ Ht) Hn).
  - apply (consistent_lex _ _ Ht Hn).
  - eapply consistent_ext; [|apply (consistent_lex _ _ (consistent_flip _ consistent_size) Hn)].
    intros a b. unfold cmp_size_desc. cbn. by destruct (size b <? size a), (size a <? size b).
  - eapply consistent_ext; [|apply (consistent_lex _ _ consistent_size Hn)].
    intros a b. unfold cmp_size_asc. by destruct (size a <? size b), (size b <? size a).
Qed.


Section Claims.
Context `{Qsort} `{Directories} `{FileTypes} `{Scripts} `{Homes}.

(** ** Runs *)

Definition records (m : Fm) (h : pages) : Prop :=
  stored m = visited h ∧ hist_pos m = Z.of_nat (shown_page h) ∧ visited h !! shown_page h = Some (cwd m).

Lemma wp_window_new home path dbl show past :
  wp no_fault (fm_window_new home path) (fun _ m => hist_ok m ∧ apps_ok m ∧ records m (mkPages [cwd m] 0)) (fresh_window dbl show past).
Proof.
  assert (Hstart : quiet (start_dir home path)) by (unfold start_dir; quiet).
  apply wp_bind. eapply wp_mono; [apply Hstart|]. cbn beta. intros start m1 [(E1 & _) Ha].
  assert (Ha0 : apps_ok (fresh_window dbl show past)) by (split; [done|constructor]). specialize (Ha Ha0).
  apply wp_bind, wp_modify, wp_bind, wp_set_history; [cbn; rewrite E1; cbn; lia|]. apply wp_bind, wp_modify.
  set (m2 := _ <| hist_count := 1 |>). assert (Hh : history m2 = HStr start :: replicate 63 HNull) by (cbn; by rewrite E1).
  assert (Ho : hist_ok m2).
  { split; [by rewrite Hh|cbn; lia| |cbn; lia|cbn; lia]. intros i Hi. cbn in Hi. assert (i = 0%nat) as -> by lia. rewrite Hh. by exists start. }
  assert (Hq : quiet (cwd_watch_start start;; fileview_populate)) by quiet.
  eapply wp_mono; [apply Hq|]. cbn beta. intros _ m [Hs Ha']. split; [by eapply hist_ok_same|]. split; [by apply Ha'|].
  assert (Hst : stored m2 = [start]) by (unfold stored; rewrite Hh; done).
  split_and!; [rewrite (stored_same _ _ Hs)|..]; destruct Hs as (_ & E2 & _ & E4); [by rewrite E4|by rewrite E2|done].
Qed.

(** A window and what has happened in it. *)
Definition session (home : option text) (path : text) (es : list fm_event) : prog Fm unit := fm_window_new home path;; handle_all es.

Lemma handle_hazard e m m' : hist_ok m → handle e m = Ok tt m' → hazard m e = false.
Proof. intros Ho E. destruct (hazard m e) eqn:Hz; [|done]. rewrite (handle_faults e m Ho Hz) in E. done. Qed.

Lemma handle_all_ok es m m' : hist_ok m → apps_ok m → handle_all es m = Ok tt m' → hist_ok m' ∧ apps_ok m'.
Proof.
  revert m. induction es as [|e es IH]; intros m Ho Ha; cbn [handle_all]; [by intros [= <-]|]. unfold mbind, prog_bind.
  destruct (handle e m) as [[] m1|] eqn:E; [|done]. pose proof (handle_moves e m Ho Ha (handle_hazard _ _ _ Ho E)) as Hw.
  unfold wp in Hw. rewrite E in Hw. destruct Hw as (Ho1 & Ha1 & _). by apply IH.
Qed.

Lemma session_ok home path es dbl show past m :
  session home path es (fresh_window dbl show past) = Ok tt m → hist_ok m ∧ apps_ok m.
Proof.
  unfold session, mbind, prog_bind. pose proof (wp_window_new home path dbl show past) as Hw. unfold wp in Hw.
  destruct (fm_window_new home path _) as [[] m0|]; [|done]. destruct Hw as (Ho & Ha & _). by apply handle_all_ok.
Qed.


(** ** The history *)

Definition step_pages (m : Fm) (e : fm_event) (h : pages) : pages :=
  match dest m e with
  | Some p => if listing (log m) p then visit p h else h
  | None => match e with GoBack | BackButton => go_back h | GoForward | ForwardButton => go_forward h | _ => h end
  end.
Fixpoint follow (es : list fm_event) (m : Fm) (h : pages) : list pages :=
  h :: match es with
       | [] => []
       | e :: es' => match handle e m with Ok _ m' => follow es' m' (step_pages m e h) | Fault _ => [] end
       end.
Definition fits (h : pages) : Prop := (length (visited h) ≤ 64)%nat.

Lemma records_same m m' h : hist_same m m' → records m h → records m' h.
Proof. intros Hs (E1 & E2 & E3). pose proof (stored_same _ _ Hs) as Es. destruct Hs as (_ & Ep & _ & Ec). unfold records. by rewrite Es, Ep, Ec. Qed.

Lemma records_step e m m' h :
  hist_ok m → records m h → move m e m' → fits (step_pages m e h) → records m' (step_pages m e h).
Proof.
  intros Ho (E1 & E2 & E3) Hm Hf. pose proof (stored_length _ Ho) as Hl. pose proof (lookup_lt_Some _ _ _ E3) as Hlt.
  unfold move, step_pages, fits in *. destruct (dest m e) as [p|].
  - unfold nav_effect in Hm. destruct (listing (log m) p) as [ds|]; [|by eapply records_same].
    destruct Hm as (F1 & F2 & F3). unfold visit in *. cbn [visited shown_page] in Hf. rewrite length_app, length_take, Nat.min_l in Hf by lia. cbn [length] in Hf.
    rewrite E2 in F3. rewrite (proj2 (Z.ltb_lt _ _)) in F3 by lia. split_and!.
    + cbn. rewrite F3, E1. f_equal. f_equal. lia.
    + cbn. lia.
    + cbn. rewrite lookup_app_r by (rewrite length_take; lia). rewrite length_take, Nat.min_l, Nat.sub_diag by lia. by rewrite F1.
  - assert (Hpaged : ∀ k, (k < length (visited h))%nat → paged m (Z.of_nat k) m' → records m' (mkPages (visited h) k)).
    { intros k Hk (F1 & F2 & F3). split_and!; cbn; [by rewrite F1|done|]. rewrite Nat2Z.id, E1 in F3. done. }
    assert (Hsame : hist_same m m' → records m' h) by (intros Hs; by eapply records_same).
    rewrite E1 in Hl. unfold go_back, go_forward. destruct e; auto.
    + destruct (Z.leb_spec (hist_pos m) 0) as [Hp|Hp].
      * replace (pred (shown_page h)) with (shown_page h) by lia. destruct h. by apply Hsame.
      * apply Hpaged; [lia|]. by replace (Z.of_nat (pred (shown_page h))) with (hist_pos m - 1) by lia.
    + destruct (Z.ltb_spec (hist_pos m) (hist_count m - 1)) as [Hp|Hp].
      * rewrite (proj2 (Nat.ltb_lt _ _)) by lia. apply Hpaged; [lia|]. by replace (Z.of_nat (S (shown_page h))) with (hist_pos m + 1) by lia.
      * rewrite (proj2 (Nat.ltb_ge _ _)) by lia. destruct h. by apply Hsame.
    + rewrite (proj2 (Z.ltb_lt (hist_pos m - 1) _)), andb_true_r in Hm by lia. destruct (Z.ltb_spec 0 (hist_pos m)) as [Hp|Hp].
      * apply Hpaged; [lia|]. by replace (Z.of_nat (pred (shown_page h))) with (hist_pos m - 1) by lia.
      * replace (pred (shown_page h)) with (shown_page h) by lia. destruct h. by apply Hsame.
    + destruct (Z.ltb_spec (hist_pos m) (hist_count m - 1)) as [Hp|Hp].
      * rewrite (proj2 (Nat.ltb_lt _ _)) by lia. apply Hpaged; [lia|]. by replace (Z.of_nat (S (shown_page h))) with (hist_pos m + 1) by lia.
      * rewrite (proj2 (Nat.ltb_ge _ _)) by lia. destruct h. by apply Hsame.
Qed.

Lemma follow_records es m m' h :
  hist_ok m → apps_ok m → records m h → handle_all es m = Ok tt m' → Forall fits (follow es m h) →
  ∃ h', last (follow es m h) = Some h' ∧ records m' h'.
Proof.
  revert m h. induction es as [|e es IH]; intros m h Ho Ha Hr; cbn [handle_all follow]; [intros [= <-] _; by exists h|].
  unfold mbind, prog_bind. destruct (handle e m) as [[] m1|] eqn:E; [|done]. intros Hall Hf.
  pose proof (handle_moves e m Ho Ha (handle_hazard _ _ _ Ho E)) as Hw. unfold wp in Hw. rewrite E in Hw. destruct Hw as (Ho1 & Ha1 & Hmv).
  apply Forall_cons in Hf as [_ Hf]. assert (Hfit : fits (step_pages m e h)) by (destruct es; by apply Forall_cons in Hf as [? _]).
  destruct (IH m1 (step_pages m e h) Ho1 Ha1 (records_step e m m1 h Ho Hr Hmv Hfit) Hall Hf) as (h' & Hl & Hr').
  exists h'. split; [|done]. destruct es; exact Hl.
Qed.

(** C30: As long as no more than 64 pages are kept, the history is that of a browser: the
    array holds the pages that were visited, a new page takes the place of those ahead,
    keys and buttons move among them, and the directory shown is the page they point to. *)
Theorem history_is_pages home path es dbl show past m0 m :
  fm_window_new home path (fresh_window dbl show past) = Ok tt m0 → handle_all es m0 = Ok tt m →
  Forall fits (follow es m0 (mkPages [cwd m0] 0)) →
  ∃ h, last (follow es m0 (mkPages [cwd m0] 0)) = Some h ∧
    stored m = visited h ∧ hist_pos m = Z.of_nat (shown_page h) ∧ visited h !! shown_page h = Some (cwd m).
Proof.
  intros Hn Hall Hf. pose proof (wp_window_new home path dbl show past) as Hw. unfold wp in Hw. rewrite Hn in Hw.
  destruct Hw as (Ho & Ha & Hr). by apply (follow_records es m0).
Qed.

(** ** The listing *)

(** The order of the view. *)
Definition view_cmp (m : Fm) : FmEntry → FmEntry → Z :=
  match view_mode m with FM_VIEW_ICON => entry_cmp | FM_VIEW_LIST => column_cmp (sort_col m) (sort_descending m) end.

Definition any_fault (f : fault) : Prop := True.
Definition same_list (m m' : Fm) : Prop :=
  entries m' = entries m ∧ view_mode m' = view_mode m ∧ sort_col m' = sort_col m ∧ sort_descending m' = sort_descending m.

Lemma list_free k i m : wp any_fault (free_history k i) (fun _ m' => same_list m m') m.
Proof.
  revert i m. induction k as [|k IH]; intros i m; cbn [free_history]; [by apply wp_ret|]. apply wp_bind, wp_gets, wp_bind. cbn [id].
  destruct (if 0 <=? i then _ else _) as [[|p|]|]; [apply wp_ret, IH| |by apply wp_raise..].
  apply wp_modify. eapply wp_mono; [apply IH|]. cbn beta. by intros _ m'.
Qed.

Lemma list_populate E m (l : list FmEntry) cmp :
  cmp = view_cmp m → (view_mode m = FM_VIEW_ICON → in_order cmp (entries m)) → entries m ≡ₚ l →
  wp E fileview_populate (fun _ m' => entries m' ≡ₚ l ∧ in_order cmp (entries m')) m.
Proof.
  intros -> Hi Hl. apply wp_bind, wp_modify, wp_bind, wp_gets, wp_when; cbn; intros Hv.
  - apply bool_decide_eq_true in Hv. split; [by rewrite qsort_perm|]. unfold view_cmp. rewrite Hv.
    apply qsort_sorted, consistent_all, consistent_column.
  - apply bool_decide_eq_false in Hv. split; [done|]. apply Hi. by destruct (view_mode m).
Qed.

Lemma list_navigate p ds m :
  listing (log m) p = Some ds →
  wp any_fault (fm_navigate p) (fun _ m' => entries m' ≡ₚ map (read_entry p) (List.filter (is_shown (show_hidden m)) ds) ∧ in_order (view_cmp m) (entries m')) m.
Proof.
  intros El. apply wp_bind, wp_modify, wp_bind. unfold browser_read_dir. apply wp_bind, wp_gets, wp_bind, wp_fm_call. change (listing (log (m <| ctx_menu := None |>)) p) with (listing (log m) p). rewrite El.
  apply wp_bind, wp_modify, wp_ret. cbn [negb]. apply wp_bind, wp_modify, wp_bind, wp_gets, wp_bind, wp_gets.
  set (m2 := _ <| hist_pos := _ |>). set (l := map _ _).
  assert (Hfin : ∀ m3, same_list m2 m3 → wp any_fault (cwd_watch_start p;; fileview_populate)
    (fun _ m' => entries m' ≡ₚ l ∧ in_order (view_cmp m) (entries m')) m3).
  { intros m3 (E1 & E2 & E3 & E4). apply wp_bind.
    assert (Hw : wp any_fault (cwd_watch_start p) (fun _ m' => same_list m3 m') m3).
    { apply wp_bind, wp_modify, wp_bind, wp_gets, wp_bind, wp_fm_call, wp_when; [intros _; by apply wp_modify|done]. }
    eapply wp_mono; [exact Hw|]. cbn beta. intros _ m4 (F1 & F2 & F3 & F4).
    apply list_populate; [unfold view_cmp; rewrite F2, F3, F4, E2, E3, E4; done| |].
    - rewrite F2, E2. change (view_mode m2) with (view_mode m). intros Hv. unfold view_cmp. rewrite Hv, F1, E1. apply qsort_sorted, consistent_all, consistent_entry.
    - rewrite F1, E1. apply qsort_perm. }
  apply wp_bind, wp_when; intros _; [|by apply Hfin]. apply wp_bind. eapply wp_mono; [apply list_free|]. cbn beta. intros _ m3 Hs3.
  apply wp_bind, wp_bind, wp_gets. cbn [id]. destruct (_ && _); [|by apply wp_raise]. apply wp_modify, wp_modify. by apply Hfin.
Qed.

(** What a listing is to be, in its own words.  Which names are listed. *)
Definition listed_name (show : bool) (n : text) : Prop :=
  n ≠ str "." ∧ n ≠ str ".." ∧ ¬ (head n = Some "."%char ∧ show = false).
#[local] Instance listed_name_dec show n : Decision (listed_name show n) := ltac:(unfold listed_name; apply _).

(** What is kept of one: its name, its path, what [stat] told of the file (zeros if it
    failed), and whether it is hidden. *)
Record lists (dir : text) (d : dirent) (e : FmEntry) : Prop := {
  li_name : name e = d_name d;
  li_path : full_path e = if decide (length dir ≤ 1)%nat then str "/" ++ d_name d else dir ++ str "/" ++ d_name d;
  li_stat : (mode e, size e, is_dir e) = match d_stat d with Some s => s | None => (0, 0, false) end;
  li_hidden : is_hidden e = true ↔ head (d_name d) = Some "."%char }.

(** [a] may stand before [b].  Icons: directories first, then by name without regard to
    case; a list: by its column, the names deciding between equals. *)
Definition nocase (s t : text) : Prop := strcasecmp s t ≤ 0.
Definition may_precede (m : Fm) (a b : FmEntry) : Prop :=
  match view_mode m, sort_col m with
  | FM_VIEW_ICON, _ =>
      (is_dir a = true ∧ is_dir b = false) ∨ (is_dir a = is_dir b ∧ nocase (name a) (name b))
  | FM_VIEW_LIST, FM_SORT_NAME =>
      if sort_descending m then nocase (name b) (name a) else nocase (name a) (name b)
  | FM_VIEW_LIST, FM_SORT_TYPE =>
      let c := strcasecmp (entry_type_str a) (entry_type_str b) in
      (if sort_descending m then 0 < c else c < 0) ∨ (c = 0 ∧ nocase (name a) (name b))
  | FM_VIEW_LIST, FM_SORT_SIZE =>
      (if sort_descending m then size b < size a else size a < size b) ∨
      (size a = size b ∧ nocase (name a) (name b))
  end.

Lemma view_precedes m a b : view_cmp m a b ≤ 0 → may_precede m a b.
Proof.
  unfold view_cmp, may_precede. destruct (view_mode m).
  - unfold entry_cmp, nocase. destruct (is_dir a), (is_dir b); cbn; intros; (by right) || (by left) || lia.
  - destruct (sort_col m), (sort_descending m); cbn [column_cmp]; try done.
    + unfold cmp_type_desc. destruct (consistent_strcasecmp) as [Hf _].
      specialize (Hf (entry_type_str a) (entry_type_str b)).
      destruct (Z.eqb_spec (strcasecmp (entry_type_str b) (entry_type_str a)) 0) as [E|E]; cbn; intros Hle.
      * right. split; [|done]. rewrite E in Hf. cbn in Hf. lia.
      * left. lia.
    + unfold cmp_type_asc. destruct (Z.eqb_spec (strcasecmp (entry_type_str a) (entry_type_str b)) 0); cbn; [by right|left; lia].
    + unfold cmp_size_desc, nocase. destruct (Z.ltb_spec (size b) (size a)), (Z.ltb_spec (size a) (size b)); try lia; right; lia.
    + unfold cmp_size_asc, nocase. destruct (Z.ltb_spec (size a) (size b)), (Z.ltb_spec (size b) (size a)); try lia; right; lia.
Qed.

Lemma is_shown_listed show d : is_shown show d = true ↔ listed_name show (d_name d).
Proof.
  unfold is_shown, listed_name, dots. rewrite andb_true_iff, negb_true_iff, bool_decide_eq_false, orb_true_iff, negb_true_iff.
  destruct (d_name d) as [|c n]; cbn; [naive_solver|]. rewrite bool_decide_eq_false.
  destruct show; naive_solver.
Qed.

Lemma shown_filter show ds : List.filter (is_shown show) ds = filter (fun d => listed_name show (d_name d)) ds.
Proof.
  induction ds as [|d ds IH]; [done|]. cbn [List.filter]. rewrite filter_cons.
  destruct (is_shown show d) eqn:E; case_decide as Hd; [by rewrite IH|..|done].
  - by apply is_shown_listed in E.
  - apply is_shown_listed in Hd. congruence.
Qed.

Lemma read_entry_lists dir d : lists dir d (read_entry dir d).
Proof.
  unfold read_entry. destruct (d_stat d) as [[[md sz] dr]|] eqn:E; cbn; (split; cbn; [done| |by rewrite E|]).
  1, 3: unfold child_path; destruct (Nat.ltb_spec 1 (length dir)); case_decide; (done || lia).
  all: unfold hidden_name; destruct (d_name d) as [|c n]; cbn; [done|]; rewrite bool_decide_eq_true; naive_solver.
Qed.

(** C32: Going to a directory that can be read shows it: of what the directory holds, all
    but . and .. and, unless they are wanted, the names that start with a dot, each as often
    as it was read, with its path and what [stat] told, in the order of the view: icons with
    the directories first and by name, a list by its column, up or down. *)
Theorem listing_shown home path es dbl show past m dir ds :
  session home path es (fresh_window dbl show past) = Ok tt m → listing (log m) dir = Some ds →
  ∃ m' es', handle (Navigate dir) m = Ok tt m' ∧ cwd m' = dir ∧ entries m' ≡ₚ es' ∧
    Forall2 (lists dir) (filter (fun d => listed_name (show_hidden m) (d_name d)) ds) es' ∧
    StronglySorted (may_precede m) (entries m').
Proof.
  intros [Ho Ha]%session_ok El. pose proof (handle_moves (Navigate dir) m Ho Ha eq_refl) as Hw.
  pose proof (list_navigate dir ds m El) as Hl. change (handle (Navigate dir) m) with (fm_navigate dir m). unfold wp in *.
  change (handle (Navigate dir) m) with (fm_navigate dir m) in Hw. destruct (fm_navigate dir m) as [[] m'|]; [|done].
  destruct Hw as (_ & _ & Hm). unfold move, nav_effect in Hm. cbn [dest] in Hm. rewrite El in Hm. destruct Hm as [Hc _].
  destruct Hl as [Hp Ho']. rewrite shown_filter in Hp. exists m'. eexists. split; [done|]. split; [done|]. split; [exact Hp|]. split.
  - generalize (filter (fun d => listed_name (show_hidden m) (d_name d)) ds). intros l. induction l; constructor; [apply read_entry_lists|done].
  - clear - Ho'. unfold in_order in Ho'. induction Ho' as [|e l _ IH Hl]; constructor; [done|].
    eapply Forall_impl; [exact Hl|]. cbn. intros b. apply view_precedes.
Qed.

(** ** Type-ahead *)

Definition matches (m : Fm) (s : text) (i : Z) : Prop := ∃ e, entry_at i m = Some e ∧ starts_with s (name e) = true.

Lemma search_finds k s start step i m :
  0 < nentries m →
  (∃ d, (d < k)%nat ∧ matches m s (search_index start step (i + Z.of_nat d) (nentries m)) ∧
     (∀ d', (d' < d)%nat → ¬ matches m s (search_index start step (i + Z.of_nat d') (nentries m))) ∧
     search_loop k s start step i m = Ok tt (m <| typeahead_match := search_index start step (i + Z.of_nat d) (nentries m) |>
                                              <| selected := [search_index start step (i + Z.of_nat d) (nentries m)] |>)) ∨
  (∀ d, (d < k)%nat → ¬ matches m s (search_index start step (i + Z.of_nat d) (nentries m))) ∧ search_loop k s start step i m = Ok tt m.
Proof.
  intros Hn. revert i. induction k as [|k IH]; intros i; cbn [search_loop]; [right; split; [lia|done]|].
  unfold mbind, prog_bind, gets. cbn [id]. pose proof (search_index_range start step i (nentries m) Hn) as Hi.
  destruct (entry_at (search_index start step i (nentries m)) m) as [e|] eqn:Ee; [|apply entry_at_range in Ee; lia].
  destruct (starts_with s (name e)) eqn:Es.
  - left. exists 0%nat. rewrite Z.add_0_r. split; [lia|]. split; [by exists e|]. split; [lia|done].
  - assert (Hno : ¬ matches m s (search_index start step i (nentries m))) by (intros (e' & E & F); congruence).
    destruct (IH (i + 1)) as [(d & Hd & Hm & Hlt & Hr)|[Hno' Hr]].
    + left. exists (S d). replace (i + Z.of_nat (S d)) with (i + 1 + Z.of_nat d) by lia. split; [lia|]. split; [done|]. split; [|done].
      intros [|d'] Hd'; [by rewrite Z.add_0_r|]. replace (i + Z.of_nat (S d')) with (i + 1 + Z.of_nat d') by lia. apply Hlt. lia.
    + right. split; [|done]. intros [|d'] Hd'; [by rewrite Z.add_0_r|]. replace (i + Z.of_nat (S d')) with (i + 1 + Z.of_nat d') by lia. apply Hno'. lia.
Qed.

Lemma search_index_mod start step i n : 0 < n → search_index start step i n = (start + i * step) mod n.
Proof.
  intros Hn. unfold search_index. set (x := start + i * step). pose proof (Z.rem_bound_abs x n).
  rewrite (Z.rem_mod_nonneg (Z.rem x n + n)) by lia. rewrite (Z.rem_eq x n) by lia.
  replace (x - n * (x ÷ n) + n) with (x + (1 - x ÷ n) * n) by lia. apply Z_mod_plus_full.
Qed.

Lemma matches_range m s i : matches m s i → 0 ≤ i < nentries m.
Proof.
  intros (e & Ee & _). destruct ((i <? 0) || (nentries m <=? i)) eqn:E; [apply entry_at_range in E; congruence|].
  apply orb_false_iff in E as [?%Z.ltb_ge ?%Z.leb_gt]. lia.
Qed.

(** A search from the text box. *)
Lemma typeahead_search_finds s start step m :
  typeahead m = Some s → s ≠ [] → 0 < nentries m →
  (∃ d, (d < length (entries m))%nat ∧ matches m s ((start + Z.of_nat d * step) mod nentries m) ∧
     (∀ d', (d' < d)%nat → ¬ matches m s ((start + Z.of_nat d' * step) mod nentries m)) ∧
     typeahead_search start step m = Ok tt (m <| typeahead_match := (start + Z.of_nat d * step) mod nentries m |>
                                              <| selected := [(start + Z.of_nat d * step) mod nentries m] |>)) ∨
  (∀ d, (d < length (entries m))%nat → ¬ matches m s ((start + Z.of_nat d * step) mod nentries m)) ∧ typeahead_search start step m = Ok tt m.
Proof.
  intros Ht Hs Hn. unfold typeahead_search, mbind, prog_bind, gets. cbn [id]. rewrite Ht. cbn [default].
  rewrite (proj2 (Z.leb_gt (nentries m) 0)) by done. destruct s as [|c s]; [done|].
  change (if (length (id (c :: s)) =? 0)%nat || false then skip else search_loop (length (entries m)) (id (c :: s)) start step 0)
    with (search_loop (length (entries m)) (c :: s) start step 0).
  assert (Hi : ∀ d : nat, search_index start step (0 + Z.of_nat d) (nentries m) = (start + Z.of_nat d * step) mod nentries m).
  { intros d. by rewrite search_index_mod. }
  destruct (search_finds (length (entries m)) (c :: s) start step 0 m Hn) as [(d & Hd & Hm & Hlt & Hr)|[Hno Hr]].
  - left. exists d. rewrite !Hi in Hm, Hr. split_and!; try done. intros d' Hd'. rewrite <- Hi. by apply Hlt.
  - right. split; [|done]. intros d Hd. rewrite <- Hi. by apply Hno.
Qed.

(** Tab and Shift-Tab undo each other: after a step to the next match the step back
    leads to the match before, however many entries match. *)
Theorem tab_then_shift_tab m s k :
  typeahead m = Some s → s ≠ [] → typeahead_match m = k → matches m s k →
  ∃ m1 m2, handle (TypeStep 1) m = Ok tt m1 ∧ matches m1 s (typeahead_match m1) ∧
    handle (TypeStep (-1)) m1 = Ok tt m2 ∧ typeahead_match m2 = k ∧ selected m2 = [k].
Proof.
  intros Ht Hs Hk Hm. pose proof (matches_range _ _ _ Hm) as Hr. set (n := nentries m) in *.
  assert (Hlen : Z.of_nat (length (entries m)) = n) by done.
  assert (Hstep : ∀ m' st, typeahead m' = Some s → handle (TypeStep st) m' = typeahead_search (typeahead_match m' + st) st m').
  { intros m' st E. unfold handle, mbind, prog_bind, gets. cbn [id]. rewrite bool_decide_eq_true_2 by (rewrite E; by eexists). done. }
  destruct (typeahead_search_finds s (k + 1) 1 m Ht Hs ltac:(lia)) as [(d & Hd & Hmd & Hlt & E)|[Hno _]].
  2: { exfalso. apply (Hno (Z.to_nat (n - 1))); [lia|]. replace (k + 1 + Z.of_nat (Z.to_nat (n - 1)) * 1) with (k + 1 * n) by lia.
       fold n. rewrite Z_mod_plus_full, Z.mod_small by lia. done. }
  fold n in Hmd, Hlt, E. set (k' := (k + 1 + Z.of_nat d * 1) mod n) in *.
  set (m1 := m <| typeahead_match := k' |> <| selected := [k'] |>). exists m1.
  assert (Hsame : ∀ i, matches m1 s i ↔ matches m s i) by done.
  assert (Hback : ∀ x : nat, (k' + -1 + Z.of_nat x * -1) mod n = (k + Z.of_nat d - Z.of_nat x) mod n).
  { intros x. unfold k'. replace (k + Z.of_nat d - Z.of_nat x) with (k + 1 + Z.of_nat d * 1 + (-1 + Z.of_nat x * -1)) by lia.
    rewrite <- Z.add_assoc. by rewrite Zplus_mod_idemp_l. }
  destruct (typeahead_search_finds s (k' + -1) (-1) m1 Ht Hs ltac:(change (nentries m1) with n; lia)) as [(x & Hx & Hmx & Hltx & E')|[Hno _]].
  - change (nentries m1) with n in *. rewrite Hback in Hmx, E'.
    assert (x = d) as ->.
    { destruct (lt_eq_lt_dec x d) as [[Hlt'| ->]|Hgt]; [|done|].
      - exfalso. apply (Hlt (d - 1 - x)%nat); [lia|]. apply Hsame in Hmx.
        replace (k + 1 + Z.of_nat (d - 1 - x) * 1) with (k + Z.of_nat d - Z.of_nat x) by lia. done.
      - exfalso. apply (Hltx d Hgt). rewrite Hback. apply Hsame. replace (k + Z.of_nat d - Z.of_nat d) with k by lia.
        by rewrite Z.mod_small by lia. }
    replace (k + Z.of_nat d - Z.of_nat d) with k in E' by lia. rewrite Z.mod_small in E' by lia.
    eexists. split; [rewrite Hstep by done; by rewrite Hk|]. split; [done|]. split; [rewrite Hstep by done; exact E'|done].
  - exfalso. change (nentries m1) with n in *. apply (Hno d); [done|]. rewrite Hback. apply Hsame.
    replace (k + Z.of_nat d - Z.of_nat d) with k by lia. by rewrite Z.mod_small by lia.
Qed.
End Claims.
