(* ===== verification/FmActionsClaims.v ===== *)
(** * Clipboard, menu and dialogs of the file manager's windows *)

From stdpp Require Import list sorting.
From S2P Require Import Prelude.
From S2P Require Import CString.
From S2P Require Import CFloat.
From S2P Require Import DesktopEntry.
From S2P Require Import FmFiles.
From S2P Require Import FmTrash.
From S2P Require Import FmWindow.
From S2P Require Import FmActions.
From S2P Require Import FmHistory.
From S2P Require Import FmEvents.
From S2P Require Import FmWindowClaims.
Open Scope Z_scope.

(** ** Tokens *)

Lemma strtok_token delim cur l c rest :
  Forall (fun x => delim x = false) l → delim c = true → cur ++ l ≠ [] →
  strtok delim cur (l ++ c :: rest) = (cur ++ l) :: strtok delim [] rest.
Proof.
  intros Hl Hc. revert cur. induction Hl as [|x l Hx _ IH]; intros cur Hne; cbn [app strtok].
  - rewrite Hc, app_nil_r in *. by destruct cur.
  - rewrite Hx. rewrite IH by (by rewrite <- app_assoc). by rewrite <- app_assoc.
Qed.
Lemma strtok_last delim cur l : Forall (fun x => delim x = false) l → cur ++ l ≠ [] → strtok delim cur l = [cur ++ l].
Proof.
  intros Hl. revert cur. induction Hl as [|x l Hx _ IH]; intros cur Hne; cbn [strtok].
  - rewrite app_nil_r in *. by destruct cur.
  - rewrite Hx. rewrite IH by (by rewrite <- app_assoc). by rewrite <- app_assoc.
Qed.

(** A path that can be written on a line. *)
Definition plain_path (p : text) : Prop := is_absolute p = true ∧ Forall (fun c => line_end c = false ∧ c ≠ NUL) p.

Lemma uri_chars p : plain_path p → Forall (fun c => line_end c = false) (FILE_SCHEME ++ p).
Proof. intros [_ Hp]. apply Forall_app. split; [by repeat constructor|]. eapply Forall_impl; [done|]. by intros x []. Qed.
Lemma uri_no_nul p : plain_path p → NUL ∉ FILE_SCHEME ++ p.
Proof.
  intros [_ Hp]. rewrite not_elem_of_app. split; [apply (bool_decide_unpack _); by vm_compute|].
  intros Hin. rewrite Forall_forall in Hp. by destruct (Hp _ Hin).
Qed.
Lemma strip_scheme_uri p : strip_scheme (FILE_SCHEME ++ p) = p.
Proof.
  unfold strip_scheme, has_prefix. rewrite bool_decide_eq_true_2 by (by rewrite take_app_length). by rewrite (drop_app_length FILE_SCHEME).
Qed.

Lemma uri_tokens paths : Forall plain_path paths → strtok line_end [] (uri_data paths) = map (fun p => FILE_SCHEME ++ p) paths.
Proof.
  induction 1 as [|p ps Hp _ IH]; [done|]. unfold uri_data in *. cbn [map concat]. unfold uri_line at 1.
  replace ((FILE_SCHEME ++ p ++ [CR; LF]) ++ concat (map uri_line ps)) with ((FILE_SCHEME ++ p) ++ CR :: LF :: concat (map uri_line ps)) by (by rewrite <- !app_assoc).
  rewrite strtok_token; [|by apply uri_chars|done|done]. cbn [app]. f_equal. cbn [strtok]. exact IH.
Qed.
Lemma join_tokens paths : Forall plain_path paths → strtok line_end [] (join_lines (map (fun p => FILE_SCHEME ++ p) paths)) = map (fun p => FILE_SCHEME ++ p) paths.
Proof.
  induction 1 as [|p ps Hp _ IH]; [done|]. cbn [map join_lines]. destruct ps as [|p' ps].
  - cbn [map]. rewrite strtok_last; [done|by apply uri_chars|done].
  - cbn [map] in *. rewrite strtok_token; [|by apply uri_chars|done|done]. f_equal. exact IH.
Qed.
Lemma tokens_paths (paths : list text) : Forall plain_path paths → List.filter is_absolute (map strip_scheme (map (fun p => FILE_SCHEME ++ p) paths)) = paths.
Proof.
  induction 1 as [|p ps [Hp _] _ IH]; [done|]. cbn [map List.filter]. rewrite strip_scheme_uri, Hp. by f_equal.
Qed.

Lemma no_nul_cstr (s : text) : NUL ∉ s → cstr s = s.
Proof. apply before_none. Qed.
Lemma uri_data_no_nul paths : Forall plain_path paths → NUL ∉ uri_data paths.
Proof.
  induction 1 as [|p ps Hp _ IH]; [apply not_elem_of_nil|]. unfold uri_data in *. cbn [map concat]. unfold uri_line at 1.
  pose proof (uri_no_nul p Hp) as Hu. rewrite not_elem_of_app in Hu. destruct Hu as [Hu1 Hu2]. rewrite !not_elem_of_app. split_and!; try done.
  apply (bool_decide_unpack _); by vm_compute.
Qed.
Lemma gnome_data_no_nul op paths : Forall plain_path paths → NUL ∉ gnome_data op paths.
Proof.
  intros Hp. unfold gnome_data. rewrite !not_elem_of_app. split; [destruct op; apply (bool_decide_unpack _); by vm_compute|].
  split; [apply (bool_decide_unpack _); by vm_compute|]. induction Hp as [|p ps Hp _ IH]; [apply not_elem_of_nil|]. cbn [map join_lines].
  destruct ps as [|p' ps]; [by apply uri_no_nul|]. cbn [map] in *. rewrite not_elem_of_app, not_elem_of_cons. split; [by apply uri_no_nul|].
  split; [done|]. exact IH.
Qed.

Section Claims.
Context `{Qsort} `{Directories} `{FileTypes} `{Scripts} `{Homes}.

(** C33: What is copied or cut in one window and pasted in another, over the clipboard of the
    desktop, is the job that pasting in the first window would be, for absolute paths
    without a carriage return, line feed or NUL: the same paths in the same order, moved
    if they were cut.  The exception is a window that asks for bare URIs, which do not
    tell a cut from a copy: it copies. *)
Theorem paste_elsewhere a b op paths gnome v :
  clipboard a = Some (op, paths) → paths ≠ [] → Forall plain_path paths → convert_selection gnome a = Some v →
  handle (PasteData gnome v) b =
    Ok tt (b <| log := Submit (match op with FM_CLIP_CUT => if gnome then FM_JOB_MOVE else FM_JOB_COPY | FM_CLIP_COPY => FM_JOB_COPY end)
                         paths (Some (cwd b)) :: log b |>).
Proof.
  intros Ec Hne Hp Hv. unfold convert_selection in Hv. rewrite Ec in Hv. injection Hv as <-.
  assert (Hsub : ∀ o, submit_paste_job paths o b = Ok tt (b <| log := Submit (match o with FM_CLIP_CUT => FM_JOB_MOVE | FM_CLIP_COPY => FM_JOB_COPY end) paths (Some (cwd b)) :: log b |>)).
  { intros o. unfold submit_paste_job, mbind, prog_bind, gets. cbn [id]. by destruct paths. }
  unfold handle, mbind, prog_bind, gets. cbn [id]. unfold receive_paste. destruct gnome.
  - rewrite no_nul_cstr by (by apply gnome_data_no_nul). unfold gnome_data.
    assert (Hg : gnome_op (match op with FM_CLIP_CUT => str "cut" | FM_CLIP_COPY => str "copy" end ++ [LF] ++ join_lines (map (fun p => FILE_SCHEME ++ p) paths))
      = (op, join_lines (map (fun p => FILE_SCHEME ++ p) paths))) by (by destruct op).
    rewrite Hg. unfold uri_paths. rewrite join_tokens, tokens_paths by done. rewrite Hsub. by destruct op.
  - rewrite no_nul_cstr by (by apply uri_data_no_nul). unfold uri_paths. rewrite uri_tokens, tokens_paths by done. rewrite Hsub. by destruct op.
Qed.

(** ** The menu *)

(** What a label says. *)
Definition says (mime : text) (label : text) (c : chosen) : Prop :=
  match c with
  | OpenWith i => label = open_with_label mime i
  | RunScript i => label = script_name i
  | RunItem ctx_set_default => label = str "Set Default Application..."
  | RunItem a => (label, Some a) ∈ base_items
  | NoItem => label = str "---"
  end.

Lemma base_says i (label : text) o :
  base_items !! i = Some (label, o) → ∀ mime, says mime label (match o with Some a => RunItem a | None => NoItem end).
Proof.
  intros Hi mime. unfold base_items in Hi.
  repeat (destruct i as [|i]; [injection Hi as <- <-; cbn [says]; first [reflexivity|apply (bool_decide_unpack _); vm_compute; exact I]|]). cbn in Hi. by destruct i.
Qed.

(** The items of a menu, at a place. *)
Lemma menu_place mime ow acts i label o :
  menu_items mime ow acts !! i = Some (label, o) →
  let off := (length ow + match ow with [] => 0 | _ => 2 end)%nat in
  (∃ j, (i < length ow)%nat ∧ ow !! i = Some j ∧ label = open_with_label mime j) ∨
  (length ow ≤ i ∧ ¬ (off ≤ i < off + length acts) ∧ says mime label (match o with Some a => RunItem a | None => NoItem end))%nat ∨
  (∃ j, (length ow ≤ i ∧ off ≤ i < off + length acts)%nat ∧ acts !! (i - off)%nat = Some j ∧ label = script_name j).
Proof.
  intros Hi off. unfold menu_items in Hi. apply lookup_app_Some in Hi as [Hi|[Hge Hi]].
  { left. rewrite list_lookup_fmap in Hi. destruct (ow !! i) as [j|] eqn:Ej; [|done]. injection Hi as <- <-.
    exists j. split; [by apply lookup_lt_Some in Ej|done]. }
  rewrite length_map in Hge, Hi. set (mid := match ow with [] => [] | _ => _ end) in Hi.
  assert (Hmid : length mid = match ow with [] => 0 | _ => 2 end%nat) by (unfold mid; by destruct ow).
  apply lookup_app_Some in Hi as [Hi|[Hge2 Hi]].
  { right. left. apply lookup_lt_Some in Hi as Hlt. rewrite Hmid in Hlt. split; [done|]. split; [unfold off; lia|].
    unfold mid in Hi. destruct ow as [|j ow]; [done|]. destruct (i - length (j :: ow))%nat as [|[|k]]; [by injection Hi as <- <-|by injection Hi as <- <-|done]. }
  rewrite Hmid in Hge2, Hi. apply lookup_app_Some in Hi as [Hi|[Hge3 Hi]].
  { right. right. rewrite list_lookup_fmap in Hi. replace (i - length ow - match ow with [] => 0 | _ => 2 end)%nat with (i - off)%nat in Hi by (unfold off; lia).
    destruct (acts !! (i - off)%nat) as [j|] eqn:Ej; [|done]. injection Hi as <- <-. exists j. apply lookup_lt_Some in Ej as Hlt.
    split; [|done]. unfold off in *. lia. }
  rewrite length_map in Hge3, Hi. right. left. split; [done|]. split; [unfold off; lia|].
  apply lookup_app_Some in Hi as [Hi|[Hge4 Hi]]; [|by eapply base_says].
  destruct acts as [|j acts]; [done|]. destruct (i - length ow - _ - _)%nat as [|k]; [by injection Hi as <- <-|done].
Qed.

(** In the context menu of a file every place does what its label says: the applications
    open the file, the scripts run, the other items are the actions of their names, and
    separators do nothing. *)
Theorem menu_does_what_it_says mime ow acts file idx label :
  let menu := ctx_build_menu ow (Some (file, mime)) acts in
  0 ≤ idx → dyn_labels menu !! Z.to_nat idx = Some label → says mime label (item_at menu idx).
Proof.
  intros menu Hidx Hl. unfold menu, ctx_build_menu in *. cbn [dyn_labels] in Hl. cbn [default snd option_fmap option_map fst fmap] in *. unfold id in *.
  rewrite list_lookup_fmap in Hl. destruct (menu_items mime ow acts !! Z.to_nat idx) as [[l o]|] eqn:Ei; [|done]. injection Hl as ->.
  set (off := (length ow + match ow with [] => 0 | _ => 2 end)%nat).
  assert (Hact : map snd (menu_items mime ow acts) !! Z.to_nat idx = Some o) by (rewrite list_lookup_fmap, Ei; done).
  unfold item_at. cbn [dyn_actions ctx_in_trash ow_indices ctx_action_offset ctx_action_indices].
  rewrite (proj2 (Z.ltb_ge idx 0)) by done. cbn in Hact |- *.
  destruct (menu_place _ _ _ _ _ _ Ei) as [(j & Hlt & Hj & ->)|[(Hge & Hno & Hs)|(j & (Hge & Hin) & Hj & ->)]]; fold off in Hj || fold off in Hno || idtac.
  - rewrite (proj2 (Z.ltb_lt idx _)) by lia. by rewrite Hj.
  - rewrite (proj2 (Z.ltb_ge idx _)) by lia.
    destruct ((Z.of_nat off <=? idx) && (idx <? Z.of_nat off + Z.of_nat (length acts))) eqn:E.
    { apply andb_prop in E as [?%Z.leb_le ?%Z.ltb_lt]. exfalso. apply Hno. fold off. lia. }
    rewrite Hact. by destruct o.
  - rewrite (proj2 (Z.ltb_ge idx _)) by lia. fold off in Hin.
    rewrite (proj2 (Z.leb_le (Z.of_nat off) idx)), (proj2 (Z.ltb_lt idx _)) by lia. cbn [andb].
    replace (Z.to_nat (idx - Z.of_nat off)) with (Z.to_nat idx - off)%nat by lia. by rewrite Hj.
Qed.

(** ** Deleting *)

Definition any_fault (f : fault) : Prop := True.

(** The menu is built without a change of what is listed and selected. *)
Lemma right_click_keeps hit m m1 :
  handle (RightClick hit) m = Ok tt m1 →
  entries m1 = entries m ∧ selected m1 = selected m ∧ cwd m1 = cwd m ∧ log m1 = log m ∧ ctx_target_index m1 = hit.
Proof.
  intros Hr. set (Q := fun (_ : unit) m1 => entries m1 = entries m ∧ selected m1 = selected m ∧ cwd m1 = cwd m ∧ log m1 = log m ∧ ctx_target_index m1 = hit).
  assert (Hw : wp any_fault (handle (RightClick hit)) Q m); [|unfold wp in Hw; by rewrite Hr in Hw].
  apply wp_bind, wp_gets. unfold ctx_handler. apply wp_bind, wp_modify, wp_bind, wp_modify, wp_bind, wp_gets. cbn [id].
  set (m2 := _ <| ctx_target_index := hit |>). destruct (in_trash m2); [by apply wp_modify|].
  apply wp_bind. unfold ctx_build_open_with. apply wp_bind, wp_selected, wp_bind, wp_gets. cbn [id].
  assert (Hrest : ∀ ow file, wp any_fault (acts ← ctx_build_actions; modify (fun m => m <| ctx_menu := Some (ctx_build_menu ow file acts) |>)) Q m2).
  { intros ow file. apply wp_bind. unfold ctx_build_actions. apply wp_bind, wp_selected_items, wp_bind, wp_gets. cbn [id].
    destruct (actions_match _ _); [by apply wp_ret, wp_modify|by apply wp_raise]. }
  destruct (entry_at (sel_of m2) m2) as [e|]; [|by apply wp_ret, Hrest].
  destruct (is_dir e); [by apply wp_ret, Hrest|]. destruct (bool_decide (mime_type_for_file _ = _)); by apply wp_ret, Hrest.
Qed.

(** Delete in the context menu asks about the item under the pointer, and when that is
    confirmed throws away what is selected, be it another item, several, or nothing. *)
Theorem menu_delete_takes_selection m hit e m1 menu idx m2 :
  in_trash m = false → entry_at hit m = Some e → handle (RightClick hit) m = Ok tt m1 → ctx_menu m1 = Some menu →
  item_at menu idx = RunItem ctx_delete_action → handle (MenuItem idx) m1 = Ok tt m2 →
  delete_ctx m2 = (false, trunc 256 (str "Move " ++ ["034"%char] ++ name e ++ ["034"%char] ++ str " to Trash?")) ∧
  ∃ m3, handle (DeleteResult true) m2 = Ok tt m3 ∧
    log m3 = match paths_at (selected m) m with [] => log m | paths => Submit FM_JOB_TRASH paths None :: log m end.
Proof.
  intros Ht He Hr Hmenu Hitem Hsel. destruct (right_click_keeps _ _ _ Hr) as (E1 & E2 & E3 & E4 & E5).
  assert (Hhit : (0 <=? hit) = true) by (unfold entry_at in He; by destruct (0 <=? hit)).
  assert (He1 : entry_at hit m1 = Some e) by (unfold entry_at in *; by rewrite E1).
  assert (Ht1 : in_trash m1 = false) by (unfold in_trash in *; by rewrite E3).
  revert Hsel. unfold handle at 1, mbind, prog_bind, gets. cbn [id]. rewrite Hmenu, bool_decide_eq_true_2 by by eexists. cbn [when].
  unfold ctx_select_cb, mbind, prog_bind, gets. cbn [id]. rewrite Hmenu, Hitem. cbn [run_item].
  unfold fm_delete_confirm, fileview_get_selected_items, mbind, prog_bind, gets. unfold mret, prog_ret. cbn [id]. rewrite E5, Hhit, Ht1. cbn [orb].
  destruct (isde_dialog_dismiss (delete_shell m1) m1) as [[] m1'|] eqn:Ed; [|done].
  assert (m1' = m1) as ->.
  { revert Ed. unfold isde_dialog_dismiss, skip, raise, mret, prog_ret. destruct (delete_shell m1); congruence. }
  unfold modify. intros [= <-]. cbn. unfold delete_question. cbn. rewrite He1. split; [done|].
  assert (Hp : ∀ m', entries m' = entries m → paths_at (selected m) m' = paths_at (selected m) m).
  { intros m' Hm'. unfold paths_at, entry_at. by rewrite Hm'. }
  unfold handle, delete_result_cb, fileview_get_selected_items, when, skip, fm_call, modify, gets, mbind, prog_bind, mret, prog_ret. cbn.
  change (is_open OpenShell) with true. cbn -[paths_at]. rewrite E2, Hp by done. destruct (paths_at (selected m) m) as [|p ps]; (eexists; split; [reflexivity|cbn; by rewrite E4]).
Qed.
End Claims.

(** ** A window of the file manager at work

    A directory with two headers and a program, an application for plain text, a script;
    the claims on windows at concrete states. *)

(** ** A world *)

#[local] Existing Instance insertion_sorts.

Definition content : list dirent :=
  [mkDirent (str ".") (Some (16877, 0, true)); mkDirent (str "main.h") (Some (33188, 10, false));
   mkDirent (str "run") (Some (33261, 70, false)); mkDirent (str ".git") (Some (16877, 0, true));
   mkDirent (str "Main.c") (Some (33188, 40, false)); mkDirent (str "src") (Some (16877, 0, true)); mkDirent (str "gone") None].
(** Every directory looks like this one, but one cannot be read. *)
#[local] Instance same_everywhere : Directories := {|
  listing _ p := if bool_decide (p = str "/nope") then None else Some content;
  watchable _ _ := true;
  exists_now _ _ := true |}.
Definition editor : IsdeDesktopEntry :=
  mkEntry (str "edit.desktop") (Some (str "Editor")) None None (Some (str "edit %f")) None None None (Some (str "text/plain")) None None None None None false false false false.
#[local] Instance plain_text : FileTypes := {|
  mime_type_for_file _ := str "text/plain";
  default_app _ := None;
  find_and_load _ := None;
  desktop_entries := [editor] |}.
#[local] Instance one_script : Scripts := {|
  actions := [mkFmAction (str "/s/zip.sh") (str "Compress") None None];
  fnmatch _ _ := false |}.
#[local] Instance some_home : Homes := {| XDG_DATA_HOME := None; home_dir := Some (str "/h") |}.

Definition blank : Fm := fresh_window true false [].
Definition after (es : list fm_event) : Fm :=
  match session None (str "/p") es blank with Ok _ m => m | Fault _ => blank end.
Definition next (e : fm_event) (m : Fm) : Fm := match handle e m with Ok _ m' => m' | Fault _ => blank end.

Example listed : map name (entries (after [])) = [str "src"; str "gone"; str "Main.c"; str "main.h"; str "run"].
Proof. vm_compute. reflexivity. Qed.

(** ** Witnesses *)

Definition far : list fm_event := replicate 66 (Navigate (str "/p")).

Definition stroll : list fm_event :=
  [Navigate (str "/a"); Navigate (str "/nope"); Navigate (str "/b"); GoBack; BackButton; GoForward; Navigate (str "/c")].
Lemma history_is_pages_witness :
  stored (after stroll) = [str "/p"; str "/a"; str "/c"] ∧
  ∃ h, last (follow stroll (after []) (mkPages [cwd (after [])] 0)) = Some h ∧
    stored (after stroll) = visited h ∧ hist_pos (after stroll) = Z.of_nat (shown_page h) ∧
    visited h !! shown_page h = Some (cwd (after stroll)).
Proof.
  split; [vm_compute; reflexivity|].
  apply (history_is_pages None (str "/p") stroll true false []); [vm_compute; reflexivity..|].
  unfold fits. apply (bool_decide_unpack _). vm_compute. exact I.
Defined.

Lemma listing_shown_witness :
  let m := after [ToggleHidden; ToggleView] in
  show_hidden m = true ∧ view_mode m = FM_VIEW_LIST ∧
  ∃ m' es', handle (Navigate (str "/q")) m = Ok tt m' ∧ cwd m' = str "/q" ∧ entries m' ≡ₚ es' ∧
    Forall2 (lists (str "/q")) (filter (fun d => listed_name (show_hidden m) (d_name d)) content) es' ∧
    StronglySorted (may_precede m) (entries m').
Proof.
  intros m. split; [vm_compute; reflexivity|]. split; [vm_compute; reflexivity|].
  apply (listing_shown None (str "/p") [ToggleHidden; ToggleView] true false []); vm_compute; reflexivity.
Defined.

Definition typed : Fm := after [TypeKey 109 false (str "m")].
Lemma tab_then_shift_tab_witness :
  typeahead_match typed = 2 ∧
  ∃ m1 m2, handle (TypeStep 1) typed = Ok tt m1 ∧ matches m1 (str "m") (typeahead_match m1) ∧
    handle (TypeStep (-1)) m1 = Ok tt m2 ∧ typeahead_match m2 = 2 ∧ selected m2 = [2].
Proof.
  split; [vm_compute; reflexivity|].
  apply (tab_then_shift_tab typed (str "m") 2); [vm_compute; reflexivity|discriminate|vm_compute; reflexivity|].
  eexists. split; vm_compute; reflexivity.
Defined.

Definition cut_two : Fm := after [Select [0; 2]; Cut].
Definition two_paths : list text := [str "/p/src"; str "/p/Main.c"].
Lemma paste_elsewhere_witness :
  let b := after [Navigate (str "/q")] in
  handle (PasteData true (gnome_data FM_CLIP_CUT two_paths)) b =
    Ok tt (b <| log := Submit FM_JOB_MOVE two_paths (Some (cwd b)) :: log b |>).
Proof.
  cbv zeta. apply (paste_elsewhere cut_two _ FM_CLIP_CUT two_paths true); [vm_compute; reflexivity|discriminate| |vm_compute; reflexivity].
  unfold plain_path. apply (bool_decide_unpack _). vm_compute. exact I.
Defined.

Lemma menu_does_what_it_says_witness :
  says (str "text/plain") (str "Compress") (item_at (ctx_build_menu [0%nat] (Some (str "/p/Main.c", str "text/plain")) [0%nat]) 3).
Proof. apply menu_does_what_it_says; [lia|vm_compute; reflexivity]. Defined.

(** Two items are selected, and the menu is opened on a third. *)
Definition chosen_two : Fm := after [Select [0; 2]].
Definition clicked : Fm := next (RightClick 3) chosen_two.
Definition asked : Fm := next (MenuItem 10) clicked.
Lemma menu_delete_takes_selection_witness :
  delete_ctx asked = (false, trunc 256 (str "Move " ++ ["034"%char] ++ str "main.h" ++ ["034"%char] ++ str " to Trash?")) ∧
  ∃ m3, handle (DeleteResult true) asked = Ok tt m3 ∧ log m3 = Submit FM_JOB_TRASH two_paths None :: log chosen_two.
Proof.
  destruct (entry_at 3 chosen_two) as [e|] eqn:He; [|vm_compute in He; discriminate]. destruct (ctx_menu clicked) as [menu|] eqn:Hm; [|vm_compute in Hm; discriminate].
  destruct (menu_delete_takes_selection chosen_two 3 e clicked menu 10 asked) as [E1 E2];
    [vm_compute; reflexivity|exact He|vm_compute; reflexivity|exact Hm|..].
  - vm_compute in Hm. injection Hm as <-. vm_compute. reflexivity.
  - vm_compute. reflexivity.
  - vm_compute in He. injection He as <-. split; [exact E1|]. exact E2.
Defined.

(** ** What the code does not mean to do *)

(** A page back is shown, but the watch stays on the directory that was left. *)
Example back_keeps_watch :
  let m := after [Navigate (str "/a"); GoBack] in cwd m = str "/p" ∧ cwd_wd m = Some (str "/a").
Proof. vm_compute. done. Qed.

(** The menu is closed by a click on an item; the key Delete still asks about the item it
    was opened on, and takes that one. *)
Example dismissed_target :
  let m := after [RightClick 3; Select [0]; Activate ButtonDown 400 1000 0; Delete; DeleteResult true] in
  selected m = [0] ∧ head (log m) = Some (Submit FM_JOB_TRASH [str "/p/main.h"] None).
Proof. vm_compute. done. Qed.

(** A file is dragged as a move to a folder: the copy is queued, and the file is removed
    before the copy has begun. *)
Definition dragged : Fm := after [Select [2]; StartDrag].
Definition dragged_data : text := default [] (drag_convert dragged).
Example moved_before_copied :
  take 2 (List.filter (fun c => match c with RemoveFile _ | Submit _ _ _ => true | _ => false end)
    (log (next (DragFinished true true) (next (DropData dragged_data true) (next (DragMotion 0) dragged))))) =
  [RemoveFile (str "/p/Main.c"); Submit FM_JOB_COPY [str "/p/Main.c"] (Some (str "/p/src"))].
Proof. vm_compute. reflexivity. Qed.

(** The same file is dropped in another window that shows the same directory: nothing is
    copied, and the file is removed. *)
Example dropped_elsewhere :
  log (next (DropData dragged_data true) (after [])) = log (after []) ∧
  RemoveFile (str "/p/Main.c") ∈ log (next (DragFinished true true) dragged).
Proof. split; [vm_compute; reflexivity|]. vm_compute. by do 1 right; left. Qed.
