(* ===== verification/CalcMachine.v ===== *)
(** * isde-calc: the calculator state machine (calc/src/math.c)

    The static variables of math.c and the globals [rpn] and [dispstr] of
    main.c are the fields of [calc]; the LCD label and the nine indicators
    that [draw] and [setflag] update are fields too, so that what the user
    sees is part of the state.  Every function of math.c that changes state is
    a program on [calc] of the same name.  The build defines IEEE and
    HAVE_STRLCPY (calc/CMakeLists.txt), so errno is not consulted and no
    SIGFPE handler is installed. *)

From S2P Require Import Prelude.
From S2P Require Import CString.
From S2P Require Import CFloat.
Open Scope Z_scope.

(** ** Keys (calc.h) *)

Inductive key :=
  | kRECIP | kSQR | kSQRT | kCLR | kOFF | kINV | kSIN | kCOS | kTAN | kDRG
  | kE | kEE | kLOG | kLN | kPOW | kPI | kFACT | kLPAR | kRPAR | kDIV
  | kSTO | kSEVEN | kEIGHT | kNINE | kMUL | kRCL | kFOUR | kFIVE | kSIX | kSUB
  | kSUM | kONE | kTWO | kTHREE | kADD | kEXC | kZERO | kDEC | kNEG | kEQU
  | kENTR | kXXY | kEXP | k10X | kROLL | kNOP | kBKSP | kAND | kBASE | kMOD
  | kNOT | kOR | kSHL | kSHR | kXOR | kTRUNC | kxA | kxB | kxC | kxD | kxE | kxF.

#[export] Instance key_eq_dec : EqDecision key.
Proof. solve_decision. Defined.

Definition key_eqb (a b : key) : bool := bool_decide (a = b).

(** ** The C mathematics library

    The transcendental functions math.c calls; their accuracy is not
    specified, so they are parameters. *)
Class Libm := {
  pow : double → double → double;
  log10 : double → double;
  exp : double → double;
  log : double → double;
  sin : double → double;
  cos : double → double;
  tan : double → double;
  asin : double → double;
  acos : double → double;
  atan : double → double;
}.

(** ** State *)

Definition MAXDISP : nat := 11.
Definition DEG := 0.
Definition RAD := 1.
Definition GRAD := 2.
Definition M_PI : double := d_of_dec false 314159265358979323846 (-20).
Definition M_E : double := d_of_dec false 27182818284590452354 (-19).
Definition XCALC_MEMORY : nat := 10.
Definition STACKMAX : nat := 32.
Definition LCD_STR_LEN : nat := 32.

Definition XCalc_MEMORY : nat := 0.
Definition XCalc_INVERSE : nat := 1.
Definition XCalc_DEGREE : nat := 2.
Definition XCalc_RADIAN : nat := 3.
Definition XCalc_GRADAM : nat := 4.
Definition XCalc_PAREN : nat := 5.
Definition XCalc_HEX : nat := 6.
Definition XCalc_DEC : nat := 7.
Definition XCalc_OCT : nat := 8.

Record calc := mkCalc {
  rpn : bool;
  dispstr : cbuf;
  flagINV : Z; flagPAREN : Z; flagM : Z; drgmode : Z; numbase : Z;
  drg2rad : double; rad2drg : double;
  entered : Z; lift_enabled : Z;
  CLR : Z; Dpoint : Z; clrdisp : Z;
  lastop : key; memop : key; exponent : Z;
  acc : double; dnum : double; mem : list double;
  opstack : list key; opsp : nat;
  numstack : list double; numsp : nat;
  lcd : list char; ind : list bool
}.

#[export] Instance calc_eta : RecEta calc := Build_RecEta _ (fun s =>
  mkCalc (rpn s) (dispstr s) (flagINV s) (flagPAREN s) (flagM s) (drgmode s)
    (numbase s) (drg2rad s) (rad2drg s) (entered s) (lift_enabled s) (CLR s)
    (Dpoint s) (clrdisp s) (lastop s) (memop s) (exponent s) (acc s) (dnum s)
    (mem s) (opstack s) (opsp s) (numstack s) (numsp s) (lcd s) (ind s)).

Abbreviation cprog := (prog calc).
Notation "p =: v" := (modify (fun s : calc => s <| p := v |>))
  (at level 70, no associativity) : c_scope.
Notation "p ++:" := (modify (fun s : calc => s <| p := p s + 1 |>))
  (at level 1, no associativity) : c_scope.
Notation "p --:" := (modify (fun s : calc => s <| p := p s - 1 |>))
  (at level 1, no associativity) : c_scope.

(** The static initialisers of math.c and main.c, for the given mode. *)
Definition initial (rpn_mode : bool) : calc :=
  mkCalc rpn_mode (replicate LCD_STR_LEN NUL) 0 0 0 0 0
    (ddiv M_PI (d_of_Z 180)) (ddiv (d_of_Z 180) M_PI) 1 0 0 0 1
    kCLR kCLR 0 dzero dzero (replicate XCALC_MEMORY dzero)
    (replicate STACKMAX kRECIP) 0 (replicate STACKMAX dzero) 0 []
    (replicate 9 true).

(** ** The display string *)

(** The C string in [dispstr]; scanning an unterminated array is a fault. *)
Definition disp : cprog (list char) := fun s =>
  if terminated (dispstr s) then Ok (cstr (dispstr s)) s else Fault OutOfBounds.

(** Apply a buffer operation to [dispstr]. *)
Definition on_disp (f : cbuf → option cbuf) : cprog unit :=
  lift_oob (fun s => b ← f (dispstr s); Some (s <| dispstr := b |>)).

Definition parse_double : cprog unit :=
  d ← disp;
  nb ← gets numbase;
  if nb =? 8 then dnum =: d_of_Z (default 0 (sscanf_ulong 8 d))
  else if nb =? 16 then dnum =: d_of_Z (default 0 (sscanf_ulong 16 d))
  else match sscanf_lf d with
       | Some x => dnum =: x
       | None => skip
       end.

Definition format_double (n : double) : cprog unit :=
  nb ← gets numbase;
  on_disp (snprintf
    (if nb =? 8 then print_ulong 8 (to_long n)
     else if nb =? 16 then print_ulong 16 (to_long n)
     else print_g n)).

(** main.c: [draw] sets the LCD label, [setflag] maps an indicator; [setflags]
    is a run of [setflag] calls. *)
Definition draw (s : list char) : cprog unit := lcd =: s.
Definition setflag (l : list bool) (f : nat * bool) : list bool :=
  <[fst f := snd f]> l.
Definition setflags (fs : list (nat * bool)) : cprog unit :=
  modify (fun s => s <| ind := foldl setflag (ind s) fs |>).

Definition DrawDisplay : cprog unit :=
  d ← disp;
  (if decide (MAXDISP ≤ length d)%nat then
     match strchr "e"%char d with
     | None => on_disp (buf_set 12 NUL)
     | Some estr =>
       let keep := if decide (length estr ≤ 4)%nat then 8%nat else 7%nat in
       on_disp (strlcpy (take 31 (take keep d ++ estr)))
     end
   else skip);;
  d' ← disp;
  draw d';;
  s ← gets id;
  setflags [(XCalc_MEMORY, truthy (flagM s));
            (XCalc_INVERSE, truthy (flagINV s));
            (XCalc_DEGREE, drgmode s =? DEG);
            (XCalc_RADIAN, drgmode s =? RAD);
            (XCalc_GRADAM, drgmode s =? GRAD);
            (XCalc_PAREN, truthy (flagPAREN s));
            (XCalc_HEX, numbase s =? 16);
            (XCalc_DEC, numbase s =? 10);
            (XCalc_OCT, numbase s =? 8)].

(** ** Stacks *)

Definition stack_error : cprog unit :=
  on_disp (strlcpy (str "stack error"));;
  entered =: 3.

Definition get_cell {A} (l : list A) (i : nat) : cprog A :=
  match l !! i with Some x => mret x | None => raise OutOfBounds end.

Definition PushOp (op : key) : cprog unit :=
  s ← gets id;
  if decide (opsp s = STACKMAX) then stack_error
  else if decide (opsp s < length (opstack s))%nat
  then modify (fun s => s <| opstack := <[opsp s := op]> (opstack s) |>
                          <| opsp := S (opsp s) |>)
  else raise OutOfBounds.

Definition PopOp : cprog key :=
  s ← gets id;
  match opsp s with
  | O => stack_error;; mret kNOP
  | S n => opsp =: n;; get_cell (opstack s) n
  end.

Definition isopempty : cprog bool :=
  n ← gets opsp;
  mret (bool_decide (n = O)).

(** [numstack[0..2]] shifted up with [x] put at the bottom: the RPN push. *)
Definition rpn_push (x : double) (st : list double) : list double :=
  match st with
  | a :: b :: c :: rest => x :: a :: b :: rest
  | _ => st
  end.

(** The RPN pop: [numstack[2]] is kept and copied down. *)
Definition rpn_pop (st : list double) : list double :=
  match st with
  | a :: b :: c :: rest => b :: c :: c :: rest
  | _ => st
  end.

Definition PushNum (num : double) : cprog unit :=
  s ← gets id;
  if rpn s then modify (fun s => s <| numstack := rpn_push num (numstack s) |>)
  else if decide (numsp s = STACKMAX) then stack_error
  else if decide (numsp s < length (numstack s))%nat
  then modify (fun s => s <| numstack := <[numsp s := num]> (numstack s) |>
                          <| numsp := S (numsp s) |>)
  else raise OutOfBounds.

Definition PopNum : cprog double :=
  s ← gets id;
  if rpn s then
    tmp ← get_cell (numstack s) 0;
    modify (fun s => s <| numstack := rpn_pop (numstack s) |>);;
    mret tmp
  else match numsp s with
  | O => stack_error;; mret dzero
  | S n => numsp =: n;; get_cell (numstack s) n
  end.

(** Roll [dnum] and the three stack cells; [dir] is INV, up when set. *)
Definition RollNum (dir : Z) : cprog unit :=
  modify (fun s =>
    match numstack s with
    | a :: b :: c :: rest =>
      if truthy dir
      then s <| numstack := dnum s :: a :: b :: rest |> <| dnum := c |>
      else s <| numstack := b :: c :: dnum s :: rest |> <| dnum := a |>
    | _ => s
    end).

Definition ClearStacks : cprog unit :=
  s ← gets id;
  when (rpn s) (modify (fun s => s <| numstack :=
     match numstack s with
     | _ :: _ :: _ :: rest => dzero :: dzero :: dzero :: rest
     | st => st
     end |>));;
  numsp =: O;;
  opsp =: O.

Definition priority (op : key) : Z :=
  match op with
  | kPOW => 6
  | kMUL | kDIV | kMOD => 5
  | kADD | kSUB => 4
  | kSHL | kSHR => 3
  | kAND => 2
  | kXOR => 1
  | kOR => 0
  | _ => 0
  end.

(** ** Entry *)

Definition pre_op (keynum : key) : cprog bool :=
  s ← gets id;
  if (entered s =? 3) && negb (key_eqb keynum kCLR || key_eqb keynum kOFF) then
    if rpn s then
      clrdisp++:;;
      CLR =: 0;;
      mret false
    else mret true
  else
    when (negb (key_eqb keynum kCLR)) (CLR =: 0);;
    mret false.

Definition change_base : cprog unit :=
  parse_double;;
  s ← gets id;
  (if dle dzero (dnum s) then
     (if numbase s =? 8 then numbase =: 10
      else if numbase s =? 10 then numbase =: 16
      else if numbase s =? 16 then numbase =: 8
      else skip);;
     format_double (dnum s)
   else on_disp (strlcpy (str "error")));;
  DrawDisplay.

Definition memory_cell (keynum : key) : nat :=
  match keynum with
  | kONE => 1 | kTWO => 2 | kTHREE => 3 | kFOUR => 4 | kFIVE => 5
  | kSIX => 6 | kSEVEN => 7 | kEIGHT => 8 | kNINE => 9 | kZERO => 0
  | _ => 0
  end.

Definition set_mem (cell : nat) (x : double) : cprog unit :=
  modify (fun s => s <| mem := <[cell := x]> (mem s) |>).

(** The digit [numeric] appends in the given base, if the key is one there. *)
Definition numeric_char (keynum : key) (base : Z) : option char :=
  match keynum with
  | kZERO => Some "0"%char | kONE => Some "1"%char | kTWO => Some "2"%char
  | kTHREE => Some "3"%char | kFOUR => Some "4"%char | kFIVE => Some "5"%char
  | kSIX => Some "6"%char | kSEVEN => Some "7"%char
  | kEIGHT => if 8 <? base then Some "8"%char else None
  | kNINE => if 8 <? base then Some "9"%char else None
  | kxA => if 10 <? base then Some "A"%char else None
  | kxB => if 10 <? base then Some "B"%char else None
  | kxC => if 10 <? base then Some "C"%char else None
  | kxD => if 10 <? base then Some "D"%char else None
  | kxE => if 10 <? base then Some "E"%char else None
  | kxF => if 10 <? base then Some "F"%char else None
  | _ => None
  end.

(** The first half of [numeric]: in RPN mode a digit after STO, RCL or SUM
    names a memory cell. *)
Definition numeric_memory (op keynum : key) : cprog unit :=
  let cell := memory_cell keynum in
  s ← gets id;
  m ← get_cell (mem s) cell;
  (match op with
   | kSTO =>
     set_mem cell (dnum s);;
     lift_enabled =: 1;; entered =: 2;; clrdisp++:
   | kRCL =>
     PushNum (dnum s);;
     dnum =: m;;
     format_double m;;
     lift_enabled =: 1;; entered =: 1;; clrdisp++:
   | kSUM =>
     set_mem cell (dadd m (dnum s));;
     lift_enabled =: 1;; entered =: 2;; clrdisp++:
   | _ => skip
   end);;
  memop =: kCLR;;
  DrawDisplay.

Definition numeric_digit (keynum : key) : cprog unit :=
  s ← gets id;
  when (truthy (clrdisp s)) (
    on_disp (buf_set 0 NUL);;
    Dpoint =: 0;;
    exponent =: 0;;
    when (truthy (Z.land (of_bool (rpn s)) (lift_enabled s))) (PushNum (dnum s)));;
  d ← disp;
  if decide (MAXDISP ≤ length d)%nat then skip
  else match numeric_char keynum (numbase s) with
  | None => skip
  | Some c =>
    on_disp (strcat [c]);;
    DrawDisplay;;
    when (truthy (clrdisp s) && negb (key_eqb keynum kZERO)) (clrdisp =: 0);;
    memop =: keynum;;
    entered =: 1;;
    lift_enabled =: 0
  end.

Definition numeric (keynum : key) : cprog unit :=
  flagINV =: 0;;
  s ← gets id;
  match rpn s, memop s with
  | true, (kSTO | kRCL | kSUM) as op => numeric_memory op keynum
  | _, _ => numeric_digit keynum
  end.

Definition clearf : cprog unit :=
  flagINV =: 0;;
  s ← gets id;
  when (truthy (CLR s) && negb (rpn s)) (ClearStacks;; flagPAREN =: 0);;
  CLR++:;;
  Dpoint =: 0;;
  exponent =: 0;;
  clrdisp =: 1;;
  entered =: 1;;
  on_disp (strlcpy (str "0"));;
  DrawDisplay.

Definition bkspf : cprog unit :=
  lift_enabled =: 0;;
  s ← gets id;
  if negb (truthy (flagINV s)) then
    if negb (entered s =? 1) then clearf
    else if truthy (clrdisp s) then skip
    else
      d ← disp;
      when (bool_decide (0 < length d)%nat) (
        when (bool_decide (last d = Some "."%char)) (Dpoint =: 0);;
        on_disp (buf_set (Z.of_nat (length d) - 1) NUL));;
      d' ← disp;
      when (bool_decide (length d' = O)) (
        on_disp (strcat (str "0"));;
        clrdisp++:);;
      DrawDisplay
  else
    on_disp (strlcpy (str "0"));;
    dnum =: dzero;;
    clrdisp++:;;
    flagINV =: 0;;
    DrawDisplay.

Definition decf : cprog unit :=
  flagINV =: 0;;
  s ← gets id;
  when (truthy (clrdisp s)) (
    when (rpn s && truthy (lift_enabled s)) (PushNum (dnum s));;
    on_disp (strlcpy (str "0")));;
  when (negb (truthy (Dpoint s))) (
    on_disp (strcat (str "."));;
    DrawDisplay;;
    Dpoint++:);;
  clrdisp =: 0;;
  entered =: 1.

Definition eef : cprog unit :=
  flagINV =: 0;;
  s ← gets id;
  when (truthy (clrdisp s)) (
    when (rpn s && truthy (lift_enabled s)) (PushNum (dnum s));;
    on_disp (strlcpy (if rpn s then str "1" else str "0")));;
  when (negb (truthy (exponent s))) (
    on_disp (strcat (str "E+"));;
    DrawDisplay;;
    d ← disp;
    exponent =: Z.of_nat (length d) - 1);;
  clrdisp =: 0;;
  entered =: 1.

Definition negf : cprog unit :=
  flagINV =: 0;;
  s ← gets id;
  if truthy (exponent s) then
    match buf_get (exponent s) (dispstr s) with
    | None => raise OutOfBounds
    | Some c =>
      on_disp (buf_set (exponent s) (if decide (c = "-"%char) then "+"%char else "-"%char));;
      DrawDisplay
    end
  else
    d ← disp;
    if decide (d = str "0") then skip
    else
      (if decide (head d = Some "-"%char)
       then on_disp (write_str 0 (tail d))
       else on_disp (strlcpy (take 32 (str "-" ++ d))));;
      when (entered s =? 2) (dnum =: dmul (d_of_Z (-1)) (dnum s));;
      DrawDisplay.

(** ** Arithmetic *)

(** The switch shared by [twoop], [twof], [equf] and [rparf]:
    [acc = acc op dnum].  Integer remainder by zero, and LONG_MIN % -1, trap.
    Shift counts are taken modulo 64 as the processor does. *)
Definition arith `{Libm} (op : key) (a d : double) : cprog double :=
  let la := to_long a in
  let ld := to_long d in
  match op with
  | kADD => mret (dadd a d)
  | kSUB => mret (dsub a d)
  | kMUL => mret (dmul a d)
  | kDIV => mret (ddiv a d)
  | kPOW => mret (pow a d)
  | kMOD =>
    if (ld =? 0) || ((la =? - 2 ^ 63) && (ld =? -1)) then raise Trap
    else mret (d_of_Z (Z.rem la ld))
  | kAND => mret (d_of_Z (Z.land la ld))
  | kOR => mret (d_of_Z (Z.lor la ld))
  | kXOR => mret (d_of_Z (Z.lxor la ld))
  | kSHL => mret (d_of_Z (s64 (Z.shiftl la (ld mod 64))))
  | kSHR => mret (d_of_Z (Z.shiftr la (ld mod 64)))
  | _ => mret a
  end.

(** [acc = acc op dnum] on the static variables. *)
Definition arith_acc `{Libm} (op : key) : cprog unit :=
  s ← gets id;
  r ← arith op (acc s) (dnum s);
  acc =: r.

Definition parse_if_entered : cprog unit :=
  e ← gets entered;
  when (e =? 1) parse_double.

(** The branch of [twoop] that pops the pending operator. *)
Definition twoop_pending `{Libm} (keynum : key) : cprog unit :=
  op ← PopOp;
  lastop =: op;;
  d ← gets dnum;
  if key_eqb op kLPAR then
    PushOp kLPAR;; PushOp keynum;; PushNum d
  else if priority op <? priority keynum then
    PushNum d;; PushOp op;; PushOp keynum
  else
    a ← PopNum;
    acc =: a;;
    arith_acc op;;
    r ← gets acc;
    PushNum r;;
    PushOp keynum;;
    format_double r;;
    DrawDisplay;;
    dnum =: r.

Definition twoop `{Libm} (keynum : key) : cprog unit :=
  inv ← gets flagINV;
  when (truthy inv) (flagINV =: 0;; DrawDisplay);;
  e ← gets entered;
  if e =? 0 then
    emp ← isopempty;
    when (negb emp) (PopOp;; skip);;
    PushOp keynum
  else
    parse_if_entered;;
    CLR =: 1;; clrdisp =: 1;;
    exponent =: 0;; Dpoint =: 0;; entered =: 0;;
    emp ← isopempty;
    if negb emp then twoop_pending keynum
    else
      PushOp keynum;;
      d ← gets dnum;
      PushNum d.

Definition twof `{Libm} (keynum : key) : cprog unit :=
  inv ← gets flagINV;
  when (truthy inv) (flagINV =: 0;; DrawDisplay);;
  e ← gets entered;
  if e =? 0 then skip
  else
    parse_if_entered;;
    a ← PopNum;
    acc =: a;;
    (match keynum with
     | kXXY => d ← gets dnum; PushNum d
     | _ => arith_acc keynum
     end);;
    r ← gets acc;
    format_double r;;
    DrawDisplay;;
    clrdisp++:;;
    exponent =: 0;; Dpoint =: 0;;
    entered =: 2;;
    lift_enabled =: 1;;
    dnum =: r.

Definition entrf : cprog unit :=
  flagINV =: 0;;
  e ← gets entered;
  if e =? 0 then skip
  else
    CLR =: 1;; clrdisp =: 1;;
    exponent =: 0;; Dpoint =: 0;;
    parse_if_entered;;
    entered =: 2;;
    memop =: kENTR;;
    d ← gets dnum;
    PushNum d;;
    lift_enabled =: 0.

(** One round of the loop of [equf] and of [rparf] after the operator is
    popped: operate on the two top numbers and push the result. *)
Definition reduce_step `{Libm} (op : key) : cprog unit :=
  d ← PopNum;
  dnum =: d;;
  a ← PopNum;
  acc =: a;;
  arith_acc op;;
  r ← gets acc;
  dnum =: r;;
  PushNum r.

(** [equf]'s round: a left parenthesis pushes [acc] back. *)
Definition equf_step `{Libm} : cprog unit :=
  d ← PopNum;
  dnum =: d;;
  a ← PopNum;
  acc =: a;;
  op ← PopOp;
  lastop =: op;;
  (match op with
   | kLPAR => flagPAREN--:;; PushNum a
   | _ => arith_acc op
   end);;
  r ← gets acc;
  dnum =: r;;
  PushNum r.

(** [while (!isopempty())]; each round pops one operator. *)
Fixpoint equf_loop `{Libm} (fuel : nat) : cprog unit :=
  emp ← isopempty;
  if (emp : bool) then skip
  else match fuel with
  | O => skip
  | S n => equf_step;; equf_loop n
  end.

Definition equf `{Libm} : cprog unit :=
  flagINV =: 0;;
  e ← gets entered;
  if e =? 0 then skip
  else
    CLR =: 1;; clrdisp =: 1;;
    exponent =: 0;; Dpoint =: 0;;
    parse_if_entered;;
    entered =: 2;;
    d ← gets dnum;
    PushNum d;;
    equf_loop STACKMAX;;
    r ← gets dnum;
    format_double r;;
    DrawDisplay.

Definition lparf : cprog unit :=
  flagINV =: 0;;
  PushOp kLPAR;;
  flagPAREN++:;;
  DrawDisplay.

Definition rollf : cprog unit :=
  e ← gets entered;
  if e =? 0 then skip
  else
    parse_if_entered;;
    entered =: 2;;
    lift_enabled =: 1;;
    inv ← gets flagINV;
    RollNum inv;;
    flagINV =: 0;;
    clrdisp++:;;
    r ← gets dnum;
    format_double r;;
    DrawDisplay.

(** [while (!isopempty() && (lastop=PopOp())!=kLPAR)] *)
Fixpoint rparf_loop `{Libm} (fuel : nat) : cprog unit :=
  emp ← isopempty;
  if (emp : bool) then skip
  else match fuel with
  | O => skip
  | S n =>
    op ← PopOp;
    lastop =: op;;
    if key_eqb op kLPAR then skip
    else reduce_step op;; rparf_loop n
  end.

Definition rparf `{Libm} : cprog unit :=
  flagINV =: 0;;
  s ← gets id;
  if entered s =? 0 then skip
  else if flagPAREN s =? 0 then skip
  else
    clrdisp++:;;
    exponent =: 0;; Dpoint =: 0;;
    parse_if_entered;;
    entered =: 2;;
    d ← gets dnum;
    PushNum d;;
    rparf_loop STACKMAX;;
    PopNum;;
    flagPAREN--:;;
    entered =: 2;;
    r ← gets dnum;
    format_double r;;
    DrawDisplay.

Definition drgf : cprog unit :=
  inv ← gets flagINV;
  when (truthy inv) (
    parse_if_entered;;
    s ← gets id;
    (if drgmode s =? DEG then dnum =: ddiv (dmul (dnum s) M_PI) (d_of_Z 180)
     else if drgmode s =? RAD then dnum =: ddiv (dmul (dnum s) (d_of_Z 200)) M_PI
     else if drgmode s =? GRAD
     then dnum =: ddiv (dmul (dnum s) (d_of_Z 90)) (d_of_Z 100)
     else skip);;
    entered =: 2;;
    clrdisp =: 1;;
    flagINV =: 0;;
    r ← gets dnum;
    format_double r);;
  flagINV =: 0;;
  modify (fun s => s <| drgmode := Z.rem (drgmode s + 1) 3 |>);;
  m ← gets drgmode;
  (if m =? DEG then
     drg2rad =: ddiv M_PI (d_of_Z 180);; rad2drg =: ddiv (d_of_Z 180) M_PI
   else if m =? RAD then
     drg2rad =: d_of_Z 1;; rad2drg =: d_of_Z 1
   else if m =? GRAD then
     drg2rad =: ddiv M_PI (d_of_Z 200);; rad2drg =: ddiv (d_of_Z 200) M_PI
   else skip);;
  DrawDisplay.

Definition invf : cprog unit :=
  modify (fun s => s <| flagINV := Z.lnot (flagINV s) |>);;
  DrawDisplay.

Definition memf (keynum : key) : cprog unit :=
  memop =: keynum;;
  parse_if_entered;;
  entered =: 2;;
  clrdisp++:;;
  lift_enabled =: 0.

(** [for (j=1,dnum=1.0; j<=i; j++) dnum *= (float)j] *)
Fixpoint fact_loop (n : nat) (j : Z) (d : double) : double :=
  match n with
  | O => d
  | S n' => fact_loop n' (j + 1) (dmul d (float_of_Z j))
  end.

Definition invert : cprog unit :=
  modify (fun s => s <| flagINV := of_bool (negb (truthy (flagINV s))) |>).

(** [if (flagINV) dnum = f(dnum); else dnum = g(dnum);] *)
Definition inv_or (f g : calc → double) : cprog unit :=
  modify (fun s => s <| dnum := if truthy (flagINV s) then f s else g s |>).

Definition update_flagM : cprog unit :=
  s ← gets id;
  m ← get_cell (mem s) 0;
  flagM =: of_bool (negb (deq m dzero)).

Definition rpn_push_unless_entr : cprog unit :=
  s ← gets id;
  when (rpn s && negb (key_eqb (memop s) kENTR)) (PushNum (dnum s)).

(** The factorial of [oneop], with its error. *)
Definition oneop_fact : cprog unit :=
  d ← gets dnum;
  if negb (deq (dfloor d) d) || dlt d dzero || dlt (d_of_Z 500) d then
    on_disp (strlcpy (str "error"));;
    entered =: 3
  else dnum =: fact_loop (Z.to_nat (to_int (dfloor d))) 1 (d_of_Z 1).

Definition oneop_sqr `{Libm} : cprog unit :=
  inv_or (fun s => dmul (dnum s) (dnum s)) (fun s => dsqrt (dnum s)).
Definition oneop_log `{Libm} : cprog unit :=
  inv_or (fun s => pow (d_of_Z 10) (dnum s)) (fun s => log10 (dnum s)).
Definition oneop_ln `{Libm} : cprog unit :=
  inv_or (fun s => exp (dnum s)) (fun s => log (dnum s)).

(** The switch of [oneop]. *)
Definition oneop_switch `{Libm} (keynum : key) : cprog unit :=
  match keynum with
  | kE => rpn_push_unless_entr;; dnum =: M_E
  | kPI => rpn_push_unless_entr;; dnum =: M_PI
  | kRECIP => modify (fun s => s <| dnum := ddiv (d_of_Z 1) (dnum s) |>)
  | kSQR => invert;; oneop_sqr
  | kSQRT => oneop_sqr
  | k10X => invert;; oneop_log
  | kLOG => oneop_log
  | kEXP => invert;; oneop_ln
  | kLN => oneop_ln
  | kSIN => inv_or (fun s => dmul (asin (dnum s)) (rad2drg s))
                   (fun s => sin (dmul (dnum s) (drg2rad s)))
  | kCOS => inv_or (fun s => dmul (acos (dnum s)) (rad2drg s))
                   (fun s => cos (dmul (dnum s) (drg2rad s)))
  | kTAN => inv_or (fun s => dmul (atan (dnum s)) (rad2drg s))
                   (fun s => tan (dmul (dnum s) (drg2rad s)))
  | kSTO => s ← gets id; set_mem 0 (dnum s);; update_flagM
  | kRCL =>
    s ← gets id;
    when (rpn s && truthy (lift_enabled s)) (PushNum (dnum s));;
    m ← get_cell (mem s) 0;
    dnum =: m;; update_flagM
  | kSUM =>
    s ← gets id;
    m ← get_cell (mem s) 0;
    set_mem 0 (dadd m (dnum s));; update_flagM
  | kEXC =>
    s ← gets id;
    m ← get_cell (mem s) 0;
    dnum =: m;; set_mem 0 (dnum s);; update_flagM
  | kFACT => oneop_fact
  | kNOT => modify (fun s => s <| dnum := d_of_Z (Z.lnot (to_long (dnum s))) |>)
  | kTRUNC => modify (fun s => s <| dnum := dtrunc (dnum s) |>)
  | _ => skip
  end.

Definition oneop `{Libm} (keynum : key) : cprog unit :=
  parse_if_entered;;
  entered =: 2;;
  oneop_switch keynum;;
  e ← gets entered;
  if e =? 3 then DrawDisplay
  else
    memop =: keynum;;
    entered =: 2;;
    clrdisp =: 1;;
    flagINV =: 0;;
    lift_enabled =: 1;;
    r ← gets dnum;
    format_double r;;
    DrawDisplay.

Definition ResetCalc : cprog unit :=
  flagPAREN =: 0;; flagINV =: 0;; flagM =: 0;; drgmode =: DEG;;
  modify (fun s => s <| numbase := if numbase s =? 0 then 10 else numbase s |>);;
  setflags [(XCalc_MEMORY, false); (XCalc_INVERSE, false); (XCalc_PAREN, false);
            (XCalc_RADIAN, false); (XCalc_GRADAM, false); (XCalc_DEGREE, true);
            (XCalc_HEX, false); (XCalc_DEC, true); (XCalc_OCT, false)];;
  on_disp (strlcpy (str "0"));;
  d ← disp;
  draw d;;
  ClearStacks;;
  drg2rad =: ddiv M_PI (d_of_Z 180);;
  rad2drg =: ddiv (d_of_Z 180) M_PI.

Definition offf : cprog unit :=
  ResetCalc;;
  clrdisp =: 1;; entered =: 1;;
  lift_enabled =: 0;;
  set_mem 0 dzero;;
  dnum =: dzero;;
  s ← gets id;
  when (rpn s) (mem =: take 1 (mem s) ++ replicate (XCALC_MEMORY - 1) dzero);;
  Dpoint =: 0;; exponent =: 0;;
  DrawDisplay.
