(* ===== verification/CalcDispatch.v ===== *)
(** * isde-calc: dispatch (calc/src/actions.c, the tables of calc/src/main.c)

    Two paths lead from the user to the machine: a keypad button calls
    [calc_do_op] with its key, a keyboard event runs a named action of the
    [Actions] table.  Both are here, with the keypads and key bindings of
    main.c as data. *)

From S2P Require Import Prelude.
From S2P Require Import CString.
From S2P Require Import CFloat.
From S2P Require Import CalcMachine.
Open Scope Z_scope.

(** [XCALC_PRE_OP(k); body; post_op();] in the IEEE build, where [post_op] is
    empty. *)
Definition with_pre_op (k : key) (body : cprog unit) : cprog unit :=
  stop ← pre_op k;
  if (stop : bool) then skip else body.

(** [rpn ? a : b] *)
Definition rpn_choice (a b : cprog unit) : cprog unit :=
  r ← gets rpn;
  if (r : bool) then a else b.

(** main.c: the bell is a stub. *)
Definition ringbell : cprog unit := skip.

(** The switch of [calc_do_op]. *)
Definition do_op_switch `{Libm} (op : key) : cprog unit :=
  match op with
  | kADD | kSUB | kMUL | kDIV | kPOW
  | kMOD | kAND | kOR | kXOR | kSHL | kSHR => rpn_choice (twof op) (twoop op)
  | kXXY => twof op
  | kRECIP | kSQR | kSQRT | kSIN | kCOS | kTAN
  | kLOG | kLN | kEXP | k10X | kE | kPI
  | kFACT | kNOT | kTRUNC => oneop op
  | kSTO => rpn_choice (memf kSTO) (oneop kSTO)
  | kRCL => rpn_choice (memf kRCL) (oneop kRCL)
  | kSUM => rpn_choice (memf kSUM) (oneop kSUM)
  | kEXC => oneop kEXC
  | kCLR => clearf
  | kOFF => offf
  | kINV => invf
  | kDRG => drgf
  | kEE => eef
  | kDEC => decf
  | kNEG => negf
  | kBKSP => bkspf
  | kLPAR => lparf
  | kRPAR => rparf
  | kENTR => entrf
  | kEQU => equf
  | kROLL => rollf
  | kBASE => change_base
  | kZERO | kONE | kTWO | kTHREE | kFOUR
  | kFIVE | kSIX | kSEVEN | kEIGHT | kNINE
  | kxA | kxB | kxC | kxD | kxE | kxF => numeric op
  | kNOP => ringbell
  end.

Definition calc_do_op `{Libm} (op : key) : cprog unit :=
  with_pre_op op (do_op_switch op).

(** A sequence of button presses. *)
Fixpoint press `{Libm} (ks : list key) : cprog unit :=
  match ks with
  | [] => skip
  | k :: ks' => calc_do_op k;; press ks'
  end.

(** The machine after [main] has initialised it and the presses [ks]. *)
Definition run `{Libm} (rpn_mode : bool) (ks : list key) : res calc unit :=
  (ResetCalc;; press ks) (initial rpn_mode).

(** ** Actions *)

Definition act_add `{Libm} : cprog unit :=
  with_pre_op kADD (rpn_choice (twof kADD) (twoop kADD)).

Definition act_and `{Libm} : cprog unit :=
  with_pre_op kAND (rpn_choice (twof kAND) (twoop kAND)).

Definition act_back : cprog unit :=
  with_pre_op kBKSP bkspf.

Definition act_base : cprog unit :=
  with_pre_op kBASE change_base.

Definition act_clearit : cprog unit :=
  with_pre_op kCLR clearf.

Definition act_cosine `{Libm} : cprog unit :=
  with_pre_op kCOS (oneop kCOS).

Definition act_decimal : cprog unit :=
  with_pre_op kDEC decf.

Definition act_degree : cprog unit :=
  with_pre_op kDRG drgf.

Definition act_divide `{Libm} : cprog unit :=
  with_pre_op kDIV (rpn_choice (twof kDIV) (twoop kDIV)).

Definition act_e `{Libm} : cprog unit :=
  with_pre_op kE (oneop kE).

Definition act_enter : cprog unit :=
  with_pre_op kENTR entrf.

Definition act_epower `{Libm} : cprog unit :=
  with_pre_op kEXP (oneop kEXP).

Definition act_equal `{Libm} : cprog unit :=
  with_pre_op kEQU equf.

Definition act_exchange `{Libm} : cprog unit :=
  with_pre_op kEXC (oneop kEXC).

Definition act_factorial `{Libm} : cprog unit :=
  with_pre_op kFACT (oneop kFACT).

Definition act_inverse : cprog unit :=
  with_pre_op kINV invf.

Definition act_leftParen : cprog unit :=
  with_pre_op kLPAR lparf.

Definition act_logarithm `{Libm} : cprog unit :=
  with_pre_op kLOG (oneop kLOG).

Definition act_mod `{Libm} : cprog unit :=
  with_pre_op kMOD (rpn_choice (twof kMOD) (twoop kMOD)).

Definition act_multiply `{Libm} : cprog unit :=
  with_pre_op kMUL (rpn_choice (twof kMUL) (twoop kMUL)).

Definition act_naturalLog `{Libm} : cprog unit :=
  with_pre_op kLN (oneop kLN).

Definition act_negate : cprog unit :=
  with_pre_op kNEG negf.

Definition act_not `{Libm} : cprog unit :=
  with_pre_op kNOT (oneop kNOT).

Definition act_off : cprog unit :=
  with_pre_op kOFF offf.

Definition act_or `{Libm} : cprog unit :=
  with_pre_op kOR (rpn_choice (twof kOR) (twoop kOR)).

Definition act_pi `{Libm} : cprog unit :=
  with_pre_op kPI (oneop kPI).

Definition act_power `{Libm} : cprog unit :=
  with_pre_op kPOW (rpn_choice (twof kPOW) (twoop kPOW)).

Definition act_recall `{Libm} : cprog unit :=
  with_pre_op kRCL (rpn_choice (memf kRCL) (oneop kRCL)).

Definition act_reciprocal `{Libm} : cprog unit :=
  with_pre_op kRECIP (oneop kRECIP).

Definition act_rightParen `{Libm} : cprog unit :=
  with_pre_op kRPAR rparf.

Definition act_roll : cprog unit :=
  with_pre_op kROLL rollf.

Definition act_scientific : cprog unit :=
  with_pre_op kEE eef.

Definition act_shl `{Libm} : cprog unit :=
  with_pre_op kSHL (rpn_choice (twof kSHL) (twoop kSHL)).

Definition act_shr `{Libm} : cprog unit :=
  with_pre_op kSHR (rpn_choice (twof kSHR) (twoop kSHR)).

Definition act_sine `{Libm} : cprog unit :=
  with_pre_op kSIN (oneop kSIN).

Definition act_square `{Libm} : cprog unit :=
  with_pre_op kSQR (oneop kSQR).

Definition act_squareRoot `{Libm} : cprog unit :=
  with_pre_op kSQRT (oneop kSQRT).

Definition act_store `{Libm} : cprog unit :=
  with_pre_op kSTO (rpn_choice (memf kSTO) (oneop kSTO)).

Definition act_subtract `{Libm} : cprog unit :=
  with_pre_op kSUB (rpn_choice (twof kSUB) (twoop kSUB)).

Definition act_sum `{Libm} : cprog unit :=
  with_pre_op kSUM (rpn_choice (memf kSUM) (oneop kSUM)).

Definition act_tangent `{Libm} : cprog unit :=
  with_pre_op kTAN (oneop kTAN).

Definition act_tenpower `{Libm} : cprog unit :=
  with_pre_op k10X (oneop k10X).

Definition act_xtrunc `{Libm} : cprog unit :=
  with_pre_op kTRUNC (oneop kTRUNC).

Definition act_xor `{Libm} : cprog unit :=
  with_pre_op kXOR (rpn_choice (twof kXOR) (twoop kXOR)).

Definition act_XexchangeY `{Libm} : cprog unit :=
  with_pre_op kXXY (twof kXXY).

Definition act_bell : cprog unit := ringbell.
Definition act_nop : cprog unit := ringbell.

(** The digit action looks at the first character of its parameter. *)
Definition digit_key (c : char) : option key :=
  match c with
  | "0"%char => Some kZERO | "1"%char => Some kONE | "2"%char => Some kTWO
  | "3"%char => Some kTHREE | "4"%char => Some kFOUR | "5"%char => Some kFIVE
  | "6"%char => Some kSIX | "7"%char => Some kSEVEN | "8"%char => Some kEIGHT
  | "9"%char => Some kNINE | "A"%char => Some kxA | "B"%char => Some kxB
  | "C"%char => Some kxC | "D"%char => Some kxD | "E"%char => Some kxE
  | "F"%char => Some kxF
  | _ => None
  end.

Definition act_digit (c : char) : cprog unit :=
  match digit_key c with
  | Some k => with_pre_op k (numeric k)
  | None => skip
  end.

(** What an entry of the table does: an operation, a digit, leaving the
    program, or the selection (window-system code, not modelled). *)
Inductive action :=
  | AOp (m : cprog unit)
  | ADigit (m : char → cprog unit)
  | AQuit
  | ASelect.

Definition Actions `{Libm} : list (string * action) :=
  [("add", AOp act_add);
   ("and", AOp act_and);
   ("back", AOp act_back);
   ("base", AOp act_base);
   ("bell", AOp act_bell);
   ("clear", AOp act_clearit);
   ("cosine", AOp act_cosine);
   ("decimal", AOp act_decimal);
   ("degree", AOp act_degree);
   ("digit", ADigit act_digit);
   ("divide", AOp act_divide);
   ("e", AOp act_e);
   ("enter", AOp act_enter);
   ("epower", AOp act_epower);
   ("equal", AOp act_equal);
   ("exchange", AOp act_exchange);
   ("factorial", AOp act_factorial);
   ("inverse", AOp act_inverse);
   ("leftParen", AOp act_leftParen);
   ("logarithm", AOp act_logarithm);
   ("mod", AOp act_mod);
   ("multiply", AOp act_multiply);
   ("naturalLog", AOp act_naturalLog);
   ("negate", AOp act_negate);
   ("nop", AOp act_nop);
   ("not", AOp act_not);
   ("off", AOp act_off);
   ("or", AOp act_or);
   ("pi", AOp act_pi);
   ("power", AOp act_power);
   ("quit", AQuit);
   ("recall", AOp act_recall);
   ("reciprocal", AOp act_reciprocal);
   ("rightParen", AOp act_rightParen);
   ("roll", AOp act_roll);
   ("scientific", AOp act_scientific);
   ("selection", ASelect);
   ("shl", AOp act_shl);
   ("shr", AOp act_shr);
   ("sine", AOp act_sine);
   ("square", AOp act_square);
   ("squareRoot", AOp act_squareRoot);
   ("store", AOp act_store);
   ("subtract", AOp act_subtract);
   ("sum", AOp act_sum);
   ("tangent", AOp act_tangent);
   ("tenpower", AOp act_tenpower);
   ("trunc", AOp act_xtrunc);
   ("xor", AOp act_xor);
   ("XexchangeY", AOp act_XexchangeY)].

(** ** Keypads and key bindings (main.c) *)

Definition ti_ops : list key :=
  [kRECIP; kSQR; kSQRT; kCLR; kOFF; kINV; kSIN; kCOS; kTAN; kDRG;
   kE; kEE; kLOG; kLN; kPOW; kNOT; kAND; kOR; kXOR; kTRUNC;
   kPI; kFACT; kLPAR; kRPAR; kBASE; kSHL; kxD; kxE; kxF; kSHR;
   kMOD; kxA; kxB; kxC; kDIV; kSTO; kSEVEN; kEIGHT; kNINE; kMUL;
   kRCL; kFOUR; kFIVE; kSIX; kSUB; kSUM; kONE; kTWO; kTHREE; kADD;
   kEXC; kZERO; kDEC; kNEG; kEQU].

Definition hp_ops : list key :=
  [kSQRT; kEXP; k10X; kPOW; kRECIP; kNEG; kSEVEN; kEIGHT; kNINE; kDIV;
   kFACT; kPI; kSIN; kCOS; kTAN; kEE; kFOUR; kFIVE; kSIX; kMUL;
   kNOP; kNOP; kROLL; kXXY; kBKSP; kENTR; kONE; kTWO; kTHREE; kSUB;
   kOFF; kDRG; kINV; kSTO; kRCL; kZERO; kDEC; kSUM; kADD].

Definition ti_labels : list string :=
  ["1/x"; "x^2"; "sqrt"; "CE/C"; "AC"; "INV"; "sin"; "cos"; "tan"; "DRG";
   "e"; "EE"; "log"; "ln"; "y^x"; "not"; "and"; "or"; "xor"; "trunc";
   "pi"; "x!"; "("; ")"; "base"; "shl"; "D"; "E"; "F"; "shr";
   "mod"; "A"; "B"; "C"; "/"; "STO"; "7"; "8"; "9"; "*";
   "RCL"; "4"; "5"; "6"; "-"; "SUM"; "1"; "2"; "3"; "+";
   "EXC"; "0"; "."; "+/-"; "="].

Definition hp_labels : list string :=
  ["sqrt"; "e^x"; "10^x"; "y^x"; "1/x"; "CHS"; "7"; "8"; "9"; "/";
   "x!"; "pi"; "sin"; "cos"; "tan"; "EEX"; "4"; "5"; "6"; "*";
   EmptyString; EmptyString; "Rv"; "x:y"; "<-"; "ENTER"; "1"; "2"; "3"; "-";
   "ON"; "DRG"; "INV"; "STO"; "RCL"; "0"; "."; "SUM"; "+"].

(** Event pattern, action name, parameter. *)
Definition ti_keys : list (string * string * string) :=
  [("Ctrl<Key>c", "quit", EmptyString); ("Ctrl<Key>h", "clear", EmptyString);
   ("None<Key>0", "digit", "0"); ("None<Key>1", "digit", "1");
   ("None<Key>2", "digit", "2"); ("None<Key>3", "digit", "3");
   ("None<Key>4", "digit", "4"); ("None<Key>5", "digit", "5");
   ("None<Key>6", "digit", "6"); ("None<Key>7", "digit", "7");
   ("None<Key>8", "digit", "8"); ("None<Key>9", "digit", "9");
   ("Shift<Key>a", "digit", "A"); ("Shift<Key>b", "digit", "B");
   ("Shift<Key>c", "digit", "C"); ("Shift<Key>d", "digit", "D");
   ("Shift<Key>e", "digit", "E"); ("Shift<Key>f", "digit", "F");
   ("<Key>KP_0", "digit", "0"); ("<Key>KP_1", "digit", "1");
   ("<Key>KP_2", "digit", "2"); ("<Key>KP_3", "digit", "3");
   ("<Key>KP_4", "digit", "4"); ("<Key>KP_5", "digit", "5");
   ("<Key>KP_6", "digit", "6"); ("<Key>KP_7", "digit", "7");
   ("<Key>KP_8", "digit", "8"); ("<Key>KP_9", "digit", "9");
   ("<Key>KP_Enter", "equal", EmptyString); ("<Key>KP_Equal", "equal", EmptyString);
   ("<Key>Return", "equal", EmptyString); ("<Key>KP_Multiply", "multiply", EmptyString);
   ("<Key>KP_Add", "add", EmptyString); ("<Key>KP_Subtract", "subtract", EmptyString);
   ("<Key>KP_Decimal", "decimal", EmptyString); ("<Key>KP_Divide", "divide", EmptyString);
   (":<Key>.", "decimal", EmptyString); (":<Key>+", "add", EmptyString);
   (":<Key>-", "subtract", EmptyString); (":<Key>*", "multiply", EmptyString);
   (":<Key>/", "divide", EmptyString); (":<Key>(", "leftParen", EmptyString);
   (":<Key>)", "rightParen", EmptyString); (":<Key>!", "factorial", EmptyString);
   (":<Key>|", "or", EmptyString); (":<Key>&", "and", EmptyString);
   (":<Key><", "shl", EmptyString); (":<Key>>", "shr", EmptyString);
   (":<Key>~", "not", EmptyString); (":<Key>%", "mod", EmptyString);
   ("<Key>x", "xor", EmptyString); ("<Key>e", "e", EmptyString);
   (":<Key>^", "power", EmptyString); ("<Key>p", "pi", EmptyString);
   ("<Key>i", "inverse", EmptyString); ("<Key>s", "sine", EmptyString);
   ("<Key>c", "cosine", EmptyString); ("<Key>t", "tangent", EmptyString);
   ("<Key>d", "degree", EmptyString); ("<Key>l", "naturalLog", EmptyString);
   (":<Key>=", "equal", EmptyString); ("<Key>n", "negate", EmptyString);
   ("<Key>r", "squareRoot", EmptyString); ("<Key>space", "clear", EmptyString);
   ("<Key>q", "quit", EmptyString); ("<Key>Delete", "clear", EmptyString);
   ("<Key>BackSpace", "clear", EmptyString)].

Definition hp_keys : list (string * string * string) :=
  [("Ctrl<Key>c", "quit", EmptyString); ("Ctrl<Key>h", "back", EmptyString);
   ("None<Key>0", "digit", "0"); ("None<Key>1", "digit", "1");
   ("None<Key>2", "digit", "2"); ("None<Key>3", "digit", "3");
   ("None<Key>4", "digit", "4"); ("None<Key>5", "digit", "5");
   ("None<Key>6", "digit", "6"); ("None<Key>7", "digit", "7");
   ("None<Key>8", "digit", "8"); ("None<Key>9", "digit", "9");
   ("<Key>KP_0", "digit", "0"); ("<Key>KP_1", "digit", "1");
   ("<Key>KP_2", "digit", "2"); ("<Key>KP_3", "digit", "3");
   ("<Key>KP_4", "digit", "4"); ("<Key>KP_5", "digit", "5");
   ("<Key>KP_6", "digit", "6"); ("<Key>KP_7", "digit", "7");
   ("<Key>KP_8", "digit", "8"); ("<Key>KP_9", "digit", "9");
   ("<Key>KP_Enter", "enter", EmptyString); ("<Key>KP_Multiply", "multiply", EmptyString);
   ("<Key>KP_Add", "add", EmptyString); ("<Key>KP_Subtract", "subtract", EmptyString);
   ("<Key>KP_Decimal", "decimal", EmptyString); ("<Key>KP_Divide", "divide", EmptyString);
   (":<Key>.", "decimal", EmptyString); (":<Key>+", "add", EmptyString);
   (":<Key>-", "subtract", EmptyString); (":<Key>*", "multiply", EmptyString);
   (":<Key>/", "divide", EmptyString); (":<Key>!", "factorial", EmptyString);
   ("<Key>e", "e", EmptyString); (":<Key>^", "power", EmptyString);
   ("<Key>p", "pi", EmptyString); ("<Key>i", "inverse", EmptyString);
   ("<Key>s", "sine", EmptyString); ("<Key>c", "cosine", EmptyString);
   ("<Key>t", "tangent", EmptyString); ("<Key>d", "degree", EmptyString);
   ("<Key>l", "naturalLog", EmptyString); ("<Key>n", "negate", EmptyString);
   ("<Key>r", "squareRoot", EmptyString); ("<Key>space", "clear", EmptyString);
   ("<Key>q", "quit", EmptyString); ("<Key>Delete", "back", EmptyString);
   ("<Key>BackSpace", "back", EmptyString); ("<Key>Return", "enter", EmptyString);
   ("<Key>x", "XexchangeY", EmptyString)].

(** [create_keypad]: the label and the key of each button, and the number of
    columns of the grid. *)
Definition keypad (opt_rpn : bool) : list (string * key) :=
  zip (if opt_rpn then hp_labels else ti_labels)
      (take (if opt_rpn then 39 else 55) (if opt_rpn then hp_ops else ti_ops)).
Definition keypad_cols (opt_rpn : bool) : Z := if opt_rpn then 10 else 5.

Definition lookup_action `{Libm} (n : string) : option action :=
  snd <$> List.find (fun e => bool_decide (fst e = n)) Actions.
