(* ===== verification/CalcSafety.v ===== *)
(** * isde-calc: memory safety

    The display string lives in a 32-byte array that the entry functions extend
    in place, the stacks in arrays of 32.  This file shows which keys keep
    every access in bounds, and that the others do not. *)

From S2P Require Import Prelude.
From S2P Require Import CString.
From S2P Require Import CFloat.
From S2P Require Import CalcMachine.
From S2P Require Import CalcDispatch.
Open Scope Z_scope.

(** Only the trap is allowed as a fault. *)
Definition only_trap (f : fault) : Prop := f = Trap.

(** A display short enough to be extended, without an exponent mark. *)
Definition short (b : cbuf) : Prop :=
  (strlen b ≤ 12)%nat ∧ "e"%char ∉ cstr b.

(** The arrays have their sizes and the indices are in range. *)
Record wf (s : calc) : Prop := {
  wf_disp : length (dispstr s) = LCD_STR_LEN;
  wf_term : terminated (dispstr s) = true;
  wf_opstack : length (opstack s) = STACKMAX;
  wf_opsp : (opsp s ≤ STACKMAX)%nat;
  wf_numstack : length (numstack s) = STACKMAX;
  wf_numsp : (numsp s ≤ STACKMAX)%nat;
  wf_mem : length (mem s) = XCALC_MEMORY;
  wf_exponent : exponent s = 0;
  wf_clrdisp : 0 ≤ clrdisp s
}.

(** While the next digit continues the display ([clrdisp = 0]) the display is
    short, unless the machine is in its error state. *)
Definition Inv (s : calc) : Prop :=
  wf s ∧ (clrdisp s = 0 → entered s = 3 ∨ short (dispstr s)).

(** The next digit starts a new number. *)
Definition Cl (s : calc) : Prop := wf s ∧ 0 < clrdisp s.

(** [pres P Q m]: from [P], [m] reaches [Q] or traps. *)
Definition pres (P Q : calc → Prop) {A} (m : cprog A) : Prop :=
  ∀ s, P s → wp only_trap m (fun _ => Q) s.

Create HintDb calc.

Lemma pres_bind {A B} P R Q (m : cprog A) (k : A → cprog B) :
  pres P R m → (∀ a, pres R Q (k a)) → pres P Q (m ≫= k).
Proof.
  intros Hm Hk s Hs. apply wp_bind. eapply wp_mono; [by apply Hm|].
  intros a s' H. by apply Hk.
Qed.

Lemma pres_gets_bind {A B} P Q (f : calc → A) (k : A → cprog B) :
  (∀ s, P s → pres P Q (k (f s))) → pres P Q (gets f ≫= k).
Proof. intros H s Hs. by apply (H s Hs). Qed.

Lemma pres_ret {A} (P Q : calc → Prop) (a : A) : (∀ s, P s → Q s) → pres P Q (mret a).
Proof. intros H s Hs. by apply H. Qed.

Lemma pres_modify (P Q : calc → Prop) f : (∀ s, P s → Q (f s)) → pres P Q (modify f).
Proof. intros H s Hs. by apply H. Qed.

Lemma pres_when P b m : pres P P m → pres P P (when b m).
Proof. intros H. destruct b; [done|]. by apply pres_ret. Qed.

Lemma pres_weaken {A} (P P' Q Q' : calc → Prop) (m : cprog A) :
  pres P Q m → (∀ s, P' s → P s) → (∀ s, Q s → Q' s) → pres P' Q' m.
Proof.
  intros H HP HQ s Hs. eapply wp_mono; [by apply H, HP|]. simpl. auto.
Qed.

Lemma pres_raise_trap {A} P Q : pres P Q (raise (A := A) Trap).
Proof. by intros s Hs. Qed.

(** ** The state predicates *)

Lemma Inv_wf s : Inv s → wf s.
Proof. by intros [? ?]. Qed.
Lemma Cl_wf s : Cl s → wf s.
Proof. by intros [? ?]. Qed.
Lemma Cl_Inv s : Cl s → Inv s.
Proof. intros [? ?]. split; [done|]. lia. Qed.
#[export] Hint Resolve Inv_wf Cl_wf Cl_Inv : calc.

(** A predicate that only constrains the arrays, the indices, [exponent] and
    [clrdisp], besides what it says of the display and [entered]. *)
Lemma wf_set_disp s b :
  wf s → length b = LCD_STR_LEN → terminated b = true → wf (s <| dispstr := b |>).
Proof. intros [] ? ?. by constructor. Qed.

(** ** Display primitives *)

Lemma wp_disp E Q s :
  wf s → Q (cstr (dispstr s)) s → wp E disp Q s.
Proof. intros [] HQ. unfold wp, disp. by rewrite wf_term0. Qed.

Lemma wp_on_disp_set E Q s f b' :
  f (dispstr s) = Some b' → Q tt (s <| dispstr := b' |>) →
  wp E (on_disp f) Q s.
Proof. intros Hf HQ. unfold wp, on_disp, lift_oob. by rewrite Hf. Qed.

Lemma wp_strlcpy E Q s x :
  wf s →
  (∀ b', wf (s <| dispstr := b' |>) → (NUL ∉ x → cstr b' = take 31 x) →
    Q tt (s <| dispstr := b' |>)) →
  wp E (on_disp (strlcpy x)) Q s.
Proof.
  intros Hwf HQ. pose proof Hwf as [].
  destruct (strlcpy_some x (dispstr s)) as [b' Hb']; [rewrite wf_disp0; compute; lia|].
  eapply wp_on_disp_set; [exact Hb'|]. apply HQ.
  - apply wf_set_disp; [done| |].
    + rewrite <- wf_disp0. by eapply write_str_length.
    + by eapply write_str_terminated.
  - intros Hx. rewrite (strlcpy_cstr x _ b' Hx Hb'), wf_disp0. done.
Qed.

Lemma wp_strcat E Q s x :
  wf s → NUL ∉ x → (strlen (dispstr s) + length x < LCD_STR_LEN)%nat →
  (∀ b', wf (s <| dispstr := b' |>) → cstr b' = cstr (dispstr s) ++ x →
    Q tt (s <| dispstr := b' |>)) →
  wp E (on_disp (strcat x)) Q s.
Proof.
  intros Hwf Hx Hl HQ. pose proof Hwf as [].
  destruct (strcat_some x (dispstr s)) as [b' Hb']; [done|by rewrite wf_disp0|].
  eapply wp_on_disp_set; [exact Hb'|]. apply HQ.
  - apply wf_set_disp; [done| |].
    + rewrite <- wf_disp0. by eapply strcat_length.
    + unfold strcat in Hb'. rewrite wf_term0 in Hb'. by eapply write_str_terminated.
  - by apply strcat_cstr.
Qed.

Lemma before_insert_nul i b :
  (i < length b)%nat → before NUL (<[i := NUL]> b) = take i (before NUL b).
Proof.
  revert i. induction b as [|x b IH]; intros i Hi; simpl in Hi; [lia|].
  destruct i as [|i]; simpl.
  - done.
  - case_decide; simpl; [done|]. f_equal. apply IH. lia.
Qed.

Lemma wp_set_nul E Q s i :
  wf s → 0 ≤ i < 32 →
  (∀ b', wf (s <| dispstr := b' |>) → cstr b' = take (Z.to_nat i) (cstr (dispstr s)) →
    Q tt (s <| dispstr := b' |>)) →
  wp E (on_disp (buf_set i NUL)) Q s.
Proof.
  intros Hwf Hi HQ. pose proof Hwf as [].
  eapply wp_on_disp_set.
  { unfold buf_set. rewrite wf_disp0, decide_True by (unfold LCD_STR_LEN; lia). reflexivity. }
  apply HQ.
  - apply wf_set_disp; [done| |].
    + by rewrite length_insert.
    + apply terminated_true, list_elem_of_lookup. exists (Z.to_nat i).
      apply list_lookup_insert_eq. rewrite wf_disp0. unfold LCD_STR_LEN. lia.
  - unfold cstr. apply before_insert_nul. rewrite wf_disp0. unfold LCD_STR_LEN. lia.
Qed.

Lemma strchr_none c b : c ∉ b → strchr c b = None.
Proof.
  induction b as [|x b IH]; simpl; [done|]. intros H.
  rewrite decide_False by set_solver. apply IH. set_solver.
Qed.

(** The indicator and label updates touch neither the arrays nor the indices. *)
Lemma wp_refresh E Q s (fs : calc → list (nat * bool)) :
  (∀ l i, Q tt (s <| lcd := l |> <| ind := i |>)) → wf s →
  wp E (d' ← disp; draw d';; s ← gets id; setflags (fs s)) Q s.
Proof.
  intros HQ Hwf. apply wp_bind, wp_disp; [done|].
  apply wp_bind, wp_modify, wp_bind, wp_gets, wp_modify. apply HQ.
Qed.

(** [DrawDisplay] keeps a bufferful of bytes; a display without exponent mark
    comes out short. *)
Lemma wp_DrawDisplay E Q s :
  wf s →
  (∀ b l i, wf (s <| dispstr := b |>) →
     ("e"%char ∉ cstr (dispstr s) → short b) →
     Q tt (s <| dispstr := b |> <| lcd := l |> <| ind := i |>)) →
  wp E DrawDisplay Q s.
Proof.
  intros Hwf HQ. unfold DrawDisplay. apply wp_bind, wp_disp; [done|].
  apply wp_bind. case_decide as Hlen.
  - destruct (strchr "e"%char (cstr (dispstr s))) as [estr|] eqn:He.
    + apply wp_strlcpy; [done|]. intros b' Hb' _. apply (wp_refresh _ _ _ (fun s => [(_, _); _; _; _; _; _; _; _; _])); [|done].
      intros l i. apply HQ; [done|]. intros Hno. by rewrite strchr_none in He.
    + apply wp_set_nul; [done|lia|]. intros b' Hb' Hc.
      apply (wp_refresh _ _ _ (fun s => [(_, _); _; _; _; _; _; _; _; _])); [|done].
      intros l i. apply HQ; [done|]. intros Hno. unfold short, strlen. rewrite Hc.
      rewrite length_take. split; [lia|]. by apply take_not_elem.
  - apply wp_ret. apply (wp_refresh _ _ _ (fun s => [(_, _); _; _; _; _; _; _; _; _])); [|done]. intros l i.
    apply (HQ (dispstr s)); [by destruct Hwf; constructor|].
    intros. split; [|done]. unfold strlen, MAXDISP in *. lia.
Qed.

Lemma pres_DrawDisplay_wf : pres wf wf DrawDisplay.
Proof. intros s Hs. apply wp_DrawDisplay; [done|]. intros b l i Hb _. by destruct Hb. Qed.

Lemma pres_DrawDisplay_Cl : pres Cl Cl DrawDisplay.
Proof.
  intros s [Hs ?]. apply wp_DrawDisplay; [done|]. intros b l i Hb _.
  split; [by destruct Hb|done].
Qed.

Lemma pres_DrawDisplay_Inv : pres Inv Inv DrawDisplay.
Proof.
  intros s [Hs Hd]. apply wp_DrawDisplay; [done|]. intros b l i Hb Hsh.
  split; [by destruct Hb|]. intros Hc. destruct (Hd Hc) as [?|[? ?]]; eauto.
Qed.

Lemma pres_format_double_wf d : pres wf wf (format_double d).
Proof. intros s Hs. apply wp_strlcpy; [done|]. auto. Qed.

Lemma pres_format_double_Cl d : pres Cl Cl (format_double d).
Proof. intros s [Hs ?]. apply wp_strlcpy; [done|]. by split. Qed.

Lemma pres_stack_error_wf : pres wf wf stack_error.
Proof.
  intros s Hs. apply wp_bind, wp_strlcpy; [done|]. intros b Hb _. by destruct Hb.
Qed.

Lemma pres_stack_error_Cl : pres Cl Cl stack_error.
Proof.
  intros s [Hs ?]. apply wp_bind, wp_strlcpy; [done|]. intros b Hb _.
  split; [by destruct Hb|done].
Qed.

Lemma pres_stack_error_Inv : pres Inv Inv stack_error.
Proof.
  intros s [Hs ?]. apply wp_bind, wp_strlcpy; [done|]. intros b Hb _.
  split; [by destruct Hb|]. by left.
Qed.
#[export] Hint Resolve pres_DrawDisplay_wf pres_DrawDisplay_Cl pres_DrawDisplay_Inv
  pres_format_double_wf pres_format_double_Cl
  pres_stack_error_wf pres_stack_error_Cl pres_stack_error_Inv : calc.

(** ** Stacks *)

(** States that agree on everything the invariants look at. *)
Definition same_core (s s' : calc) : Prop :=
  (dispstr s', opstack s', opsp s', numstack s', numsp s') =
    (dispstr s, opstack s, opsp s, numstack s, numsp s) ∧
  (length (mem s'), exponent s', clrdisp s', entered s') =
    (length (mem s), exponent s, clrdisp s, entered s).

(** The predicates that the operations below preserve: they contain [wf], look
    at the core only, and survive changes of the stacks, a redraw and the stack
    error. *)
Class Stable (P : calc → Prop) := {
  st_wf s : P s → wf s;
  st_core s s' : P s → same_core s s' → P s';
  st_err : pres P P stack_error;
  st_draw : pres P P DrawDisplay;
  st_ops s l n : P s → length l = STACKMAX → (n ≤ STACKMAX)%nat →
    P (s <| opstack := l |> <| opsp := n |>);
  st_nums s l n : P s → length l = STACKMAX → (n ≤ STACKMAX)%nat →
    P (s <| numstack := l |> <| numsp := n |>)
}.

Lemma wf_core s s' : wf s → same_core s s' → wf s'.
Proof. intros [] [E1 E2]. simplify_eq. constructor; congruence. Qed.

#[export] Instance wf_stable : Stable wf.
Proof.
  constructor; eauto using wf_core with calc; intros s l n [] ??; by constructor.
Qed.

#[export] Instance Cl_stable : Stable Cl.
Proof.
  constructor; eauto with calc.
  - intros s s' [Hw ?] Hc. split; [by eapply wf_core|].
    destruct Hc as [_ E]. assert (clrdisp s' = clrdisp s) by congruence. lia.
  - intros s l n [[] ?] ??; split; try done; by constructor.
  - intros s l n [[] ?] ??; split; try done; by constructor.
Qed.

#[export] Instance Inv_stable : Stable Inv.
Proof.
  constructor; eauto with calc.
  - intros s s' [Hw Hs] Hc. split; [by eapply wf_core|].
    destruct Hc as [E1 E2]. assert (clrdisp s' = clrdisp s) as -> by congruence.
    assert (entered s' = entered s) as -> by congruence.
    by assert (dispstr s' = dispstr s) as -> by congruence.
  - intros s l n [[] ?] ??; split; try done; by constructor.
  - intros s l n [[] ?] ??; split; try done; by constructor.
Qed.

Section Stacks.
Context (P : calc → Prop) `{!Stable P}.

Lemma st_opsp s n : P s → (n ≤ STACKMAX)%nat → P (s <| opsp := n |>).
Proof.
  intros Hs Hn. apply (st_ops s (opstack s) n Hs); [|done].
  by destruct (st_wf s Hs).
Qed.

Lemma st_numsp s n : P s → (n ≤ STACKMAX)%nat → P (s <| numsp := n |>).
Proof.
  intros Hs Hn. apply (st_nums s (numstack s) n Hs); [|done].
  by destruct (st_wf s Hs).
Qed.

Lemma st_numstack s l : P s → length l = STACKMAX → P (s <| numstack := l |>).
Proof.
  intros Hs Hl. apply (st_nums s l (numsp s) Hs); [done|].
  by destruct (st_wf s Hs).
Qed.

Lemma pres_PushOp op : pres P P (PushOp op).
Proof.
  intros s Hs. pose proof (st_wf s Hs) as []. unfold PushOp.
  apply wp_bind, wp_gets. unfold id. case_decide; [by apply st_err|].
  rewrite decide_True by (rewrite wf_opstack0; lia). apply wp_modify.
  apply st_ops; [done|by rewrite length_insert|lia].
Qed.

Lemma pres_get_cell {A} (l : list A) i :
  (i < length l)%nat → pres P P (get_cell l i).
Proof.
  intros Hi. unfold get_cell.
  destruct (lookup_lt_is_Some_2 l i Hi) as [x ->]. by apply pres_ret.
Qed.

Lemma pres_PopOp : pres P P PopOp.
Proof.
  apply pres_gets_bind. intros s0 Hs0. pose proof (st_wf s0 Hs0) as [].
  unfold id. destruct (opsp s0) as [|n].
  - eapply pres_bind; [apply st_err|]. intros. by apply pres_ret.
  - eapply pres_bind.
    + apply pres_modify. intros s Hs. apply st_opsp; [done|lia].
    + intros. apply pres_get_cell. rewrite wf_opstack0. lia.
Qed.

Lemma pres_PushNum d : pres P P (PushNum d).
Proof.
  intros s Hs. pose proof (st_wf s Hs) as []. unfold PushNum.
  apply wp_bind, wp_gets. unfold id. destruct (rpn s).
  - apply wp_modify. apply st_numstack; [done|].
    unfold rpn_push. repeat case_match; simpl in *; lia.
  - case_decide; [by apply st_err|].
    rewrite decide_True by (rewrite wf_numstack0; lia). apply wp_modify.
    apply st_nums; [done|by rewrite length_insert|lia].
Qed.

Lemma pres_PopNum : pres P P PopNum.
Proof.
  apply pres_gets_bind. intros s0 Hs0. pose proof (st_wf s0 Hs0) as [].
  unfold id. destruct (rpn s0).
  - eapply pres_bind; [apply pres_get_cell; rewrite wf_numstack0; unfold STACKMAX; lia|].
    intros. eapply pres_bind; [|intros; by apply pres_ret].
    apply pres_modify. intros s Hs. apply st_numstack; [done|].
    pose proof (st_wf s Hs) as []. unfold rpn_pop. repeat case_match; simpl in *; lia.
  - destruct (numsp s0) as [|n].
    + eapply pres_bind; [apply st_err|]. intros. by apply pres_ret.
    + eapply pres_bind.
      * apply pres_modify. intros s Hs. apply st_numsp; [done|lia].
      * intros. apply pres_get_cell. rewrite wf_numstack0. lia.
Qed.
End Stacks.
#[export] Hint Resolve st_err st_draw pres_PushOp pres_PopOp pres_PushNum
  pres_PopNum pres_raise_trap : calc.

(** An assignment outside the core. *)
Lemma pres_outside P f :
  Stable P → (∀ s, same_core s (f s)) → pres P P (modify f).
Proof. intros HP Hf. apply pres_modify. intros s Hs. by eapply st_core. Qed.

(** Compose [pres] facts along the program, one predicate throughout. *)
Ltac pres_step :=
  lazymatch goal with
  | |- pres _ _ (gets _ ≫= _) => apply pres_gets_bind; intros; cbv beta
  | |- pres ?P _ (_ ≫= _) => apply (pres_bind P P); [|intros]
  | |- pres _ _ (mret _) => apply pres_ret; solve [eauto with calc]
  | |- pres _ _ skip => apply pres_ret; solve [eauto with calc]
  | |- pres _ _ (modify _) =>
    apply pres_outside; [typeclasses eauto | intros; split; reflexivity]
  | |- pres _ _ (when _ _) => apply pres_when
  | |- pres _ _ (match ?x with _ => _ end) => destruct x
  | |- pres _ _ _ => solve [eauto with calc typeclass_instances]
  end.
Ltac pres_auto := repeat pres_step.

Lemma pres_strlcpy_wf x : pres wf wf (on_disp (strlcpy x)).
Proof. intros s Hs. apply wp_strlcpy; [done|]. auto. Qed.

Lemma pres_strlcpy_Cl x : pres Cl Cl (on_disp (strlcpy x)).
Proof. intros s [Hs ?]. apply wp_strlcpy; [done|]. by split. Qed.
#[export] Hint Resolve pres_strlcpy_wf pres_strlcpy_Cl : calc.

Section Shared.
Context `{!Libm} (P : calc → Prop) `{!Stable P}.

Lemma pres_setflags fs : pres P P (setflags fs).
Proof. apply pres_outside; [done|]. by split. Qed.
Lemma pres_draw l : pres P P (draw l).
Proof. apply pres_outside; [done|]. by split. Qed.

Lemma pres_disp : pres P P disp.
Proof. intros s Hs. apply wp_disp; [by apply st_wf|done]. Qed.
Hint Resolve pres_disp : calc.

Lemma pres_parse_double : pres P P parse_double.
Proof. unfold parse_double. pres_auto. Qed.
Hint Resolve pres_parse_double : calc.

Lemma pres_parse_if_entered : pres P P parse_if_entered.
Proof. unfold parse_if_entered. pres_auto. Qed.

Lemma pres_arith op a d : pres P P (arith op a d).
Proof. unfold arith. destruct op; pres_auto. Qed.
Hint Resolve pres_arith : calc.

Lemma pres_arith_acc op : pres P P (arith_acc op).
Proof. unfold arith_acc. pres_auto. Qed.
Hint Resolve pres_arith_acc : calc.

Lemma pres_reduce_step op : pres P P (reduce_step op).
Proof. unfold reduce_step. pres_auto. Qed.
Hint Resolve pres_reduce_step : calc.

Lemma pres_isopempty : pres P P isopempty.
Proof. unfold isopempty. pres_auto. Qed.
Hint Resolve pres_isopempty : calc.

Lemma pres_equf_step : pres P P equf_step.
Proof. unfold equf_step. pres_auto. Qed.
Hint Resolve pres_equf_step : calc.

Lemma pres_equf_loop n : pres P P (equf_loop n).
Proof. induction n as [|n IH]; simpl; pres_auto. Qed.

Lemma pres_rparf_loop n : pres P P (rparf_loop n).
Proof. induction n as [|n IH]; simpl; pres_auto. Qed.

Lemma pres_RollNum d : pres P P (RollNum d).
Proof.
  apply pres_modify. intros s Hs. pose proof (st_wf s Hs) as [].
  repeat case_match; try done;
    (eapply st_core; [eapply (st_numstack P s); [done|] | by split]);
    by rewrite <- wf_numstack0.
Qed.

Lemma pres_set_mem c x : pres P P (set_mem c x).
Proof.
  apply pres_outside; [done|]. intros s. split; [done|]. simpl.
  by rewrite length_insert.
Qed.

Lemma pres_ClearStacks : pres P P ClearStacks.
Proof.
  unfold ClearStacks. apply pres_gets_bind. intros s0 Hs0.
  apply (pres_bind P P).
  - apply pres_when, pres_modify. intros s Hs. apply st_numstack; [done..|].
    pose proof (st_wf s Hs) as []. repeat case_match; simpl in *; done.
  - intros _. apply (pres_bind P P).
    + apply pres_modify. intros s Hs. apply st_numsp; [done..|]. lia.
    + intros _. apply pres_modify. intros s Hs. apply st_opsp; [done..|]. lia.
Qed.

Lemma pres_memory_cell s c : P s → (c < XCALC_MEMORY)%nat →
  pres P P (get_cell (mem s) c).
Proof. intros Hs Hc. apply pres_get_cell. by rewrite (wf_mem s (st_wf s Hs)). Qed.

Lemma pres_update_flagM : pres P P update_flagM.
Proof.
  unfold update_flagM. apply pres_gets_bind. intros s Hs.
  apply (pres_bind P P); [|intros; pres_auto].
  apply pres_memory_cell; [done|]. unfold XCALC_MEMORY. lia.
Qed.
End Shared.
#[export] Hint Resolve pres_setflags pres_draw pres_disp pres_parse_double pres_parse_if_entered pres_arith
  pres_arith_acc pres_reduce_step pres_isopempty pres_equf_loop pres_rparf_loop
  pres_RollNum pres_set_mem pres_ClearStacks pres_update_flagM : calc.

(** ** Handlers *)

(** What a handler may assume: the error state has been dealt with. *)
Definition Good (s : calc) : Prop := wf s ∧ (clrdisp s = 0 → short (dispstr s)).

Lemma Good_Inv s : Good s → Inv s.
Proof. intros [? ?]. split; auto. Qed.
Lemma Good_wf s : Good s → wf s.
Proof. by intros [? ?]. Qed.
#[export] Hint Resolve Good_Inv Good_wf : calc.

(** Assignments to [clrdisp], [entered], [exponent] that establish or keep [wf]
    and [Cl]. *)
Ltac core_update :=
  apply pres_modify;
  let s := fresh "s" in let Hs := fresh "Hs" in
  intros s Hs;
  lazymatch type of Hs with
  | wf _ => destruct Hs
  | _ => let Hw := fresh "Hw" in let Hc := fresh "Hc" in
         destruct Hs as [Hw Hc]; destruct Hw
  end;
  lazymatch goal with
  | |- wf _ => constructor
  | |- _ => split; [constructor|]
  end; simpl in *; first [assumption | lia].
Ltac pres_core P R := apply (pres_bind P R); [solve [core_update] | intros _].

Section Handlers.
Context `{!Libm}.


Lemma pres_twoop_pending k : pres Cl Cl (twoop_pending k).
Proof. unfold twoop_pending. pres_auto. Qed.

Lemma pres_twoop k : pres Inv Inv (twoop k).
Proof.
  unfold twoop. pres_step. pres_step; [pres_auto|]. pres_step.
  destruct (_ =? 0); [pres_auto|].
  pres_step; [pres_auto|]. pres_step; [pres_auto|].
  pres_core Inv Cl. pres_core Cl Cl. pres_step; [pres_auto|]. pres_core Cl Cl.
  eapply (pres_weaken Cl _ Cl); eauto with calc.
  pres_step; [pres_auto|]. destruct (negb _).
  - apply pres_twoop_pending.
  - pres_auto.
Qed.

Lemma pres_finish_clr :
  pres wf Cl (clrdisp++:;; exponent =: 0;; Dpoint =: 0;; entered =: 2).
Proof.
  pres_core wf Cl. pres_core Cl Cl. pres_step; [pres_auto|]. core_update.
Qed.

Lemma pres_twof k : pres Inv Inv (twof k).
Proof.
  unfold twof. pres_step. pres_step; [pres_auto|]. pres_step.
  destruct (_ =? 0); [pres_auto|].
  eapply (pres_weaken wf _ Cl); eauto with calc.
  pres_step; [pres_auto|]. pres_step; [pres_auto|]. pres_step; [pres_auto|].
  pres_step; [destruct k; pres_auto|].
  pres_step. pres_step; [pres_auto|]. pres_step; [pres_auto|].
  pres_core wf Cl. pres_core Cl Cl. pres_step; [pres_auto|]. pres_core Cl Cl.
  pres_auto.
Qed.

Lemma pres_entrf : pres Inv Inv entrf.
Proof.
  unfold entrf. pres_step; [pres_auto|]. pres_step.
  destruct (_ =? 0); [pres_auto|].
  pres_step; [pres_auto|]. pres_core Inv Cl. pres_core Cl Cl.
  eapply (pres_weaken Cl _ Cl); eauto with calc.
  pres_step; [pres_auto|]. pres_step; [pres_auto|]. pres_core Cl Cl. pres_auto.
Qed.

Lemma pres_equf : pres Inv Inv equf.
Proof.
  unfold equf. pres_step; [pres_auto|]. pres_step.
  destruct (_ =? 0); [pres_auto|].
  pres_step; [pres_auto|]. pres_core Inv Cl. pres_core Cl Cl.
  eapply (pres_weaken Cl _ Cl); eauto with calc.
  pres_step; [pres_auto|]. pres_step; [pres_auto|]. pres_core Cl Cl. pres_auto.
Qed.

Lemma pres_rparf : pres Inv Inv rparf.
Proof.
  unfold rparf. pres_step; [pres_auto|]. pres_step.
  destruct (entered _ =? 0); [pres_auto|]. destruct (flagPAREN _ =? 0); [pres_auto|].
  pres_core Inv Cl. pres_core Cl Cl.
  eapply (pres_weaken Cl _ Cl); eauto with calc.
  pres_step; [pres_auto|]. pres_step; [pres_auto|]. pres_core Cl Cl.
  pres_step. pres_step; [pres_auto|]. pres_step; [pres_auto|].
  pres_step; [pres_auto|]. pres_step; [pres_auto|]. pres_core Cl Cl. pres_auto.
Qed.

Lemma pres_lparf : pres Inv Inv lparf.
Proof. unfold lparf. pres_auto. Qed.

Lemma pres_invf : pres Inv Inv invf.
Proof. unfold invf. pres_auto. Qed.

Lemma pres_rollf : pres Inv Inv rollf.
Proof.
  unfold rollf. pres_step. destruct (_ =? 0); [pres_auto|].
  eapply (pres_weaken wf _ Cl); eauto with calc.
  pres_step; [pres_auto|]. pres_core wf wf. pres_step; [pres_auto|].
  pres_step. pres_step; [pres_auto|]. pres_step; [pres_auto|].
  pres_core wf Cl. pres_auto.
Qed.

Lemma pres_memf k : pres Inv Inv (memf k).
Proof.
  unfold memf. eapply (pres_weaken wf _ Cl); eauto with calc.
  pres_step; [pres_auto|]. pres_step; [pres_auto|]. pres_core wf wf.
  pres_core wf Cl. pres_auto.
Qed.

Lemma pres_drgf : pres Inv Inv drgf.
Proof.
  unfold drgf. pres_step. apply (pres_bind Inv Inv); [|intros _; pres_auto].
  apply pres_when. eapply (pres_weaken wf _ Cl); eauto with calc.
  pres_step; [pres_auto|]. pres_step. pres_step; [pres_auto|].
  pres_core wf wf. pres_core wf Cl. pres_auto.
Qed.

Lemma pres_clearf : pres wf Inv clearf.
Proof.
  unfold clearf. eapply (pres_weaken wf _ Cl); eauto with calc.
  pres_step; [pres_auto|]. pres_step. pres_step; [pres_auto|].
  pres_step; [pres_auto|]. pres_step; [pres_auto|]. pres_core wf wf.
  pres_core wf Cl. pres_core Cl Cl. pres_auto.
Qed.

Lemma pres_oneop_switch k : pres wf wf (oneop_switch k).
Proof.
  assert (pres wf wf oneop_fact).
  { unfold oneop_fact. pres_step. destruct (_ || _); [|pres_auto].
    pres_step; [pres_auto|core_update]. }
  assert (∀ s, wf s → pres wf wf (get_cell (mem s) 0)).
  { intros. apply pres_memory_cell; [typeclasses eauto|done|].
    unfold XCALC_MEMORY. lia. }
  unfold oneop_switch, rpn_push_unless_entr, invert, oneop_sqr, oneop_log,
    oneop_ln, inv_or.
  destruct k; pres_auto.
Qed.

Lemma pres_oneop k : pres Inv Inv (oneop k).
Proof.
  unfold oneop. eapply (pres_weaken wf _ Inv); eauto with calc.
  pres_step; [pres_auto|]. pres_core wf wf.
  pres_step; [apply pres_oneop_switch|].
  intros s Hs. apply wp_bind, wp_gets. destruct (Z.eqb_spec (entered s) 3).
  - apply pres_DrawDisplay_Inv. split; [done|]. by left.
  - revert s Hs n. cut (pres wf Inv (memop =: k;; entered =: 2;; clrdisp =: 1;;
      flagINV =: 0;; lift_enabled =: 1;; r ← gets dnum; format_double r;; DrawDisplay)).
    { intros Hgo s Hs _. by apply Hgo. }
    eapply (pres_weaken wf _ Cl); eauto with calc.
    pres_step; [pres_auto|]. pres_core wf wf. pres_core wf Cl. pres_auto.
Qed.
End Handlers.

Section Entry.
Context `{!Libm}.

Lemma pres_ResetCalc : pres wf wf ResetCalc.
Proof.
  unfold ResetCalc. pres_auto.
Qed.

Lemma pres_ResetCalc_Cl : pres Cl Cl ResetCalc.
Proof. unfold ResetCalc. pres_auto. Qed.

Lemma pres_offf : pres wf Inv offf.
Proof.
  unfold offf. eapply (pres_weaken wf _ Cl); eauto with calc.
  pres_step; [apply pres_ResetCalc|]. pres_core wf Cl. pres_core Cl Cl.
  pres_step; [pres_auto|]. pres_step; [pres_auto|]. pres_step; [pres_auto|].
  pres_step. pres_step.
  { apply pres_when, pres_modify. intros s0 [[] Hc]. split; [constructor|]; simpl; try done.
    rewrite length_app, length_take.
    match goal with H : Cl _ |- _ => by rewrite (wf_mem _ (Cl_wf _ H)) end. }
  pres_step; [pres_auto|]. pres_core Cl Cl. pres_auto.
Qed.

Lemma pres_numeric_memory op k :
  op = kSTO ∨ op = kRCL ∨ op = kSUM → pres wf Inv (numeric_memory op k).
Proof.
  intros Hop. unfold numeric_memory. eapply (pres_weaken wf _ Cl); eauto with calc.
  pres_step. pres_step.
  { apply pres_memory_cell; [typeclasses eauto|done|].
    unfold memory_cell, XCALC_MEMORY. destruct k; lia. }
  apply (pres_bind wf Cl); [|intros _; pres_auto].
  destruct Hop as [->|[-> | ->]]; repeat (pres_step; [solve [pres_auto]|]).
  - pres_core wf wf. core_update.
  - pres_core wf wf. core_update.
  - pres_core wf wf. core_update.
Qed.

Lemma numeric_char_plain k b c : numeric_char k b = Some c →
  (NUL ∉ [c]) ∧ ("e"%char ∉ [c]).
Proof.
  unfold numeric_char. intros E. repeat case_match; simplify_eq; split;
    rewrite list_elem_of_singleton; done.
Qed.

(** A well-formed state with a short display. *)
Definition Sh (s : calc) : Prop := wf s ∧ short (dispstr s).

Lemma Sh_Inv s : Sh s → Inv s.
Proof. intros [? ?]. split; auto. Qed.

Lemma Good_Sh s : Good s → clrdisp s = 0 → Sh s.
Proof. intros [? ?] ?. split; auto. Qed.

Lemma Sh_core s s' : Sh s → same_core s s' → Sh s'.
Proof.
  intros [? ?] Hc. split; [by eapply wf_core|]. destruct Hc as [E1 _].
  by assert (dispstr s' = dispstr s) as -> by congruence.
Qed.

Lemma pres_DrawDisplay_Sh : pres Sh Sh DrawDisplay.
Proof.
  intros s [Hs [? ?]]. apply wp_DrawDisplay; [done|]. intros b l i Hb Hsh.
  split; [by destruct Hb | auto].
Qed.

Lemma wp_strcat_Sh Q s x :
  Sh s → NUL ∉ x → "e"%char ∉ x → (strlen (dispstr s) + length x < LCD_STR_LEN)%nat →
  (∀ b', wf (s <| dispstr := b' |>) → "e"%char ∉ cstr b' →
    Q tt (s <| dispstr := b' |>)) →
  wp only_trap (on_disp (strcat x)) Q s.
Proof.
  intros [Hs [? ?]] ? ? ? HQ. apply wp_strcat; [done..|]. intros b' Hb' Hc.
  apply HQ; [done|]. rewrite Hc, elem_of_app. tauto.
Qed.

(** Drawing after an append. *)
Lemma wp_draw_appended Q s :
  wf s → "e"%char ∉ cstr (dispstr s) → (∀ s', Sh s' → clrdisp s' = clrdisp s →
    Dpoint s' = Dpoint s → Q tt s') →
  wp only_trap DrawDisplay Q s.
Proof.
  intros Hs He HQ. apply wp_DrawDisplay; [done|]. intros b l i Hb Hsh.
  apply HQ; [|done..]. split; [by destruct Hb | auto].
Qed.

Lemma wp_push_rpn Q s x :
  wf s → rpn s = true →
  (∀ st, wf (s <| numstack := st |>) → Q tt (s <| numstack := st |>)) →
  wp only_trap (PushNum x) Q s.
Proof.
  intros Hs Hr HQ. unfold PushNum. apply wp_bind, wp_gets. unfold id. rewrite Hr.
  apply wp_modify. apply HQ. apply st_numstack; [typeclasses eauto|done|].
  destruct Hs. unfold rpn_push. repeat case_match; simpl in *; lia.
Qed.

(** The start of [numeric] empties the display when a new number begins. *)
Lemma wp_start_number Q s :
  Good s →
  (∀ s', Sh s' → clrdisp s' = clrdisp s → Q tt s') →
  wp only_trap
    (when (truthy (clrdisp s)) (
       on_disp (buf_set 0 NUL);; Dpoint =: 0;; exponent =: 0;;
       when (truthy (Z.land (of_bool (rpn s)) (lift_enabled s))) (PushNum (dnum s))))
    Q s.
Proof.
  intros HG HQ. pose proof (Good_wf s HG) as Hw. apply wp_when; intros Hc.
  - apply wp_bind, wp_set_nul; [done|lia|]. intros b' Hb' Hcs.
    assert (Hsh : short b').
    { unfold short, strlen. rewrite Hcs. simpl. split; [lia|set_solver]. }
    apply wp_bind, wp_modify, wp_bind, wp_modify, wp_when; intros Hp.
    + apply wp_push_rpn.
      * destruct Hb'. by constructor.
      * simpl. destruct (rpn s); [done|]. by rewrite Z.land_0_l in Hp.
      * intros st Hst. apply HQ; [|done]. split; [done|done].
    + apply HQ; [|done]. split; [|done]. destruct Hb'. by constructor.
  - apply HQ; [|done]. apply Good_Sh; [done|]. unfold truthy in Hc.
    destruct (Z.eqb_spec (clrdisp s) 0); done.
Qed.

Lemma pres_numeric_digit k : pres Good Inv (numeric_digit k).
Proof.
  intros s HG. unfold numeric_digit. apply wp_bind, wp_gets. unfold id.
  apply wp_bind, wp_start_number; [done|]. intros s1 H1 Hc1.
  apply wp_bind, wp_disp; [apply H1|]. case_decide as Hlen.
  { apply wp_ret. by apply Sh_Inv. }
  destruct (numeric_char k (numbase s)) as [c|] eqn:Hk.
  2: { apply wp_ret. by apply Sh_Inv. }
  destruct (numeric_char_plain _ _ _ Hk) as [Hn He].
  apply wp_bind, wp_strcat_Sh; [done..| |].
  { unfold MAXDISP, strlen, LCD_STR_LEN in *. simpl. lia. }
  intros b Hb Heb. apply wp_bind, wp_draw_appended; [done..|].
  intros s2 H2 Hc2 _. pose proof (Sh_Inv s2 H2).
  apply wp_bind, wp_when; intros _.
  - apply wp_modify. do 3 (apply wp_bind || idtac; apply wp_modify).
    destruct H2 as [[] ?]. split; [by constructor|]. auto.
  - do 3 (apply wp_bind || idtac; apply wp_modify).
    destruct H2 as [[] ?]. split; [by constructor|]. auto.
Qed.

Lemma pres_numeric k : pres Good Inv (numeric k).
Proof.
  unfold numeric. apply (pres_bind Good Good).
  { apply pres_modify. intros s [[] ?]. split; [by constructor|done]. }
  intros _. apply pres_gets_bind. intros s Hs. unfold id.
  assert (Hm : ∀ op, op = kSTO ∨ op = kRCL ∨ op = kSUM → pres Good Inv (numeric_memory op k)).
  { intros op Hop. eapply pres_weaken; [by apply pres_numeric_memory|auto with calc..]. }
  pose proof (pres_numeric_digit k).
  destruct (rpn s); [|done]. destruct (memop s); auto.
Qed.

(** [decf] and [eef] restart a finished number. *)
Lemma wp_restart Q s x :
  Good s → NUL ∉ x → "e"%char ∉ x → (length x ≤ 12)%nat →
  (∀ s', Sh s' → clrdisp s' = clrdisp s → Dpoint s' = Dpoint s → Q tt s') →
  wp only_trap
    (when (truthy (clrdisp s)) (
       when (rpn s && truthy (lift_enabled s)) (PushNum (dnum s));;
       on_disp (strlcpy x))) Q s.
Proof.
  intros HG Hn He Hl HQ. pose proof (Good_wf s HG) as Hw. apply wp_when; intros Hc.
  - assert (Hfin : ∀ s1, wf s1 → clrdisp s1 = clrdisp s → Dpoint s1 = Dpoint s →
      wp only_trap (on_disp (strlcpy x)) Q s1).
    { intros s1 Hs1 ? ?. apply wp_strlcpy; [done|]. intros b Hb Hcs. apply HQ; [|done..].
      split; [done|]. unfold short, strlen. simpl. rewrite Hcs by done.
      rewrite length_take. split; [lia|]. by apply take_not_elem. }
    apply wp_bind, wp_when; intros Hp.
    + apply andb_prop in Hp as [Hr _]. apply wp_push_rpn; [done..|].
      intros st Hst. by apply Hfin.
    + by apply Hfin.
  - apply HQ; [|done..]. apply Good_Sh; [done|]. unfold truthy in Hc.
    destruct (Z.eqb_spec (clrdisp s) 0); done.
Qed.

Lemma pres_decf : pres Good Inv decf.
Proof.
  unfold decf. apply (pres_bind Good Good).
  { apply pres_modify. intros s [[] ?]. split; [by constructor|done]. }
  intros _ s HG. apply wp_bind, wp_gets. unfold id.
  apply wp_bind, wp_restart; [done|set_solver..|simpl; lia|].
  intros s1 H1 _ _.
  cut (∀ s2, Sh s2 → wp only_trap (clrdisp =: 0;; entered =: 1) (fun _ => Inv) s2).
  { intros Hfin. apply wp_bind, wp_when; intros _; [|by apply Hfin].
    apply wp_bind, wp_strcat_Sh; [done|set_solver..| |].
    { destruct H1 as [_ [? _]]. unfold LCD_STR_LEN. simpl. lia. }
    intros b Hb He. apply wp_bind, wp_draw_appended; [done..|].
    intros s2 H2 _ _. apply wp_modify, Hfin. by apply (Sh_core s2). }
  intros s2 [[] ?]. apply wp_bind, wp_modify, wp_modify. split; [|by right].
  by constructor.
Qed.

(** The end of [bkspf]: an emptied display becomes "0". *)
Lemma wp_bksp_refill s1 : Sh s1 → wp only_trap (
    d' ← disp;
    when (bool_decide (length d' = O)) (on_disp (strcat (str "0"));; clrdisp++:);;
    DrawDisplay) (fun _ => Inv) s1.
Proof.
  intros H1. apply wp_bind, wp_disp; [apply H1|]. apply wp_bind, wp_when.
  - intros Hz%bool_decide_eq_true. apply wp_bind, wp_strcat_Sh; [done|set_solver..| |].
    { unfold strlen. rewrite Hz. simpl. unfold LCD_STR_LEN. lia. }
    intros b Hb He. apply wp_modify.
    apply wp_draw_appended; [destruct Hb; constructor; simpl in *; auto; lia|done|].
    intros s2 H2 _ _. by apply Sh_Inv.
  - intros _. eapply wp_mono; [by apply pres_DrawDisplay_Sh|].
    intros ? ?. apply Sh_Inv.
Qed.

(** Deleting the last character. *)
Lemma wp_bksp_cut s s1 :
  Sh s → (0 < length (cstr (dispstr s)))%nat → wf s1 → dispstr s1 = dispstr s →
  wp only_trap (on_disp (buf_set (Z.of_nat (length (cstr (dispstr s))) - 1) NUL))
     (fun _ s2 => Sh s2) s1.
Proof.
  intros [_ [Hl He]] Hpos Hs1 Hd. unfold strlen in Hl.
  apply wp_set_nul; [done|lia|].
  intros b Hb Hcs. split; [done|]. unfold short, strlen. simpl. rewrite Hcs, Hd.
  rewrite length_take. split; [lia|]. by apply take_not_elem.
Qed.

Lemma pres_bkspf : pres Good Inv bkspf.
Proof.
  unfold bkspf. apply (pres_bind Good Good).
  { apply pres_modify. intros s [[] ?]. split; [by constructor|done]. }
  intros _ s HG. apply wp_bind, wp_gets. unfold id.
  destruct (negb (truthy (flagINV s))).
  - destruct (negb (entered s =? 1)); [apply pres_clearf; auto with calc|].
    destruct (truthy (clrdisp s)) eqn:Hc; [apply wp_ret; auto with calc|].
    assert (H0 : Sh s).
    { apply Good_Sh; [done|]. unfold truthy in Hc. by destruct (Z.eqb_spec (clrdisp s) 0). }
    apply wp_bind, wp_disp; [apply H0|].
    apply wp_bind, wp_when; [|intros _; by apply wp_bksp_refill].
    intros Hl%bool_decide_eq_true. apply wp_bind, wp_when; intros _.
    + apply wp_modify. eapply wp_mono; [apply wp_bksp_cut; [done..| |done]|].
      { destruct HG as [[] _]. by constructor. }
      intros ? s2 H2. by apply wp_bksp_refill.
    + eapply wp_mono; [apply wp_bksp_cut; [done..|auto with calc|done]|].
      intros ? s2 H2. by apply wp_bksp_refill.
  - apply (wp_mono _ _ (fun _ => Cl)); [|auto with calc].
    apply Good_wf in HG. revert HG. apply (fun H : pres wf Cl _ => H s).
    pres_step; [pres_auto|]. pres_step; [pres_auto|]. pres_core wf Cl. pres_auto.
Qed.

Lemma wp_write_tail Q s :
  wf s → cstr (dispstr s) ≠ [] →
  (∀ b, wf (s <| dispstr := b |>) → cstr b = tail (cstr (dispstr s)) →
    Q tt (s <| dispstr := b |>)) →
  wp only_trap (on_disp (write_str 0 (tail (cstr (dispstr s))))) Q s.
Proof.
  intros Hs Hne HQ. pose proof Hs as [].
  pose proof (strlen_lt _ wf_term0) as Hl. unfold strlen in Hl.
  destruct (write_str_some 0 (tail (cstr (dispstr s))) (dispstr s)) as [b Hb].
  { destruct (cstr (dispstr s)); simpl in *; [done|lia]. }
  eapply wp_on_disp_set; [exact Hb|]. apply HQ.
  - apply wf_set_disp; [done| |by eapply write_str_terminated].
    rewrite <- wf_disp0. by eapply write_str_length.
  - revert Hb. unfold write_str. case_decide; [|done]. intros [= <-].
    apply cstr_app. intros Hin. apply (cstr_no_nul (dispstr s)).
    destruct (cstr (dispstr s)); [done|]. simpl in Hin. set_solver.
Qed.

(** The end of [negf]: the number and the display are updated. *)
Lemma wp_negf_finish s b c :
  wf (s <| dispstr := b |>) → (clrdisp s = 0 → "e"%char ∉ cstr b) →
  wp only_trap
    (when c (dnum =: dmul (d_of_Z (-1)) (dnum s));; DrawDisplay)
    (fun _ => Inv) (s <| dispstr := b |>).
Proof.
  intros Hb He.
  assert (Hd : ∀ s1, wf s1 → clrdisp s1 = clrdisp s → dispstr s1 = b →
    wp only_trap DrawDisplay (fun _ => Inv) s1).
  { intros s1 Hs1 Hc1 Hd1. apply wp_DrawDisplay; [done|]. intros b' l i Hb' Hsh.
    split; [by destruct Hb'|]. simpl. rewrite Hc1. intros Hc. right.
    apply Hsh. rewrite Hd1. by apply He. }
  apply wp_bind, wp_when; intros _.
  - apply wp_modify. apply Hd; [|done..]. destruct Hb. by constructor.
  - by apply Hd.
Qed.

Lemma pres_negf : pres Good Inv negf.
Proof.
  unfold negf. apply (pres_bind Good Good).
  { apply pres_modify. intros s [[] ?]. split; [by constructor|done]. }
  intros _ s HG. pose proof HG as [Hs Hsh].
  apply wp_bind, wp_gets. unfold id. rewrite (wf_exponent s Hs). simpl.
  apply wp_bind, wp_disp; [done|]. case_decide as H0; [by apply wp_ret, Good_Inv|].
  apply wp_bind. case_decide as Hh.
  - apply wp_write_tail; [done|by intros E; rewrite E in Hh|].
    intros b Hb Hc. apply wp_negf_finish; [done|]. intros Hz.
    destruct (Hsh Hz) as [_ He]. rewrite Hc.
    destruct (cstr (dispstr s)); [done|]. simpl. set_solver.
  - apply wp_strlcpy; [done|]. intros b Hb Hc. apply wp_negf_finish; [done|].
    intros Hz. destruct (Hsh Hz) as [_ He]. rewrite Hc.
    + apply take_not_elem, not_elem_of_cons. split; [done|]. by apply take_not_elem.
    + apply not_elem_of_cons. split; [done|]. apply take_not_elem, cstr_no_nul.
Qed.
End Entry.

(** ** Runs *)

(** The keys other than the exponent and number-base ones. *)
Definition plain_key (k : key) : bool := negb (key_eqb k kEE || key_eqb k kBASE).

Section Runs.
Context `{!Libm}.

Lemma pres_do_op_switch k : plain_key k = true → pres Good Inv (do_op_switch k).
Proof.
  intros Hk.
  assert (Hg : ∀ m : cprog unit, pres Inv Inv m → pres Good Inv m).
  { intros m Hm. eapply pres_weaken; eauto using Good_Inv. }
  assert (Hr : ∀ a b : cprog unit, pres Inv Inv a → pres Inv Inv b →
    pres Good Inv (rpn_choice a b)).
  { intros a b Ha Hb. apply Hg. apply pres_gets_bind. intros s _. by destruct (rpn s). }
  pose proof pres_twoop. pose proof pres_twof. pose proof pres_oneop.
  pose proof pres_memf. pose proof pres_numeric.
  assert (pres Good Inv clearf) by (eapply pres_weaken; eauto using pres_clearf, Good_wf).
  assert (pres Good Inv offf) by (eapply pres_weaken; eauto using pres_offf, Good_wf).
  assert (pres Good Inv ringbell) by (apply pres_ret, Good_Inv).
  destruct k; try done; simpl;
    auto using pres_invf, pres_drgf, pres_decf, pres_negf, pres_bkspf, pres_lparf,
      pres_rparf, pres_entrf, pres_equf, pres_rollf.
Qed.

(** Error recovery keys work from the error state too. *)
Lemma pres_recovery k : k = kCLR ∨ k = kOFF → pres wf Inv (do_op_switch k).
Proof. intros [-> | ->]; [apply pres_clearf|apply pres_offf]. Qed.

Lemma pres_calc_do_op k : plain_key k = true → pres Inv Inv (calc_do_op k).
Proof.
  intros Hk s [Hs Hd]. unfold calc_do_op, with_pre_op, pre_op.
  apply wp_bind, wp_bind, wp_gets. unfold id.
  destruct (entered s =? 3) eqn:He; simpl.
  - destruct (negb (key_eqb k kCLR || key_eqb k kOFF)) eqn:Hrec.
    + destruct (rpn s); [|by apply wp_ret, wp_ret].
      apply wp_bind, wp_modify, wp_bind, wp_modify, wp_ret.
      apply pres_do_op_switch; [done|].
      destruct Hs. split; [constructor|]; simpl; auto; lia.
    + apply wp_bind, wp_when; intros _.
      all: try apply wp_modify; apply wp_ret, pres_recovery.
      all: try (unfold key_eqb in Hrec; apply negb_false_iff, orb_true_iff in Hrec;
                rewrite !bool_decide_eq_true in Hrec; done).
      all: destruct Hs; by constructor.
  - assert (HG : Good s).
    { split; [done|]. intros Hc. destruct (Hd Hc) as [E|]; [|done].
      rewrite E in He. done. }
    apply wp_bind, wp_when; intros _.
    + apply wp_modify, wp_ret, pres_do_op_switch; [done|].
      destruct HG as [[] ?]. split; [by constructor|done].
    + apply wp_ret. by apply pres_do_op_switch.
Qed.

Lemma pres_press ks : forallb plain_key ks = true → pres Inv Inv (press ks).
Proof.
  induction ks as [|k ks IH]; simpl; intros Hks; [by apply pres_ret|].
  apply andb_prop in Hks as [Hk Hks].
  eapply pres_bind; [by apply pres_calc_do_op|]. intros _. by apply IH.
Qed.

Lemma initial_Cl b : Cl (initial b).
Proof.
  split; [|done]. constructor; simpl; first [reflexivity | unfold STACKMAX; lia].
Qed.

Lemma pres_run ks : forallb plain_key ks = true → pres Cl Inv (ResetCalc;; press ks).
Proof.
  intros Hks. eapply pres_bind; [by apply pres_ResetCalc_Cl|]. intros _.
  eapply pres_weaken; [by apply pres_press|auto with calc..].
Qed.
End Runs.

(** ** Theorems *)

(** Evaluating [initial] by need would compute its floats. *)
#[local] Strategy 1000 [initial ResetCalc press].

(** C11: as long as neither EE nor base is pressed, no sequence of keys, on
    either keypad and with any mathematics library, makes the calculator read
    or write outside its arrays: the run ends in a state where the display is
    a terminated string in its 32 bytes and both stack pointers are in range,
    or it stops at an integer division trap. *)
Theorem plain_keys_memory_safe `{Libm} rpn_mode ks :
  forallb plain_key ks = true →
  match run rpn_mode ks with
  | Ok _ s => (strlen (dispstr s) < LCD_STR_LEN)%nat ∧ Inv s
  | Fault f => f = Trap
  end.
Proof.
  intros Hks. pose proof (pres_run ks Hks _ (initial_Cl rpn_mode)) as Hp.
  unfold wp in Hp. unfold run.
  destruct ((ResetCalc;; press ks) (initial rpn_mode)) as [[] s|f]; [|done].
  split; [|done]. destruct Hp as [[] _]. rewrite <- wf_disp0. by apply strlen_lt.
Qed.

Lemma plain_keys_memory_safe_witness :
  let L := Build_Libm (fun x _ => x) id id id id id id id id id in
  forallb plain_key [kNINE; kDEC; kFIVE; kNEG; kMUL; kTWO; kEQU; kBKSP] = true ∧
  match run false [kNINE; kDEC; kFIVE; kNEG; kMUL; kTWO; kEQU; kBKSP] with
  | Ok _ s => (strlen (dispstr s) < LCD_STR_LEN)%nat ∧ Inv s
  | Fault f => f = Trap
  end.
Proof.
  intros L. split; [reflexivity|].
  apply (@plain_keys_memory_safe L false [kNINE; kDEC; kFIVE; kNEG; kMUL; kTWO; kEQU; kBKSP]).
  reflexivity.
Defined.

(** Hexadecimal 2540BE400 is 10^10; cycling the base back to decimal shows
    "1e+10" with the entry still open, and every redraw then repeats part of
    the exponent. *)
Definition base_overflow_keys : list key :=
  [kBASE; kTWO; kFIVE; kFOUR; kZERO; kxB; kxE; kFOUR; kZERO; kZERO; kBASE; kBASE;
   kONE; kTWO; kTHREE; kFOUR; kFIVE; kSIX; kDEC; kNEG; kNEG; kEE].

(** 12E10 squared leaves the position of its exponent sign behind; the sign key
    then uncovers stale bytes of the old display, exponent mark included. *)
Definition ee_overflow_keys : list key :=
  [kONE; kTWO; kEE; kONE; kZERO; kSQR; kEE; kFIVE; kFIVE; kNEG; kONE; kTWO; kTHREE;
   kBKSP; kBKSP; kBKSP; kBKSP; kDEC; kBKSP; kBKSP; kBKSP; kDEC].
