(* ===== verification/CalcArith.v ===== *)
(** * isde-calc: what the calculator computes

    Functional theorems about [CalcMachine]: typing a number, evaluating a
    chain of binary operators in infix mode by the operator stack, the reverse
    Polish operations, memory, and the error state. *)

From S2P Require Import Prelude.
From S2P Require Import CString.
From S2P Require Import CFloat.
From S2P Require Import CalcMachine.
From S2P Require Import CalcDispatch.
From S2P Require Import CalcSafety.
Open Scope Z_scope.

(** Keeps the loops of [equf] and [rparf] folded. *)
#[local] Opaque STACKMAX.

(** The value of [acc op dnum] where it is defined for all arguments. *)
Definition arith_val `{Libm} (op : key) (a d : double) : double :=
  match op with
  | kADD => dadd a d
  | kSUB => dsub a d
  | kMUL => dmul a d
  | kDIV => ddiv a d
  | kPOW => pow a d
  | kAND => d_of_Z (Z.land (to_long a) (to_long d))
  | kOR => d_of_Z (Z.lor (to_long a) (to_long d))
  | kXOR => d_of_Z (Z.lxor (to_long a) (to_long d))
  | kSHL => d_of_Z (s64 (Z.shiftl (to_long a) (to_long d mod 64)))
  | kSHR => d_of_Z (Z.shiftr (to_long a) (to_long d mod 64))
  | _ => a
  end.

(** The binary operators other than [kMOD], which may trap. *)
Definition total_op (op : key) : bool :=
  match op with
  | kADD | kSUB | kMUL | kDIV | kPOW | kAND | kOR | kXOR | kSHL | kSHR => true
  | _ => false
  end.

Lemma arith_total `{Libm} op a d : op ≠ kMOD → arith op a d = mret (arith_val op a d).
Proof. by destruct op. Qed.

(** What [DrawDisplay] leaves of a display text. *)
Definition fit (d : list char) : list char :=
  if decide (MAXDISP ≤ length d)%nat then
    match strchr "e"%char d with
    | None => take 12 d
    | Some estr =>
      take 31 (take (if decide (length estr ≤ 4)%nat then 8 else 7)%nat d ++ estr)
    end
  else d.

(** ** Infix states *)

(** The number and operator stacks, tops first. *)
Record Infix (nums : list double) (ops : list key) (s : calc) : Prop := {
  if_wf : wf s;
  if_rpn : rpn s = false;
  if_base : numbase s = 10;
  if_inv : flagINV s = 0;
  if_numsp : numsp s = length nums;
  if_nums : take (numsp s) (numstack s) = rev nums;
  if_opsp : opsp s = length ops;
  if_ops : take (opsp s) (opstack s) = rev ops
}.

(** The state's operand: the value in [dnum], or the number on the display. *)
Definition Holding (x : double) (s : calc) : Prop :=
  (entered s = 2 ∧ dnum s = x) ∨
  (entered s = 1 ∧ sscanf_lf (cstr (dispstr s)) = Some x).

Definition regs (s : calc) := (dnum s, acc s, entered s, clrdisp s).

Definition ctl (s : calc) := (entered s, clrdisp s).

(** States that agree on what [Infix] constrains. *)
Definition same_infix (s s' : calc) : Prop :=
  same_core s s' ∧ rpn s' = rpn s ∧ numbase s' = numbase s ∧ flagINV s' = flagINV s.

Lemma Infix_same nums ops s s' : Infix nums ops s → same_infix s s' → Infix nums ops s'.
Proof.
  intros [] (Hc & Hr & Hb & Hi). pose proof Hc as [E1 _].
  assert (numsp s' = numsp s) as En by congruence.
  assert (opsp s' = opsp s) as Eo by congruence.
  assert (numstack s' = numstack s) as Ens by congruence.
  assert (opstack s' = opstack s) as Eos by congruence.
  constructor; try congruence. by eapply wf_core.
Qed.

Lemma Infix_disp nums ops s b :
  Infix nums ops s → wf (s <| dispstr := b |>) → Infix nums ops (s <| dispstr := b |>).
Proof. intros [] ?. by constructor. Qed.

Ltac infix_upd :=
  match goal with H : Infix _ _ ?s |- Infix _ _ _ =>
    solve [eapply Infix_same; [exact H | by repeat split]] end.

Lemma Infix_inv0 nums ops s : Infix nums ops s → Infix nums ops (s <| flagINV := 0 |>).
Proof. intros [[]]. constructor; [by constructor|done..]. Qed.

Lemma take_S_insert {A} (l : list A) n x :
  (n < length l)%nat → take (S n) (<[n := x]> l) = take n l ++ [x].
Proof.
  intros Hn. rewrite (take_S_r _ _ x).
  - by rewrite take_insert_ge.
  - by apply list_lookup_insert_eq.
Qed.

Lemma take_S_inv {A} (l : list A) n x t :
  take (S n) l = t ++ [x] → length t = n → l !! n = Some x ∧ take n l = t.
Proof.
  intros E Hl. split.
  - rewrite <- (lookup_take_lt l (S n) n) by lia. rewrite E.
    by rewrite list_lookup_middle.
  - rewrite <- (take_app_length' t [x] n) by done. rewrite <- E, take_take.
    f_equal. lia.
Qed.

Section Primitives.
Context `{!Libm}.

Lemma wp_PushNum nums ops s x Q :
  Infix nums ops s → (length nums < STACKMAX)%nat →
  (∀ s', Infix (x :: nums) ops s' → regs s' = regs s → Q tt s') →
  wp no_fault (PushNum x) Q s.
Proof.
  intros [] Hl HQ. pose proof if_wf0 as []. unfold PushNum.
  apply wp_bind, wp_gets. unfold id. rewrite if_rpn0.
  rewrite decide_False by lia.
  rewrite decide_True by (rewrite wf_numstack; lia).
  apply wp_modify, HQ; [|done]. constructor; simpl; try done.
  - constructor; simpl; try done; [by rewrite length_insert|lia].
  - by rewrite if_numsp0.
  - rewrite take_S_insert by (rewrite wf_numstack; lia). by rewrite if_nums0.
Qed.

Lemma wp_PopNum nums ops s x Q :
  Infix (x :: nums) ops s →
  (∀ s', Infix nums ops s' → regs s' = regs s → Q x s') →
  wp no_fault PopNum Q s.
Proof.
  intros [] HQ. pose proof if_wf0 as []. unfold PopNum.
  apply wp_bind, wp_gets. unfold id. rewrite if_rpn0.
  simpl in if_numsp0. rewrite if_numsp0 in *. simpl in if_nums0.
  destruct (take_S_inv _ _ _ _ if_nums0) as [Hx Ht]; [by rewrite length_rev|].
  apply wp_bind, wp_modify. unfold get_cell. rewrite Hx. apply wp_ret, HQ; [|done].
  constructor; simpl; try done. constructor; simpl; try done. lia.
Qed.

Lemma wp_PushOp nums ops s op Q :
  Infix nums ops s → (length ops < STACKMAX)%nat →
  (∀ s', Infix nums (op :: ops) s' → regs s' = regs s → Q tt s') →
  wp no_fault (PushOp op) Q s.
Proof.
  intros [] Hl HQ. pose proof if_wf0 as []. unfold PushOp.
  apply wp_bind, wp_gets. unfold id.
  rewrite decide_False by lia.
  rewrite decide_True by (rewrite wf_opstack; lia).
  apply wp_modify, HQ; [|done]. constructor; simpl; try done.
  - constructor; simpl; try done; [by rewrite length_insert|lia].
  - by rewrite if_opsp0.
  - rewrite take_S_insert by (rewrite wf_opstack; lia). by rewrite if_ops0.
Qed.

Lemma wp_PopOp nums ops s op Q :
  Infix nums (op :: ops) s →
  (∀ s', Infix nums ops s' → regs s' = regs s → Q op s') →
  wp no_fault PopOp Q s.
Proof.
  intros [] HQ. pose proof if_wf0 as []. unfold PopOp.
  apply wp_bind, wp_gets. unfold id.
  simpl in if_opsp0. rewrite if_opsp0 in *. simpl in if_ops0.
  destruct (take_S_inv _ _ _ _ if_ops0) as [Hx Ht]; [by rewrite length_rev|].
  apply wp_bind, wp_modify. unfold get_cell. rewrite Hx. apply wp_ret, HQ; [|done].
  constructor; simpl; try done. constructor; simpl; try done. lia.
Qed.

Lemma wp_isopempty nums ops s Q :
  Infix nums ops s → Q (match ops with [] => true | _ => false end) s →
  wp no_fault isopempty Q s.
Proof.
  intros [] HQ. unfold isopempty. apply wp_bind, wp_gets, wp_ret.
  rewrite if_opsp0. destruct ops; by rewrite ?bool_decide_true, ?bool_decide_false by done.
Qed.
End Primitives.

(** ** The abstract operator-stack evaluator *)

Section Abstract.
Context `{!Libm}.

(** What an operator key does to the number and operator stacks when the
    operand is [x]: at most one pending operator is evaluated. *)
Definition push_op (op : key) (x : double) (st : list double * list key) :=
  match st with
  | (a :: nums, o :: ops) =>
    if priority o <? priority op then (x :: a :: nums, op :: o :: ops)
    else (arith_val o a x :: nums, op :: ops)
  | (nums, ops) => (x :: nums, op :: ops)
  end.

(** What the equals key does: evaluate every pending operator. *)
Fixpoint unwind (ops : list key) (x : double) (nums : list double) : double * list double :=
  match ops, nums with
  | op :: ops', a :: nums' => unwind ops' (arith_val op a x) nums'
  | _, _ => (x, nums)
  end.

Fixpoint push_ops (st : list double * list key) (l : list (double * key)) :=
  match l with
  | [] => st
  | (x, op) :: l' => push_ops (push_op op x st) l'
  end.

(** The chain [x1 op1 x2 op2 ... x =] started on empty stacks. *)
Definition eval_chain (l : list (double * key)) (x : double) : double :=
  let '(nums, ops) := push_ops ([], []) l in fst (unwind ops x nums).
End Abstract.

Section Handlers.
Context `{!Libm}.

Lemma wp_parse_if_entered nums ops s x Q :
  Infix nums ops s → Holding x s →
  (∀ s', Infix nums ops s' → dnum s' = x → ctl s' = ctl s →
     Q tt s') →
  wp no_fault parse_if_entered Q s.
Proof.
  intros HI HH HQ. unfold parse_if_entered. apply wp_bind, wp_gets.
  destruct HH as [[E D]|[E D]]; rewrite E.
  - by apply wp_ret, HQ.
  - apply wp_bind, wp_disp; [apply HI|]. apply wp_bind, wp_gets.
    rewrite (if_base _ _ _ HI). simpl. rewrite D.
    apply wp_modify, HQ; [infix_upd | done..].
Qed.

Lemma wp_arith_acc nums ops s op Q :
  total_op op = true → Infix nums ops s →
  (∀ s', Infix nums ops s' → acc s' = arith_val op (acc s) (dnum s) →
     ctl s' = ctl s → Q tt s') →
  wp no_fault (arith_acc op) Q s.
Proof.
  intros Hop HI HQ. unfold arith_acc. apply wp_bind, wp_gets. unfold id.
  rewrite arith_total by (by intros ->). apply wp_bind, wp_ret, wp_modify.
  apply HQ; [infix_upd | done..].
Qed.

Lemma total_not_lpar op : total_op op = true → op ≠ kLPAR.
Proof. by intros ? ->. Qed.

Lemma wp_equf_step nums ops s x a op Q :
  total_op op = true → Infix (x :: a :: nums) (op :: ops) s →
  (∀ s', Infix (arith_val op a x :: nums) ops s' → dnum s' = arith_val op a x →
     ctl s' = ctl s → Q tt s') →
  wp no_fault equf_step Q s.
Proof.
  intros Hop HI HQ. unfold equf_step.
  eapply wp_bind, wp_PopNum; [exact HI|]. intros s1 I1 R1.
  apply wp_bind, wp_modify. eapply wp_bind, wp_PopNum; [infix_upd|]. intros s2 I2 R2.
  apply wp_bind, wp_modify. eapply wp_bind, wp_PopOp; [infix_upd|]. intros s3 I3 R3.
  apply wp_bind, wp_modify. apply wp_bind.
  assert (Hk : ∀ s4, Infix nums ops s4 → acc s4 = arith_val op a x → ctl s4 = ctl s →
    wp no_fault (r ← gets acc; dnum =: r;; PushNum r) Q s4).
  { intros s4 I4 A4 E4. apply wp_bind, wp_gets, wp_bind, wp_modify. rewrite A4.
    eapply wp_PushNum; [infix_upd| |].
    - destruct HI as [[] _ _ _ E _ _ _]. simpl in *. lia.
    - intros s5 I5 R5. unfold regs, ctl in *. apply HQ; simpl in *; congruence. }
  assert (wp no_fault (arith_acc op) (fun _ s4 =>
    wp no_fault (r ← gets acc; dnum =: r;; PushNum r) Q s4) (s3 <| lastop := op |>)).
  { eapply wp_arith_acc; [done|infix_upd|]. intros s4 I4 A4 E4.
    unfold regs, ctl in *. simpl in *. apply Hk; [done| |congruence].
    rewrite A4. f_equal; congruence. }
  by destruct op.
Qed.

Lemma wp_equf_loop fuel : ∀ ops nums x s Q,
  forallb total_op ops = true → (length ops ≤ fuel)%nat →
  (length ops ≤ length nums)%nat →
  Infix (x :: nums) ops s → dnum s = x →
  (∀ s', Infix (fst (unwind ops x nums) :: snd (unwind ops x nums)) [] s' →
     dnum s' = fst (unwind ops x nums) → ctl s' = ctl s → Q tt s') →
  wp no_fault (equf_loop fuel) Q s.
Proof.
  induction fuel as [|fuel IH]; intros ops nums x s Q Hops Hf Hl HI Hd HQ; simpl;
    (eapply wp_bind, wp_isopempty; [exact HI|]);
    (destruct ops as [|op ops]; [by apply wp_ret, HQ|]); simpl in *; [lia|].
  destruct nums as [|a nums]; simpl in *; [lia|].
  apply andb_prop in Hops as [Hop Hops]. eapply wp_bind, wp_equf_step; [done..|].
  intros s1 I1 D1 E1. apply (IH ops nums (arith_val op a x)); [done|lia|lia|done|done|].
  intros s' ? ? ?. apply HQ; congruence.
Qed.

Lemma wp_DrawDisplay_total Q s :
  wf s →
  (∀ b i, wf (s <| dispstr := b |>) → cstr b = fit (cstr (dispstr s)) →
     Q tt (s <| dispstr := b |> <| lcd := fit (cstr (dispstr s)) |> <| ind := i |>)) →
  wp no_fault DrawDisplay Q s.
Proof.
  intros Hs HQ. unfold DrawDisplay. apply wp_bind, wp_disp; [done|].
  assert (Hend : ∀ b fs, wf (s <| dispstr := b |>) → cstr b = fit (cstr (dispstr s)) →
    wp no_fault (d' ← disp; draw d';; s ← gets id; setflags (fs s)) Q (s <| dispstr := b |>)).
  { intros b fs Hb Hc. apply wp_bind, wp_disp; [done|]. simpl. rewrite Hc.
    apply wp_bind, wp_modify, wp_bind, wp_gets, wp_modify. by apply HQ. }
  pose proof (cstr_no_nul (dispstr s)) as Hnn. apply wp_bind. unfold fit in *.
  case_decide as Hl.
  - destruct (strchr "e"%char (cstr (dispstr s))) as [estr|] eqn:He.
    + apply wp_strlcpy; [done|]. intros b Hb Hc.
      apply (Hend b (fun s => [(_, _); _; _; _; _; _; _; _; _])); [done|].
      rewrite Hc, take_take; [done|]. apply take_not_elem. rewrite elem_of_app.
      intros [Hin|Hin]; apply Hnn; [by eapply subseteq_take|].
      by eapply strchr_incl.
    + apply wp_set_nul; [done|lia|]. intros b Hb Hc.
      by apply (Hend b (fun s => [(_, _); _; _; _; _; _; _; _; _])).
  - apply wp_ret, wp_bind, wp_disp; [done|].
    apply wp_bind, wp_modify, wp_bind, wp_gets, wp_modify.
    apply (HQ (dispstr s)); [|done].
    destruct Hs. by constructor.
Qed.
End Handlers.

(** ** Printed numbers are strings *)

Lemma digit_char_not_nul d : 0 ≤ d < 16 → digit_char d ≠ NUL.
Proof.
  intros Hd. assert (d ∈ seqZ 0 16) as Hin by (apply elem_of_seqZ; lia).
  clear Hd. revert d Hin. apply Forall_forall. by vm_compute; repeat constructor.
Qed.

Lemma digits_aux_no_nul n base z acc :
  0 < base ≤ 16 → NUL ∉ acc → NUL ∉ digits_aux n base z acc.
Proof.
  intros Hb. revert z acc. induction n as [|n IH]; intros z acc Hacc; simpl; [done|].
  assert (NUL ∉ digit_char (z mod base) :: acc).
  { apply not_elem_of_cons. split; [|done]. apply not_eq_sym, digit_char_not_nul.
    pose proof (Z.mod_pos_bound z base). lia. }
  destruct (_ <? _); auto.
Qed.

Lemma digits_no_nul base z : 0 < base ≤ 16 → NUL ∉ digits base z.
Proof. intros. apply digits_aux_no_nul; [done|set_solver]. Qed.

Lemma strip_zeros_incl x s : x ∈ strip_zeros s → x ∈ s.
Proof.
  induction s as [|c s IH]; simpl; [done|].
  destruct (strip_zeros s); [case_decide|]; set_solver.
Qed.

Lemma point_no_nul i f : NUL ∉ i → NUL ∉ f → NUL ∉ point i f.
Proof.
  intros Hi Hf. unfold point. destruct (strip_zeros f) as [|c t] eqn:E; [done|].
  rewrite <- E, elem_of_app, elem_of_cons. intros [?|[?|Hin%strip_zeros_incl]]; done.
Qed.

Lemma drop_not_elem {A} (x : A) n (l : list A) : x ∉ l → x ∉ drop n l.
Proof. intros Hx Hin. apply Hx. by eapply subseteq_drop. Qed.

Lemma repeat_not_elem {A} (x y : A) n : x ≠ y → x ∉ repeat y n.
Proof. intros Hne. induction n; simpl; [set_solver|]. by apply not_elem_of_cons. Qed.

Lemma print_g_pos_no_nul n d : NUL ∉ print_g_pos n d.
Proof.
  unfold print_g_pos. destruct (if _ =? _ then _ else _) as [m x].
  assert (Hd : NUL ∉ digits 10 m) by (apply digits_no_nul; lia).
  assert (Hx : NUL ∉ digits 10 (Z.abs x)) by (apply digits_no_nul; lia).
  assert (Hp : NUL ∉ point (take 1 (digits 10 m)) (drop 1 (digits 10 m))).
  { apply point_no_nul; [by apply take_not_elem|by apply drop_not_elem]. }
  destruct (_ && _); [destruct (0 <=? x)|].
  - apply point_no_nul; [by apply take_not_elem|by apply drop_not_elem].
  - apply point_no_nul; [set_solver|]. rewrite elem_of_app.
    intros [Hin|Hin]; [|done]. by eapply repeat_not_elem in Hin.
  - rewrite elem_of_app, !elem_of_cons. intros [Hin|[Hin|[Hin|Hin]]]; [done..| |].
    + by destruct (x <? 0).
    + unfold pad2 in Hin. destruct (Nat.ltb _ _); [|done].
      apply elem_of_cons in Hin as [?|?]; done.
Qed.

Lemma print_g_no_nul x : NUL ∉ print_g x.
Proof.
  destruct x as [[]|[]| |[] m e]; simpl; try set_solver;
    destruct (0 <=? e); rewrite ?elem_of_cons; intros Hin;
    repeat match goal with H : _ ∨ _ |- _ => destruct H | H : NUL ∈ _ |- _ =>
      apply print_g_pos_no_nul in H end; done.
Qed.

(** ** Handlers on infix states *)

Section InfixHandlers.
Context `{!Libm}.

(** Between two numbers: the next digit starts a fresh entry. *)
Definition Fresh (s : calc) : Prop := clrdisp s ≠ 0 ∧ entered s ≠ 3.

Lemma Infix_clr nums ops s s' :
  Infix nums ops s →
  same_infix s (s' <| clrdisp := clrdisp s |> <| entered := entered s |>
                   <| exponent := exponent s |>) →
  0 ≤ clrdisp s' → exponent s' = 0 → Infix nums ops s'.
Proof.
  intros HI Hs ? ?. pose proof (Infix_same _ _ _ _ HI Hs) as [[] ?? ?????].
  constructor; [by constructor|done..].
Qed.

Ltac infix_upd' :=
  match goal with H : Infix _ _ ?s |- Infix _ _ _ =>
    solve [eapply Infix_clr;
      [exact H | by repeat split | simpl; first [lia | apply H] | first [done | apply H]]] end.

Lemma wp_format_double nums ops s x Q :
  Infix nums ops s →
  (∀ s', Infix nums ops s' → regs s' = regs s →
     cstr (dispstr s') = take 31 (print_g x) → Q tt s') →
  wp no_fault (format_double x) Q s.
Proof.
  intros HI HQ. unfold format_double. apply wp_bind, wp_gets.
  rewrite (if_base _ _ _ HI). simpl. unfold snprintf.
  apply wp_strlcpy; [apply HI|]. intros b Hb Hc. apply HQ; [by apply Infix_disp|done|].
  simpl. by rewrite Hc by apply print_g_no_nul.
Qed.

Lemma wp_draw nums ops s Q :
  Infix nums ops s →
  (∀ s', Infix nums ops s' → regs s' = regs s →
     cstr (dispstr s') = fit (cstr (dispstr s)) →
     lcd s' = fit (cstr (dispstr s)) → Q tt s') →
  wp no_fault DrawDisplay Q s.
Proof.
  intros HI HQ. apply wp_DrawDisplay_total; [apply HI|]. intros b i Hb Hc.
  apply HQ; [|done..]. destruct HI. by constructor; destruct Hb.
Qed.

Lemma wp_equf nums ops s x Q :
  Infix nums ops s → Holding x s → forallb total_op ops = true →
  (length ops ≤ length nums < STACKMAX)%nat →
  (∀ s', let '(r, rest) := unwind ops x nums in
     Infix (r :: rest) [] s' → dnum s' = r → Holding r s' → Fresh s' →
     lcd s' = fit (take 31 (print_g r)) → Q tt s') →
  wp no_fault equf Q s.
Proof.
  intros HI HH Hops Hlen HQ. destruct (unwind ops x nums) as [r rest] eqn:Hu.
  unfold equf. apply wp_bind, wp_modify, wp_bind, wp_gets. simpl.
  pose proof (Infix_inv0 _ _ _ HI) as HI0.
  replace (entered s =? 0) with false by (destruct HH as [[-> _]|[-> _]]; done).
  apply wp_bind, wp_modify, wp_bind, wp_modify, wp_bind, wp_modify, wp_bind, wp_modify.
  apply wp_bind.
  eapply (wp_parse_if_entered nums ops); [infix_upd'|exact HH|].
  intros s1 I1 D1 E1. apply wp_bind, wp_modify, wp_bind, wp_gets. simpl. rewrite D1.
  eapply wp_bind, wp_PushNum; [infix_upd'|lia|]. intros s2 I2 R2.
  eapply wp_bind, wp_equf_loop; [exact Hops| |apply Hlen|exact I2| |].
  { pose proof (if_opsp _ _ _ HI). pose proof (wf_opsp _ (if_wf _ _ _ HI)). lia. }
  { unfold regs in R2. simpl in R2. congruence. }
  intros s3 I3 D3 E3. apply wp_bind, wp_gets.
  eapply wp_bind, wp_format_double; [exact I3|]. intros s3' I3' R3' C3.
  eapply wp_draw; [exact I3'|]. intros s4 I4 R4 _ L4. rewrite C3 in L4.
  rewrite Hu in *. unfold regs, ctl in *. simpl in *.
  assert (clrdisp s4 = 1) as Ec by congruence.
  assert (entered s4 = 2) as Ee by congruence.
  apply HQ; [done|congruence| | |congruence].
  - left. split; congruence.
  - unfold Fresh. rewrite Ec, Ee. done.
Qed.

(** An operator key on an infix state whose pending operators are total. *)
Lemma wp_twoop nums ops s x op Q :
  Infix nums ops s → Holding x s → forallb total_op ops = true →
  length ops = length nums → (length nums < STACKMAX)%nat →
  (∀ s', let '(nums', ops') := push_op op x (nums, ops) in
     Infix nums' ops' s' → Fresh s' → Q tt s') →
  wp no_fault (twoop op) Q s.
Proof.
  intros HI HH Hops Heq Hlt HQ. unfold twoop.
  apply wp_bind, wp_gets. rewrite (if_inv _ _ _ HI). simpl.
  apply wp_bind, wp_ret, wp_bind, wp_gets.
  replace (entered s =? 0) with false by (destruct HH as [[-> _]|[-> _]]; done).
  eapply wp_bind, wp_parse_if_entered; [exact HI|exact HH|]. intros s1 I1 D1 E1.
  do 5 apply wp_bind, wp_modify.
  set (s2 := (_ : calc)). assert (I2 : Infix nums ops s2) by infix_upd'.
  assert (D2 : dnum s2 = x) by done. assert (F2 : ctl s2 = (0, 1)) by done.
  clearbody s2. clear s1 I1 D1 E1.
  assert (Hdone : ∀ s', ctl s' = (0, 1) → Fresh s').
  { unfold ctl, Fresh. intros s' [= -> ->]. done. }
  eapply wp_bind, wp_isopempty; [exact I2|].
  destruct ops as [|o ops]; destruct nums as [|a nums]; try done; simpl in *.
  - eapply wp_bind, wp_PushOp; [exact I2|simpl; lia|]. intros s3 I3 R3.
    apply wp_bind, wp_gets. unfold regs, ctl in *.
    eapply wp_PushNum; [exact I3|simpl; lia|]. intros s4 I4 R4. unfold regs in *.
    replace (dnum s3) with x in I4 by congruence.
    apply HQ; [done|]. apply Hdone. unfold ctl. congruence.
  - apply andb_prop in Hops as [Ho Hops]. unfold twoop_pending.
    eapply wp_bind, wp_PopOp; [exact I2|]. intros s3 I3 R3.
    apply wp_bind, wp_modify, wp_bind, wp_gets. unfold key_eqb.
    rewrite bool_decide_false by (by apply total_not_lpar). unfold regs, ctl in *.
    change (dnum (s3 <| lastop := o |>)) with (dnum s3).
    replace (dnum s3) with x by congruence.
    destruct (priority o <? priority op).
    + eapply wp_bind, wp_PushNum; [infix_upd|simpl; lia|]. intros s4 I4 R4.
      eapply wp_bind, wp_PushOp; [exact I4|lia|]. intros s5 I5 R5.
      eapply wp_PushOp; [exact I5|simpl; lia|]. intros s6 I6 R6.
      apply HQ; [done|]. apply Hdone. unfold ctl, regs in *. simpl in *. congruence.
    + eapply wp_bind, wp_PopNum; [infix_upd|]. intros s4 I4 R4.
      apply wp_bind, wp_modify. eapply wp_bind, wp_arith_acc; [done|infix_upd|].
      intros s5 I5 A5 E5. apply wp_bind, wp_gets. unfold regs, ctl in *. simpl in *.
      replace (acc s5) with (arith_val o a x) by (rewrite A5; f_equal; congruence).
      eapply wp_bind, wp_PushNum; [exact I5|lia|]. intros s6 I6 R6.
      eapply wp_bind, wp_PushOp; [exact I6|lia|]. intros s7 I7 R7.
      eapply wp_bind, wp_format_double; [exact I7|]. intros s8 I8 R8 _.
      eapply wp_bind, wp_draw; [exact I8|]. intros s9 I9 R9 _ _.
      apply wp_modify, HQ; [infix_upd|]. apply Hdone.
      unfold ctl, regs in *. simpl in *. congruence.
Qed.
End InfixHandlers.

(** ** Typing numbers *)

(** The decimal digit keys. *)
Definition digit_of_key (k : key) : option Z :=
  match k with
  | kZERO => Some 0 | kONE => Some 1 | kTWO => Some 2 | kTHREE => Some 3
  | kFOUR => Some 4 | kFIVE => Some 5 | kSIX => Some 6 | kSEVEN => Some 7
  | kEIGHT => Some 8 | kNINE => Some 9
  | _ => None
  end.

Definition is_digit_key (k : key) : bool := bool_decide (is_Some (digit_of_key k)).

(** What can be typed as a number: at most eleven digits, no leading zero. *)
Definition number_keys (ks : list key) : bool :=
  forallb is_digit_key ks && bool_decide (0 < length ks ≤ 11)%nat &&
  negb (bool_decide (head ks = Some kZERO)).

Definition keys_value (ks : list key) : Z :=
  fold_left (fun v k => v * 10 + default 0 (digit_of_key k)) ks 0.

Definition key_char (k : key) : char := digit_char (default 0 (digit_of_key k)).

Lemma key_char_numeric k b :
  is_digit_key k = true → 10 ≤ b → numeric_char k b = Some (key_char k).
Proof.
  unfold is_digit_key, key_char. intros Hk Hb. apply bool_decide_eq_true in Hk.
  destruct k; simpl in *; try (by destruct Hk); try done.
  all: by replace (8 <? b) with true by lia.
Qed.

Lemma key_char_plain k :
  is_digit_key k = true → (key_char k ≠ NUL) ∧ (key_char k ≠ "e"%char) ∧
    base_digit 10 (key_char k) = digit_of_key k ∧ isspace (key_char k) = false.
Proof.
  unfold is_digit_key. intros Hk. apply bool_decide_eq_true in Hk.
  by destruct k; try (by destruct Hk).
Qed.

Section Typing.
Context `{!Libm}.

(** A key outside the error state runs its handler. *)
Lemma wp_key nums ops s k Q :
  Infix nums ops s → entered s ≠ 3 →
  (∀ s1, Infix nums ops s1 → regs s1 = regs s → dispstr s1 = dispstr s →
     wp no_fault (do_op_switch k) Q s1) →
  wp no_fault (calc_do_op k) Q s.
Proof.
  intros HI He HQ. unfold calc_do_op, with_pre_op, pre_op.
  apply wp_bind, wp_bind, wp_gets. unfold id.
  destruct (Z.eqb_spec (entered s) 3); [done|]. simpl.
  apply wp_bind, wp_when; intros _.
  - apply wp_modify, wp_ret, HQ; [infix_upd|done..].
  - by apply wp_ret, HQ.
Qed.

(** The text a further digit is appended to. *)
Definition pending_text (s : calc) : list char :=
  if truthy (clrdisp s) then [] else cstr (dispstr s).

Lemma wp_number_start nums ops s Q :
  Infix nums ops s →
  (∀ s', Infix nums ops s' → regs s' = regs s →
     cstr (dispstr s') = pending_text s → Q tt s') →
  wp no_fault
    (when (truthy (clrdisp s)) (
       on_disp (buf_set 0 NUL);; Dpoint =: 0;; exponent =: 0;;
       when (truthy (Z.land (of_bool (rpn s)) (lift_enabled s))) (PushNum (dnum s))))
    Q s.
Proof.
  intros HI HQ. unfold pending_text in HQ. destruct (truthy (clrdisp s)).
  - simpl. apply wp_bind, wp_set_nul; [apply HI|lia|]. intros b Hb Hc.
    apply wp_bind, wp_modify, wp_bind, wp_modify. rewrite (if_rpn _ _ _ HI). simpl.
    apply wp_ret, HQ; [|done..]. destruct HI. constructor; try done.
    by destruct Hb.
  - by apply wp_ret, HQ.
Qed.

Lemma fit_plain d :
  "e"%char ∉ d → (length d ≤ 12)%nat → fit d = d.
Proof.
  intros He Hl. unfold fit. case_decide; [|done].
  rewrite strchr_none by done. by rewrite take_ge.
Qed.

Lemma wp_digit_key nums ops s k Q :
  Infix nums ops s → entered s ≠ 3 → is_digit_key k = true →
  "e"%char ∉ pending_text s → (length (pending_text s) < 11)%nat →
  (clrdisp s ≠ 0 → k ≠ kZERO) →
  (∀ s', Infix nums ops s' → entered s' = 1 → clrdisp s' = 0 →
     cstr (dispstr s') = pending_text s ++ [key_char k] →
     lcd s' = pending_text s ++ [key_char k] → Q tt s') →
  wp no_fault (calc_do_op k) Q s.
Proof.
  intros HI He Hk Hne Hlen Hz HQ.
  destruct (key_char_plain k Hk) as (Hnul & Hce & _).
  eapply wp_key; [done..|]. intros s1 I1 R1 D1.
  assert (do_op_switch k = numeric k) as ->.
  { unfold is_digit_key in Hk. apply bool_decide_eq_true in Hk.
    by destruct k; try (by destruct Hk). }
  unfold numeric. apply wp_bind, wp_modify. apply Infix_inv0 in I1.
  set (s2 := s1 <| flagINV := 0 |>) in *.
  assert (P2 : pending_text s2 = pending_text s).
  { unfold pending_text, regs in *. simpl. rewrite D1.
    by replace (clrdisp s1) with (clrdisp s) by congruence. }
  assert (C2 : clrdisp s2 = clrdisp s) by (unfold regs in R1; simpl; congruence).
  clearbody s2. apply wp_bind, wp_gets. unfold id. rewrite (if_rpn _ _ _ I1).
  unfold numeric_digit. apply wp_bind, wp_gets. unfold id.
  eapply wp_bind, wp_number_start; [exact I1|]. intros s3 I3 R3 E3.
  apply wp_bind, wp_disp; [apply I3|]. rewrite E3, P2.
  rewrite decide_False by (unfold MAXDISP; lia).
  rewrite (if_base _ _ _ I1), (key_char_numeric k 10) by done.
  apply wp_bind, wp_strcat; [apply I3|by rewrite list_elem_of_singleton| |].
  { unfold strlen, LCD_STR_LEN. rewrite E3, P2. simpl. lia. }
  intros b Hb Hcs. rewrite E3, P2 in Hcs.
  eapply wp_bind, wp_draw; [by apply Infix_disp|]. simpl. rewrite Hcs, fit_plain.
  2: { rewrite elem_of_app, list_elem_of_singleton. intros [?|?]; by subst. }
  2: { rewrite length_app. simpl. lia. }
  intros s4 I4 R4 C4 L4. apply wp_bind.
  assert (Hc : clrdisp s4 = clrdisp s) by (unfold regs in *; simpl in *; congruence).
  assert (Hend : ∀ s5, Infix nums ops s5 → clrdisp s5 = 0 → dispstr s5 = dispstr s4 →
    lcd s5 = lcd s4 →
    wp no_fault (memop =: k;; entered =: 1;; lift_enabled =: 0) Q s5).
  { intros s5 I5 E5 D5 L5. apply wp_bind, wp_modify, wp_bind, wp_modify, wp_modify.
    apply HQ; [|done|done|simpl; congruence..].
    eapply Infix_clr; [exact I5|by repeat split|simpl; lia|simpl; apply I5]. }
  apply wp_when; intros Ht.
  - apply wp_modify, Hend; [|done..].
    eapply Infix_clr; [exact I4|by repeat split|simpl; lia|simpl; apply I4].
  - apply Hend; [done| |done..]. rewrite Hc. unfold truthy, key_eqb in Ht.
    destruct (Z.eqb_spec (clrdisp s2) 0); [lia|]. simpl in Ht.
    rewrite bool_decide_false in Ht; [done|]. apply Hz. lia.
Qed.

Lemma wp_type_rest ks : ∀ nums ops s d Q,
  Infix nums ops s → entered s = 1 → clrdisp s = 0 → cstr (dispstr s) = d → lcd s = d →
  "e"%char ∉ d → (length d + length ks ≤ 11)%nat → forallb is_digit_key ks = true →
  (∀ s', Infix nums ops s' → entered s' = 1 → clrdisp s' = 0 →
     cstr (dispstr s') = d ++ map key_char ks → lcd s' = d ++ map key_char ks → Q tt s') →
  wp no_fault (press ks) Q s.
Proof.
  induction ks as [|k ks IH]; intros nums ops s d Q HI He Hc Hd HL Hne Hlen Hk HQ.
  { apply wp_ret, HQ; [done..| |]; by rewrite app_nil_r. }
  simpl in *. apply andb_prop in Hk as [Hk Hks].
  assert (Hp : pending_text s = d) by (unfold pending_text; by rewrite Hc).
  eapply wp_bind, wp_digit_key; [exact HI|lia|done|by rewrite Hp|rewrite Hp; lia|done|].
  intros s' I' E' C' D' L'. rewrite Hp in D', L'.
  eapply IH; [exact I'|done|done|exact D'|exact L'| |rewrite length_app; simpl; lia|done|].
  - rewrite elem_of_app, list_elem_of_singleton. intros [?|He']; [done|].
    by destruct (key_char_plain k Hk) as (_ & [] & _).
  - intros s2 ? ? ? D2 L2. apply HQ; [done..| |]; by rewrite ?D2, ?L2, <- app_assoc.
Qed.

Lemma wp_type ks nums ops s Q :
  number_keys ks = true → Infix nums ops s → Fresh s →
  (∀ s', Infix nums ops s' → entered s' = 1 →
     cstr (dispstr s') = map key_char ks → lcd s' = map key_char ks → Q tt s') →
  wp no_fault (press ks) Q s.
Proof.
  unfold number_keys. rewrite !andb_true_iff, bool_decide_eq_true, negb_true_iff,
    bool_decide_eq_false. intros [[Hk Hl] Hz] HI [Hc He] HQ.
  destruct ks as [|k ks]; [simpl in Hl; lia|]. simpl in *.
  apply andb_prop in Hk as [Hk Hks].
  assert (Hp : pending_text s = []).
  { unfold pending_text, truthy. by destruct (Z.eqb_spec (clrdisp s) 0). }
  eapply wp_bind, wp_digit_key; [exact HI|done|done|rewrite Hp; set_solver|
    rewrite Hp; simpl; lia|congruence|].
  intros s' I' E' C' D' L'. rewrite Hp in D', L'. simpl in D', L'.
  eapply wp_type_rest; [exact I'|done|done|exact D'|exact L'| |simpl; lia|done|].
  - rewrite list_elem_of_singleton. intros He'.
    by destruct (key_char_plain k Hk) as (_ & [] & _).
  - intros s2 I2 E2 _ D2 L2. by apply HQ.
Qed.

Lemma wp_press_app ks ks' (Q : () → calc → Prop) s :
  wp no_fault (press ks) (fun _ s' => wp no_fault (press ks') Q s') s →
  wp no_fault (press (ks ++ ks')) Q s.
Proof.
  revert s. induction ks as [|k ks IH]; intros s; [done|]. simpl. intros H'.
  unfold wp, mbind, prog_bind in *. destruct (calc_do_op k s) as [[] s1|]; [|done].
  by apply IH.
Qed.
End Typing.

(** ** Reading the display back *)

Lemma scan_digits_keys ks : ∀ v n,
  forallb is_digit_key ks = true →
  scan_digits 10 v n (map key_char ks) =
    (fold_left (fun v k => v * 10 + default 0 (digit_of_key k)) ks v,
     n + Z.of_nat (length ks), []).
Proof.
  induction ks as [|k ks IH]; intros v n Hk; simpl in *.
  { do 2 f_equal; lia. }
  apply andb_prop in Hk as [Hk Hks].
  destruct (key_char_plain k Hk) as (_ & _ & Hb & _). rewrite Hb.
  unfold is_digit_key in Hk. apply bool_decide_eq_true in Hk as [d Hd].
  rewrite Hd, IH by done. simpl. do 2 f_equal. lia.
Qed.

Lemma keys_value_pos ks v :
  0 < v → 0 < fold_left (fun v k => v * 10 + default 0 (digit_of_key k)) ks v.
Proof.
  revert v. induction ks as [|k ks IH]; intros v Hv; simpl; [done|].
  apply IH. destruct k; simpl; lia.
Qed.

Lemma d_of_dec_int v : 0 < v → d_of_dec false v 0 = d_of_Z v.
Proof.
  intros Hv. destruct v as [|p|p]; try lia. unfold d_of_dec.
  replace (400 <? 0) with false by done.
  replace (0 + _ <? -400) with false by (symmetry; apply Z.ltb_ge; lia).
  replace (0 <=? 0) with true by done. unfold d_of_Z. f_equal. lia.
Qed.

(** What was typed is what the machine computes with. *)
Lemma sscanf_typed ks :
  number_keys ks = true →
  sscanf_lf (map key_char ks) = Some (d_of_Z (keys_value ks)).
Proof.
  unfold number_keys. rewrite !andb_true_iff, negb_true_iff, bool_decide_eq_false.
  intros [[Hk Hl] Hz]. destruct ks as [|k ks]; [done|].
  assert (Hv : 0 < keys_value (k :: ks)).
  { unfold keys_value. simpl. apply keys_value_pos. simpl in *.
    apply andb_prop in Hk as [Hk _]. unfold is_digit_key in Hk.
    apply bool_decide_eq_true in Hk.
    destruct k; simpl in *; try lia; try (by destruct Hk); done. }
  pose proof (scan_digits_keys (k :: ks) 0 0 Hk) as Hs. fold (keys_value (k :: ks)) in Hs.
  unfold sscanf_lf.
  assert (skip_space (map key_char (k :: ks)) = map key_char (k :: ks)) as ->.
  { simpl in *. apply andb_prop in Hk as [Hk _].
    destruct (key_char_plain k Hk) as (_ & _ & _ & ->). done. }
  assert (scan_sign (map key_char (k :: ks)) = (false, map key_char (k :: ks))) as ->.
  { simpl in *. apply andb_prop in Hk as [Hk _]. apply bool_decide_eq_true in Hk.
    by destruct k; try (by destruct Hk). }
  assert (Hno : ∀ c p, (c = "i" ∨ c = "n")%char →
    has_prefix_ci (c :: p) (map key_char (k :: ks)) = false).
  { intros c p Hc. apply bool_decide_eq_false. simpl in *. intros [= E _].
    apply andb_prop in Hk as [Hk _]. apply bool_decide_eq_true in Hk.
    destruct k; simpl in Hk; try (by destruct Hk); destruct Hc; by subst. }
  unfold str. simpl (String.list_ascii_of_string _). rewrite !Hno by auto.
  rewrite Hs. cbv iota beta.
  replace (0 + Z.of_nat (length (k :: ks)) + 0 =? 0) with false
    by (symmetry; apply Z.eqb_neq; simpl; lia).
  unfold scan_exponent. by rewrite d_of_dec_int.
Qed.
