(* ===== verification/CalcEval.v ===== *)
(** * isde-calc: whole calculations

    Theorems about key sequences pressed after start-up: what a chain of
    operators shows, the order in which it is evaluated, and the behaviour of
    the error state and of the reverse Polish stack. *)

From S2P Require Import Prelude.
From S2P Require Import CString.
From S2P Require Import CFloat.
From S2P Require Import CalcMachine.
From S2P Require Import CalcDispatch.
From S2P Require Import CalcSafety.
From S2P Require Import CalcArith.
Open Scope Z_scope.

#[local] Opaque STACKMAX.

(** ** Start-up *)

Section Boot.
Context `{!Libm}.

(** What start-up establishes, step by step. *)
Record Boot (nb : Z) (s : calc) : Prop := {
  bt_wf : wf s;
  bt_base : numbase s = nb;
  bt_rpn : rpn s = false;
  bt_inv : flagINV s = 0;
  bt_clr : clrdisp s = 1;
  bt_ent : entered s = 1
}.

(** Step over an assignment that keeps [Boot], forgetting the old state. *)
Ltac boot_step HB nb' :=
  apply wp_modify;
  match goal with |- ?G ?s' =>
    match type of HB with Boot ?nb ?s =>
      let B := fresh in
      assert (B : Boot nb' s') by
        (destruct HB as [[] ? ? ? ? ?]; constructor; simpl; subst;
          first [reflexivity | congruence | by constructor
            | by match goal with E : numbase _ = _ |- _ => rewrite E end]);
      clear HB; revert B; generalize s'; clear s; intros s HB
    end end.

Lemma wp_ClearStacks_boot (Q : () → calc → Prop) s :
  Boot 10 s → (∀ s', Boot 10 s' → numsp s' = O → opsp s' = O → Q tt s') →
  wp no_fault ClearStacks Q s.
Proof.
  intros HB HQ. unfold ClearStacks. apply wp_bind, wp_gets. unfold id.
  rewrite (bt_rpn _ _ HB). apply wp_bind, wp_ret, wp_bind, wp_modify, wp_modify.
  apply HQ; [|done..].
  destruct HB as [[]]; constructor; [constructor|..]; simpl; try done; lia.
Qed.

Lemma wp_boot (Q : () → calc → Prop) s :
  Boot 0 s → (∀ s', Infix [] [] s' → Fresh s' → Q tt s') →
  wp no_fault ResetCalc Q s.
Proof.
  intros HB HQ. unfold ResetCalc.
  do 4 (apply wp_bind; boot_step HB 0).
  apply wp_bind; boot_step HB 10. apply wp_bind; boot_step HB 10.
  apply wp_bind, wp_strlcpy; [apply HB|]. intros b Hb _.
  assert (B : Boot 10 (s <| dispstr := b |>)) by (destruct HB; by constructor).
  clear HB Hb. revert B. set (s' := s <| dispstr := b |>). clearbody s'. clear s b. rename s' into s. intros HB.
  apply wp_bind, wp_disp; [apply HB|]. apply wp_bind; boot_step HB 10.
  apply wp_bind, wp_ClearStacks_boot; [done|]. clear s HB. intros s HB En Eo.
  apply wp_bind, wp_modify, wp_modify, HQ; destruct HB as [[] ? ? ? ? ?].
  - constructor; [by constructor|done..| | | |]; simpl; rewrite ?En, ?Eo; done.
  - unfold Fresh; simpl. split; congruence.
Qed.

(** Evaluating [initial] by need would compute its floats. *)
#[local] Strategy 1000 [initial ResetCalc press].

(** Start-up leaves the calculator ready for an infix calculation. *)
Lemma run_infix (ks : list key) (Q : () → calc → Prop) :
  (∀ s, Infix [] [] s → Fresh s → wp no_fault (press ks) Q s) →
  match run false ks with Ok _ s => Q tt s | Fault _ => False end.
Proof.
  intros HQ. assert (Hw : wp no_fault (ResetCalc;; press ks) Q (initial false)).
  { apply wp_bind, wp_boot; [|done]. constructor; [apply initial_Cl|done..]. }
  unfold wp in Hw. unfold run.
  by destruct ((ResetCalc;; press ks) (initial false)) as [[] s|f].
Qed.
End Boot.

(** ** Chains of operators *)

Definition chain_keys (l : list (list key * key)) : list key :=
  concat (map (fun p => fst p ++ [snd p]) l).

(** A chain as it is typed: numbers and total operators, within the stacks. *)
Definition chain_ok (l : list (list key * key)) : bool :=
  forallb (fun p => number_keys (fst p) && total_op (snd p)) l &&
  bool_decide (length l < STACKMAX)%nat.

Definition chain_vals (l : list (list key * key)) : list (double * key) :=
  map (fun p => (d_of_Z (keys_value (fst p)), snd p)) l.

(** What the LCD shows for a result. *)
Definition shown (x : double) : list char := fit (take 31 (print_g x)).

#[local] Arguments push_op : simpl never.

Section Chain.
Context `{!Libm}.

Lemma push_op_shape op x nums ops :
  length ops = length nums → forallb total_op ops = true → total_op op = true →
  let '(nums', ops') := push_op op x (nums, ops) in
  length ops' = length nums' ∧ forallb total_op ops' = true ∧
  (length nums' ≤ S (length nums))%nat.
Proof.
  intros Hl Ho Hop. unfold push_op.
  destruct nums as [|a nums], ops as [|o ops]; try done; simpl in *.
  - by rewrite Hop.
  - apply andb_prop in Ho as [Ho1 Ho2].
    destruct (_ <? _); simpl; rewrite Hop, ?Ho1, ?Ho2; repeat split; simpl; lia.
Qed.

Lemma wp_op_key nums ops s x op Q :
  total_op op = true → Infix nums ops s → Holding x s → forallb total_op ops = true →
  length ops = length nums → (length nums < STACKMAX)%nat →
  (∀ s', let '(nums', ops') := push_op op x (nums, ops) in
     Infix nums' ops' s' → Fresh s' → Q tt s') →
  wp no_fault (calc_do_op op) Q s.
Proof.
  intros Hop HI HH Hops Hlen Hlt HQ. eapply wp_key; [exact HI| |].
  { destruct HH as [[-> _]|[-> _]]; done. }
  intros s1 I1 R1 D1.
  assert (HH1 : Holding x s1).
  { unfold Holding, regs in *. rewrite D1. destruct HH; [left|right]; intuition congruence. }
  assert (Hsw : do_op_switch op = twoop op ∨ do_op_switch op = rpn_choice (twof op) (twoop op)).
  { destruct op; try done; simpl; auto. }
  assert (wp no_fault (twoop op) Q s1) by (by eapply wp_twoop).
  destruct Hsw as [->| ->]; [done|]. unfold rpn_choice.
  apply wp_bind, wp_gets. by rewrite (if_rpn _ _ _ I1).
Qed.

Lemma wp_chain l : ∀ nums ops s (Q : () → calc → Prop),
  forallb (fun p => number_keys (fst p) && total_op (snd p)) l = true →
  Infix nums ops s → Fresh s → forallb total_op ops = true →
  length ops = length nums → (length nums + length l < STACKMAX)%nat →
  (∀ s', let '(nums', ops') := push_ops (nums, ops) (chain_vals l) in
     Infix nums' ops' s' → Fresh s' →
     forallb total_op ops' = true → length ops' = length nums' →
     (length nums' < STACKMAX)%nat → Q tt s') →
  wp no_fault (press (chain_keys l)) Q s.
Proof.
  induction l as [|[ks op] l IH]; intros nums ops s Q Hl HI HF Hops Hlen Hlt HQ.
  { apply wp_ret. apply HQ; simpl in *; try done; lia. }
  simpl in *. apply andb_prop in Hl as [[Hks Hop]%andb_prop Hl].
  unfold chain_keys. simpl. rewrite <- app_assoc. apply wp_press_app.
  eapply wp_type; [exact Hks|exact HI|exact HF|]. intros s1 I1 E1 D1 _.
  pose proof (push_op_shape op (d_of_Z (keys_value ks)) nums ops Hlen Hops Hop) as Hsh.
  destruct (push_op op (d_of_Z (keys_value ks)) (nums, ops)) as [nums' ops'] eqn:Hp.
  destruct Hsh as (? & ? & ?). simpl. apply wp_bind.
  eapply wp_op_key; [exact Hop|exact I1| |exact Hops|exact Hlen|lia|].
  { right. rewrite D1. split; [done|]. by apply sscanf_typed. }
  intros s2. rewrite Hp in *. intros I2 F2.
  apply (IH nums' ops'); [done..|lia|]. exact HQ.
Qed.

Lemma wp_equ_key nums ops s x Q :
  Infix nums ops s → Holding x s → forallb total_op ops = true →
  (length ops ≤ length nums < STACKMAX)%nat →
  (∀ s', let '(r, rest) := unwind ops x nums in
     Infix (r :: rest) [] s' → dnum s' = r → Holding r s' → Fresh s' →
     lcd s' = shown r → Q tt s') →
  wp no_fault (calc_do_op kEQU) Q s.
Proof.
  intros HI HH Hops Hlen HQ. eapply wp_key; [exact HI| |].
  { destruct HH as [[-> _]|[-> _]]; done. }
  intros s1 I1 R1 D1. simpl. eapply wp_equf; [exact I1| |done..].
  unfold Holding, regs in *. rewrite D1. destruct HH; [left|right]; intuition congruence.
Qed.
End Chain.

(** ** What a chain means

    [Reads l x v]: the chain [l] ended by [x] has value [v] when operators bind
    by [priority] and to the left: the last operator of the lowest priority is
    applied last. *)

Section Reading.
Context `{!Libm}.

Inductive Reads : list (double * key) → double → double → Prop :=
  | Reads_one x : Reads [] x x
  | Reads_op l1 a op l2 x v1 v2 :
    Forall (fun p => priority op ≤ priority (snd p)) l1 →
    Forall (fun p => priority op < priority (snd p)) l2 →
    Reads l1 a v1 → Reads l2 x v2 →
    Reads (l1 ++ (a, op) :: l2) x (arith_val op v1 v2).

Lemma split_unique {A} (f : A → Z) l1 a l2 l1' a' l2' :
  Forall (fun p => f a ≤ f p) l1 → Forall (fun p => f a < f p) l2 →
  Forall (fun p => f a' ≤ f p) l1' → Forall (fun p => f a' < f p) l2' →
  l1 ++ a :: l2 = l1' ++ a' :: l2' → l1 = l1' ∧ a = a' ∧ l2 = l2'.
Proof.
  rewrite !Forall_forall. intros A1 A2 B1 B2.
  intros [(k & -> & E)|(k & -> & E)]%app_eq_inv; destruct k as [|b k]; simplify_eq/=.
  - by rewrite app_nil_r.
  - assert (f b < f a) by (apply B2; set_solver).
    assert (f a ≤ f b) by (apply A1; set_solver). lia.
  - by rewrite app_nil_r.
  - assert (f b < f a') by (apply A2; set_solver).
    assert (f a' ≤ f b) by (apply B1; set_solver). lia.
Qed.

(** A chain has one reading. *)
Lemma Reads_unique l x v v' : Reads l x v → Reads l x v' → v = v'.
Proof.
  intros Hr. revert v'. induction Hr as [|l1 a op l2 x v1 v2 F1 F2 R1 IH1 R2 IH2];
    intros v' Hr'.
  - inversion Hr' as [|l1 a op l2]; [done|]. by destruct l1.
  - inversion Hr' as [? E|l1' a' op' l2' ? v1' v2' G1 G2 R1' R2' E]; subst.
    { by destruct l1. }
    destruct (split_unique (fun p => priority (snd p)) l1 (a, op) l2 l1' (a', op') l2')
      as (-> & [= -> ->] & ->); [done..|by rewrite E|].
    by rewrite (IH1 v1'), (IH2 v2').
Qed.

Definition above (ops : list key) (q : Z) : Prop :=
  match ops with [] => True | o :: _ => priority o < q end.

(** The stacks of a half-typed chain: each number is the reading of a segment
    of the chain that binds more tightly than the operators around it. *)
Inductive Rep : list double → list key → list (double * key) → Prop :=
  | Rep_nil : Rep [] [] []
  | Rep_cons nums ops pre seg y a o :
    Rep nums ops pre → Reads seg y a → above ops (priority o) →
    Forall (fun p => priority o ≤ priority (snd p)) seg →
    Forall (fun p => above ops (priority (snd p))) seg →
    Rep (a :: nums) (o :: ops) (pre ++ seg ++ [(y, o)]).

Lemma Rep_unwind nums ops pre l x v :
  Rep nums ops pre → Reads l x v →
  Forall (fun p => above ops (priority (snd p))) l →
  Reads (pre ++ l) x (fst (unwind ops v nums)).
Proof.
  intros HR. revert l x v.
  induction HR as [|nums ops pre seg y a o HR IH Hseg Ho F1 F2]; intros l x v Hl Hf;
    simpl; [done|].
  rewrite <- app_assoc, <- app_assoc. simpl. apply IH; [by constructor|].
  apply Forall_app; split; [done|]. apply Forall_cons; split; [done|].
  eapply Forall_impl; [exact Hf|]. intros [? o'] Hlt. simpl in *.
  destruct ops; simpl in *; lia.
Qed.

(** No operator key finds two pending operators to evaluate. *)
Fixpoint shallow (pending : list key) (ops : list key) : bool :=
  match ops with
  | [] => true
  | op :: ops' =>
    match pending with
    | [] => shallow [op] ops'
    | o :: rest =>
      if priority o <? priority op then shallow (op :: pending) ops'
      else match rest with [] => true | o' :: _ => priority o' <? priority op end &&
           shallow (op :: rest) ops'
    end
  end.

Lemma Rep_push l : ∀ nums ops pre x,
  Rep nums ops pre → length ops = length nums → shallow ops (map snd l) = true →
  let '(nums', ops') := push_ops (nums, ops) l in
  Reads (pre ++ l) x (fst (unwind ops' x nums')).
Proof.
  induction l as [|[y op] l IH]; intros nums ops pre x HR Hlen Hs; simpl in *.
  { apply Rep_unwind; [done|constructor|done]. }
  replace (pre ++ (y, op) :: l) with ((pre ++ [(y, op)]) ++ l) by by rewrite <- app_assoc.
  destruct HR as [|nums ops pre seg z a o HR Hseg Ho F1 F2]; unfold push_op; simpl in *.
  - apply (IH [y] [op] [(y, op)]); [|done..].
    apply (Rep_cons [] [] [] [] y y op); by auto using Rep_nil, Reads_one.
  - destruct (Z.ltb_spec (priority o) (priority op)) as [Hlt|Hge].
    + apply (IH (y :: a :: nums) (op :: o :: ops)); [|simpl; lia|done].
      apply (Rep_cons (a :: nums) (o :: ops) _ [] y y op);
        auto using Rep_cons, Reads_one.
    + apply andb_prop in Hs as [Hs1 Hs2].
      apply (IH (_ :: nums) (op :: ops)); [|simpl; lia|done]. rewrite <- app_assoc.
      assert (Ha : above ops (priority op)) by (destruct ops; simpl in *; [done|lia]).
      apply (Rep_cons nums ops pre (seg ++ [(z, o)])); [done| |done|..].
      * by apply (Reads_op seg z o []); [|constructor|..|constructor].
      * apply Forall_app; split; [eapply Forall_impl; [exact F1|]; simpl; lia|].
        by repeat constructor.
      * apply Forall_app; split; [done|]. by repeat constructor.
Qed.

(** The operator stack evaluates shallow chains as they read. *)
Lemma eval_chain_reads l x :
  shallow [] (map snd l) = true → Reads l x (eval_chain l x).
Proof.
  intros Hs. pose proof (Rep_push l [] [] [] x Rep_nil eq_refl Hs) as Hr.
  unfold eval_chain. by destruct (push_ops _ l).
Qed.

(** Pressing a chain and equals, from start-up. *)
Lemma chain_result (l : list (list key * key)) (ks : list key) :
  chain_ok l = true → number_keys ks = true →
  let r := eval_chain (chain_vals l) (d_of_Z (keys_value ks)) in
  match run false (chain_keys l ++ ks ++ [kEQU]) with
  | Ok _ s => lcd s = shown r ∧ dnum s = r
  | Fault _ => False
  end.
Proof.
  intros [Hl Hn%bool_decide_eq_true]%andb_prop Hks r.
  apply (run_infix _ (fun _ s => lcd s = shown r ∧ dnum s = r)).
  intros s HI HF. apply wp_press_app, (wp_chain l [] []); try done.
  intros s1. unfold r, eval_chain.
  destruct (push_ops ([], []) (chain_vals l)) as [nums ops].
  intros I1 F1 Hops Hlen Hlt. apply wp_press_app.
  eapply wp_type; [exact Hks|exact I1|exact F1|]. intros s2 I2 E2 D2 _.
  apply wp_bind. eapply wp_equ_key; [exact I2| |exact Hops|lia|].
  { right. rewrite D2. split; [done|]. by apply sscanf_typed. }
  intros s3. destruct (unwind ops _ nums) as [v rest]. intros I3 D3 H3 F3 L3.
  by apply wp_ret.
Qed.
End Reading.

(** C37: on start-up in infix mode, typing a chain of numbers and total
    operators and then the equals key shows the value that [eval_chain], the
    operator-stack evaluation of the typed values, gives; the value is also
    left as the current operand. *)
Theorem infix_chain `{Libm} (l : list (list key * key)) (ks : list key) :
  chain_ok l = true → number_keys ks = true →
  match run false (chain_keys l ++ ks ++ [kEQU]) with
  | Ok _ s =>
    let r := eval_chain (chain_vals l) (d_of_Z (keys_value ks)) in
    lcd s = shown r ∧ dnum s = r
  | Fault _ => False
  end.
Proof. apply chain_result. Qed.

(** a chain in which no operator key finds two pending operators to
    evaluate shows its reading by priority and from the left, and that reading
    is unique. *)
Theorem infix_precedence `{Libm} (l : list (list key * key)) (ks : list key) :
  chain_ok l = true → number_keys ks = true → shallow [] (map snd l) = true →
  match run false (chain_keys l ++ ks ++ [kEQU]) with
  | Ok _ s => ∀ v,
    Reads (chain_vals l) (d_of_Z (keys_value ks)) v ↔ dnum s = v ∧ lcd s = shown v
  | Fault _ => False
  end.
Proof.
  intros Hl Hks Hs. pose proof (chain_result l ks Hl Hks) as Hr. cbv zeta in Hr.
  destruct (run _ _) as [[] s|]; [|done]. destruct Hr as [HL HD].
  assert (Hv : Reads (chain_vals l) (d_of_Z (keys_value ks)) (dnum s)).
  { rewrite HD. apply eval_chain_reads. unfold chain_vals. by rewrite map_map. }
  intros v. split.
  - intros Hv'. rewrite (Reads_unique _ _ _ _ Hv' Hv). by rewrite HL, HD.
  - by intros [<- _].
Qed.

(** A concrete mathematics library, for evaluating key sequences. *)
Definition probe_libm : Libm :=
  {| pow := dmul; log10 := id; exp := id; log := id; sin := id; cos := id; tan := id;
     asin := id; acos := id; atan := id |}.

(** The LCD after a key sequence, or the fault it ends in. *)
Definition shows `{Libm} (rpn_mode : bool) (ks : list key) : string + fault :=
  match run rpn_mode ks with
  | Ok _ s => inl (String.string_of_list_ascii (lcd s))
  | Fault f => inr f
  end.

Lemma infix_chain_witness :
  let l := [([kONE; kTWO], kDIV); ([kFIVE], kSHL)] in
  chain_ok l = true ∧ number_keys [kTHREE] = true ∧
  match @run probe_libm false (chain_keys l ++ [kTHREE] ++ [kEQU]) with
  | Ok _ s =>
    let r := @eval_chain probe_libm (chain_vals l) (d_of_Z (keys_value [kTHREE])) in
    lcd s = shown r ∧ dnum s = r
  | Fault _ => False
  end.
Proof.
  intros l. split; [reflexivity|]. split; [reflexivity|].
  apply (@infix_chain probe_libm l [kTHREE]); reflexivity.
Defined.

(** 2 * 3 + 4 = is shallow. *)
Lemma infix_precedence_witness :
  let l := [([kTWO], kMUL); ([kTHREE], kADD)] in
  chain_ok l = true ∧ number_keys [kFOUR] = true ∧ shallow [] (map snd l) = true ∧
  match @run probe_libm false (chain_keys l ++ [kFOUR] ++ [kEQU]) with
  | Ok _ s => ∀ v,
    @Reads probe_libm (chain_vals l) (d_of_Z (keys_value [kFOUR])) v ↔
      dnum s = v ∧ lcd s = shown v
  | Fault _ => False
  end.
Proof.
  intros l. split; [reflexivity|]. split; [reflexivity|]. split; [reflexivity|].
  apply (@infix_precedence probe_libm l [kFOUR]); reflexivity.
Defined.

(** The operator stack reduces one pending operator per key, so a chain
    that is not shallow can be evaluated against its reading: for every
    mathematics library 1 - 2 * 3 - 4 = shows -1, while it reads as -9. *)
Theorem precedence_lost `{Libm} :
  let l := [([kONE], kSUB); ([kTWO], kMUL); ([kTHREE], kSUB)] in
  shows false (chain_keys l ++ [kFOUR; kEQU]) = inl "-1"%string ∧
  Reads (chain_vals l) (d_of_Z 4) (d_of_Z (-9)).
Proof.
  intros l. split; [by vm_compute|].
  assert (Reads (chain_vals l) (d_of_Z 4)
    (arith_val kSUB (arith_val kSUB (d_of_Z 1) (arith_val kMUL (d_of_Z 2) (d_of_Z 3)))
       (d_of_Z 4))) as Hr; [|by vm_compute in Hr |- *].
  apply (Reads_op [(d_of_Z 1, kSUB); (d_of_Z 2, kMUL)] (d_of_Z 3) kSUB []).
  - repeat constructor; simpl; lia.
  - constructor.
  - apply (Reads_op [] (d_of_Z 1) kSUB [(d_of_Z 2, kMUL)]); [constructor| |constructor|].
    + repeat constructor; simpl; lia.
    + apply (Reads_op [] (d_of_Z 2) kMUL []); constructor.
  - constructor.
Qed.

(** a number typed after start-up is shown digit for digit, and what the
    machine reads back from its display is the number that was typed. *)
Theorem typed_number_roundtrip `{Libm} (ks : list key) :
  number_keys ks = true →
  match run false ks with
  | Ok _ s => lcd s = map key_char ks ∧
              match parse_double s with
              | Ok _ s' => dnum s' = d_of_Z (keys_value ks)
              | Fault _ => False
              end
  | Fault _ => False
  end.
Proof.
  intros Hks. apply (run_infix ks (fun _ s => lcd s = map key_char ks ∧
    match parse_double s with Ok _ s' => dnum s' = _ | Fault _ => False end)).
  intros s HI HF. eapply wp_type; [done..|]. intros s' I' E' D' L'. split; [done|].
  assert (wp no_fault parse_if_entered (fun _ s2 => dnum s2 = d_of_Z (keys_value ks)) s')
    as Hp.
  { eapply wp_parse_if_entered; [exact I'| |done].
    right. split; [done|]. rewrite D'. by apply sscanf_typed. }
  unfold parse_if_entered, wp, mbind, prog_bind, gets in Hp. by rewrite E' in Hp.
Qed.

Lemma typed_number_roundtrip_witness :
  number_keys [kSEVEN; kZERO; kTWO] = true ∧
  match @run probe_libm false [kSEVEN; kZERO; kTWO] with
  | Ok _ s => lcd s = map key_char [kSEVEN; kZERO; kTWO] ∧
              match parse_double s with
              | Ok _ s' => dnum s' = d_of_Z (keys_value [kSEVEN; kZERO; kTWO])
              | Fault _ => False
              end
  | Fault _ => False
  end.
Proof.
  split; [reflexivity|].
  apply (@typed_number_roundtrip probe_libm [kSEVEN; kZERO; kTWO]). reflexivity.
Defined.

(** ** Buttons and keyboard *)

#[local] Opaque offf ResetCalc.

(** The key each named operation stands for. *)
Definition action_keys : list (string * key) :=
  [("add", kADD); ("and", kAND); ("back", kBKSP); ("base", kBASE); ("clear", kCLR);
   ("cosine", kCOS); ("decimal", kDEC); ("degree", kDRG); ("divide", kDIV); ("e", kE);
   ("enter", kENTR); ("epower", kEXP); ("equal", kEQU); ("exchange", kEXC);
   ("factorial", kFACT); ("inverse", kINV); ("leftParen", kLPAR); ("logarithm", kLOG);
   ("mod", kMOD); ("multiply", kMUL); ("naturalLog", kLN); ("negate", kNEG);
   ("not", kNOT); ("off", kOFF); ("or", kOR); ("pi", kPI); ("power", kPOW);
   ("recall", kRCL); ("reciprocal", kRECIP); ("rightParen", kRPAR); ("roll", kROLL);
   ("scientific", kEE); ("shl", kSHL); ("shr", kSHR); ("sine", kSIN); ("square", kSQR);
   ("squareRoot", kSQRT); ("store", kSTO); ("subtract", kSUB); ("sum", kSUM);
   ("tangent", kTAN); ("tenpower", k10X); ("trunc", kTRUNC); ("xor", kXOR);
   ("XexchangeY", kXXY)].

Definition digit_chars : list char := str "0123456789ABCDEF".

(** A binding names an entry of the table, the digit action with a digit. *)
Definition binding_ok `{Libm} (b : string * string * string) : bool :=
  let '(_, name, param) := b in
  match lookup_action name with
  | Some (ADigit _) =>
    match head (str param) with Some c => bool_decide (is_Some (digit_key c)) | None => false end
  | Some _ => true
  | None => false
  end.

Lemma digit_key_switch `{Libm} c k : digit_key c = Some k → do_op_switch k = numeric k.
Proof. intros Hk. unfold digit_key in Hk. by repeat case_match; simplify_eq. Qed.

Lemma act_digit_button `{Libm} c k : digit_key c = Some k → act_digit c = calc_do_op k.
Proof.
  intros Hk. unfold act_digit, calc_do_op. rewrite Hk. by rewrite (digit_key_switch c k).
Qed.

(** a keyboard action and the button of the same key run the same program;
    every key of both keypads but the blank ones can be reached from the
    keyboard table, and every key binding resolves in it. *)
Theorem actions_are_buttons `{Libm} :
  Forall (fun '(n, k) => lookup_action n = Some (AOp (calc_do_op k))) action_keys ∧
  Forall (fun c => ∃ k, digit_key c = Some k ∧ act_digit c = calc_do_op k) digit_chars ∧
  Forall (fun k => k = kNOP ∨ k ∈ map snd action_keys ∨ k ∈ omap digit_key digit_chars)
    (ti_ops ++ hp_ops) ∧
  forallb binding_ok (ti_keys ++ hp_keys) = true ∧
  length (keypad false) = 55%nat ∧ length (keypad true) = 39%nat.
Proof.
  repeat split.
  - unfold action_keys. repeat (apply List.Forall_cons; [reflexivity|]). constructor.
  - apply Forall_forall. intros c Hc.
    assert (is_Some (digit_key c)) as [k Hk].
    { revert c Hc. apply Forall_forall, (bool_decide_unpack _). by vm_compute. }
    exists k. split; [done|by apply act_digit_button].
  - apply (bool_decide_unpack _). by vm_compute.
Qed.

(** ** The error state *)

Section Clear.
Context `{!Libm}.

(** Step over an assignment that keeps [wf], forgetting the old state. *)
Ltac wf_step Hw :=
  apply wp_modify;
  match goal with |- ?G ?s' =>
    match type of Hw with wf ?s =>
      let B := fresh in
      assert (B : wf s') by (destruct Hw; constructor; simpl; first [done | lia]);
      clear Hw; revert B; generalize s'; clear s; intros s Hw
    end end.

Lemma wp_ClearStacks_infix (Q : () → calc → Prop) s :
  wf s → rpn s = false → (∀ s', wf s' → Q tt s') → wp no_fault ClearStacks Q s.
Proof.
  intros Hw Hr HQ. unfold ClearStacks. apply wp_bind, wp_gets. unfold id. rewrite Hr.
  clear Hr. apply wp_bind, wp_ret, wp_bind. wf_step Hw. wf_step Hw. by apply HQ.
Qed.

Lemma wp_clear_key s (Q : () → calc → Prop) :
  wf s → rpn s = false →
  (∀ s', lcd s' = str "0" → entered s' = 1 → clrdisp s' = 1 → Q tt s') →
  match calc_do_op kCLR s with Ok _ s' => Q tt s' | Fault _ => False end.
Proof.
  intros Hw Hr HQ. assert (Hc : wp no_fault (calc_do_op kCLR) Q s).
  { unfold calc_do_op, with_pre_op, pre_op. apply wp_bind, wp_bind, wp_gets. unfold id.
    rewrite andb_false_r. apply wp_bind, wp_ret, wp_ret. simpl. unfold clearf.
    apply wp_bind, wp_modify, wp_bind, wp_gets. unfold id. simpl. rewrite Hr.
    set (s1 := s <| flagINV := 0 |>). assert (Hw1 : wf s1) by (destruct Hw; by constructor).
    assert (Hr1 : rpn s1 = false) by done. clearbody s1.
    apply wp_bind. eapply (wp_mono _ _ (fun _ => wf)).
    - apply wp_when; intros _; [|done].
      apply wp_bind, wp_ClearStacks_infix; [done..|]. intros s2 Hw2. by wf_step Hw2.
    - clear s1 Hw1 Hr1 s Hw Hr. intros _ s Hw.
      do 3 (apply wp_bind; wf_step Hw).
      apply wp_bind, wp_modify, wp_bind, wp_modify.
      set (s1 := (_ : calc)). assert (Hw1 : wf s1) by (destruct Hw; by constructor).
      assert (E1 : entered s1 = 1 ∧ clrdisp s1 = 1) by done. clearbody s1.
      apply wp_bind, wp_strlcpy; [done|]. intros b Hb Hs.
      apply wp_DrawDisplay_total; [done|]. intros b' i Hb' Hs'.
      apply HQ; [|by apply E1..]. simpl. rewrite Hs; [done|set_solver]. }
  unfold wp in Hc. by destruct (calc_do_op kCLR s) as [[] s'|].
Qed.
End Clear.

(** In infix mode an error is sticky: every key but clear and off leaves the
    whole state as it is.  The clear key shows 0 again and reopens the entry. *)
Theorem error_lockout `{Libm} (s : calc) (k : key) :
  rpn s = false → entered s = 3 →
  (k ≠ kCLR → k ≠ kOFF → calc_do_op k s = Ok () s) ∧
  (wf s → match calc_do_op kCLR s with
          | Ok _ s' => lcd s' = str "0" ∧ entered s' = 1 ∧ clrdisp s' = 1
          | Fault _ => False
          end).
Proof.
  intros Hr He. split.
  - intros H1 H2. unfold calc_do_op, with_pre_op, pre_op, mbind, prog_bind, gets, id, key_eqb.
    rewrite He, Hr. by rewrite !bool_decide_false.
  - intros Hw. apply (wp_clear_key _ (fun _ s' => lcd s' = str "0" ∧ entered s' = 1 ∧ clrdisp s' = 1)); auto.
Qed.

(** ** Reverse Polish mode *)

Section Polish.
Context `{!Libm}.

(** The stack below the operand in [dnum]: three cells are in use. *)
Record Rpn (st : list double) (s : calc) : Prop := {
  rp_wf : wf s;
  rp_rpn : rpn s = true;
  rp_base : numbase s = 10;
  rp_inv : flagINV s = 0;
  rp_stack : numstack s = st
}.

Definition rpn_same (s s' : calc) : Prop :=
  same_core s s' ∧ rpn s' = rpn s ∧ numbase s' = numbase s ∧ flagINV s' = flagINV s.

Lemma Rpn_upd st s s' :
  Rpn st s → rpn_same s (s' <| clrdisp := clrdisp s |> <| entered := entered s |>
                            <| exponent := exponent s |>) →
  0 ≤ clrdisp s' → exponent s' = 0 → Rpn st s'.
Proof.
  intros [Hw] [Hc (?&?&?)] ??. pose proof (wf_core _ _ Hw Hc) as [].
  assert (numstack s' = numstack s) by (destruct Hc as [E _]; simpl in E; congruence).
  simpl in *. constructor; try congruence. by constructor.
Qed.

Ltac rpn_upd :=
  match goal with H : Rpn _ ?s |- Rpn _ _ =>
    solve [eapply Rpn_upd;
      [exact H | by repeat split
      | simpl; first [lia | apply H | pose proof (wf_clrdisp _ (rp_wf _ _ H)); lia]
      | first [done | apply H]]] end.

Lemma wp_rpn_key st s k Q :
  Rpn st s → entered s ≠ 3 →
  (∀ s1, Rpn st s1 → regs s1 = regs s → dispstr s1 = dispstr s →
     wp no_fault (do_op_switch k) Q s1) →
  wp no_fault (calc_do_op k) Q s.
Proof.
  intros HI He HQ. unfold calc_do_op, with_pre_op, pre_op.
  apply wp_bind, wp_bind, wp_gets. unfold id.
  destruct (Z.eqb_spec (entered s) 3); [done|]. simpl.
  apply wp_bind, wp_when; intros _.
  - apply wp_modify, wp_ret, HQ; [rpn_upd|done..].
  - by apply wp_ret, HQ.
Qed.

Lemma wp_rpn_parse st s x Q :
  Rpn st s → Holding x s →
  (∀ s', Rpn st s' → dnum s' = x → Q tt s') →
  wp no_fault parse_if_entered Q s.
Proof.
  intros HI HH HQ. unfold parse_if_entered. apply wp_bind, wp_gets.
  destruct HH as [[E D]|[E D]]; rewrite E.
  - by apply wp_ret, HQ.
  - apply wp_bind, wp_disp; [apply HI|]. apply wp_bind, wp_gets.
    rewrite (rp_base _ _ HI). simpl. rewrite D.
    apply wp_modify, HQ; [rpn_upd | done].
Qed.

Lemma wp_rpn_pop st y z t rest s Q :
  Rpn st s → st = y :: z :: t :: rest →
  (∀ s', Rpn (z :: t :: t :: rest) s' → dnum s' = dnum s → Q y s') →
  wp no_fault PopNum Q s.
Proof.
  intros [Hw Hr Hb Hi Hs] -> HQ. unfold PopNum. apply wp_bind, wp_gets. unfold id.
  rewrite Hr. apply wp_bind. unfold get_cell. rewrite Hs. apply wp_ret.
  apply wp_bind, wp_modify, wp_ret, HQ; [|done].
  constructor; simpl; rewrite ?Hs; try done.
  destruct Hw. constructor; simpl; try done. rewrite Hs in *. by rewrite <- wf_numstack.
Qed.

Lemma wp_rpn_push st x y z t rest s Q :
  Rpn st s → st = y :: z :: t :: rest →
  (∀ s', Rpn (x :: y :: z :: rest) s' → regs s' = regs s → Q tt s') →
  wp no_fault (PushNum x) Q s.
Proof.
  intros [Hw Hr Hb Hi Hs] -> HQ. unfold PushNum. apply wp_bind, wp_gets. unfold id.
  rewrite Hr. apply wp_modify, HQ; [|done].
  constructor; simpl; rewrite ?Hs; try done.
  destruct Hw. constructor; simpl; try done. rewrite Hs in *. by rewrite <- wf_numstack.
Qed.

(** The end of [twof]: show the result. *)
Lemma wp_rpn_show st s r Q :
  Rpn st s → acc s = r →
  (∀ s', Rpn st s' → dnum s' = r → lcd s' = shown r → entered s' = 2 →
     lift_enabled s' = 1 → Q tt s') →
  wp no_fault (r ← gets acc; format_double r;; DrawDisplay;; clrdisp++:;;
    exponent =: 0;; Dpoint =: 0;; entered =: 2;; lift_enabled =: 1;; dnum =: r) Q s.
Proof.
  intros HI Hr HQ. apply wp_bind, wp_gets. rewrite Hr. apply wp_bind. unfold format_double.
  apply wp_bind, wp_gets. rewrite (rp_base _ _ HI). simpl. unfold snprintf.
  apply wp_strlcpy; [apply HI|]. intros b Hb Hc.
  apply wp_bind, wp_DrawDisplay_total; [done|]. intros b' i Hb' Hc'. simpl in Hc'.
  rewrite Hc in Hc' by apply print_g_no_nul. simpl. rewrite Hc by apply print_g_no_nul.
  set (s1 := (_ : calc)).
  assert (I1 : Rpn st s1).
  { destruct HI. constructor; try done. by destruct Hb'. }
  assert (L1 : lcd s1 = shown r) by done. clearbody s1. clear - I1 L1 HQ.
  apply wp_bind, wp_modify, wp_bind, wp_modify, wp_bind, wp_modify, wp_bind, wp_modify.
  apply wp_bind, wp_modify, wp_modify. apply HQ; try done. rpn_upd.
Qed.

Lemma wp_rpn_operator y z t rest s x op Q :
  total_op op = true → Rpn (y :: z :: t :: rest) s → Holding x s →
  (∀ s', Rpn (z :: t :: t :: rest) s' → dnum s' = arith_val op y x →
     lcd s' = shown (arith_val op y x) → entered s' = 2 → lift_enabled s' = 1 → Q tt s') →
  wp no_fault (twof op) Q s.
Proof.
  intros Hop HI HH HQ. unfold twof. apply wp_bind, wp_gets. rewrite (rp_inv _ _ HI).
  apply wp_bind, wp_ret, wp_bind, wp_gets.
  replace (entered s =? 0) with false by (destruct HH as [[-> _]|[-> _]]; done).
  eapply wp_bind, wp_rpn_parse; [exact HI|exact HH|]. intros s1 I1 D1.
  eapply wp_bind, wp_rpn_pop; [exact I1|done|]. intros s2 I2 D2.
  apply wp_bind, wp_modify. apply wp_bind.
  replace (match op with kXXY => _ | _ => _ end) with (arith_acc op) by (by destruct op).
  eapply (wp_mono _ (arith_acc op) (fun _ s => Rpn (z :: t :: t :: rest) s ∧ acc s = arith_val op y x)).
  - unfold arith_acc. apply wp_bind, wp_gets. unfold id.
    rewrite arith_total by (by intros ->). apply wp_bind, wp_ret, wp_modify.
    split; [rpn_upd|]. simpl. f_equal. congruence.
  - intros _ s3 [I3 A3]. by eapply wp_rpn_show.
Qed.

Lemma wp_rpn_exchange y z t rest s x Q :
  Rpn (y :: z :: t :: rest) s → Holding x s →
  (∀ s', Rpn (x :: z :: t :: rest) s' → dnum s' = y → lcd s' = shown y →
     entered s' = 2 → lift_enabled s' = 1 → Q tt s') →
  wp no_fault (twof kXXY) Q s.
Proof.
  intros HI HH HQ. unfold twof. apply wp_bind, wp_gets. rewrite (rp_inv _ _ HI).
  apply wp_bind, wp_ret, wp_bind, wp_gets.
  replace (entered s =? 0) with false by (destruct HH as [[-> _]|[-> _]]; done).
  eapply wp_bind, wp_rpn_parse; [exact HI|exact HH|]. intros s1 I1 D1.
  eapply wp_bind, wp_rpn_pop; [exact I1|done|]. intros s2 I2 D2.
  apply wp_bind, wp_modify, wp_bind, wp_bind, wp_gets.
  eapply wp_rpn_push; [rpn_upd|done|]. intros s3 I3 R3.
  eapply (wp_rpn_show _ _ y); [exact I3| |].
  - unfold regs in R3. simpl in R3. congruence.
  - simpl. by rewrite D2, D1.
Qed.

Lemma wp_rpn_enter y z t rest s x Q :
  Rpn (y :: z :: t :: rest) s → Holding x s →
  (∀ s', Rpn (x :: y :: z :: rest) s' → dnum s' = x → entered s' = 2 →
     lift_enabled s' = 0 → clrdisp s' = 1 → Q tt s') →
  wp no_fault entrf Q s.
Proof.
  intros HI HH HQ. unfold entrf. apply wp_bind, wp_modify, wp_bind, wp_gets. simpl.
  replace (entered s =? 0) with false by (destruct HH as [[-> _]|[-> _]]; done).
  do 4 apply wp_bind, wp_modify. apply wp_bind.
  set (s1 := (_ : calc)).
  assert (I1 : Rpn (y :: z :: t :: rest) s1).
  { destruct HI as [Hw]. constructor; try done. destruct Hw. by constructor. }
  assert (HH1 : Holding x s1) by exact HH. assert (C1 : clrdisp s1 = 1) by done.
  clearbody s1. clear HI HH s.
  eapply (wp_mono _ _ (fun _ s => Rpn (y :: z :: t :: rest) s ∧ dnum s = x ∧ clrdisp s = 1)).
  - unfold parse_if_entered. apply wp_bind, wp_gets.
    destruct HH1 as [[E D]|[E D]]; rewrite E; [by apply wp_ret|].
    apply wp_bind, wp_disp; [apply I1|]. apply wp_bind, wp_gets.
    rewrite (rp_base _ _ I1). simpl. rewrite D. apply wp_modify.
    split; [rpn_upd|done].
  - clear - HQ. intros _ s (I1 & D1 & C1). apply wp_bind, wp_modify, wp_bind, wp_modify.
    apply wp_bind, wp_gets. simpl. rewrite D1.
    eapply wp_bind, wp_rpn_push; [rpn_upd|done|]. intros s2 I2 R2.
    unfold regs in R2. simpl in R2.
    apply wp_modify, HQ; [rpn_upd|simpl; congruence..].
Qed.
End Polish.

(** C40: in reverse Polish mode with operand [x] over a stack [y :: z :: t]: a total
    binary operator shows [y op x] and drops the stack, keeping a copy of its
    last cell; x:y exchanges the operand with the first cell and touches no
    other; ENTER pushes the operand, dropping the last cell. *)
Theorem rpn_stack_keys `{Libm} (s : calc) (x y z t : double) rest op :
  Rpn (y :: z :: t :: rest) s → Holding x s → total_op op = true →
  match calc_do_op op s with
  | Ok _ s' => Rpn (z :: t :: t :: rest) s' ∧ dnum s' = arith_val op y x ∧
               lcd s' = shown (arith_val op y x) ∧ entered s' = 2
  | Fault _ => False
  end ∧
  match calc_do_op kXXY s with
  | Ok _ s' => Rpn (x :: z :: t :: rest) s' ∧ dnum s' = y ∧ lcd s' = shown y ∧ entered s' = 2
  | Fault _ => False
  end ∧
  match calc_do_op kENTR s with
  | Ok _ s' => Rpn (x :: y :: z :: rest) s' ∧ dnum s' = x ∧ entered s' = 2
  | Fault _ => False
  end.
Proof.
  intros HI HH Hop.
  assert (He : entered s ≠ 3) by (destruct HH as [[-> _]|[-> _]]; done).
  assert (HH1 : ∀ s1, regs s1 = regs s → dispstr s1 = dispstr s → Holding x s1).
  { unfold Holding, regs. intros s1 R1 D1. rewrite D1.
    destruct HH; [left|right]; intuition congruence. }
  split; [|split].
  - apply (wp_rpn_key (y :: z :: t :: rest) s op (fun _ s' =>
      Rpn (z :: t :: t :: rest) s' ∧ dnum s' = arith_val op y x ∧
      lcd s' = shown (arith_val op y x) ∧ entered s' = 2)); [exact HI|done|]. intros s1 I1 R1 D1.
    assert (Hsw : do_op_switch op = rpn_choice (twof op) (twoop op)) by (by destruct op).
    rewrite Hsw. unfold rpn_choice. apply wp_bind, wp_gets. rewrite (rp_rpn _ _ I1).
    eapply wp_rpn_operator; [done|exact I1|by apply HH1|]. done.
  - apply (wp_rpn_key (y :: z :: t :: rest) s kXXY (fun _ s' =>
      Rpn (x :: z :: t :: rest) s' ∧ dnum s' = y ∧ lcd s' = shown y ∧ entered s' = 2)); [exact HI|done|]. intros s1 I1 R1 D1.
    eapply wp_rpn_exchange; [exact I1|by apply HH1|]. done.
  - apply (wp_rpn_key (y :: z :: t :: rest) s kENTR (fun _ s' =>
      Rpn (x :: y :: z :: rest) s' ∧ dnum s' = x ∧ entered s' = 2)); [exact HI|done|]. intros s1 I1 R1 D1.
    eapply wp_rpn_enter; [exact I1|by apply HH1|]. done.
Qed.

(** A reverse Polish state with operand 7 over 5, 4 and 3. *)
Definition polish_sample : calc :=
  (initial true) <| numbase := 10 |> <| entered := 2 |> <| dnum := d_of_Z 7 |>
    <| numstack := d_of_Z 5 :: d_of_Z 4 :: d_of_Z 3 :: replicate 29 dzero |>.

Lemma rpn_stack_keys_witness :
  let s := polish_sample in
  let rest := replicate 29 dzero in
  let L := probe_libm in
  Rpn (d_of_Z 5 :: d_of_Z 4 :: d_of_Z 3 :: rest) s ∧ Holding (d_of_Z 7) s ∧
  (match calc_do_op kSUB s with
   | Ok _ s' => Rpn (d_of_Z 4 :: d_of_Z 3 :: d_of_Z 3 :: rest) s' ∧
                dnum s' = arith_val kSUB (d_of_Z 5) (d_of_Z 7) ∧
                lcd s' = shown (arith_val kSUB (d_of_Z 5) (d_of_Z 7)) ∧ entered s' = 2
   | Fault _ => False
   end ∧
   match calc_do_op kXXY s with
   | Ok _ s' => Rpn (d_of_Z 7 :: d_of_Z 4 :: d_of_Z 3 :: rest) s' ∧ dnum s' = d_of_Z 5 ∧
                lcd s' = shown (d_of_Z 5) ∧ entered s' = 2
   | Fault _ => False
   end ∧
   match calc_do_op kENTR s with
   | Ok _ s' => Rpn (d_of_Z 7 :: d_of_Z 5 :: d_of_Z 4 :: rest) s' ∧ dnum s' = d_of_Z 7 ∧
                entered s' = 2
   | Fault _ => False
   end).
Proof.
  intros s rest L.
  assert (HR : Rpn (d_of_Z 5 :: d_of_Z 4 :: d_of_Z 3 :: rest) s).
  { constructor; [|reflexivity..].
    constructor; first [reflexivity | apply Nat.le_0_l | apply Z.le_0_1]. }
  assert (HH : Holding (d_of_Z 7) s) by (left; split; reflexivity).
  split; [exact HR|]. split; [exact HH|].
  apply (@rpn_stack_keys L s (d_of_Z 7) (d_of_Z 5) (d_of_Z 4) (d_of_Z 3) rest kSUB HR HH).
  reflexivity.
Defined.

Lemma error_lockout_witness :
  let s := (initial false) <| entered := 3 |> in
  rpn s = false ∧ entered s = 3 ∧
  (kTWO ≠ kCLR → kTWO ≠ kOFF → @calc_do_op probe_libm kTWO s = Ok () s) ∧
  (wf s → match @calc_do_op probe_libm kCLR s with
          | Ok _ s' => lcd s' = str "0" ∧ entered s' = 1 ∧ clrdisp s' = 1
          | Fault _ => False
          end).
Proof.
  intros s. split; [reflexivity|]. split; [reflexivity|].
  apply (@error_lockout probe_libm s kTWO); reflexivity.
Defined.

(** ** Faults *)

(** Cycling the number base of an entry, and an exponent entry that is
    continued after an operation, both lead out of the 32 bytes of the display
    string; an integer remainder by zero raises the processor trap, which the
    build leaves uncaught.  No library function is involved. *)
Theorem fault_sequences `{Libm} :
  shows false base_overflow_keys = inr OutOfBounds ∧
  shows false ee_overflow_keys = inr OutOfBounds ∧
  shows false [kFIVE; kMOD; kZERO; kEQU] = inr Trap.
Proof. by vm_compute. Qed.

(** Calculations that stop short of arithmetic: a left parenthesis that is
    never closed loses the operator before it; equals leaves its result on the
    number stack, so the thirty-second 1 + 1 = of a session shows 3, and the
    keypad is then locked with no error on the display; and the message of an
    overflowing parenthesis stack is garbled by the redraw. *)
Theorem stack_leaks `{Libm} :
  let sums n := concat (replicate n [kONE; kADD; kONE; kEQU]) in
  shows false [kTWO; kADD; kLPAR; kTHREE; kEQU] = inl "4"%string ∧
  shows false (sums 31%nat) = inl "2"%string ∧
  shows false (sums 32%nat) = inl "3"%string ∧
  shows false (sums 32%nat ++ [kFIVE]) = inl "3"%string ∧
  shows false (replicate 33 kLPAR) = inl "stack eerror"%string.
Proof. by vm_compute. Qed.

(** ** The loops of [equf] and [rparf] *)

Section Loops.
Context `{!Libm}.

(** A program that leaves the operator stack pointer alone. *)
Definition keeps {A} (m : cprog A) : Prop :=
  ∀ s a s', m s = Ok a s' → opsp s' = opsp s.

Lemma opsp_bind {A B} (m : cprog A) (k : A → cprog B) :
  keeps m → (∀ a, keeps (k a)) → keeps (m ≫= k).
Proof.
  intros Hm Hk s b s'. unfold mbind, prog_bind. destruct (m s) as [a s1|] eqn:E; [|done].
  intros ?%Hk. apply Hm in E. congruence.
Qed.
Lemma opsp_gets {A} (f : calc → A) : keeps (gets f).
Proof. by intros s a s' [= _ <-]. Qed.
Lemma opsp_ret {A} (a : A) : keeps (mret a).
Proof. by intros s b s' [= _ <-]. Qed.
Lemma keeps_modify f : (∀ s, opsp (f s) = opsp s) → keeps (modify f).
Proof. by intros Hf s [] s' [= <-]. Qed.
Lemma keeps_raise {A} f : keeps (raise f : cprog A).
Proof. by intros s a s'. Qed.
Lemma keeps_on_disp f : keeps (on_disp f).
Proof.
  intros s a s'. unfold on_disp, lift_oob. simpl. destruct (f (dispstr s)); [|done].
  by intros [= _ <-].
Qed.
Lemma keeps_get_cell {A} (l : list A) i : keeps (get_cell l i).
Proof. unfold get_cell. destruct (l !! i); [apply opsp_ret|apply keeps_raise]. Qed.

Hint Resolve opsp_bind opsp_gets opsp_ret keeps_raise keeps_on_disp keeps_get_cell : keeps.
Hint Extern 1 (keeps (modify _)) => apply keeps_modify; done : keeps.

Lemma keeps_stack_error : keeps stack_error.
Proof. unfold stack_error. auto with keeps. Qed.
Hint Resolve keeps_stack_error : keeps.

Lemma keeps_PushNum x : keeps (PushNum x).
Proof.
  unfold PushNum. apply opsp_bind; [auto with keeps|]. intros s.
  repeat case_match; auto with keeps.
Qed.
Lemma keeps_PopNum : keeps PopNum.
Proof.
  unfold PopNum. apply opsp_bind; [auto with keeps|]. intros s.
  repeat case_match; auto with keeps.
Qed.
Lemma keeps_arith op a d : keeps (arith op a d).
Proof. unfold arith. repeat case_match; auto with keeps. Qed.
Hint Resolve keeps_PushNum keeps_PopNum keeps_arith : keeps.
Lemma keeps_arith_acc op : keeps (arith_acc op).
Proof. unfold arith_acc. auto 10 with keeps. Qed.
Hint Resolve keeps_arith_acc : keeps.
Lemma keeps_reduce_step op : keeps (reduce_step op).
Proof. unfold reduce_step. auto 20 with keeps. Qed.

Lemma PopOp_opsp s n op s' : opsp s = S n → PopOp s = Ok op s' → opsp s' = n.
Proof.
  unfold PopOp, mbind, prog_bind, gets, modify, id. intros ->. unfold get_cell.
  destruct (_ !! n); [|done]. by intros [= _ <-].
Qed.

Lemma bind_ok {A B} (m : cprog A) (k : A → cprog B) s b s' :
  (m ≫= k) s = Ok b s' → ∃ a s1, m s = Ok a s1 ∧ k a s1 = Ok b s'.
Proof. unfold mbind, prog_bind. destruct (m s); eauto. done. Qed.

Lemma bind_ext {A B} (m : cprog A) (k k' : A → cprog B) s :
  (∀ a s1, m s = Ok a s1 → k a s1 = k' a s1) → (m ≫= k) s = (m ≫= k') s.
Proof. unfold mbind, prog_bind. destruct (m s); auto. Qed.

(** Every round of [equf]'s loop takes one operator off. *)
Lemma equf_step_opsp s n s' : opsp s = S n → equf_step s = Ok () s' → opsp s' = n.
Proof.
  intros Hn Hs. unfold equf_step in Hs.
  apply bind_ok in Hs as (d & s1 & E1 & Hs). apply bind_ok in Hs as ([] & s2 & E2 & Hs).
  apply bind_ok in Hs as (a & s3 & E3 & Hs). apply bind_ok in Hs as ([] & s4 & E4 & Hs).
  apply bind_ok in Hs as (op & s5 & E5 & Hs).
  apply keeps_PopNum in E1, E3. injection E2 as <-. injection E4 as <-. simpl in *.
  apply PopOp_opsp with (n := n) in E5; [|simpl; congruence].
  rewrite <- E5. refine ((_ : keeps _) _ _ _ Hs).
  apply opsp_bind; [by apply keeps_modify|]. intros _.
  apply opsp_bind; [destruct op; auto with keeps|]. auto with keeps.
Qed.

Lemma isopempty_run {A} (k : bool → cprog A) s :
  (isopempty ≫= k) s = k (bool_decide (opsp s = O)) s.
Proof. done. Qed.

Lemma equf_loop_fuel s : ∀ fuel,
  (opsp s ≤ fuel)%nat → equf_loop fuel s = equf_loop (opsp s) s ∧
  (∀ s', equf_loop fuel s = Ok () s' → opsp s' = O).
Proof.
  remember (opsp s) as n eqn:Hn. symmetry in Hn. revert s Hn.
  induction n as [|n IH]; intros s Hn fuel Hf.
  { destruct fuel; simpl; rewrite !isopempty_run, Hn; simpl; (split; [done|]);
      by intros s' [= <-]. }
  destruct fuel as [|fuel]; [lia|]. simpl. rewrite !isopempty_run, Hn. simpl.
  unfold mbind, prog_bind. destruct (equf_step s) as [[] s1|] eqn:E; [|done].
  apply (IH s1); [by eapply equf_step_opsp|lia].
Qed.

Lemma rparf_loop_fuel s : ∀ fuel,
  (opsp s ≤ fuel)%nat → rparf_loop fuel s = rparf_loop (opsp s) s.
Proof.
  remember (opsp s) as n eqn:Hn. symmetry in Hn. revert s Hn.
  induction n as [|n IH]; intros s Hn fuel Hf.
  { destruct fuel; simpl; by rewrite !isopempty_run, Hn. }
  destruct fuel as [|fuel]; [lia|]. simpl. rewrite !isopempty_run, Hn. simpl.
  apply bind_ext. intros op s1 E. eapply PopOp_opsp in E; [|done].
  apply bind_ext. intros [] s2 [= <-]. destruct (key_eqb op kLPAR); [done|].
  apply bind_ext. intros [] s3 E3%keeps_reduce_step. apply IH; [|lia].
  simpl in *. congruence.
Qed.
End Loops.

(** the while loops of equals and right parenthesis end within STACKMAX
    rounds from every state with its operator stack pointer in range, that is,
    more fuel changes nothing, and equals leaves no operator behind. *)
Theorem stack_loops_terminate `{Libm} (s : calc) (fuel : nat) :
  (opsp s ≤ STACKMAX ≤ fuel)%nat →
  equf_loop fuel s = equf_loop STACKMAX s ∧
  rparf_loop fuel s = rparf_loop STACKMAX s ∧
  (∀ s', equf_loop STACKMAX s = Ok () s' → opsp s' = O).
Proof.
  intros Hf. destruct (equf_loop_fuel s fuel) as [E1 _]; [lia|].
  destruct (equf_loop_fuel s STACKMAX) as [E2 E3]; [lia|].
  rewrite E1, E2, (rparf_loop_fuel s fuel), (rparf_loop_fuel s STACKMAX) by lia.
  split; [done|]. split; [done|]. by rewrite <- E2.
Qed.

Lemma stack_loops_terminate_witness :
  (opsp polish_sample ≤ STACKMAX ≤ 40)%nat ∧
  @equf_loop probe_libm 40 polish_sample = @equf_loop probe_libm STACKMAX polish_sample ∧
  @rparf_loop probe_libm 40 polish_sample = @rparf_loop probe_libm STACKMAX polish_sample ∧
  (∀ s', @equf_loop probe_libm STACKMAX polish_sample = Ok () s' → opsp s' = O).
Proof.
  assert (Hf : (opsp polish_sample ≤ STACKMAX ≤ 40)%nat).
  { split; apply Nat.leb_le; reflexivity. }
  split; [exact Hf|]. apply (@stack_loops_terminate probe_libm polish_sample 40 Hf).
Defined.
