(* ===== verification/MountdDevices.v ===== *)
(** * isde-mountd: devices and the world (mountd/src/mountd.h, devices.c)

    The daemon's state, the calls it makes to the kernel and to libraries, and
    the device list of devices.c.  The strings of the daemon are only ever
    written by [snprintf] and by clearing their first byte, so an array of [n]
    bytes is modelled by the string it holds, and [snprintf] into it by
    [trunc n]. *)

From S2P Require Import Prelude.
From S2P Require Import CString.
From S2P Require Import CFloat.
Open Scope Z_scope.

(** ** Limits and tables (mountd.h) *)

Definition MAX_DEVICES : nat := 64.
Definition DEV_PATH_LEN : nat := 256.
Definition LABEL_LEN : nat := 256.
Definition VENDOR_LEN : nat := 256.
Definition FS_TYPE_LEN : nat := 64.
Definition MOUNT_POINT_LEN : nat := 512.
Definition LUKS_UUID_LEN : nat := 64.
Definition DM_NAME_LEN : nat := 256.

Definition MOUNTD_DBUS_INTERFACE : text := str "org.isde.DiskManager".

Definition allowed_fs_types : list text :=
  [str "vfat"; str "exfat"; str "ext2"; str "ext3"; str "ext4";
   str "ntfs"; str "ntfs3"; str "iso9660"; str "udf"].

(** ** State *)

Record Device := mkDevice {
  dev_path : text;
  label : text;
  vendor : text;
  fs_type : text;
  mount_point : text;
  is_mounted : bool;
  is_ejectable : bool;
  is_luks : bool;
  is_unlocked : bool;
  luks_opened_by_us : bool;
  luks_uuid : text;
  dm_name : text;
  dm_path : text;
  inner_fs_type : text
}.

#[export] Instance device_eta : RecEta Device := Build_RecEta _ (fun d =>
  mkDevice (dev_path d) (label d) (vendor d) (fs_type d) (mount_point d) (is_mounted d)
    (is_ejectable d) (is_luks d) (is_unlocked d) (luks_opened_by_us d) (luks_uuid d)
    (dm_name d) (dm_path d) (inner_fs_type d)).

(** The result of [memset(d, 0, sizeof *d)]. *)
Definition empty_device : Device :=
  mkDevice [] [] [] [] [] false false false false false [] [] [] [].

(** [devices] holds the first [ndevices] entries of the array; [dbus] tells
    whether there is a bus connection. *)
Record MountDaemon := mkMountDaemon {
  devices : list Device;
  monitor_handle : bool;
  dbus : bool;
  mount_base : text;
  auto_mount : bool
}.

#[export] Instance mountdaemon_eta : RecEta MountDaemon := Build_RecEta _ (fun m =>
  mkMountDaemon (devices m) (monitor_handle m) (dbus m) (mount_base m) (auto_mount m)).

(** ** Calls out of the daemon

    What leaves the daemon is recorded; what comes back is an oracle on the
    calls so far.  Results are as the code tests them: an [errno] (0 for
    success) for system calls, libcryptsetup's negative error codes, an
    [option] where the C function may return NULL. *)

Inductive signal :=
  | DeviceAdded (dev_path label fs_type : text)
  | DeviceRemoved (dev_path : text)
  | DeviceMounted (dev_path mount_point : text)
  | DeviceUnmounted (dev_path : text).

Record DeviceRow := mkRow {
  row_dev_path : text; row_label : text; row_vendor : text; row_fs_type : text;
  row_mount_point : text; row_mounted : bool; row_eject : bool; row_luks : bool
}.

Inductive reply :=
  | RDevices (rows : list DeviceRow)
  | RResult (success : bool) (result : text)
  | RError (name message : text)
  | RIntrospect.

Inductive syscall :=
  | CryptInit (dev : text)
  | CryptLoad (dev : text)
  | CryptActivate (dm pass : text)
  | CryptInitByName (dm : text)
  | CryptDeactivate (dm : text)
  | CryptStatus (dm : text)
  | Stat (path : text)
  | BlkidProbeFile (path : text)
  | BlkidSafeProbe (path : text)
  | BlkidLookupType (path : text)
  | GetPwUid (uid : Z)
  | Mkdir (path : text) (mode : Z)
  | Rmdir (path : text)
  | Mount (src tgt fs : text) (flags : Z) (opts : text)
  | Umount (tgt : text)
  | ReadMounts
  | OpenDev (path : text)
  | IoctlEject (path : text)
  | OpenWrite (path : text)
  | WriteOne (path : text)
  | GetUnixUser (sender : text)
  | SendReply (r : reply)
  | EmitSignal (s : signal).

Definition result (c : syscall) : Type :=
  match c with
  | CryptInit _ | CryptLoad _ | CryptActivate _ _ | CryptInitByName _
  | CryptDeactivate _ => Z
  | CryptStatus _ => bool        (* CRYPT_ACTIVE or CRYPT_BUSY *)
  | Stat _ => bool
  | BlkidProbeFile _ => bool
  | BlkidSafeProbe _ => bool     (* 0 *)
  | BlkidLookupType _ => option text
  | GetPwUid _ => option (text * Z)
  | Mkdir _ _ | Rmdir _ | Mount _ _ _ _ _ | Umount _ => Z
  | ReadMounts => option text
  | OpenDev _ | IoctlEject _ | OpenWrite _ => bool
  | WriteOne _ => unit
  | GetUnixUser _ => option Z
  | SendReply _ | EmitSignal _ => unit
  end.

(** The operating system and the libraries: [answer h c] is the result of [c]
    after the calls [h], latest first. *)
Class Kernel := {
  answer : ∀ (h : list syscall) (c : syscall), result c;
  strerror : Z → text
}.

Record World := mkWorld { md : MountDaemon; calls : list syscall }.
#[export] Instance world_eta : RecEta World := Build_RecEta _ (fun w => mkWorld (md w) (calls w)).

Abbreviation mprog := (prog World).

Definition call `{Kernel} (c : syscall) : mprog (result c) := fun w =>
  Ok (answer (calls w) c) (w <| calls := c :: calls w |>).

Definition EEXIST : Z := 17.

(** Change the device array. *)
Definition on_devices (f : list Device → list Device) : mprog unit :=
  modify (fun w => w <| md := (md w) <| devices := f (devices (md w)) |> |>).

(** Write to the device in slot [i]: the code's [Device *]. *)
Definition set_dev (i : nat) (f : Device → Device) : mprog unit := on_devices (alter f i).

Definition get_dev (i : nat) : mprog Device := fun w =>
  match devices (md w) !! i with Some d => Ok d w | None => Fault OutOfBounds end.

(** ** devices.c *)

(** The index of the first device with the path. *)
Definition mountd_find_device (m : MountDaemon) (path : text) : option nat :=
  fst <$> list_find (fun d => dev_path d = path) (devices m).

Definition mountd_add_device (path : text) (lbl vnd fs : option text)
    (ejectable : bool) : mprog (option nat) :=
  m ← gets md;
  match mountd_find_device m path with
  | Some _ => mret None
  | None =>
    if decide (MAX_DEVICES ≤ length (devices m))%nat then mret None
    else
      let d := empty_device
        <| dev_path := trunc DEV_PATH_LEN path |>
        <| label := trunc LABEL_LEN (default [] lbl) |>
        <| vendor := trunc VENDOR_LEN (default [] vnd) |>
        <| fs_type := trunc FS_TYPE_LEN (default [] fs) |>
        <| is_ejectable := ejectable |> in
      on_devices (fun ds => ds ++ [d]);;
      mret (Some (length (devices m)))
  end.

(** Remove slot [i] by moving the last entry into it. *)
Definition swap_remove {A} (i : nat) (l : list A) : list A :=
  let n := (length l - 1)%nat in
  if decide (i < n)%nat then
    match l !! n with
    | Some x => take n (<[i := x]> l)
    | None => take n l
    end
  else take n l.

Definition mountd_remove_device (path : text) : mprog unit :=
  m ← gets md;
  match mountd_find_device m path with
  | None => skip
  | Some i => on_devices (swap_remove i)
  end.

(** *** /proc/mounts *)

(** At most [n] bytes that are not white space. *)
Fixpoint scan_word (n : nat) (s : text) : text * text :=
  match n, s with
  | S n', c :: s' =>
    if isspace c then ([], s) else let '(w, r) := scan_word n' s' in (c :: w, r)
  | _, _ => ([], s)
  end.

(** [sscanf(line, "%255s %511s %63s", dev, mp, fs) >= 2]: the first two words;
    the third is not used. *)
Definition scan_mount_line (line : text) : option (text * text) :=
  let '(dev, r) := scan_word 255 (skip_space (before NUL line)) in
  let '(mp, _) := scan_word 511 (skip_space r) in
  match dev, mp with
  | _ :: _, _ :: _ => Some (dev, mp)
  | _, _ => None
  end.

(** The device a line of the mount table belongs to: by its own path, else by
    the mapper path of a LUKS device. *)
Definition line_device (ds : list Device) (dev : text) : option nat :=
  match list_find (fun d => dev_path d = dev) ds with
  | Some (i, _) => Some i
  | None =>
    fst <$> list_find (fun d => is_luks d = true ∧ dm_path d ≠ [] ∧ dm_path d = dev) ds
  end.

Definition mark_mounted (mp : text) (d : Device) : Device :=
  d <| is_mounted := true |> <| mount_point := trunc MOUNT_POINT_LEN mp |>.

Definition scan_line (ds : list Device) (line : text) : list Device :=
  match scan_mount_line line with
  | None => ds
  | Some (dev, mp) =>
    match line_device ds dev with
    | Some i => alter (mark_mounted mp) i ds
    | None => ds
    end
  end.

Definition mountd_luks_is_active `{Kernel} (dm : text) : mprog bool := call (CryptStatus dm).

(** The second loop: ask whether each LUKS device is unlocked. *)
Fixpoint refresh_luks `{Kernel} (i n : nat) : mprog unit :=
  match n with
  | O => skip
  | S n' =>
    d ← get_dev i;
    when (is_luks d && bool_decide (dm_name d ≠ [])) (
      a ← mountd_luks_is_active (dm_name d);
      set_dev i (fun d => d <| is_unlocked := a |>));;
    refresh_luks (S i) n'
  end.

Definition clear_mounted (d : Device) : Device :=
  d <| is_mounted := false |> <| mount_point := [] |>.

Definition mountd_refresh_mount_state `{Kernel} : mprog unit :=
  on_devices (fmap clear_mounted);;
  n ← gets (fun w => length (devices (md w)));
  refresh_luks 0 n;;
  f ← call ReadMounts;
  match f with
  | None => skip
  | Some file =>
    on_devices (fun ds => foldl scan_line ds (fgets_lines 1023 [] file))
  end.
