(* ===== verification/MountdOps.v ===== *)
(** * isde-mountd: LUKS and mount operations (mountd/src/luks.c, mount_ops.c)

    The Linux build.  An operation that returns -1 with a message in [errbuf]
    returns [inl message]; 0 is [inr]. *)

From S2P Require Import Prelude.
From S2P Require Import CString.
From S2P Require Import CFloat.
From S2P Require Import MountdDevices.
Open Scope Z_scope.

Abbreviation outcome A := (text + A)%type (only parsing).

(** [snprintf(errbuf, errlen, ...); return -1;] *)
Definition fails {A} (errlen : nat) (msg : text) : mprog (outcome A) :=
  mret (inl (trunc errlen msg)).

Section Ops.
Context `{!Kernel}.

(** ** luks.c *)

Definition mountd_luks_open (dev dm pass : text) (errlen : nat) : mprog (outcome unit) :=
  r ← call (CryptInit dev);
  if r <? 0 then fails errlen (str "crypt_init: " ++ strerror (- r))
  else
    r ← call (CryptLoad dev);
    if r <? 0 then fails errlen (str "crypt_load: " ++ strerror (- r))
    else
      r ← call (CryptActivate dm pass);
      if r <? 0 then
        if r =? -1 then fails errlen (str "Wrong passphrase")
        else fails errlen (str "crypt_activate: " ++ strerror (- r))
      else mret (inr tt).

Definition mountd_luks_close (dm : text) (errlen : nat) : mprog (outcome unit) :=
  r ← call (CryptInitByName dm);
  if r <? 0 then fails errlen (str "crypt_init_by_name: " ++ strerror (- r))
  else
    r ← call (CryptDeactivate dm);
    if r <? 0 then fails errlen (str "crypt_deactivate: " ++ strerror (- r))
    else mret (inr tt).

(** [for (i = 0; i < 50 && stat(dm_path, &st) != 0; i++) usleep(100000);] *)
Fixpoint wait_for_node (n : nat) (path : text) : mprog unit :=
  match n with
  | O => skip
  | S n' =>
    ok ← call (Stat path);
    if (ok : bool) then skip else wait_for_node n' path
  end.

Definition mountd_luks_probe_fs (path : text) (fs_len : nat) : mprog (option text) :=
  wait_for_node 50 path;;
  pr ← call (BlkidProbeFile path);
  if negb pr then mret None
  else
    ok ← call (BlkidSafeProbe path);
    if negb ok then mret None
    else
      t ← call (BlkidLookupType path);
      mret (trunc fs_len <$> t).

(** ** Helpers of mount_ops.c *)

Definition is_fs_type_allowed (fs : text) : bool :=
  existsb (fun t => bool_decide (fs = t)) allowed_fs_types.

(** The loop of [sanitize_label]: [first] is [i == 0]. *)
Fixpoint sanitize (first : bool) (room : nat) (lbl : text) : text :=
  match lbl, room with
  | c :: lbl', S room' =>
    (if decide (c = "/"%char ∨ (first = true ∧ c = "."%char)) then "_"%char else c)
      :: sanitize false room' lbl'
  | _, _ => []
  end.

Definition sanitize_label (lbl : text) (len : nat) : text :=
  match sanitize true (len - 1) lbl with
  | [] => trunc len (str "disk")
  | out => out
  end.

(** [mkdir(tmp, mode) < 0 && errno != EEXIST], with the [errno]. *)
Definition mkdir_fails (path : text) (mode : Z) : mprog (option Z) :=
  e ← call (Mkdir path mode);
  mret (if (e =? 0) || (e =? EEXIST) then None else Some e).

(** The loop of [mkdir_p]: [pre] is before the cursor, the rest at it. *)
Fixpoint mkdir_from (pre rest : text) (mode : Z) : mprog (option Z) :=
  match rest with
  | [] => mkdir_fails pre mode
  | c :: rest' =>
    if decide (c = "/"%char) then
      f ← mkdir_fails pre mode;
      match f with
      | Some e => mret (Some e)
      | None => mkdir_from (pre ++ [c]) rest' mode
      end
    else mkdir_from (pre ++ [c]) rest' mode
  end.

(** [None] for 0, the [errno] for -1.  The cursor starts at the second byte,
    which an empty path does not have. *)
Definition mkdir_p (path : text) (mode : Z) : mprog (option Z) :=
  match trunc 512 path with
  | [] => raise OutOfBounds
  | c :: rest => mkdir_from [c] rest mode
  end.

Definition MS_NOSUID : Z := 2.
Definition MS_NODEV : Z := 4.
Definition MS_NOEXEC : Z := 8.
Definition MS_RELATIME : Z := 2 ^ 21.

Definition plat_mount (src tgt fs : text) (is_fat : bool) (uid gid : Z) (errlen : nat)
    : mprog (outcome unit) :=
  let opts := if is_fat
    then trunc 256 (str "uid=" ++ print_ulong 10 (u64 uid) ++ str ",gid=" ++ print_ulong 10 (u64 gid))
    else [] in
  let flags := Z.lor (Z.lor MS_NOSUID MS_NODEV) MS_RELATIME in
  let flags := if is_fat then Z.lor flags MS_NOEXEC else flags in
  e ← call (Mount src tgt fs flags opts);
  if negb (e =? 0) then fails errlen (str "mount failed: " ++ strerror e)
  else mret (inr tt).

(** ** Mount *)

Definition close_if_ours (i : nat) : mprog unit :=
  dev ← get_dev i;
  when (is_luks dev && luks_opened_by_us dev) (
    mountd_luks_close (dm_name dev) 128;;
    set_dev i (fun d => d <| is_unlocked := false |> <| luks_opened_by_us := false |>)).

(** The probe of [mountd_do_mount]. *)
Definition probe_inner (i : nat) (errlen : nat) : mprog (outcome unit) :=
  dev ← get_dev i;
  if decide (inner_fs_type dev = []) then
    t ← mountd_luks_probe_fs (dm_path dev) FS_TYPE_LEN;
    match t with
    | Some t => set_dev i (fun d => d <| inner_fs_type := t |>);; mret (inr tt)
    | None =>
      when (luks_opened_by_us dev) (
        mountd_luks_close (dm_name dev) 128;;
        set_dev i (fun d => d <| is_unlocked := false |> <| luks_opened_by_us := false |>));;
      fails errlen (str "Cannot determine filesystem inside LUKS container")
    end
  else mret (inr tt).

(** The LUKS part of [mountd_do_mount]. *)
Definition unlock_luks (i : nat) (path pass : text) (errlen : nat) : mprog (outcome unit) :=
  dev ← get_dev i;
  if decide (pass = []) then fails errlen (str "Passphrase required for LUKS device")
  else if decide (dm_name dev = []) then fails errlen (str "LUKS device has no dm name")
  else
    r ← (if is_unlocked dev then mret (inr tt)
         else
           r ← mountd_luks_open path (dm_name dev) pass errlen;
           match r with
           | inl e => mret (inl e)
           | inr _ =>
             set_dev i (fun d => d <| is_unlocked := true |> <| luks_opened_by_us := true |>);;
             mret (inr tt)
           end);
    match r with
    | inl e => mret (inl e)
    | inr _ => probe_inner i errlen
    end.

(** [mountd_do_mount] from the choice of the file system on. *)
Definition mount_fs (i : nat) (src fs : text) (uid : Z) (mp_len errlen : nat)
    : mprog (outcome text) :=
  if decide (fs = []) then fails errlen (str "Unknown filesystem type")
  else if negb (is_fs_type_allowed fs) then
    close_if_ours i;;
    fails errlen (str "Filesystem type not allowed: " ++ fs)
  else
    pw ← call (GetPwUid uid);
    match pw with
    | None => fails errlen (str "Cannot resolve UID " ++ print_ulong 10 (u64 uid))
    | Some (pw_name, pw_gid) =>
      dev ← get_dev i;
      base ← gets (fun w => mount_base (md w));
      let safe_label := sanitize_label (label dev) 256 in
      let mp := trunc MOUNT_POINT_LEN
                  (base ++ str "/" ++ pw_name ++ str "/" ++ safe_label) in
      f ← mkdir_p mp 493;
      match f with
      | Some e => fails errlen (str "Cannot create " ++ mp ++ str ": " ++ strerror e)
      | None =>
        let is_fat := bool_decide (fs = str "vfat" ∨ fs = str "exfat") in
        r ← plat_mount src mp fs is_fat uid pw_gid errlen;
        match r with
        | inl e =>
          call (Rmdir mp);;
          close_if_ours i;;
          mret (inl e)
        | inr _ =>
          set_dev i (mark_mounted mp);;
          mret (inr (trunc mp_len mp))
        end
      end
    end.

Definition mountd_do_mount (path : text) (uid : Z) (pass : text) (mp_len errlen : nat)
    : mprog (outcome text) :=
  m ← gets md;
  match mountd_find_device m path with
  | None => fails errlen (str "Device not tracked: " ++ path)
  | Some i =>
    dev ← get_dev i;
    if is_mounted dev then fails errlen (str "Already mounted at " ++ mount_point dev)
    else if is_luks dev then
      r ← unlock_luks i path pass errlen;
      match r with
      | inl e => mret (inl e)
      | inr _ =>
        dev ← get_dev i;
        mount_fs i (dm_path dev) (inner_fs_type dev) uid mp_len errlen
      end
    else mount_fs i path (fs_type dev) uid mp_len errlen
  end.

(** ** Unmount and eject *)

(** Close the container in slot [i] if the daemon opened it; it stays marked
    open when closing fails. *)
Definition close_after_unmount (i : nat) : mprog unit :=
  dev ← get_dev i;
  when (is_luks dev && is_unlocked dev && luks_opened_by_us dev) (
    r ← mountd_luks_close (dm_name dev) 256;
    match r with
    | inr _ => set_dev i (fun d => d <| is_unlocked := false |>
                 <| luks_opened_by_us := false |> <| inner_fs_type := [] |>)
    | inl _ => skip
    end).

Definition mountd_do_unmount (path : text) (errlen : nat) : mprog (outcome unit) :=
  m ← gets md;
  match mountd_find_device m path with
  | None => fails errlen (str "Device not tracked: " ++ path)
  | Some i =>
    dev ← get_dev i;
    if negb (is_mounted dev) then fails errlen (str "Not mounted")
    else
      e ← call (Umount (mount_point dev));
      if negb (e =? 0) then fails errlen (str "umount failed: " ++ strerror e)
      else
        call (Rmdir (mount_point dev));;
        set_dev i clear_mounted;;
        close_after_unmount i;;
        mret (inr tt)
  end.

Definition mountd_do_eject (eject : text → mprog bool) (path : text) (errlen : nat)
    : mprog (outcome unit) :=
  m ← gets md;
  match mountd_find_device m path with
  | None => fails errlen (str "Device not tracked: " ++ path)
  | Some i =>
    dev ← get_dev i;
    r ← (if is_mounted dev then mountd_do_unmount path errlen else mret (inr tt));
    match r with
    | inl e => mret (inl e)
    | inr _ =>
      close_after_unmount i;;
      ok ← eject path;
      if negb ok then fails errlen (str "Eject failed for " ++ path)
      else mountd_remove_device path;; mret (inr tt)
    end
  end.
End Ops.
