(* ===== verification/MountdBus.v ===== *)
(** * isde-mountd: the bus, the device monitor and the daemon
    (mountd/src/dbus.c, platform_linux.c, mountd.c)

    A bus message and a udev device are seen through the accessors the code
    calls on them; their records hold what those accessors return.  The daemon
    is the composition of its handlers over the events that wake its loop. *)

From S2P Require Import Prelude.
From S2P Require Import CString.
From S2P Require Import CFloat.
From S2P Require Import MountdDevices.
From S2P Require Import MountdOps.
Open Scope Z_scope.

(** ** What libraries hand over *)

(** [arg_s], [arg_ss]: the strings [dbus_message_get_args] extracts for one and
    for two string arguments, if it succeeds. *)
Record DBusMessage := mkDBusMessage {
  is_method_call : bool;
  interface : option text;
  member : option text;
  signature : option text;
  arg_s : option text;
  arg_ss : option (text * text);
  sender : option text
}.

(** [u_parent_disk]: the parent disk, if there is one, with its "removable"
    attribute; [u_removable]: the device's own. *)
Record udev_device := mkUdevDevice {
  u_action : option text;
  u_devnode : option text;
  u_devtype : option text;
  u_prop : text → option text;
  u_parent_disk : option (option text);
  u_removable : option text
}.

Definition is_str (o : option text) (s : text) : bool := bool_decide (o = Some s).
Definition nonempty (o : option text) : option text :=
  match o with Some (c :: s) => Some (c :: s) | _ => None end.

(** ** platform_linux.c: what a device is *)

Definition is_removable (dev : udev_device) : bool :=
  if is_str (u_prop dev (str "ID_BUS")) (str "usb") then true
  else if u_prop dev (str "ID_USB_DRIVER") then true
  else
    let removable :=
      match u_parent_disk dev with
      | Some r => r
      | None => if is_str (u_devtype dev) (str "disk") then u_removable dev else None
      end in
    is_str removable (str "1").

Definition is_ejectable_dev (dev : udev_device) : bool :=
  if is_str (u_prop dev (str "ID_BUS")) (str "usb") then true
  else if u_prop dev (str "ID_USB_DRIVER") then true
  else if u_prop dev (str "ID_CDROM") then true
  else false.

Definition get_label (dev : udev_device) : option text :=
  match nonempty (u_prop dev (str "ID_FS_LABEL")) with
  | Some l => Some l
  | None => nonempty (u_prop dev (str "ID_PART_ENTRY_NAME"))
  end.

Definition get_fs_type (dev : udev_device) : option text := u_prop dev (str "ID_FS_TYPE").

Definition get_vendor_model (dev : udev_device) (len : nat) : text :=
  let buf :=
    match nonempty (u_prop dev (str "ID_VENDOR")), nonempty (u_prop dev (str "ID_MODEL")) with
    | Some v, Some m => trunc len (v ++ str " " ++ m)
    | Some v, None => trunc len v
    | None, Some m => trunc len m
    | None, None => []
    end in
  map (fun c => if decide (c = "_"%char) then " "%char else c) buf.

(** What follows the last slash, if there is one. *)
Fixpoint after_slash (s : text) : option text :=
  match s with
  | [] => None
  | c :: s' =>
    match after_slash s' with
    | Some b => Some b
    | None => if decide (c = "/"%char) then Some s' else None
    end
  end.

Definition setup_luks_fields (dev : udev_device) (devnode : text) (d : Device) : Device :=
  let d := d <| is_luks := true |> in
  let d :=
    match nonempty (u_prop dev (str "ID_FS_UUID")) with
    | Some uuid =>
      d <| luks_uuid := trunc LUKS_UUID_LEN uuid |>
        <| dm_name := trunc DM_NAME_LEN (str "luks-" ++ uuid) |>
    | None =>
      d <| dm_name := trunc DM_NAME_LEN (str "luks-" ++ default devnode (after_slash devnode)) |>
    end in
  d <| dm_path := trunc DEV_PATH_LEN (str "/dev/mapper/" ++ dm_name d) |>.

(** Partitions, and whole disks that carry a file system. *)
Definition accepted (dev : udev_device) : bool :=
  is_str (u_devtype dev) (str "partition") ||
  (is_str (u_devtype dev) (str "disk") && bool_decide (is_Some (get_fs_type dev))).

(** The addition common to enumeration, "add" and "change". *)
Definition track (dev : udev_device) (devnode : text) : mprog (option nat) :=
  let fs := get_fs_type dev in
  d ← mountd_add_device devnode (get_label dev) (Some (get_vendor_model dev VENDOR_LEN)) fs
        (is_ejectable_dev dev);
  match d with
  | None => mret None
  | Some i =>
    when (is_str fs (str "crypto_LUKS")) (set_dev i (setup_luks_fields dev devnode));;
    mret (Some i)
  end.

Definition linux_enumerate_one (dev : udev_device) : mprog unit :=
  if negb (accepted dev) then skip
  else if is_removable dev then
    match u_devnode dev with
    | Some devnode => track dev devnode;; skip
    | None => skip
    end
  else skip.

(** [None] is a path for which no device can be made. *)
Fixpoint linux_enumerate_devices (devs : list (option udev_device)) : mprog unit :=
  match devs with
  | [] => skip
  | None :: devs' => linux_enumerate_devices devs'
  | Some dev :: devs' => linux_enumerate_one dev;; linux_enumerate_devices devs'
  end.

Section Bus.
Context `{!Kernel}.

(** ** dbus.c: signals *)

(** The four emitters: nothing without a connection, else send and flush. *)
Definition emit (s : signal) : mprog unit :=
  m ← gets md;
  if negb (dbus m) then skip else call (EmitSignal s).

Definition mountd_dbus_emit_device_added (dev : Device) : mprog unit :=
  emit (DeviceAdded (dev_path dev) (label dev) (fs_type dev)).
Definition mountd_dbus_emit_device_removed (path : text) : mprog unit :=
  emit (DeviceRemoved path).
Definition mountd_dbus_emit_device_mounted (path mp : text) : mprog unit :=
  emit (DeviceMounted path mp).
Definition mountd_dbus_emit_device_unmounted (path : text) : mprog unit :=
  emit (DeviceUnmounted path).

(** ** platform_linux.c: eject and monitor *)

Definition is_digit (c : ascii) : bool :=
  let n := Ascii.nat_of_ascii c in Nat.leb 48 n && Nat.leb n 57.

(** Drop the digits at the end: [while (len > 0 && isdigit(disk[len-1]))]. *)
Fixpoint strip_digits (s : text) : text :=
  match s with
  | [] => []
  | c :: s' =>
    match strip_digits s' with
    | [] => if is_digit c then [] else [c]
    | t => c :: t
    end
  end.

Definition sysfs_delete_path (basename : text) : text :=
  trunc 512 (str "/sys/block/" ++ strip_digits (trunc 64 basename) ++ str "/device/delete").

(** True for 0. *)
Definition linux_eject (path : text) : mprog bool :=
  fd ← call (OpenDev path);
  done ← (if (fd : bool) then call (IoctlEject path) else mret false);
  if (done : bool) then mret true
  else
    match after_slash path with
    | None => mret false
    | Some basename =>
      fd ← call (OpenWrite (sysfs_delete_path basename));
      if (fd : bool) then call (WriteOne (sysfs_delete_path basename));; mret true
      else mret false
    end.

Definition monitor_add (dev : udev_device) (devnode : text) : mprog unit :=
  if is_removable dev then
    t ← track dev devnode;
    match t with
    | None => skip
    | Some i =>
      d ← get_dev i;
      mountd_dbus_emit_device_added d;;
      m ← gets md;
      when (auto_mount m && negb (is_luks d)) (
        mountd_do_mount devnode 0 [] MOUNT_POINT_LEN 256;; skip)
    end
  else skip.

Definition monitor_remove (devnode : text) : mprog unit :=
  m ← gets md;
  match mountd_find_device m devnode with
  | None => skip
  | Some i =>
    d ← get_dev i;
    when (is_luks d && is_unlocked d && luks_opened_by_us d) (
      mountd_luks_close (dm_name d) 256;; skip);;
    set_dev i clear_mounted;;
    mountd_dbus_emit_device_removed devnode;;
    mountd_remove_device devnode
  end.

Definition monitor_change (dev : udev_device) (devnode : text) : mprog unit :=
  if is_removable dev then
    m ← gets md;
    match mountd_find_device m devnode with
    | Some _ => skip
    | None =>
      t ← track dev devnode;
      match t with
      | None => skip
      | Some i => d ← get_dev i; mountd_dbus_emit_device_added d
      end
    end
  else skip.

Definition linux_monitor_dispatch (received : option udev_device) : mprog unit :=
  match received with
  | None => skip
  | Some dev =>
    match u_action dev, u_devnode dev with
    | Some action, Some devnode =>
      if negb (accepted dev) then skip
      else if decide (action = str "add") then monitor_add dev devnode
      else if decide (action = str "remove") then monitor_remove devnode
      else if decide (action = str "change") then monitor_change dev devnode
      else skip
    | _, _ => skip
    end
  end.

(** ** dbus.c: methods *)

Definition invalid_args (msg : text) : reply :=
  RError (str "org.freedesktop.DBus.Error.InvalidArgs") msg.

Definition get_caller_uid (msg : DBusMessage) : mprog (option Z) :=
  match sender msg with
  | None => mret None
  | Some s => call (GetUnixUser s)
  end.

Definition device_row (d : Device) : DeviceRow :=
  mkRow (dev_path d) (label d) (vendor d) (fs_type d) (mount_point d)
    (is_mounted d) (is_ejectable d) (is_luks d).

Definition handle_list_devices : mprog reply :=
  m ← gets md;
  mret (RDevices (map device_row (devices m))).

(** The arguments of Mount: device path and passphrase. *)
Definition mount_args (msg : DBusMessage) : reply + (text * text) :=
  if is_str (signature msg) (str "ss") then
    match arg_ss msg with
    | Some a => inr a
    | None => inl (invalid_args (str "Expected (device_path: s, passphrase: s)"))
    end
  else
    match arg_s msg with
    | Some a => inr (a, [])
    | None => inl (invalid_args (str "Expected (device_path: s)"))
    end.

Definition handle_mount (msg : DBusMessage) : mprog reply :=
  match mount_args msg with
  | inl e => mret e
  | inr (path, pass) =>
    u ← get_caller_uid msg;
    match u with
    | None => mret (RError (str "org.freedesktop.DBus.Error.AuthFailed")
                      (str "Cannot determine caller UID"))
    | Some uid =>
      r ← mountd_do_mount path uid pass MOUNT_POINT_LEN 256;
      match r with
      | inr mp => mountd_dbus_emit_device_mounted path mp;; mret (RResult true mp)
      | inl e => mret (RResult false e)
      end
    end
  end.

Definition handle_unmount (msg : DBusMessage) : mprog reply :=
  match arg_s msg with
  | None => mret (invalid_args (str "Expected (device_path: s)"))
  | Some path =>
    r ← mountd_do_unmount path 256;
    match r with
    | inr _ => mountd_dbus_emit_device_unmounted path;; mret (RResult true [])
    | inl e => mret (RResult false e)
    end
  end.

Definition handle_eject (msg : DBusMessage) : mprog reply :=
  match arg_s msg with
  | None => mret (invalid_args (str "Expected (device_path: s)"))
  | Some path =>
    r ← mountd_do_eject linux_eject path 256;
    match r with
    | inr _ =>
      mountd_dbus_emit_device_unmounted path;;
      mountd_dbus_emit_device_removed path;;
      mret (RResult true [])
    | inl e => mret (RResult false e)
    end
  end.

(** True when the message is handled. *)
Definition handle_method (msg : DBusMessage) : mprog bool :=
  if negb (is_method_call msg) then mret false
  else
    match member msg with
    | None => mret false
    | Some method =>
      if is_str (interface msg) (str "org.freedesktop.DBus.Introspectable") &&
         bool_decide (method = str "Introspect")
      then call (SendReply RIntrospect);; mret true
      else if negb (is_str (interface msg) MOUNTD_DBUS_INTERFACE) then mret false
      else
        r ← (if decide (method = str "ListDevices") then handle_list_devices
             else if decide (method = str "Mount") then handle_mount msg
             else if decide (method = str "Unmount") then handle_unmount msg
             else if decide (method = str "Eject") then handle_eject msg
             else mret (RError (str "org.freedesktop.DBus.Error.UnknownMethod")
                          (str "Unknown method")));
        call (SendReply r);;
        mret true
    end.

(** ** mountd.c: the daemon *)

(** The "mount" table of isde.toml: the table, if the file and it exist, with
    its base, if set, and its auto_mount flag. *)
Definition load_config (cfg : option (option text * bool)) (m : MountDaemon) : MountDaemon :=
  match cfg with
  | None => m
  | Some (base, auto) =>
    let m := match base with Some b => m <| mount_base := b |> | None => m end in
    m <| auto_mount := auto |>
  end.

(** [mountd_init] after its pipe is set up: [bus] and [monitor] tell whether
    the bus name was acquired and the monitor started, [devs] is what udev
    enumerates.  False for -1. *)
Definition mountd_init (cfg : option (option text * bool)) (bus monitor : bool)
    (devs : list (option udev_device)) : mprog bool :=
  modify (fun w => w <| md := load_config cfg (mkMountDaemon [] false false (str "/media") false) |>);;
  modify (fun w => w <| md := (md w) <| dbus := bus |> |>);;
  if negb monitor then mret false
  else
    modify (fun w => w <| md := (md w) <| monitor_handle := true |> |>);;
    linux_enumerate_devices devs;;
    mountd_refresh_mount_state;;
    mret true.

(** What wakes the loop: a monitor event, or the messages the bus dispatches. *)
Inductive event :=
  | EvMonitor (received : option udev_device)
  | EvBus (msgs : list DBusMessage).

Fixpoint mountd_dbus_dispatch (msgs : list DBusMessage) : mprog unit :=
  match msgs with
  | [] => skip
  | msg :: msgs' => handle_method msg;; mountd_dbus_dispatch msgs'
  end.

Definition mountd_event (e : event) : mprog unit :=
  match e with
  | EvMonitor r => linux_monitor_dispatch r
  | EvBus msgs =>
    m ← gets md;
    when (dbus m) (mountd_dbus_dispatch msgs)
  end.

Fixpoint mountd_run (es : list event) : mprog unit :=
  match es with
  | [] => skip
  | e :: es' => mountd_event e;; mountd_run es'
  end.
End Bus.
