(* ===== verification/MountdSafety.v ===== *)
(** * isde-mountd: the invariant of the daemon and what its operations do

    Every operation works on one slot of the device array; [slot] follows the
    device in that slot through an operation while keeping the invariant of the
    whole daemon, and the lemmas [wp_*] execute the operations on it. *)

From S2P Require Import Prelude.
From S2P Require Import CString.
From S2P Require Import CFloat.
From S2P Require Import MountdDevices.
From S2P Require Import MountdOps.
From S2P Require Import MountdBus.
Open Scope Z_scope.

(** ** The device array *)

Lemma find_Some m p i :
  mountd_find_device m p = Some i →
  ∃ d, devices m !! i = Some d ∧ dev_path d = p ∧
       ∀ j d', (j < i)%nat → devices m !! j = Some d' → dev_path d' ≠ p.
Proof.
  unfold mountd_find_device. destruct (list_find _ _) as [[j d]|] eqn:E; [|done].
  simpl. intros [= ->]. apply list_find_Some in E as (Hl & Hp & Hm).
  exists d. split_and!; [done..|]. intros j d' Hj Hd'. by eapply Hm.
Qed.

Lemma find_None m p :
  mountd_find_device m p = None → p ∉ dev_path <$> devices m.
Proof.
  unfold mountd_find_device. destruct (list_find _ _) as [[j d]|] eqn:E; [done|].
  intros _. apply list_find_None in E. rewrite list_elem_of_fmap.
  intros (d & -> & Hd). rewrite Forall_forall in E. by eapply E.
Qed.

Lemma swap_remove_perm {A} i (l : list A) :
  (i < length l)%nat → swap_remove i l ≡ₚ delete i l.
Proof.
  intros Hi. unfold swap_remove. destruct (decide _) as [Hlt|Hge].
  - destruct (lookup_lt_is_Some_2 l (length l - 1)) as [x Hx]; [lia|]. rewrite Hx.
    assert (El : l = take (length l - 1) l ++ [x]).
    { rewrite <- (take_drop (length l - 1) l) at 1. f_equal.
      rewrite (drop_S _ x) by done. f_equal. apply drop_ge. lia. }
    set (t := take (length l - 1) l) in *.
    assert (Ht : length t = (length l - 1)%nat) by (unfold t; rewrite length_take; lia).
    assert (take (length l - 1) (<[i:=x]> l) = <[i:=x]> t) as ->.
    { unfold t. by rewrite take_insert_lt by lia. }
    rewrite El, delete_take_drop, take_app_le, drop_app_le by lia.
    rewrite insert_take_drop by lia.
    rewrite <- Permutation_middle. rewrite (app_assoc _ _ [x]).
    by rewrite <- Permutation_cons_append.
  - assert (i = length l - 1)%nat as -> by lia.
    rewrite delete_take_drop, (drop_ge l) by lia. by rewrite app_nil_r.
Qed.

Lemma swap_remove_length {A} i (l : list A) :
  (i < length l)%nat → length (swap_remove i l) = (length l - 1)%nat.
Proof.
  intros Hi. rewrite (Permutation_length (swap_remove_perm i l Hi)).
  rewrite length_delete; [lia|]. by apply lookup_lt_is_Some.
Qed.

(** ** Sanitised labels *)

(** A directory name below the user's mount directory and nothing else. *)
Definition safe_component (s : text) : Prop :=
  s ≠ [] ∧ "/"%char ∉ s ∧ head s ≠ Some "."%char ∧ (length s < 256)%nat.

Lemma sanitize_no_slash b n l : "/"%char ∉ sanitize b n l.
Proof.
  revert b n. induction l as [|c l IH]; intros b [|n]; simpl; try set_solver.
  apply not_elem_of_cons. split; [|done]. case_decide as H; [done|].
  intros <-. by destruct H; left.
Qed.

Lemma sanitize_length b n l : (length (sanitize b n l) ≤ n)%nat.
Proof.
  revert b n. induction l as [|c l IH]; intros b [|n]; simpl; try lia.
  specialize (IH false n). lia.
Qed.

Lemma sanitize_label_safe l : safe_component (sanitize_label l 256).
Proof.
  unfold sanitize_label. destruct (sanitize true (256 - 1) l) as [|c out] eqn:E.
  { split_and!; [done| |done|by vm_compute; lia]. by apply (bool_decide_unpack _); vm_compute. }
  pose proof (sanitize_no_slash true (256 - 1) l) as Hs.
  pose proof (sanitize_length true (256 - 1) l) as Hl. rewrite E in Hs, Hl.
  split_and!; [done|done| |lia].
  destruct l as [|c' l]; [done|]. simpl in E. injection E as <- _. simpl.
  case_decide as Hc; [done|]. intros [= ->]. destruct Hc. auto.
Qed.

(** Labels that are already safe are used as they are. *)
Lemma sanitize_id l b n :
  "/"%char ∉ l → (b = true → head l ≠ Some "."%char) → (length l ≤ n)%nat →
  sanitize b n l = l.
Proof.
  revert b n. induction l as [|c l IH]; intros b n Hs Hd Hn; [by destruct n|].
  destruct n as [|n]; simpl in *; [lia|].
  rewrite decide_False.
  - f_equal. apply IH; [set_solver|done|lia].
  - intros [->|[-> ->]]; [set_solver|]. by destruct Hd.
Qed.

(** ** The invariant *)

Section Invariant.
Context `{!Kernel} (short : Prop) (base : text).

(** Every string fits its array, and a device has a mount point exactly while
    it is mounted. *)
Record wf_dev (d : Device) : Prop := {
  wd_path : (length (dev_path d) < DEV_PATH_LEN)%nat;
  wd_label : (length (label d) < LABEL_LEN)%nat;
  wd_vendor : (length (vendor d) < VENDOR_LEN)%nat;
  wd_fs : (length (fs_type d) < FS_TYPE_LEN)%nat;
  wd_mp : (length (mount_point d) < MOUNT_POINT_LEN)%nat;
  wd_uuid : (length (luks_uuid d) < LUKS_UUID_LEN)%nat;
  wd_dm : (length (dm_name d) < DM_NAME_LEN)%nat;
  wd_dmpath : (length (dm_path d) < DEV_PATH_LEN)%nat;
  wd_inner : (length (inner_fs_type d) < FS_TYPE_LEN)%nat;
  wd_mounted : is_mounted d = true ↔ mount_point d ≠ []
}.

(** The mount system call the policy allows: a listed file system, no setuid
    programs and no device files, no programs on FAT, and a target that is one
    safe component below the directory of a user the system knows. *)
Definition mount_call_ok (c : syscall) : Prop :=
  match c with
  | Mount src tgt fs flags opts =>
    fs ∈ allowed_fs_types ∧
    Z.testbit flags 1 = true ∧ Z.testbit flags 2 = true ∧
    (fs = str "vfat" ∨ fs = str "exfat" → Z.testbit flags 3 = true) ∧
    ∃ h uid user gid dir,
      answer h (GetPwUid uid) = Some (user, gid) ∧ safe_component dir ∧
      tgt = trunc MOUNT_POINT_LEN (base ++ str "/" ++ user ++ str "/" ++ dir)
  | _ => True
  end.

(** [short] says that device nodes fit their array; only then are the paths of
    the list known to be distinct. *)
Record Inv (w : World) : Prop := {
  inv_len : (length (devices (md w)) ≤ MAX_DEVICES)%nat;
  inv_wf : Forall wf_dev (devices (md w));
  inv_base : mount_base (md w) = base;
  inv_calls : Forall mount_call_ok (calls w);
  inv_nodup : short → NoDup (dev_path <$> devices (md w))
}.

(** [w] is [w0] after an operation on slot [i], which holds [d]. *)
Record slot (i : nat) (d : Device) (w0 w : World) : Prop := {
  sl_inv : Inv w;
  sl_dev : devices (md w) = <[i := d]> (devices (md w0));
  sl_lt : (i < length (devices (md w0)))%nat;
  sl_flags : (auto_mount (md w), dbus (md w), monitor_handle (md w)) =
             (auto_mount (md w0), dbus (md w0), monitor_handle (md w0));
  sl_path : dev_path <$> devices (md w0) !! i = Some (dev_path d);
  sl_new : ∃ new, calls w = new ++ calls w0
}.

Lemma slot_start i d w :
  Inv w → devices (md w) !! i = Some d → slot i d w w.
Proof.
  intros HI Hd. constructor; try done.
  - by rewrite list_insert_id.
  - by apply lookup_lt_Some in Hd.
  - by rewrite Hd.
  - by exists [].
Qed.

Lemma slot_lookup i d w0 w : slot i d w0 w → devices (md w) !! i = Some d.
Proof.
  intros []. rewrite sl_dev0. by apply list_lookup_insert_eq.
Qed.

Lemma slot_wf i d w0 w : slot i d w0 w → wf_dev d.
Proof.
  intros Hs. pose proof (slot_lookup _ _ _ _ Hs) as Hl.
  pose proof (inv_wf _ (sl_inv _ _ _ _ Hs)) as Hf. rewrite Forall_lookup in Hf. eauto.
Qed.

(** The devices in the other slots, and the paths, are as before. *)
Lemma slot_other i d w0 w j : slot i d w0 w → j ≠ i → devices (md w) !! j = devices (md w0) !! j.
Proof. intros [] Hj. rewrite sl_dev0. by rewrite list_lookup_insert_ne. Qed.

Lemma slot_paths i d w0 w :
  slot i d w0 w → dev_path <$> devices (md w) = dev_path <$> devices (md w0).
Proof.
  intros []. rewrite sl_dev0, list_fmap_insert. apply list_insert_id.
  by rewrite list_lookup_fmap.
Qed.

Lemma find_paths m m' p :
  dev_path <$> devices m = dev_path <$> devices m' →
  mountd_find_device m p = mountd_find_device m' p.
Proof.
  unfold mountd_find_device. generalize (devices m') as l'.
  induction (devices m) as [|d l IH]; intros [|d' l'] E; try done.
  injection E as Ed El. simpl. rewrite Ed. case_decide; [done|].
  specialize (IH l' El).
  destruct (list_find _ l) as [[]|], (list_find _ l') as [[]|]; simplify_eq/=; congruence.
Qed.

Lemma slot_trans i d d' w0 w1 w2 : slot i d w0 w1 → slot i d' w1 w2 → slot i d' w0 w2.
Proof.
  intros H1 H2. pose proof (slot_lookup _ _ _ _ H1) as Hl.
  destruct H1 as [_ E1 L1 F1 P1 [n1 N1]], H2 as [I2 E2 L2 F2 P2 [n2 N2]].
  constructor; try done.
  - by rewrite E2, E1, list_insert_insert_eq.
  - congruence.
  - rewrite Hl in P2. simpl in P2. congruence.
  - exists (n2 ++ n1). by rewrite N2, N1, app_assoc.
Qed.

(** ** Executing operations on a slot *)

Abbreviation wpm := (wp no_fault).

Lemma wp_call i d w0 w c Q :
  slot i d w0 w → mount_call_ok c →
  (∀ w', slot i d w0 w' → calls w' = c :: calls w → md w' = md w → Q (answer (calls w) c) w') →
  wpm (call c) Q w.
Proof.
  intros [[]] Hc HQ. unfold wp, call. apply HQ; [|done..].
  constructor; simpl; try done.
  - constructor; simpl; try done. by constructor.
  - destruct sl_new0 as [new ->]. by exists (c :: new).
Qed.

Lemma wp_get i d w0 w Q : slot i d w0 w → Q d w → wpm (get_dev i) Q w.
Proof. intros Hs HQ. unfold wp, get_dev. by rewrite (slot_lookup _ _ _ _ Hs). Qed.

Lemma wp_set i d w0 w f Q :
  slot i d w0 w → wf_dev (f d) → dev_path (f d) = dev_path d →
  (∀ w', slot i (f d) w0 w' → calls w' = calls w → Q tt w') →
  wpm (set_dev i f) Q w.
Proof.
  intros Hs Hf Hp HQ. pose proof (slot_lookup _ _ _ _ Hs) as Hl.
  pose proof (slot_paths _ _ _ _ Hs) as HP. destruct Hs as [[]].
  assert (Ea : alter f i (devices (md w)) = <[i := f d]> (devices (md w0))).
  { apply list_eq. intros j. destruct (decide (i = j)) as [<-|Hne].
    - by rewrite list_lookup_alter_eq, Hl, list_lookup_insert_eq.
    - by rewrite list_lookup_alter_ne, list_lookup_insert_ne, sl_dev0,
        list_lookup_insert_ne. }
  apply wp_modify, HQ; [|done]. constructor; simpl; try done; [|congruence].
  constructor; simpl; try done.
  - by rewrite length_alter.
  - apply Forall_alter; [done|]. intros d' Hd' _. congruence.
  - intros Hsh. assert (dev_path <$> alter f i (devices (md w)) = dev_path <$> devices (md w)) as ->; [|auto].
    rewrite Ea, HP, list_fmap_insert. apply list_insert_id. rewrite Hp. by rewrite list_lookup_fmap.
Qed.
End Invariant.
