(* ===== verification/MountdProof.v ===== *)
(** * isde-mountd: the operations keep the invariant

    One lemma per function of luks.c, mount_ops.c, platform_linux.c and dbus.c:
    it runs without fault from a state that satisfies the invariant, ends in
    one, and what it did to its device is stated. *)

From S2P Require Import Prelude.
From S2P Require Import CString.
From S2P Require Import CFloat.
From S2P Require Import MountdDevices.
From S2P Require Import MountdOps.
From S2P Require Import MountdBus.
From S2P Require Import MountdSafety.
Open Scope Z_scope.

Section Operations.
Context `{!Kernel} (short : Prop) (base : text).

Abbreviation Inv := (Inv short base).
Abbreviation slot := (slot short base).
Abbreviation wpm := (wp no_fault).

(** [call_step H]: run a call other than mount. *)
Ltac call_with Hs :=
  apply wp_bind;
  match goal with |- wp _ (call ?c) _ _ =>
    eapply (wp_call short base _ _ _ _ c); [exact Hs | |]
  end.
Ltac call_step Hs :=
  call_with Hs; [exact I|];
  clear Hs; intros ? Hs ? ?.

(** Case analysis on an answer. *)
Ltac case_answer :=
  match goal with |- context [answer ?h ?c] =>
    let r := fresh "r" in let E := fresh "Ea" in
    destruct (answer h c) as [r|] eqn:E || destruct (answer h c) eqn:E end.

(** Changes that leave the mount point and the identity of a device alone. *)
Definition fixed (d : Device) :=
  (dev_path d, label d, vendor d, fs_type d, mount_point d, is_mounted d, is_ejectable d,
   is_luks d, luks_uuid d, dm_name d, dm_path d).
Definition luks_only (d d' : Device) : Prop := fixed d' = fixed d.

Lemma luks_only_refl d : luks_only d d.
Proof. done. Qed.

Lemma luks_only_trans d1 d2 d3 : luks_only d1 d2 → luks_only d2 d3 → luks_only d1 d3.
Proof. unfold luks_only. congruence. Qed.

Definition closed (d : Device) : Device :=
  d <| is_unlocked := false |> <| luks_opened_by_us := false |>.

Lemma wf_closed d : wf_dev d → wf_dev (closed d).
Proof. intros []. by constructor. Qed.

Lemma luks_only_closed d : luks_only d (closed d).
Proof. done. Qed.

Lemma wp_luks_close i d w0 w dm n Q :
  slot i d w0 w → (∀ r w', slot i d w0 w' → Q r w') →
  wpm (mountd_luks_close dm n) Q w.
Proof.
  intros Hs HQ. unfold mountd_luks_close. call_step Hs.
  destruct (_ <? 0); [by apply wp_ret, HQ|]. call_step Hs.
  destruct (_ <? 0); by apply wp_ret, HQ.
Qed.

(** The system turned down the call [c], made after [h]. *)
Definition refused (h : list syscall) (c : syscall) : Prop :=
  match c return result c → Prop with
  | CryptInit _ | CryptLoad _ | CryptActivate _ _ => λ r, r < 0
  | BlkidProbeFile _ | BlkidSafeProbe _ => λ r, r = false
  | BlkidLookupType _ => λ r, r = None
  | GetPwUid _ => λ r, r = None
  | Mkdir _ _ => λ r, r ≠ 0 ∧ r ≠ EEXIST
  | Mount _ _ _ _ _ => λ r, r ≠ 0
  | _ => λ _, False
  end (answer h c).

(** One of the calls made between [w0] and [w] was. *)
Definition turned_down (w0 w : World) : Prop :=
  ∃ after c before, calls w = after ++ c :: before ++ calls w0 ∧ refused (before ++ calls w0) c.

Lemma turned_down_now w0 w w' c :
  (∃ new, calls w = new ++ calls w0) → calls w' = c :: calls w → refused (calls w) c →
  turned_down w0 w'.
Proof. intros [new E] E' Hr. exists [], c, new. cbn. rewrite <- E. done. Qed.

Lemma turned_down_more w0 w w' :
  turned_down w0 w → (∃ new, calls w' = new ++ calls w) → turned_down w0 w'.
Proof. intros (a & c & b & E & Hr) [new E']. exists (new ++ a), c, b. by rewrite E', E, app_assoc. Qed.

Lemma wp_luks_open i d w0 w dev dm pass n Q :
  slot i d w0 w →
  (∀ r w', slot i d w0 w' → match r with inl _ => turned_down w0 w' | inr _ => True end → Q r w') →
  wpm (mountd_luks_open dev dm pass n) Q w.
Proof.
  intros Hs HQ. unfold mountd_luks_open.
  do 2 (pose proof (sl_new _ _ _ _ _ _ Hs) as Hnew; call_step Hs;
    match goal with |- context [?r <? 0] => destruct (Z.ltb_spec r 0) end;
    [apply wp_ret, HQ; [done|by eapply turned_down_now]|clear Hnew]).
  pose proof (sl_new _ _ _ _ _ _ Hs) as Hnew. call_step Hs.
  match goal with |- context [?r <? 0] => destruct (Z.ltb_spec r 0) end; [|by apply wp_ret, HQ].
  destruct (_ =? -1); (apply wp_ret, HQ; [done|by eapply turned_down_now]).
Qed.

Lemma wp_wait i d w0 n path : ∀ w (Q : () → World → Prop),
  slot i d w0 w → (∀ w', slot i d w0 w' → Q tt w') → wpm (wait_for_node n path) Q w.
Proof.
  induction n as [|n IH]; intros w Q Hs HQ; simpl; [by apply wp_ret, HQ|].
  call_step Hs. case_answer; [by apply wp_ret, HQ|]. by eapply IH.
Qed.

(** What the call [c] was answered last. *)
Definition last_call (w : World) (P : syscall → Prop) : Prop :=
  ∃ c, head (calls w) = Some c ∧ P c.

Definition is_lookup (c : syscall) : Prop :=
  match c with BlkidLookupType _ => True | _ => False end.

Lemma wp_probe i d w0 w path n Q :
  slot i d w0 w → (0 < n)%nat →
  (∀ t w', slot i d w0 w' →
     match t with Some x => (length x < n)%nat | None => turned_down w0 w' end → Q t w') →
  wpm (mountd_luks_probe_fs path n) Q w.
Proof.
  intros Hs Hn HQ. unfold mountd_luks_probe_fs. apply wp_bind.
  eapply wp_wait; [done|]. clear Hs. intros w1 Hs.
  do 2 (pose proof (sl_new _ _ _ _ _ _ Hs) as Hnew; call_step Hs; case_answer;
    [clear Hnew|apply wp_ret, HQ; [done|by eapply turned_down_now]]).
  pose proof (sl_new _ _ _ _ _ _ Hs) as Hnew. call_step Hs. apply wp_ret, HQ; [done|].
  case_answer; [by apply trunc_fits|by eapply turned_down_now].
Qed.

Lemma wp_close_if_ours i d w0 w Q :
  slot i d w0 w →
  (∀ w', slot i (if is_luks d && luks_opened_by_us d then closed d else d) w0 w' → Q tt w') →
  wpm (close_if_ours i) Q w.
Proof.
  intros Hs HQ. unfold close_if_ours. eapply wp_bind, wp_get; [done|].
  destruct (_ && _); [|by apply wp_ret, HQ].
  eapply wp_bind, wp_luks_close; [done|]. clear Hs. intros r w' Hs.
  eapply wp_set; [done|by eapply wf_closed, slot_wf|done|]. intros w2 Hs2 _. by apply HQ.
Qed.

(** A failed step leaves no container open that was not open before. *)
Definition no_leak (d d' : Device) : Prop :=
  luks_only d d' ∧ (luks_opened_by_us d' = true → luks_opened_by_us d = true).

Lemma wp_probe_inner i d w0 w n Q :
  slot i d w0 w →
  (∀ e w', slot i (if luks_opened_by_us d then closed d else d) w0 w' → turned_down w0 w' →
     Q (inl e) w') →
  (∀ d' w', slot i d' w0 w' → luks_only d d' →
     luks_opened_by_us d' = luks_opened_by_us d → Q (inr tt) w') →
  wpm (probe_inner i n) Q w.
Proof.
  intros Hs HE HQ. unfold probe_inner. eapply wp_bind, wp_get; [done|].
  case_decide.
  2: { apply wp_ret. eapply HQ; [done|apply luks_only_refl|done]. }
  eapply wp_bind, wp_probe; [done|unfold FS_TYPE_LEN; lia|]. clear Hs. intros [t|] w1 Hs Ht.
  - eapply wp_bind, wp_set; [done| |done|].
    { pose proof (slot_wf _ _ _ _ _ _ Hs) as []. by constructor. }
    intros w2 Hs2 _. apply wp_ret. eapply HQ; [done|done|done].
  - apply wp_bind. destruct (luks_opened_by_us d); [|by apply wp_ret, wp_ret, HE].
    pose proof (slot_start short base i d w1 (sl_inv _ _ _ _ _ _ Hs) (slot_lookup _ _ _ _ _ _ Hs)) as Hs1.
    eapply wp_bind, wp_luks_close; [exact Hs1|]. clear Hs1. intros r w' Hs1.
    eapply wp_set; [exact Hs1|by eapply wf_closed, slot_wf|done|]. intros w2 Hs2 _.
    apply wp_ret, HE; [by eapply slot_trans|]. eapply turned_down_more; [exact Ht|apply Hs2].
Qed.

Lemma wp_unlock_luks i d w0 w path pass n Q :
  slot i d w0 w →
  (∀ e d' w', slot i d' w0 w' → no_leak d d' →
     (pass = [] ∨ dm_name d = []) ∧ d' = d ∨ turned_down w0 w' → Q (inl e) w') →
  (∀ d' w', slot i d' w0 w' → luks_only d d' → pass ≠ [] → dm_name d ≠ [] → Q (inr tt) w') →
  wpm (unlock_luks i path pass n) Q w.
Proof.
  intros Hs HE HQ. unfold unlock_luks. eapply wp_bind, wp_get; [done|].
  assert (Hd : no_leak d d) by (split; [apply luks_only_refl|done]).
  case_decide as Hp; [eapply wp_ret, HE; eauto|]. case_decide; [eapply wp_ret, HE; eauto|].
  apply wp_bind. destruct (is_unlocked d).
  - apply wp_ret. eapply wp_probe_inner; [done|..].
    + intros e w' Hs' Ht. eapply HE; [exact Hs'| |by right].
      destruct (luks_opened_by_us d) eqn:Ho; [|done].
      split; [apply luks_only_closed|done].
    + eauto.
  - eapply wp_bind, wp_luks_open; [done|]. clear Hs. intros [e|[]] w1 Hs Ht.
    { apply wp_ret. eapply wp_ret, HE; [done|done|by right]. }
    eapply wp_bind, wp_set; [done| |done|].
    { pose proof (slot_wf _ _ _ _ _ _ Hs) as []. by constructor. }
    intros w2 Hs2 _. apply wp_ret. eapply wp_probe_inner; [done|..].
    + intros e w' Hs' Htd. simpl in Hs'. eapply HE; [exact Hs'| |by right].
      split; [done|done].
    + intros d' w' Hs' Hl _. eapply HQ; [done| |done|done].
      eapply luks_only_trans; [|exact Hl]. done.
Qed.

(** ** Mount *)

Definition is_mkdir (c : syscall) : Prop := match c with Mkdir _ _ => True | _ => False end.
Definition is_getpw (c : syscall) : Prop := match c with GetPwUid _ => True | _ => False end.

Lemma wp_mkdir_from i d w0 mode rest : ∀ pre w (Q : option Z → World → Prop),
  slot i d w0 w →
  (∀ r w', slot i d w0 w' → (r ≠ None → last_call w' is_mkdir ∧ turned_down w0 w') → Q r w') →
  wpm (mkdir_from pre rest mode) Q w.
Proof.
  assert (Hone : ∀ pre w (Q : option Z → World → Prop), slot i d w0 w →
    (∀ r w', slot i d w0 w' → (r ≠ None → last_call w' is_mkdir ∧ turned_down w0 w') → Q r w') →
    wpm (mkdir_fails pre mode) Q w).
  { intros pre w Q Hs HQ. unfold mkdir_fails. pose proof (sl_new _ _ _ _ _ _ Hs) as Hnew.
    call_step Hs. apply wp_ret, HQ; [done|].
    destruct (Z.eqb_spec (answer (calls w) (Mkdir pre mode)) 0), (Z.eqb_spec (answer (calls w) (Mkdir pre mode)) EEXIST); try done.
    intros _. split; [eexists; by rewrite H0|by eapply turned_down_now]. }
  induction rest as [|c rest IH]; intros pre w Q Hs HQ; simpl; [by apply Hone|].
  case_decide; [|by apply IH].
  apply wp_bind, Hone; [done|]. intros [e|] w1 Hs1 Hl; [by apply wp_ret, HQ|by apply IH].
Qed.

Lemma wp_mkdir_p i d w0 w path mode Q :
  slot i d w0 w → path ≠ [] →
  (∀ r w', slot i d w0 w' → (r ≠ None → last_call w' is_mkdir ∧ turned_down w0 w') → Q r w') →
  wpm (mkdir_p path mode) Q w.
Proof.
  intros Hs Hp HQ. unfold mkdir_p. pose proof (trunc_nonempty 512 path ltac:(lia) Hp).
  destruct (trunc 512 path) as [|c rest]; [done|]. by eapply wp_mkdir_from.
Qed.

(** What [mount(2)] was asked and answered. *)
Definition mounted_by (w : World) (src tgt : text) : Prop :=
  ∃ fs flags opts h, calls w = Mount src tgt fs flags opts :: h ∧
    answer h (Mount src tgt fs flags opts) = 0.

Lemma allowed_in fs : is_fs_type_allowed fs = true → fs ∈ allowed_fs_types.
Proof.
  unfold is_fs_type_allowed. rewrite existsb_exists.
  intros (t & Hin & Ht%bool_decide_eq_true). subst. by apply list_elem_of_In.
Qed.

Lemma allowed_iff fs : fs ∈ allowed_fs_types → is_fs_type_allowed fs = true.
Proof.
  intros Hin. unfold is_fs_type_allowed. apply existsb_exists. exists fs.
  split; [by apply list_elem_of_In|by apply bool_decide_eq_true].
Qed.

Lemma wp_plat_mount i d w0 w src tgt fs uid gid n Q :
  slot i d w0 w → is_fs_type_allowed fs = true →
  (∃ h uid user gid dir, answer h (GetPwUid uid) = Some (user, gid) ∧ safe_component dir ∧
     tgt = trunc MOUNT_POINT_LEN (base ++ str "/" ++ user ++ str "/" ++ dir)) →
  (∀ e w', slot i d w0 w' → turned_down w0 w' → Q (inl e) w') →
  (∀ w', slot i d w0 w' → mounted_by w' src tgt → Q (inr tt) w') →
  wpm (plat_mount src tgt fs (bool_decide (fs = str "vfat" ∨ fs = str "exfat")) uid gid n) Q w.
Proof.
  intros Hs Hfs Ht HE HQ. unfold plat_mount. pose proof (sl_new _ _ _ _ _ _ Hs) as Hnew. call_with Hs.
  { split; [by apply allowed_in|]. split; [by destruct (bool_decide _)|].
    split; [by destruct (bool_decide _)|]. split; [|done].
    intros Hfat. by rewrite bool_decide_true. }
  intros w' Hs' Hc _. destruct (negb _) eqn:He.
  { apply negb_true_iff, Z.eqb_neq in He. apply wp_ret, HE; [done|by eapply turned_down_now]. }
  apply wp_ret, HQ; [done|]. unfold mounted_by. rewrite Hc. do 4 eexists. split; [done|].
  apply negb_false_iff, Z.eqb_eq in He. exact He.
Qed.

(** Where a container may be left open: the user or the directory is missing. *)
Definition leak_point (w : World) : Prop := last_call w is_getpw ∨ last_call w is_mkdir.

Definition closed_if_ours (d : Device) : Device :=
  if is_luks d && luks_opened_by_us d then closed d else d.

Lemma wf_mark_mounted mp d : wf_dev d → mp ≠ [] → wf_dev (mark_mounted mp d).
Proof.
  intros [] Hmp. constructor; try done; simpl.
  - apply trunc_fits. unfold MOUNT_POINT_LEN; lia.
  - split; [|done]. intros _. by apply trunc_nonempty; [unfold MOUNT_POINT_LEN; lia|].
Qed.

Lemma wp_mount_fs i d w0 w src fs uid ml el Q :
  slot i d w0 w →
  (∀ e d' w', slot i d' w0 w' →
     d' = closed_if_ours d ∨ (d' = d ∧ (fs = [] ∨ leak_point w')) →
     fs ∉ allowed_fs_types ∨ turned_down w0 w' → Q (inl e) w') →
  (∀ mp w', slot i (mark_mounted mp d) w0 w' → mounted_by w' src mp →
     (length mp < MOUNT_POINT_LEN)%nat → fs ∈ allowed_fs_types → Q (inr (trunc ml mp)) w') →
  wpm (mount_fs i src fs uid ml el) Q w.
Proof.
  intros Hs HE HQ. unfold mount_fs. case_decide as Hfs.
  { eapply wp_ret, HE; [exact Hs|eauto|left]. subst. apply (bool_decide_unpack _). by vm_compute. }
  destruct (is_fs_type_allowed fs) eqn:Ha; simpl.
  2: { eapply wp_bind, wp_close_if_ours; [done|]. intros w1 Hs1.
       eapply wp_ret, HE; [exact Hs1|by left|left]. intros Hin%allowed_iff. congruence. }
  pose proof (sl_new _ _ _ _ _ _ Hs) as Hnew. call_with Hs; [exact I|].
  clear Hs. intros w1 Hs Hc1 _. pose proof (sl_inv _ _ _ _ _ _ Hs) as HI.
  match goal with |- context [answer ?h ?c] => destruct (answer h c) as [[user gid]|] eqn:Epw end.
  2: { eapply wp_ret, HE; [exact Hs| |right; by eapply turned_down_now].
       right. split; [done|]. right. left. eexists. by rewrite Hc1. }
  clear Hnew.
  eapply wp_bind, wp_get; [done|]. apply wp_bind, wp_gets.
  rewrite (inv_base _ _ _ HI). set (mp := trunc MOUNT_POINT_LEN _).
  assert (Hmp : mp ≠ []).
  { apply trunc_nonempty; [unfold MOUNT_POINT_LEN; lia|]. by destruct base. }
  assert (Hml : (length mp < MOUNT_POINT_LEN)%nat)
    by (apply trunc_fits; unfold MOUNT_POINT_LEN; lia).
  eapply wp_bind, wp_mkdir_p; [exact Hs|done|]. clear Hs HI. intros [e|] w2 Hs Hmk.
  { destruct (Hmk ltac:(done)) as [Hlast Htd]. eapply wp_ret, HE; [exact Hs| |by right].
    right. split; [done|]. right. by right. }
  eapply wp_bind, wp_plat_mount; [exact Hs|done| | |]; clear Hs.
  { exists (calls w), uid, user, gid, (sanitize_label (label d) 256).
    split; [done|]. split; [apply sanitize_label_safe|done]. }
  - intros e w3 Hs Htd.
    pose proof (slot_start short base i d w3 (sl_inv _ _ _ _ _ _ Hs) (slot_lookup _ _ _ _ _ _ Hs)) as Hs3.
    call_step Hs3. eapply wp_bind, wp_close_if_ours; [exact Hs3|].
    intros w4 Hs4. eapply wp_ret, HE; [by eapply slot_trans|by left|right].
    eapply turned_down_more; [exact Htd|apply Hs4].
  - intros w3 Hs Hm. eapply wp_bind, wp_set; [exact Hs| |done|].
    { apply wf_mark_mounted; [by eapply slot_wf|done]. }
    intros w4 Hs4 Hc4. apply wp_ret, HQ; [done| |done|by apply allowed_in].
    unfold mounted_by in *. by rewrite Hc4.
Qed.

Lemma opened_closed d : is_luks d = true → luks_opened_by_us (closed_if_ours d) = false.
Proof. intros Hl. unfold closed_if_ours. rewrite Hl. by destruct (luks_opened_by_us d) eqn:?. Qed.

Lemma luks_only_closed_if d : luks_only d (closed_if_ours d).
Proof. unfold closed_if_ours. by destruct (_ && _). Qed.

(** The file system that is to be mounted from a device. *)
Definition fs_of (d : Device) : text := if is_luks d then inner_fs_type d else fs_type d.

(** Why a request to mount [d] is turned down; [d'] is what it leaves of [d]. *)
Definition mount_refusal (pass : text) (w0 w : World) (d d' : Device) : Prop :=
  (is_mounted d = true ∨ (is_luks d = true ∧ (pass = [] ∨ dm_name d = []))) ∧ d' = d ∨
  fs_of d' ∉ allowed_fs_types ∨ turned_down w0 w.

Lemma luks_only_plain d d' : luks_only d d' → is_luks d' = is_luks d ∧ dm_path d' = dm_path d ∧ fs_type d' = fs_type d.
Proof. unfold luks_only, fixed. intros [=]. done. Qed.

Lemma closed_if_plain d : is_luks d = false → closed_if_ours d = d.
Proof. intros E. unfold closed_if_ours. by rewrite E. Qed.

Lemma closed_if_fs d : fs_of (closed_if_ours d) = fs_of d.
Proof. unfold closed_if_ours, fs_of. by destruct (is_luks d) eqn:E, (luks_opened_by_us d) eqn:?; cbn; rewrite E. Qed.

(** The outcome of [mountd_do_mount] on a tracked device [d]. *)
Lemma wp_do_mount i d w path uid pass ml el Q :
  Inv w → mountd_find_device (md w) path = Some i → devices (md w) !! i = Some d →
  (∀ e d' w', slot i d' w w' → luks_only d d' →
     (luks_opened_by_us d' = true →
      luks_opened_by_us d = true ∨ inner_fs_type d' = [] ∨ leak_point w') →
     (is_luks d = false → d' = d) → mount_refusal pass w w' d d' →
     Q (inl e) w') →
  (∀ mp d' w', slot i (mark_mounted mp d') w w' → luks_only d d' → is_mounted d = false →
     (is_luks d = true → pass ≠ [] ∧ dm_name d ≠ []) →
     mounted_by w' (if is_luks d then dm_path d else path) mp →
     (length mp < MOUNT_POINT_LEN)%nat →
     (is_luks d = false → d' = d) → fs_of d' ∈ allowed_fs_types → Q (inr (trunc ml mp)) w') →
  wpm (mountd_do_mount path uid pass ml el) Q w.
Proof.
  intros HI Hf Hd HE HQ. pose proof (slot_start short base i d w HI Hd) as Hs.
  unfold mountd_do_mount. apply wp_bind, wp_gets. rewrite Hf.
  eapply wp_bind, wp_get; [done|].
  destruct (is_mounted d) eqn:Hm.
  { eapply wp_ret, HE; [exact Hs|apply luks_only_refl|auto|done|left; auto]. }
  destruct (is_luks d) eqn:Hl.
  - eapply wp_bind, wp_unlock_luks; [exact Hs|..]; clear Hs.
    + intros e d' w' Hs [Ho Hn] Hc. eapply wp_ret, HE; [exact Hs|done|auto|done|].
      destruct Hc as [[Hc ->]|Hc]; [left; auto|by right; right].
    + intros d1 w1 Hs Ho Hp Hnm. destruct (luks_only_plain _ _ Ho) as (El & Ep & _).
      rewrite Hl in El. eapply wp_bind, wp_get; [exact Hs|].
      assert (Ef : fs_of d1 = inner_fs_type d1) by (unfold fs_of; by rewrite El).
      eapply wp_mount_fs; [exact Hs|..]; clear Hs.
      * intros e d' w' Hs Hc Hr. eapply HE; [exact Hs|..|done|].
        -- eapply luks_only_trans; [exact Ho|].
           destruct Hc as [->|[-> _]]; [apply luks_only_closed_if|done].
        -- intros Hop. destruct Hc as [->|[-> [Hi|Hk]]]; [|auto..].
           by rewrite opened_closed in Hop.
        -- right. destruct Hr as [Hr|]; [left|by right]. rewrite <- Ef in Hr.
           destruct Hc as [->|[-> _]]; [by rewrite closed_if_fs|done].
      * intros mp w' Hs Hmb Hlen Ha. rewrite Ep in Hmb. eapply HQ; try done. by rewrite Ef.
  - assert (Ef : fs_of d = fs_type d) by (unfold fs_of; by rewrite Hl).
    eapply wp_mount_fs; [exact Hs|..]; clear Hs.
    + intros e d' w' Hs Hc Hr. assert (d' = d) as -> by (destruct Hc as [->|[-> _]]; [by apply closed_if_plain|done]).
      eapply HE; [exact Hs|apply luks_only_refl|auto|done|]. right. by rewrite Ef.
    + intros mp w' Hs Hmb Hlen Ha. eapply HQ; try done. by rewrite Ef.
Qed.

(** ** Unmount and eject *)

Definition closed_fully (d : Device) : Device := closed d <| inner_fs_type := [] |>.

Lemma wp_close_after_unmount i d w0 w Q :
  slot i d w0 w →
  (∀ d' w', slot i d' w0 w' → d' = d ∨ d' = closed_fully d → Q tt w') →
  wpm (close_after_unmount i) Q w.
Proof.
  intros Hs HQ. unfold close_after_unmount. eapply wp_bind, wp_get; [done|].
  destruct (_ && _); [|eapply wp_ret, HQ; eauto].
  eapply wp_bind, wp_luks_close; [done|]. clear Hs. intros [e|[]] w1 Hs.
  { eapply wp_ret, HQ; eauto. }
  eapply wp_set; [done| |done|].
  { pose proof (slot_wf _ _ _ _ _ _ Hs) as []. constructor; try done. simpl.
    unfold FS_TYPE_LEN; lia. }
  intros w2 Hs2 _. eapply HQ; eauto.
Qed.

Lemma wf_clear_mounted d : wf_dev d → wf_dev (clear_mounted d).
Proof. intros []. constructor; try done; simpl. unfold MOUNT_POINT_LEN; lia. Qed.

Lemma wp_do_unmount i d w path el Q :
  Inv w → mountd_find_device (md w) path = Some i → devices (md w) !! i = Some d →
  (∀ e w', slot i d w w' → Q (inl e) w') →
  (∀ d' w', slot i d' w w' → is_mounted d = true →
     d' = clear_mounted d ∨ d' = closed_fully (clear_mounted d) →
     Umount (mount_point d) ∈ calls w' → Q (inr tt) w') →
  wpm (mountd_do_unmount path el) Q w.
Proof.
  intros HI Hf Hd HE HQ. pose proof (slot_start short base i d w HI Hd) as Hs.
  unfold mountd_do_unmount. apply wp_bind, wp_gets. rewrite Hf.
  eapply wp_bind, wp_get; [done|].
  destruct (is_mounted d) eqn:Hm; simpl; [|by apply wp_ret, HE].
  call_step Hs. destruct (negb _); [by apply wp_ret, HE|].
  assert (Hin : Umount (mount_point d) ∈ calls w') by (rewrite H0; left).
  clear H0 H1. call_step Hs.
  assert (Hin' : Umount (mount_point d) ∈ calls w'0) by (rewrite H0; by right).
  eapply wp_bind, wp_set; [exact Hs| |done|].
  { by eapply wf_clear_mounted, slot_wf. }
  clear Hs. intros w2 Hs Hc2. rewrite <- Hc2 in Hin'.
  eapply wp_bind, wp_close_after_unmount.
  { eapply slot_start; [apply Hs|by eapply slot_lookup]. }
  intros d' w3 Hs3 Hd'. apply wp_ret. eapply HQ; [by eapply slot_trans|done|done|].
  destruct (sl_new _ _ _ _ _ _ Hs3) as [new ->]. apply elem_of_app. by right.
Qed.

Lemma wp_linux_eject i d w0 w path Q :
  slot i d w0 w → (∀ r w', slot i d w0 w' → Q r w') → wpm (linux_eject path) Q w.
Proof.
  intros Hs HQ. unfold linux_eject. call_step Hs.
  apply wp_bind.
  assert (Hk : ∀ (b : bool) w1, slot i d w0 w1 → wpm (if b then mret true else
    match after_slash path with
    | None => mret false
    | Some basename =>
      fd ← call (OpenWrite (sysfs_delete_path basename));
      if (fd : bool) then call (WriteOne (sysfs_delete_path basename));; mret true
      else mret false
    end) Q w1).
  { intros b w1 Hs1. destruct b; [by apply wp_ret, HQ|].
    destruct (after_slash path); [|by apply wp_ret, HQ].
    call_step Hs1. case_answer; [|by apply wp_ret, HQ].
    call_step Hs1. by apply wp_ret, HQ. }
  case_answer; [|by apply wp_ret, (Hk false)].
  match goal with |- wp _ (call ?c) _ _ =>
    eapply (wp_call short base _ _ _ _ c); [exact Hs | done |] end.
  intros w2 Hs2 _ _. by apply Hk.
Qed.

Lemma Forall_swap_remove {A} (P : A → Prop) i l :
  (i < length l)%nat → Forall P l → Forall P (swap_remove i l).
Proof. intros Hi Hl. rewrite swap_remove_perm by done. by apply Forall_delete. Qed.

(** Removing a tracked device. *)
Lemma wp_remove_device i w path Q :
  Inv w → mountd_find_device (md w) path = Some i →
  (∀ w', Inv w' → devices (md w') = swap_remove i (devices (md w)) → calls w' = calls w →
     (auto_mount (md w'), dbus (md w'), monitor_handle (md w')) =
     (auto_mount (md w), dbus (md w), monitor_handle (md w)) → Q tt w') →
  wpm (mountd_remove_device path) Q w.
Proof.
  intros [] Hf HQ. unfold mountd_remove_device. apply wp_bind, wp_gets. rewrite Hf.
  pose proof (find_Some _ _ _ Hf) as (d & Hd & _). apply lookup_lt_Some in Hd.
  apply wp_modify, HQ; [|done..]. constructor; simpl; try done.
  - rewrite swap_remove_length by done. lia.
  - by apply Forall_swap_remove.
  - intros Hsh. rewrite swap_remove_perm by done.
    rewrite list_fmap_delete. eapply sublist_NoDup; [by apply inv_nodup|].
    apply sublist_delete.
Qed.

Lemma wp_do_eject i d w path el Q :
  Inv w → mountd_find_device (md w) path = Some i → devices (md w) !! i = Some d →
  (∀ e d' w', slot i d' w w' →
     (is_mounted d' = true → d' = d) → Q (inl e) w') →
  (∀ d' w', Inv w' → devices (md w') = swap_remove i (<[i := d']> (devices (md w))) →
     is_mounted d' = false → dev_path d' = dev_path d →
     (∃ new, calls w' = new ++ calls w) →
     (auto_mount (md w'), dbus (md w'), monitor_handle (md w')) =
     (auto_mount (md w), dbus (md w), monitor_handle (md w)) → Q (inr tt) w') →
  wpm (mountd_do_eject linux_eject path el) Q w.
Proof.
  intros HI Hf Hd HE HQ. pose proof (slot_start short base i d w HI Hd) as Hs.
  unfold mountd_do_eject. apply wp_bind, wp_gets. rewrite Hf.
  eapply wp_bind, wp_get; [done|].
  assert (Hrest : ∀ d1 w1, slot i d1 w w1 → is_mounted d1 = false → dev_path d1 = dev_path d →
    wpm (close_after_unmount i;; ok ← linux_eject path;
         if negb ok then fails el (str "Eject failed for " ++ path)
         else mountd_remove_device path;; mret (inr tt)) Q w1).
  { intros d1 w1 Hs1 Hm1 Hp1. eapply wp_bind, wp_close_after_unmount; [exact Hs1|].
    intros d2 w2 Hs2 Hd2.
    assert (Hm2 : is_mounted d2 = false ∧ dev_path d2 = dev_path d) by (by destruct Hd2 as [->| ->]).
    clear Hs1. eapply wp_bind, wp_linux_eject; [exact Hs2|]. clear Hs2. intros r w3 Hs3.
    destruct r; simpl.
    2: { eapply wp_ret, HE; [exact Hs3|]. by rewrite (proj1 Hm2). }
    eapply wp_bind, wp_remove_device; [apply Hs3| |].
    { rewrite <- Hf. apply find_paths. by eapply slot_paths. }
    intros w4 HI4 Hd4 Hc4 Hf4. apply wp_ret. eapply HQ; [done| |apply Hm2|apply Hm2| |].
    - rewrite Hd4. by rewrite (sl_dev _ _ _ _ _ _ Hs3).
    - rewrite Hc4. apply Hs3.
    - rewrite Hf4. apply Hs3. }
  apply wp_bind. destruct (is_mounted d) eqn:Hm.
  - eapply wp_do_unmount; [done..| |].
    + intros e w1 Hs1. by eapply wp_ret, HE.
    + intros d' w1 Hs1 _ Hd' _. eapply Hrest; [exact Hs1|by destruct Hd' as [->| ->]..].
  - apply wp_ret. by eapply Hrest.
Qed.
End Operations.
