(* ===== verification/MountdTheorems.v ===== *)
(** * isde-mountd: theorems

    The invariant holds in every state the daemon reaches, so every mount it
    ever asks for obeys the policy; what mount, unmount, eject and the scan of
    the mount table do; and executions that show where the code falls short. *)

From S2P Require Import Prelude.
From S2P Require Import CString.
From S2P Require Import CFloat.
From S2P Require Import MountdDevices.
From S2P Require Import MountdOps.
From S2P Require Import MountdBus.
From S2P Require Import MountdSafety.
From S2P Require Import MountdProof.
Open Scope Z_scope.

Section Reach.
Context `{!Kernel} (short : Prop) (base : text).

Abbreviation Inv := (Inv short base).
Abbreviation slot := (slot short base).
Abbreviation wpm := (wp no_fault).

(** A program that runs without fault and keeps the invariant. *)
Definition keeps {A} (m : mprog A) : Prop := ∀ w, Inv w → wpm m (fun _ w' => Inv w') w.

Lemma keeps_bind {A B} (m : mprog A) (k : A → mprog B) :
  keeps m → (∀ a, keeps (k a)) → keeps (m ≫= k).
Proof. intros Hm Hk w Hw. eapply wp_bind, wp_mono; [by apply Hm|]. intros a w' ?. by apply Hk. Qed.

Lemma keeps_ret {A} (a : A) : keeps (mret a).
Proof. intros w Hw. by apply wp_ret. Qed.

Lemma keeps_call c : mount_call_ok base c → keeps (call c).
Proof. intros Hc w []. constructor; simpl; try done. by constructor. Qed.

Lemma keeps_gets {A B} (f : World → A) (k : A → mprog B) :
  (∀ w, Inv w → wpm (k (f w)) (fun _ w' => Inv w') w) → keeps (gets f ≫= k).
Proof. intros Hk w Hw. by apply wp_bind, wp_gets, Hk. Qed.

Lemma keeps_emit s : keeps (emit s).
Proof.
  apply keeps_gets. intros w Hw. destruct (negb _); [by apply wp_ret|]. by apply keeps_call.
Qed.

(** ** Tracking *)

Lemma wp_add_device path lbl vnd fs ej w (Q : option nat → World → Prop) :
  Inv w → (short → (length path < DEV_PATH_LEN)%nat) →
  Q None w →
  (∀ i d w', Inv w' → devices (md w') !! i = Some d → is_mounted d = false → Q (Some i) w') →
  wpm (mountd_add_device path lbl vnd fs ej) Q w.
Proof.
  intros HI Hp HN HS. unfold mountd_add_device. apply wp_bind, wp_gets.
  destruct (mountd_find_device (md w) path) as [j|] eqn:Hf; [by apply wp_ret|].
  case_decide as Hl; [by apply wp_ret|].
  set (d := _ <| is_ejectable := ej |>). apply wp_bind, wp_modify, wp_ret.
  assert (Hd : wf_dev d).
  { constructor; simpl; try (by apply trunc_fits; apply Nat.ltb_lt);
      try (by apply Nat.ltb_lt). done. }
  eapply (HS _ d); [|by apply list_lookup_middle|done].
  destruct HI. constructor; simpl; try done.
  - rewrite length_app. simpl. lia.
  - apply Forall_app. split; [done|]. by constructor.
  - intros Hsh. rewrite fmap_app. apply NoDup_app. split; [auto|]. split; [|apply NoDup_singleton].
    intros x Hx. simpl. rewrite list_elem_of_singleton. intros ->.
    rewrite trunc_short in Hx by auto. by eapply find_None.
Qed.

Lemma wf_setup_luks dev node d : wf_dev d → wf_dev (setup_luks_fields dev node d).
Proof.
  intros []. unfold setup_luks_fields.
  destruct (nonempty _); constructor; try done;
    apply (trunc_fits _ _); by apply Nat.ltb_lt.
Qed.

Lemma dev_path_setup_luks dev node d : dev_path (setup_luks_fields dev node d) = dev_path d.
Proof. unfold setup_luks_fields. by destruct (nonempty _). Qed.

Lemma wp_track dev path w (Q : option nat → World → Prop) :
  Inv w → (short → (length path < DEV_PATH_LEN)%nat) →
  Q None w →
  (∀ i d w', Inv w' → devices (md w') !! i = Some d → Q (Some i) w') →
  wpm (track dev path) Q w.
Proof.
  intros HI Hp HN HS. unfold track. eapply wp_bind, wp_add_device; [done..|by apply wp_ret|].
  intros i d w1 HI1 Hd1 Hm1. apply wp_bind, wp_when; intros _.
  - eapply wp_set; [by apply slot_start| | |].
    + apply wf_setup_luks. pose proof (inv_wf _ _ _ HI1) as Hf. rewrite Forall_lookup in Hf. eauto.
    + apply dev_path_setup_luks.
    + intros w2 Hs2 _. eapply wp_ret, HS; [apply Hs2|by eapply slot_lookup].
  - by eapply wp_ret, HS.
Qed.

(** ** Operations from any state *)

Lemma keeps_do_mount path uid pass ml el : keeps (mountd_do_mount path uid pass ml el).
Proof.
  intros w HI. destruct (mountd_find_device (md w) path) as [i|] eqn:Hf.
  - destruct (find_Some _ _ _ Hf) as (d & Hd & _).
    eapply wp_do_mount; [done..| |].
    + intros e d' w' Hs _ _ _ _. apply Hs.
    + intros mp d' w' Hs _ _ _ _ _ _ _. apply Hs.
  - unfold mountd_do_mount. apply wp_bind, wp_gets. rewrite Hf. by apply wp_ret.
Qed.

Lemma keeps_do_unmount path el : keeps (mountd_do_unmount path el).
Proof.
  intros w HI. destruct (mountd_find_device (md w) path) as [i|] eqn:Hf.
  - destruct (find_Some _ _ _ Hf) as (d & Hd & _).
    eapply wp_do_unmount; [done..| |].
    + intros e w' Hs. apply Hs.
    + intros d' w' Hs _ _ _. apply Hs.
  - unfold mountd_do_unmount. apply wp_bind, wp_gets. rewrite Hf. by apply wp_ret.
Qed.

Lemma keeps_do_eject path el : keeps (mountd_do_eject linux_eject path el).
Proof.
  intros w HI. destruct (mountd_find_device (md w) path) as [i|] eqn:Hf.
  - destruct (find_Some _ _ _ Hf) as (d & Hd & _).
    eapply wp_do_eject; [done..| |].
    + intros e d' w' Hs _. apply Hs.
    + intros d' w' HI' _ _ _ _ _. done.
  - unfold mountd_do_eject. apply wp_bind, wp_gets. rewrite Hf. by apply wp_ret.
Qed.

(** ** The monitor *)

Definition node_fits (dev : udev_device) : Prop :=
  ∀ n, u_devnode dev = Some n → short → (length n < DEV_PATH_LEN)%nat.

Lemma keeps_monitor_add dev n :
  (short → (length n < DEV_PATH_LEN)%nat) → keeps (monitor_add dev n).
Proof.
  intros Hn w HI. unfold monitor_add. destruct (is_removable dev); [|by apply wp_ret].
  eapply wp_bind, wp_track; [done..|by apply wp_ret|]. intros i d w1 HI1 Hd1.
  eapply wp_bind, wp_get; [by apply slot_start|].
  eapply wp_bind, wp_mono; [by apply keeps_emit|]. intros ? w2 HI2.
  apply wp_bind, wp_gets. apply wp_when; intros _; [|exact HI2].
  eapply wp_bind, wp_mono; [by apply keeps_do_mount|]. intros ? w3 HI3. by apply wp_ret.
Qed.

Lemma keeps_monitor_change dev n :
  (short → (length n < DEV_PATH_LEN)%nat) → keeps (monitor_change dev n).
Proof.
  intros Hn w HI. unfold monitor_change. destruct (is_removable dev); [|by apply wp_ret].
  apply wp_bind, wp_gets. destruct (mountd_find_device _ _); [by apply wp_ret|].
  eapply wp_bind, wp_track; [done..|by apply wp_ret|]. intros i d w1 HI1 Hd1.
  eapply wp_bind, wp_get; [by apply slot_start|]. by apply keeps_emit.
Qed.

(** A removal takes the device out of the list and closes a container the
    daemon had opened on it. *)
Lemma wp_monitor_remove n w (Q : () → World → Prop) :
  Inv w →
  (mountd_find_device (md w) n = None → Q tt w) →
  (∀ i d w', Inv w' → mountd_find_device (md w) n = Some i → devices (md w) !! i = Some d →
     (∃ d', devices (md w') = swap_remove i (<[i := d']> (devices (md w)))) →
     (is_luks d = true → is_unlocked d = true → luks_opened_by_us d = true →
      CryptInitByName (dm_name d) ∈ calls w') → Q tt w') →
  wpm (monitor_remove n) Q w.
Proof.
  intros HI HN HS. unfold monitor_remove. apply wp_bind, wp_gets.
  destruct (mountd_find_device (md w) n) as [i|] eqn:Hf; [|by apply wp_ret, HN].
  destruct (find_Some _ _ _ Hf) as (d & Hd & _).
  pose proof (slot_start short base i d w HI Hd) as Hs.
  eapply wp_bind, wp_get; [done|].
  assert (Hend : ∀ w1, slot i d w w1 →
    (is_luks d = true → is_unlocked d = true → luks_opened_by_us d = true →
      CryptInitByName (dm_name d) ∈ calls w1) →
    wpm (set_dev i clear_mounted;; mountd_dbus_emit_device_removed n;;
         mountd_remove_device n) Q w1).
  { intros w1 Hs1 Hcl. eapply wp_bind, wp_set; [exact Hs1|by eapply wf_clear_mounted, slot_wf|done|].
    intros w2 Hs2 Hc2. apply wp_bind. unfold mountd_dbus_emit_device_removed, emit.
    apply wp_bind, wp_gets.
    assert (Hk : ∀ w3, slot i (clear_mounted d) w w3 →
      (∃ new, calls w3 = new ++ calls w1) → wpm (mountd_remove_device n) Q w3).
    { intros w3 Hs3 [new Hn3]. eapply wp_remove_device; [apply Hs3| |].
      - rewrite <- Hf. apply find_paths. by eapply slot_paths.
      - intros w4 HI4 Hd4 Hc4 _. eapply HS; [done..| |].
        + exists (clear_mounted d). by rewrite Hd4, (sl_dev _ _ _ _ _ _ Hs3).
        + intros ???. rewrite Hc4, Hn3. apply elem_of_app. auto. }
    destruct (negb _).
    - apply wp_ret, Hk; [done|]. by exists [].
    - eapply (wp_call short base _ _ _ _ (EmitSignal (DeviceRemoved n))); [exact Hs2|exact I|]. intros w3 Hs3 Hc3 _. apply Hk; [done|].
      eexists [_]. by rewrite Hc3, Hc2. }
  apply wp_bind. destruct (is_luks d && is_unlocked d && luks_opened_by_us d) eqn:Ho; simpl.
  - apply wp_bind. unfold mountd_luks_close. apply wp_bind.
    eapply (wp_call short base _ _ _ _ (CryptInitByName (dm_name d))); [exact Hs|exact I|].
    clear Hs. intros w1 Hs Hc1 _.
    assert (Hin : CryptInitByName (dm_name d) ∈ calls w1) by (rewrite Hc1; left).
    destruct (_ <? 0); [by apply wp_ret, wp_ret, Hend|]. apply wp_bind.
    eapply (wp_call short base _ _ _ _ (CryptDeactivate (dm_name d))); [exact Hs|exact I|].
    intros w2 Hs2 Hc2 _. assert (CryptInitByName (dm_name d) ∈ calls w2) by (rewrite Hc2; by right).
    destruct (_ <? 0); by apply wp_ret, wp_ret, Hend.
  - apply wp_ret, Hend; [done|]. intros H1 H2 H3. by rewrite H1, H2, H3 in Ho.
Qed.

Lemma keeps_monitor dev : (∀ d, dev = Some d → node_fits d) → keeps (linux_monitor_dispatch dev).
Proof.
  intros Hn. destruct dev as [dev|]; [|apply keeps_ret]. specialize (Hn dev eq_refl).
  unfold linux_monitor_dispatch. destruct (u_action dev), (u_devnode dev) as [n|] eqn:En;
    try apply keeps_ret.
  specialize (Hn n En). destruct (negb _); [apply keeps_ret|].
  case_decide; [by apply keeps_monitor_add|]. case_decide.
  { intros w HI. by eapply wp_monitor_remove. }
  case_decide; [by apply keeps_monitor_change|apply keeps_ret].
Qed.

(** ** The bus *)

Lemma keeps_handle_method msg : keeps (handle_method msg).
Proof.
  unfold handle_method. destruct (negb _); [apply keeps_ret|].
  destruct (member msg) as [m|]; [|apply keeps_ret].
  destruct (_ && _); [by apply keeps_bind; [apply keeps_call|intros; apply keeps_ret]|].
  destruct (negb _); [apply keeps_ret|].
  apply keeps_bind; [|intros r; apply keeps_bind; [by apply keeps_call|intros; apply keeps_ret]].
  case_decide; [by apply keeps_gets; intros; apply wp_ret|].
  case_decide.
  { unfold handle_mount. destruct (mount_args msg) as [e|[p pass]]; [apply keeps_ret|].
    apply keeps_bind.
    { unfold get_caller_uid. destruct (sender msg); [by apply keeps_call|apply keeps_ret]. }
    intros [u|]; [|apply keeps_ret]. apply keeps_bind; [apply keeps_do_mount|].
    intros [e|mp]; [apply keeps_ret|]. apply keeps_bind; [apply keeps_emit|intros; apply keeps_ret]. }
  case_decide.
  { unfold handle_unmount. destruct (arg_s msg) as [p|]; [|apply keeps_ret].
    apply keeps_bind; [apply keeps_do_unmount|].
    intros [e|[]]; [apply keeps_ret|]. apply keeps_bind; [apply keeps_emit|intros; apply keeps_ret]. }
  case_decide; [|apply keeps_ret].
  unfold handle_eject. destruct (arg_s msg) as [p|]; [|apply keeps_ret].
  apply keeps_bind; [apply keeps_do_eject|]. intros [e|[]]; [apply keeps_ret|].
  do 2 (apply keeps_bind; [apply keeps_emit|intros _]). apply keeps_ret.
Qed.

Lemma keeps_dispatch msgs : keeps (mountd_dbus_dispatch msgs).
Proof.
  induction msgs as [|m msgs IH]; [apply keeps_ret|].
  apply keeps_bind; [apply keeps_handle_method|intros; exact IH].
Qed.

Definition event_fits (e : event) : Prop :=
  match e with EvMonitor (Some d) => node_fits d | _ => True end.

Lemma keeps_run es : Forall event_fits es → keeps (mountd_run es).
Proof.
  induction 1 as [|e es He Hes IH]; [apply keeps_ret|]. simpl.
  apply keeps_bind; [|intros; exact IH]. destruct e as [r|msgs]; simpl.
  - apply keeps_monitor. intros d ->. done.
  - apply keeps_gets. intros w HI. apply wp_when; [|done]. intros _.
    by apply keeps_dispatch.
Qed.

(** ** Start-up *)

Lemma keeps_enumerate devs :
  Forall (fun o => ∀ d, o = Some d → node_fits d) devs → keeps (linux_enumerate_devices devs).
Proof.
  induction 1 as [|[dev|] devs Hd Hds IH]; [apply keeps_ret| |exact IH].
  simpl. apply keeps_bind; [|intros; exact IH]. specialize (Hd dev eq_refl).
  unfold linux_enumerate_one. destruct (negb _); [apply keeps_ret|].
  destruct (is_removable dev); [|apply keeps_ret].
  destruct (u_devnode dev) as [n|] eqn:En; [|apply keeps_ret].
  specialize (Hd n En). intros w HI.
  eapply wp_bind, wp_track; [done..|by apply wp_ret|]. intros. by apply wp_ret.
Qed.

(** A change of the whole array that keeps each device well formed and its path. *)
Lemma Inv_devices w ds :
  Inv w → Forall wf_dev ds → dev_path <$> ds = dev_path <$> devices (md w) →
  Inv (w <| md := (md w) <| devices := ds |> |>).
Proof.
  intros [] Hf Hp. constructor; simpl; try done.
  - rewrite <- (length_fmap dev_path), Hp, length_fmap. done.
  - by rewrite Hp.
Qed.

Lemma fmap_alter_path f (i : nat) (ds : list Device) :
  (∀ d, dev_path (f d) = dev_path d) → dev_path <$> alter f i ds = dev_path <$> ds.
Proof.
  intros Hf. revert i. induction ds as [|d ds IH]; intros [|i]; try done; csimpl;
    [by rewrite Hf|f_equal; apply IH].
Qed.

Lemma scan_line_ok ds line :
  Forall wf_dev ds →
  Forall wf_dev (scan_line ds line) ∧ dev_path <$> scan_line ds line = dev_path <$> ds.
Proof.
  intros Hds. unfold scan_line. destruct (scan_mount_line line) as [[dev mp]|] eqn:E; [|done].
  assert (mp ≠ []).
  { unfold scan_mount_line in E. destruct (scan_word 255 _) as [x r], (scan_word 511 _) as [y r'].
    by destruct x, y; simplify_eq. }
  destruct (line_device ds dev); [|done]. split; [|by apply fmap_alter_path].
  apply Forall_alter; [done|]. intros. by apply wf_mark_mounted.
Qed.

Lemma scan_lines_ok lines : ∀ ds,
  Forall wf_dev ds →
  Forall wf_dev (foldl scan_line ds lines) ∧ dev_path <$> foldl scan_line ds lines = dev_path <$> ds.
Proof.
  induction lines as [|l lines IH]; intros ds Hds; [done|]. simpl.
  destruct (scan_line_ok ds l Hds) as [H1 H2]. destruct (IH _ H1) as [H3 H4].
  split; [done|congruence].
Qed.

Lemma keeps_refresh_luks n : ∀ i w (Q : () → World → Prop),
  Inv w → (i + n ≤ length (devices (md w)))%nat → (∀ w', Inv w' → Q tt w') →
  wpm (refresh_luks i n) Q w.
Proof.
  induction n as [|n IH]; intros i w Q HI Hi HQ; simpl; [by apply wp_ret, HQ|].
  destruct (lookup_lt_is_Some_2 (devices (md w)) i) as [d Hd]; [lia|].
  pose proof (slot_start short base i d w HI Hd) as Hs.
  eapply wp_bind, wp_get; [done|]. apply wp_bind, wp_when; intros _.
  - apply wp_bind. eapply (wp_call short base _ _ _ _ (CryptStatus _)); [exact Hs|exact I|].
    clear Hs. intros w1 Hs _ _. eapply wp_set; [exact Hs| |done|].
    { pose proof (slot_wf _ _ _ _ _ _ Hs) as []. by constructor. }
    intros w2 Hs2 _. apply IH; [apply Hs2| |done].
    rewrite (sl_dev _ _ _ _ _ _ Hs2), length_insert. lia.
  - apply IH; [done|lia|done].
Qed.

Lemma keeps_refresh : keeps mountd_refresh_mount_state.
Proof.
  intros w HI. unfold mountd_refresh_mount_state. apply wp_bind, wp_modify.
  set (w1 := (_ : World)). assert (HI1 : Inv w1).
  { apply Inv_devices; [done| |].
    - apply Forall_fmap. eapply Forall_impl; [apply (inv_wf _ _ _ HI)|].
      intros d. apply wf_clear_mounted.
    - rewrite <- list_fmap_compose. by apply list_fmap_ext. }
  clearbody w1. apply wp_bind, wp_gets.
  eapply wp_bind, keeps_refresh_luks; [done|lia|]. clear w1 HI1. intros w1 HI1.
  eapply wp_bind, wp_mono; [exact (keeps_call ReadMounts I w1 HI1)|].
  intros f w2 HI2. simpl in *.
  destruct f as [file|]; [|by apply wp_ret]. apply wp_modify.
  destruct (scan_lines_ok (fgets_lines 1023 [] file) (devices (md w2))) as [Hf Hp];
    [apply HI2|]. by apply Inv_devices.
Qed.
End Reach.

(** ** The scan of the mount table *)

(** The mount point a line of the table gives to slot [j]. *)
Definition line_hit (ds : list Device) (j : nat) (line : text) : option text :=
  match scan_mount_line line with
  | Some (dev, mp) => if decide (line_device ds dev = Some j) then Some mp else None
  | None => None
  end.

Definition mounted_last (mps : list text) (d : Device) : Device :=
  match last mps with Some mp => mark_mounted mp d | None => d end.

(** What [line_device] looks at. *)
Definition ident (d : Device) := (dev_path d, is_luks d, dm_path d).

Lemma line_device_ident ds ds' dev :
  ident <$> ds = ident <$> ds' → line_device ds dev = line_device ds' dev.
Proof.
  intros E. unfold line_device.
  assert (∀ (P : Device → Prop) `{!∀ d, Decision (P d)},
    (∀ d d', ident d = ident d' → P d ↔ P d') →
    fst <$> list_find P ds = fst <$> list_find P ds') as Hf.
  { intros P ? HP. revert ds' E. induction ds as [|d ds IH]; intros [|d' ds'] E; try done.
    assert (Ed : ident d = ident d') by (csimpl in E; congruence).
    assert (El : ident <$> ds = ident <$> ds') by (csimpl in E; congruence).
    simpl. specialize (HP d d' Ed). repeat case_decide; try tauto; try done.
    specialize (IH ds' El).
    destruct (list_find P ds) as [[]|], (list_find P ds') as [[]|]; simplify_eq/=; congruence. }
  assert (H1 := Hf (fun d => dev_path d = dev) _).
  assert (H2 := Hf (fun d => is_luks d = true ∧ dm_path d ≠ [] ∧ dm_path d = dev) _).
  rewrite <- H2; clear H2.
  2: { intros d d' Hi. injection Hi as E1 E2 E3. by rewrite E2, E3. }
  assert (H1' := H1 ltac:(intros d d' Hi; injection Hi as E1 _ _; simpl; by rewrite E1)). clear H1.
  destruct (list_find _ ds) as [[]|], (list_find _ ds') as [[]|]; simplify_eq/=; congruence.
Qed.

Lemma scan_line_ident ds line : ident <$> scan_line ds line = ident <$> ds.
Proof.
  unfold scan_line. destruct (scan_mount_line line) as [[dev mp]|]; [|done].
  destruct (line_device ds dev) as [i|]; [|done].
  apply list_eq. intros j. rewrite !list_lookup_fmap.
  destruct (decide (i = j)) as [->|Hne].
  - rewrite list_lookup_alter_eq. by destruct (ds !! j).
  - by rewrite list_lookup_alter_ne.
Qed.

Lemma scan_lines_ident ds lines : ident <$> foldl scan_line ds lines = ident <$> ds.
Proof. revert ds. induction lines; intros ds; simpl; [done|]. by rewrite IHlines, scan_line_ident. Qed.

Lemma scan_lines_lookup ds lines j d :
  ds !! j = Some d →
  foldl scan_line ds lines !! j = Some (mounted_last (omap (line_hit ds j) lines) d).
Proof.
  intros Hd. induction lines as [|line lines IH] using rev_ind; [done|].
  rewrite foldl_app, omap_app. simpl. set (ds' := foldl scan_line ds lines) in *.
  assert (E : ident <$> ds' = ident <$> ds) by apply scan_lines_ident.
  unfold scan_line, line_hit at 2. destruct (scan_mount_line line) as [[dev mp]|].
  2: { by rewrite app_nil_r. }
  rewrite (line_device_ident ds' ds) by done.
  destruct (line_device ds dev) as [i|]; [|by rewrite app_nil_r].
  destruct (decide (Some i = Some j)) as [[= ->]|Hne].
  - rewrite list_lookup_alter_eq, IH. unfold mounted_last at 2. rewrite last_snoc. simpl.
    unfold mounted_last. by destruct (last _).
  - rewrite list_lookup_alter_ne by congruence. by rewrite app_nil_r.
Qed.

(** Arrays that differ in what is unlocked only. *)
Definition unlock_only : list Device → list Device → Prop :=
  Forall2 (fun d d' => ∃ u, d' = d <| is_unlocked := u |>).

Lemma unlock_only_refl ds : unlock_only ds ds.
Proof. apply Forall_Forall2_diag, Forall_true. intros d. exists (is_unlocked d). by destruct d. Qed.

Lemma unlock_only_trans ds1 ds2 ds3 :
  unlock_only ds1 ds2 → unlock_only ds2 ds3 → unlock_only ds1 ds3.
Proof.
  apply Forall2_trans. intros d1 d2 d3 [u ->] [v ->]. exists v. by destruct d1.
Qed.

Lemma unlock_only_alter ds i u :
  unlock_only ds (alter (fun d => d <| is_unlocked := u |>) i ds).
Proof.
  apply Forall2_same_length_lookup. split; [by rewrite length_alter|].
  intros j d d' Hd. destruct (decide (i = j)) as [->|Hne].
  - rewrite list_lookup_alter_eq, Hd. intros [= <-]. by exists u.
  - rewrite list_lookup_alter_ne, Hd by done. intros [= <-].
    exists (is_unlocked d). by destruct d.
Qed.

Lemma wp_refresh_luks `{!Kernel} n : ∀ i w (Q : () → World → Prop),
  (i + n ≤ length (devices (md w)))%nat →
  (∀ w', unlock_only (devices (md w)) (devices (md w')) → Q tt w') →
  wp no_fault (refresh_luks i n) Q w.
Proof.
  induction n as [|n IH]; intros i w Q Hi HQ; simpl; [apply wp_ret, HQ, unlock_only_refl|].
  destruct (lookup_lt_is_Some_2 (devices (md w)) i) as [d Hd]; [lia|].
  apply wp_bind. unfold wp at 1, get_dev. rewrite Hd. apply wp_bind, wp_when; intros _.
  - set (u := answer (calls w) (CryptStatus (dm_name d))).
    change (wp no_fault (set_dev i (fun d => d <| is_unlocked := u |>))
      (fun _ s' => wp no_fault (refresh_luks (S i) n) Q s')
      (w <| calls := CryptStatus (dm_name d) :: calls w |>)).
    apply wp_modify, IH; simpl.
    + rewrite length_alter. lia.
    + intros w' Hu. apply HQ. eapply unlock_only_trans; [apply unlock_only_alter|exact Hu].
  - apply IH; [lia|done].
Qed.

Lemma ident_unlock ds ds' : unlock_only ds ds' → ident <$> ds' = ident <$> ds.
Proof. induction 1 as [|d d' ds ds' [u ->] H IH]; [done|]. csimpl. by rewrite IH. Qed.

Lemma wp_refresh_mounts `{!Kernel} w (Q : () → World → Prop) :
  (∀ w' h, (∀ j d, devices (md w) !! j = Some d → ∃ u,
     devices (md w') !! j = Some (mounted_last
       (omap (line_hit (devices (md w)) j)
          (match answer h ReadMounts with Some file => fgets_lines 1023 [] file | None => [] end))
       (clear_mounted d <| is_unlocked := u |>))) → Q tt w') →
  wp no_fault mountd_refresh_mount_state Q w.
Proof.
  intros HQ. unfold mountd_refresh_mount_state. apply wp_bind, wp_modify.
  apply wp_bind, wp_gets. eapply wp_bind, wp_refresh_luks; [lia|]. simpl. intros w1 Hu.
  apply wp_bind.
  assert (Hone : ∀ j d, devices (md w) !! j = Some d → ∃ u,
    devices (md w1) !! j = Some (clear_mounted d <| is_unlocked := u |>)).
  { intros j d Hd.
    destruct (Forall2_lookup_l _ _ _ j (clear_mounted d) Hu) as (d' & Hd' & u & ->).
    - by rewrite list_lookup_fmap, Hd.
    - by exists u. }
  assert (Hid : ident <$> devices (md w1) = ident <$> devices (md w)).
  { rewrite (ident_unlock _ _ Hu), <- list_fmap_compose. by apply list_fmap_ext. }
  unfold wp at 1, call. destruct (answer (calls w1) ReadMounts) as [file|] eqn:Ef.
  - apply wp_modify, (HQ _ (calls w1)). rewrite Ef. simpl. intros j d Hd.
    destruct (Hone j d Hd) as [u Hj]. exists u. rewrite (scan_lines_lookup _ _ _ _ Hj).
    do 2 f_equal. apply list_omap_ext, Forall_Forall2_diag, Forall_true.
    intros line. unfold line_hit. destruct (scan_mount_line line) as [[dev mp]|]; [|done].
    by rewrite (line_device_ident _ _ dev Hid).
  - apply wp_ret, (HQ _ (calls w1)). rewrite Ef. exact Hone.
Qed.
