(* ===== verification/MountdClaims.v ===== *)
(** * isde-mountd: the properties

    Statements about whole runs of the daemon and about single operations,
    with executions against concrete kernels. *)

From S2P Require Import Prelude.
From S2P Require Import CString.
From S2P Require Import CFloat.
From S2P Require Import MountdDevices.
From S2P Require Import MountdOps.
From S2P Require Import MountdBus.
From S2P Require Import MountdSafety.
From S2P Require Import MountdProof.
From S2P Require Import MountdTheorems.
Open Scope Z_scope.

(** A run of the daemon: initialisation and then the events. *)
Definition daemon `{Kernel} (cfg : option (option text * bool)) (bus monitor : bool)
    (devs : list (option udev_device)) (es : list event) : mprog unit :=
  ok ← mountd_init cfg bus monitor devs;
  if (ok : bool) then mountd_run es else skip.

Definition config_base (cfg : option (option text * bool)) : text :=
  match cfg with Some (Some b, _) => b | _ => str "/media" end.

(** Device nodes that fit their array. *)
Definition nodes_fit (devs : list (option udev_device)) (es : list event) : Prop :=
  Forall (fun o => ∀ d, o = Some d → node_fits True d) devs ∧ Forall (event_fits True) es.

Lemma daemon_inv `{Kernel} short cfg bus monitor devs es m0 :
  Forall (fun o => ∀ d, o = Some d → node_fits short d) devs →
  Forall (event_fits short) es →
  wp no_fault (daemon cfg bus monitor devs es)
    (fun _ w => Inv short (config_base cfg) w) (mkWorld m0 []).
Proof.
  intros Hd He. unfold daemon, mountd_init. apply wp_bind.
  apply wp_bind, wp_modify, wp_bind, wp_modify.
  assert (Hi : ∀ b mon, Inv short (config_base cfg) (mkWorld
    ((load_config cfg (mkMountDaemon [] false false (str "/media") false))
       <| dbus := b |> <| monitor_handle := mon |>) [])).
  { intros b mon. destruct cfg as [[[p|] a]|]; constructor; simpl; try done; try lia;
      intros; apply NoDup_nil_2. }
  destruct monitor; simpl.
  - apply wp_bind, wp_modify. eapply wp_bind, wp_mono.
    { by apply (keeps_enumerate short (config_base cfg)), (Hi bus true). }
    intros ? w1 H1. eapply wp_bind, wp_mono; [by apply (keeps_refresh short (config_base cfg))|].
    intros ? w2 H2. apply wp_ret. by apply keeps_run.
  - apply wp_ret, wp_ret. destruct cfg as [[[p|] a]|]; apply (Hi bus false).
Qed.

Lemma no_short_nodes `{Kernel} devs es :
  Forall (fun o => ∀ d, o = Some d → node_fits False d) devs ∧ Forall (event_fits False) es.
Proof.
  split; apply Forall_true.
  - by intros o d _ n _ [].
  - intros [[d|]|]; try done. by intros n _ [].
Qed.

(** C2: whatever the kernel and the libraries answer and whatever events arrive,
    the daemon runs without an access out of bounds, every mount system call it
    makes is one the policy allows (listed file system, nosuid and nodev, noexec
    on FAT, target one safe component below the directory of a user the system
    knows, under the configured base), its list stays within its 64 slots,
    every string fits its array and a device has a mount point exactly while it
    is mounted. *)
Theorem mounts_obey_policy `{Kernel} cfg bus monitor devs es m0 :
  match daemon cfg bus monitor devs es (mkWorld m0 []) with
  | Ok _ w => Forall (mount_call_ok (config_base cfg)) (calls w) ∧
              (length (devices (md w)) ≤ MAX_DEVICES)%nat ∧ Forall wf_dev (devices (md w))
  | Fault _ => False
  end.
Proof.
  destruct (no_short_nodes devs es) as [Hd He].
  pose proof (daemon_inv False cfg bus monitor devs es m0 Hd He) as Hi.
  unfold wp in Hi. destruct (daemon _ _ _ _ _ _) as [[] w|]; [|done].
  by destruct Hi.
Qed.

(** as long as the device nodes udev reports fit their 256 bytes, the
    daemon never tracks a path twice. *)
Theorem device_paths_distinct `{Kernel} cfg bus monitor devs es m0 :
  nodes_fit devs es →
  match daemon cfg bus monitor devs es (mkWorld m0 []) with
  | Ok _ w => NoDup (dev_path <$> devices (md w))
  | Fault _ => False
  end.
Proof.
  intros [Hd He]. pose proof (daemon_inv True cfg bus monitor devs es m0 Hd He) as Hi.
  unfold wp in Hi. destruct (daemon _ _ _ _ _ _) as [[] w|]; [|done].
  by apply (inv_nodup _ _ _ Hi).
Qed.

(** *** Specifications of the operations *)

(** A mount that fails.  A device that is not tracked leaves the daemon as it is.
    Otherwise only the LUKS state of the device itself may have changed (whether
    its container is open, whether the daemon opened it, the file system found
    inside), a device without LUKS is as it was, and a container the daemon opened
    for the request is closed again, except when no file system is recorded for its
    inside or the last call was for the user or the directory.  The reason is one of
    these: the device is mounted already; a LUKS device comes without a passphrase
    or has no mapper name; the file system is not in the list; the system turned
    down a call of this request ([refused]).

    A mount that succeeds: the device was tracked and not mounted, a LUKS device
    came with a passphrase and has a mapper name, its file system (for LUKS that of
    the inside) is in the list, the last call was the mount of its node (of its
    mapper node for LUKS) at the returned path and was answered 0, and what has
    changed is that the device is recorded as mounted there, and for LUKS its LUKS
    state. *)
Definition mount_spec `{Kernel} (w : World) (path pass : text) (r : outcome text)
    (w' : World) : Prop :=
  match r with
  | inl _ =>
      (mountd_find_device (md w) path = None ∧ w' = w) ∨
      ∃ i d d',
        mountd_find_device (md w) path = Some i ∧ devices (md w) !! i = Some d ∧
        devices (md w') = <[i := d']> (devices (md w)) ∧
        luks_only d d' ∧ (is_luks d = false → d' = d) ∧
        (luks_opened_by_us d' = true →
         luks_opened_by_us d = true ∨ inner_fs_type d' = [] ∨ leak_point w') ∧
        mount_refusal pass w w' d d'
  | inr mp => ∃ i d d',
      mountd_find_device (md w) path = Some i ∧ devices (md w) !! i = Some d ∧
      is_mounted d = false ∧ (is_luks d = true → pass ≠ [] ∧ dm_name d ≠ []) ∧
      mounted_by w' (if is_luks d then dm_path d else path) mp ∧
      devices (md w') = <[i := mark_mounted mp d']> (devices (md w)) ∧
      luks_only d d' ∧ (is_luks d = false → d' = d) ∧
      fs_of d' ∈ allowed_fs_types ∧ (length mp < MOUNT_POINT_LEN)%nat
  end.

(** A failed unmount changes nothing; a successful one: the device was mounted,
    its mount point was unmounted, and it is recorded as not mounted; what else
    may have changed is that its LUKS container was closed. *)
Definition unmount_spec (w : World) (path : text) (r : outcome unit) (w' : World) : Prop :=
  match r with
  | inl _ => devices (md w') = devices (md w)
  | inr _ => ∃ i d d',
      mountd_find_device (md w) path = Some i ∧ devices (md w) !! i = Some d ∧
      is_mounted d = true ∧ Umount (mount_point d) ∈ calls w' ∧
      devices (md w') = <[i := d']> (devices (md w)) ∧
      (d' = clear_mounted d ∨ d' = closed_fully (clear_mounted d))
  end.

(** A failed eject keeps every device tracked; a successful one takes the device
    out of the list and leaves every other device as it was, in another order. *)
Definition eject_spec (w : World) (path : text) (r : outcome unit) (w' : World) : Prop :=
  match r with
  | inl _ => dev_path <$> devices (md w') = dev_path <$> devices (md w)
  | inr _ => ∃ i, mountd_find_device (md w) path = Some i ∧
      devices (md w') ≡ₚ delete i (devices (md w))
  end.


(** [mountd_do_unmount] meets [unmount_spec]. *)
Theorem unmount_outcome `{Kernel} short base w path :
  Inv short base w →
  match mountd_do_unmount path 256 w with
  | Ok r w' => unmount_spec w path r w'
  | Fault _ => False
  end.
Proof.
  intros HI. destruct (mountd_find_device (md w) path) as [i|] eqn:Hf.
  2: { unfold mountd_do_unmount, mbind, prog_bind, gets. by rewrite Hf. }
  destruct (find_Some _ _ _ Hf) as (d & Hd & _).
  apply (wp_do_unmount short base i d w path 256 (unmount_spec w path)); [done..| |].
  - intros e w' Hs. simpl. rewrite (sl_dev _ _ _ _ _ _ Hs). by apply list_insert_id.
  - intros d' w' Hs Hm Hd' Hu. exists i, d, d'. split_and!; try done. apply Hs.
Qed.

Lemma delete_insert_id {A} (i : nat) (x : A) (l : list A) : delete i (<[i := x]> l) = delete i l.
Proof. revert i. induction l as [|y l IH]; intros [|i]; simpl; try done. f_equal. apply IH. Qed.

(** [mountd_do_eject] meets [eject_spec]; the device's list entry goes only
    with a successful eject, and a device that is still mounted after a failure
    is as it was before. *)
Theorem eject_outcome `{Kernel} short base w path :
  Inv short base w →
  match mountd_do_eject linux_eject path 256 w with
  | Ok r w' => eject_spec w path r w' ∧ Inv short base w'
  | Fault _ => False
  end.
Proof.
  intros HI. destruct (mountd_find_device (md w) path) as [i|] eqn:Hf.
  2: { unfold mountd_do_eject, mbind, prog_bind, gets. by rewrite Hf. }
  destruct (find_Some _ _ _ Hf) as (d & Hd & _).
  apply (wp_do_eject short base i d w path 256
    (fun r w' => eject_spec w path r w' ∧ Inv short base w')); [done..| |].
  - intros e d' w' Hs _. split; [by eapply slot_paths|apply Hs].
  - intros d' w' HI' Hd' _ _ _ _. split; [|done]. exists i. split; [done|]. rewrite Hd'.
    rewrite swap_remove_perm by (rewrite length_insert; by eapply lookup_lt_Some).
    by rewrite delete_insert_id.
Qed.

(** Each device is mounted where the last line of the table that names its
    node, or the mapper node of its LUKS container, says, and not mounted if no
    line does; nothing else changes but whether it is unlocked. *)
Definition refresh_spec (ds : list Device) (table : option text) (ds' : list Device) : Prop :=
  let lines := match table with Some file => fgets_lines 1023 [] file | None => [] end in
  ∀ j d, ds !! j = Some d → ∃ u,
    ds' !! j = Some (mounted_last (omap (line_hit ds j) lines)
                       (clear_mounted d <| is_unlocked := u |>)).

(** the scan of the mount table meets [refresh_spec] for the table the kernel
    showed. *)
Theorem refresh_reads_mounts `{Kernel} w :
  match mountd_refresh_mount_state w with
  | Ok _ w' => ∃ h, refresh_spec (devices (md w)) (answer h ReadMounts) (devices (md w'))
  | Fault _ => False
  end.
Proof.
  apply (wp_refresh_mounts w (fun _ w' =>
    ∃ h, refresh_spec (devices (md w)) (answer h ReadMounts) (devices (md w')))).
  intros w' h Hh. by exists h.
Qed.

(** a mount request that fails after opening a LUKS container closes it
    again, unless it fails because the caller's user or the mount directory is
    missing or the container's file system has an empty name. *)
Theorem failed_mount_closes_luks `{Kernel} short base w path uid pass i d e w' :
  Inv short base w →
  mountd_find_device (md w) path = Some i → devices (md w) !! i = Some d →
  luks_opened_by_us d = false →
  mountd_do_mount path uid pass MOUNT_POINT_LEN 256 w = Ok (inl e) w' →
  ∃ d', devices (md w') !! i = Some d' ∧
    (luks_opened_by_us d' = true → inner_fs_type d' = [] ∨ leak_point w').
Proof.
  intros HI Hf Hd Ho Hr.
  assert (Hw : wp no_fault (mountd_do_mount path uid pass MOUNT_POINT_LEN 256) (fun r w' =>
    match r with
    | inl _ => ∃ d', devices (md w') !! i = Some d' ∧
        (luks_opened_by_us d' = true → inner_fs_type d' = [] ∨ leak_point w')
    | inr _ => True
    end) w).
  { eapply (wp_do_mount short base i d); [done..| |done].
    intros e' d' w1 Hs _ Hlk. exists d'. split; [by eapply slot_lookup|].
    intros Hop. destruct (Hlk Hop) as [|[|]]; auto. congruence. }
  unfold wp in Hw. by rewrite Hr in Hw.
Qed.

(** ** Executions *)

(** A kernel on which every call succeeds, except that a user may be unknown;
    the bus client ":1.1" is user 1000 and every other client user 1001. *)
Definition probe_kernel (pw : Z → option (text * Z)) (mounts : option text) : Kernel := {|
  answer := fun _ c =>
    match c return result c with
    | CryptInit _ | CryptLoad _ | CryptActivate _ _ | CryptInitByName _
    | CryptDeactivate _ => 0
    | CryptStatus _ => false
    | Stat _ | BlkidProbeFile _ | BlkidSafeProbe _ => true
    | BlkidLookupType _ => Some (str "ext4")
    | GetPwUid uid => pw uid
    | Mkdir _ _ | Rmdir _ | Mount _ _ _ _ _ | Umount _ => 0
    | ReadMounts => mounts
    | OpenDev _ => true
    | IoctlEject _ => false
    | OpenWrite _ => true
    | WriteOne _ => tt
    | GetUnixUser s => Some (if decide (s = str ":1.1") then 1000 else 1001)
    | SendReply _ | EmitSignal _ => tt
    end;
  strerror := fun _ => str "error"
|}.

Definition some_user (uid : Z) : option (text * Z) := Some (str "user", uid).

(** A partition on a USB device. *)
Definition usb_part (action : string) (node : text) (fs : string) : udev_device := {|
  u_action := Some (str action);
  u_devnode := Some node;
  u_devtype := Some (str "partition");
  u_prop := fun p =>
    if decide (p = str "ID_BUS") then Some (str "usb")
    else if decide (p = str "ID_FS_TYPE") then Some (str fs)
    else if decide (p = str "ID_FS_LABEL") then Some (str "../data")
    else None;
  u_parent_disk := None;
  u_removable := None
|}.

Definition plug (node : text) (fs : string) : event :=
  EvMonitor (Some (usb_part "add" node fs)).

Definition method_call (name : string) (from : string) (path : text) (pass : option text) : event :=
  EvBus [{|
    is_method_call := true;
    interface := Some MOUNTD_DBUS_INTERFACE;
    member := Some (str name);
    signature := Some (if pass then str "ss" else str "s");
    arg_s := Some path;
    arg_ss := (fun p => (path, p)) <$> pass;
    sender := Some (str from)
  |}].

Definition observe {A} (r : res World unit) (f : World → A) : option A :=
  match r with Ok _ w => Some (f w) | Fault _ => None end.

Definition m0 : MountDaemon := mkMountDaemon [] false false [] false.

Definition sdb1 : text := str "/dev/sdb1".

(** The replies and signals sent, oldest first. *)
Definition bus_out (w : World) : list (reply + signal) :=
  rev (omap (fun c => match c with
    | SendReply r => Some (inl r)
    | EmitSignal s => Some (inr s)
    | _ => None
    end) (calls w)).

Lemma device_paths_distinct_witness :
  let K := probe_kernel some_user None in
  let es := [plug sdb1 "vfat"; plug (str "/dev/sdc1") "ext4"; plug sdb1 "vfat"] in
  nodes_fit [Some (usb_part "add" (str "/dev/sdd1") "ntfs")] es ∧
  match daemon None true true [Some (usb_part "add" (str "/dev/sdd1") "ntfs")] es (mkWorld m0 []) with
  | Ok _ w => NoDup (dev_path <$> devices (md w))
  | Fault _ => False
  end.
Proof.
  intros K es.
  assert (Hf : nodes_fit [Some (usb_part "add" (str "/dev/sdd1") "ntfs")] es).
  { split.
    - apply Forall_singleton. intros d [= <-] n [= <-] _. apply Nat.ltb_lt. reflexivity.
    - repeat (apply Forall_cons; split; [intros n [= <-] _; apply Nat.ltb_lt; reflexivity|]).
      apply Forall_nil_2. }
  split; [exact Hf|]. apply (@device_paths_distinct K None true true _ es m0 Hf).
Defined.

(** One device, formatted ext4 inside a LUKS container, not mounted. *)
Definition luks_stick : Device :=
  setup_luks_fields (usb_part "add" sdb1 "crypto_LUKS") sdb1
    (empty_device <| dev_path := sdb1 |> <| label := str "../data" |>
                  <| fs_type := str "crypto_LUKS" |>).

Definition one_device (d : Device) : World :=
  mkWorld (mkMountDaemon [d] true true (str "/media") false) [].

Lemma one_device_inv `{Kernel} d : wf_dev d → Inv True (str "/media") (one_device d).
Proof.
  intros Hd. constructor; simpl; [unfold MAX_DEVICES; lia|by constructor|done|constructor|].
  intros _. apply NoDup_singleton.
Qed.

Lemma wf_luks_stick : wf_dev luks_stick.
Proof.
  constructor; try (apply Nat.ltb_lt; reflexivity). split; intros E; [discriminate|].
  by destruct E.
Qed.

Lemma wf_mounted_stick : wf_dev (mark_mounted (str "/media/user/data") luks_stick).
Proof. by apply wf_mark_mounted; [apply wf_luks_stick|]. Qed.


Lemma unmount_outcome_witness :
  let K := probe_kernel some_user None in
  let w := one_device (mark_mounted (str "/media/user/data") luks_stick) in
  Inv True (str "/media") w ∧
  match mountd_do_unmount sdb1 256 w with
  | Ok r w' => unmount_spec w sdb1 r w'
  | Fault _ => False
  end.
Proof.
  intros K w. assert (Hi : Inv True (str "/media") w) by apply one_device_inv, wf_mounted_stick.
  split; [exact Hi|]. apply (@unmount_outcome K True (str "/media") w sdb1 Hi).
Defined.

Lemma eject_outcome_witness :
  let K := probe_kernel some_user None in
  let w := one_device (mark_mounted (str "/media/user/data") luks_stick) in
  Inv True (str "/media") w ∧
  match mountd_do_eject linux_eject sdb1 256 w with
  | Ok r w' => eject_spec w sdb1 r w' ∧ Inv True (str "/media") w'
  | Fault _ => False
  end.
Proof.
  intros K w. assert (Hi : Inv True (str "/media") w) by apply one_device_inv, wf_mounted_stick.
  split; [exact Hi|]. apply (@eject_outcome K True (str "/media") w sdb1 Hi).
Defined.

(** A kernel on which the mount itself fails. *)
Definition refusing_kernel : Kernel := {|
  answer := fun h c =>
    match c return result c with
    | Mount _ _ _ _ _ => 32
    | c' => @answer (probe_kernel some_user None) h c'
    end;
  strerror := fun _ => str "Broken pipe"
|}.

Lemma failed_mount_closes_luks_witness :
  let K := refusing_kernel in
  let w := one_device luks_stick in
  ∃ w', Inv True (str "/media") w ∧ luks_opened_by_us luks_stick = false ∧
    mountd_do_mount sdb1 1000 (str "secret") MOUNT_POINT_LEN 256 w =
      Ok (inl (str "mount failed: Broken pipe")) w' ∧
    ∃ d', devices (md w') !! 0%nat = Some d' ∧
      (luks_opened_by_us d' = true → inner_fs_type d' = [] ∨ leak_point w').
Proof.
  intros K w. eexists. assert (Hi : Inv True (str "/media") w) by apply one_device_inv, wf_luks_stick.
  split; [exact Hi|]. split; [reflexivity|]. split; [vm_compute; reflexivity|].
  apply (@failed_mount_closes_luks K True (str "/media") w sdb1 1000 (str "secret") 0%nat luks_stick
    (str "mount failed: Broken pipe") _ Hi); vm_compute; reflexivity.
Defined.

(** A mount request of a user without a passwd entry leaves the LUKS
    container it opened open: the request fails, and the device is unlocked with
    no call to close it. *)
Theorem luks_left_open :
  let K := probe_kernel (fun _ => None) None in
  observe (daemon None true true []
    [plug sdb1 "crypto_LUKS"; method_call "Mount" ":1.1" sdb1 (Some (str "secret"))] (mkWorld m0 []))
    (fun w => (bus_out w,
               map (fun d => (is_mounted d, is_unlocked d, luks_opened_by_us d)) (devices (md w)),
               existsb (fun c => match c with CryptDeactivate _ => true | _ => false end) (calls w)))
  = Some ([inr (DeviceAdded sdb1 (str "../data") (str "crypto_LUKS"));
           inl (RResult false (str "Cannot resolve UID 1000"))],
          [(false, true, true)], false).
Proof. vm_compute. reflexivity. Qed.

(** Any client of the bus may unmount what another user mounted: user 1000
    mounts, user 1001 unmounts, and the daemon asked for the identity of the
    first only.  The bus policy file leaves the decision to the daemon. *)
Theorem other_user_unmounts :
  let K := probe_kernel some_user None in
  observe (daemon None true true []
    [plug sdb1 "vfat"; method_call "Mount" ":1.1" sdb1 None; method_call "Unmount" ":1.2" sdb1 None]
    (mkWorld m0 []))
    (fun w => (bus_out w, map is_mounted (devices (md w)),
               omap (fun c => match c with GetUnixUser s => Some s | _ => None end) (calls w)))
  = Some ([inr (DeviceAdded sdb1 (str "../data") (str "vfat"));
           inr (DeviceMounted sdb1 (str "/media/user/_._data"));
           inl (RResult true (str "/media/user/_._data"));
           inr (DeviceUnmounted sdb1); inl (RResult true [])],
          [false], [str ":1.1"]).
Proof. vm_compute. reflexivity. Qed.

(** Device nodes of 256 bytes or more are cut when they are stored but not
    when they are looked up: the same node is tracked twice, and its removal is
    not recognised.  Ejecting a partition whose disk name ends in a digit cuts
    the name in the wrong place. *)
Theorem long_and_numbered_nodes :
  let K := probe_kernel some_user None in
  let node := str "/dev/" ++ replicate 251 "x"%char in
  observe (daemon None true true []
    [plug node "vfat"; plug node "vfat"; EvMonitor (Some (usb_part "remove" node "vfat"))] (mkWorld m0 []))
    (fun w => map (fun d => bool_decide (dev_path d = trunc DEV_PATH_LEN node)) (devices (md w)))
  = Some [true; true] ∧
  sysfs_delete_path (str "mmcblk0p1") = str "/sys/block/mmcblk0p/device/delete".
Proof. vm_compute. split; reflexivity. Qed.
