(* ===== verification/WmCore.v ===== *)
(** * isde-wm: state, X requests and geometry
    (platform/X11/wm/src/wm.h, and the geometry of wm.c and frame.c)

    The window manager keeps a list of clients and talks to the X server.  A
    pointer to a client is modelled by its window id, which is unique in the
    list: following a pointer whose client has left the list is a fault.
    Coordinates of a client are 16 bits wide and wrap when they are assigned;
    [int] computations are exact.  The compositor is not built by default and
    not modelled; drawing and window titles leave no trace here. *)

From S2P Require Import Prelude.
From S2P Require Import CFloat.
From stdpp Require Import sorting.
Open Scope Z_scope.

(** ** Data (wm.h, isde-monitor.h) *)

Abbreviation window := Z (only parsing).
Definition ALL_DESKTOPS : Z := 4294967295.

Record MonitorGeom := mkMonitor { mx : Z; my : Z; mwidth : Z; mheight : Z }.

Inductive gravity :=
  | NorthWest | North | NorthEast | West | Center | East
  | SouthWest | South | SouthEast | Static.

Record WmClient := mkClient {
  client : window; frame : window;
  x : Z; y : Z; width : Z; height : Z;
  is_focused : bool; maximized : bool; fullscreen : bool; minimized : bool;
  above : bool; below : bool; modal : bool; sticky : bool;
  skip_taskbar : bool; skip_pager : bool; demands_attention : bool;
  hidden : bool; ignore_unmap : Z; decorated : bool; mapped : bool;
  desktop : Z; transient_for : window;
  save_x : Z; save_y : Z; save_w : Z; save_h : Z;
  c_focus_seq : Z;
  min_w : Z; min_h : Z; max_w : Z; max_h : Z; base_w : Z; base_h : Z;
  inc_w : Z; inc_h : Z; fixed_size : bool; win_gravity : gravity;
  input_hint : bool;
  sync_counter : Z; sync_alarm : Z; sync_value : Z;
  sync_waiting : bool; sync_pending : bool; sync_timer : Z;
  grips : list window   (* empty until the grips are created *)
}.

#[export] Instance client_eta : RecEta WmClient := Build_RecEta _ (fun c =>
  mkClient (client c) (frame c) (x c) (y c) (width c) (height c)
    (is_focused c) (maximized c) (fullscreen c) (minimized c)
    (above c) (below c) (modal c) (sticky c)
    (skip_taskbar c) (skip_pager c) (demands_attention c)
    (hidden c) (ignore_unmap c) (decorated c) (mapped c)
    (desktop c) (transient_for c)
    (save_x c) (save_y c) (save_w c) (save_h c) (c_focus_seq c)
    (min_w c) (min_h c) (max_w c) (max_h c) (base_w c) (base_h c)
    (inc_w c) (inc_h c) (fixed_size c) (win_gravity c) (input_hint c)
    (sync_counter c) (sync_alarm c) (sync_value c)
    (sync_waiting c) (sync_pending c) (sync_timer c) (grips c)).

Inductive drag := DRAG_NONE | DRAG_MOVE | DRAG_RESIZE.
Inductive snap := SNAP_NONE | SNAP_LEFT | SNAP_RIGHT | SNAP_TL | SNAP_TR | SNAP_BL | SNAP_BR.
Inductive edge :=
  | GRIP_TOP | GRIP_BOTTOM | GRIP_LEFT | GRIP_RIGHT | GRIP_TL | GRIP_TR | GRIP_BL | GRIP_BR.

#[export] Instance drag_eq_dec : EqDecision drag.
Proof. solve_decision. Defined.
#[export] Instance snap_eq_dec : EqDecision snap.
Proof. solve_decision. Defined.
#[export] Instance edge_eq_dec : EqDecision edge.
Proof. solve_decision. Defined.

(** The callbacks the modelled parts pass to [wm_timer_add]. *)
Inductive callback := CbReloadPoll | CbOsdHide | CbSyncTimeout.

Inductive frame_btn := FRAME_BTN_MENU | FRAME_BTN_MINIMIZE | FRAME_BTN_MAXIMIZE | FRAME_BTN_CLOSE.
#[export] Instance frame_btn_eq_dec : EqDecision frame_btn.
Proof. solve_decision. Defined.

Record WmTimer := mkTimer { deadline_ms : Z; cb : callback; active : bool }.
#[export] Instance timer_eta : RecEta WmTimer := Build_RecEta _ (fun t =>
  mkTimer (deadline_ms t) (cb t) (active t)).

Definition WM_MAX_TIMERS : nat := 16.

Record Wm := mkWm {
  clients : list WmClient; focused : option window; focus_seq : Z;
  docks : list window;
  desk_rows : Z; desk_cols : Z; num_desktops : Z; current_desktop : Z;
  desk_osd : window; desk_osd_timer : Z; desk_reload_tries : Z;
  switcher_shell : window; switcher_order : list window;
  switcher_visible : Z; switcher_sel : Z; switcher_active : bool;
  win_menu : window; menu_client : option window;
  menu_item_count : Z; menu_item_height : Z;
  btn_press_client : option window; btn_press_btn : option frame_btn;
  btn_press_hover : bool; btn_press_mouse : Z;
  drag_mode : drag; resize_edge : edge; drag_client : option window;
  drag_start_x : Z; drag_start_y : Z; drag_button : Z;
  drag_orig_x : Z; drag_orig_y : Z; drag_orig_w : Z; drag_orig_h : Z;
  snap_preview : window; snap_pending : snap; snap_monitor : nat;
  monitors : list MonitorGeom; screen_w : Z; screen_h : Z;
  title_height : Z; scale_factor : double;
  timers : list WmTimer; last_user_time : Z;
  cascade : option (Z * Z); super_tap_armed : bool;
  running : bool
}.

#[export] Instance wm_eta : RecEta Wm := Build_RecEta _ (fun w =>
  mkWm (clients w) (focused w) (focus_seq w) (docks w)
    (desk_rows w) (desk_cols w) (num_desktops w) (current_desktop w)
    (desk_osd w) (desk_osd_timer w) (desk_reload_tries w)
    (switcher_shell w) (switcher_order w)
    (switcher_visible w) (switcher_sel w) (switcher_active w)
    (win_menu w) (menu_client w) (menu_item_count w) (menu_item_height w)
    (btn_press_client w) (btn_press_btn w) (btn_press_hover w) (btn_press_mouse w)
    (drag_mode w) (resize_edge w) (drag_client w)
    (drag_start_x w) (drag_start_y w) (drag_button w)
    (drag_orig_x w) (drag_orig_y w) (drag_orig_w w) (drag_orig_h w)
    (snap_preview w) (snap_pending w) (snap_monitor w)
    (monitors w) (screen_w w) (screen_h w)
    (title_height w) (scale_factor w) (timers w) (last_user_time w)
    (cascade w) (super_tap_armed w) (running w)).

(** ** The X server *)

Inductive stack_mode := Above | Below.
Inductive protocol := TakeFocus | DeleteWindow.

Inductive net_state :=
  | MaximizedVert | MaximizedHorz | Fullscreen | StAbove | StBelow | Modal | Sticky
  | SkipTaskbar | SkipPager | DemandsAttention | Focused.

Inductive window_type :=
  | TypeNormal | TypeDock | TypeDesktop | TypeSplash | TypeToolbar | TypeMenu
  | TypeNotification | TypeOther.

(** A ConfigureRequest: the fields its mask names. *)
Record configure_request := mkConfigure {
  cr_window : window; cr_x : option Z; cr_y : option Z;
  cr_width : option Z; cr_height : option Z;
  cr_border : option Z; cr_sibling : option window; cr_stack : option Z
}.

Inductive xcall :=
  (* requests *)
  | XMap (w : window) | XUnmap (w : window) | XDestroy (w : window)
  | XMove (w : window) (px py : Z) | XResize (w : window) (pw ph : Z)
  | XFrameGeometry (w : window) (px py pw ph bw : Z)
  | XForward (r : configure_request)
  | XStack (w : window) (sibling : option window) (m : stack_mode)
  | XReparentRoot (w : window) (px py : Z)
  | XSetFocus (w : window) (time : Z) | XTakeFocus (w : window) (time : Z)
  | XDelete (w : window) | XKill (w : window)
  | XWmState (w : window) (st : Z) | XNetWmState (w : window) (st : list net_state)
  | XWmDesktop (w : window) (d : Z) | XFrameExtents (w : window) (l r t b : Z)
  | XConfigureNotify (w : window) (px py pw ph : Z)
  | XActiveWindow (w : window) | XClientList (l : list window) | XStacking (l : list window)
  | XNumDesktops (n : Z) | XCurrentDesktop (d : Z) | XWorkarea (n px py pw ph : Z)
  | XCreate (w : window) (px py pw ph : Z)
  | XGrabPointer | XUngrabPointer | XUngrabKeyboard | XAllowEvents (time : Z)
  | XSyncRequest (w : window) (time value : Z)
  | XArmAlarm (alarm counter value : Z) | XDestroyAlarm (alarm : Z)
  (* requests with an answer *)
  | XGenerateId | XStrut (w : window) | XQueryTree | XTransientFor (w : window)
  | XNormalHints (w : window) | XSupports (w : window) (p : protocol)
  | XMotifHints (w : window) | XWindowType (w : window) | XMonitors
  | XPrimaryMonitor | XDesktopLayout | XGetCurrentDesktop | XGrabKeyboard
  (* other services *)
  | ReadDeskConfig | Now | LockScreen | ToggleStartMenu
  | FontHeight (pad : Z).

Record strut := mkStrut { st_top : Z; st_bottom : Z; st_left : Z; st_right : Z }.

(** WM_NORMAL_HINTS: the parts whose flag is set. *)
Record size_hints := mkHints {
  sh_position : bool;          (* US_POSITION or P_POSITION *)
  sh_min : option (Z * Z); sh_max : option (Z * Z); sh_base : option (Z * Z);
  sh_inc : option (Z * Z); sh_gravity : option gravity
}.

Definition xresult (c : xcall) : Type :=
  match c with
  | XGenerateId => window
  | XStrut _ => option strut
  | XQueryTree => option (list window)
  | XTransientFor _ => option window
  | XNormalHints _ => option size_hints
  | XSupports _ _ => bool
  | XMotifHints _ => option (Z * Z)       (* flags, decorations *)
  | XWindowType _ => window_type
  | XMonitors => list MonitorGeom
  | XPrimaryMonitor => option MonitorGeom
  | XDesktopLayout => option (Z * Z)      (* columns, rows *)
  | XGetCurrentDesktop => Z
  | XGrabKeyboard => bool
  | ReadDeskConfig => option (Z * Z)      (* rows, columns; 0 if absent *)
  | Now => Z
  | FontHeight _ => Z
  | _ => unit
  end.

(** What comes back depends on everything asked so far, latest first. *)
Class XServer := xanswer : ∀ (h : list xcall) (c : xcall), xresult c.

Record World := mkWorld { wm : Wm; xcalls : list xcall }.
#[export] Instance world_eta : RecEta World := Build_RecEta _ (fun w => mkWorld (wm w) (xcalls w)).

Abbreviation wprog := (prog World).

Definition x_ `{XServer} (c : xcall) : wprog (xresult c) := fun w =>
  Ok (xanswer (xcalls w) c) (w <| xcalls := c :: xcalls w |>).

Definition get_wm {A} (f : Wm → A) : wprog A := gets (fun w => f (wm w)).
Definition upd_wm (f : Wm → Wm) : wprog unit := modify (fun w => w <| wm := f (wm w) |>).

Notation "p =: v" := (upd_wm (fun w : Wm => w <| p := v |>))
  (at level 70, no associativity) : c_scope.

(** ** Client pointers *)

Definition find_client (l : list WmClient) (c : window) : option WmClient :=
  snd <$> list_find (fun k => client k = c) l.

(** [*c] *)
Definition deref (c : window) : wprog WmClient := fun w =>
  match find_client (clients (wm w)) c with
  | Some k => Ok k w
  | None => Fault OutOfBounds
  end.

(** Change the client with id [c] in place. *)
Definition upd_client (c : window) (f : WmClient → WmClient) (l : list WmClient) :
    list WmClient :=
  map (fun k => if decide (client k = c) then f k else k) l.

(** Assign through a client pointer. *)
Definition upd (c : window) (f : WmClient → WmClient) : wprog unit :=
  deref c;;
  upd_wm (fun w => w <| clients := upd_client c f (clients w) |>).

(** [for (c = wm->clients; c; c = c->next)]: the body may change clients, not
    the list. *)
Fixpoint for_each (l : list window) (body : window → wprog unit) : wprog unit :=
  match l with
  | [] => skip
  | c :: l' => body c;; for_each l' body
  end.
Definition for_clients (body : window → wprog unit) : wprog unit :=
  l ← get_wm clients;
  for_each (map client l) body.

(** The first client with a property. *)
Definition first_client (P : WmClient → bool) (l : list WmClient) : option window :=
  client ∘ snd <$> list_find (fun k => P k = true) l.

Definition wm_find_client_by_window (l : list WmClient) (w : window) : option window :=
  client <$> find_client l w.
Definition wm_find_client_by_frame (l : list WmClient) (w : window) : option window :=
  client ∘ snd <$> list_find (fun k => frame k = w) l.

(** ** Geometry *)

Definition WM_BORDER_WIDTH : Z := 1.
Definition GRIP_SIZE : Z := 6.

(** [(int)(v * wm->scale_factor + 0.5)] *)
Definition one_half : double := d_of_dec false 5 (-1).
Definition wm_scale (w : Wm) (v : Z) : Z :=
  to_int (dadd (dmul (d_of_Z v) (scale_factor w)) one_half).

Definition frame_total_width (c : WmClient) : Z := width c + 2 * WM_BORDER_WIDTH.
Definition title_of (th : Z) (c : WmClient) : Z := if decorated c then th else 0.
Definition frame_total_height (th : Z) (c : WmClient) : Z :=
  height c + title_of th c + 2 * WM_BORDER_WIDTH.

Definition in_monitor (px py : Z) (m : MonitorGeom) : bool :=
  (mx m <=? px) && (px <? mx m + mwidth m) && (my m <=? py) && (py <? my m + mheight m).

Definition monitor_at_point (ms : list MonitorGeom) (px py : Z) : nat :=
  default 0%nat (fst <$> list_find (fun m => in_monitor px py m = true) ms).

Definition monitor_for_client (ms : list MonitorGeom) (c : WmClient) : nat :=
  monitor_at_point ms (x c + Z.quot (width c) 2) (y c + Z.quot (height c) 2).

(** frame.c: ICCCM size constraints. *)
Definition constrain1 (mn mxx base inc v : Z) : Z :=
  let b := if 0 <? base then base else if 0 <? mn then mn else 0 in
  let v := if (0 <? mn) && (v <? mn) then mn else v in
  let v := if (0 <? mxx) && (mxx <? v) then mxx else v in
  if 1 <? inc then b + Z.quot (v - b) inc * inc else v.

Definition frame_constrain_size (c : WmClient) (w h : Z) : Z * Z :=
  (constrain1 (min_w c) (max_w c) (base_w c) (inc_w c) w,
   constrain1 (min_h c) (max_h c) (base_h c) (inc_h c) h).

(** What the reference point of a gravity takes of the client's size. *)
Definition gravity_dx (g : gravity) (cw : Z) : Z :=
  match g with
  | North | Center | South => Z.quot cw 2
  | NorthEast | East | SouthEast => cw
  | NorthWest | West | SouthWest | Static => 0
  end.
Definition gravity_dy (g : gravity) (ch : Z) : Z :=
  match g with
  | West | Center | East => Z.quot ch 2
  | SouthWest | South | SouthEast => ch
  | NorthWest | North | NorthEast | Static => 0
  end.

Definition frame_gravity_to_frame (th : Z) (c : WmClient) (cx cy : Z) : Z * Z :=
  (cx - WM_BORDER_WIDTH - gravity_dx (win_gravity c) (width c),
   cy - (WM_BORDER_WIDTH + title_of th c) - gravity_dy (win_gravity c) (height c)).

Definition frame_frame_to_gravity (th : Z) (c : WmClient) : Z * Z :=
  (x c + WM_BORDER_WIDTH + gravity_dx (win_gravity c) (width c),
   y c + (WM_BORDER_WIDTH + title_of th c) + gravity_dy (win_gravity c) (height c)).

Definition frame_button_at (th : Z) (c : WmClient) (px py : Z) : option frame_btn :=
  if negb (decorated c) || (py <? 0) || (th <=? py) then None
  else
    let fw := frame_total_width c in
    if (0 <=? px) && (px <? th) then Some FRAME_BTN_MENU
    else if (fw - 3 * th <=? px) && (px <? fw - 2 * th) then Some FRAME_BTN_MINIMIZE
    else if (fw - 2 * th <=? px) && (px <? fw - th) then Some FRAME_BTN_MAXIMIZE
    else if (fw - th <=? px) && (px <? fw) then Some FRAME_BTN_CLOSE
    else None.

Section Core.
Context `{!XServer}.

(** ** Work area (wm.c) *)

(** [(int)strut.top > *top ? ...]; strut values are 32-bit and read as int. *)
Definition check_strut (win : window) (acc : strut) : wprog strut :=
  s ← x_ (XStrut win);
  mret match s with
  | None => acc
  | Some s =>
    mkStrut (Z.max (st_top acc) (s32 (st_top s))) (Z.max (st_bottom acc) (s32 (st_bottom s)))
      (Z.max (st_left acc) (s32 (st_left s))) (Z.max (st_right acc) (s32 (st_right s)))
  end.

Fixpoint check_struts (wins : list window) (acc : strut) : wprog strut :=
  match wins with
  | [] => mret acc
  | w :: wins' => acc ← check_strut w acc; check_struts wins' acc
  end.

Record rect := mkRect { rx : Z; ry : Z; rw : Z; rh : Z }.

Definition wm_get_work_area : wprog rect :=
  l ← get_wm clients;
  acc ← check_struts (map client l) (mkStrut 0 0 0 0);
  tree ← x_ XQueryTree;
  acc ← check_struts (default [] tree) acc;
  w ← get_wm id;
  mret (mkRect (st_left acc) (st_top acc)
    (screen_w w - st_left acc - st_right acc) (screen_h w - st_top acc - st_bottom acc)).

Definition wm_get_primary_monitor : wprog rect :=
  w ← get_wm id;
  pm ← x_ XPrimaryMonitor;
  mret match pm with
  | Some m => mkRect (mx m) (my m) (mwidth m) (mheight m)
  | None => mkRect 0 0 (screen_w w) (screen_h w)
  end.

(** The common part of a monitor and the work area. *)
Definition intersect (m : MonitorGeom) (g : rect) : rect :=
  let x0 := Z.max (mx m) (rx g) in
  let y0 := Z.max (my m) (ry g) in
  let x1 := Z.min (mx m + mwidth m) (rx g + rw g) in
  let y1 := Z.min (my m + mheight m) (ry g + rh g) in
  mkRect x0 y0 (Z.max (x1 - x0) 0) (Z.max (y1 - y0) 0).

Definition get_monitor (i : nat) : wprog MonitorGeom := fun w =>
  match monitors (wm w) !! i with Some m => Ok m w | None => Fault OutOfBounds end.

Definition wm_get_monitor_work_area (i : nat) : wprog rect :=
  g ← wm_get_work_area;
  m ← get_monitor i;
  mret (intersect m g).

(** ** Frames (frame.c) *)

(** The size fields [frame_read_size_hints] stores. *)
Definition set_hints (h : option size_hints) (k : WmClient) : WmClient :=
  let '(mnw, mnh) := default (0, 0) (h ≫= sh_min) in
  let '(mxw, mxh) := default (0, 0) (h ≫= sh_max) in
  let '(bw, bh) := default (0, 0) (h ≫= sh_base) in
  let '(iw, ih) := default (1, 1) (h ≫= sh_inc) in
  k <| min_w := mnw |> <| min_h := mnh |> <| max_w := mxw |> <| max_h := mxh |>
    <| base_w := bw |> <| base_h := bh |>
    <| inc_w := Z.max iw 1 |> <| inc_h := Z.max ih 1 |>
    <| fixed_size := (0 <? mnw) && (0 <? mxw) && (mnw =? mxw) &&
                     (0 <? mnh) && (0 <? mxh) && (mnh =? mxh) |>
    <| win_gravity := default NorthWest (h ≫= sh_gravity) |>.

Definition frame_read_size_hints (k : WmClient) : wprog WmClient :=
  h ← x_ (XNormalHints (client k));
  mret (set_hints h k).

Definition border_px (w : Wm) (c : WmClient) : Z :=
  to_int (dmul (d_of_Z (if maximized c then 0 else WM_BORDER_WIDTH)) (scale_factor w)).

Definition frame_set_extents (c : window) : wprog unit :=
  w ← get_wm id;
  k ← deref c;
  if negb (decorated k) then x_ (XFrameExtents c 0 0 0 0)
  else
    let bw := border_px w k in
    x_ (XFrameExtents c bw bw (title_height w + bw) bw).

Definition frame_send_configure_notify (c : window) : wprog unit :=
  w ← get_wm id;
  k ← deref c;
  let bw := border_px w k in
  x_ (XConfigureNotify c (s16 (x k + bw)) (s16 (y k + title_of (title_height w) k + bw))
        (width k) (height k)).

(** The rectangles of the eight grips, in the order of the array. *)
Definition grip_rects (fw fh g th : Z) : list rect :=
  let client_h := fh - th in
  [mkRect 0 0 0 0;
   mkRect g (fh - g) (fw - 2 * g) g;
   mkRect 0 th g (client_h - g);
   mkRect (fw - g) th g (client_h - g);
   mkRect 0 0 0 0;
   mkRect 0 0 0 0;
   mkRect 0 (fh - g) g g;
   mkRect (fw - g) (fh - g) g g].

Definition place_grip (win : window) (r : rect) : wprog unit :=
  if (rw r <? 1) || (rh r <? 1) then x_ (XUnmap win)
  else
    x_ (XMap win);;
    x_ (XFrameGeometry win (rx r) (ry r) (rw r) (rh r) 0);;
    x_ (XStack win None Above).

Definition frame_update_grips (c : window) : wprog unit :=
  w ← get_wm id;
  k ← deref c;
  let th := title_height w in
  let rs := grip_rects (frame_total_width k) (frame_total_height th k) (wm_scale w GRIP_SIZE) th in
  foldr (fun gr m => place_grip (fst gr) (snd gr);; m) skip (zip (grips k) rs).

Definition frame_configure (c : window) : wprog unit :=
  w ← get_wm id;
  k ← deref c;
  let th := title_height w in
  x_ (XFrameGeometry (frame k) (x k) (y k) (frame_total_width k) (frame_total_height th k)
        (border_px w k));;
  x_ (XMove c WM_BORDER_WIDTH (WM_BORDER_WIDTH + title_of th k));;
  x_ (XResize c (width k) (height k));;
  when (bool_decide (grips k ≠ [])) (frame_update_grips c);;
  frame_set_extents c;;
  frame_send_configure_notify c.

(** ** Timers (wm.c) *)

Definition wm_now_ms : wprog Z := x_ Now.

Fixpoint free_slot (ts : list WmTimer) : option nat :=
  match ts with
  | [] => None
  | t :: ts' => if active t then S <$> free_slot ts' else Some O
  end.

Definition wm_timer_add (ms : Z) (f : callback) : wprog Z :=
  ts ← get_wm timers;
  match free_slot ts with
  | None => mret (-1)
  | Some i =>
    now ← wm_now_ms;
    timers =: <[i := mkTimer (u64 (now + ms)) f true]> ts;;
    mret (Z.of_nat i)
  end.

Definition wm_timer_remove (id : Z) : wprog unit :=
  when ((0 <=? id) && (id <? Z.of_nat WM_MAX_TIMERS))
    (upd_wm (fun w => w <| timers := alter (fun t => t <| active := false |>) (Z.to_nat id) (timers w) |>)).

(** The loop over the timers in [wm_timer_next_timeout]. *)
Fixpoint next_timeout (now min_ms : Z) (ts : list WmTimer) : Z :=
  match ts with
  | [] => min_ms
  | t :: ts' =>
    if active t then
      let remain := s64 (deadline_ms t - now) in
      if remain <=? 0 then 0
      else next_timeout now (if s32 remain <? min_ms then s32 remain else min_ms) ts'
    else next_timeout now min_ms ts'
  end.

Definition wm_timer_next_timeout : wprog Z :=
  now ← wm_now_ms;
  ts ← get_wm timers;
  mret (next_timeout now 50 ts).

(** ** EWMH properties (ewmh.c) *)

Definition wm_set_wm_state (c : window) (st : Z) : wprog unit := x_ (XWmState c st).

Definition net_states (k : WmClient) : list net_state :=
  (if maximized k then [MaximizedVert; MaximizedHorz] else []) ++
  (if fullscreen k then [Fullscreen] else []) ++
  (if above k then [StAbove] else []) ++ (if below k then [StBelow] else []) ++
  (if modal k then [Modal] else []) ++ (if sticky k then [Sticky] else []) ++
  (if skip_taskbar k then [SkipTaskbar] else []) ++
  (if skip_pager k then [SkipPager] else []) ++
  (if demands_attention k then [DemandsAttention] else []) ++
  (if is_focused k then [Focused] else []).

Definition wm_update_net_wm_state (c : window) : wprog unit :=
  k ← deref c;
  x_ (XNetWmState c (net_states k)).

(** Clients that are not transient, as the two list properties show them. *)
Definition listed (l : list WmClient) : list WmClient :=
  filter (fun k => transient_for k = 0) l.

Definition wm_ewmh_update_client_list : wprog unit :=
  l ← get_wm clients;
  x_ (XClientList (map client (listed l))).

(** [cmp_stacking(a, b) <= 0] *)
Definition stacks_before (a b : WmClient) : Prop :=
  if eqb (below a) (below b) then
    if eqb (above a) (above b) then c_focus_seq a ≤ c_focus_seq b
    else above a = false
  else below a = true.
#[export] Instance stacks_before_dec a b : Decision (stacks_before a b).
Proof. unfold stacks_before. repeat case_match; apply _. Defined.

Definition wm_ewmh_update_client_list_stacking : wprog unit :=
  l ← get_wm clients;
  x_ (XStacking (map client (merge_sort stacks_before (listed l)))).

Definition wm_ewmh_update_active : wprog unit :=
  f ← get_wm focused;
  x_ (XActiveWindow (default 0 f)).

Definition wm_ewmh_update_workarea : wprog unit :=
  g ← wm_get_work_area;
  n ← get_wm num_desktops;
  x_ (XWorkarea n (rx g) (ry g) (rw g) (rh g)).
End Core.
