(* ===== verification/WmPlace.v ===== *)
(** * isde-wm: placing, snapping, resizing
    (platform/X11/wm/src/placement.c, and the drag, snap, maximize and resize
    parts of wm.c)

    [c->x = e] stores 16 bits: every store is wrapped with [s16] or [u16].
    [c->width] and [c->height] are unsigned, so a negative difference wraps to
    a large size. *)

From S2P Require Import Prelude.
From S2P Require Import CFloat.
From S2P Require Import WmCore.
Open Scope Z_scope.

Definition set_x (v : Z) (k : WmClient) : WmClient := k <| x := s16 v |>.
Definition set_y (v : Z) (k : WmClient) : WmClient := k <| y := s16 v |>.
Definition set_width (v : Z) (k : WmClient) : WmClient := k <| width := u16 v |>.
Definition set_height (v : Z) (k : WmClient) : WmClient := k <| height := u16 v |>.

(** [if (b) k = f(k)] *)
Definition on {A} (b : bool) (f : A → A) (k : A) : A := if b then f k else k.

Definition save_geometry (k : WmClient) : WmClient :=
  k <| save_x := x k |> <| save_y := y k |> <| save_w := width k |> <| save_h := height k |>.
Definition restore_geometry (k : WmClient) : WmClient :=
  k <| x := save_x k |> <| y := save_y k |> <| width := save_w k |> <| height := save_h k |>.

(** Fill a work area: what maximizing does. *)
Definition fill_area (th : Z) (a : rect) (k : WmClient) : WmClient :=
  let k := set_y (ry a) (set_x (rx a) k) in
  set_height (rh a - title_of th k - 2 * WM_BORDER_WIDTH)
    (set_width (rw a - 2 * WM_BORDER_WIDTH) k).

(** ** placement.c *)

(** The body of [clamp_to_work_area], on the client. *)
Definition clamp_client (th : Z) (a : rect) (k : WmClient) : WmClient :=
  let max_cw := Z.max (rw a - 2 * WM_BORDER_WIDTH) 1 in
  let max_ch := Z.max (rh a - title_of th k - 2 * WM_BORDER_WIDTH) 1 in
  let k := on (max_cw <? width k) (set_width max_cw) k in
  let k := on (max_ch <? height k) (set_height max_ch) k in
  let fw := frame_total_width k in
  let fh := frame_total_height th k in
  let k := on (rx a + rw a <? x k + fw) (set_x (rx a + rw a - fw)) k in
  let k := on (ry a + rh a <? y k + fh) (set_y (ry a + rh a - fh)) k in
  let k := on (x k <? rx a) (set_x (rx a)) k in
  on (y k <? ry a) (set_y (ry a)) k.

Definition CASCADE_STEP : Z := 24.

(** Where the next cascaded window goes. *)
Definition cascade_next (a : rect) (p : Z * Z) : Z * Z :=
  let px := fst p + CASCADE_STEP in
  let py := snd p + CASCADE_STEP in
  if (rx a + Z.quot (rw a * 2) 3 <? px) || (ry a + Z.quot (rh a * 2) 3 <? py)
  then (rx a, ry a) else (px, py).

Section Place.
Context `{!XServer}.

(** [frame_create] places a client before it joins the list: these operations
    work on its record. *)
Definition clamp_to_work_area (k : WmClient) : wprog WmClient :=
  a ← wm_get_work_area;
  th ← get_wm title_height;
  mret (clamp_client th a k).

(** Centre a client over its parent's frame. *)
Definition centre_over (th : Z) (parent k : WmClient) : WmClient :=
  let parent_cx := x parent + Z.quot (frame_total_width parent) 2 in
  let parent_cy := y parent + Z.quot (frame_total_height th parent) 2 in
  let k := set_x (parent_cx - Z.quot (frame_total_width k) 2) k in
  set_y (parent_cy - Z.quot (frame_total_height th k) 2) k.

Definition place_transient (k : WmClient) : wprog (option WmClient) :=
  if transient_for k =? 0 then mret None
  else
    l ← get_wm clients;
    match find_client l (transient_for k) with
    | None => mret None
    | Some parent =>
      th ← get_wm title_height;
      k ← clamp_to_work_area (centre_over th parent k);
      mret (Some k)
    end.

(** The static variables of [place_cascade] are the field [cascade]. *)
Definition place_cascade (k : WmClient) : wprog WmClient :=
  a ← wm_get_work_area;
  st ← get_wm cascade;
  let p := default (rx a, ry a) st in
  cascade =: Some (cascade_next a p);;
  clamp_to_work_area (set_y (snd p) (set_x (fst p) k)).

Definition wm_place_client (k : WmClient) : wprog WmClient :=
  t ← x_ (XTransientFor (client k));
  let k := k <| transient_for := default 0 t |> in
  placed ← place_transient k;
  match placed with
  | Some k => mret k
  | None =>
    h ← x_ (XNormalHints (client k));
    if default false (sh_position <$> h) then clamp_to_work_area k
    else place_cascade k
  end.

(** ** Maximize, fullscreen *)

Definition wm_maximize_client (c : window) : wprog unit :=
  k ← deref c;
  (if maximized k then
     upd c (fun k => (restore_geometry k) <| maximized := false |>)
   else
     upd c save_geometry;;
     ms ← get_wm monitors;
     k ← deref c;
     a ← wm_get_monitor_work_area (monitor_for_client ms k);
     th ← get_wm title_height;
     upd c (fun k => (fill_area th a k) <| maximized := true |>));;
  frame_configure c;;
  wm_update_net_wm_state c.

Definition wm_fullscreen_client (c : window) (enable : bool) : wprog unit :=
  k ← deref c;
  (if enable && negb (fullscreen k) then
     upd c save_geometry;;
     ms ← get_wm monitors;
     m ← get_monitor (monitor_for_client ms k);
     upd c (fun k => k <| x := s16 (mx m) |> <| y := s16 (my m) |>
        <| width := u16 (mwidth m) |> <| height := u16 (mheight m) |> <| fullscreen := true |>);;
     k ← deref c;
     x_ (XFrameGeometry (frame k) (x k) (y k) (width k) (height k) 0);;
     x_ (XMove c 0 0);;
     x_ (XResize c (width k) (height k));;
     x_ (XStack (frame k) None Above);;
     x_ (XFrameExtents c 0 0 0 0)
   else if negb enable && fullscreen k then
     upd c (fun k => (restore_geometry k) <| fullscreen := false |>);;
     frame_configure c
   else skip);;
  wm_update_net_wm_state c.

(** ** Monitors *)

(** The loop that looks for the monitor whose centre is nearest. *)
Fixpoint nearest (px py : Z) (i : nat) (best : Z * nat) (ms : list MonitorGeom) : nat :=
  match ms with
  | [] => snd best
  | m :: ms' =>
    let cx := mx m + Z.quot (mwidth m) 2 in
    let cy := my m + Z.quot (mheight m) 2 in
    let d := (px - cx) * (px - cx) + (py - cy) * (py - cy) in
    nearest px py (S i) (if d <? fst best then (d, i) else best) ms'
  end.
Definition INT_MAX : Z := 2147483647.

(** Keep a frame on the monitor [m], by moving it only. *)
Definition pull_onto (th : Z) (m : MonitorGeom) (k : WmClient) : WmClient :=
  let fw := frame_total_width k in
  let fh := frame_total_height th k in
  let k := on (mx m + mwidth m <? x k + fw) (set_x (mx m + mwidth m - fw)) k in
  let k := on (my m + mheight m <? y k + fh) (set_y (my m + mheight m - fh)) k in
  let k := on (x k <? mx m) (set_x (mx m)) k in
  on (y k <? my m) (set_y (my m)) k.

Definition rescue_one (c : window) : wprog unit :=
  k ← deref c;
  ms ← get_wm monitors;
  let cx := x k + Z.quot (width k) 2 in
  let cy := y k + Z.quot (height k) 2 in
  if existsb (in_monitor cx cy) ms then skip
  else
    let mon := nearest cx cy 0 (INT_MAX, 0%nat) ms in
    target ← get_monitor mon;
    th ← get_wm title_height;
    (if maximized k then
       a ← wm_get_monitor_work_area mon;
       upd c (fill_area th a)
     else upd c (pull_onto th target));;
    frame_configure c.

Definition rescue_orphaned_clients : wprog unit := for_clients rescue_one.

(** ** Snapping *)

Definition SNAP_THRESHOLD : Z := 8.

Definition snap_zone (m : MonitorGeom) (px py : Z) : snap :=
  let t := SNAP_THRESHOLD in
  let at_left := px <=? mx m + t in
  let at_right := mx m + mwidth m - t - 1 <=? px in
  let at_top := py <=? my m + t in
  let at_bottom := my m + mheight m - t - 1 <=? py in
  if at_left && at_top then SNAP_TL
  else if at_right && at_top then SNAP_TR
  else if at_left && at_bottom then SNAP_BL
  else if at_right && at_bottom then SNAP_BR
  else if at_left then SNAP_LEFT
  else if at_right then SNAP_RIGHT
  else SNAP_NONE.

Definition detect_snap_zone (px py : Z) : wprog snap :=
  ms ← get_wm monitors;
  m ← get_monitor (monitor_at_point ms px py);
  mret (snap_zone m px py).

Definition snap_rect (a : rect) (zone : snap) : rect :=
  if (rw a <=? 0) || (rh a <=? 0) then mkRect 0 0 0 0
  else
    let w2 := Z.quot (rw a) 2 in
    let h2 := Z.quot (rh a) 2 in
    match zone with
    | SNAP_LEFT => mkRect (rx a) (ry a) w2 (rh a)
    | SNAP_RIGHT => mkRect (rx a + w2) (ry a) (rw a - w2) (rh a)
    | SNAP_TL => mkRect (rx a) (ry a) w2 h2
    | SNAP_TR => mkRect (rx a + w2) (ry a) (rw a - w2) h2
    | SNAP_BL => mkRect (rx a) (ry a + h2) w2 (rh a - h2)
    | SNAP_BR => mkRect (rx a + w2) (ry a + h2) (rw a - w2) (rh a - h2)
    | SNAP_NONE => mkRect 0 0 0 0
    end.

Definition snap_geometry (zone : snap) (mon : nat) : wprog rect :=
  a ← wm_get_monitor_work_area mon;
  mret (snap_rect a zone).

Definition snap_preview_show (zone : snap) (mon : nat) : wprog unit :=
  r ← snap_geometry zone mon;
  if (rw r <=? 0) || (rh r <=? 0) then skip
  else
    let px := rx r + 2 in
    let py := ry r + 2 in
    let pw := Z.max (rw r - 4) 1 in
    let ph := Z.max (rh r - 4) 1 in
    cur ← get_wm snap_preview;
    if cur =? 0 then
      win ← x_ XGenerateId;
      snap_preview =: win;;
      x_ (XCreate win px py pw ph);;
      x_ (XMap win)
    else
      x_ (XMove cur px py);; x_ (XResize cur pw ph).

Definition snap_preview_hide : wprog unit :=
  win ← get_wm snap_preview;
  when (negb (win =? 0)) (x_ (XDestroy win);; snap_preview =: 0);;
  snap_pending =: SNAP_NONE.

Definition apply_snap (c : window) (zone : snap) (mon : nat) : wprog unit :=
  r ← snap_geometry zone mon;
  th ← get_wm title_height;
  upd c (fun k => set_height (rh r - th) (set_width (rw r) (set_y (ry r) (set_x (rx r) (save_geometry k)))));;
  frame_configure c.
End Place.
