(* ===== verification/WmDesk.v ===== *)
(** * isde-wm: focus, stacking, client life cycle, desktops
    (platform/X11/wm/src/wm.c, desktops.c, switcher.c and frame.c)

    Title handling, painting and theme changes leave no trace in the model. *)

From S2P Require Import Prelude.
From S2P Require Import CFloat.
From S2P Require Import WmCore.
From S2P Require Import WmPlace.
From stdpp Require Import sorting.
Open Scope Z_scope.

(** [c->desktop == d || c->desktop == 0xFFFFFFFF] *)
Definition on_desktop (d : Z) (k : WmClient) : bool :=
  (desktop k =? d) || (desktop k =? ALL_DESKTOPS).

(** The client with the largest [focus_seq]; the first one wins a tie. *)
Definition mru_step (best : option WmClient) (k : WmClient) : option WmClient :=
  match best with
  | None => Some k
  | Some b => if c_focus_seq b <? c_focus_seq k then Some k else Some b
  end.
Definition most_recent (l : list WmClient) : option WmClient := foldl mru_step None l.

Section Clients.
Context `{!XServer}.

(** ** Stacking *)

(** [c->frame && c->mapped] *)
Definition shown (k : WmClient) : bool := negb (frame k =? 0) && mapped k.

Definition restack_below (c : window) : wprog unit :=
  k ← deref c;
  when (shown k && below k) (x_ (XStack (frame k) None Below)).
Definition restack_above (c : window) : wprog unit :=
  k ← deref c;
  when (shown k && above k) (x_ (XStack (frame k) None Above)).
Definition restack_modal (c : window) : wprog unit :=
  k ← deref c;
  when (shown k && modal k && negb (transient_for k =? 0))
    (l ← get_wm clients;
     match find_client l (transient_for k) with
     | Some parent => when (shown parent) (x_ (XStack (frame k) (Some (frame parent)) Above))
     | None => skip
     end).

Definition wm_restack_above_below : wprog unit :=
  for_clients restack_below;;
  for_clients restack_above;;
  for_clients restack_modal.

(** ** Focus *)

(** [m->modal && m->transient_for == c->client && m->frame && m->mapped] *)
Definition modal_for (c : window) (m : WmClient) : bool :=
  modal m && (transient_for m =? c) && shown m.

(** The client that gets the focus instead of [c]: its first modal dialog. *)
Definition focus_target (l : list WmClient) (c : window) : window :=
  default c (first_client (modal_for c) l).

Definition drop_focus (p : window) : wprog unit :=
  upd p (fun k => k <| is_focused := false |>);;
  wm_update_net_wm_state p;;
  k ← deref p;
  when (fullscreen k) (x_ (XStack (frame k) None Below)).

Definition take_focus (c : window) (time : Z) : wprog unit :=
  upd c (fun k => k <| is_focused := true |>);;
  upd_wm (fun w => w <| focus_seq := u64 (focus_seq w + 1) |>);;
  seq ← get_wm focus_seq;
  upd c (fun k => k <| c_focus_seq := seq |>);;
  k ← deref c;
  when (input_hint k) (x_ (XSetFocus c time));;
  tf ← x_ (XSupports c TakeFocus);
  when tf (x_ (XTakeFocus c time));;
  ds ← get_wm docks;
  match ds with
  | d :: _ =>
    if negb (above k) && negb (fullscreen k) then x_ (XStack (frame k) (Some d) Below)
    else x_ (XStack (frame k) None Above)
  | [] => x_ (XStack (frame k) None Above)
  end;;
  upd c (fun k => k <| demands_attention := false |>);;
  wm_update_net_wm_state c.

Definition wm_focus_client (c : option window) (time : Z) : wprog unit :=
  l ← get_wm clients;
  let c := focus_target l <$> c in
  prev ← get_wm focused;
  focused =: c;;
  match prev with
  | Some p => when (bool_decide (prev ≠ c)) (drop_focus p)
  | None => skip
  end;;
  match c with
  | Some c => take_focus c time
  | None => skip
  end;;
  wm_ewmh_update_active;;
  wm_restack_above_below;;
  wm_ewmh_update_client_list_stacking.

(** ** Minimize, restore, above, below *)

(** Take the client's window off the screen; the UnmapNotify this causes is
    to be ignored. *)
Definition unmap_client (c : window) : wprog unit :=
  upd c (fun k => k <| ignore_unmap := ignore_unmap k + 1 |>);;
  x_ (XUnmap c).

Definition unmap_frame (c : window) : wprog unit :=
  k ← deref c;
  when (shown k)
    (x_ (XUnmap (frame k));; upd c (fun k => k <| mapped := false |>)).

Definition map_frame (c : window) : wprog unit :=
  k ← deref c;
  when (negb (frame k =? 0))
    (x_ (XMap (frame k));; upd c (fun k => k <| mapped := true |>)).

Definition CURRENT_TIME : Z := 0.

Definition wm_minimize_client (c : window) : wprog unit :=
  upd c (fun k => k <| minimized := true |>);;
  wm_set_wm_state c 3;;
  k ← deref c;
  when (negb (frame k =? 0))
    (x_ (XUnmap (frame k));; upd c (fun k => k <| mapped := false |>));;
  unmap_client c;;
  f ← get_wm focused;
  when (bool_decide (f = Some c))
    (focused =: None;;
     l ← get_wm clients;
     match first_client (fun n => negb (client n =? c)) l with
     | Some n => wm_focus_client (Some n) CURRENT_TIME
     | None => skip
     end;;
     wm_ewmh_update_active).

Definition wm_restore_client (c : window) : wprog unit :=
  k ← deref c;
  when (minimized k)
    (upd c (fun k => k <| minimized := false |>);;
     wm_set_wm_state c 1;;
     x_ (XMap c);;
     map_frame c).

Definition wm_set_above (c : window) (enable : bool) : wprog unit :=
  upd c (fun k => (on (enable && below k) (fun k => k <| below := false |>) k) <| above := enable |>);;
  wm_update_net_wm_state c;;
  wm_restack_above_below;;
  wm_ewmh_update_client_list_stacking.

Definition wm_set_below (c : window) (enable : bool) : wprog unit :=
  upd c (fun k => (on (enable && above k) (fun k => k <| above := false |>) k) <| below := enable |>);;
  wm_update_net_wm_state c;;
  wm_restack_above_below;;
  wm_ewmh_update_client_list_stacking.

(** ** Hiding and showing for desktops *)

Definition hide_client (c : window) : wprog unit :=
  upd c (fun k => k <| hidden := true |>);;
  unmap_client c;;
  unmap_frame c.

Definition show_client (c : window) : wprog unit :=
  upd c (fun k => k <| hidden := false |>);;
  x_ (XMap c);;
  map_frame c.

(** What moving a client to a desktop does, the [c->desktop] test apart. *)
Definition set_desktop (c : window) (d : Z) : wprog unit :=
  k ← deref c;
  cur ← get_wm current_desktop;
  upd c (fun k => k <| desktop := d |>);;
  x_ (XWmDesktop c d);;
  let visible_now := (d =? cur) || (d =? ALL_DESKTOPS) in
  let visible_before := on_desktop cur k in
  if visible_before && negb visible_now then
    hide_client c;;
    f ← get_wm focused;
    when (bool_decide (f = Some c)) (focused =: None;; wm_ewmh_update_active)
  else when (negb visible_before && visible_now) (show_client c).

Definition wm_move_to_desktop (c : window) (d : Z) : wprog unit :=
  k ← deref c;
  if d =? desktop k then skip else set_desktop c d.

(** ** The switcher (switcher.c) *)

(** [cmp_mru(a, b) <= 0] *)
Definition mru_before (a b : WmClient) : Prop := c_focus_seq b ≤ c_focus_seq a.

Definition switchable (cur : Z) (k : WmClient) : Prop :=
  transient_for k = 0 ∧ on_desktop cur k = true.

#[export] Instance mru_before_dec a b : Decision (mru_before a b).
Proof. unfold mru_before. apply _. Defined.
#[export] Instance switchable_dec cur k : Decision (switchable cur k).
Proof. unfold switchable. apply _. Defined.

Definition build_order : wprog unit :=
  w ← get_wm id;
  switcher_order =:
    map client (merge_sort mru_before (filter (switchable (current_desktop w)) (clients w))).

Definition destroy_osd : wprog unit :=
  s ← get_wm switcher_shell;
  when (negb (s =? 0)) (x_ (XDestroy s);; switcher_shell =: 0);;
  switcher_order =: [];;
  switcher_visible =: 0.

(** The entry that row [row] shows; row [center] shows the selected one. *)
Definition row_to_index (sel : Z) (count : Z) (row center : Z) : Z :=
  let idx := Z.rem (sel + (row - center)) count in
  if idx <? 0 then idx + count else idx.

Definition SWITCHER_WIDTH : Z := 300.
Definition SWITCHER_PAD : Z := 8.

(** [a / b] *)
Definition div_ (a b : Z) : wprog Z := if b =? 0 then raise Trap else mret (Z.quot a b).

Definition create_osd : wprog unit :=
  pm ← wm_get_primary_monitor;
  w ← get_wm id;
  let max_height := Z.quot (rh pm) 3 in
  let pad := wm_scale w SWITCHER_PAD in
  fh ← x_ (FontHeight 4);
  let row_h := wm_scale w fh in
  max_rows ← div_ (max_height - 2 * pad) row_h;
  let max_rows := Z.max max_rows 1 in
  let visible := Z.min (Z.of_nat (length (switcher_order w))) max_rows in
  switcher_visible =: visible;;
  let osd_h := visible * row_h + 2 * pad in
  let osd_w := wm_scale w SWITCHER_WIDTH in
  win ← x_ XGenerateId;
  switcher_shell =: win;;
  x_ (XCreate win (rx pm + Z.quot (rw pm - osd_w) 2) (ry pm + Z.quot (rh pm - osd_h) 2) osd_w osd_h);;
  x_ (XMap win).

Definition wm_switcher_next : wprog unit :=
  w ← get_wm id;
  let n := Z.of_nat (length (switcher_order w)) in
  if negb (switcher_active w) || (n =? 0) then skip
  else switcher_sel =: (if n <=? switcher_sel w + 1 then 0 else switcher_sel w + 1).

Definition wm_switcher_prev : wprog unit :=
  w ← get_wm id;
  let n := Z.of_nat (length (switcher_order w)) in
  if negb (switcher_active w) || (n =? 0) then skip
  else switcher_sel =: (if switcher_sel w - 1 <? 0 then n - 1 else switcher_sel w - 1).

Definition wm_switcher_show : wprog unit :=
  act ← get_wm switcher_active;
  if act : bool then wm_switcher_next
  else
    build_order;;
    o ← get_wm switcher_order;
    if Z.of_nat (length o) <? 2 then switcher_order =: []
    else
      ok ← x_ XGrabKeyboard;
      if negb ok then switcher_order =: []
      else
        switcher_active =: true;;
        switcher_sel =: 1;;
        create_osd.

Definition wm_switcher_commit : wprog unit :=
  w ← get_wm id;
  if negb (switcher_active w) then skip
  else
    let target := if (0 <=? switcher_sel w) && (switcher_sel w <? Z.of_nat (length (switcher_order w)))
                  then switcher_order w !! Z.to_nat (switcher_sel w) else None in
    x_ XUngrabKeyboard;;
    destroy_osd;;
    switcher_active =: false;;
    match target with
    | Some t =>
      k ← deref t;
      when (minimized k) (wm_restore_client t);;
      wm_focus_client (Some t) CURRENT_TIME
    | None => skip
    end.

Definition wm_switcher_cancel : wprog unit :=
  act ← get_wm switcher_active;
  when act (x_ XUngrabKeyboard;; destroy_osd;; switcher_active =: false).

(** ** Removing a client *)

Definition destroy_grips (gs : list window) : wprog unit :=
  foldr (fun g m => when (negb (g =? 0)) (x_ (XDestroy g));; m) skip gs.

(** [wm_sync_client_cleanup] on a client about to be freed. *)
Definition sync_cleanup (k : WmClient) : wprog unit :=
  when (negb (sync_timer k =? -1)) (wm_timer_remove (sync_timer k));;
  when (negb (sync_alarm k =? 0)) (x_ (XDestroyAlarm (sync_alarm k))).

Definition frame_destroy (k : WmClient) : wprog unit :=
  sync_cleanup k;;
  destroy_grips (grips k);;
  x_ (XReparentRoot (client k) (x k + WM_BORDER_WIDTH) (y k + WM_BORDER_WIDTH));;
  when (negb (minimized k)) (x_ (XMap (client k)));;
  when (negb (frame k =? 0)) (x_ (XDestroy (frame k))).

(** Unlink the first client with id [c]. *)
Fixpoint unlink (c : window) (l : list WmClient) : list WmClient :=
  match l with
  | [] => []
  | k :: l' => if decide (client k = c) then l' else k :: unlink c l'
  end.

(** The pointers to [c] that [wm_remove_client] clears; the menu's is not one
    of them. *)
Definition forget_client (c : window) : wprog unit :=
  f ← get_wm focused;
  when (bool_decide (f = Some c)) (focused =: None);;
  d ← get_wm drag_client;
  when (bool_decide (d = Some c))
    (snap_preview_hide;; drag_client =: None;; drag_mode =: DRAG_NONE);;
  b ← get_wm btn_press_client;
  when (bool_decide (b = Some c))
    (x_ XUngrabPointer;; btn_press_client =: None;; btn_press_btn =: None;;
     btn_press_hover =: false);;
  act ← get_wm switcher_active;
  when act wm_switcher_cancel.

Definition wm_remove_client (c : window) : wprog unit :=
  k ← deref c;
  upd_wm (fun w => w <| clients := unlink c (clients w) |>);;
  forget_client c;;
  frame_destroy k;;
  wm_ewmh_update_client_list;;
  wm_ewmh_update_client_list_stacking;;
  wm_ewmh_update_active;;
  w ← get_wm id;
  match focused w, most_recent (clients w) with
  | None, Some m => wm_focus_client (Some (client m)) CURRENT_TIME
  | _, _ => skip
  end.

Definition wm_close_client (c : window) : wprog unit :=
  ok ← x_ (XSupports c DeleteWindow);
  if ok : bool then x_ (XDelete c) else x_ (XKill c).

(** ** Docks *)

Definition wm_add_dock (win : window) : wprog unit :=
  ds ← get_wm docks;
  if bool_decide (win ∈ ds) then skip
  else
    docks =: ds ++ [win];;
    x_ (XStack win None Above);;
    wm_ewmh_update_workarea.

(** Remove the first occurrence; the last one takes its place. *)
Definition drop_dock (win : window) (ds : list window) : list window :=
  match list_find (fun d => d = win) ds with
  | Some (i, _) =>
    match last ds with
    | Some l => take (length ds - 1) (<[i := l]> ds)
    | None => ds
    end
  | None => ds
  end.

Definition wm_remove_dock (win : window) : wprog unit :=
  ds ← get_wm docks;
  when (bool_decide (win ∈ ds))
    (docks =: drop_dock win ds;; wm_ewmh_update_workarea).
End Clients.
