(* ===== verification/WmDesktops.v ===== *)
(** * isde-wm: virtual desktops, timers, resize synchronisation
    (platform/X11/wm/src/desktops.c and the sync part of wm.c) *)

From S2P Require Import Prelude.
From S2P Require Import CFloat.
From S2P Require Import WmCore.
From S2P Require Import WmPlace.
From S2P Require Import WmDesk.
Open Scope Z_scope.

(** ** The grid *)

(** [desktop -> (column, row)] and back, as [wm_desktops_move] does it. *)
Definition grid_col (cols d : Z) : Z := d mod cols.
Definition grid_row (cols d : Z) : Z := d / cols.

(** [if (v < 0) v = 0; if (v >= n) v = n - 1;] *)
Definition clamp_index (n v : Z) : Z :=
  let v := if v <? 0 then 0 else v in
  if n <=? v then n - 1 else v.

Definition move_target (rows cols cur dx dy : Z) : Z :=
  u32 (clamp_index rows (s32 (grid_row (u32 cols) cur) + dy) * cols +
       clamp_index cols (s32 (grid_col (u32 cols) cur) + dx)).

Definition DESK_RELOAD_POLL_MS : Z := 50.
Definition DESK_RELOAD_MAX_TRIES : Z := 40.
Definition OSD_CELL : Z := 30.
Definition OSD_GAP : Z := 4.
Definition OSD_PAD : Z := 8.
Definition OSD_TIMEOUT : Z := 800.
Definition SYNC_FALLBACK_TIMEOUT_MS : Z := 1000.

(** The [rows] and [columns] of the configuration, 0 when absent. *)
Definition config_grid (cfg : option (Z * Z)) : Z * Z :=
  match cfg with
  | Some (r, c) => (if 0 <? s32 r then s32 r else 1, if 0 <? s32 c then s32 c else 2)
  | None => (1, 2)
  end.

(** The layout property, when both sides are positive: columns and rows. *)
Definition valid_layout (l : option (Z * Z)) : option (Z * Z) :=
  match l with
  | Some (lc, lr) => if (0 <? s32 lc) && (0 <? s32 lr) then Some (s32 lc, s32 lr) else None
  | None => None
  end.

Section Desktops.
Context `{!XServer}.

Definition wm_desktops_read_config : wprog (Z * Z) :=
  cfg ← x_ ReadDeskConfig;
  mret (config_grid cfg).

Definition wm_desktops_init : wprog unit :=
  l ← x_ XDesktopLayout;
  match valid_layout l with
  | Some (lc, lr) => desk_cols =: lc;; desk_rows =: lr
  | None =>
    g ← wm_desktops_read_config;
    desk_rows =: fst g;; desk_cols =: snd g
  end;;
  upd_wm (fun w => w <| num_desktops := s32 (desk_rows w * desk_cols w) |>);;
  prev ← x_ XGetCurrentDesktop;
  n ← get_wm num_desktops;
  current_desktop =: (if prev <? u32 n then prev else 0);;
  cur ← get_wm current_desktop;
  x_ (XNumDesktops n);;
  x_ (XCurrentDesktop cur);;
  desk_osd_timer =: -1;;
  desk_reload_tries =: 0.

Definition sync_visible (c : window) : wprog unit :=
  k ← deref c;
  cur ← get_wm current_desktop;
  if on_desktop cur k && hidden k then show_client c
  else when (negb (on_desktop cur k) && negb (hidden k)) (hide_client c).

Definition wm_desktops_sync_visibility : wprog unit := for_clients sync_visible.

Definition pull_desktop (lst : Z) (c : window) : wprog unit :=
  k ← deref c;
  when (negb (desktop k =? ALL_DESKTOPS) && (lst <? desktop k))
    (upd c (fun k => k <| desktop := lst |>);; x_ (XWmDesktop c lst)).

Definition wm_desktops_apply (rows cols : Z) : wprog unit :=
  let rows := Z.max rows 1 in
  let cols := Z.max cols 1 in
  desk_rows =: rows;;
  desk_cols =: cols;;
  num_desktops =: s32 (rows * cols);;
  let lst := u32 (u32 (s32 (rows * cols)) - 1) in
  for_clients (pull_desktop lst);;
  cur ← get_wm current_desktop;
  when (lst <? cur) (current_desktop =: lst);;
  wm_desktops_sync_visibility;;
  w ← get_wm id;
  x_ (XNumDesktops (num_desktops w));;
  x_ (XCurrentDesktop (current_desktop w)).

Definition arm_reload : wprog unit :=
  wm_timer_add DESK_RELOAD_POLL_MS CbReloadPoll;; skip.

Definition wm_desktops_reload_poll : wprog unit :=
  l ← x_ XDesktopLayout;
  w ← get_wm id;
  let changed := match valid_layout l with
                 | Some (lc, lr) => negb ((lc =? desk_cols w) && (lr =? desk_rows w))
                 | None => false
                 end in
  match valid_layout l, changed with
  | Some (lc, lr), true => wm_desktops_apply lr lc
  | _, _ =>
    desk_reload_tries =: desk_reload_tries w + 1;;
    if DESK_RELOAD_MAX_TRIES <=? desk_reload_tries w + 1 then
      g ← wm_desktops_read_config;
      wm_desktops_apply (fst g) (snd g)
    else arm_reload
  end.

Definition wm_desktops_settings_changed : wprog unit :=
  desk_reload_tries =: 0;;
  arm_reload.

(** ** The popup *)

Definition osd_hide_cb : wprog unit :=
  osd ← get_wm desk_osd;
  when (negb (osd =? 0)) (x_ (XUnmap osd));;
  desk_osd_timer =: -1.

(** Width or height of the popup for [n] cells. *)
Definition osd_extent (w : Wm) (n : Z) : Z :=
  2 * wm_scale w OSD_PAD + n * wm_scale w OSD_CELL + (n - 1) * wm_scale w OSD_GAP.

Definition wm_desktops_show_osd : wprog unit :=
  w ← get_wm id;
  let ow := osd_extent w (desk_cols w) in
  let oh := osd_extent w (desk_rows w) in
  pm ← wm_get_primary_monitor;
  let sx := rx pm + Z.quot (rw pm - ow) 2 in
  let sy := ry pm + Z.quot (rh pm - oh) 2 in
  when (0 <=? desk_osd_timer w)
    (wm_timer_remove (desk_osd_timer w);; desk_osd_timer =: -1);;
  (if desk_osd w =? 0 then
     win ← x_ XGenerateId;
     desk_osd =: win;;
     x_ (XCreate win sx sy ow oh);;
     x_ (XMap win)
   else
     x_ (XMove (desk_osd w) sx sy);; x_ (XResize (desk_osd w) ow oh);;
     x_ (XMap (desk_osd w)));;
  t ← wm_timer_add OSD_TIMEOUT CbOsdHide;
  desk_osd_timer =: t.

(** ** Switching *)

Definition switch_client (old d : Z) (c : window) : wprog unit :=
  k ← deref c;
  if desktop k =? ALL_DESKTOPS then skip
  else if (desktop k =? old) && negb (desktop k =? d) then hide_client c
  else when ((desktop k =? d) && negb (desktop k =? old)) (show_client c).

Definition wm_desktops_switch (d : Z) : wprog unit :=
  w ← get_wm id;
  if (u32 (num_desktops w) <=? d) || (d =? current_desktop w) then skip
  else
    let old := current_desktop w in
    current_desktop =: d;;
    for_clients (switch_client old d);;
    x_ (XCurrentDesktop d);;
    f ← get_wm focused;
    match f with
    | Some p =>
      k ← deref p;
      when (negb (on_desktop d k))
        (upd p (fun k => k <| is_focused := false |>);; focused =: None)
    | None => skip
    end;;
    w ← get_wm id;
    match focused w with
    | None =>
      wm_focus_client (client <$> most_recent (filter (fun k => on_desktop d k = true) (clients w)))
        CURRENT_TIME
    | Some _ => skip
    end;;
    wm_desktops_show_osd.

Definition wm_desktops_move (dx dy : Z) : wprog unit :=
  w ← get_wm id;
  if u32 (desk_cols w) =? 0 then raise Trap
  else
    wm_desktops_switch
      (move_target (desk_rows w) (desk_cols w) (current_desktop w) dx dy).

(** ** Resize synchronisation (wm.c) *)

Definition sync_expire (c : window) : wprog unit :=
  k ← deref c;
  when (sync_waiting k)
    (upd c (fun k => k <| sync_timer := -1 |> <| sync_waiting := false |>);;
     when (negb (sync_alarm k =? 0))
       (x_ (XDestroyAlarm (sync_alarm k));; upd c (fun k => k <| sync_alarm := 0 |>));;
     upd c (fun k => k <| sync_counter := 0 |>);;
     when (sync_pending k)
       (upd c (fun k => k <| sync_pending := false |>);; frame_configure c)).

Definition sync_timeout_cb : wprog unit := for_clients sync_expire.

Definition sync_arm_alarm (c : window) : wprog unit :=
  k ← deref c;
  (if sync_alarm k =? 0 then
     a ← x_ XGenerateId;
     upd c (fun k => k <| sync_alarm := a |>)
   else skip);;
  k ← deref c;
  x_ (XArmAlarm (sync_alarm k) (sync_counter k) (sync_value k)).

Definition wm_sync_throttle (c : window) : wprog bool :=
  k ← deref c;
  if sync_counter k =? 0 then mret false
  else if sync_waiting k then
    upd c (fun k => k <| sync_pending := true |>);; mret true
  else
    upd c (fun k => k <| sync_value := u64 (sync_value k + 1) |>);;
    k ← deref c;
    t ← get_wm last_user_time;
    x_ (XSyncRequest c t (sync_value k));;
    sync_arm_alarm c;;
    upd c (fun k => k <| sync_waiting := true |>);;
    i ← wm_timer_add SYNC_FALLBACK_TIMEOUT_MS CbSyncTimeout;
    upd c (fun k => k <| sync_timer := i |>);;
    mret false.

(** The part shared by the alarm and the end of a drag: stop waiting and
    apply a resize that was held back. *)
Definition sync_settle (c : window) : wprog unit :=
  upd c (fun k => k <| sync_waiting := false |>);;
  k ← deref c;
  when (negb (sync_timer k =? -1))
    (wm_timer_remove (sync_timer k);; upd c (fun k => k <| sync_timer := -1 |>));;
  when (sync_pending k)
    (upd c (fun k => k <| sync_pending := false |>);; frame_configure c).

Definition wm_sync_alarm_notify (alarm val : Z) : wprog unit :=
  l ← get_wm clients;
  match first_client (fun p => negb (sync_alarm p =? 0) && (sync_alarm p =? alarm)) l with
  | None => skip
  | Some c =>
    k ← deref c;
    if negb (sync_waiting k) || (val <? sync_value k) then skip else sync_settle c
  end.

(** ** Timers firing *)

Definition callback_run (f : callback) : wprog unit :=
  match f with
  | CbReloadPoll => wm_desktops_reload_poll
  | CbOsdHide => osd_hide_cb
  | CbSyncTimeout => sync_timeout_cb
  end.

Fixpoint fire_from (now : Z) (slots : list nat) : wprog unit :=
  match slots with
  | [] => skip
  | i :: slots' =>
    ts ← get_wm timers;
    match ts !! i with
    | Some t =>
      when (active t && (deadline_ms t <=? now))
        (timers =: <[i := t <| active := false |>]> ts;; callback_run (cb t))
    | None => skip
    end;;
    fire_from now slots'
  end.

Definition wm_timers_fire : wprog unit :=
  now ← wm_now_ms;
  fire_from now (seq 0 WM_MAX_TIMERS).
End Desktops.
