(* ===== verification/WmEvents.v ===== *)
(** * isde-wm: events
    (platform/X11/wm/src/wm.c from [on_grip_press] on, keys.c, and the window
    menu of frame.c)

    An event carries what the handlers read of it; a key event carries the
    keysym of its key.  MapRequest, PropertyNotify and startup notification
    are not modelled, Expose only repaints. *)

From S2P Require Import Prelude.
From S2P Require Import CFloat.
From S2P Require Import WmCore.
From S2P Require Import WmPlace.
From S2P Require Import WmDesk.
From S2P Require Import WmDesktops.
Open Scope Z_scope.

Record pointer_event := mkPointer {
  pe_window : window; pe_x : Z; pe_y : Z; pe_root_x : Z; pe_root_y : Z;
  pe_detail : Z; pe_time : Z
}.

(** The atoms of a _NET_WM_STATE message. *)
Inductive state_atom := StateAtom (s : net_state) | StateHidden | StateOther.
#[export] Instance net_state_eq_dec : EqDecision net_state.
Proof. solve_decision. Defined.
#[export] Instance state_atom_eq_dec : EqDecision state_atom.
Proof. solve_decision. Defined.

Inductive message :=
  | NetActiveWindow (w : window) (source time : Z)
  | NetCloseWindow (w : window)
  | NetWmState (w : window) (action : Z) (a1 a2 : state_atom)
  | NetWmMoveResize (w : window) (root_x root_y dir button : Z)
  | WmChangeState (w : window) (st : Z)
  | NetCurrentDesktop (d : Z)
  | NetWmDesktop (w : window) (d : Z)
  | NetRequestFrameExtents (w : window)
  | OtherMessage.

Inductive xevent :=
  | ConfigureRequest (r : configure_request)
  | UnmapNotify (w event : window)
  | DestroyNotify (w : window)
  | ButtonPress (e : pointer_event)
  | ButtonRelease (e : pointer_event)
  | MotionNotify (e : pointer_event)
  | KeyPress (sym state time : Z)
  | KeyRelease (sym : Z)
  | ClientMessage (m : message)
  | AlarmNotify (alarm val : Z)
  | RandrNotify
  | SelectionClear
  | Expose.

(** ** Resizing by a grip *)

Definition edge_of_index (i : nat) : edge :=
  match i with
  | 0 => GRIP_TOP | 1 => GRIP_BOTTOM | 2 => GRIP_LEFT | 3 => GRIP_RIGHT
  | 4 => GRIP_TL | 5 => GRIP_TR | 6 => GRIP_BL | _ => GRIP_BR
  end%nat.

Fixpoint find_grip_client (win : window) (l : list WmClient) : option (window * edge) :=
  match l with
  | [] => None
  | k :: l' =>
    match list_find (fun g => g = win) (grips k) with
    | Some (i, _) => Some (client k, edge_of_index i)
    | None => find_grip_client win l'
    end
  end.

Definition pulls_top (e : edge) : bool :=
  match e with GRIP_TOP | GRIP_TL | GRIP_TR => true | _ => false end.
Definition pulls_bottom (e : edge) : bool :=
  match e with GRIP_BOTTOM | GRIP_BL | GRIP_BR => true | _ => false end.
Definition pulls_left (e : edge) : bool :=
  match e with GRIP_LEFT | GRIP_TL | GRIP_BL => true | _ => false end.
Definition pulls_right (e : edge) : bool :=
  match e with GRIP_RIGHT | GRIP_TR | GRIP_BR => true | _ => false end.

(** The rectangle the drag asks for, before any constraint. *)
Definition drag_rect (e : edge) (o : rect) (dx dy : Z) : rect :=
  let nw := if pulls_left e then rw o - dx else rw o in
  let nw := if pulls_right e then rw o + dx else nw in
  let nh := if pulls_top e then rh o - dy else rh o in
  let nh := if pulls_bottom e then rh o + dy else nh in
  mkRect (if pulls_left e then rx o + dx else rx o)
         (if pulls_top e then ry o + dy else ry o) nw nh.

(** The minimum the resize code uses. *)
Definition drag_min (m : Z) : Z := if 0 <? m then m else 50.

(** [b + ((v - b) / inc) * inc] with [b] the base size if there is one. *)
Definition snap_inc (base mn inc v : Z) : Z :=
  let b := if 0 <? base then base else mn in
  b + Z.quot (v - b) inc * inc.

(** The constraints of one axis: the new size, and the new position. *)
Definition limit_axis (orig_pos orig_size mn mxx pos size : Z) : Z * Z :=
  let p := if size <? mn then (orig_pos + orig_size - mn, mn) else (pos, size) in
  (fst p, if (0 <? mxx) && (mxx <? snd p) then mxx else snd p).

Definition resize_rect (k : WmClient) (e : edge) (o : rect) (dx dy : Z) : rect :=
  let r := drag_rect e o dx dy in
  let mnw := drag_min (min_w k) in
  let mnh := drag_min (min_h k) in
  let stepped := (1 <? inc_w k) || (1 <? inc_h k) in
  let nw := if stepped then snap_inc (base_w k) mnw (inc_w k) (rw r) else rw r in
  let nh := if stepped then snap_inc (base_h k) mnh (inc_h k) (rh r) else rh r in
  let h := limit_axis (rx o) (rw o) mnw (max_w k) (rx r) nw in
  let v := limit_axis (ry o) (rh o) mnh (max_h k) (ry r) nh in
  mkRect (fst h) (fst v) (snd h) (snd v).

(** The grip for a _NET_WM_MOVERESIZE direction up to 7. *)
Definition dir_to_grip (dir : Z) : edge :=
  nth (Z.to_nat dir) [GRIP_TL; GRIP_TOP; GRIP_TR; GRIP_RIGHT;
                      GRIP_BR; GRIP_BOTTOM; GRIP_BL; GRIP_LEFT] GRIP_LEFT.

(** What a ConfigureRequest makes of a client. *)
Definition request_size (r : configure_request) (k : WmClient) : WmClient :=
  k <| width := default (width k) (cr_width r) |>
    <| height := default (height k) (cr_height r) |>.
Definition request_position (th : Z) (r : configure_request) (k : WmClient) : WmClient :=
  let cur := frame_frame_to_gravity th k in
  let p := frame_gravity_to_frame th k (default (fst cur) (cr_x r)) (default (snd cur) (cr_y r)) in
  set_y (snd p) (set_x (fst p) k).

Section Events.
Context `{!XServer}.

Definition on_grip_press (ev : pointer_event) : wprog unit :=
  l ← get_wm clients;
  match find_grip_client (pe_window ev) l with
  | None => skip
  | Some (c, e) =>
    k ← deref c;
    if fixed_size k || (negb (pe_detail ev =? 1) && negb (pe_detail ev =? 3)) then skip
    else
      wm_focus_client (Some c) (pe_time ev);;
      drag_mode =: DRAG_RESIZE;;
      resize_edge =: e;;
      drag_client =: Some c;;
      k ← deref c;
      upd_wm (fun w => w <| drag_start_x := pe_root_x ev |> <| drag_start_y := pe_root_y ev |>
        <| drag_button := pe_detail ev |> <| drag_orig_x := x k |> <| drag_orig_y := y k |>
        <| drag_orig_w := width k |> <| drag_orig_h := height k |>);;
      x_ XGrabPointer
  end.

Definition on_configure_request (r : configure_request) : wprog unit :=
  l ← get_wm clients;
  match wm_find_client_by_window l (cr_window r) with
  | None => x_ (XForward r)
  | Some c =>
    upd c (request_size r);;
    when (bool_decide (is_Some (cr_x r) ∨ is_Some (cr_y r)))
      (th ← get_wm title_height;
       upd c (request_position th r));;
    frame_configure c
  end.

Definition on_unmap_notify (win event : window) : wprog unit :=
  l ← get_wm clients;
  match find_client l win with
  | None => skip
  | Some k =>
    if negb (frame k =? 0) && (event =? frame k) then
      if 0 <? ignore_unmap k
      then upd win (fun k => k <| ignore_unmap := ignore_unmap k - 1 |>)
      else wm_remove_client win
    else skip
  end.

Definition on_destroy_notify (win : window) : wprog unit :=
  wm_remove_dock win;;
  l ← get_wm clients;
  match wm_find_client_by_window l win with
  | Some c => wm_remove_client c
  | None => skip
  end.

(** A dragged maximized window is restored under the pointer. *)
Definition drag_out (c : window) (px py : Z) : wprog unit :=
  k ← deref c;
  w ← get_wm id;
  let max_w := width k in
  let off_x := drag_start_x w - drag_orig_x w in
  let off_y := drag_start_y w - drag_orig_y w in
  wm_maximize_client c;;
  k ← deref c;
  let off_x := if 0 <? max_w then Z.quot (off_x * width k) max_w else off_x in
  upd_wm (fun w => w <| drag_orig_x := s16 (px - off_x) |> <| drag_orig_y := s16 (py - off_y) |>
     <| drag_start_x := px |> <| drag_start_y := py |>).

(** The pending zone and its monitor. *)
Definition set_snap (zone : snap) (mon : nat) : wprog unit :=
  snap_pending =: zone;; snap_monitor =: mon.

Definition drag_move (c : window) (px py : Z) : wprog unit :=
  w ← get_wm id;
  k ← deref c;
  let dx := px - drag_start_x w in
  let dy := py - drag_start_y w in
  let out := maximized k && negb ((dx =? 0) && (dy =? 0)) in
  when out (drag_out c px py);;
  let dx := if out then 0 else dx in
  let dy := if out then 0 else dy in
  w ← get_wm id;
  upd c (fun k => set_y (drag_orig_y w + dy) (set_x (drag_orig_x w + dx) k));;
  k ← deref c;
  x_ (XMove (frame k) (x k) (y k));;
  zone ← detect_snap_zone px py;
  w ← get_wm id;
  let mon := monitor_at_point (monitors w) px py in
  if negb (bool_decide (zone = SNAP_NONE)) then
    when (negb (bool_decide (snap_pending w = zone)) || negb (Nat.eqb (snap_monitor w) mon))
      (snap_preview_show zone mon;; set_snap zone mon)
  else when (negb (bool_decide (snap_pending w = SNAP_NONE))) snap_preview_hide.

Definition drag_resize (c : window) (px py : Z) : wprog unit :=
  w ← get_wm id;
  k ← deref c;
  let o := mkRect (drag_orig_x w) (drag_orig_y w) (drag_orig_w w) (drag_orig_h w) in
  if ((1 <? inc_w k) || (1 <? inc_h k)) && ((inc_w k =? 0) || (inc_h k =? 0)) then raise Trap
  else
    let r := resize_rect k (resize_edge w) o (px - drag_start_x w) (py - drag_start_y w) in
    upd c (fun k => set_height (rh r) (set_width (rw r) (set_y (ry r) (set_x (rx r) k))));;
    held ← wm_sync_throttle c;
    if held : bool then skip else frame_configure c.

Definition on_motion_notify (ev : pointer_event) : wprog unit :=
  w ← get_wm id;
  match drag_client w, drag_mode w with
  | Some c, DRAG_MOVE => drag_move c (pe_root_x ev) (pe_root_y ev)
  | Some c, DRAG_RESIZE => drag_resize c (pe_root_x ev) (pe_root_y ev)
  | _, _ => skip
  end.

(** What ends a drag, whatever ended it. *)
Definition end_drag : wprog unit :=
  snap_preview_hide;;
  x_ XUngrabPointer;;
  drag_mode =: DRAG_NONE;;
  drag_client =: None.

Definition finish_drag (c : window) : wprog unit :=
  w ← get_wm id;
  when (bool_decide (drag_mode w = DRAG_MOVE) && negb (bool_decide (snap_pending w = SNAP_NONE)))
    (apply_snap c (snap_pending w) (snap_monitor w));;
  k ← deref c;
  when (bool_decide (drag_mode w = DRAG_RESIZE) && sync_waiting k) (sync_settle c).

Definition on_button_release (ev : pointer_event) : wprog unit :=
  w ← get_wm id;
  if negb (drag_button w =? 0) && negb (pe_detail ev =? drag_button w) then skip
  else if bool_decide (drag_mode w = DRAG_NONE) then skip
  else
    match drag_client w with Some c => finish_drag c | None => skip end;;
    end_drag.

(** ** The window menu (frame.c) *)

Definition wm_dismiss_menu : wprog unit :=
  m ← get_wm win_menu;
  when (negb (m =? 0))
    (x_ XUngrabKeyboard;; x_ XUngrabPointer;; x_ (XDestroy m);;
     win_menu =: 0;; menu_client =: None;; menu_item_count =: 0).

Definition win_menu_show (c : window) : wprog unit :=
  wm_dismiss_menu;;
  fh ← x_ (FontHeight 6);
  w ← get_wm id;
  k ← deref c;
  let item_h := wm_scale w fh in
  let total_items := 2 + 1 + num_desktops w + 1 in
  win ← x_ XGenerateId;
  win_menu =: win;;
  x_ (XCreate win (x k + WM_BORDER_WIDTH) (y k + title_height w + 1)
        (wm_scale w 180) (total_items * item_h));;
  x_ (XMap win);;
  x_ XGrabPointer;;
  upd_wm (fun w => w <| menu_client := Some c |> <| menu_item_count := total_items |>
                     <| menu_item_height := item_h |>).

(** Entry [idx] of the menu of client [c]. *)
Definition menu_action (c : window) (idx : Z) : wprog unit :=
  k ← deref c;
  n ← get_wm num_desktops;
  if idx =? 0 then wm_set_above c (negb (above k))
  else if idx =? 1 then wm_set_below c (negb (below k))
  else if idx =? 2 then skip
  else if (3 <=? idx) && (idx <? 3 + n) then wm_move_to_desktop c (idx - 3)
  else when (idx =? 3 + n) (wm_move_to_desktop c ALL_DESKTOPS).

Definition win_menu_click (py : Z) : wprog unit :=
  w ← get_wm id;
  match menu_client w with
  | None => skip
  | Some c =>
    idx ← div_ py (menu_item_height w);
    menu_action c idx;;
    wm_dismiss_menu
  end.

(** ** Title bar *)

Definition on_frame_button_press (c : window) (ev : pointer_event) : wprog unit :=
  th ← get_wm title_height;
  k ← deref c;
  if negb (decorated k) || (th <=? pe_y ev) ||
     (negb (pe_detail ev =? 1) && negb (pe_detail ev =? 3)) then skip
  else
    wm_focus_client (Some c) (pe_time ev);;
    k ← deref c;
    match frame_button_at th k (pe_x ev) (pe_y ev) with
    | Some b =>
      upd_wm (fun w => w <| btn_press_client := Some c |> <| btn_press_btn := Some b |>
        <| btn_press_hover := true |> <| btn_press_mouse := pe_detail ev |>);;
      x_ XGrabPointer
    | None =>
      upd_wm (fun w => w <| drag_mode := DRAG_MOVE |> <| drag_client := Some c |>
        <| drag_start_x := pe_root_x ev |> <| drag_start_y := pe_root_y ev |>
        <| drag_button := pe_detail ev |> <| drag_orig_x := x k |> <| drag_orig_y := y k |>);;
      x_ XGrabPointer
    end.

Definition on_button_press_motion (ev : pointer_event) : wprog unit :=
  w ← get_wm id;
  match btn_press_client w with
  | None => skip
  | Some c =>
    k ← deref c;
    btn_press_hover =:
      bool_decide (frame_button_at (title_height w) k (pe_root_x ev - x k) (pe_root_y ev - y k)
                   = btn_press_btn w)
  end.

Definition button_action (c : window) (b : frame_btn) : wprog unit :=
  match b with
  | FRAME_BTN_MENU => win_menu_show c
  | FRAME_BTN_MINIMIZE => wm_minimize_client c
  | FRAME_BTN_MAXIMIZE => wm_maximize_client c
  | FRAME_BTN_CLOSE => wm_close_client c
  end.

Definition on_button_press_release (ev : pointer_event) : wprog unit :=
  w ← get_wm id;
  match btn_press_client w with
  | None => skip
  | Some c =>
    if negb (pe_detail ev =? btn_press_mouse w) then skip
    else
      x_ XUngrabPointer;;
      upd_wm (fun w => w <| btn_press_client := None |> <| btn_press_btn := None |>
                         <| btn_press_hover := false |>);;
      k ← deref c;
      let at_ := frame_button_at (title_height w) k (pe_root_x ev - x k) (pe_root_y ev - y k) in
      match btn_press_btn w with
      | Some b => when (bool_decide (at_ = Some b)) (button_action c b)
      | None => skip
      end
  end.
End Events.
