(* ===== verification/WmDispatch.v ===== *)
(** * isde-wm: keys, client messages, the event loop
    (platform/X11/wm/src/keys.c, and [handle_client_message],
    [dispatch_wm_event] and [wm_run] of wm.c) *)

From S2P Require Import Prelude.
From S2P Require Import CFloat.
From S2P Require Import WmCore.
From S2P Require Import WmPlace.
From S2P Require Import WmDesk.
From S2P Require Import WmDesktops.
From S2P Require Import WmEvents.
Open Scope Z_scope.

(** ** Key symbols and modifiers (keys.c) *)

Definition XK_F4 : Z := 0xffc1.
Definition XK_Tab : Z := 0xff09.
Definition XK_Left : Z := 0xff51.
Definition XK_Up : Z := 0xff52.
Definition XK_Right : Z := 0xff53.
Definition XK_Down : Z := 0xff54.
Definition XK_Super_L : Z := 0xffeb.
Definition XK_l : Z := 0x006c.
Definition XK_Alt_L : Z := 0xffe9.
Definition XK_Alt_R : Z := 0xffea.
Definition XK_Escape : Z := 0xff1b.

Definition MOD_SHIFT : Z := 1.
Definition MOD_CONTROL : Z := 4.
Definition MOD_ALT : Z := 8.
Definition MOD_SUPER : Z := 64.

Definition has (mod_ m : Z) : bool := negb (Z.land mod_ m =? 0).

Section Dispatch.
Context `{!XServer}.

Definition wm_keys_handle (sym state : Z) : wprog unit :=
  let mod_ := Z.land state (Z.lor (Z.lor MOD_ALT MOD_SHIFT) (Z.lor MOD_CONTROL MOD_SUPER)) in
  super_tap_armed =: (sym =? XK_Super_L) && (mod_ =? 0);;
  w ← get_wm id;
  let desk_mod := Z.lor MOD_CONTROL MOD_SUPER in
  if (sym =? XK_Escape) && switcher_active w then wm_switcher_cancel
  else if (sym =? XK_F4) && has mod_ MOD_ALT then
    match focused w with Some f => wm_close_client f | None => skip end
  else if (sym =? XK_Tab) && has mod_ MOD_ALT then
    if switcher_active w then
      if has mod_ MOD_SHIFT then wm_switcher_prev else wm_switcher_next
    else wm_switcher_show
  else if (sym =? XK_l) && has mod_ MOD_SUPER then x_ LockScreen
  else if Z.land mod_ desk_mod =? desk_mod then
    if sym =? XK_Left then wm_desktops_move (-1) 0
    else if sym =? XK_Right then wm_desktops_move 1 0
    else if sym =? XK_Up then wm_desktops_move 0 (-1)
    else when (sym =? XK_Down) (wm_desktops_move 0 1)
  else skip.

Definition wm_keys_handle_release (sym : Z) : wprog unit :=
  w ← get_wm id;
  if (sym =? XK_Super_L) && super_tap_armed w then
    super_tap_armed =: false;; x_ ToggleStartMenu
  else if negb (switcher_active w) then skip
  else when ((sym =? XK_Alt_L) || (sym =? XK_Alt_R)) wm_switcher_commit.

(** ** Decorations *)

Definition MWM_HINTS_DECORATIONS : Z := 2.

Definition wm_client_wants_decorations (win : window) : wprog bool :=
  h ← x_ (XMotifHints win);
  mret match h with
  | Some (flags, decorations) =>
    negb (negb (Z.land flags MWM_HINTS_DECORATIONS =? 0) && (decorations =? 0))
  | None => true
  end.

Definition wm_window_type_wants_decorations (win : window) : wprog bool :=
  t ← x_ (XWindowType win);
  mret match t with
  | TypeDock | TypeDesktop | TypeSplash | TypeToolbar | TypeMenu | TypeNotification => false
  | _ => true
  end.

(** ** Client messages *)

(** [(action == 1) || (action == 2 && !old)] *)
Definition wanted (action : Z) (old : bool) : bool :=
  (action =? 1) || ((action =? 2) && negb old).

Definition on_active_window (win : window) (source time : Z) : wprog unit :=
  w ← get_wm id;
  match wm_find_client_by_window (clients w) win with
  | None => skip
  | Some c =>
    let other := match focused w with Some f => negb (f =? c) | None => false end in
    if negb (source =? 2) && other &&
       ((time =? 0) || (negb (last_user_time w =? 0) && (s32 (time - last_user_time w) <? 0)))
    then skip
    else
      k ← deref c;
      x_ (XMap (frame k));;
      x_ (XMap c);;
      upd c (fun k => k <| mapped := true |>);;
      wm_focus_client (Some c) time
  end.

(** [if (a1 == s || a2 == s) ...], once per state. *)
Definition when_state (a1 a2 : state_atom) (ss : list state_atom)
    (c : window) (body : WmClient → wprog unit) : wprog unit :=
  if bool_decide (a1 ∈ ss ∨ a2 ∈ ss) then k ← deref c; body k else skip.

Definition toggle_sticky (c : window) (want : bool) (k : WmClient) : wprog unit :=
  (if want && negb (sticky k) then
     upd c (fun k => k <| sticky := true |>);;
     wm_move_to_desktop c ALL_DESKTOPS
   else if negb want && sticky k then
     upd c (fun k => k <| sticky := false |>);;
     cur ← get_wm current_desktop;
     wm_move_to_desktop c cur
   else skip);;
  wm_update_net_wm_state c.

Definition on_wm_state (c : window) (action : Z) (a1 a2 : state_atom) : wprog unit :=
  when_state a1 a2 [StateAtom Fullscreen] c (fun k =>
    let want := wanted action (fullscreen k) in
    when (negb (eqb want (fullscreen k))) (wm_fullscreen_client c want));;
  when_state a1 a2 [StateAtom MaximizedVert; StateAtom MaximizedHorz] c (fun k =>
    when (negb (eqb (wanted action (maximized k)) (maximized k))) (wm_maximize_client c));;
  when_state a1 a2 [StateHidden] c (fun k =>
    let want := wanted action (minimized k) in
    if want && negb (minimized k) then wm_minimize_client c
    else when (negb want && minimized k) (wm_restore_client c));;
  when_state a1 a2 [StateAtom StAbove] c (fun k => wm_set_above c (wanted action (above k)));;
  when_state a1 a2 [StateAtom StBelow] c (fun k => wm_set_below c (wanted action (below k)));;
  when_state a1 a2 [StateAtom Modal] c (fun k =>
    upd c (fun k => k <| modal := wanted action (modal k) |>);; wm_update_net_wm_state c);;
  when_state a1 a2 [StateAtom Sticky] c (fun k =>
    toggle_sticky c (wanted action (sticky k)) k);;
  when_state a1 a2 [StateAtom SkipTaskbar] c (fun k =>
    upd c (fun k => k <| skip_taskbar := wanted action (skip_taskbar k) |>);;
    wm_update_net_wm_state c);;
  when_state a1 a2 [StateAtom SkipPager] c (fun k =>
    upd c (fun k => k <| skip_pager := wanted action (skip_pager k) |>);;
    wm_update_net_wm_state c);;
  when_state a1 a2 [StateAtom DemandsAttention] c (fun k =>
    upd c (fun k => k <| demands_attention := wanted action (demands_attention k) |>);;
    wm_update_net_wm_state c).

Definition MOVERESIZE_SIZE_LEFT : Z := 7.
Definition MOVERESIZE_MOVE : Z := 8.
Definition MOVERESIZE_MOVE_KEYBOARD : Z := 10.
Definition MOVERESIZE_CANCEL : Z := 11.

Definition on_moveresize (c : window) (px py dir button : Z) : wprog unit :=
  if dir =? MOVERESIZE_CANCEL then
    m ← get_wm drag_mode;
    when (negb (bool_decide (m = DRAG_NONE))) end_drag
  else
    k ← deref c;
    upd_wm (fun w => w <| drag_client := Some c |>
      <| drag_start_x := s16 px |> <| drag_start_y := s16 py |>
      <| drag_button := button mod 256 |> <| drag_orig_x := x k |> <| drag_orig_y := y k |>
      <| drag_orig_w := width k |> <| drag_orig_h := height k |>);;
    if (dir =? MOVERESIZE_MOVE) || (dir =? MOVERESIZE_MOVE_KEYBOARD) then
      drag_mode =: DRAG_MOVE;; x_ XGrabPointer
    else if dir <=? MOVERESIZE_SIZE_LEFT then
      if fixed_size k then skip
      else
        upd_wm (fun w => w <| drag_mode := DRAG_RESIZE |> <| resize_edge := dir_to_grip dir |>);;
        x_ XGrabPointer
    else skip.

Definition on_request_extents (win : window) : wprog unit :=
  t ← wm_window_type_wants_decorations win;
  d ← (if t : bool then wm_client_wants_decorations win else mret false);
  th ← get_wm title_height;
  let b := WM_BORDER_WIDTH + 1 in
  if d : bool then x_ (XFrameExtents win b b (WM_BORDER_WIDTH + th + 1) b)
  else x_ (XFrameExtents win 0 0 0 0).

(** Run a handler on the client of a window, if it is managed. *)
Definition with_client (win : window) (f : window → wprog unit) : wprog unit :=
  l ← get_wm clients;
  match wm_find_client_by_window l win with Some c => f c | None => skip end.

Definition handle_client_message (m : message) : wprog unit :=
  match m with
  | NetActiveWindow win source time => on_active_window win source time
  | NetCloseWindow win => with_client win wm_close_client
  | NetWmState win action a1 a2 => with_client win (fun c => on_wm_state c action a1 a2)
  | NetWmMoveResize win px py dir button => with_client win (fun c => on_moveresize c px py dir button)
  | WmChangeState win st => with_client win (fun c => when (st =? 3) (wm_minimize_client c))
  | NetCurrentDesktop d => wm_desktops_switch d
  | NetWmDesktop win d =>
    with_client win (fun c =>
      n ← get_wm num_desktops;
      when ((d <? u32 n) || (d =? ALL_DESKTOPS)) (set_desktop c d))
  | NetRequestFrameExtents win => on_request_extents win
  | OtherMessage => skip
  end.

(** ** Monitors changed *)

Definition query_monitors : wprog unit :=
  ms ← x_ XMonitors;
  w ← get_wm id;
  monitors =:
    match ms with [] => [mkMonitor 0 0 (screen_w w) (screen_h w)] | _ => ms end.

(** ** The dispatcher *)

Definition on_button_press (ev : pointer_event) : wprog unit :=
  last_user_time =: pe_time ev;;
  l ← get_wm clients;
  match find_grip_client (pe_window ev) l with
  | Some _ => on_grip_press ev
  | None =>
    match wm_find_client_by_frame l (pe_window ev) with
    | Some fc => on_frame_button_press fc ev
    | None =>
      match wm_find_client_by_window l (pe_window ev) with
      | Some c => wm_focus_client (Some c) (pe_time ev);; x_ (XAllowEvents (pe_time ev))
      | None => skip
      end
    end
  end.

Definition dispatch_event (ev : xevent) : wprog unit :=
  match ev with
  | ConfigureRequest r => on_configure_request r
  | UnmapNotify win event => on_unmap_notify win event
  | DestroyNotify win => on_destroy_notify win
  | ButtonPress e => on_button_press e
  | ButtonRelease e =>
    w ← get_wm id;
    if negb (bool_decide (drag_mode w = DRAG_NONE)) then on_button_release e
    else on_button_press_release e
  | MotionNotify e =>
    w ← get_wm id;
    if negb (bool_decide (drag_mode w = DRAG_NONE)) then on_motion_notify e
    else on_button_press_motion e
  | KeyPress sym state time => last_user_time =: time;; wm_keys_handle sym state
  | KeyRelease sym => wm_keys_handle_release sym
  | ClientMessage m => handle_client_message m
  | AlarmNotify alarm val => wm_sync_alarm_notify alarm val
  | RandrNotify => query_monitors;; rescue_orphaned_clients
  | SelectionClear => running =: false
  | Expose => skip
  end.

(** While the window menu is open it takes the clicks and the keys. *)
Definition dispatch_wm_event (ev : xevent) : wprog unit :=
  w ← get_wm id;
  if negb (win_menu w =? 0) && bool_decide (is_Some (menu_client w)) then
    match ev with
    | ButtonPress e =>
      if pe_window e =? win_menu w then win_menu_click (pe_y e) else wm_dismiss_menu
    | KeyPress _ _ _ | KeyRelease _ => wm_dismiss_menu
    | _ => dispatch_event ev
    end
  else dispatch_event ev.

(** Drain the queue of one iteration of [wm_run]: of consecutive motion events
    during a drag only the last is dispatched. *)
Fixpoint drain (held : option xevent) (evs : list xevent) : wprog unit :=
  match evs with
  | [] => match held with Some m => dispatch_wm_event m | None => skip end
  | ev :: evs' =>
    mode ← get_wm drag_mode;
    match ev, mode with
    | MotionNotify _, (DRAG_MOVE | DRAG_RESIZE) => drain (Some ev) evs'
    | _, _ =>
      match held with Some m => dispatch_wm_event m | None => skip end;;
      dispatch_wm_event ev;;
      drain None evs'
    end
  end.

(** One iteration: expired timers, the settings signals D-Bus delivered, then
    the X events.  The result is the poll timeout. *)
Record batch := mkBatch { settings : nat; xevents : list xevent }.

Definition wm_run_once (b : batch) : wprog Z :=
  wm_timers_fire;;
  foldr (fun _ m => wm_desktops_settings_changed;; m) skip (seq 0 (settings b));;
  t ← wm_timer_next_timeout;
  drain None (xevents b);;
  mret t.

Fixpoint wm_run (bs : list batch) : wprog unit :=
  match bs with
  | [] => skip
  | b :: bs' =>
    go ← get_wm running;
    when go (wm_run_once b;; wm_run bs')
  end.
End Dispatch.
