(* ===== verification/WmSafety.v ===== *)
(** * isde-wm: no dangling client pointers

    The window manager keeps pointers to clients outside its client list: the
    focused client, the dragged one, the one whose title button is held, the
    menu's and the switcher's.  [Inv] says that they all point into the list
    and that the divisors and indices the handlers use are usable; [hold] is
    the proof rule that carries it through the handlers. *)

From stdpp Require Import sorting.
From S2P Require Import Prelude.
From S2P Require Import CFloat.
From S2P Require Import WmCore.
From S2P Require Import WmPlace.
From S2P Require Import WmDesk.
From S2P Require Import WmDesktops.
From S2P Require Import WmEvents.
From S2P Require Import WmDispatch.
Open Scope Z_scope.

(** Divisors of the resize code. *)
Definition steps (k : WmClient) : Prop := 1 ≤ inc_w k ∧ 1 ≤ inc_h k.

Definition ids (w : Wm) : list window := map client (clients w).

(** What the handlers leave alone: which clients there are, and the monitors. *)
Definition shape (w : Wm) : list window * list MonitorGeom := (ids w, monitors w).

Definition points (l : list window) (p : option window) : Prop := ∀ c, p = Some c → c ∈ l.

Section Inv.
Context `{!XServer}.

(** Fonts are tall enough for a row to have a height. *)
Definition fonts_readable (s : double) : Prop :=
  ∀ h pad, 0 < to_int (dadd (dmul (d_of_Z (xanswer h (FontHeight pad))) s) one_half).

(** What concerns the client list. *)
Record ClientsOk (l : list WmClient) : Prop := {
  cl_nodup : NoDup (map client l);
  cl_steps : Forall steps l
}.

(** Every pointer into a client list with the ids [l]. *)
Record PointersOk (l : list window) (w : Wm) : Prop := {
  p_focused : points l (focused w);
  p_drag : points l (drag_client w);
  p_btn : points l (btn_press_client w);
  p_menu : points l (menu_client w);
  p_order : switcher_active w = true → Forall (.∈ l) (switcher_order w)
}.

(** Divisors and indices. *)
Record NumbersOk (w : Wm) : Prop := {
  n_monitors : monitors w ≠ [];
  n_snap : snap_pending w ≠ SNAP_NONE → (snap_monitor w < length (monitors w))%nat;
  n_cols : 0 < desk_cols w < 2 ^ 31;
  n_fonts : fonts_readable (scale_factor w);
  n_menu : menu_client w ≠ None → 0 < menu_item_height w
}.

Record Inv (w : Wm) : Prop := {
  i_clients : ClientsOk (clients w);
  i_pointers : PointersOk (ids w) w;
  i_numbers : NumbersOk w
}.

(** ** The proof rule *)

(** In a state of shape [L], [m] does not fault, keeps the invariant
    and the shape, and returns a value satisfying [P]. *)
Definition holdv {A} (L : list window * list MonitorGeom) (m : wprog A) (P : A → Prop) : Prop :=
  ∀ w, Inv (wm w) → shape (wm w) = L →
    wp no_fault m (fun a w' => P a ∧ Inv (wm w') ∧ shape (wm w') = L) w.
Definition hold {A} (L : list window * list MonitorGeom) (m : wprog A) : Prop := holdv L m (fun _ => True).

Lemma holdv_bind {A B} L (m : wprog A) (k : A → wprog B) P Q :
  holdv L m P → (∀ a, P a → holdv L (k a) Q) → holdv L (m ≫= k) Q.
Proof.
  intros Hm Hk w Hi HL. apply wp_bind. eapply wp_mono; [by apply Hm|].
  intros a w' (Ha & Hi' & HL'). apply (Hk a Ha w' Hi' HL').
Qed.

Lemma hold_bind {A B} L (m : wprog A) (k : A → wprog B) :
  hold L m → (∀ a, hold L (k a)) → hold L (m ≫= k).
Proof. intros Hm Hk. eapply holdv_bind; [done|]. intros. apply Hk. Qed.

Lemma hold_bindv {A B} L (m : wprog A) (k : A → wprog B) P :
  holdv L m P → (∀ a, P a → hold L (k a)) → hold L (m ≫= k).
Proof. apply holdv_bind. Qed.

Lemma holdv_ret {A} L (a : A) (P : A → Prop) : P a → holdv L (mret a) P.
Proof. intros HP w Hi HL. by apply wp_ret. Qed.
Lemma hold_ret {A} L (a : A) : hold L (mret a).
Proof. by apply holdv_ret. Qed.
Lemma hold_skip L : hold L skip.
Proof. apply hold_ret. Qed.

Lemma holdv_weaken {A} L (m : wprog A) (P Q : A → Prop) :
  holdv L m P → (∀ a, P a → Q a) → holdv L m Q.
Proof. intros Hm HPQ w Hi HL. eapply wp_mono; [by apply Hm|]. intros a w' (Ha & Hi' & HL'). auto. Qed.

Lemma hold_when L b m : (b = true → hold L m) → hold L (when b m).
Proof. intros Hm. destruct b; [by apply Hm | apply hold_skip]. Qed.

(** A call to the server changes nothing here; its answer comes from it. *)
Lemma holdv_x L c : holdv L (x_ c) (fun a => ∃ h, a = xanswer h c).
Proof. intros [s cs] Hi HL. unfold wp, x_. cbn. split; [by eexists | done]. Qed.
Lemma hold_x L c : hold L (x_ c).
Proof. eapply holdv_weaken; [apply holdv_x | done]. Qed.

Lemma holdv_get L {A} (f : Wm → A) :
  holdv L (get_wm f) (fun a => ∃ w, Inv w ∧ shape w = L ∧ a = f w).
Proof. intros w Hi HL. apply wp_gets. split; [by exists (wm w) | done]. Qed.

(** A store that keeps the client list, the pointers and the numbers. *)
Lemma hold_upd_wm L (f : Wm → Wm) :
  (∀ w, Inv w → shape w = L → Inv (f w) ∧ shape (f w) = L) → hold L (upd_wm f).
Proof. intros Hf w Hi HL. unfold wp, upd_wm, modify. cbn. split; [done|]. by apply Hf. Qed.

(** ** Clients through pointers *)

Lemma find_client_client l c k : find_client l c = Some k → client k = c.
Proof.
  unfold find_client. destruct (list_find _ l) as [[i k']|] eqn:He; [|done].
  cbn. intros [= ->]. by apply list_find_Some in He as (_ & ? & _).
Qed.
Lemma find_client_elem l c k : find_client l c = Some k → k ∈ l.
Proof.
  unfold find_client. destruct (list_find _ l) as [[i k']|] eqn:He; [|done].
  cbn. intros [= ->]. apply list_find_Some in He as (Hi & _ & _).
  by eapply list_elem_of_lookup_2.
Qed.
Lemma find_client_is_Some l c : c ∈ map client l → is_Some (find_client l c).
Proof.
  intros Hc. unfold find_client.
  destruct (list_find (fun k => client k = c) l) as [[i k]|] eqn:He; [by eexists|].
  exfalso. apply list_find_None in He. rewrite Forall_forall in He.
  apply list_elem_of_In, in_map_iff in Hc as (k & Hk & Hin).
  by apply (He k); [apply list_elem_of_In|].
Qed.
Lemma find_client_id l c : find_client l c ≠ None → c ∈ map client l.
Proof.
  destruct (find_client l c) as [k|] eqn:He; [|done]. intros _.
  pose proof (find_client_client _ _ _ He) as <-.
  apply list_elem_of_In, in_map, list_elem_of_In. by eapply find_client_elem.
Qed.

Lemma holdv_deref L c :
  c ∈ L.1 → holdv L (deref c) (fun k => client k = c ∧ steps k).
Proof.
  intros Hc w Hi HL. unfold wp, deref.
  destruct (find_client_is_Some (clients (wm w)) c) as [k Hk].
  { fold (ids (wm w)). by rewrite <- HL in Hc. }
  rewrite Hk. split; [|done]. split; [by eapply find_client_client|].
  eapply Forall_forall; [apply (cl_steps _ (i_clients _ Hi)) | by eapply find_client_elem].
Qed.

Definition keeps_client (f : WmClient → WmClient) : Prop :=
  ∀ k, client (f k) = client k ∧ (steps k → steps (f k)).

Lemma map_client_upd c f l : keeps_client f → map client (upd_client c f l) = map client l.
Proof.
  intros Hf. unfold upd_client. rewrite map_map. apply map_ext. intros k.
  case_decide; [apply Hf | done].
Qed.
Lemma steps_upd c f l : keeps_client f → Forall steps l → Forall steps (upd_client c f l).
Proof.
  intros Hf Hl. unfold upd_client. apply Forall_map. eapply Forall_impl; [done|].
  cbn. intros k Hk. case_decide; [by apply Hf | done].
Qed.

Lemma Inv_clients w l :
  map client l = ids w → Forall steps l → Inv w → Inv (w <| clients := l |>).
Proof.
  intros Hm Hs [[Hn _] [] []]. constructor.
  - constructor; cbn; [by rewrite Hm | done].
  - unfold ids. cbn. rewrite Hm. by constructor.
  - by constructor.
Qed.

Lemma hold_upd L c f : c ∈ L.1 → keeps_client f → hold L (upd c f).
Proof.
  intros Hc Hf. unfold upd. eapply holdv_bind; [by apply holdv_deref|].
  intros _ _. apply hold_upd_wm. intros w Hi HL. split.
  - apply Inv_clients; [by apply map_client_upd | | done].
    apply steps_upd; [done|]. apply (i_clients _ Hi).
  - rewrite <- HL. unfold shape, ids. cbn. by rewrite map_client_upd.
Qed.

Lemma hold_for_each L l body :
  (∀ c, c ∈ l → hold L (body c)) → hold L (for_each l body).
Proof.
  induction l as [|c l IH]; intros Hb; [apply hold_skip|]. cbn.
  apply hold_bind; [apply Hb; set_solver|]. intros _. apply IH. set_solver.
Qed.
Lemma hold_for_clients L body : (∀ c, c ∈ L.1 → hold L (body c)) → hold L (for_clients body).
Proof.
  intros Hb. unfold for_clients. eapply holdv_bind; [apply holdv_get|].
  intros l (w & _ & <- & ->). apply hold_for_each. exact Hb.
Qed.

Lemma holdv_get_monitor L i :
  (i < length L.2)%nat → holdv L (get_monitor i) (fun _ => True).
Proof.
  intros Hlt w Hi <-. cbn in Hlt. unfold wp, get_monitor.
  destruct (lookup_lt_is_Some_2 _ _ Hlt) as [m ->]. done.
Qed.

Lemma monitor_at_point_lt ms px py : ms ≠ [] → (monitor_at_point ms px py < length ms)%nat.
Proof.
  intros Hne. unfold monitor_at_point.
  destruct (list_find _ ms) as [[i m]|] eqn:He; cbn.
  - apply list_find_Some in He as (Hi & _ & _). by eapply lookup_lt_Some.
  - destruct ms; [done | cbn; lia].
Qed.

Lemma first_client_in P l c : first_client P l = Some c → c ∈ map client l.
Proof.
  unfold first_client. destruct (list_find _ l) as [[i k]|] eqn:He; [|done].
  cbn. intros [= <-]. apply list_find_Some in He as (Hi & _ & _).
  apply list_elem_of_In, in_map, list_elem_of_In. by eapply list_elem_of_lookup_2.
Qed.
(** A call, an assignment and a pointer read, for step-by-step reasoning. *)
Lemma wp_x E c (Q : xresult c → World → Prop) w :
  Q (xanswer (xcalls w) c) (w <| xcalls := c :: xcalls w |>) → wp E (x_ c) Q w.
Proof. done. Qed.

Lemma wp_deref c k (Q : WmClient → World → Prop) w :
  find_client (clients (wm w)) c = Some k → Q k w → wp no_fault (deref c) Q w.
Proof. intros Hk HQ. unfold wp, deref. by rewrite Hk. Qed.

Lemma wp_upd c f k (Q : unit → World → Prop) w :
  find_client (clients (wm w)) c = Some k →
  Q tt (w <| wm := (wm w) <| clients := upd_client c f (clients (wm w)) |> |>) →
  wp no_fault (upd c f) Q w.
Proof. intros Hk HQ. apply wp_bind. by eapply wp_deref, wp_modify. Qed.

Lemma find_client_upd c f l k :
  find_client l c = Some k → client (f k) = client k →
  find_client (upd_client c f l) c = Some (f k).
Proof.
  intros Hk Hf. pose proof (find_client_client _ _ _ Hk) as Hc. revert Hk.
  unfold find_client, upd_client. induction l as [|a l IH]; [done|].
  cbn [map list_find]. destruct (decide (client a = c)) as [Ha|Ha].
  - cbn. intros [= ->]. rewrite decide_True by congruence. done.
  - rewrite decide_False by done. intros He.
    destruct (list_find (fun k => client k = c) l) as [[i k']|] eqn:E; [|done].
    cbn in He. injection He as ->.
    specialize (IH eq_refl). by destruct (list_find _ (map _ l)) as [[? ?]|]; [|done].
Qed.
End Inv.

(** ** isde-wm: operations that only talk to the server

    [quiet m]: [m] does not fault and leaves the window manager's state alone.
    [quiet_at c m]: the same, when [c] points to a client. *)

Section Effects.
Context `{!XServer}.

(** ** Operations that only ask the server *)

Definition quiet {A} (m : wprog A) : Prop :=
  ∀ w, wp no_fault m (fun _ w' => wm w' = wm w) w.

Lemma quiet_x c : quiet (x_ c).
Proof. done. Qed.
Lemma quiet_get {A} (f : Wm → A) : quiet (get_wm f).
Proof. done. Qed.
Lemma quiet_ret {A} (a : A) : quiet (mret a).
Proof. done. Qed.
Lemma quiet_bind {A B} (m : wprog A) (k : A → wprog B) :
  quiet m → (∀ a, quiet (k a)) → quiet (m ≫= k).
Proof.
  intros Hm Hk w. apply wp_bind. eapply wp_mono; [apply Hm|]. cbn beta.
  intros a w' <-. apply Hk.
Qed.
Lemma quiet_struts wins acc : quiet (check_struts wins acc).
Proof.
  revert acc. induction wins as [|win wins IH]; intros acc; [apply quiet_ret|].
  apply quiet_bind; [|intros; apply IH].
  apply quiet_bind; [apply (quiet_x (XStrut win)) | intros; apply quiet_ret].
Qed.
Lemma quiet_work_area : quiet wm_get_work_area.
Proof.
  apply quiet_bind; [apply quiet_get|]. intros l.
  apply quiet_bind; [apply quiet_struts|]. intros acc.
  apply quiet_bind; [apply (quiet_x XQueryTree)|]. intros t.
  apply quiet_bind; [apply quiet_struts|]. intros acc'.
  apply quiet_bind; [apply quiet_get|]. intros. apply quiet_ret.
Qed.
Lemma quiet_update_workarea : quiet wm_ewmh_update_workarea.
Proof.
  apply quiet_bind; [apply quiet_work_area|]. intros g.
  apply quiet_bind; [apply quiet_get|]. intros n. apply (quiet_x (XWorkarea _ _ _ _ _)).
Qed.


(** ** The same at a client *)

Definition quiet_at {A} (c : window) (m : wprog A) : Prop :=
  ∀ w, is_Some (find_client (clients (wm w)) c) → wp no_fault m (fun _ w' => wm w' = wm w) w.

Lemma quiet_quiet_at {A} c (m : wprog A) : quiet m → quiet_at c m.
Proof. intros Hm w _. apply Hm. Qed.
Lemma quiet_at_bind {A B} c (m : wprog A) (k : A → wprog B) :
  quiet_at c m → (∀ a, quiet_at c (k a)) → quiet_at c (m ≫= k).
Proof.
  intros Hm Hk w Hw. apply wp_bind. eapply wp_mono; [by apply Hm|]. cbn beta.
  intros a w' E. rewrite <- E in Hw |- *. by apply Hk.
Qed.
Lemma quiet_at_deref c : quiet_at c (deref c).
Proof. intros w [k Hk]. by eapply wp_deref. Qed.
Lemma quiet_at_when c b m : quiet_at c m → quiet_at c (when b m).
Proof. intros Hm. destruct b; [exact Hm | apply quiet_quiet_at, quiet_ret]. Qed.

Ltac quiet_step :=
  lazymatch goal with
  | |- quiet_at _ (x_ ?v) => exact (quiet_quiet_at _ _ (quiet_x v))
  | |- quiet_at _ (get_wm _) => exact (quiet_quiet_at _ _ (quiet_get _))
  | |- quiet_at _ skip => exact (quiet_quiet_at _ _ (quiet_ret _))
  | |- quiet_at _ (deref _) => apply quiet_at_deref
  | |- quiet_at _ (when _ _) => apply quiet_at_when
  | |- quiet_at _ (_ ≫= _) => apply quiet_at_bind; [|intros ?]
  | |- quiet_at _ (if ?b then _ else _) => destruct b
  end.
Ltac quiet := repeat (cbv zeta; quiet_step).

Lemma quiet_place_grips c gs :
  quiet_at c (foldr (fun gr m => place_grip (fst gr) (snd gr);; m) skip gs).
Proof.
  induction gs as [|g gs IH]; cbn [foldr]; [quiet|].
  apply quiet_at_bind; [unfold place_grip; quiet | intros _; exact IH].
Qed.
Lemma quiet_frame_configure c : quiet_at c (frame_configure c).
Proof.
  unfold frame_configure, frame_update_grips, frame_set_extents, frame_send_configure_notify.
  quiet. apply quiet_place_grips.
Qed.
Lemma quiet_net_state c : quiet_at c (wm_update_net_wm_state c).
Proof. unfold wm_update_net_wm_state. quiet. Qed.
End Effects.
