(* ===== verification/WmPointers.v ===== *)
(** * isde-wm: every handler keeps the invariant of WmSafety.v

    One [hold] lemma per operation, in the order of the code; [hold] walks a
    handler and closes what the hints of [wm] cover. *)

From S2P Require Import Prelude.
From S2P Require Import CFloat.
From S2P Require Import WmCore.
From S2P Require Import WmPlace.
From S2P Require Import WmDesk.
From S2P Require Import WmDesktops.
From S2P Require Import WmEvents.
From S2P Require Import WmDispatch.
From S2P Require Import WmSafety.
From stdpp Require Import sorting.
Open Scope Z_scope.

Create HintDb wm discriminated.
#[export] Hint Constants Opaque : wm.
#[export] Hint Transparent xresult : wm.
(** Operations whose result matters. *)
Create HintDb holdv discriminated.
#[export] Hint Constants Opaque : holdv.
#[export] Hint Resolve hold_ret hold_skip hold_x : wm.

(** ** Automation *)

(** [keeps_client] of a chain of field stores. *)
Ltac keeps :=
  try intros ?k; split; [reflexivity | intros [? ?]; split; cbn; try assumption].

(** An update of fields other than the client list. *)
Ltac inv_store :=
  let w := fresh "w" in let Hc := fresh in let Hp := fresh in
  let Hn := fresh in let HL := fresh in
  intros w [Hc Hp Hn] HL; split; [split | exact HL];
  [ exact Hc
  | match goal with |- PointersOk (ids ?x) _ => change (ids x) with (fst (shape w)) end;
    change (ids w) with (fst (shape w)) in Hp; rewrite HL in Hp |- *;
    destruct Hp; constructor; cbn; try assumption
  | change (monitors w) with (snd (shape w)) in Hn;
    destruct Hn; constructor; cbn; try assumption ];
  unfold points in *; try solve [intros ? [=]; congruence | intros ? [= <-]; first [assumption | eauto 4 with wm] | done | auto | lia].

Ltac hold_step :=
  lazymatch goal with
  | |- hold _ (x_ ?c ≫= _) => apply hold_bind; [exact (hold_x _ c) | intros ?]
  | |- hold _ (get_wm _ ≫= _) =>
    eapply hold_bindv; [apply holdv_get | intros ? (?w & ?Hi & ?HL & ->); try unfold id]
  | |- hold _ (deref _ ≫= _) =>
    eapply hold_bindv; [apply holdv_deref; try solve [assumption | eauto 2 with wm] | intros ?k [?Hk ?Hs]]
  | |- hold _ (_ ≫= _) =>
    first [ eapply hold_bindv; [solve [eauto 2 with holdv] | intros ? ?]
          | apply hold_bind; [| intros ?] ]
  | |- hold _ (when _ _) => apply hold_when; intros ?
  | |- hold _ (x_ ?c) => exact (hold_x _ c)
  | |- hold _ (upd _ _) => apply hold_upd; [try solve [assumption | eauto 2 with wm] | try solve [keeps | eauto 2 with wm]]
  | |- hold _ (upd_wm _) => apply hold_upd_wm; try solve [inv_store]
  | |- hold _ (let _ := _ in _) => cbv zeta
  | |- hold _ (match ?x with _ => _ end) => destruct x eqn:?
  | |- hold _ (?m) => first [solve [eauto 6 with wm] | progress cbn beta]
  end.
Ltac hold := repeat (cbv zeta; hold_step).

Section Pointers.
Context `{!XServer}.

Tactic Notation "start" reference(f) := unfold f; hold.

(** ** Geometry and properties *)

Lemma hold_check_strut L win acc : hold L (check_strut win acc).
Proof. start check_strut. Qed.
Hint Resolve hold_check_strut : wm.
Lemma hold_check_struts L wins acc : hold L (check_struts wins acc).
Proof.
  revert acc. induction wins as [|win wins IH]; intros acc; cbn; hold.
Qed.
Hint Resolve hold_check_struts : wm.

Lemma hold_work_area L : hold L wm_get_work_area.
Proof. start wm_get_work_area. Qed.
Lemma hold_primary L : hold L wm_get_primary_monitor.
Proof. start wm_get_primary_monitor. Qed.
Hint Resolve hold_work_area hold_primary : wm.

(** ** Monitors *)

Lemma hold_monitor_work_area L i : (i < length L.2)%nat → hold L (wm_get_monitor_work_area i).
Proof. intros Hi. unfold wm_get_monitor_work_area. hold. by apply holdv_get_monitor. Qed.
Lemma hold_get_monitor L i : (i < length L.2)%nat → hold L (get_monitor i).
Proof. apply holdv_get_monitor. Qed.
Lemma monitor_lt L w px py :
  Inv w → shape w = L → (monitor_at_point (monitors w) px py < length L.2)%nat.
Proof. intros Hi <-. apply monitor_at_point_lt, Hi. Qed.
Lemma monitor_client_lt L w k :
  Inv w → shape w = L → (monitor_for_client (monitors w) k < length L.2)%nat.
Proof. apply monitor_lt. Qed.
Hint Resolve hold_monitor_work_area hold_get_monitor monitor_lt monitor_client_lt : wm.

(** ** Frames *)

Lemma hold_place_grip L win r : hold L (place_grip win r).
Proof. start place_grip. Qed.
Lemma hold_place_grips L gs :
  hold L (foldr (fun gr m => place_grip (fst gr) (snd gr);; m) skip gs).
Proof. induction gs as [|g gs IH]; cbn; hold. apply hold_place_grip. Qed.
Hint Resolve hold_place_grip hold_place_grips : wm.

Lemma hold_set_extents L c : c ∈ L.1 → hold L (frame_set_extents c).
Proof. intros Hc. start frame_set_extents. Qed.
Lemma hold_configure_notify L c : c ∈ L.1 → hold L (frame_send_configure_notify c).
Proof. intros Hc. start frame_send_configure_notify. Qed.
Lemma hold_update_grips L c : c ∈ L.1 → hold L (frame_update_grips c).
Proof. intros Hc. start frame_update_grips. Qed.
Hint Resolve hold_set_extents hold_configure_notify hold_update_grips : wm.

Lemma hold_frame_configure L c : c ∈ L.1 → hold L (frame_configure c).
Proof. intros Hc. start frame_configure. Qed.
Lemma hold_net_state L c : c ∈ L.1 → hold L (wm_update_net_wm_state c).
Proof. intros Hc. start wm_update_net_wm_state. Qed.
Lemma hold_client_list L : hold L wm_ewmh_update_client_list.
Proof. start wm_ewmh_update_client_list. Qed.
Lemma hold_stacking L : hold L wm_ewmh_update_client_list_stacking.
Proof. start wm_ewmh_update_client_list_stacking. Qed.
Lemma hold_active L : hold L wm_ewmh_update_active.
Proof. start wm_ewmh_update_active. Qed.
Lemma hold_workarea L : hold L wm_ewmh_update_workarea.
Proof. start wm_ewmh_update_workarea. Qed.
Hint Resolve hold_frame_configure hold_net_state hold_client_list hold_stacking
  hold_active hold_workarea : wm.

(** ** Timers *)

Lemma hold_now L : hold L wm_now_ms.
Proof. apply hold_x. Qed.
Hint Resolve hold_now : wm.
Lemma hold_timer_add L ms f : hold L (wm_timer_add ms f).
Proof. start wm_timer_add. Qed.
Lemma hold_timer_remove L i : hold L (wm_timer_remove i).
Proof. start wm_timer_remove. Qed.
Hint Resolve hold_timer_add hold_timer_remove : wm.

(** ** Placement, maximizing, snapping *)

Lemma keeps_on (b : WmClient → bool) f :
  keeps_client f → keeps_client (fun k => on (b k) f k).
Proof. intros Hf k. unfold on. destruct (b k); [apply Hf | done]. Qed.
Lemma keeps_comp f g : keeps_client f → keeps_client g → keeps_client (fun k => g (f k)).
Proof. intros Hf Hg k. destruct (Hf k), (Hg (f k)). split; [congruence | auto]. Qed.
Lemma keeps_set_x v : keeps_client (set_x v). Proof. keeps. Qed.
Lemma keeps_set_y v : keeps_client (set_y v). Proof. keeps. Qed.
Lemma keeps_set_width v : keeps_client (set_width v). Proof. keeps. Qed.
Lemma keeps_set_height v : keeps_client (set_height v). Proof. keeps. Qed.
Lemma keeps_fill th a : keeps_client (fill_area th a). Proof. keeps. Qed.
Lemma keeps_clamp th a : keeps_client (clamp_client th a).
Proof.
  intros k. unfold clamp_client, on.
  repeat match goal with |- context [if ?b then _ else _] => destruct b end; keeps.
Qed.
Lemma keeps_pull th m : keeps_client (pull_onto th m).
Proof.
  intros k. unfold pull_onto, on.
  repeat match goal with |- context [if ?b then _ else _] => destruct b end; keeps.
Qed.
Hint Resolve keeps_set_x keeps_set_y keeps_set_width keeps_set_height keeps_fill
  keeps_clamp keeps_pull : wm.

Lemma hold_maximize L c : c ∈ L.1 → hold L (wm_maximize_client c).
Proof. intros Hc. start wm_maximize_client. Qed.
Lemma hold_fullscreen L c b : c ∈ L.1 → hold L (wm_fullscreen_client c b).
Proof. intros Hc. start wm_fullscreen_client. Qed.
Hint Resolve hold_maximize hold_fullscreen : wm.

Lemma nearest_lt px py ms i best :
  (snd best < i + length ms)%nat → (nearest px py i best ms < i + length ms)%nat.
Proof.
  revert i best. induction ms as [|m ms IH]; intros i best Hb; cbn in *; [done|].
  replace (i + S (length ms))%nat with (S i + length ms)%nat by lia.
  apply IH. case_match; cbn; lia.
Qed.

Lemma nearest_monitor_lt L w px py d :
  Inv w → shape w = L → (nearest px py 0 (d, 0) (monitors w) < length L.2)%nat.
Proof.
  intros Hi <-. cbn. apply (nearest_lt _ _ _ 0). cbn.
  destruct (monitors w) eqn:E; [by destruct (n_monitors _ (i_numbers _ Hi)) | cbn; lia].
Qed.
Hint Resolve nearest_monitor_lt : wm.

Lemma hold_rescue_one L c : c ∈ L.1 → hold L (rescue_one c).
Proof. intros Hc. start rescue_one; eauto with wm. Qed.
Hint Resolve hold_rescue_one : wm.
Lemma hold_rescue L : hold L rescue_orphaned_clients.
Proof. apply hold_for_clients. eauto with wm. Qed.
Hint Resolve hold_rescue : wm.

Lemma hold_detect L px py : hold L (detect_snap_zone px py).
Proof. start detect_snap_zone. Qed.
Lemma hold_snap_geometry L z i : (i < length L.2)%nat → hold L (snap_geometry z i).
Proof. intros Hi. start snap_geometry. Qed.
Hint Resolve hold_detect hold_snap_geometry : wm.
Lemma hold_preview_show L z i : (i < length L.2)%nat → hold L (snap_preview_show z i).
Proof. intros Hi. start snap_preview_show. Qed.
Lemma hold_preview_hide L : hold L snap_preview_hide.
Proof. start snap_preview_hide. Qed.
Lemma hold_apply_snap L c z i : c ∈ L.1 → (i < length L.2)%nat → hold L (apply_snap c z i).
Proof. intros Hc Hi. start apply_snap. Qed.
Hint Resolve hold_preview_show hold_preview_hide hold_apply_snap : wm.

(** ** Stacking and focus *)

Lemma hold_restack L : hold L wm_restack_above_below.
Proof.
  unfold wm_restack_above_below. hold; apply hold_for_clients; intros c Hc.
  - start restack_below.
  - start restack_above.
  - start restack_modal.
Qed.
Hint Resolve hold_restack : wm.

Lemma hold_drop_focus L c : c ∈ L.1 → hold L (drop_focus c).
Proof. intros Hc. start drop_focus. Qed.
Lemma hold_take_focus L c t : c ∈ L.1 → hold L (take_focus c t).
Proof. intros Hc. start take_focus. Qed.
Hint Resolve hold_drop_focus hold_take_focus : wm.

Lemma focus_target_in l c : c ∈ map client l → focus_target l c ∈ map client l.
Proof.
  intros Hc. unfold focus_target.
  destruct (first_client (modal_for c) l) as [m|] eqn:E; [|done].
  by eapply first_client_in.
Qed.

Lemma most_recent_in l k : most_recent l = Some k → k ∈ l.
Proof.
  unfold most_recent.
  assert (H0 : ∀ o, foldl mru_step o l = Some k → o = Some k ∨ k ∈ l).
  { induction l as [|a l IH]; cbn; intros o Hf; [by left|].
    destruct (IH _ Hf) as [He|Hin]; [|right; by right].
    destruct o as [b|]; cbn in He; [|injection He as ->; right; left].
    case_match; [injection He as ->; right; left | by left]. }
  intros Hf. by destruct (H0 _ Hf).
Qed.

(** What [Inv] says of the pointers, as hints. *)
Lemma ptr_focused L w c : Inv w → shape w = L → focused w = Some c → c ∈ L.1.
Proof. intros [_ [] _] <-. auto. Qed.
Lemma ptr_drag L w c : Inv w → shape w = L → drag_client w = Some c → c ∈ L.1.
Proof. intros [_ [] _] <-. auto. Qed.
Lemma ptr_btn L w c : Inv w → shape w = L → btn_press_client w = Some c → c ∈ L.1.
Proof. intros [_ [] _] <-. auto. Qed.
Lemma ptr_menu L w c : Inv w → shape w = L → menu_client w = Some c → c ∈ L.1.
Proof. intros [_ [] _] <-. auto. Qed.
Lemma ptr_clients L w : shape w = L → map client (clients w) = L.1.
Proof. by intros <-. Qed.
Lemma ptr_found L w win c :
  shape w = L → wm_find_client_by_window (clients w) win = Some c → c ∈ L.1.
Proof.
  intros <-. unfold wm_find_client_by_window. cbn.
  destruct (find_client (clients w) win) as [k|] eqn:E; [|done]. intros [= <-].
  rewrite (find_client_client _ _ _ E). apply find_client_id. by rewrite E.
Qed.
Lemma ptr_first L w P c : shape w = L → first_client P (clients w) = Some c → c ∈ L.1.
Proof. intros <-. apply first_client_in. Qed.
Hint Resolve ptr_focused ptr_drag ptr_btn ptr_menu ptr_found ptr_first : wm.

Lemma points_none l : points l None.
Proof. done. Qed.
Lemma points_some l c : c ∈ l → points l (Some c).
Proof. by intros Hc ? [= <-]. Qed.
Hint Resolve points_none points_some : wm.

Lemma hold_focus L o t : points L.1 o → hold L (wm_focus_client o t).
Proof.
  intros Ho. unfold wm_focus_client. hold_step. cbv zeta.
  assert (Ho' : points L.1 (focus_target (clients w) <$> o)).
  { intros c. destruct o as [c'|]; [|done]. intros [= <-].
    rewrite <- (ptr_clients _ _ HL). apply focus_target_in.
    rewrite (ptr_clients _ _ HL). by apply Ho. }
  generalize dependent (focus_target (clients w) <$> o). intros o' Ho'. hold.

Qed.
Hint Resolve hold_focus : wm.

(** ** Minimize, restore, stacking flags, desktops of a client *)

Lemma hold_unmap_client L c : c ∈ L.1 → hold L (unmap_client c).
Proof. intros Hc. start unmap_client. Qed.
Lemma hold_unmap_frame L c : c ∈ L.1 → hold L (unmap_frame c).
Proof. intros Hc. start unmap_frame. Qed.
Lemma hold_map_frame L c : c ∈ L.1 → hold L (map_frame c).
Proof. intros Hc. start map_frame. Qed.
Lemma hold_set_state L c s : hold L (wm_set_wm_state c s).
Proof. exact (hold_x _ _). Qed.
Hint Resolve hold_unmap_client hold_unmap_frame hold_map_frame hold_set_state : wm.

Lemma hold_minimize L c : c ∈ L.1 → hold L (wm_minimize_client c).
Proof. intros Hc. start wm_minimize_client. Qed.
Lemma hold_restore L c : c ∈ L.1 → hold L (wm_restore_client c).
Proof. intros Hc. start wm_restore_client. Qed.
Lemma hold_set_above L c b : c ∈ L.1 → hold L (wm_set_above c b).
Proof. intros Hc. start wm_set_above. intros k. unfold on. destruct (b && below k); keeps. Qed.
Lemma hold_set_below L c b : c ∈ L.1 → hold L (wm_set_below c b).
Proof. intros Hc. start wm_set_below. intros k. unfold on. destruct (b && above k); keeps. Qed.
Lemma hold_hide L c : c ∈ L.1 → hold L (hide_client c).
Proof. intros Hc. start hide_client. Qed.
Lemma hold_show L c : c ∈ L.1 → hold L (show_client c).
Proof. intros Hc. start show_client. Qed.
Hint Resolve hold_minimize hold_restore hold_set_above hold_set_below hold_hide hold_show : wm.
Lemma hold_set_desktop L c d : c ∈ L.1 → hold L (set_desktop c d).
Proof. intros Hc. start set_desktop. Qed.
Hint Resolve hold_set_desktop : wm.
Lemma hold_move_to_desktop L c d : c ∈ L.1 → hold L (wm_move_to_desktop c d).
Proof. intros Hc. start wm_move_to_desktop. Qed.
Hint Resolve hold_move_to_desktop : wm.
Lemma hold_close L c : hold L (wm_close_client c).
Proof. start wm_close_client. Qed.
Hint Resolve hold_close : wm.

(** ** The switcher *)

Lemma hold_destroy_osd L : hold L destroy_osd.
Proof. start destroy_osd. Qed.
Hint Resolve hold_destroy_osd : wm.

Lemma hold_div L a b : b ≠ 0 → hold L (div_ a b).
Proof. intros Hb. unfold div_. case_match; [lia | apply hold_ret]. Qed.

Lemma row_height_pos w h pad : Inv w → 0 < wm_scale w (xanswer h (FontHeight pad)).
Proof. intros Hi. apply (n_fonts _ (i_numbers _ Hi)). Qed.

Lemma hold_create_osd L : hold L create_osd.
Proof.
  unfold create_osd. hold_step; [eauto with wm|]. hold_step.
  eapply hold_bindv; [apply holdv_x|]. intros fh [h ->].
  hold. apply hold_div, Z.neq_sym, Z.lt_neq. by apply row_height_pos.

Qed.
Hint Resolve hold_create_osd : wm.

Lemma hold_next L : hold L wm_switcher_next.
Proof. start wm_switcher_next. Qed.
Lemma hold_prev L : hold L wm_switcher_prev.
Proof. start wm_switcher_prev. Qed.
Lemma hold_cancel L : hold L wm_switcher_cancel.
Proof. start wm_switcher_cancel. Qed.
Hint Resolve hold_next hold_prev hold_cancel : wm.

(** The windows the switcher lists are clients. *)
Lemma order_clients w :
  Forall (.∈ ids w) (map client
    (merge_sort mru_before (filter (switchable (current_desktop w)) (clients w)))).
Proof.
  apply Forall_map, Forall_forall. intros k Hk. cbn.
  rewrite (merge_sort_Permutation mru_before) in Hk.
  apply list_elem_of_filter in Hk as [_ Hk].
  by apply list_elem_of_In, in_map, list_elem_of_In.
Qed.

(** Storing a list of clients as the order, and then activating it. *)
Lemma Inv_order w l : Inv w → Forall (.∈ ids w) l → Inv (w <| switcher_order := l |>).
Proof. intros [? [] []] Hl. constructor; [done| |by constructor]. by constructor. Qed.
Lemma Inv_activate w :
  Inv w → Forall (.∈ ids w) (switcher_order w) → Inv (w <| switcher_active := true |>).
Proof. intros [? [] []] Hl. constructor; [done| |by constructor]. by constructor. Qed.

Lemma wp_activate L w :
  Inv (wm w) → shape (wm w) = L → Forall (.∈ ids (wm w)) (switcher_order (wm w)) →
  wp no_fault (switcher_active =: true;; switcher_sel =: 1;; create_osd)
    (fun _ w' => True ∧ Inv (wm w') ∧ shape (wm w') = L) w.
Proof.
  intros Hi HL Ho. apply wp_bind, wp_modify.
  assert (Hm : hold L (switcher_sel =: 1;; create_osd)) by hold.
  apply Hm; [by apply Inv_activate | exact HL].
Qed.

Lemma hold_show_switcher L : hold L wm_switcher_show.
Proof.
  intros w Hi HL. unfold wm_switcher_show. apply wp_bind, wp_gets. cbn beta.
  destruct (switcher_active (wm w)) eqn:Ha; [exact (hold_next L w Hi HL)|].
  apply wp_bind. unfold build_order. apply wp_bind, wp_gets, wp_modify.
  apply wp_bind, wp_gets.
  pose proof (order_clients (wm w)) as Ho. cbn [wm id].
  set (o := map client _) in *. clearbody o.
  assert (Hi1 := Inv_order _ o Hi Ho).
  assert (H0 : Inv ((wm w) <| switcher_order := o |> <| switcher_order := [] |>))
    by (apply Inv_order; [done | constructor]).
  destruct (_ <? 2); [apply wp_modify; split; [exact I | split; [exact H0 | exact HL]]|].
  apply wp_bind. apply (wp_x no_fault XGrabKeyboard). cbn beta.
  destruct (negb _); [apply wp_modify; split; [exact I | split; [exact H0 | exact HL]]|].
  apply wp_activate; [exact Hi1 | exact HL | exact Ho].
Qed.
Hint Resolve hold_show_switcher : wm.

Lemma hold_commit L : hold L wm_switcher_commit.
Proof.
  intros w Hi HL. unfold wm_switcher_commit. apply wp_bind, wp_gets. cbn [id].
  destruct (switcher_active (wm w)) eqn:Ha; [|apply wp_ret; auto]. cbn [negb].
  set (tgt := if _ && _ then _ else _).
  assert (Ht : points L.1 tgt).
  { intros c. unfold tgt. destruct (_ && _); [|done]. intros Hc%list_elem_of_lookup_2.
    rewrite <- HL.
    pose proof (p_order _ _ (i_pointers _ Hi) Ha) as Ho. rewrite Forall_forall in Ho.
    by apply Ho. }
  clearbody tgt. revert w Hi HL Ha. intros w Hi HL _.
  match goal with |- wp _ ?m _ _ => assert (Hm : hold L m); [|by apply Hm] end.
  hold; by apply Ht.
Qed.
Hint Resolve hold_commit : wm.
End Pointers.

(** The hints above, for the files that follow. *)
#[export] Hint Resolve hold_check_strut hold_check_struts hold_work_area hold_primary hold_monitor_work_area
  hold_get_monitor monitor_lt monitor_client_lt hold_place_grip hold_place_grips
  hold_set_extents hold_configure_notify hold_update_grips hold_frame_configure
  hold_net_state hold_client_list hold_stacking hold_active hold_workarea hold_now
  hold_timer_add hold_timer_remove keeps_set_x keeps_set_y keeps_set_width
  keeps_set_height keeps_fill keeps_clamp keeps_pull hold_maximize hold_fullscreen
  nearest_monitor_lt hold_rescue_one hold_rescue hold_detect hold_snap_geometry
  hold_preview_show hold_preview_hide hold_apply_snap hold_restack hold_drop_focus
  hold_take_focus ptr_focused ptr_drag ptr_btn ptr_menu ptr_found ptr_first points_none
  points_some hold_focus hold_unmap_client hold_unmap_frame hold_map_frame
  hold_set_state hold_minimize hold_restore hold_set_above hold_set_below hold_hide
  hold_show hold_set_desktop hold_move_to_desktop hold_close hold_destroy_osd
  hold_create_osd hold_next hold_prev hold_cancel hold_show_switcher hold_commit : wm.
