(* ===== verification/WmHandlers.v ===== *)
(** * isde-wm: the handlers that keep the client list
    (desktops.c, the sync code, timers, drags, keys, messages) *)

From S2P Require Import Prelude.
From S2P Require Import CFloat.
From S2P Require Import WmCore.
From S2P Require Import WmPlace.
From S2P Require Import WmDesk.
From S2P Require Import WmDesktops.
From S2P Require Import WmEvents.
From S2P Require Import WmDispatch.
From S2P Require Import WmSafety.
From S2P Require Import WmPointers.
Open Scope Z_scope.

Section Handlers.
Context `{!XServer}.

Tactic Notation "start" reference(f) := unfold f; hold.

(** ** Desktops *)

Lemma s32_lt z : s32 z < 2 ^ 31.
Proof. unfold s32. pose proof (Z.mod_pos_bound (z + 2 ^ 31) (2 ^ 32)). lia. Qed.
Lemma config_grid_lt cfg : snd (config_grid cfg) < 2 ^ 31.
Proof. destruct cfg as [[r c]|]; cbn; [|lia]. case_match; [apply s32_lt | lia]. Qed.
Lemma valid_layout_lt l lc lr : valid_layout l = Some (lc, lr) → lc < 2 ^ 31.
Proof.
  destruct l as [[c r]|]; [|done]. unfold valid_layout. case_match; [|done].
  intros [= <- <-]. apply s32_lt.
Qed.
Hint Resolve s32_lt config_grid_lt valid_layout_lt : wm.

Lemma holdv_read_config L : holdv L wm_desktops_read_config (fun g => snd g < 2 ^ 31).
Proof.
  unfold wm_desktops_read_config. eapply holdv_bind; [apply holdv_x|].
  intros cfg _. apply holdv_ret, config_grid_lt.
Qed.

Hint Resolve holdv_read_config : holdv.
Lemma hold_sync_visible L c : c ∈ L.1 → hold L (sync_visible c).
Proof. intros Hc. start sync_visible. Qed.
Lemma hold_pull L d c : c ∈ L.1 → hold L (pull_desktop d c).
Proof. intros Hc. start pull_desktop. Qed.
Hint Resolve hold_sync_visible hold_pull : wm.
Lemma hold_sync_visibility L : hold L wm_desktops_sync_visibility.
Proof. apply hold_for_clients. eauto with wm. Qed.
Hint Resolve hold_sync_visibility : wm.

Lemma hold_apply L rows cols : cols < 2 ^ 31 → hold L (wm_desktops_apply rows cols).
Proof.
  intros Hc. unfold wm_desktops_apply. hold.
  apply hold_for_clients. eauto with wm.
Qed.
Hint Resolve hold_apply : wm.

Lemma hold_arm L : hold L arm_reload.
Proof. start arm_reload. Qed.
Hint Resolve hold_arm : wm.
Lemma hold_reload_poll L : hold L wm_desktops_reload_poll.
Proof.
  unfold wm_desktops_reload_poll. hold.
Qed.
Lemma hold_settings L : hold L wm_desktops_settings_changed.
Proof. start wm_desktops_settings_changed. Qed.
Lemma hold_osd_hide L : hold L osd_hide_cb.
Proof. start osd_hide_cb. Qed.
Lemma hold_show_osd L : hold L wm_desktops_show_osd.
Proof. start wm_desktops_show_osd. Qed.
Hint Resolve hold_reload_poll hold_settings hold_osd_hide hold_show_osd : wm.

Lemma hold_switch_client L old d c : c ∈ L.1 → hold L (switch_client old d c).
Proof. intros Hc. start switch_client. Qed.
Hint Resolve hold_switch_client : wm.

Lemma most_recent_on L w P `{∀ k, Decision (P k)} :
  shape w = L → points L.1 (client <$> most_recent (filter P (clients w))).
Proof.
  intros <- c. destruct (most_recent _) as [k|] eqn:E; [|done]. intros [= <-].
  apply most_recent_in, list_elem_of_filter in E as [_ E].
  by apply list_elem_of_In, in_map, list_elem_of_In.
Qed.

Lemma hold_switch L d : hold L (wm_desktops_switch d).
Proof.
  unfold wm_desktops_switch. hold.
  - apply hold_for_clients. eauto with wm.
  - apply hold_focus, most_recent_on. done.
Qed.
Hint Resolve hold_switch : wm.

Lemma hold_move L dx dy : hold L (wm_desktops_move dx dy).
Proof.
  unfold wm_desktops_move. hold. exfalso.
  pose proof (n_cols _ (i_numbers _ Hi)). cbn in *.
  unfold u32 in *. rewrite Z.mod_small in * by lia. lia.
Qed.
Hint Resolve hold_move : wm.

(** ** Resize synchronisation, timers *)

Lemma hold_sync_expire L c : c ∈ L.1 → hold L (sync_expire c).
Proof. intros Hc. start sync_expire. Qed.
Hint Resolve hold_sync_expire : wm.
Lemma hold_sync_timeout L : hold L sync_timeout_cb.
Proof. apply hold_for_clients. eauto with wm. Qed.
Lemma hold_arm_alarm L c : c ∈ L.1 → hold L (sync_arm_alarm c).
Proof. intros Hc. start sync_arm_alarm. Qed.
Hint Resolve hold_sync_timeout hold_arm_alarm : wm.
Lemma hold_throttle L c : c ∈ L.1 → hold L (wm_sync_throttle c).
Proof. intros Hc. start wm_sync_throttle. Qed.
Lemma hold_settle L c : c ∈ L.1 → hold L (sync_settle c).
Proof. intros Hc. start sync_settle. Qed.
Hint Resolve hold_throttle hold_settle : wm.
Lemma hold_alarm L a v : hold L (wm_sync_alarm_notify a v).
Proof. start wm_sync_alarm_notify. Qed.
Hint Resolve hold_alarm : wm.

Lemma hold_callback L f : hold L (callback_run f).
Proof. start callback_run. Qed.
Hint Resolve hold_callback : wm.
Lemma hold_fire L now slots : hold L (fire_from now slots).
Proof. induction slots as [|i slots IH]; cbn [fire_from]; hold. Qed.
Hint Resolve hold_fire : wm.
Lemma hold_timers_fire L : hold L wm_timers_fire.
Proof. start wm_timers_fire. Qed.
Hint Resolve hold_timers_fire : wm.

(** ** Drags *)

Lemma find_grip_in win l c e : find_grip_client win l = Some (c, e) → c ∈ map client l.
Proof.
  induction l as [|k l IH]; [done|]. cbn [find_grip_client].
  destruct (list_find _ _) as [[i g]|]; [intros [= <- _]; left | right; auto].
Qed.
Lemma ptr_grip L w win c e :
  shape w = L → find_grip_client win (clients w) = Some (c, e) → c ∈ L.1.
Proof. intros <-. apply find_grip_in. Qed.
Hint Resolve ptr_grip : wm.

Lemma hold_grip_press L ev : hold L (on_grip_press ev).
Proof. start on_grip_press. Qed.
Hint Resolve hold_grip_press : wm.

Lemma hold_configure_request L r : hold L (on_configure_request r).
Proof. start on_configure_request. Qed.
Hint Resolve hold_configure_request : wm.

Lemma hold_drag_out L c px py : c ∈ L.1 → hold L (drag_out c px py).
Proof. intros Hc. start drag_out. Qed.
Hint Resolve hold_drag_out : wm.

(** The zone and its monitor are stored one after the other. *)
Lemma hold_set_snap L z i : (i < length L.2)%nat → hold L (set_snap z i).
Proof.
  intros Hlt w Hi HL. apply wp_bind, wp_modify, wp_modify. split; [done|]. split; [|exact HL].
  destruct Hi as [? [] []]. split; [done|by constructor|]. constructor; cbn; auto.
  intros _. rewrite <- HL in Hlt. exact Hlt.
Qed.
Hint Resolve hold_set_snap : wm.

Lemma hold_drag_move L c px py : c ∈ L.1 → hold L (drag_move c px py).
Proof. intros Hc. start drag_move. Qed.
Lemma hold_drag_resize L c px py : c ∈ L.1 → hold L (drag_resize c px py).
Proof.
  intros Hc. start drag_resize. exfalso. destruct Hs as [? ?].
  repeat match goal with
  | H : andb _ _ = true |- _ => apply andb_true_iff in H as [? ?]
  | H : orb _ _ = true |- _ => apply orb_true_iff in H as [?|?]
  end; lia.
Qed.
Hint Resolve hold_drag_move hold_drag_resize : wm.
Lemma hold_motion L ev : hold L (on_motion_notify ev).
Proof. start on_motion_notify. Qed.
Hint Resolve hold_motion : wm.

Lemma hold_end_drag L : hold L end_drag.
Proof. start end_drag. Qed.
Lemma snap_lt L w b :
  Inv w → shape w = L → b && negb (bool_decide (snap_pending w = SNAP_NONE)) = true →
  (snap_monitor w < length L.2)%nat.
Proof.
  intros Hi <- [_ Hp]%andb_true_iff. apply (n_snap _ (i_numbers _ Hi)).
  by apply negb_true_iff, bool_decide_eq_false in Hp.
Qed.
Hint Resolve hold_end_drag snap_lt : wm.
Lemma hold_finish_drag L c : c ∈ L.1 → hold L (finish_drag c).
Proof. intros Hc. start finish_drag. Qed.
Hint Resolve hold_finish_drag : wm.
Lemma hold_release L ev : hold L (on_button_release ev).
Proof. start on_button_release. Qed.
Hint Resolve hold_release : wm.

(** ** The menu and the title bar *)

Lemma hold_dismiss L : hold L wm_dismiss_menu.
Proof. start wm_dismiss_menu. Qed.
Hint Resolve hold_dismiss : wm.

Lemma hold_menu_show L c : c ∈ L.1 → hold L (win_menu_show c).
Proof.
  intros Hc. unfold win_menu_show. hold_step; [eauto with wm|].
  eapply hold_bindv; [apply holdv_x|]. intros fh [h ->]. hold.
  intros w' Hi' HL'. pose proof (row_height_pos w h 6 Hi) as Hr. unfold wm_scale in Hr.
  revert w' Hi' HL'. inv_store.
Qed.
Hint Resolve hold_menu_show : wm.

Lemma hold_menu_action L c i : c ∈ L.1 → hold L (menu_action c i).
Proof. intros Hc. start menu_action. Qed.
Hint Resolve hold_menu_action : wm.
Lemma hold_menu_click L py : hold L (win_menu_click py).
Proof.
  unfold win_menu_click. hold. apply hold_div.
  pose proof (n_menu _ (i_numbers _ Hi)) as Hm. rewrite Heqo in Hm.
  assert (0 < menu_item_height w) by by apply Hm. lia.
Qed.
Hint Resolve hold_menu_click : wm.

Lemma hold_frame_press L c ev : c ∈ L.1 → hold L (on_frame_button_press c ev).
Proof. intros Hc. start on_frame_button_press. Qed.
Lemma hold_press_motion L ev : hold L (on_button_press_motion ev).
Proof. start on_button_press_motion. Qed.
Lemma hold_button_action L c b : c ∈ L.1 → hold L (button_action c b).
Proof. intros Hc. start button_action. Qed.
Hint Resolve hold_frame_press hold_press_motion hold_button_action : wm.
Lemma hold_press_release L ev : hold L (on_button_press_release ev).
Proof. start on_button_press_release. Qed.
Hint Resolve hold_press_release : wm.

(** ** Keys and messages *)

Lemma hold_keys L sym st : hold L (wm_keys_handle sym st).
Proof. start wm_keys_handle. Qed.
Lemma hold_keys_release L sym : hold L (wm_keys_handle_release sym).
Proof. start wm_keys_handle_release. Qed.
Hint Resolve hold_keys hold_keys_release : wm.

Lemma hold_active_window L win s t : hold L (on_active_window win s t).
Proof. start on_active_window. Qed.
Lemma hold_when_state L a1 a2 ss c body :
  c ∈ L.1 → (∀ k, hold L (body k)) → hold L (when_state a1 a2 ss c body).
Proof. intros Hc Hb. unfold when_state. hold. Qed.
Lemma hold_toggle_sticky L c b k : c ∈ L.1 → hold L (toggle_sticky c b k).
Proof. intros Hc. start toggle_sticky. Qed.
Hint Resolve hold_active_window hold_toggle_sticky : wm.
Lemma hold_wm_state L c a a1 a2 : c ∈ L.1 → hold L (on_wm_state c a a1 a2).
Proof.
  intros Hc. unfold on_wm_state.
  hold; (apply hold_when_state; [exact Hc | intros k; hold]).
Qed.
Lemma hold_moveresize L c px py d b : c ∈ L.1 → hold L (on_moveresize c px py d b).
Proof. intros Hc. start on_moveresize. Qed.
Lemma hold_extents L win : hold L (on_request_extents win).
Proof.
  unfold on_request_extents, wm_window_type_wants_decorations, wm_client_wants_decorations. hold.
Qed.
Hint Resolve hold_wm_state hold_moveresize hold_extents : wm.
Lemma hold_with_client L win f :
  (∀ c, c ∈ L.1 → hold L (f c)) → hold L (with_client win f).
Proof. intros Hf. unfold with_client. hold. Qed.
Lemma hold_message L m : hold L (handle_client_message m).
Proof.
  unfold handle_client_message. destruct m; try solve [hold];
    (apply hold_with_client; intros c Hc; hold).
Qed.
Hint Resolve hold_message : wm.
End Handlers.

(** The hints above, for the files that follow. *)
#[export] Hint Resolve s32_lt config_grid_lt valid_layout_lt hold_sync_visible hold_pull
  hold_sync_visibility hold_apply hold_arm hold_reload_poll hold_settings hold_osd_hide
  hold_show_osd hold_switch_client hold_switch hold_move hold_sync_expire
  hold_sync_timeout hold_arm_alarm hold_throttle hold_settle hold_alarm hold_callback
  hold_fire hold_timers_fire ptr_grip hold_grip_press hold_configure_request
  hold_drag_out hold_set_snap hold_drag_move hold_drag_resize hold_motion hold_end_drag
  snap_lt hold_finish_drag hold_release hold_dismiss hold_menu_show hold_menu_action
  hold_menu_click hold_frame_press hold_press_motion hold_button_action
  hold_press_release hold_keys hold_keys_release hold_active_window hold_toggle_sticky
  hold_wm_state hold_moveresize hold_extents hold_message : wm.
