(* ===== verification/WmLifecycle.v ===== *)
(** * isde-wm: removing a client keeps the invariant

    [wm_remove_client] unlinks the client first and then clears the pointers
    to it; in between the invariant does not hold.  [Unlinked] is what holds
    there. *)

From S2P Require Import Prelude.
From S2P Require Import CFloat.
From S2P Require Import WmCore.
From S2P Require Import WmPlace.
From S2P Require Import WmDesk.
From S2P Require Import WmDesktops.
From S2P Require Import WmEvents.
From S2P Require Import WmDispatch.
From S2P Require Import WmSafety.
From S2P Require Import WmPointers.
From S2P Require Import WmHandlers.
Open Scope Z_scope.

Section Lifecycle.
Context `{!XServer}.

(** ** Unlinking *)

Lemma unlink_sublist c l : sublist (unlink c l) l.
Proof.
  induction l as [|k l IH]; cbn; [constructor|].
  case_decide; [by apply sublist_cons | by apply sublist_skip].
Qed.
Lemma unlink_other c l x :
  x ∈ map client l → x = c ∨ x ∈ map client (unlink c l).
Proof.
  induction l as [|k l IH]; cbn; [intros []%not_elem_of_nil|].
  intros [->|Hx]%elem_of_cons.
  - case_decide; [by left | right; left].
  - case_decide; [by right|]. destruct (IH Hx); [by left | right; by right].
Qed.
Lemma unlink_ok c l : ClientsOk l → ClientsOk (unlink c l).
Proof.
  intros [Hn Hs]. constructor.
  - eapply sublist_NoDup; [exact Hn|]. apply fmap_sublist, unlink_sublist.
  - rewrite Forall_forall in Hs |- *. intros k Hk. apply Hs.
    eapply sublist_subseteq; [apply unlink_sublist | exact Hk].
Qed.

(** [c] has been unlinked, leaving the ids [l]; the pointers flagged [true]
    have been cleared of it already. *)
Record Unlinked (c : window) (l : list window) (F D B S : bool) (w : Wm) : Prop := {
  u_clients : ClientsOk (clients w);
  u_ids : ids w = l;
  u_numbers : NumbersOk w;
  u_menu : points l (menu_client w);
  u_focused : points (if F then l else c :: l) (focused w);
  u_drag : points (if D then l else c :: l) (drag_client w);
  u_btn : points (if B then l else c :: l) (btn_press_client w);
  u_order : S = true → switcher_active w = false
}.

Lemma points_drop c l p : points (c :: l) p → p ≠ Some c → points l p.
Proof. intros Hp Hc x Hx. pose proof (Hp x Hx) as [->|?]%elem_of_cons; [congruence | done]. Qed.

Lemma unlinked_start c w :
  Inv w → menu_client w ≠ Some c →
  Unlinked c (map client (unlink c (clients w))) false false false false
    (w <| clients := unlink c (clients w) |>).
Proof.
  intros [Hc [] []] Hm.
  assert (Hp : ∀ p, points (ids w) p → points (c :: map client (unlink c (clients w))) p).
  { intros p Hp x Hx. apply elem_of_cons, unlink_other, Hp, Hx. }
  constructor; cbn; auto using unlink_ok; [by constructor | | discriminate].
  eapply points_drop; [by apply Hp | done].
Qed.

Lemma unlinked_done c l w : Unlinked c l true true true true w → Inv w ∧ ids w = l.
Proof.
  intros []. split; [|done]. split; [done| |done]. subst l.
  constructor; auto. rewrite u_order0; [done | done].
Qed.
(** ** Clearing the pointers *)

(** Field stores under [Unlinked]. *)
Ltac unlinked_store :=
  cbn beta; match goal with Hu : Unlinked _ _ _ _ _ _ _ |- _ => destruct Hu as [? ? [] ? ? ? ? ?] end;
  constructor; cbn; auto using points_none; constructor; cbn; auto; done.

Lemma wp_preview_hide c l F D B S w :
  Unlinked c l F D B S (wm w) →
  wp no_fault snap_preview_hide (fun _ w' => Unlinked c l F D B S (wm w')) w.
Proof.
  intros Hu. unfold snap_preview_hide. apply wp_bind, wp_gets, wp_bind, wp_when.
  - intros _. apply wp_bind. apply (wp_x no_fault (XDestroy _)). apply wp_modify, wp_modify.
    unlinked_store.
  - intros _. apply wp_modify. unlinked_store.
Qed.

Lemma wp_cancel c l F D B w S :
  Unlinked c l F D B S (wm w) →
  wp no_fault (act ← get_wm switcher_active; when act wm_switcher_cancel)
    (fun _ w' => Unlinked c l F D B true (wm w')) w.
Proof.
  intros Hu. apply wp_bind, wp_gets. cbn beta. destruct (switcher_active (wm w)) eqn:Ha.
  - cbn [when]. unfold wm_switcher_cancel. apply wp_bind, wp_gets. rewrite Ha. cbn [when].
    apply wp_bind. apply (wp_x no_fault XUngrabKeyboard). apply wp_bind.
    unfold destroy_osd. apply wp_bind, wp_gets, wp_bind, wp_when; intros _.
    + apply wp_bind. apply (wp_x no_fault (XDestroy _)).
      apply wp_modify, wp_bind, wp_modify, wp_modify, wp_modify. unlinked_store.
    + apply wp_bind, wp_modify, wp_modify, wp_modify. unlinked_store.
  - apply wp_ret. cbn beta. destruct Hu. constructor; auto.
Qed.

Lemma wp_forget c l w :
  Unlinked c l false false false false (wm w) →
  wp no_fault (forget_client c) (fun _ w' => Unlinked c l true true true true (wm w')) w.
Proof.
  intros Hu. unfold forget_client.
  apply wp_bind, wp_gets, wp_bind.
  eapply (wp_mono _ _ (fun _ w' => Unlinked c l true false false false (wm w'))).
  { apply wp_when; intros Hb.
    - apply wp_modify. unlinked_store.
    - apply bool_decide_eq_false in Hb. cbn beta. destruct Hu. constructor; auto.
      by eapply points_drop. }
  clear w Hu. cbn beta. intros _ w Hu. apply wp_bind, wp_gets, wp_bind.
  eapply (wp_mono _ _ (fun _ w' => Unlinked c l true true false false (wm w'))).
  { apply wp_when; intros Hb.
    - apply wp_bind. eapply wp_mono; [by apply wp_preview_hide|]. cbn beta.
      intros _ w1 Hu1.      apply wp_bind, wp_modify, wp_modify. unlinked_store.
    - apply bool_decide_eq_false in Hb. cbn beta. destruct Hu. constructor; auto.
      by eapply points_drop. }
  clear w Hu. cbn beta. intros _ w Hu. apply wp_bind, wp_gets, wp_bind.
  eapply (wp_mono _ _ (fun _ w' => Unlinked c l true true true false (wm w'))).
  { apply wp_when; intros Hb.
    - apply wp_bind. apply (wp_x no_fault XUngrabPointer).
      apply wp_bind, wp_modify, wp_bind, wp_modify, wp_modify. unlinked_store.
    - apply bool_decide_eq_false in Hb. cbn beta. destruct Hu. constructor; auto.
      by eapply points_drop. }
  clear w Hu. cbn beta. intros _ w Hu. cbn beta in Hu. by eapply wp_cancel.
Qed.

(** ** The rest of the removal *)

Lemma hold_destroy_grips L gs : hold L (destroy_grips gs).
Proof. unfold destroy_grips. induction gs as [|g gs IH]; cbn; hold. Qed.
Lemma hold_sync_cleanup L k : hold L (sync_cleanup k).
Proof. unfold sync_cleanup. hold. Qed.
Hint Resolve hold_destroy_grips hold_sync_cleanup : wm.
Lemma hold_frame_destroy L k : hold L (frame_destroy k).
Proof. unfold frame_destroy. hold. Qed.
Hint Resolve hold_frame_destroy : wm.

(** Removing a client whose menu is not open. *)
Lemma wp_remove c w :
  Inv (wm w) → c ∈ ids (wm w) → menu_client (wm w) ≠ Some c →
  wp no_fault (wm_remove_client c) (fun _ w' => Inv (wm w')) w.
Proof.
  intros Hi Hc Hm. unfold wm_remove_client. apply wp_bind.
  destruct (find_client_is_Some _ _ Hc) as [k Hk].
  unfold wp at 1, deref. rewrite Hk. apply wp_bind, wp_modify, wp_bind.
  eapply wp_mono; [apply wp_forget; cbn; by apply unlinked_start|].
  cbn beta. intros _ w' [Hi' Hl]%unlinked_done.
  match goal with |- wp _ ?m _ _ => assert (Hh : hold (shape (wm w')) m) end.
  { hold. apply hold_focus, points_some. rewrite <- (ptr_clients _ _ HL).
    apply list_elem_of_In, in_map, list_elem_of_In. by apply most_recent_in. }
  eapply wp_mono; [by apply Hh|]. by intros _ w'' (_ & ? & _).
Qed.

(** ** The events that remove a client, and the monitors *)

Lemma wp_destroy_notify win w :
  Inv (wm w) → menu_client (wm w) ≠ Some win →
  wp no_fault (on_destroy_notify win) (fun _ w' => Inv (wm w')) w.
Proof.
  intros Hi Hm. unfold on_destroy_notify. apply wp_bind.
  eapply (wp_mono _ _ (fun _ w' => ∃ ds, wm w' = (wm w) <| docks := ds |>)).
  { apply wp_bind, wp_gets, wp_when; intros _.
    - apply wp_bind, wp_modify. eapply wp_mono; [apply quiet_update_workarea|].
      intros _ w' ->. by eexists.
    - exists (docks (wm w)). by destruct (wm w). }
  intros _ w' [ds Hw]. apply wp_bind, wp_gets.
  assert (Hi' : Inv (wm w')) by (rewrite Hw; destruct Hi as [? [] []]; split; [done | by constructor | by constructor]).
  destruct (wm_find_client_by_window (clients (wm w')) win) as [c|] eqn:E; [|by apply wp_ret].
  assert (c = win) as ->.
  { unfold wm_find_client_by_window in E.
    destruct (find_client _ win) as [k|] eqn:Ek; [|done]. injection E as <-.
    by eapply find_client_client. }
  apply wp_remove; [done | | by rewrite Hw].
  change (ids (wm w')) with (shape (wm w')).1. by eapply ptr_found.
Qed.

Lemma wp_unmap_notify win ev w :
  Inv (wm w) → menu_client (wm w) ≠ Some win →
  wp no_fault (on_unmap_notify win ev) (fun _ w' => Inv (wm w')) w.
Proof.
  intros Hi Hm. unfold on_unmap_notify. apply wp_bind, wp_gets.
  destruct (find_client (clients (wm w)) win) as [k|] eqn:Ek; [|by apply wp_ret].
  assert (Hin : win ∈ ids (wm w)) by (apply find_client_id; by rewrite Ek).
  destruct (_ && _); [|by apply wp_ret]. destruct (0 <? _); [|by apply wp_remove].
  assert (Hh : hold (shape (wm w))
    (upd win (fun k => k <| ignore_unmap := ignore_unmap k - 1 |>))) by hold.
  eapply wp_mono; [by apply Hh|]. by intros _ w'' (_ & ? & _).
Qed.

Lemma wp_randr w :
  Inv (wm w) → snap_pending (wm w) = SNAP_NONE →
  wp no_fault (query_monitors;; rescue_orphaned_clients) (fun _ w' => Inv (wm w')) w.
Proof.
  intros Hi Hs. apply wp_bind. unfold query_monitors. apply wp_bind.
  apply (wp_x no_fault XMonitors). apply wp_bind, wp_gets, wp_modify.
  match goal with |- wp _ _ _ ?w' => set (w1 := w') end.
  assert (Hi1 : Inv (wm w1)).
  { destruct Hi as [? [] []]. split; [done | by constructor|]. constructor; cbn; auto.
    - by destruct (xanswer _ _).
    - by rewrite Hs. }
  eapply wp_mono; [by apply (hold_rescue (shape (wm w1)))|]. by intros _ w'' (_ & ? & _).
Qed.

(** ** The dispatcher *)

(** What can leave a stale pointer or index behind: a client going away while
    its window menu is open, and the monitors changing under a pending snap. *)
Definition hazard (ev : xevent) (w : Wm) : Prop :=
  match ev with
  | UnmapNotify win _ | DestroyNotify win => menu_client w = Some win
  | RandrNotify => snap_pending w ≠ SNAP_NONE
  | _ => False
  end.

Lemma wp_hold {A} (m : wprog A) w :
  Inv (wm w) → (∀ L, hold L m) → wp no_fault m (fun _ w' => Inv (wm w')) w.
Proof.
  intros Hi Hm. eapply wp_mono; [by apply (Hm (shape (wm w)))|]. by intros _ w'' (_ & ? & _).
Qed.

Lemma hold_button_press L ev : hold L (on_button_press ev).
Proof.
  unfold on_button_press. hold. apply hold_frame_press.
  rewrite <- (ptr_clients _ _ HL). unfold wm_find_client_by_frame in *.
  destruct (list_find _ _) as [[i k]|] eqn:E; [|done].
  match goal with H : _ = Some ?c |- _ => injection H as <- end.
  apply list_find_Some in E as (Hk & _ & _).
  apply list_elem_of_In, in_map, list_elem_of_In. by eapply list_elem_of_lookup_2.
Qed.

Lemma wp_dispatch ev w :
  Inv (wm w) → ¬ hazard ev (wm w) →
  wp no_fault (dispatch_event ev) (fun _ w' => Inv (wm w')) w.
Proof.
  intros Hi Hz. destruct ev; cbn [dispatch_event hazard] in *;
    try (apply wp_hold; [exact Hi | intros L; hold; eauto using hold_button_press; fail]).
  - by apply wp_unmap_notify.
  - by apply wp_destroy_notify.
  - apply wp_randr; [done|]. by destruct (decide (snap_pending (wm w) = SNAP_NONE)).
Qed.

Lemma wp_dispatch_wm ev w :
  Inv (wm w) → ¬ hazard ev (wm w) →
  wp no_fault (dispatch_wm_event ev) (fun _ w' => Inv (wm w')) w.
Proof.
  intros Hi Hz. unfold dispatch_wm_event. apply wp_bind, wp_gets.
  pose proof (wp_dispatch ev w Hi Hz) as Hd.
  destruct (_ && _); [|exact Hd].
  destruct ev; try exact Hd; (apply wp_hold; [exact Hi | intros L; hold]).
Qed.
End Lifecycle.
