(* ===== verification/WmGeometry.v ===== *)
(** * isde-wm: facts of the geometry

    The pure computations of WmCore.v, WmPlace.v and WmEvents.v: inside what
    bounds they stay and when the 16-bit stores are exact. *)

From S2P Require Import Prelude.
From S2P Require Import CFloat.
From S2P Require Import WmCore.
From S2P Require Import WmPlace.
From S2P Require Import WmDesk.
From S2P Require Import WmDesktops.
From S2P Require Import WmEvents.
From S2P Require Import WmSafety.
From S2P Require Import WmPointers.
Open Scope Z_scope.

(** A client as the X server reports it: 16-bit position and size. *)
Definition wire (k : WmClient) : Prop :=
  - 2 ^ 15 ≤ x k < 2 ^ 15 ∧ - 2 ^ 15 ≤ y k < 2 ^ 15 ∧
  0 ≤ width k < 2 ^ 16 ∧ 0 ≤ height k < 2 ^ 16.

Definition in_rect (r : rect) (px py : Z) : bool :=
  (rx r <=? px) && (px <? rx r + rw r) && (ry r <=? py) && (py <? ry r + rh r).

(** The frame rectangle of a client, without the X border. *)
Definition frame_rect (th : Z) (k : WmClient) : rect :=
  mkRect (x k) (y k) (frame_total_width k) (frame_total_height th k).

(** [r] lies inside [a]. *)
Definition within (r a : rect) : Prop :=
  rx a ≤ rx r ∧ rx r + rw r ≤ rx a + rw a ∧ ry a ≤ ry r ∧ ry r + rh r ≤ ry a + rh a.

(** A screen area whose coordinates fit 16 bits and that has room for a frame
    with a one-pixel client. *)
Definition roomy (th : Z) (a : rect) : Prop :=
  - 2 ^ 15 ≤ rx a ∧ rx a + rw a < 2 ^ 15 ∧ - 2 ^ 15 ≤ ry a ∧ ry a + rh a < 2 ^ 15 ∧
  0 ≤ th ∧ 2 * WM_BORDER_WIDTH < rw a ∧ th + 2 * WM_BORDER_WIDTH < rh a.

(** ** Field stores *)

Lemma x_set_x v k : x (set_x v k) = s16 v. Proof. reflexivity. Qed.
Lemma y_set_x v k : y (set_x v k) = y k. Proof. reflexivity. Qed.
Lemma width_set_x v k : width (set_x v k) = width k. Proof. reflexivity. Qed.
Lemma height_set_x v k : height (set_x v k) = height k. Proof. reflexivity. Qed.
Lemma title_of_set_x th v k : title_of th (set_x v k) = title_of th k. Proof. reflexivity. Qed.
Lemma x_set_y v k : x (set_y v k) = x k. Proof. reflexivity. Qed.
Lemma y_set_y v k : y (set_y v k) = s16 v. Proof. reflexivity. Qed.
Lemma width_set_y v k : width (set_y v k) = width k. Proof. reflexivity. Qed.
Lemma height_set_y v k : height (set_y v k) = height k. Proof. reflexivity. Qed.
Lemma title_of_set_y th v k : title_of th (set_y v k) = title_of th k. Proof. reflexivity. Qed.
Lemma x_set_width v k : x (set_width v k) = x k. Proof. reflexivity. Qed.
Lemma y_set_width v k : y (set_width v k) = y k. Proof. reflexivity. Qed.
Lemma width_set_width v k : width (set_width v k) = u16 v. Proof. reflexivity. Qed.
Lemma height_set_width v k : height (set_width v k) = height k. Proof. reflexivity. Qed.
Lemma title_of_set_width th v k : title_of th (set_width v k) = title_of th k. Proof. reflexivity. Qed.
Lemma x_set_height v k : x (set_height v k) = x k. Proof. reflexivity. Qed.
Lemma y_set_height v k : y (set_height v k) = y k. Proof. reflexivity. Qed.
Lemma width_set_height v k : width (set_height v k) = width k. Proof. reflexivity. Qed.
Lemma height_set_height v k : height (set_height v k) = u16 v. Proof. reflexivity. Qed.
Lemma title_of_set_height th v k : title_of th (set_height v k) = title_of th k. Proof. reflexivity. Qed.

Create Rewrite HintDb geom.
#[export] Hint Rewrite x_set_x y_set_x width_set_x height_set_x title_of_set_x
  x_set_y y_set_y width_set_y height_set_y title_of_set_y
  x_set_width y_set_width width_set_width height_set_width title_of_set_width
  x_set_height y_set_height width_set_height height_set_height title_of_set_height : geom.

(** Case analysis on the conditional stores, then the fields. *)
Ltac stores :=
  unfold on; repeat (match goal with |- context [if ?b then _ else _] => destruct b eqn:? end;
    autorewrite with geom in *).

(** ** Clamping *)

Lemma title_range th k : 0 ≤ th → 0 ≤ title_of th k ≤ th.
Proof. intros. unfold title_of. case_match; lia. Qed.

(** After shrinking: the size fits, and is not negative. *)
Definition shrink (th : Z) (a : rect) (k : WmClient) : WmClient :=
  let max_cw := Z.max (rw a - 2 * WM_BORDER_WIDTH) 1 in
  let max_ch := Z.max (rh a - title_of th k - 2 * WM_BORDER_WIDTH) 1 in
  let k := on (max_cw <? width k) (set_width max_cw) k in
  on (max_ch <? height k) (set_height max_ch) k.

Lemma shrink_fits th a k :
  wire k → roomy th a →
  wire (shrink th a k) ∧ frame_total_width (shrink th a k) ≤ rw a ∧
  frame_total_height th (shrink th a k) ≤ rh a ∧
  x (shrink th a k) = x k ∧ y (shrink th a k) = y k ∧
  title_of th (shrink th a k) = title_of th k.
Proof.
  intros (? & ? & ? & ?) (? & ? & ? & ? & Hth & ? & ?).
  pose proof (title_range th k Hth).
  unfold wire, shrink, frame_total_width, frame_total_height, WM_BORDER_WIDTH in *.
  stores; autorewrite with geom; rewrite ?u16_id by lia; lia.
Qed.

(** Then moving: the same for a work area and for a monitor. *)
Definition move_into (th : Z) (a : rect) (k : WmClient) : WmClient :=
  let fw := frame_total_width k in
  let fh := frame_total_height th k in
  let k := on (rx a + rw a <? x k + fw) (set_x (rx a + rw a - fw)) k in
  let k := on (ry a + rh a <? y k + fh) (set_y (ry a + rh a - fh)) k in
  let k := on (x k <? rx a) (set_x (rx a)) k in
  on (y k <? ry a) (set_y (ry a)) k.

Lemma clamp_client_split th a k : clamp_client th a k = move_into th a (shrink th a k).
Proof. reflexivity. Qed.
Definition monitor_rect (m : MonitorGeom) : rect := mkRect (mx m) (my m) (mwidth m) (mheight m).
Lemma pull_onto_move th m k : pull_onto th m k = move_into th (monitor_rect m) k.
Proof. reflexivity. Qed.

Lemma move_into_size th a k :
  width (move_into th a k) = width k ∧ height (move_into th a k) = height k ∧
  title_of th (move_into th a k) = title_of th k.
Proof. unfold move_into. stores; autorewrite with geom; done. Qed.

Lemma move_into_within th a k :
  wire k → roomy th a → frame_total_width k ≤ rw a → frame_total_height th k ≤ rh a →
  within (frame_rect th (move_into th a k)) a.
Proof.
  intros (? & ? & ? & ?) (? & ? & ? & ? & Hth & ? & ?) Hw Hh.
  pose proof (title_range th k Hth).
  unfold within, frame_rect, frame_total_height, frame_total_width in *. cbn [rx ry rw rh].
  destruct (move_into_size th a k) as (-> & -> & ->).
  unfold move_into, frame_total_width, frame_total_height, WM_BORDER_WIDTH in *.
  stores; autorewrite with geom in *; rewrite ?s16_id in * by lia; lia.
Qed.

(** Nothing to do for a frame that is inside already. *)
Lemma move_into_inside th a k : within (frame_rect th k) a → move_into th a k = k.
Proof.
  unfold within, frame_rect. cbn. intros (? & ? & ? & ?). unfold move_into.
  stores; solve [reflexivity | lia].
Qed.
Lemma shrink_inside th a k : within (frame_rect th k) a → shrink th a k = k.
Proof.
  unfold within, frame_rect, frame_total_width, frame_total_height, WM_BORDER_WIDTH. cbn.
  intros (? & ? & ? & ?). unfold shrink, WM_BORDER_WIDTH.
  stores; solve [reflexivity | lia].
Qed.

(** ** Filling an area, and the stores that undo it *)

Lemma fill_area_rect th a k : roomy th a → frame_rect th (fill_area th a k) = a.
Proof.
  intros (? & ? & ? & ? & Hth & ? & ?). pose proof (title_range th k Hth).
  unfold frame_rect, frame_total_width, frame_total_height, fill_area, WM_BORDER_WIDTH in *.
  autorewrite with geom. rewrite ?s16_id, ?u16_id by lia.
  destruct a; cbn in *. f_equal; lia.
Qed.

(** Position, size and state as one value. *)
Definition geometry (k : WmClient) : Z * Z * Z * Z := (x k, y k, width k, height k).

(** ** Reading the work area of a monitor *)

Section Monitors.
Context `{!XServer}.

Lemma wp_monitor_area i m (Q : rect → World → Prop) w :
  monitors (wm w) !! i = Some m →
  (∀ g w', wm w' = wm w → Q (intersect m g) w') →
  wp no_fault (wm_get_monitor_work_area i) Q w.
Proof.
  intros Hm HQ. unfold wm_get_monitor_work_area. apply wp_bind.
  eapply wp_mono; [apply quiet_work_area|]. cbn beta. intros g w' Hw.
  apply wp_bind. unfold wp, get_monitor. rewrite Hw, Hm. by apply HQ.
Qed.

Lemma monitor_for_client_Some w k :
  Inv w → ∃ m, monitors w !! monitor_for_client (monitors w) k = Some m.
Proof. intros Hi. by apply lookup_lt_is_Some_2, (monitor_client_lt (shape w)). Qed.
(** Telling the server about a client's new geometry and state. *)
Lemma wp_reframe c k (Q : unit → World → Prop) w :
  find_client (clients (wm w)) c = Some k →
  (∀ w', wm w' = wm w → Q tt w') →
  wp no_fault (frame_configure c;; wm_update_net_wm_state c) Q w.
Proof.
  intros Hk HQ.
  assert (Hq : quiet_at c (frame_configure c;; wm_update_net_wm_state c)).
  { apply quiet_at_bind; [apply quiet_frame_configure | intros; apply quiet_net_state]. }
  eapply wp_mono; [by apply Hq|]. intros [] w'. apply HQ.
Qed.

(** Two stores through a pointer, one after the other. *)
Lemma find_client_upd2 c f g l k :
  find_client l c = Some k → client (f k) = client k → client (g (f k)) = client k →
  find_client (upd_client c g (upd_client c f l)) c = Some (g (f k)).
Proof. intros Hk Hf Hg. apply find_client_upd; [by apply find_client_upd | congruence]. Qed.

Definition maximized_in (th : Z) (a : rect) (k : WmClient) : WmClient :=
  (fill_area th a k) <| maximized := true |>.

Lemma maximized_in_rect th a k : roomy th a → frame_rect th (maximized_in th a k) = a.
Proof.
  intros Hr. pose proof (fill_area_rect th a k Hr) as E.
  unfold frame_rect, frame_total_width, frame_total_height, title_of in *. exact E.
Qed.

Lemma wp_maximize c k m (Q : unit → World → Prop) w :
  find_client (clients (wm w)) c = Some k → maximized k = false →
  monitors (wm w) !! monitor_for_client (monitors (wm w)) k = Some m →
  (∀ g w', find_client (clients (wm w')) c =
     Some (maximized_in (title_height (wm w)) (intersect m g) (save_geometry k)) → Q tt w') →
  wp no_fault (wm_maximize_client c) Q w.
Proof.
  intros Hk Hmax Hm HQ.
  unfold wm_maximize_client. apply wp_bind. eapply wp_deref; [done|]. rewrite Hmax.
  apply wp_bind, wp_bind. eapply wp_upd; [done|]. apply wp_bind, wp_gets, wp_bind.
  assert (H1 : find_client (upd_client c save_geometry (clients (wm w))) c = Some (save_geometry k))
    by by apply find_client_upd.
  eapply wp_deref; [exact H1|].
  apply wp_bind. eapply wp_monitor_area; [exact Hm|]. intros g w1 Hw1.
  apply wp_bind, wp_gets. rewrite Hw1. eapply wp_upd; [rewrite Hw1; exact H1|].
  rewrite Hw1.
  pose proof (find_client_upd2 c save_geometry
    (maximized_in (title_height (wm w)) (intersect m g)) _ k Hk eq_refl eq_refl) as H2.
  eapply (wp_reframe c (maximized_in (title_height (wm w)) (intersect m g) (save_geometry k))).
  - exact H2.
  - intros w' Hw'. apply (HQ g). rewrite Hw'. exact H2.
Qed.

Definition unmaximized (k : WmClient) : WmClient :=
  (restore_geometry k) <| maximized := false |>.

Lemma wp_unmaximize c k (Q : unit → World → Prop) w :
  find_client (clients (wm w)) c = Some k → maximized k = true →
  (∀ w', find_client (clients (wm w')) c = Some (unmaximized k) → Q tt w') →
  wp no_fault (wm_maximize_client c) Q w.
Proof.
  intros Hk Hmax HQ.
  unfold wm_maximize_client. apply wp_bind. eapply wp_deref; [done|]. rewrite Hmax.
  apply wp_bind. eapply wp_upd; [done|].
  pose proof (find_client_upd c unmaximized _ k Hk eq_refl) as H1.
  eapply (wp_reframe c (unmaximized k)); [exact H1|].
  intros w' Hw'. apply HQ. rewrite Hw'. exact H1.
Qed.
Lemma wp_configured c k (Q : unit → World → Prop) w :
  find_client (clients (wm w)) c = Some k →
  (∀ w', wm w' = wm w → Q tt w') → wp no_fault (frame_configure c) Q w.
Proof.
  intros Hk HQ. eapply wp_mono; [by apply quiet_frame_configure|]. intros [] w'. apply HQ.
Qed.

(** A ConfigureRequest with a position, on a managed window. *)
Lemma wp_configure_request r k (Q : unit → World → Prop) w :
  find_client (clients (wm w)) (cr_window r) = Some k →
  is_Some (cr_x r) ∨ is_Some (cr_y r) →
  (∀ w', find_client (clients (wm w')) (cr_window r) =
     Some (request_position (title_height (wm w)) r (request_size r k)) → Q tt w') →
  wp no_fault (on_configure_request r) Q w.
Proof.
  intros Hk Hp HQ. unfold on_configure_request. apply wp_bind, wp_gets.
  unfold wm_find_client_by_window. rewrite Hk. cbn [fmap option_fmap option_map].
  rewrite (find_client_client _ _ _ Hk).
  apply wp_bind. eapply wp_upd; [exact Hk|].
  pose proof (find_client_upd (cr_window r) (request_size r) _ k Hk eq_refl) as H1.
  apply wp_bind, wp_when; intros Hb.
  2: { apply bool_decide_eq_false in Hb. contradiction. }
  apply wp_bind, wp_gets. eapply wp_upd; [exact H1|].
  pose proof (find_client_upd2 (cr_window r) (request_size r)
    (request_position (title_height (wm w)) r) _ k Hk eq_refl eq_refl) as H2.
  eapply wp_configured; [exact H2|]. intros w' Hw'. apply HQ. rewrite Hw'. exact H2.
Qed.
End Monitors.

(** ** Gravity *)

Lemma gravity_inverse th k :
  frame_gravity_to_frame th k (fst (frame_frame_to_gravity th k)) (snd (frame_frame_to_gravity th k))
  = (x k, y k).
Proof. unfold frame_gravity_to_frame, frame_frame_to_gravity. cbn. f_equal; lia. Qed.

Lemma clamp_within th a k :
  wire k → roomy th a →
  within (frame_rect th (clamp_client th a k)) a ∧
  (within (frame_rect th k) a → clamp_client th a k = k).
Proof.
  intros Hk Ha. rewrite clamp_client_split. destruct (shrink_fits th a k Hk Ha) as (? & ? & ? & _).
  split; [by apply move_into_within|]. intros Hin.
  rewrite shrink_inside by done. by apply move_into_inside.
Qed.

Lemma s16_range z : - 2 ^ 15 ≤ s16 z < 2 ^ 15.
Proof. unfold s16. pose proof (Z.mod_pos_bound (z + 2 ^ 15) (2 ^ 16)). lia. Qed.
Lemma wire_moved px py k : wire k → wire (set_y py (set_x px k)).
Proof.
  intros (? & ? & ? & ?). unfold wire. autorewrite with geom.
  pose proof (s16_range px). pose proof (s16_range py). lia.
Qed.

(** ** Snap zones *)

Lemma quot2_range z : 0 < z → 0 ≤ Z.quot z 2 < z.
Proof.
  intros. rewrite Z.quot_div_nonneg by lia.
  split; [apply Z.div_pos; lia | apply Z.div_lt; lia].
Qed.

(** Expand a zone test into inequalities. *)
Ltac zones :=
  unfold in_rect, snap_rect;
  repeat match goal with
  | |- context [if (?a <=? 0) || (?b <=? 0) then _ else _] =>
    destruct (Z.leb_spec a 0), (Z.leb_spec b 0); cbn [orb]
  end; cbn [rx ry rw rh].

Lemma snap_left_halves a px py :
  in_rect (snap_rect a SNAP_LEFT) px py =
    in_rect (snap_rect a SNAP_TL) px py || in_rect (snap_rect a SNAP_BL) px py.
Proof.
  zones; try (apply eq_true_iff_eq; rewrite ?orb_true_iff, ?andb_true_iff, ?Z.leb_le, ?Z.ltb_lt; lia).
  pose proof (quot2_range (rw a)). pose proof (quot2_range (rh a)).
  apply eq_true_iff_eq. rewrite ?orb_true_iff, ?andb_true_iff, ?Z.leb_le, ?Z.ltb_lt. lia.
Qed.
Lemma snap_right_halves a px py :
  in_rect (snap_rect a SNAP_RIGHT) px py =
    in_rect (snap_rect a SNAP_TR) px py || in_rect (snap_rect a SNAP_BR) px py.
Proof.
  zones; try (apply eq_true_iff_eq; rewrite ?orb_true_iff, ?andb_true_iff, ?Z.leb_le, ?Z.ltb_lt; lia).
  pose proof (quot2_range (rw a)). pose proof (quot2_range (rh a)).
  apply eq_true_iff_eq. rewrite ?orb_true_iff, ?andb_true_iff, ?Z.leb_le, ?Z.ltb_lt. lia.
Qed.

(** The quarter a point of the area lies in. *)
Definition quarter_of (a : rect) (px py : Z) : snap :=
  if px <? rx a + Z.quot (rw a) 2
  then if py <? ry a + Z.quot (rh a) 2 then SNAP_TL else SNAP_BL
  else if py <? ry a + Z.quot (rh a) 2 then SNAP_TR else SNAP_BR.

Lemma quarter_unique a px py z :
  z ∈ [SNAP_TL; SNAP_TR; SNAP_BL; SNAP_BR] →
  in_rect (snap_rect a z) px py = true ↔ in_rect a px py = true ∧ quarter_of a px py = z.
Proof.
  pose proof (quot2_range (rw a)). pose proof (quot2_range (rh a)).
  intros Hz. unfold quarter_of.
  repeat (apply elem_of_cons in Hz as [->|Hz]); [..|by apply not_elem_of_nil in Hz];
    zones; rewrite ?andb_true_iff, ?Z.leb_le, ?Z.ltb_lt;
    destruct (Z.ltb_spec px (rx a + Z.quot (rw a) 2)), (Z.ltb_spec py (ry a + Z.quot (rh a) 2));
    split; intros Hi; try (split; [lia|]); try reflexivity;
    (destruct Hi as [? ?]; try discriminate; lia) || lia.
Qed.

Lemma quarters_partition a px py :
  in_rect a px py = true ↔
    exists! z, z ∈ [SNAP_TL; SNAP_TR; SNAP_BL; SNAP_BR] ∧ in_rect (snap_rect a z) px py = true.
Proof.
  assert (Hq : quarter_of a px py ∈ [SNAP_TL; SNAP_TR; SNAP_BL; SNAP_BR]).
  { unfold quarter_of. repeat case_match; set_solver. }
  split.
  - intros Hin. exists (quarter_of a px py). split; [split; [done|]; by apply quarter_unique|].
    intros z [Hz Hi]. by apply quarter_unique in Hi as [_ ->].
  - intros (z & [Hz Hi] & _). by apply quarter_unique in Hi as [? _].
Qed.

Lemma snap_zone_none m px py :
  snap_zone m px py = SNAP_NONE ↔
    mx m + SNAP_THRESHOLD < px < mx m + mwidth m - SNAP_THRESHOLD - 1.
Proof.
  unfold snap_zone, SNAP_THRESHOLD.
  destruct (Z.leb_spec px (mx m + 8)), (Z.leb_spec (mx m + mwidth m - 8 - 1) px); cbn [andb];
    repeat case_match; split; intros; try discriminate; try reflexivity; lia.
Qed.

(** ** A snapped client *)

Definition snapped (th : Z) (r : rect) (k : WmClient) : WmClient :=
  set_height (rh r - th) (set_width (rw r) (set_y (ry r) (set_x (rx r) (save_geometry k)))).

Lemma snapped_rect th r k :
  decorated k = true → roomy th r →
  frame_rect th (snapped th r k) =
    mkRect (rx r) (ry r) (rw r + 2 * WM_BORDER_WIDTH) (rh r + 2 * WM_BORDER_WIDTH).
Proof.
  intros Hd (? & ? & ? & ? & Hth & ? & ?).
  assert (Ht : title_of th (save_geometry k) = th)
    by (unfold title_of; change (decorated (save_geometry k)) with (decorated k); by rewrite Hd).
  unfold frame_rect, frame_total_width, frame_total_height, snapped, WM_BORDER_WIDTH in *.
  autorewrite with geom. rewrite Ht, ?s16_id, ?u16_id by lia. f_equal; lia.
Qed.
