(* ===== verification/WmClaims.v ===== *)
(** * isde-wm: the theorems about pointers and geometry *)

From S2P Require Import Prelude.
From S2P Require Import CFloat.
From S2P Require Import WmCore.
From S2P Require Import WmPlace.
From S2P Require Import WmDesk.
From S2P Require Import WmDesktops.
From S2P Require Import WmEvents.
From S2P Require Import WmDispatch.
From S2P Require Import WmSafety.
From S2P Require Import WmPointers.
From S2P Require Import WmHandlers.
From S2P Require Import WmLifecycle.
From S2P Require Import WmGeometry.
Open Scope Z_scope.

(** ** A concrete server and a concrete session *)

(** A server that knows no struts and no hints, grants every grab and hands
    out fresh window ids. *)
Definition bare_server : XServer := fun h c =>
  match c return xresult c with
  | XGenerateId => 5000 + Z.of_nat (length h)
  | XStrut _ => None
  | XQueryTree => None
  | XTransientFor _ => None
  | XNormalHints _ => None
  | XSupports _ _ => false
  | XMotifHints _ => None
  | XWindowType _ => TypeNormal
  | XMonitors => []
  | XPrimaryMonitor => None
  | XDesktopLayout => None
  | XGetCurrentDesktop => 0
  | XGrabKeyboard => true
  | ReadDeskConfig => None
  | Now => 1000
  | FontHeight pad => 16
  | _ => tt
  end.

(** A decorated client with nothing special about it. *)
Definition plain_client (c f px py w h seq d : Z) : WmClient :=
  {| client := c; frame := f; x := px; y := py; width := w; height := h;
     is_focused := false; maximized := false; fullscreen := false; minimized := false;
     above := false; below := false; modal := false; sticky := false;
     skip_taskbar := false; skip_pager := false; demands_attention := false;
     hidden := false; ignore_unmap := 0; decorated := true; mapped := true;
     desktop := d; transient_for := 0; save_x := 0; save_y := 0; save_w := 0; save_h := 0;
     c_focus_seq := seq; min_w := 0; min_h := 0; max_w := 0; max_h := 0;
     base_w := 0; base_h := 0; inc_w := 1; inc_h := 1; fixed_size := false;
     win_gravity := NorthWest; input_hint := true; sync_counter := 0; sync_alarm := 0;
     sync_value := 0; sync_waiting := false; sync_pending := false; sync_timer := -1;
     grips := [] |}.

Definition unit_scale : double := d_of_Z 1.

(** A 1920x1080 screen, four desktops in two rows, a title bar of 20. *)
Definition session (l : list WmClient) : Wm :=
  {| clients := l; focused := None; focus_seq := 10; docks := [];
     desk_rows := 2; desk_cols := 2; num_desktops := 4; current_desktop := 0;
     desk_osd := 0; desk_osd_timer := -1; desk_reload_tries := 0;
     switcher_shell := 0; switcher_order := []; switcher_visible := 0; switcher_sel := 0;
     switcher_active := false; win_menu := 0; menu_client := None; menu_item_count := 0;
     menu_item_height := 0; btn_press_client := None; btn_press_btn := None;
     btn_press_hover := false; btn_press_mouse := 0; drag_mode := DRAG_NONE;
     resize_edge := GRIP_TOP; drag_client := None; drag_start_x := 0; drag_start_y := 0;
     drag_button := 0; drag_orig_x := 0; drag_orig_y := 0; drag_orig_w := 0; drag_orig_h := 0;
     snap_preview := 0; snap_pending := SNAP_NONE; snap_monitor := 0;
     monitors := [mkMonitor 0 0 1920 1080]; screen_w := 1920; screen_h := 1080;
     title_height := 20; scale_factor := unit_scale;
     timers := replicate 16 (mkTimer 0 CbOsdHide false); last_user_time := 0;
     cascade := None; super_tap_armed := false; running := true |}.

Definition two_windows : Wm :=
  session [plain_client 101 201 100 100 400 300 1 0; plain_client 102 202 50 60 640 480 2 0].

Definition world (w : Wm) : World := mkWorld w [].

Lemma bare_fonts : fonts_readable (H := bare_server) unit_scale.
Proof. intros h pad. by vm_compute. Qed.

Lemma two_windows_ok : Inv (H := bare_server) two_windows.
Proof.
  split; split; cbn; try done; try lia; try (by intros ?).
  - by apply (bool_decide_unpack _).
  - repeat constructor; cbn; lia.
Qed.

(** A pointer event on window [win]. *)
Definition at_ (win ex ey px py : Z) : pointer_event :=
  {| pe_window := win; pe_x := ex; pe_y := ey; pe_root_x := px; pe_root_y := py;
     pe_detail := 1; pe_time := 77 |}.

(** Dispatch a list of events, one after the other. *)
Fixpoint dispatch_all `{XServer} (evs : list xevent) : wprog unit :=
  match evs with
  | [] => skip
  | ev :: evs' => dispatch_wm_event ev;; dispatch_all evs'
  end.

Definition fault_of {S A} (r : res S A) : option fault :=
  match r with Ok _ _ => None | Fault f => Some f end.

(** ** Pointers *)



(** Open the menu of the first window by its title button. *)
Definition open_menu : list xevent :=
  [ButtonPress (at_ 201 5 5 105 105); ButtonRelease (at_ 201 5 5 105 105)].

(** Start dragging the first window by its title bar to the left edge. *)
Definition drag_to_edge : list xevent :=
  [ButtonPress (at_ 201 100 5 200 105); MotionNotify (at_ 201 0 0 0 500)].

(** Two screens side by side; [bare_server] later reports one. *)
Definition two_screens : list MonitorGeom :=
  [mkMonitor 0 0 1920 1080; mkMonitor (-1280) 0 1280 1080].

(** The two hazards are real.  A client that exits while its window menu is
    open leaves [menu_client] behind, and the next click in the menu follows
    it; a monitor that goes away while a snap is pending leaves
    [snap_monitor] behind, and releasing the button reads past the monitor
    array. *)
Theorem stale_menu_and_monitor :
  fault_of (dispatch_all (H := bare_server)
    (open_menu ++ [DestroyNotify 101; ButtonPress (at_ 5009 5 5 105 130)])
    (world two_windows)) = Some OutOfBounds ∧
  fault_of (dispatch_all (H := bare_server)
    ([ButtonPress (at_ 201 100 5 200 105); MotionNotify (at_ 201 0 0 (-1280) 500);
      RandrNotify; ButtonRelease (at_ 201 0 0 (-1280) 500)])
    (world (two_windows <| monitors := two_screens |>))) = Some OutOfBounds.
Proof. split; vm_compute; reflexivity. Qed.

(** ** Placement and snapping *)

(** [k0], of the same window and size as [k], was clamped to a work area the
    window manager computed, giving [k']; only the cascade position changed. *)
Definition placed_from `{XServer} (w : World) (k k' : WmClient) (w' : World) : Prop :=
  ∃ a w1 w2 k0 cas, wm_get_work_area w1 = Ok a w2 ∧ clients (wm w1) = clients (wm w) ∧
    wm w' = (wm w) <| cascade := cas |> ∧
    client k0 = client k ∧ width k0 = width k ∧ height k0 = height k ∧
    k' = clamp_client (title_height (wm w)) a k0 ∧
    (roomy (title_height (wm w)) a →
      within (frame_rect (title_height (wm w)) k') a ∧
      (within (frame_rect (title_height (wm w)) k0) a → k' = k0)).

Lemma clamp_places `{XServer} w k k0 w0 cas :
  wire k0 → client k0 = client k → width k0 = width k → height k0 = height k →
  wm w0 = (wm w) <| cascade := cas |> →
  wp no_fault (clamp_to_work_area k0) (placed_from w k) w0.
Proof.
  intros Hk0 Hc Hw Hh Hw0. unfold clamp_to_work_area. apply wp_bind.
  pose proof (quiet_work_area w0) as Hq. unfold wp in Hq |- *.
  destruct (wm_get_work_area w0) as [a w1|] eqn:E; [|done]. cbn.
  exists a, w0, w1, k0, cas. rewrite Hq, Hw0. cbn. split_and!; auto.
  intros Hr. by apply clamp_within.
Qed.

(** placing a new window always ends, changes nothing else but the cascade
    position, and the frame then lies inside the work area the window manager
    computed, if that area has room for a frame and fits 16-bit coordinates;
    a frame that is inside already is left where it was asked for. *)
Theorem placed_in_work_area `{XServer} (w : World) (k : WmClient) :
  wire k → wp no_fault (wm_place_client k) (placed_from w k) w.
Proof.
  intros Hk. unfold wm_place_client. apply wp_bind, (wp_x no_fault (XTransientFor _)).
  assert (Hs : ∀ w0 : World, wm w0 = wm w → wm w0 = (wm w) <| cascade := cascade (wm w) |>)
    by (intros w0 ->; by destruct (wm w)).
  set (k1 := k <| transient_for := _ |>). assert (Hk1 : wire k1) by exact Hk.
  apply wp_bind. unfold place_transient.
  destruct (transient_for k1 =? 0); [|apply wp_bind, wp_gets;
    destruct (find_client _ _) as [parent|]; [apply wp_bind, wp_gets, wp_bind|]].
  2: { eapply wp_mono; [eapply (clamp_places w k);
         [by apply wire_moved | done | done | done | by apply Hs]|].
       intros k' w' Hp. exact Hp. }
  all: apply wp_ret, wp_bind, (wp_x no_fault (XNormalHints _)).
  all: destruct (default false _); [eapply (clamp_places w k); [done| done |done|done|by apply Hs]|].
  all: unfold place_cascade; apply wp_bind.
  all: eapply wp_mono; [apply quiet_work_area|]; cbn beta; intros a w1 Hw1.
  all: apply wp_bind, wp_gets, wp_bind, wp_modify.
  all: eapply (clamp_places w k); [by apply wire_moved | done | done | done | cbn; by rewrite Hw1].
Qed.

Lemma placed_in_work_area_witness :
  let w := world two_windows in
  let k := plain_client 103 0 0 0 3000 50 0 0 in
  wp no_fault (wm_place_client (H := bare_server) k) (placed_from (H := bare_server) w k) w.
Proof.
  intros w k. apply (placed_in_work_area (H := bare_server)). unfold wire. cbn. lia.
Defined.

(** every point of a work area lies in exactly one of its four quarters, each half is the union of its two quarters, and the pointer position
    that selects a zone is within the threshold of the zone's sides. *)
Theorem snap_zones_tile (a : rect) (m : MonitorGeom) (px py : Z) :
  (in_rect a px py = true ↔
    exists! z, z ∈ [SNAP_TL; SNAP_TR; SNAP_BL; SNAP_BR] ∧ in_rect (snap_rect a z) px py = true) ∧
  in_rect (snap_rect a SNAP_LEFT) px py =
    in_rect (snap_rect a SNAP_TL) px py || in_rect (snap_rect a SNAP_BL) px py ∧
  in_rect (snap_rect a SNAP_RIGHT) px py =
    in_rect (snap_rect a SNAP_TR) px py || in_rect (snap_rect a SNAP_BR) px py ∧
  (snap_zone m px py = SNAP_NONE ↔
    mx m + SNAP_THRESHOLD < px < mx m + mwidth m - SNAP_THRESHOLD - 1).
Proof.
  split; [apply quarters_partition|].
  split; [apply snap_left_halves|]. split; [apply snap_right_halves|].
  apply snap_zone_none.
Qed.

(** ** Maximizing *)

(** maximizing a client fills the part of the work area on its monitor
    (exactly, when that area has room for a frame), and maximizing it again
    brings back the position and size it had. *)
Theorem maximize_round_trip `{XServer} (w : World) (c : window) (k : WmClient) :
  Inv (wm w) → find_client (clients (wm w)) c = Some k → maximized k = false →
  wp no_fault (wm_maximize_client c) (fun _ w1 =>
    ∃ m g k1, monitors (wm w) !! monitor_for_client (monitors (wm w)) k = Some m ∧
      find_client (clients (wm w1)) c = Some k1 ∧ maximized k1 = true ∧
      (roomy (title_height (wm w)) (intersect m g) →
        frame_rect (title_height (wm w)) k1 = intersect m g) ∧
      wp no_fault (wm_maximize_client c) (fun _ w2 =>
        ∃ k2, find_client (clients (wm w2)) c = Some k2 ∧
          maximized k2 = false ∧ geometry k2 = geometry k) w1) w.
Proof.
  intros Hi Hk Hmax.
  destruct (monitor_for_client_Some (wm w) k Hi) as [m Hm].
  eapply wp_maximize; [done..|]. intros g w1 Hk1.
  eexists m, g, _. split; [exact Hm|]. split; [exact Hk1|]. split; [reflexivity|]. split.
  - apply maximized_in_rect.
  - eapply wp_unmaximize; [exact Hk1 | reflexivity |].
    intros w2 Hk2. eexists. split; [exact Hk2 | split; reflexivity].
Qed.

Lemma maximize_round_trip_witness :
  let w := world two_windows in
  wp no_fault (wm_maximize_client (H := bare_server) 102) (fun _ w1 =>
    ∃ m g k1, monitors two_windows !! 0%nat = Some m ∧
      find_client (clients (wm w1)) 102 = Some k1 ∧ maximized k1 = true ∧
      (roomy 20 (intersect m g) → frame_rect 20 k1 = intersect m g) ∧
      wp no_fault (wm_maximize_client (H := bare_server) 102) (fun _ w2 =>
        ∃ k2, find_client (clients (wm w2)) 102 = Some k2 ∧
          maximized k2 = false ∧ geometry k2 = (50, 60, 640, 480)) w1) w.
Proof.
  exact (maximize_round_trip (H := bare_server) (world two_windows) 102
    (plain_client 102 202 50 60 640 480 2 0) two_windows_ok eq_refl eq_refl).
Defined.

(** ** Configure requests *)

(** the conversions between a client's gravity-relative position and its
    frame position are inverse to each other, for every gravity and size; so a
    request that moves a managed window along one axis leaves the other axis
    where it was, whatever its gravity. *)
Theorem gravity_round_trip `{XServer} (w : World) (r : configure_request) (k : WmClient) :
  find_client (clients (wm w)) (cr_window r) = Some k → wire k →
  is_Some (cr_x r) → cr_y r = None → cr_width r = None → cr_height r = None →
  (∀ th, frame_gravity_to_frame th k (fst (frame_frame_to_gravity th k))
           (snd (frame_frame_to_gravity th k)) = (x k, y k)) ∧
  (∀ th cx cy, frame_frame_to_gravity th
     (k <| x := fst (frame_gravity_to_frame th k cx cy) |>
        <| y := snd (frame_gravity_to_frame th k cx cy) |>) = (cx, cy)) ∧
  wp no_fault (on_configure_request r) (fun _ w' =>
    ∃ k', find_client (clients (wm w')) (cr_window r) = Some k' ∧
      y k' = y k ∧ width k' = width k ∧ height k' = height k ∧
      (∀ cx, cr_x r = Some cx →
        x k' = s16 (fst (frame_gravity_to_frame (title_height (wm w)) k cx 0)))) w.
Proof.
  intros Hk Hw Hx Hy Hcw Hch. split; [intros; apply gravity_inverse|]. split.
  { intros th cx cy. unfold frame_gravity_to_frame, frame_frame_to_gravity, title_of. cbn. f_equal; lia. }
  eapply wp_configure_request; [exact Hk | by left |]. intros w' Hk'.
  eexists. split; [exact Hk'|]. destruct Hw as (_ & ? & _).
  unfold request_position, request_size. rewrite Hy, Hcw, Hch. cbn.
  split_and!; auto.
  - rewrite s16_id; lia.
  - by intros cx ->.
Qed.

Lemma gravity_round_trip_witness :
  let r := {| cr_window := 101; cr_x := Some 300; cr_y := None; cr_width := None;
              cr_height := None; cr_border := None; cr_sibling := None; cr_stack := None |} in
  wp no_fault (on_configure_request (H := bare_server) r) (fun _ w' =>
    ∃ k', find_client (clients (wm w')) 101 = Some k' ∧ y k' = 100 ∧ width k' = 400 ∧
      height k' = 300 ∧ (∀ cx, Some 300 = Some cx → x k' = s16 (fst (frame_gravity_to_frame 20
         (plain_client 101 201 100 100 400 300 1 0) cx 0)))) (world two_windows).
Proof.
  intros r.
  assert (Hw : wire (plain_client 101 201 100 100 400 300 1 0)) by (unfold wire; cbn; lia).
  exact (proj2 (proj2 (gravity_round_trip (H := bare_server) (world two_windows) r
    (plain_client 101 201 100 100 400 300 1 0) eq_refl Hw (mk_is_Some _ _ eq_refl)
    eq_refl eq_refl eq_refl))).
Defined.

(** ** Resizing *)

(** while a grip is dragged the new size stays above the client's minimum
    (50 pixels without one) and below its maximum if that is not smaller; with
    no size increment, pulling a left or top grip keeps the far edge in place
    while the maximum is not reached, and pulling a right or bottom grip keeps
    the near edge in place as long as the minimum is not reached.  Below the
    minimum a right or bottom grip moves the window: the near edge jumps by
    the difference between the size before the drag and the minimum. *)
Theorem resize_keeps_edges (k : WmClient) (e : edge) (o : rect) (dx dy : Z) :
  inc_w k = 1 → inc_h k = 1 →
  let r := resize_rect k e o dx dy in
  let mnw := drag_min (min_w k) in let mnh := drag_min (min_h k) in
  ((max_w k ≤ 0 ∨ mnw ≤ max_w k) → mnw ≤ rw r ∧ (0 < max_w k → rw r ≤ max_w k)) ∧
  ((max_h k ≤ 0 ∨ mnh ≤ max_h k) → mnh ≤ rh r ∧ (0 < max_h k → rh r ≤ max_h k)) ∧
  (pulls_left e = true → (max_w k ≤ 0 ∨ Z.max mnw (rw o - dx) ≤ max_w k) →
     rx r + rw r = rx o + rw o) ∧
  (pulls_top e = true → (max_h k ≤ 0 ∨ Z.max mnh (rh o - dy) ≤ max_h k) →
     ry r + rh r = ry o + rh o) ∧
  (pulls_right e = true → rx r = if rw o + dx <? mnw then rx o + rw o - mnw else rx o) ∧
  (pulls_bottom e = true → ry r = if rh o + dy <? mnh then ry o + rh o - mnh else ry o).
Proof.
  intros Hw Hh r mnw mnh. unfold r, resize_rect. rewrite Hw, Hh. cbn [orb Z.ltb Z.compare Pos.compare].
  fold mnw mnh. clearbody mnw mnh. unfold limit_axis, drag_rect.
  destruct e; cbn; split_and!; intros; try discriminate; repeat case_match; cbn in *; lia.
Qed.

Lemma resize_keeps_edges_witness :
  let k := plain_client 101 201 100 100 400 300 1 0 in
  rx (resize_rect k GRIP_LEFT (mkRect 100 100 400 300) 30 0) +
  rw (resize_rect k GRIP_LEFT (mkRect 100 100 400 300) 30 0) = 100 + 400.
Proof.
  intros k.
  assert (H := resize_keeps_edges k GRIP_LEFT (mkRect 100 100 400 300) 30 0 eq_refl eq_refl).
  apply H; [reflexivity | left; cbn; lia].
Defined.

(** ** Where the code does something else than it means to *)

(** a client snapped to a zone gets the zone's width as its own, without
    room for the frame: a decorated frame overhangs its zone by twice the
    border width on the right and at the bottom. *)
Theorem snapped_frame_overhangs `{XServer} (w : World) (c : window) (k : WmClient)
    (z : snap) (i : nat) (m : MonitorGeom) :
  find_client (clients (wm w)) c = Some k → decorated k = true →
  monitors (wm w) !! i = Some m →
  wp no_fault (apply_snap c z i) (fun _ w' =>
    ∃ g k', find_client (clients (wm w')) c = Some k' ∧
      let r := snap_rect (intersect m g) z in
      (roomy (title_height (wm w)) r →
       frame_rect (title_height (wm w)) k' =
         mkRect (rx r) (ry r) (rw r + 2 * WM_BORDER_WIDTH) (rh r + 2 * WM_BORDER_WIDTH))) w.
Proof.
  intros Hk Hd Hm. unfold apply_snap. apply wp_bind. unfold snap_geometry.
  apply wp_bind. eapply wp_monitor_area; [exact Hm|]. intros g w1 Hw1.
  apply wp_ret, wp_bind, wp_gets. rewrite Hw1. set (r := snap_rect _ _).
  apply wp_bind. eapply wp_upd; [by rewrite Hw1|]. rewrite Hw1.
  pose proof (find_client_upd c (snapped (title_height (wm w)) r) _ k Hk eq_refl) as H1.
  eapply wp_configured; [exact H1|]. intros w' Hw'.
  exists g, (snapped (title_height (wm w)) r k). split; [rewrite Hw'; exact H1|].
  apply snapped_rect, Hd.
Qed.

Lemma snapped_frame_overhangs_witness :
  wp no_fault (apply_snap (H := bare_server) 101 SNAP_LEFT 0) (fun _ w' =>
    ∃ g k', find_client (clients (wm w')) 101 = Some k' ∧
      let r := snap_rect (intersect (mkMonitor 0 0 1920 1080) g) SNAP_LEFT in
      (roomy 20 r → frame_rect 20 k' = mkRect (rx r) (ry r) (rw r + 2) (rh r + 2)))
    (world two_windows).
Proof.
  exact (snapped_frame_overhangs (H := bare_server) (world two_windows) 101
    (plain_client 101 201 100 100 400 300 1 0) SNAP_LEFT 0 (mkMonitor 0 0 1920 1080)
    eq_refl eq_refl eq_refl).
Defined.

(** What [f] reads after a run of events from [w0]. *)
Definition after (w0 : Wm) (evs : list xevent) {A} (f : Wm → A) : option A :=
  match dispatch_all (H := bare_server) evs (world w0) with
  | Ok _ w' => Some (f (wm w'))
  | Fault _ => None
  end.

Definition state_message (c action : Z) (s : net_state) : xevent :=
  ClientMessage (NetWmState c action (StateAtom s) StateOther).

(** Maximizing and fullscreen share the saved geometry.  A window that is
    maximized, made fullscreen and taken back out of both ends up with the
    geometry of the work area instead of its own. *)
Theorem fullscreen_forgets_geometry :
  after two_windows
    [state_message 101 1 MaximizedVert; state_message 101 1 Fullscreen;
     state_message 101 0 Fullscreen; state_message 101 0 MaximizedVert]
    (fun w => geometry <$> find_client (clients w) 101) = Some (Some (0, 0, 1918, 1058)) ∧
  (geometry <$> find_client (clients two_windows) 101) = Some (100, 100, 400, 300).
Proof. split; vm_compute; reflexivity. Qed.

(** Minimizing.  The window that is minimized keeps its focused flag and
    so its _NET_WM_STATE_FOCUSED; the focus goes to the first other client in
    the list even if that one is minimized itself; and switching desktops back
    and forth maps a minimized window again while it still counts as
    minimized. *)
Theorem minimizing_leaks :
  let focus c := ClientMessage (NetActiveWindow c 2 0) in
  let minimize c := ClientMessage (WmChangeState c 3) in
  let desk d := ClientMessage (NetCurrentDesktop d) in
  after two_windows [focus 101; minimize 101]
    (fun w => (focused w, map is_focused (clients w))) = Some (Some 102, [true; true]) ∧
  after two_windows [focus 102; minimize 101; minimize 102]
    (fun w => (focused w, map minimized (clients w))) = Some (Some 101, [true; true]) ∧
  after two_windows [minimize 101; desk 1; desk 0]
    (fun w => map (fun k => (minimized k, mapped k)) (clients w))
      = Some [(true, true); (false, true)].
Proof. split_and!; vm_compute; reflexivity. Qed.
