(* ===== verification/WmSpec.v ===== *)
(** * isde-wm: what the desktop operations do to the state

    The handlers of desktops.c are loops over the client list that store
    through client pointers and talk to the server.  Here they are shown to
    compute plain functions on the state ([apply_spec], [switched]), and
    focusing is shown to leave desktops and visibility alone ([still]). *)

From S2P Require Import Prelude.
From S2P Require Import CFloat.
From S2P Require Import WmCore.
From S2P Require Import WmPlace.
From S2P Require Import WmDesk.
From S2P Require Import WmDesktops.
From S2P Require Import WmSafety.
From S2P Require Import WmPointers.
From S2P Require Import WmHandlers.
Open Scope Z_scope.

(** ** Per-client functions *)

Definition hide_fn (k : WmClient) : WmClient :=
  let k1 := k <| hidden := true |> <| ignore_unmap := ignore_unmap k + 1 |> in
  if shown k then k1 <| mapped := false |> else k1.
Definition show_fn (k : WmClient) : WmClient :=
  let k1 := k <| hidden := false |> in
  if frame k =? 0 then k1 else k1 <| mapped := true |>.
Definition visible_fn (d : Z) (k : WmClient) : WmClient :=
  if on_desktop d k && hidden k then show_fn k
  else if negb (on_desktop d k) && negb (hidden k) then hide_fn k else k.
Definition pull_fn (lst : Z) (k : WmClient) : WmClient :=
  if negb (desktop k =? ALL_DESKTOPS) && (lst <? desktop k) then k <| desktop := lst |> else k.
Definition switch_fn (old d : Z) (k : WmClient) : WmClient :=
  if desktop k =? ALL_DESKTOPS then k
  else if (desktop k =? old) && negb (desktop k =? d) then hide_fn k
  else if (desktop k =? d) && negb (desktop k =? old) then show_fn k else k.

(** What [wm_desktops_apply] computes. *)
Definition apply_spec (rows cols : Z) (w : Wm) : Wm :=
  let rows := Z.max rows 1 in
  let cols := Z.max cols 1 in
  let n := s32 (rows * cols) in
  let lst := u32 (u32 n - 1) in
  let cur := if lst <? current_desktop w then lst else current_desktop w in
  w <| desk_rows := rows |> <| desk_cols := cols |> <| num_desktops := n |>
    <| current_desktop := cur |>
    <| clients := map (visible_fn cur) (map (pull_fn lst) (clients w)) |>.

(** Every client is shown or hidden as its desktop says. *)
Definition placed_well (w : Wm) : Prop :=
  Forall (fun k => hidden k = negb (on_desktop (current_desktop w) k)) (clients w).

Lemma upd_client_comp c f g l :
  (∀ k, client (f k) = client k) →
  upd_client c g (upd_client c f l) = upd_client c (fun k => g (f k)) l.
Proof.
  intros Hf. unfold upd_client. rewrite map_map. apply map_ext. intros k.
  destruct (decide (client k = c)) as [E|E]; cbn beta iota.
  - rewrite decide_True; [done | by rewrite Hf].
  - by rewrite decide_False.
Qed.

(** On a list without duplicates, visiting every client is a [map]. *)
Lemma upd_client_at f l1 k l2 :
  (∀ k, client (f k) = client k) →
  NoDup (map client (l1 ++ k :: l2)) →
  upd_client (client k) f (map f l1 ++ k :: l2) = map f (l1 ++ [k]) ++ l2.
Proof.
  intros Hf Hn. unfold upd_client. rewrite map_app, map_map. cbn [map].
  rewrite decide_True by done. rewrite (map_app f l1 [k]), <- app_assoc. cbn.
  rewrite map_app in Hn. cbn in Hn.
  apply NoDup_app in Hn as (_ & Hd & [Hk _]%NoDup_cons).
  assert (Hfix : ∀ l, client k ∉ map client l →
    map (fun a => if decide (client a = client k) then f a else a) l = l).
  { intros l Hl. rewrite <- (map_id l) at 2. apply map_ext_in. intros a Ha.
    rewrite decide_False; [done|]. intros E. apply Hl. rewrite <- E.
    by apply list_elem_of_In, in_map. }
  f_equal; [|by rewrite Hfix].
  apply map_ext_in. intros a Ha. rewrite decide_False; [done|]. rewrite Hf. intros E.
  apply (Hd (client a)); [by apply list_elem_of_In, in_map|]. rewrite E. left.
Qed.

Section Spec.
Context `{!XServer}.

(** [m] stores [f] into the client [c] and nothing else. *)
Definition stores (m : wprog unit) (c : window) (f : WmClient → WmClient) (w : World) : Prop :=
  wp no_fault m (fun _ w' => wm w' = (wm w) <| clients := upd_client c f (clients (wm w)) |>) w.

Lemma wp_for_each (I : Wm → Prop) body f l2 l1 (Q : unit → World → Prop) w :
  (∀ l w', I w' → I (w' <| clients := l |>)) →
  (∀ c w' k, I (wm w') → NoDup (ids (wm w')) → find_client (clients (wm w')) c = Some k →
    stores (body c) c f w') →
  (∀ k, client (f k) = client k) →
  I (wm w) → clients (wm w) = map f l1 ++ l2 → NoDup (map client (l1 ++ l2)) →
  (∀ w', wm w' = (wm w) <| clients := map f (l1 ++ l2) |> → Q tt w') →
  wp no_fault (for_each (map client l2) body) Q w.
Proof.
  intros HI Hb Hf. revert l1 w. induction l2 as [|k l2 IH]; intros l1 w Hw Hc Hn HQ.
  { apply wp_ret. apply HQ. rewrite app_nil_r in *. rewrite <- Hc. by destruct (wm w). }
  cbn [map for_each]. apply wp_bind.
  assert (Hin : client k ∈ map client (clients (wm w))).
  { rewrite Hc, map_app. apply elem_of_app. right. left. }
  destruct (find_client_is_Some _ _ Hin) as [k' Hk'].
  assert (Hn' : NoDup (ids (wm w))).
  { unfold ids. rewrite Hc, map_app, map_map. rewrite map_app in Hn.
    by rewrite (map_ext (fun x => client (f x)) client). }
  eapply wp_mono; [by eapply Hb|]. cbn beta. intros _ w1 Hw1.
  eapply (IH (l1 ++ [k])).
  - rewrite Hw1. by apply HI.
  - rewrite Hw1. cbn. rewrite Hc. by apply upd_client_at.
  - by rewrite <- app_assoc.
  - intros w2 Hw2. apply HQ. rewrite Hw2, Hw1. by rewrite <- app_assoc.
Qed.

Lemma wp_for_clients (I : Wm → Prop) body f (Q : unit → World → Prop) w :
  (∀ l w', I w' → I (w' <| clients := l |>)) →
  (∀ c w' k, I (wm w') → NoDup (ids (wm w')) → find_client (clients (wm w')) c = Some k →
    stores (body c) c f w') →
  (∀ k, client (f k) = client k) →
  I (wm w) → NoDup (ids (wm w)) →
  (∀ w', wm w' = (wm w) <| clients := map f (clients (wm w)) |> → Q tt w') →
  wp no_fault (for_clients body) Q w.
Proof.
  intros HI Hb Hf Hw Hn HQ. unfold for_clients. apply wp_bind, wp_gets.
  by eapply (wp_for_each I body f (clients (wm w)) []).
Qed.

(** ** Stores of the leaf operations *)

Lemma stores_upd c f w k : find_client (clients (wm w)) c = Some k → stores (upd c f) c f w.
Proof. intros Hk. by eapply wp_upd. Qed.

Lemma stores_skip c w : stores skip c (fun k => k) w.
Proof.
  apply wp_ret. unfold upd_client.
  rewrite (map_ext _ id), map_id; [by destruct (wm w) | intros k; by case_decide].
Qed.

(** A store followed by another one. *)
Lemma stores_bind c f g m (m' : wprog unit) w :
  (∀ k, client (f k) = client k) → stores m c f w →
  (∀ w', wm w' = (wm w) <| clients := upd_client c f (clients (wm w)) |> → stores m' c g w') →
  stores (m;; m') c (fun k => g (f k)) w.
Proof.
  intros Hf Hm Hm'. apply wp_bind. eapply wp_mono; [exact Hm|]. cbn beta. intros _ w1 Hw1.
  eapply wp_mono; [by apply Hm'|]. cbn beta. intros _ w2 ->. rewrite Hw1.
  by rewrite <- (upd_client_comp c f g).
Qed.

(** A call to the server in front. *)
Lemma stores_call c f q (m : wprog unit) w :
  (∀ w', wm w' = wm w → stores m c f w') → stores (x_ q;; m) c f w.
Proof.
  intros Hm. apply wp_bind, (wp_x no_fault q). exact (Hm (mkWorld (wm w) (q :: xcalls w)) eq_refl).
Qed.
(** The store depends on the record that is read: only its value at the
    client's present record counts. *)
Lemma stores_ext c f g m w k :
  find_client (clients (wm w)) c = Some k → NoDup (ids (wm w)) →
  f k = g k → stores m c f w → stores m c g w.
Proof.
  intros Hk Hn E Hm.
  assert (upd_client c f (clients (wm w)) = upd_client c g (clients (wm w))) as Hfg;
    [|unfold stores; by rewrite <- Hfg].
  unfold upd_client, ids in *. apply map_ext_in. intros a Ha.
  case_decide as Hac; [|done].
  assert (a = k) as ->; [|done].
  pose proof (find_client_client _ _ _ Hk) as Hc. pose proof (find_client_elem _ _ _ Hk) as Hin.
  apply list_elem_of_In, list_elem_of_lookup in Ha as [i Hi].
  apply list_elem_of_lookup in Hin as [j Hj].
  assert (i = j) as ->; [|congruence].
  eapply (NoDup_lookup (map client (clients (wm w)))); [done|..];
    rewrite list_lookup_fmap; [by rewrite Hi | rewrite Hj; cbn; congruence].
Qed.

(** Reading the record first. *)
Lemma stores_deref c f (m : WmClient → wprog unit) w k :
  find_client (clients (wm w)) c = Some k → stores (m k) c f w →
  stores (k ← deref c; m k) c f w.
Proof. intros Hk Hm. apply wp_bind. by eapply wp_deref. Qed.

(** ** Hiding and showing *)

Definition set_desk (d : Z) (k : WmClient) : WmClient := k <| desktop := d |>.
Definition set_hidden (b : bool) (k : WmClient) : WmClient := k <| hidden := b |>.
Definition count_unmap (k : WmClient) : WmClient := k <| ignore_unmap := ignore_unmap k + 1 |>.
Definition set_mapped (b : bool) (k : WmClient) : WmClient := k <| mapped := b |>.

Lemma find_after c f k w w' :
  find_client (clients (wm w)) c = Some k → client (f k) = client k →
  wm w' = (wm w) <| clients := upd_client c f (clients (wm w)) |> →
  find_client (clients (wm w')) c = Some (f k).
Proof. intros Hk Hf ->. by apply find_client_upd. Qed.

Lemma stores_unmap_frame c k w :
  find_client (clients (wm w)) c = Some k →
  stores (unmap_frame c) c (if shown k then set_mapped false else fun k => k) w.
Proof.
  intros Hk. unfold unmap_frame. eapply stores_deref; [exact Hk|].
  destruct (shown k); [|apply stores_skip].
  apply stores_call. intros w' Hw'. apply (stores_upd c _ w' k). by rewrite Hw'.
Qed.
Lemma stores_map_frame c k w :
  find_client (clients (wm w)) c = Some k →
  stores (map_frame c) c (if frame k =? 0 then fun k => k else set_mapped true) w.
Proof.
  intros Hk. unfold map_frame. eapply stores_deref; [exact Hk|].
  destruct (frame k =? 0); [apply stores_skip|].
  apply stores_call. intros w' Hw'. apply (stores_upd c _ w' k). by rewrite Hw'.
Qed.

Lemma stores_unmap_client c k w :
  find_client (clients (wm w)) c = Some k → stores (unmap_client c) c count_unmap w.
Proof.
  intros Hk. unfold unmap_client. apply wp_bind.
  eapply wp_mono; [exact (stores_upd c count_unmap w k Hk)|]. cbn beta. intros _ w1 Hw1.
  exact Hw1.
Qed.

Lemma stores_hide c k w :
  find_client (clients (wm w)) c = Some k → NoDup (ids (wm w)) → stores (hide_client c) c hide_fn w.
Proof.
  intros Hk Hn.
  apply (stores_ext c (fun k0 => (if shown k then set_mapped false else fun k => k)
    (count_unmap (set_hidden true k0))) _ _ w k Hk Hn).
  { unfold hide_fn, set_mapped, count_unmap, set_hidden. by destruct (shown k). }
  unfold hide_client.
  apply (stores_bind c (set_hidden true) (fun k0 => (if shown k then set_mapped false
    else fun k => k) (count_unmap k0))); [done | exact (stores_upd c _ w k Hk)|].
  intros w1 Hw1.
  assert (Hk1 : find_client (clients (wm w1)) c = Some (set_hidden true k))
    by by eapply find_after.
  apply (stores_bind c count_unmap); [done | exact (stores_unmap_client c _ w1 Hk1)|].
  intros w2 Hw2.
  assert (Hk2 : find_client (clients (wm w2)) c = Some (count_unmap (set_hidden true k)))
    by by eapply find_after.
  exact (stores_unmap_frame c _ w2 Hk2).
Qed.

Lemma stores_show c k w :
  find_client (clients (wm w)) c = Some k → NoDup (ids (wm w)) → stores (show_client c) c show_fn w.
Proof.
  intros Hk Hn.
  apply (stores_ext c (fun k0 => (if frame k =? 0 then fun k => k else set_mapped true)
    (set_hidden false k0)) _ _ w k Hk Hn).
  { unfold show_fn, set_mapped, set_hidden. by destruct (frame k =? 0). }
  unfold show_client.
  apply (stores_bind c (set_hidden false)); [done | exact (stores_upd c _ w k Hk)|].
  intros w1 Hw1. apply stores_call. intros w2 Hw2.
  assert (Hk2 : find_client (clients (wm w2)) c = Some (set_hidden false k)).
  { rewrite Hw2. by eapply find_after. }
  exact (stores_map_frame c _ w2 Hk2).
Qed.

(** ** The loops *)

Lemma stores_visible c k w :
  find_client (clients (wm w)) c = Some k → NoDup (ids (wm w)) →
  stores (sync_visible c) c (visible_fn (current_desktop (wm w))) w.
Proof.
  intros Hk Hn. unfold sync_visible. eapply stores_deref; [exact Hk|]. apply wp_bind, wp_gets.
  set (d := current_desktop (wm w)).
  destruct (on_desktop d k && hidden k) eqn:E1; [|destruct (negb _ && negb _) eqn:E2].
  - eapply stores_ext; [exact Hk | exact Hn | | exact (stores_show c k w Hk Hn)].
    unfold visible_fn. by rewrite E1.
  - eapply stores_ext; [exact Hk | exact Hn | | exact (stores_hide c k w Hk Hn)].
    unfold visible_fn. by rewrite E1, E2.
  - eapply stores_ext; [exact Hk | exact Hn | | apply stores_skip].
    unfold visible_fn. by rewrite E1, E2.
Qed.

Lemma stores_pull lst c k w :
  find_client (clients (wm w)) c = Some k → NoDup (ids (wm w)) →
  stores (pull_desktop lst c) c (pull_fn lst) w.
Proof.
  intros Hk Hn. unfold pull_desktop. eapply stores_deref; [exact Hk|].
  destruct (negb _ && _) eqn:E.
  - eapply (stores_ext c (set_desk lst)); [exact Hk | exact Hn | |].
    { unfold pull_fn. by rewrite E. }
    apply wp_bind. eapply wp_mono; [exact (stores_upd c _ w k Hk)|]. cbn beta.
    intros _ w1 Hw1. exact Hw1.
  - eapply stores_ext; [exact Hk | exact Hn | | apply stores_skip].
    unfold pull_fn. by rewrite E.
Qed.

Lemma stores_switch old d c k w :
  find_client (clients (wm w)) c = Some k → NoDup (ids (wm w)) →
  stores (switch_client old d c) c (switch_fn old d) w.
Proof.
  intros Hk Hn. unfold switch_client. eapply stores_deref; [exact Hk|].
  destruct (desktop k =? ALL_DESKTOPS) eqn:E0; 
    [|destruct ((desktop k =? old) && negb (desktop k =? d)) eqn:E1;
    [|destruct ((desktop k =? d) && negb (desktop k =? old)) eqn:E2]].
  - eapply stores_ext; [exact Hk | exact Hn | | apply stores_skip]. unfold switch_fn. by rewrite E0.
  - eapply stores_ext; [exact Hk | exact Hn | | exact (stores_hide c k w Hk Hn)].
    unfold switch_fn. by rewrite E0, E1.
  - eapply stores_ext; [exact Hk | exact Hn | | exact (stores_show c k w Hk Hn)].
    unfold switch_fn. by rewrite E0, E1, E2.
  - eapply stores_ext; [exact Hk | exact Hn | | apply stores_skip].
    unfold switch_fn. by rewrite E0, E1, E2.
Qed.

(** ** The desktop operations *)

Lemma client_hide k : client (hide_fn k) = client k.
Proof. unfold hide_fn. by destruct (shown k). Qed.
Lemma client_show k : client (show_fn k) = client k.
Proof. unfold show_fn. by destruct (frame k =? 0). Qed.
Lemma client_visible d k : client (visible_fn d k) = client k.
Proof.
  unfold visible_fn. destruct (_ && _); [apply client_show|].
  destruct (_ && _); [apply client_hide | done].
Qed.
Lemma client_pull d k : client (pull_fn d k) = client k.
Proof. unfold pull_fn. by destruct (_ && _). Qed.
Lemma client_switch old d k : client (switch_fn old d k) = client k.
Proof.
  unfold switch_fn. destruct (_ =? _); [done|].
  destruct (_ && _); [apply client_hide|]. destruct (_ && _); [apply client_show | done].
Qed.

Lemma wp_apply rows cols w :
  NoDup (ids (wm w)) →
  wp no_fault (wm_desktops_apply rows cols) (fun _ w' => wm w' = apply_spec rows cols (wm w)) w.
Proof.
  intros Hn. unfold wm_desktops_apply.
  apply wp_bind, wp_modify, wp_bind, wp_modify, wp_bind, wp_modify, wp_bind.
  set (lst := u32 (u32 (s32 (Z.max rows 1 * Z.max cols 1)) - 1)).
  eapply (wp_for_clients (fun _ => True) _ (pull_fn lst)); [done | | apply client_pull | done | done |].
  { intros c w' k _ Hn' Hk. by eapply stores_pull. }
  intros w1 Hw1. apply wp_bind, wp_gets.
  apply wp_bind. eapply (wp_mono _ _ (fun _ w' => wm w' = (wm w1) <| current_desktop :=
    if lst <? current_desktop (wm w1) then lst else current_desktop (wm w1) |>)).
  { destruct (lst <? _); [by apply wp_modify | apply wp_ret]. by destruct (wm w1). }
  cbn beta. intros _ w2 Hw2. apply wp_bind. unfold wm_desktops_sync_visibility.
  eapply (wp_for_clients (fun v => current_desktop v = current_desktop (wm w2)) _
    (visible_fn (current_desktop (wm w2)))); [done | | apply client_visible | done | |].
  { intros c w' k <- Hn' Hk. by apply (stores_visible c k). }
  { rewrite Hw2, Hw1. unfold ids. cbn. rewrite map_map.
    by rewrite (map_ext (fun x => client (pull_fn lst x)) client) by (apply client_pull). }
  intros w3 Hw3. apply wp_bind, wp_gets, wp_bind.
  apply (wp_x no_fault (XNumDesktops _)), (wp_x no_fault (XCurrentDesktop _)).
  change (wm w3 = apply_spec rows cols (wm w)). rewrite Hw3, Hw2, Hw1. reflexivity.
Qed.
End Spec.
