(* ===== verification/WmStill.v ===== *)
(** * isde-wm: what leaves the desktops alone

    [still m]: if [m] ends normally, the desktop of every client, its hidden
    flag, the current desktop and the desktop grid are as before.  All
    handlers are still but the few that move windows between desktops, switch
    desktops or change the grid. *)

From stdpp Require Import sorting.
From S2P Require Import Prelude.
From S2P Require Import CFloat.
From S2P Require Import WmCore.
From S2P Require Import WmPlace.
From S2P Require Import WmDesk.
From S2P Require Import WmDesktops.
From S2P Require Import WmEvents.
From S2P Require Import WmDispatch.
From S2P Require Import WmSafety.
From S2P Require Import WmPointers.
From S2P Require Import WmHandlers.
From S2P Require Import WmLifecycle.
From S2P Require Import WmClaims.
From S2P Require Import WmSpec.
Open Scope Z_scope.

(** What the desktop code sees of a client and of the state. *)
Definition seat (k : WmClient) : window * Z * bool := (client k, desktop k, hidden k).
Definition look (w : Wm) : (Z * Z * Z * Z) * list (window * Z * bool) :=
  (current_desktop w, num_desktops w, desk_rows w, desk_cols w, map seat (clients w)).

(** Any fault is allowed: these are statements about what [m] leaves behind. *)
Definition any_fault (f : fault) : Prop := True.

Section Frames.
Context `{!XServer} {T : Type} (F : Wm → T).

(** If [m] ends normally, [F] of the state is as before. *)
Definition frames {A} (m : wprog A) : Prop :=
  ∀ w, wp any_fault m (fun _ w' => F (wm w') = F (wm w)) w.

Lemma frames_ret {A} (a : A) : frames (mret a).
Proof. done. Qed.
Lemma frames_skip : frames skip.
Proof. done. Qed.
Lemma frames_raise {A} f : frames (raise f : wprog A).
Proof. done. Qed.
Lemma frames_x c : frames (x_ c).
Proof. done. Qed.
Lemma frames_get {A} (f : Wm → A) : frames (get_wm f).
Proof. done. Qed.
Lemma frames_deref c : frames (deref c).
Proof. intros w. unfold wp, deref. by destruct (find_client _ _). Qed.
Lemma frames_get_monitor i : frames (get_monitor i).
Proof. intros w. unfold wp, get_monitor. by destruct (_ !! _). Qed.
Lemma frames_bind {A B} (m : wprog A) (k : A → wprog B) :
  frames m → (∀ a, frames (k a)) → frames (m ≫= k).
Proof.
  intros Hm Hk w. apply wp_bind. eapply wp_mono; [apply Hm|]. cbn beta.
  intros a w' <-. apply Hk.
Qed.
Lemma frames_when b m : frames m → frames (when b m).
Proof. by destruct b. Qed.
Lemma frames_upd_wm (f : Wm → Wm) : (∀ w, F (f w) = F w) → frames (upd_wm f).
Proof. intros Hf w. apply Hf. Qed.
Lemma frames_upd c f :
  (∀ w, F (w <| clients := upd_client c f (clients w) |>) = F w) → frames (upd c f).
Proof. intros Hf. apply frames_bind; [apply frames_deref|]. intros _. by apply frames_upd_wm. Qed.
Lemma frames_for_each l body : (∀ c, frames (body c)) → frames (for_each l body).
Proof. intros Hb. induction l as [|c l IH]; [apply frames_skip|]. by apply frames_bind. Qed.
Lemma frames_for_clients body : (∀ c, frames (body c)) → frames (for_clients body).
Proof. intros Hb. apply frames_bind; [apply frames_get|]. intros. by apply frames_for_each. Qed.
End Frames.

Abbreviation still := (frames look).

Lemma seat_upd c f l : (∀ k, seat (f k) = seat k) → map seat (upd_client c f l) = map seat l.
Proof.
  intros Hf. unfold upd_client. rewrite map_map. apply map_ext. intros k.
  by destruct (decide _).
Qed.
Lemma still_upd c f : (∀ k, seat (f k) = seat k) → still (upd c f).
Proof. intros Hf. apply frames_upd. intros w. unfold look. cbn. by rewrite seat_upd. Qed.

(** Client updates that keep the seat, under the combinator [on]. *)
Lemma seat_on b f k : (∀ k, seat (f k) = seat k) → seat (on b f k) = seat k.
Proof. by destruct b; cbn. Qed.
Lemma seat_fill th a k : seat (fill_area th a k) = seat k.
Proof. done. Qed.
Lemma seat_pull th m k : seat (pull_onto th m k) = seat k.
Proof. unfold pull_onto. by rewrite !seat_on. Qed.

Create HintDb still discriminated.
#[export] Hint Constants Opaque : still.
#[export] Hint Resolve seat_pull seat_fill : still.

Ltac still_step :=
  lazymatch goal with
  | |- frames ?F (x_ ?c) => exact (frames_x F c)
  | |- frames _ (get_wm _) => apply frames_get
  | |- frames _ (deref _) => apply frames_deref
  | |- frames _ (get_monitor _) => apply frames_get_monitor
  | |- frames _ (mret _) => apply frames_ret
  | |- frames _ skip => apply frames_skip
  | |- frames _ (raise _) => apply frames_raise
  | |- frames _ (when _ _) => apply frames_when
  | |- frames look (upd _ _) =>
      apply still_upd; intros ?; first [reflexivity | solve [eauto with still]
        | unfold on; repeat case_match; reflexivity]
  | |- frames _ (upd _ _) => apply frames_upd; intros ?; reflexivity
  | |- frames _ (upd_wm _) => apply frames_upd_wm; intros ?; reflexivity
  | |- frames _ (for_clients _) => apply frames_for_clients; intros ?
  | |- frames _ (_ ≫= _) => apply frames_bind; [|intros ?]
  | |- frames _ (if ?b then _ else _) => destruct b
  | |- frames _ (match ?x with _ => _ end) => destruct x
  | |- frames _ (let _ := _ in _) => cbv zeta
  | |- frames (T:=?U) (A:=?T) ?F ?m =>
      first [solve [eauto with still]
            | let T' := eval hnf in T in
              change (frames (A:=T') F m); solve [eauto with still]]
  end.
Ltac still := repeat still_step.
Tactic Notation "stay" reference(f) := intros; unfold f; still.

Section Ops.
Context `{!XServer}.

(** ** WmCore *)

Lemma still_check_strut win acc : still (check_strut win acc).
Proof. stay check_strut. Qed.
Hint Resolve still_check_strut : still.
Lemma still_check_struts wins acc : still (check_struts wins acc).
Proof. revert acc. induction wins; intros acc; cbn; still. Qed.
Hint Resolve still_check_struts : still.
Lemma still_work_area : still wm_get_work_area.
Proof. stay wm_get_work_area. Qed.
Lemma still_primary : still wm_get_primary_monitor.
Proof. stay wm_get_primary_monitor. Qed.
Hint Resolve still_work_area still_primary : still.
Lemma still_monitor_area i : still (wm_get_monitor_work_area i).
Proof. stay wm_get_monitor_work_area. Qed.
Lemma still_extents c : still (frame_set_extents c).
Proof. stay frame_set_extents. Qed.
Lemma still_configure_notify c : still (frame_send_configure_notify c).
Proof. stay frame_send_configure_notify. Qed.
Lemma still_place_grip win r : still (place_grip win r).
Proof. stay place_grip. Qed.
Hint Resolve still_monitor_area still_extents still_configure_notify still_place_grip : still.
Lemma still_place_grips (l : list (window * rect)) :
  still (foldr (fun gr m => place_grip (fst gr) (snd gr);; m) skip l).
Proof. induction l; cbn; still. Qed.
Hint Resolve still_place_grips : still.
Lemma still_update_grips c : still (frame_update_grips c).
Proof. stay frame_update_grips. Qed.
Hint Resolve still_update_grips : still.
Lemma still_frame_configure c : still (frame_configure c).
Proof. stay frame_configure. Qed.
Lemma still_timer_add ms f : still (wm_timer_add ms f).
Proof. stay wm_timer_add. all: stay wm_now_ms. Qed.
Lemma still_timer_remove i : still (wm_timer_remove i).
Proof. stay wm_timer_remove. Qed.
Lemma still_set_state c st : still (wm_set_wm_state c st).
Proof. stay wm_set_wm_state. Qed.
Lemma still_net_state c : still (wm_update_net_wm_state c).
Proof. stay wm_update_net_wm_state. Qed.
Lemma still_client_list : still wm_ewmh_update_client_list.
Proof. stay wm_ewmh_update_client_list. Qed.
Lemma still_stacking : still wm_ewmh_update_client_list_stacking.
Proof. stay wm_ewmh_update_client_list_stacking. Qed.
Lemma still_active : still wm_ewmh_update_active.
Proof. stay wm_ewmh_update_active. Qed.
Lemma still_workarea : still wm_ewmh_update_workarea.
Proof. stay wm_ewmh_update_workarea. Qed.
Hint Resolve still_frame_configure still_timer_add still_timer_remove still_set_state
  still_net_state still_client_list still_stacking still_active still_workarea : still.

(** ** WmPlace *)

Lemma still_maximize c : still (wm_maximize_client c).
Proof. stay wm_maximize_client. Qed.
Lemma still_fullscreen c b : still (wm_fullscreen_client c b).
Proof. stay wm_fullscreen_client. Qed.
Lemma still_rescue_one c : still (rescue_one c).
Proof. stay rescue_one. Qed.
Hint Resolve still_maximize still_fullscreen still_rescue_one : still.
Lemma still_rescue : still rescue_orphaned_clients.
Proof. stay rescue_orphaned_clients. Qed.
Lemma still_detect px py : still (detect_snap_zone px py).
Proof. stay detect_snap_zone. Qed.
Lemma still_snap_geometry z i : still (snap_geometry z i).
Proof. stay snap_geometry. Qed.
Hint Resolve still_rescue still_detect still_snap_geometry : still.
Lemma still_preview_show z i : still (snap_preview_show z i).
Proof. stay snap_preview_show. Qed.
Lemma still_preview_hide : still snap_preview_hide.
Proof. stay snap_preview_hide. Qed.
Lemma still_apply_snap c z i : still (apply_snap c z i).
Proof. stay apply_snap. Qed.
Hint Resolve still_preview_show still_preview_hide still_apply_snap : still.

(** ** WmDesk *)

Lemma still_restack_below c : still (restack_below c).
Proof. stay restack_below. Qed.
Lemma still_restack_above c : still (restack_above c).
Proof. stay restack_above. Qed.
Lemma still_restack_modal c : still (restack_modal c).
Proof. stay restack_modal. Qed.
Hint Resolve still_restack_below still_restack_above still_restack_modal : still.
Lemma still_restack : still wm_restack_above_below.
Proof. stay wm_restack_above_below. Qed.
Lemma still_drop_focus p : still (drop_focus p).
Proof. stay drop_focus. Qed.
Lemma still_take_focus c t : still (take_focus c t).
Proof. stay take_focus. Qed.
Hint Resolve still_restack still_drop_focus still_take_focus : still.
Lemma still_focus c t : still (wm_focus_client c t).
Proof. stay wm_focus_client. Qed.
Lemma still_unmap_client c : still (unmap_client c).
Proof. stay unmap_client. Qed.
Lemma still_unmap_frame c : still (unmap_frame c).
Proof. stay unmap_frame. Qed.
Lemma still_map_frame c : still (map_frame c).
Proof. stay map_frame. Qed.
Hint Resolve still_focus still_unmap_client still_unmap_frame still_map_frame : still.
Lemma still_minimize c : still (wm_minimize_client c).
Proof. stay wm_minimize_client. Qed.
Lemma still_restore c : still (wm_restore_client c).
Proof. stay wm_restore_client. Qed.
Lemma still_set_above c b : still (wm_set_above c b).
Proof. stay wm_set_above. Qed.
Lemma still_set_below c b : still (wm_set_below c b).
Proof. stay wm_set_below. Qed.
Hint Resolve still_minimize still_restore still_set_above still_set_below : still.
Lemma still_build_order : still build_order.
Proof. stay build_order. Qed.
Lemma still_destroy_osd : still destroy_osd.
Proof. stay destroy_osd. Qed.
Lemma still_div a b : still (div_ a b).
Proof. stay div_. Qed.
Hint Resolve still_build_order still_destroy_osd still_div : still.
Lemma still_create_osd : still create_osd.
Proof. stay create_osd. Qed.
Lemma still_next : still wm_switcher_next.
Proof. stay wm_switcher_next. Qed.
Lemma still_prev : still wm_switcher_prev.
Proof. stay wm_switcher_prev. Qed.
Hint Resolve still_create_osd still_next still_prev : still.
Lemma still_switcher_show : still wm_switcher_show.
Proof. stay wm_switcher_show. Qed.
Lemma still_commit : still wm_switcher_commit.
Proof. stay wm_switcher_commit. Qed.
Lemma still_cancel : still wm_switcher_cancel.
Proof. stay wm_switcher_cancel. Qed.
Hint Resolve still_switcher_show still_commit still_cancel : still.
Lemma still_destroy_grips gs : still (destroy_grips gs).
Proof. unfold destroy_grips. induction gs; cbn; still. Qed.
Lemma still_sync_cleanup k : still (sync_cleanup k).
Proof. stay sync_cleanup. Qed.
Hint Resolve still_destroy_grips still_sync_cleanup : still.
Lemma still_frame_destroy k : still (frame_destroy k).
Proof. stay frame_destroy. Qed.
Lemma still_forget c : still (forget_client c).
Proof. stay forget_client. Qed.
Lemma still_close c : still (wm_close_client c).
Proof. stay wm_close_client. Qed.
Lemma still_remove_dock win : still (wm_remove_dock win).
Proof. stay wm_remove_dock. Qed.
Hint Resolve still_frame_destroy still_forget still_close still_remove_dock : still.

(** ** WmDesktops *)

Lemma still_read_config : still wm_desktops_read_config.
Proof. stay wm_desktops_read_config. Qed.
Lemma still_arm : still arm_reload.
Proof. stay arm_reload. Qed.
Lemma still_osd_hide : still osd_hide_cb.
Proof. stay osd_hide_cb. Qed.
Lemma still_show_osd : still wm_desktops_show_osd.
Proof. stay wm_desktops_show_osd. Qed.
Lemma still_sync_expire c : still (sync_expire c).
Proof. stay sync_expire. Qed.
Hint Resolve still_read_config still_arm still_osd_hide still_show_osd still_sync_expire : still.
Lemma still_sync_timeout : still sync_timeout_cb.
Proof. stay sync_timeout_cb. Qed.
Lemma still_settings : still wm_desktops_settings_changed.
Proof. stay wm_desktops_settings_changed. Qed.
Lemma still_arm_alarm c : still (sync_arm_alarm c).
Proof. stay sync_arm_alarm. Qed.
Hint Resolve still_sync_timeout still_settings still_arm_alarm : still.
Lemma still_throttle c : still (wm_sync_throttle c).
Proof. stay wm_sync_throttle. Qed.
Lemma still_settle c : still (sync_settle c).
Proof. stay sync_settle. Qed.
Hint Resolve still_throttle still_settle : still.
Lemma still_alarm a v : still (wm_sync_alarm_notify a v).
Proof. stay wm_sync_alarm_notify. Qed.
Hint Resolve still_alarm : still.

(** ** WmEvents and WmDispatch *)

Lemma still_grip_press ev : still (on_grip_press ev).
Proof. stay on_grip_press. Qed.
Lemma still_configure_request r : still (on_configure_request r).
Proof. stay on_configure_request. Qed.
Lemma still_drag_out c px py : still (drag_out c px py).
Proof. stay drag_out. Qed.
Lemma still_set_snap z i : still (set_snap z i).
Proof. stay set_snap. Qed.
Hint Resolve still_grip_press still_configure_request still_drag_out still_set_snap : still.
Lemma still_drag_move c px py : still (drag_move c px py).
Proof. stay drag_move. Qed.
Lemma still_drag_resize c px py : still (drag_resize c px py).
Proof. stay drag_resize. Qed.
Hint Resolve still_drag_move still_drag_resize : still.
Lemma still_motion ev : still (on_motion_notify ev).
Proof. stay on_motion_notify. Qed.
Lemma still_end_drag : still end_drag.
Proof. stay end_drag. Qed.
Lemma still_finish_drag c : still (finish_drag c).
Proof. stay finish_drag. Qed.
Hint Resolve still_motion still_end_drag still_finish_drag : still.
Lemma still_release ev : still (on_button_release ev).
Proof. stay on_button_release. Qed.
Lemma still_dismiss : still wm_dismiss_menu.
Proof. stay wm_dismiss_menu. Qed.
Hint Resolve still_release still_dismiss : still.
Lemma still_menu_show c : still (win_menu_show c).
Proof. stay win_menu_show. Qed.
Lemma still_frame_press c ev : still (on_frame_button_press c ev).
Proof. stay on_frame_button_press. Qed.
Lemma still_press_motion ev : still (on_button_press_motion ev).
Proof. stay on_button_press_motion. Qed.
Hint Resolve still_menu_show still_frame_press still_press_motion : still.
Lemma still_button_action c b : still (button_action c b).
Proof. stay button_action. Qed.
Hint Resolve still_button_action : still.
Lemma still_press_release ev : still (on_button_press_release ev).
Proof. stay on_button_press_release. Qed.
Lemma still_active_window win s t : still (on_active_window win s t).
Proof. stay on_active_window. Qed.
Lemma still_moveresize c px py d b : still (on_moveresize c px py d b).
Proof. stay on_moveresize. Qed.
Lemma still_wants_decorations win : still (wm_client_wants_decorations win).
Proof. stay wm_client_wants_decorations. Qed.
Lemma still_type_decorations win : still (wm_window_type_wants_decorations win).
Proof. stay wm_window_type_wants_decorations. Qed.
Hint Resolve still_press_release still_active_window still_moveresize
  still_wants_decorations still_type_decorations : still.
Lemma still_request_extents win : still (on_request_extents win).
Proof. stay on_request_extents. Qed.
Lemma still_query_monitors : still query_monitors.
Proof. stay query_monitors. Qed.
Lemma still_keys_release sym : still (wm_keys_handle_release sym).
Proof. stay wm_keys_handle_release. Qed.
Hint Resolve still_request_extents still_query_monitors still_keys_release : still.
Lemma still_button_press ev : still (on_button_press ev).
Proof. stay on_button_press. Qed.
End Ops.

#[export] Hint Resolve still_check_strut still_check_struts still_work_area still_primary
  still_monitor_area still_extents still_configure_notify still_place_grip still_place_grips
  still_update_grips still_frame_configure still_timer_add still_timer_remove still_set_state
  still_net_state still_client_list still_stacking still_active still_workarea still_maximize
  still_fullscreen still_rescue_one still_rescue still_detect still_snap_geometry
  still_preview_show still_preview_hide still_apply_snap still_restack_below
  still_restack_above still_restack_modal still_restack still_drop_focus still_take_focus
  still_focus still_unmap_client still_unmap_frame still_map_frame still_minimize still_restore
  still_set_above still_set_below still_build_order still_destroy_osd still_div
  still_create_osd still_next still_prev still_switcher_show still_commit still_cancel
  still_destroy_grips still_sync_cleanup still_frame_destroy still_forget still_close
  still_remove_dock still_read_config still_arm still_osd_hide still_show_osd still_sync_expire
  still_sync_timeout still_settings still_arm_alarm still_throttle still_settle still_alarm
  still_grip_press still_configure_request still_drag_out still_set_snap still_drag_move
  still_drag_resize still_motion still_end_drag still_finish_drag still_release still_dismiss
  still_menu_show still_frame_press still_press_motion still_button_action still_press_release
  still_active_window still_moveresize still_wants_decorations still_type_decorations
  still_request_extents still_query_monitors still_keys_release still_button_press : still.

(** ** Focusing, once the pointer is set *)

Section Focus.
Context `{!XServer}.

Lemma foc_net_state c : frames focused (wm_update_net_wm_state c).
Proof. stay wm_update_net_wm_state. Qed.
Lemma foc_restack_below c : frames focused (restack_below c).
Proof. stay restack_below. Qed.
Lemma foc_restack_above c : frames focused (restack_above c).
Proof. stay restack_above. Qed.
Lemma foc_restack_modal c : frames focused (restack_modal c).
Proof. stay restack_modal. Qed.
Hint Resolve foc_net_state foc_restack_below foc_restack_above foc_restack_modal : still.
Lemma foc_restack : frames focused wm_restack_above_below.
Proof. stay wm_restack_above_below. Qed.
Lemma foc_take_focus c t : frames focused (take_focus c t).
Proof. stay take_focus. Qed.
Lemma foc_drop_focus c : frames focused (drop_focus c).
Proof. stay drop_focus. Qed.
Lemma foc_active : frames focused wm_ewmh_update_active.
Proof. stay wm_ewmh_update_active. Qed.
Lemma foc_stacking : frames focused wm_ewmh_update_client_list_stacking.
Proof. stay wm_ewmh_update_client_list_stacking. Qed.
Hint Resolve foc_restack foc_take_focus foc_drop_focus foc_active foc_stacking : still.

(** [wm_focus_client c] focuses the first modal dialog of [c], or [c]. *)
Lemma wp_focused c t w :
  wp any_fault (wm_focus_client c t)
    (fun _ w' => focused (wm w') = focus_target (clients (wm w)) <$> c) w.
Proof.
  unfold wm_focus_client. apply wp_bind, wp_gets, wp_bind, wp_gets, wp_bind, wp_modify.
  match goal with |- wp _ ?m _ _ => assert (frames focused m) as Hm by still end.
  eapply wp_mono; [apply Hm|]. cbn beta. intros _ w' ->. reflexivity.
Qed.

Lemma foc_primary : frames focused wm_get_primary_monitor.
Proof. stay wm_get_primary_monitor. Qed.
Lemma foc_timer_add ms f : frames focused (wm_timer_add ms f).
Proof. stay wm_timer_add. stay wm_now_ms. Qed.
Lemma foc_timer_remove i : frames focused (wm_timer_remove i).
Proof. stay wm_timer_remove. Qed.
Hint Resolve foc_primary foc_timer_add foc_timer_remove : still.
Lemma foc_show_osd : frames focused wm_desktops_show_osd.
Proof. stay wm_desktops_show_osd. Qed.
End Focus.

(** ** isde-wm: the Alt-Tab switcher and the timers *)

(** ** The switcher *)

(** The Alt-Tab order: the switchable windows, the most recently used first. *)
Definition mru_order (w : Wm) (o : list window) : Prop :=
  ∃ ks, o = map client ks ∧ Sorted Z.ge (map c_focus_seq ks) ∧
    ks ≡ₚ filter (switchable (current_desktop w)) (clients w).

Lemma sorted_uses ks : Sorted mru_before ks → Sorted Z.ge (map c_focus_seq ks).
Proof.
  induction 1 as [|k ks _ IH Hk]; cbn; constructor; [done|].
  destruct Hk as [|b ks Hb]; constructor. unfold mru_before in Hb. lia.
Qed.

Lemma mru_order_spec w :
  mru_order w (map client (merge_sort mru_before (filter (switchable (current_desktop w)) (clients w)))).
Proof.
  eexists. split; [done|]. split; [|apply merge_sort_Permutation].
  apply sorted_uses, Sorted_merge_sort. intros a b. unfold mru_before. lia.
Qed.

Definition switcher_view (w : Wm) := (switcher_active w, switcher_order w, switcher_sel w, clients w).

Section Switcher.
Context `{!XServer}.

Lemma view_primary : frames switcher_view wm_get_primary_monitor.
Proof. stay wm_get_primary_monitor. Qed.
Lemma view_div a b : frames switcher_view (div_ a b).
Proof. stay div_. Qed.
Hint Resolve view_primary view_div : still.
Lemma view_create_osd : frames switcher_view create_osd.
Proof. stay create_osd. Qed.

(** Opening the switcher. *)
Definition opened (w w' : Wm) : Prop :=
  clients w' = clients w ∧
  if switcher_active w'
  then mru_order w (switcher_order w') ∧ (2 ≤ length (switcher_order w'))%nat ∧ switcher_sel w' = 1
  else switcher_order w' = [].

Lemma wp_open w :
  switcher_active (wm w) = false →
  wp any_fault wm_switcher_show (fun _ w' => opened (wm w) (wm w')) w.
Proof.
  intros Ha. unfold wm_switcher_show. apply wp_bind, wp_gets. rewrite Ha.
  unfold build_order. apply wp_bind, wp_bind, wp_gets, wp_modify.
  apply wp_bind, wp_gets. unfold id. cbn [wm switcher_order].
  pose proof (mru_order_spec (wm w)) as Ho. set (o := map client _) in *. clearbody o.
  set (w1 := w <| wm := _ |>).
  assert (Ho1 : switcher_order (wm w1) = o) by done. rewrite Ho1.
  assert (Ha1 : switcher_active (wm w1) = false) by exact Ha.
  assert (Hc1 : clients (wm w1) = clients (wm w)) by done. clearbody w1.
  destruct (_ <? 2) eqn:E.
  { apply wp_modify. split; [exact Hc1|]. cbn. by rewrite Ha1. }
  apply wp_bind, (wp_x any_fault XGrabKeyboard). destruct (xanswer _ _); cbn [negb].
  2: { apply wp_modify. split; [exact Hc1|]. cbn. by rewrite Ha1. }
  apply wp_bind, wp_modify, wp_bind, wp_modify.
  eapply wp_mono; [apply view_create_osd|]. cbn beta. intros _ w2 [= E1 E2 E3 E4].
  split; [by rewrite E4|]. rewrite E1, E2, E3. cbn. split; [by rewrite Ho1|].
  split; [|done]. change (2 ≤ length (switcher_order (wm w1)))%nat. rewrite Ho1. lia.
Qed.

(** Moving the selection. *)
Definition select (n sel : Z) (back : bool) : Z :=
  if back then if sel - 1 <? 0 then n - 1 else sel - 1
  else if n <=? sel + 1 then 0 else sel + 1.

Lemma select_spec n sel b :
  0 ≤ sel < n → 0 ≤ select n sel b < n ∧ select n (select n sel b) (negb b) = sel ∧
  select n sel b = (if b then sel - 1 else sel + 1) mod n.
Proof.
  intros Hs. assert (0 ≤ select n sel b < n ∧ select n (select n sel b) (negb b) = sel) as [? ?].
  { unfold select. destruct b; cbn [negb]; repeat case_match; lia. }
  split; [done|]. split; [done|]. unfold select. destruct b; case_match.
  - assert (sel = 0) as -> by lia. rewrite <- (Z_mod_plus_full (0 - 1) 1 n).
    rewrite Z.mod_small; lia.
  - rewrite Z.mod_small; lia.
  - assert (sel + 1 = n) as -> by lia. by rewrite Z_mod_same_full.
  - rewrite Z.mod_small; lia.
Qed.

Lemma wp_select w (b : bool) :
  switcher_active (wm w) = true → switcher_order (wm w) ≠ [] →
  wp no_fault (if b then wm_switcher_prev else wm_switcher_next) (fun _ w' =>
    wm w' = (wm w) <| switcher_sel :=
      select (Z.of_nat (length (switcher_order (wm w)))) (switcher_sel (wm w)) b |>) w.
Proof.
  intros Ha Ho. assert (Z.of_nat (length (switcher_order (wm w))) =? 0 = false) as Hn.
  { by destruct (switcher_order (wm w)). }
  destruct b; unfold wm_switcher_prev, wm_switcher_next; apply wp_bind, wp_gets; unfold id;
    rewrite Ha, Hn; by apply wp_modify.
Qed.

(** Rows of the popup. *)
Lemma row_to_index_range sel n row center :
  0 < n → 0 ≤ row_to_index sel n row center < n ∧
  row_to_index sel n row center mod n = (sel + (row - center)) mod n.
Proof.
  intros Hn. unfold row_to_index. set (v := sel + (row - center)).
  pose proof (Z.quot_rem' v n) as Hq. pose proof (Z.rem_bound_abs v n ltac:(lia)) as Hb.
  revert Hq Hb. generalize (Z.quot v n) (Z.rem v n). intros q r Hq Hb.
  destruct (r <? 0) eqn:E; split; try lia.
  - rewrite Hq. replace (n * q + r) with (r + n + (q - 1) * n) by ring. by rewrite Z_mod_plus_full.
  - rewrite Hq. replace (n * q + r) with (r + q * n) by ring. by rewrite Z_mod_plus_full.
Qed.

(** ** Committing *)

Definition parents (w : Wm) : list window := map transient_for (clients w).

Lemma parents_upd c f : (∀ k, transient_for (f k) = transient_for k) → frames parents (upd c f).
Proof.
  intros Hf. apply frames_upd. intros w. unfold parents, upd_client. cbn. rewrite map_map.
  apply map_ext. intros k. by case_decide.
Qed.
Lemma parents_map_frame c : frames parents (map_frame c).
Proof. unfold map_frame. still; by apply parents_upd. Qed.
Lemma parents_restore c : frames parents (wm_restore_client c).
Proof.
  unfold wm_restore_client.
  apply frames_bind; [apply frames_deref|]. intros k. apply frames_when.
  apply frames_bind; [by apply parents_upd|]. intros _.
  apply frames_bind; [stay wm_set_wm_state|]. intros _.
  apply frames_bind; [still|]. intros _. apply parents_map_frame.
Qed.
Lemma parents_destroy_osd : frames parents destroy_osd.
Proof. stay destroy_osd. Qed.

Lemma no_dialog w t : t ∉ parents w → focus_target (clients w) t = t.
Proof.
  intros Ht. unfold focus_target, first_client.
  destruct (list_find _ _) as [[i m]|] eqn:E; [|done]. exfalso.
  apply list_find_Some in E as (Hi & Hm & _). apply Ht.
  unfold modal_for in Hm. apply andb_true_iff in Hm as [Hm _].
  apply andb_true_iff in Hm as [_ Hm]. apply Z.eqb_eq in Hm as <-.
  apply list_elem_of_In, in_map, list_elem_of_In. by eapply list_elem_of_lookup_2.
Qed.

Lemma wp_commit w t :
  switcher_active (wm w) = true → 0 ≤ switcher_sel (wm w) →
  switcher_order (wm w) !! Z.to_nat (switcher_sel (wm w)) = Some t → t ∉ parents (wm w) →
  wp any_fault wm_switcher_commit (fun _ w' => focused (wm w') = Some t) w.
Proof.
  intros Ha Hs Ht Hp. unfold wm_switcher_commit. apply wp_bind, wp_gets. unfold id.
  rewrite Ha. cbn [negb]. cbv zeta.
  pose proof (lookup_lt_Some _ _ _ Ht) as Hlt.
  assert ((0 <=? switcher_sel (wm w)) && (switcher_sel (wm w) <? Z.of_nat (length (switcher_order (wm w))))
    = true) as -> by (apply andb_true_iff; lia).
  rewrite Ht. apply wp_bind, (wp_x any_fault XUngrabKeyboard), wp_bind.
  eapply wp_mono; [apply parents_destroy_osd|]. cbn beta. intros _ w1 E1.
  apply wp_bind, wp_modify, wp_bind.
  set (w2 := w1 <| wm := _ |>). assert (E2 : parents (wm w2) = parents (wm w)) by exact E1.
  clearbody w2. eapply wp_mono; [apply frames_deref with (F := parents)|]. cbn beta. intros k w3 E3.
  apply wp_bind. eapply wp_mono; [apply frames_when with (F := parents), parents_restore|].
  cbn beta. intros _ w4 E4. eapply wp_mono; [apply wp_focused|]. cbn beta. intros _ w5 ->.
  cbn. rewrite no_dialog; [done|]. by rewrite E4, E3, E2.
Qed.
End Switcher.

Lemma wp_pair {A} (m : wprog A) (P Q : A → World → Prop) w :
  wp no_fault m P w → wp any_fault m Q w → wp no_fault m Q w.
Proof. unfold wp. by destruct (m w). Qed.

(** Alt-Tab.  Opening the switcher lists the windows of the current desktop
    that are no dialogs, each once and the most recently used first, and
    selects the second; it opens only with two windows and the keyboard.
    Tab and Shift-Tab move the selection around that list and undo each other.
    Letting go of Alt focuses the selected window. *)
Theorem alt_tab `{XServer} (w : World) :
  Inv (wm w) →
  (switcher_active (wm w) = false →
    wp no_fault wm_switcher_show (fun _ w' => Inv (wm w') ∧ opened (wm w) (wm w')) w) ∧
  (switcher_active (wm w) = true → switcher_order (wm w) ≠ [] →
    0 ≤ switcher_sel (wm w) < Z.of_nat (length (switcher_order (wm w))) →
    wp no_fault wm_switcher_next (fun _ w1 =>
      switcher_sel (wm w1) = (switcher_sel (wm w) + 1) mod Z.of_nat (length (switcher_order (wm w))) ∧
      wp no_fault wm_switcher_prev (fun _ w2 => wm w2 = wm w) w1) w) ∧
  (∀ t, switcher_active (wm w) = true → 0 ≤ switcher_sel (wm w) →
    switcher_order (wm w) !! Z.to_nat (switcher_sel (wm w)) = Some t → t ∉ parents (wm w) →
    wp no_fault wm_switcher_commit (fun _ w' => focused (wm w') = Some t) w).
Proof.
  intros Hi. split; [|split].
  - intros Ha. assert (H0 : wp no_fault wm_switcher_show (fun _ w' => Inv (wm w')) w).
    { apply wp_hold; [exact Hi|]. intros L. apply hold_show_switcher. }
    pose proof (wp_open w Ha) as H1. unfold wp in *. by destruct (wm_switcher_show w).
  - intros Ha Ho Hs.
    destruct (select_spec _ _ false Hs) as (_ & Hb & Hm).
    eapply wp_mono; [exact (wp_select w false Ha Ho)|]. cbn beta. intros _ w1 E1.
    split; [by rewrite E1|].
    eapply wp_mono; [apply (wp_select w1 true); by rewrite E1|]. cbn beta. intros _ w2 E2.
    rewrite E2, E1. cbn. cbn in Hb. rewrite Hb. by destruct (wm w).
  - intros t Ha Hs Ht Hp. eapply wp_pair; [|by apply wp_commit].
    apply wp_hold; [exact Hi|]. intros L. apply hold_commit.
Qed.

Lemma alt_tab_witness :
  wp no_fault (wm_switcher_show (H := bare_server)) (fun _ w' =>
    Inv (H := bare_server) (wm w') ∧ opened two_windows (wm w')) (world two_windows).
Proof. exact (proj1 (alt_tab (H := bare_server) (world two_windows) two_windows_ok) eq_refl). Defined.
