(* ===== verification/WmDesktopClaims.v ===== *)
(** * isde-wm: the virtual desktops

    The invariant of the desktops: the current desktop exists, every window is
    on an existing desktop or on all of them, and a window is hidden exactly
    while its desktop is not the current one.  Every event, timer and settings
    change keeps it; switching and changing the grid compute the functions of
    [WmSpec]. *)

From S2P Require Import Prelude.
From S2P Require Import CFloat.
From S2P Require Import WmCore.
From S2P Require Import WmPlace.
From S2P Require Import WmDesk.
From S2P Require Import WmDesktops.
From S2P Require Import WmEvents.
From S2P Require Import WmDispatch.
From S2P Require Import WmSafety.
From S2P Require Import WmPointers.
From S2P Require Import WmHandlers.
From S2P Require Import WmLifecycle.
From S2P Require Import WmSpec.
From S2P Require Import WmStill.
From S2P Require Import WmClaims.
From stdpp Require Import sorting.
Open Scope Z_scope.

(** ** The invariant *)

Definition on_grid (n d : Z) : Prop := d = ALL_DESKTOPS ∨ 0 ≤ d < n.

(** A client's id, desktop and hidden flag fit the current desktop [cur] of [n]. *)
Definition seated (cur n : Z) (s : window * Z * bool) : Prop :=
  s.2 = negb ((s.1.2 =? cur) || (s.1.2 =? ALL_DESKTOPS)) ∧ on_grid n s.1.2.

Record grid_ok (cur n rows cols : Z) : Prop := {
  gr_size : n = rows * cols;
  gr_rows : 0 < rows;
  gr_cols : 0 < cols;
  gr_fits : n < 2 ^ 31;
  gr_cur : 0 ≤ cur < n
}.

Definition desks_ok (w : Wm) : Prop :=
  grid_ok (current_desktop w) (num_desktops w) (desk_rows w) (desk_cols w) ∧
  NoDup (ids w) ∧
  Forall (seated (current_desktop w) (num_desktops w)) (map seat (clients w)).

(** Whatever layouts the panel or the configuration file ask for, the number
    of desktops fits an int. *)
Definition layouts_fit `{XServer} : Prop :=
  (∀ h lc lr, valid_layout (xanswer h XDesktopLayout) = Some (lc, lr) → lr * lc < 2 ^ 31) ∧
  (∀ h, fst (config_grid (xanswer h ReadDeskConfig)) *
        snd (config_grid (xanswer h ReadDeskConfig)) < 2 ^ 31).

(** Desktop numbers on the wire are unsigned. *)
Definition wire_event (ev : xevent) : Prop :=
  match ev with
  | ClientMessage (NetCurrentDesktop d) | ClientMessage (NetWmDesktop _ d) => 0 ≤ d
  | _ => True
  end.

Lemma look_desks w w' : look w = look w' → desks_ok w → desks_ok w'.
Proof.
  unfold look, desks_ok, ids. intros [= E1 E2 E3 E4 E5].
  assert (∀ l, map client l = map (fun s : window * Z * bool => s.1.1) (map seat l)) as Hid
    by (intros l; by rewrite map_map).
  rewrite !Hid. by rewrite E1, E2, E3, E4, E5.
Qed.

(** ** The per-client functions *)

Lemma desktop_visible d k : desktop (visible_fn d k) = desktop k.
Proof.
  unfold visible_fn, show_fn, hide_fn. repeat case_match; reflexivity.
Qed.
Lemma hidden_visible d k : hidden (visible_fn d k) = negb (on_desktop d k).
Proof.
  unfold visible_fn, show_fn, hide_fn.
  destruct (on_desktop d k), (hidden k) eqn:Eh; cbn; repeat case_match; done.
Qed.
Lemma seat_hide k : seat (hide_fn k) = (client k, desktop k, true).
Proof. unfold hide_fn. by destruct (shown k). Qed.
Lemma seat_show k : seat (show_fn k) = (client k, desktop k, false).
Proof. unfold show_fn. by destruct (frame k =? 0). Qed.

Lemma seated_visible cur n k :
  on_grid n (desktop k) → seated cur n (seat (visible_fn cur k)).
Proof.
  intros Hd. unfold seated, seat. cbn [fst snd].
  by rewrite hidden_visible, desktop_visible.
Qed.

Lemma on_grid_pull n n' k :
  0 < n → on_grid n' (desktop k) → on_grid n (desktop (pull_fn (n - 1) k)).
Proof.
  unfold pull_fn, on_grid. intros Hn [E|Hd].
  - rewrite E. cbn. by left.
  - destruct (desktop k =? ALL_DESKTOPS) eqn:Ea; [by left; apply Z.eqb_eq|].
    destruct (n - 1 <? desktop k) eqn:El; cbn; right; lia.
Qed.

Lemma seated_switch old d n k :
  0 ≤ d < n → n ≤ ALL_DESKTOPS → seated old n (seat k) → seated d n (seat (switch_fn old d k)).
Proof.
  intros Hd Hn [Hh Hg]. unfold seated, seat in *. cbn in Hh, Hg. unfold switch_fn.
  destruct (desktop k =? ALL_DESKTOPS) eqn:Ea.
  { cbn. rewrite Hh, Ea. by rewrite !orb_true_r. }
  fold (seat (hide_fn k)) in *.
  destruct (desktop k =? old) eqn:Eo, (desktop k =? d) eqn:Ed; cbn [andb negb].
  - cbn. by rewrite Hh, Ed, ?orb_false_r.
  - change (seated d n (seat (hide_fn k))). rewrite seat_hide. split; cbn; [|done].
    by rewrite Ed, Ea.
  - change (seated d n (seat (show_fn k))). rewrite seat_show. split; cbn; [|done].
    by rewrite Ed.
  - cbn. by rewrite Hh, Ed, Ea.
Qed.

Lemma move_target_in rows cols n cur dx dy :
  grid_ok cur n rows cols → 0 ≤ move_target rows cols cur dx dy < n.
Proof.
  intros []. unfold move_target, clamp_index.
  set (r := if _ <? 0 then 0 else s32 (grid_row _ _) + dy).
  set (c := if _ <? 0 then 0 else s32 (grid_col _ _) + dx).
  assert (0 ≤ r) by (subst r; case_match; lia). assert (0 ≤ c) by (subst c; case_match; lia).
  set (r' := if rows <=? r then rows - 1 else r). set (c' := if cols <=? c then cols - 1 else c).
  assert (0 ≤ r' ≤ rows - 1) by (subst r'; case_match; lia).
  assert (0 ≤ c' ≤ cols - 1) by (subst c'; case_match; lia).
  rewrite u32_id; nia.
Qed.

(** ** The operations *)

Section Desks.
Context `{!XServer}.

(** If [m] ends, it keeps the invariant. *)
Definition keeps {A} (m : wprog A) : Prop :=
  ∀ w, desks_ok (wm w) → wp any_fault m (fun _ w' => desks_ok (wm w')) w.

Lemma keeps_still {A} (m : wprog A) : still m → keeps m.
Proof.
  intros Hm w Hw. eapply wp_mono; [apply Hm|]. cbn beta. intros a w' E.
  by eapply look_desks.
Qed.
Lemma desk_keeps_bind {A B} (m : wprog A) (k : A → wprog B) :
  keeps m → (∀ a, keeps (k a)) → keeps (m ≫= k).
Proof.
  intros Hm Hk w Hw. apply wp_bind. eapply wp_mono; [by apply Hm|]. cbn beta.
  intros a w' Hw'. by apply Hk.
Qed.
Lemma keeps_bind_x {B} c (k : xresult c → wprog B) :
  (∀ h, keeps (k (xanswer h c))) → keeps (x_ c ≫= k).
Proof.
  intros Hk w Hw. apply wp_bind, (wp_x any_fault c).
  exact (Hk (xcalls w) (mkWorld (wm w) (c :: xcalls w)) Hw).
Qed.
Lemma keeps_when b m : keeps m → keeps (when b m).
Proof. intros Hm. destruct b; [exact Hm | by apply keeps_still, frames_skip]. Qed.

(** A partial-correctness proof may use a total one, and may skip faults. *)
Lemma wp_any {A} (m : wprog A) (Q : A → World → Prop) w :
  wp no_fault m Q w → wp any_fault m Q w.
Proof. unfold wp. by destruct (m w). Qed.
Lemma wp_deref_any c (Q : WmClient → World → Prop) w :
  (∀ k, find_client (clients (wm w)) c = Some k → Q k w) → wp any_fault (deref c) Q w.
Proof. intros HQ. unfold wp, deref. destruct (find_client _ c); [by apply HQ | done]. Qed.
Lemma wp_then_still {A} (m : wprog unit) (k : wprog A) (P : Wm → Prop) w :
  (∀ v v', look v = look v' → P v → P v') →
  wp any_fault m (fun _ w' => P (wm w')) w → still k →
  wp any_fault (m;; k) (fun _ w' => P (wm w')) w.
Proof.
  intros HP Hm Hk. apply wp_bind. eapply wp_mono; [exact Hm|]. cbn beta. intros _ w1 H1.
  eapply wp_mono; [apply Hk|]. cbn beta. intros a w2 E. by eapply HP.
Qed.

Lemma seats_upd c f k (P : window * Z * bool → Prop) l :
  find_client l c = Some k → NoDup (map client l) →
  Forall P (map seat l) → P (seat (f k)) → Forall P (map seat (upd_client c f l)).
Proof.
  intros Hk Hn HF Hf. rewrite Forall_forall in *. intros s Hs.
  unfold upd_client in Hs. rewrite map_map in Hs.
  apply list_elem_of_In, in_map_iff in Hs as (a & <- & Ha).
  destruct (decide (client a = c)) as [Hc|_].
  2: { by apply HF, list_elem_of_In, in_map. }
  assert (a = k) as ->; [|done].
  pose proof (find_client_elem _ _ _ Hk) as Hin. pose proof (find_client_client _ _ _ Hk) as Hc'.
  apply list_elem_of_In, list_elem_of_lookup in Ha as [i Hi].
  apply list_elem_of_lookup in Hin as [j Hj].
  assert (i = j) as ->; [|congruence].
  eapply (NoDup_lookup (map client l)); [exact Hn|..];
    rewrite list_lookup_fmap; [by rewrite Hi | rewrite Hj; cbn; congruence].
Qed.

Lemma ids_upd c f l : (∀ k, client (f k) = client k) → map client (upd_client c f l) = map client l.
Proof.
  intros Hf. unfold upd_client. rewrite map_map. apply map_ext. intros k. by case_decide.
Qed.

(** Moving one window. *)
Lemma desks_upd c f k w w' :
  desks_ok w → find_client (clients w) c = Some k → client (f k) = client k →
  (∀ k, client (f k) = client k) →
  w' = w <| clients := upd_client c f (clients w) |> →
  seated (current_desktop w) (num_desktops w) (seat (f k)) → desks_ok w'.
Proof.
  intros (Hg & Hn & HF) Hk Hc Hc' -> Hs. split; [done|]. unfold ids. cbn.
  split; [by rewrite ids_upd | by eapply seats_upd].
Qed.

Lemma keeps_set_desktop c d w :
  desks_ok (wm w) → on_grid (num_desktops (wm w)) d →
  wp any_fault (set_desktop c d) (fun _ w' => desks_ok (wm w')) w.
Proof.
  intros Hw Hd. unfold set_desktop. apply wp_bind, wp_deref_any. intros k Hk.
  apply wp_bind, wp_gets. set (cur := current_desktop (wm w)).
  pose proof Hw as (_ & Hn & HF).
  assert (seated cur (num_desktops (wm w)) (seat k)) as [Hh _].
  { rewrite Forall_forall in HF. apply HF, list_elem_of_In, in_map, list_elem_of_In.
    by eapply find_client_elem. }
  cbn in Hh. fold (on_desktop cur k) in Hh.
  apply wp_bind. eapply wp_mono; [exact (wp_any _ _ _ (stores_upd c (set_desk d) w k Hk))|].
  cbn beta. intros _ w1 Hw1. apply wp_bind, (wp_x any_fault (XWmDesktop c d)).
  set (w2 := w1 <| xcalls := _ |>).
  assert (Hk1 : find_client (clients (wm w2)) c = Some (set_desk d k)) by by eapply (find_after c _ k w).
  assert (Hn1 : NoDup (ids (wm w2))).
  { unfold ids. change (wm w2) with (wm w1). rewrite Hw1. cbn. by rewrite ids_upd. }
  assert (HW : ∀ g w', (∀ k, client (g k) = client k) →
    wm w' = (wm w2) <| clients := upd_client c g (clients (wm w2)) |> →
    seated cur (num_desktops (wm w)) (seat (g (set_desk d k))) → desks_ok (wm w')).
  { intros g w' Hg E Hs.
    apply (desks_upd c (fun k => g (set_desk d k)) k (wm w)); [done | done | | | | done].
    - by rewrite Hg.
    - intros k0. by rewrite Hg.
    - rewrite E. change (wm w2) with (wm w1). rewrite Hw1.
      by rewrite <- (upd_client_comp c (set_desk d) g). }
  destruct (on_desktop cur k && negb _) eqn:E1;
    [|unfold when; destruct (negb (on_desktop cur k) && _) eqn:E2].
  - apply (wp_then_still _ _ desks_ok); [by apply look_desks| |still].
    eapply wp_mono; [exact (wp_any _ _ _ (stores_hide c _ w2 Hk1 Hn1))|]. cbn beta.
    intros _ w3 Hw3. apply (HW hide_fn w3 client_hide Hw3). rewrite seat_hide. cbn.
    apply andb_true_iff in E1 as [_ E1]. by split.
  - eapply wp_mono; [exact (wp_any _ _ _ (stores_show c _ w2 Hk1 Hn1))|]. cbn beta.
    intros _ w3 Hw3. apply (HW show_fn w3 client_show Hw3). rewrite seat_show. cbn.
    apply andb_true_iff in E2 as [_ E2]. split; [|done]. cbn. by rewrite E2.
  - apply wp_ret. apply (HW (fun k => k)); [done | | split; [cbn; rewrite Hh|done]].
    + unfold upd_client. rewrite (map_ext _ id), map_id; [by destruct (wm w2) | intros ?; by case_decide].
    + destruct (on_desktop cur k), ((d =? cur) || (d =? ALL_DESKTOPS)); done.
Qed.

Lemma keeps_move_to_desktop c d w :
  desks_ok (wm w) → on_grid (num_desktops (wm w)) d →
  wp any_fault (wm_move_to_desktop c d) (fun _ w' => desks_ok (wm w')) w.
Proof.
  intros Hw Hd. unfold wm_move_to_desktop. apply wp_bind, wp_deref_any. intros k Hk.
  destruct (d =? desktop k); [by apply wp_ret | by apply keeps_set_desktop].
Qed.

(** What switching makes of the state before the focus moves. *)
Definition switched (d : Z) (w : Wm) : Wm :=
  w <| current_desktop := d |>
    <| clients := map (switch_fn (current_desktop w) d) (clients w) |>.

Lemma desks_switched d w :
  desks_ok w → 0 ≤ d < num_desktops w → desks_ok (switched d w).
Proof.
  intros (Hg & Hn & HF) Hd. pose proof (gr_fits _ _ _ _ Hg) as Hf. split; [|split].
  - destruct Hg. by constructor.
  - unfold ids. cbn. rewrite map_map. by rewrite (map_ext _ client) by apply client_switch.
  - cbn. rewrite map_map. rewrite Forall_forall in *. intros s Hs.
    apply list_elem_of_In, in_map_iff in Hs as (k & <- & Hk). apply seated_switch; [done| |].
    + unfold ALL_DESKTOPS. lia.
    + by apply HF, list_elem_of_In, in_map.
Qed.

(** The loop of [wm_desktops_switch], then everything after it. *)
Lemma wp_switch d w (Q : unit → World → Prop) :
  NoDup (ids (wm w)) →
  (∀ w1, (u32 (num_desktops (wm w)) <=? d) || (d =? current_desktop (wm w)) = true → w1 = w → Q tt w1) →
  (∀ w1, (u32 (num_desktops (wm w)) <=? d) || (d =? current_desktop (wm w)) = false →
     look (wm w1) = look (switched d (wm w)) → Q tt w1) →
  wp any_fault (wm_desktops_switch d) Q w.
Proof.
  intros Hn HQ0 HQ1. unfold wm_desktops_switch. apply wp_bind, wp_gets. unfold id.
  destruct (_ || _) eqn:E; [by apply wp_ret, HQ0|].
  apply wp_bind, wp_modify, wp_bind, wp_any.
  eapply (wp_for_clients (fun _ => True) _ (switch_fn (current_desktop (wm w)) d));
    [done | | apply client_switch | done | exact Hn |].
  { intros c w' k _ Hn' Hk. by eapply stores_switch. }
  intros w1 Hw1.
  match goal with |- wp _ ?m _ _ => assert (still m) as Hs by still end.
  eapply wp_mono; [apply Hs|]. cbn beta. intros [] w2 Hl.
  apply HQ1; [done|]. rewrite Hl, Hw1. reflexivity.
Qed.

Lemma keeps_switch d : 0 ≤ d → keeps (wm_desktops_switch d).
Proof.
  intros Hd w Hw. apply wp_switch; [apply Hw | by intros w1 _ -> |].
  intros w1 E Hl. eapply look_desks; [symmetry; exact Hl|]. apply desks_switched; [done|].
  apply orb_false_iff in E as [E _]. destruct Hw as [[] _]. rewrite u32_id in E by lia. lia.
Qed.

Lemma keeps_move dx dy : keeps (wm_desktops_move dx dy).
Proof.
  intros w Hw. unfold wm_desktops_move. apply wp_bind, wp_gets. unfold id.
  destruct (_ =? _); [done|]. apply keeps_switch; [|done].
  by eapply move_target_in, Hw.
Qed.

(** ** Changing the grid *)

Lemma desks_applied rows cols w :
  NoDup (ids w) → Forall (on_grid (num_desktops w)) (map desktop (clients w)) →
  0 ≤ current_desktop w →
  Z.max rows 1 * Z.max cols 1 < 2 ^ 31 → desks_ok (apply_spec rows cols w).
Proof.
  intros Hn HF Hc Hf. unfold apply_spec. cbv zeta.
  set (n := Z.max rows 1 * Z.max cols 1) in *. assert (0 < n) by (subst n; nia).
  rewrite (s32_id n), (u32_id n), (u32_id (n - 1)) by lia.
  set (cur := if n - 1 <? current_desktop w then n - 1 else current_desktop w).
  assert (0 ≤ cur < n) by (subst cur; case_match; lia).
  split; [|split].
  - cbn. constructor; lia.
  - unfold ids. cbn. rewrite !map_map.
    rewrite (map_ext _ client); [done|]. intros k. by rewrite client_visible, client_pull.
  - cbn. rewrite !map_map, Forall_forall. intros s Hs.
    apply list_elem_of_In, in_map_iff in Hs as (k & <- & Hk). apply seated_visible.
    eapply (on_grid_pull _ (num_desktops w)); [done|]. rewrite Forall_forall in HF.
    by apply HF, list_elem_of_In, in_map.
Qed.

Lemma desks_seats w : desks_ok w → Forall (on_grid (num_desktops w)) (map desktop (clients w)).
Proof.
  intros (_ & _ & HF). apply Forall_forall. intros d Hd.
  apply list_elem_of_In, in_map_iff in Hd as (k & <- & Hk).
  apply (proj1 (Forall_forall _ _) HF (seat k)). by apply list_elem_of_In, in_map.
Qed.

Lemma keeps_apply rows cols :
  Z.max rows 1 * Z.max cols 1 < 2 ^ 31 → keeps (wm_desktops_apply rows cols).
Proof.
  intros Hf w Hw. apply wp_any. eapply wp_mono; [by apply wp_apply, Hw|]. cbn beta.
  intros _ w' ->. apply desks_applied; [apply Hw | by apply desks_seats | | done].
  destruct Hw as [[] _]. lia.
Qed.

(** ** The handlers *)

Lemma keeps_all_desktops c : keeps (wm_move_to_desktop c ALL_DESKTOPS).
Proof. intros w Hw. apply keeps_move_to_desktop; [done | by left]. Qed.
Lemma keeps_this_desktop c : keeps (cur ← get_wm current_desktop; wm_move_to_desktop c cur).
Proof.
  intros w Hw. apply wp_bind, wp_gets, keeps_move_to_desktop; [done|]. right. apply Hw.
Qed.

Lemma keeps_toggle_sticky c b k : keeps (toggle_sticky c b k).
Proof.
  unfold toggle_sticky. apply desk_keeps_bind; [|intros; apply keeps_still; still].
  destruct (b && _); [|destruct (negb b && _); [|by apply keeps_still, frames_skip]];
    (apply desk_keeps_bind; [apply keeps_still; still|]); intros _;
    auto using keeps_all_desktops, keeps_this_desktop.
Qed.

Lemma keeps_when_state a1 a2 ss c body :
  (∀ k, keeps (body k)) → keeps (when_state a1 a2 ss c body).
Proof.
  intros Hb. unfold when_state. destruct (bool_decide _); [|by apply keeps_still, frames_skip].
  apply desk_keeps_bind; [by apply keeps_still, frames_deref | exact Hb].
Qed.

Lemma keeps_wm_state c action a1 a2 : keeps (on_wm_state c action a1 a2).
Proof.
  unfold on_wm_state.
  repeat (apply desk_keeps_bind; [|intros _]); apply keeps_when_state; intros k;
    first [apply keeps_toggle_sticky | apply keeps_still; still].
Qed.

Lemma keeps_menu_action c idx : keeps (menu_action c idx).
Proof.
  intros w Hw. unfold menu_action. apply wp_bind, wp_deref_any. intros k _.
  apply wp_bind, wp_gets.
  destruct (idx =? 0); [by apply keeps_still; [still|]|].
  destruct (idx =? 1); [by apply keeps_still; [still|]|].
  destruct (idx =? 2); [by apply wp_ret|].
  destruct (_ && _) eqn:E.
  - apply keeps_move_to_desktop; [done|]. right. lia.
  - destruct (idx =? _); [by apply keeps_all_desktops | by apply wp_ret].
Qed.

Lemma keeps_menu_click py : keeps (win_menu_click py).
Proof.
  unfold win_menu_click. apply desk_keeps_bind; [apply keeps_still; still|]. intros w0.
  destruct (menu_client w0) as [c|]; [|by apply keeps_still, frames_skip].
  apply desk_keeps_bind; [apply keeps_still; still|]. intros idx.
  apply desk_keeps_bind; [apply keeps_menu_action|]. intros _. apply keeps_still. still.
Qed.

Lemma desks_unlink c w : desks_ok w → desks_ok (w <| clients := unlink c (clients w) |>).
Proof.
  intros (Hg & Hn & HF). split; [exact Hg|]. split.
  - eapply sublist_NoDup; [exact Hn|]. apply fmap_sublist, unlink_sublist.
  - change (Forall (seated (current_desktop w) (num_desktops w)) (map seat (unlink c (clients w)))).
    rewrite Forall_forall in HF |- *. intros s Hs. apply HF.
    eapply sublist_subseteq; [apply fmap_sublist, unlink_sublist | exact Hs].
Qed.

Lemma keeps_remove c : keeps (wm_remove_client c).
Proof.
  intros w Hw. unfold wm_remove_client. apply wp_bind, wp_deref_any. intros k _.
  apply wp_bind, wp_modify.
  match goal with |- wp _ ?m _ _ => assert (still m) as Hs by still end.
  eapply wp_mono; [apply Hs|]. cbn beta. intros _ w1 Hl.
  eapply look_desks; [symmetry; exact Hl | by apply desks_unlink].
Qed.

Lemma keeps_unmap_notify win ev : keeps (on_unmap_notify win ev).
Proof.
  unfold on_unmap_notify. apply desk_keeps_bind; [apply keeps_still; still|]. intros l.
  destruct (find_client l win); [|apply keeps_still; still].
  destruct (_ && _); [|apply keeps_still; still].
  destruct (_ <? _); [apply keeps_still; still | apply keeps_remove].
Qed.
Lemma keeps_destroy_notify win : keeps (on_destroy_notify win).
Proof.
  unfold on_destroy_notify. apply desk_keeps_bind; [apply keeps_still; still|]. intros _.
  apply desk_keeps_bind; [apply keeps_still; still|]. intros l.
  destruct (wm_find_client_by_window l win); [apply keeps_remove | apply keeps_still; still].
Qed.

Lemma keeps_with_client win f : (∀ c, keeps (f c)) → keeps (with_client win f).
Proof.
  intros Hf. unfold with_client. apply desk_keeps_bind; [apply keeps_still; still|]. intros l.
  destruct (wm_find_client_by_window l win); [apply Hf | apply keeps_still; still].
Qed.

Lemma keeps_net_wm_desktop d c :
  0 ≤ d → keeps (n ← get_wm num_desktops;
                 when ((d <? u32 n) || (d =? ALL_DESKTOPS)) (set_desktop c d)).
Proof.
  intros Hd w Hw. apply wp_bind, wp_gets. unfold when. destruct (_ || _) eqn:E; [|by apply wp_ret].
  apply keeps_set_desktop; [done|]. apply orb_true_iff in E as [E|E].
  - right. destruct Hw as [[] _]. rewrite u32_id in E by lia. lia.
  - left. by apply Z.eqb_eq.
Qed.

Lemma keeps_message m : wire_event (ClientMessage m) → keeps (handle_client_message m).
Proof.
  intros Hm. destruct m; cbn [handle_client_message];
    try (apply keeps_with_client; intros c); try (apply keeps_still; still; fail).
  - apply keeps_wm_state.
  - by apply keeps_switch.
  - by apply keeps_net_wm_desktop.
Qed.

Lemma keeps_keys sym state : keeps (wm_keys_handle sym state).
Proof.
  unfold wm_keys_handle. cbv zeta. apply desk_keeps_bind; [apply keeps_still; still|]. intros _.
  apply desk_keeps_bind; [apply keeps_still; still|]. intros w.
  repeat match goal with
  | |- keeps (if ?b then _ else _) => destruct b
  | |- keeps (when _ _) => apply keeps_when
  | |- keeps (wm_desktops_move _ _) => apply keeps_move
  end; apply keeps_still; still.
Qed.

Lemma desk_keeps_dispatch ev : wire_event ev → keeps (dispatch_event ev).
Proof.
  intros Hev. destruct ev; cbn [dispatch_event]; try (apply keeps_still; still; fail).
  - apply keeps_unmap_notify.
  - apply keeps_destroy_notify.
  - apply desk_keeps_bind; [apply keeps_still; still | intros _; apply keeps_keys].
  - by apply keeps_message.
Qed.

Lemma keeps_dispatch_wm ev : wire_event ev → keeps (dispatch_wm_event ev).
Proof.
  intros Hev. unfold dispatch_wm_event. apply desk_keeps_bind; [apply keeps_still; still|]. intros w.
  destruct (_ && _); [|by apply desk_keeps_dispatch].
  destruct ev; try (by apply desk_keeps_dispatch); try (apply keeps_still; still; fail).
  destruct (_ =? _); [apply keeps_menu_click | apply keeps_still; still].
Qed.

(** ** Timers, settings and the main loop *)

Lemma keeps_reload_poll : layouts_fit → keeps wm_desktops_reload_poll.
Proof.
  intros [HL HC]. unfold wm_desktops_reload_poll.
  apply (keeps_bind_x XDesktopLayout). intros h. set (l := xanswer h XDesktopLayout).
  apply desk_keeps_bind; [apply keeps_still; still|]. intros w. cbv zeta.
  assert (keeps (desk_reload_tries =: desk_reload_tries w + 1;;
      if DESK_RELOAD_MAX_TRIES <=? desk_reload_tries w + 1 then
        g ← wm_desktops_read_config;
        wm_desktops_apply (fst g) (snd g)
      else arm_reload)) as Hretry.
  { apply desk_keeps_bind; [apply keeps_still; still|]. intros _.
    destruct (_ <=? _); [|apply keeps_still; still].
    intros w1 Hw1. unfold wm_desktops_read_config.
    apply wp_bind, wp_bind, (wp_x any_fault ReadDeskConfig), wp_ret.
    apply keeps_apply; [|done]. pose proof (HC (xcalls w1)) as Hf.
    assert (∀ cfg, 1 ≤ fst (config_grid cfg) ∧ 1 ≤ snd (config_grid cfg)) as Hpos.
    { intros [[r c]|]; cbn; [|lia]. destruct (0 <? s32 r) eqn:E1, (0 <? s32 c) eqn:E2; lia. }
    pose proof (Hpos (xanswer (xcalls w1) ReadDeskConfig)).
    rewrite !Z.max_l by lia. exact Hf. }
  destruct (valid_layout l) as [[lc lr]|] eqn:El; [|exact Hretry].
  destruct (negb _); [|exact Hretry].
  apply keeps_apply. pose proof (HL h _ _ El). clearbody l. clear Hretry.
  unfold valid_layout in El. repeat case_match; try done. injection El as <- <-.
  rewrite !Z.max_l by lia. done.
Qed.

Lemma keeps_callback f : layouts_fit → keeps (callback_run f).
Proof.
  intros Hf. destruct f; cbn; [by apply keeps_reload_poll | apply keeps_still; still..].
Qed.

Lemma keeps_fire now slots : layouts_fit → keeps (fire_from now slots).
Proof.
  intros Hf. induction slots as [|i slots IH]; cbn [fire_from]; [apply keeps_still; still|].
  apply desk_keeps_bind; [apply keeps_still; still|]. intros ts.
  apply desk_keeps_bind; [|intros _; exact IH].
  destruct (ts !! i); [|apply keeps_still; still].
  apply keeps_when, desk_keeps_bind; [apply keeps_still; still|]. intros _. by apply keeps_callback.
Qed.
Lemma keeps_timers : layouts_fit → keeps wm_timers_fire.
Proof.
  intros Hf. unfold wm_timers_fire. apply desk_keeps_bind; [apply keeps_still; stay wm_now_ms|].
  intros now. by apply keeps_fire.
Qed.

Lemma keeps_drain evs : ∀ held,
  Forall wire_event evs → (∀ e, held = Some e → wire_event e) → keeps (drain held evs).
Proof.
  assert (∀ held : option xevent, (∀ e, held = Some e → wire_event e) →
    keeps (match held with Some m => dispatch_wm_event m | None => skip end)) as Hheld.
  { intros [e|] He; [by apply keeps_dispatch_wm, He | by apply keeps_still, frames_skip]. }
  induction evs as [|ev evs IH]; intros held HF He; cbn [drain]; [by apply Hheld|].
  apply Forall_cons in HF as [Hev HF].
  apply desk_keeps_bind; [apply keeps_still; still|]. intros mode.
  assert (keeps (match held with Some m => dispatch_wm_event m | None => skip end;;
                 dispatch_wm_event ev;; drain None evs)) as Hone.
  { apply desk_keeps_bind; [by apply Hheld|]. intros _.
    apply desk_keeps_bind; [by apply keeps_dispatch_wm|]. intros _. by apply IH. }
  assert (keeps (drain (Some ev) evs)) as Hhold by (apply IH; [done | by intros e [= <-]]).
  destruct ev, mode; assumption.
Qed.

Lemma keeps_run_once b : layouts_fit → Forall wire_event (xevents b) → keeps (wm_run_once b).
Proof.
  intros Hf Hb. unfold wm_run_once. apply desk_keeps_bind; [by apply keeps_timers|]. intros _.
  apply desk_keeps_bind.
  { induction (seq 0 (settings b)) as [|i l IH]; cbn; [apply keeps_still; still|].
    apply desk_keeps_bind; [apply keeps_still; still | done]. }
  intros _. apply desk_keeps_bind; [apply keeps_still; stay wm_timer_next_timeout; stay wm_now_ms|].
  intros t. apply desk_keeps_bind; [by apply keeps_drain|]. intros _. apply keeps_still, frames_ret.
Qed.

Lemma desk_keeps_run bs : layouts_fit → Forall (fun b => Forall wire_event (xevents b)) bs → keeps (wm_run bs).
Proof.
  intros Hf Hbs. induction Hbs as [|b bs Hb _ IH]; cbn [wm_run]; [apply keeps_still; still|].
  apply desk_keeps_bind; [apply keeps_still; still|]. intros go.
  apply keeps_when, desk_keeps_bind; [by apply keeps_run_once | done].
Qed.
End Desks.

(** ** The theorems *)

Lemma wp_both {A} (m : wprog A) (P Q : A → World → Prop) w :
  wp no_fault m P w → wp any_fault m Q w → wp no_fault m (fun a w' => P a w' ∧ Q a w') w.
Proof. unfold wp. by destruct (m w). Qed.


Lemma bare_layouts : layouts_fit (H := bare_server).
Proof. split; [done|]. intros h. by vm_compute. Qed.

Lemma two_windows_seated : desks_ok two_windows.
Proof.
  split; [by constructor|]. split; [by apply (bool_decide_unpack _)|].
  repeat constructor; cbn; lia.
Qed.

Definition desk_events : list batch :=
  [mkBatch 1 [ClientMessage (NetCurrentDesktop 2); ClientMessage (NetWmDesktop 101 3);
              ClientMessage (NetActiveWindow 102 2 0); DestroyNotify 102]].

Lemma desk_events_wire : Forall (fun b => Forall wire_event (xevents b)) desk_events.
Proof. constructor; [|constructor]. cbn. repeat apply Forall_cons_2; cbn; try done; lia. Qed.


(** ** Switching *)

(** The window that gets the focus on desktop [d]: the one used last, or its
    modal dialog. *)
Definition next_focus (d : Z) (l : list WmClient) : option window :=
  focus_target l <$> (client <$> most_recent (filter (fun k => on_desktop d k = true) l)).

(** The focus after switching to [d], [w] being the state with the windows
    already shown and hidden. *)
Definition focus_after (d : Z) (w : Wm) : option window :=
  match focused w with
  | Some p => if bool_decide (Exists (fun k => client k = p ∧ on_desktop d k = true) (clients w))
              then Some p else next_focus d (clients w)
  | None => next_focus d (clients w)
  end.

Lemma most_recent_map (g : WmClient → WmClient) l :
  (∀ k, c_focus_seq (g k) = c_focus_seq k) → most_recent (map g l) = g <$> most_recent l.
Proof.
  intros Hg. unfold most_recent. change None with (g <$> None) at 1.
  generalize (None : option WmClient). induction l as [|k l IH]; intros b; [done|].
  cbn. rewrite <- IH. f_equal. destruct b as [b|]; cbn; [|done]. rewrite !Hg. by case_match.
Qed.
Lemma first_client_map (P : WmClient → bool) (g : WmClient → WmClient) l :
  (∀ k, P (g k) = P k) → (∀ k, client (g k) = client k) →
  first_client P (map g l) = first_client P l.
Proof.
  intros HP Hc. unfold first_client. induction l as [|k l IH]; [done|]. cbn.
  rewrite HP. destruct (decide (P k = true)); cbn; [by rewrite Hc|].
  revert IH. destruct (list_find _ l) as [[? ?]|], (list_find _ (map g l)) as [[? ?]|]; cbn; congruence.
Qed.
Lemma filter_map_on (P : WmClient → bool) (g : WmClient → WmClient) l :
  (∀ k, P (g k) = P k) → filter (fun k => P k = true) (map g l) = map g (filter (fun k => P k = true) l).
Proof.
  intros HP. induction l as [|k l IH]; [done|]. cbn [map]. rewrite !filter_cons, HP.
  destruct (decide (P k = true)); cbn; by rewrite IH.
Qed.
Lemma next_focus_upd d p l :
  next_focus d (upd_client p (fun k => k <| is_focused := false |>) l) = next_focus d l.
Proof.
  unfold next_focus, upd_client. set (g := fun k : WmClient => if decide (client k = p) then _ else k).
  assert (∀ k, client (g k) = client k) as Hc by (intros k; subst g; cbn; by case_decide).
  rewrite (filter_map_on (on_desktop d)) by (intros k; subst g; cbn; by case_decide).
  rewrite most_recent_map by (intros k; subst g; cbn; by case_decide).
  destruct (most_recent _) as [k|]; [|done]. cbn. rewrite Hc. unfold focus_target.
  rewrite first_client_map; [done | | exact Hc]. intros j. subst g; cbn; by case_decide.
Qed.

Section Switching.
Context `{!XServer}.

Lemma find_on_desktop l p k d :
  NoDup (map client l) → find_client l p = Some k →
  on_desktop d k = bool_decide (Exists (fun k => client k = p ∧ on_desktop d k = true) l).
Proof.
  intros Hn Hk. pose proof (find_client_elem _ _ _ Hk) as Hin.
  pose proof (find_client_client _ _ _ Hk) as Hc.
  destruct (on_desktop d k) eqn:E; symmetry.
  - apply bool_decide_eq_true, Exists_exists. by exists k.
  - apply bool_decide_eq_false. rewrite Exists_exists. intros (k' & Hin' & Hc' & E').
    apply list_elem_of_lookup in Hin as [i Hi]. apply list_elem_of_lookup in Hin' as [j Hj].
    assert (i = j) as ->; [|congruence].
    eapply (NoDup_lookup (map client l)); [exact Hn|..]; rewrite list_lookup_fmap.
    + by rewrite Hi.
    + rewrite Hj. cbn. congruence.
Qed.

Lemma wp_switch_focus d w :
  NoDup (ids (wm w)) →
  (u32 (num_desktops (wm w)) <=? d) || (d =? current_desktop (wm w)) = false →
  wp any_fault (wm_desktops_switch d)
    (fun _ w' => focused (wm w') = focus_after d (switched d (wm w))) w.
Proof.
  intros Hn E. unfold wm_desktops_switch. apply wp_bind, wp_gets. unfold id. rewrite E.
  apply wp_bind, wp_modify, wp_bind, wp_any.
  eapply (wp_for_clients (fun _ => True) _ (switch_fn (current_desktop (wm w)) d));
    [done | | apply client_switch | done | exact Hn |].
  { intros c w' k _ Hn' Hk. by eapply stores_switch. }
  intros w1 Hw1. set (W := switched d (wm w)). assert (HW : wm w1 = W) by exact Hw1.
  assert (HnW : NoDup (map client (clients W))).
  { subst W. cbn. rewrite map_map. by rewrite (map_ext _ client) by apply client_switch. }
  clearbody W. clear Hw1 E.
  apply wp_bind, (wp_x any_fault (XCurrentDesktop d)). set (w2 := w1 <| xcalls := _ |>).
  assert (HW2 : wm w2 = W) by exact HW. clearbody w2. clear w1 HW.
  apply wp_bind, wp_gets. rewrite HW2. unfold focus_after.
  assert (Hshow : ∀ v : World, wp any_fault wm_desktops_show_osd
     (fun _ w' => focused (wm w') = focused (wm v)) v) by (intros v; apply foc_show_osd).
  assert (Hnext : ∀ v, focused (wm v) = None →
    wp any_fault (wm_focus_client (client <$> most_recent
        (filter (fun k => on_desktop d k = true) (clients (wm v)))) CURRENT_TIME;; wm_desktops_show_osd)
      (fun _ w' => focused (wm w') = next_focus d (clients (wm v))) v).
  { intros v _. apply wp_bind. eapply wp_mono; [apply wp_focused|]. cbn beta. intros _ v1 E1.
    eapply wp_mono; [apply Hshow|]. cbn beta. intros _ v2 ->. rewrite E1. reflexivity. }
  destruct (focused W) as [p|] eqn:Ef.
  - apply wp_bind, wp_bind, wp_deref_any. intros k Hk.
    rewrite HW2 in Hk. rewrite <- (find_on_desktop _ _ _ d HnW Hk).
    destruct (on_desktop d k); cbn [negb when].
    + apply wp_ret, wp_bind, wp_gets. unfold id. rewrite HW2, Ef.
      apply wp_bind, wp_ret. rewrite <- Ef, <- HW2. apply Hshow.
    + apply wp_bind. eapply wp_mono; [apply wp_any, (stores_upd p _ w2 k); by rewrite HW2|].
      cbn beta. intros _ w3 Hw3. apply wp_modify, wp_bind, wp_gets. unfold id.
      set (w4 := w3 <| wm := _ |>). assert (H4 : focused (wm w4) = None) by done.
      assert (Hc4 : clients (wm w4) =
        upd_client p (fun k => k <| is_focused := false |>) (clients W)).
      { change (clients (wm w4)) with (clients (wm w3)). by rewrite Hw3, HW2. }
      rewrite H4. rewrite <- (next_focus_upd d p), <- Hc4. by apply Hnext.
  - apply wp_bind, wp_ret, wp_bind, wp_gets. unfold id. rewrite HW2, Ef, <- HW2.
    apply Hnext. by rewrite HW2.
Qed.
End Switching.

(** switching to another existing desktop hides the windows of the old one,
    shows those of the new one and leaves all others and the sticky ones
    alone; the focus stays where it is if its window is on the new desktop,
    and goes to the window used last there otherwise.  A desktop that does not
    exist, or the current one, changes nothing. *)
Theorem switching_shows_the_desktop `{XServer} (w : World) (d : Z) :
  Inv (wm w) → desks_ok (wm w) → 0 ≤ d →
  wp no_fault (wm_desktops_switch d) (fun _ w' =>
    if (d <? num_desktops (wm w)) && negb (d =? current_desktop (wm w))
    then look (wm w') = look (switched d (wm w)) ∧
         focused (wm w') = focus_after d (switched d (wm w)) ∧ desks_ok (wm w')
    else w' = w) w.
Proof.
  intros Hi Hw Hd.
  assert (Hn : NoDup (ids (wm w))) by apply Hw.
  assert (Hg : (u32 (num_desktops (wm w)) <=? d) || (d =? current_desktop (wm w)) =
    negb ((d <? num_desktops (wm w)) && negb (d =? current_desktop (wm w)))).
  { destruct Hw as [[] _]. rewrite u32_id by lia. rewrite Z.leb_antisym.
    by destruct (_ <? _), (_ =? _). }
  destruct (_ && negb _) eqn:E; cbn in Hg.
  - assert (H0 : wp no_fault (wm_desktops_switch d) (fun _ w' => Inv (wm w')) w).
    { apply wp_hold; [exact Hi|]. intros L. apply hold_switch. }
    pose proof (keeps_switch d Hd w Hw) as H1.
    assert (H2 : wp any_fault (wm_desktops_switch d)
      (fun _ w' => look (wm w') = look (switched d (wm w))) w).
    { apply wp_switch; [exact Hn | by rewrite Hg | done]. }
    pose proof (wp_switch_focus d w Hn Hg) as H3.
    unfold wp in *. by destruct (wm_desktops_switch d w).
  - unfold wm_desktops_switch. apply wp_bind, wp_gets. unfold id. rewrite Hg. by apply wp_ret.
Qed.

Lemma switching_shows_the_desktop_witness :
  wp no_fault (wm_desktops_switch (H := bare_server) 1) (fun _ w' =>
    look (wm w') = look (switched 1 two_windows) ∧
    focused (wm w') = focus_after 1 (switched 1 two_windows) ∧ desks_ok (wm w'))
    (world two_windows).
Proof.
  exact (switching_shows_the_desktop (H := bare_server) (world two_windows) 1
    two_windows_ok two_windows_seated ltac:(lia)).
Defined.

(** A client that sits well is left alone by the reload. *)
Lemma seated_fixed cur n k :
  0 < n ≤ 2 ^ 31 → seated cur n (seat k) → visible_fn cur (pull_fn (n - 1) k) = k.
Proof.
  intros Hn [Hh Hg]. cbn in Hh, Hg.
  assert (pull_fn (n - 1) k = k) as ->.
  { unfold pull_fn. destruct Hg as [->|Hg]; [done|].
    destruct (n - 1 <? desktop k) eqn:E; [lia|]. by rewrite andb_false_r. }
  unfold visible_fn, on_desktop. rewrite Hh. by destruct (_ || _).
Qed.

Lemma apply_same_grid w : desks_ok w → apply_spec (desk_rows w) (desk_cols w) w = w.
Proof.
  intros (Hg & Hn & HF). destruct Hg as [Hs Hr Hc Hf Hcur].
  unfold apply_spec. cbv zeta. rewrite !Z.max_l by lia. rewrite <- Hs.
  rewrite s32_id, (u32_id (num_desktops w)), u32_id by lia.
  assert (num_desktops w - 1 <? current_desktop w = false) as -> by lia.
  assert (map (visible_fn (current_desktop w)) (map (pull_fn (num_desktops w - 1)) (clients w))
    = clients w) as ->; [|by destruct w].
  rewrite map_map. rewrite <- (map_id (clients w)) at 2. apply map_ext_in. intros k Hk.
  apply seated_fixed; [lia|]. rewrite Forall_forall in HF.
  by apply HF, list_elem_of_In, in_map.
Qed.

(** C39: giving the desktops a new grid pulls the windows of removed desktops
    and the current desktop onto the last one and shows and hides every window
    accordingly, so that the desktop invariant holds whatever the hidden flags
    were before; giving the same grid again changes nothing. *)
Theorem new_grid_refines_its_spec `{XServer} (w : World) (rows cols : Z) :
  NoDup (ids (wm w)) → Forall (on_grid (num_desktops (wm w))) (map desktop (clients (wm w))) →
  0 ≤ current_desktop (wm w) → Z.max rows 1 * Z.max cols 1 < 2 ^ 31 →
  wp no_fault (wm_desktops_apply rows cols) (fun _ w' =>
    wm w' = apply_spec rows cols (wm w) ∧ desks_ok (wm w') ∧
    wp no_fault (wm_desktops_apply rows cols) (fun _ w2 => wm w2 = wm w') w') w.
Proof.
  intros Hn HF Hc Hf. eapply wp_mono; [by apply wp_apply|]. cbn beta. intros _ w' E.
  assert (Hd : desks_ok (wm w')) by (rewrite E; by apply desks_applied).
  split; [done|]. split; [done|]. eapply wp_mono; [apply wp_apply, Hd|]. cbn beta.
  intros _ w2 ->.
  assert (apply_spec rows cols (wm w') = apply_spec (desk_rows (wm w')) (desk_cols (wm w')) (wm w'))
    as ->; [|by apply apply_same_grid].
  assert (desk_rows (wm w') = Z.max rows 1) as -> by by rewrite E.
  assert (desk_cols (wm w') = Z.max cols 1) as -> by by rewrite E.
  unfold apply_spec. by rewrite !(Z.max_l (Z.max _ 1)) by lia.
Qed.

Lemma new_grid_refines_its_spec_witness :
  wp no_fault (wm_desktops_apply (H := bare_server) 1 0) (fun _ w' =>
    wm w' = apply_spec 1 0 two_windows ∧ desks_ok (wm w') ∧
    wp no_fault (wm_desktops_apply (H := bare_server) 1 0) (fun _ w2 => wm w2 = wm w') w')
    (world two_windows).
Proof.
  exact (new_grid_refines_its_spec (H := bare_server) (world two_windows) 1 0
    (proj1 (proj2 two_windows_seated)) (desks_seats two_windows two_windows_seated)
    ltac:(cbn; lia) ltac:(lia)).
Defined.
