(* ===== verification/DmCore.v ===== *)
(** * isde-dm: the daemon's state and the world (dm/src/dm.h, platform.h)

    The state of the display manager, the calls it makes and what they may
    answer.  A call is recorded in the state of the world, its result is an
    oracle on the calls so far.  [fork] runs the child's program on a copy of
    the state; the calls of the child are recorded apart, in [children]. *)

From S2P Require Import Prelude.
From S2P Require Import CString.
From S2P Require Import CFloat.
From S2P Require Import LineIpc.
From S2P Require Import DesktopEntry.
Open Scope Z_scope.

Definition DM_IPC_MAX_MSG : Z := 4096.
Definition DM_IPC_MAX_USER : nat := 256.
Definition DM_IPC_MAX_PASS : nat := 1024.

(** The platform's directories, X server VT and the daemon's state.  [seat] and
    [dbus] tell whether there is a connection. *)
Record Dm := mkDm {
  rundir : text;
  runtime_dir_base : text;
  plat_vt : Z;
  greeter_cmd : text;
  default_session : option text;
  xserver_cmd : text;
  allow_shutdown : bool;
  allow_reboot : bool;
  allow_suspend : bool;
  dev_mode : bool;
  clock_time_fmt : text;
  clock_date_fmt : text;
  seat : bool;
  seat_fd : Z;
  seat_active : bool;
  greeter_vt : Z;
  xserver_pid : Z;
  display_num : Z;
  display : text;
  xauth_path : text;
  xauth_cookie : list ascii;
  greeter_pid : Z;
  session_pid : Z;
  session_user : option text;
  session_desktop : option text;
  session_vt : Z;
  locked : bool;
  ipc_listen_fd : Z;
  ipc_client_fd : Z;
  ipc_buf : list ascii;
  ipc_buf_len : Z;
  dbus : bool;
  lid_fd : Z;
  lid_closed : bool;
  sig_pipe : Z * Z;
  running : bool
}.

#[export] Instance dm_eta : RecEta Dm := Build_RecEta _ (fun d =>
  mkDm (rundir d) (runtime_dir_base d) (plat_vt d) (greeter_cmd d) (default_session d) (xserver_cmd d)
    (allow_shutdown d) (allow_reboot d) (allow_suspend d) (dev_mode d) (clock_time_fmt d)
    (clock_date_fmt d) (seat d) (seat_fd d) (seat_active d) (greeter_vt d) (xserver_pid d)
    (display_num d) (display d) (xauth_path d) (xauth_cookie d) (greeter_pid d) (session_pid d)
    (session_user d) (session_desktop d) (session_vt d) (locked d) (ipc_listen_fd d)
    (ipc_client_fd d) (ipc_buf d) (ipc_buf_len d) (dbus d) (lid_fd d) (lid_closed d) (sig_pipe d)
    (running d)).

(** ** Calls *)

(** What a forked child is for. *)
Inductive proc := XServer | Greeter | Session (user : text).

Inductive read_result := Data (bytes : list ascii) | ReadErr (errno : Z).
Inductive write_result := Wrote (n : Z) | WriteIntr | WriteErr.

Record passwd := mkPasswd {
  pw_name : text; pw_uid : Z; pw_gid : Z; pw_dir : text; pw_shell : option text
}.

(** A parsed configuration: the keys of the root table and of its sub-tables. *)
Record toml := mkToml {
  toml_string : text → option text;
  toml_bool : text → option bool;
  toml_table : text → option (text → option text)
}.

Inductive dsignal :=
  | SessionStarted (user session : text)
  | SessionEnded (user : text)
  | Locked
  | Unlocked
  | LidSwitchChanged (closed : bool)
  | ConfirmationRequested (action : text)
  | GreeterConfigChanged (key : text).

Inductive dreply :=
  | Empty
  | Introspection
  | GreeterConfig (entries : list (text * text))
  | DError (name message : text).

Inductive dcall :=
  | Getenv (name : text) | Setenv (name value : text) | Clearenv | Getuid
  | Access (path : text) | Open (path : text) (create : bool) | Read (fd n : Z)
  | ReadAll (fd : Z)                             (* reads until one gives nothing *)
  | Write (fd : Z) (bytes : list ascii) | Close (fd : Z) | Fchown (fd uid gid : Z)
  | ReadFile (path : text) | ReadDir (path : text)
  | Mkdir (path : text) (mode : Z) | Chown (path : text) (uid gid : Z)
  | Unlink (path : text) | Chmod (path : text) (mode : Z) | Chdir (path : text)
  | LoadConfig (path : text) | WriteConfig (path section key value : text)
  | Pipe | Socket | Bind (path : text) | Listen (fd : Z) | Accept (fd : Z)
  | SendAll (fd : Z) (bytes : list ascii)        (* the writes of a send loop *)
  | Fork (p : proc) | Exec (argv : list text) | Exit (code : Z)
  | Kill (pid sig : Z) | WaitPid (pid : Z) | WaitPidBlock (pid : Z) | WaitAny | NanoSleep (ms : Z)
  | GetPwNam (user : text) | Initgroups (user : text) (gid : Z) | Setgid (gid : Z) | Setuid (uid : Z)
  | PamStart (user : text) | PamAuthenticate (user pass : text) | PamAcctMgmt (user : text)
  | PamSetcred (user : text) (establish : bool) | PamOpenSession (user : text)
  | PamCloseSession (user : text) | PamEnd (user : text) | PamStrerror (code : Z)
  | SeatOpen | SeatGetFd | SeatClose | SeatDispatch | SeatDisable | SeatSwitch (vt : Z)
  | LidOpen (path : text)
  | XcbConnect (display : text)
  | Sync | RebootSys (poweroff : bool)
  | BusGet | BusRequestName (name : text) | BusUnref | BusGetFd
  | BusSignal (s : dsignal) | BusReply (r : dreply).

Definition dresult (c : dcall) : Type :=
  match c with
  | Getenv _ => option text
  | Getuid => Z
  | Access _ => bool
  | Open _ _ => Z
  | Read _ _ => read_result
  | ReadAll _ => list (list ascii)
  | Write _ _ => Z
  | ReadFile _ => option text
  | ReadDir _ => option (list text)
  | Mkdir _ _ => Z                                 (* errno, 0 for success *)
  | LoadConfig _ => option toml
  | Pipe => option (Z * Z)
  | Socket | Accept _ => Z
  | Bind _ | Listen _ => bool
  | SendAll _ _ => list write_result
  | Fork _ => option positive                      (* the child's pid *)
  | Exec _ => bool                                 (* did it replace the process? *)
  | WaitPid _ => bool                              (* WNOHANG: has it exited? *)
  | GetPwNam _ => option passwd
  | Initgroups _ _ | Setgid _ | Setuid _ | Chdir _ => bool
  | PamStart _ | PamAuthenticate _ _ | PamAcctMgmt _ | PamSetcred _ _ | PamOpenSession _ => Z
  | PamStrerror _ => text
  | SeatOpen => bool
  | SeatGetFd => Z
  | SeatDispatch => list bool                      (* the callbacks: enable or disable *)
  | LidOpen _ => Z                                 (* fd of a lid switch, or -1 *)
  | XcbConnect _ => bool
  | RebootSys _ => Z
  | BusGet | BusRequestName _ => bool
  | BusGetFd => Z
  | Setenv _ _ | Clearenv | Close _ | Fchown _ _ _ | Chown _ _ _ | Unlink _ | Chmod _ _
  | WriteConfig _ _ _ _ | Exit _ | Kill _ _ | WaitPidBlock _ | WaitAny | NanoSleep _ | PamCloseSession _
  | PamEnd _ | SeatClose | SeatDisable | SeatSwitch _ | Sync | BusUnref | BusSignal _ | BusReply _ => unit
  end.

(** The system: the result of a call after the calls before it, latest first. *)
Class System := answer : ∀ (h : list dcall) (c : dcall), dresult c.

(** A forked child: what it is for, its calls and those of the daemon before it. *)
Record child := mkChild { c_proc : proc; c_calls : list dcall; c_before : list dcall }.

Record World := mkWorld {
  dm : Dm;
  calls : list dcall;
  children : list child
}.
#[export] Instance world_eta : RecEta World := Build_RecEta _ (fun w =>
  mkWorld (dm w) (calls w) (children w)).

Abbreviation dprog := (prog World).

Definition call `{System} (c : dcall) : dprog (dresult c) := fun w =>
  Ok (answer (calls w) c) (w <| calls := c :: calls w |>).

Definition get_dm {A} (f : Dm → A) : dprog A := gets (fun w => f (dm w)).
Definition upd_dm (f : Dm → Dm) : dprog unit := modify (fun w => w <| dm := f (dm w) |>).

Notation "p =: v" := (upd_dm (fun d : Dm => d <| p := v |>))
  (at level 70, no associativity) : c_scope.

(** [fork] in the parent: the pid, after the child has been set off.  A pid is
    positive; [-1] is failure. *)
Definition fork `{System} (p : proc) (child : dprog unit) : dprog Z := fun w =>
  let w1 := w <| calls := Fork p :: calls w |> in
  match answer (calls w) (Fork p) with
  | None => Ok (-1) w1
  | Some pid =>
    match child w1 with
    | Ok _ w2 =>
      let own := take (length (calls w2) - length (calls w1)) (calls w2) in
      Ok (Z.pos pid) (w1 <| children := mkChild p own (calls w1) :: children w1 |>)
    | Fault f => Fault f
    end
  end.

(** [execlp] and, if it comes back, [_exit(1)]. *)
Definition exec_or_exit `{System} (argv : list text) : dprog unit :=
  ok ← call (Exec argv);
  when (negb ok) (call (Exit 1)).

Fixpoint for_each {A} (l : list A) (body : A → dprog unit) : dprog unit :=
  match l with
  | [] => skip
  | x :: l' => body x;; for_each l' body
  end.

#[export] Instance dm_files `{System} : FileSystem World := {|
  read_file p := call (ReadFile p);
  read_dir p := call (ReadDir p)
|}.

(** The receive buffer of [dm_ipc_handle]. *)
#[export, refine] Instance dm_lines : LineBuffer World := {|
  lb_buf w := ipc_buf (dm w);
  lb_len w := ipc_buf_len (dm w);
  set_lb b w := w <| dm := (dm w) <| ipc_buf := b |> |>;
  set_ll n w := w <| dm := (dm w) <| ipc_buf_len := n |> |>
|}.
Proof. all: try done; by intros [[] ? ?]. Defined.

(** ** Small pieces of C *)

(** [snprintf(s, n, "%d", z)] *)
Definition print_int (z : Z) : text :=
  if z <? 0 then str "-" ++ digits 10 (- z) else digits 10 z.

Definition is_nonempty (t : text) : bool := negb (bool_decide (t = [])).

(** [isde_xdg_data_dirs] (platform/common/isde-xdg.c) *)
Definition isde_xdg_data_dirs `{System} : dprog text :=
  v ← call (Getenv (str "XDG_DATA_DIRS"));
  mret (match v with
        | Some v => if is_nonempty v then v else str "/usr/local/share:/usr/share"
        | None => str "/usr/local/share:/usr/share"
        end).

(** ** Lemmas *)

Lemma digits_aux_length n base z acc : (length (digits_aux n base z acc) ≤ n + length acc)%nat.
Proof.
  revert z acc. induction n as [|n IH]; intros z acc; cbn; [lia|].
  destruct (z <? base); cbn; [lia|]. specialize (IH (z / base) (digit_char (z mod base) :: acc)).
  cbn in IH. lia.
Qed.

Lemma print_int_length z : - 2 ^ 31 ≤ z < 2 ^ 31 → (length (print_int z) ≤ 40)%nat.
Proof.
  intros Hz. unfold print_int, digits.
  assert (H : ∀ x, 0 ≤ x ≤ 2 ^ 31 → (length (digits_aux (S (Z.to_nat (Z.log2 x))) 10 x []) ≤ 39)%nat).
  { intros x Hx. pose proof (digits_aux_length (S (Z.to_nat (Z.log2 x))) 10 x []) as Hd.
    assert (Z.log2 x ≤ 31) by (rewrite <- (Z.log2_pow2 31) by lia; apply Z.log2_le_mono; lia).
    cbn [length] in Hd. lia. }
  destruct (z <? 0) eqn:E; [apply Z.ltb_lt in E | apply Z.ltb_ge in E].
  - rewrite length_app. specialize (H (- z)). cbn [length str String.list_ascii_of_string]. lia.
  - specialize (H z). lia.
Qed.
