(* ===== verification/DmProc.v ===== *)
(** * isde-dm: processes (dm/src/power.c, seat.c, auth.c, greeter_proc.c, session.c)

    PAM, the seat, the X server, the greeter, the user's session, locking and
    power, with the signals they emit on the bus. *)

From S2P Require Import Prelude.
From S2P Require Import CString.
From S2P Require Import CFloat.
From S2P Require Import LineIpc.
From S2P Require Import DesktopEntry.
From S2P Require Import DmCore.
Open Scope Z_scope.

Definition SIGKILL : Z := 9.
Definition SIGTERM : Z := 15.
Definition PAM_SUCCESS : Z := 0.
Definition PAM_BUF_ERR : Z := 5.
Definition PAM_CONV_ERR : Z := 19.

Section Proc.
Context `{System}.

(** ** Signals on the bus (dbus.c) *)

Definition emit_signal (s : dsignal) : dprog unit :=
  b ← get_dm dbus;
  when b (call (BusSignal s)).

Definition dm_dbus_emit_session_started (user session : text) : dprog unit :=
  emit_signal (SessionStarted user session).
Definition dm_dbus_emit_session_ended (user : text) : dprog unit := emit_signal (SessionEnded user).
Definition dm_dbus_emit_locked : dprog unit := emit_signal Locked.
Definition dm_dbus_emit_unlocked : dprog unit := emit_signal Unlocked.
Definition dm_dbus_emit_lid_switch (closed : bool) : dprog unit := emit_signal (LidSwitchChanged closed).

(** ** auth.c *)

Inductive msg_style := PromptEchoOff | PromptEchoOn | ErrorMsg | TextInfo | OtherStyle.

(** The conversation function: its status and the responses. *)
Fixpoint pam_conversation (msgs : list msg_style) (password : option text)
    : Z * option (list (option text)) :=
  match msgs with
  | [] => (PAM_SUCCESS, Some [])
  | m :: ms =>
    match m with
    | OtherStyle => (PAM_CONV_ERR, None)
    | _ =>
      let r := match m with
               | PromptEchoOff | PromptEchoOn => Some (default [] password)
               | _ => None
               end in
      match pam_conversation ms password with
      | (st, Some rs) => (st, Some (r :: rs))
      | (st, None) => (st, None)
      end
    end
  end.

(** [None] is success, otherwise the message for [errbuf] of 256 bytes. *)
Definition auth_fail (user : text) (started : bool) (ret : Z) : dprog (option text) :=
  e ← call (PamStrerror ret);
  when started (call (PamEnd user));;
  mret (Some (trunc 256 e)).

Definition dm_auth_check (username password : text) : dprog (option text) :=
  ret ← call (PamStart username);
  if negb (ret =? PAM_SUCCESS) then auth_fail username false ret
  else
    ret ← call (PamAuthenticate username password);
    if negb (ret =? PAM_SUCCESS) then auth_fail username true ret
    else
      ret ← call (PamAcctMgmt username);
      if negb (ret =? PAM_SUCCESS) then auth_fail username true ret
      else
        call (PamEnd username);;
        mret None.

(** The result tells whether there is a PAM handle. *)
Definition dm_auth_start_session (username : text) : dprog bool :=
  ret ← call (PamStart username);
  if negb (ret =? PAM_SUCCESS) then mret false
  else
    ret ← call (PamSetcred username true);
    if negb (ret =? PAM_SUCCESS) then call (PamEnd username);; mret false
    else
      ret ← call (PamOpenSession username);
      if negb (ret =? PAM_SUCCESS) then
        call (PamSetcred username false);;
        call (PamEnd username);;
        mret false
      else mret true.

Definition dm_auth_end_session (username : text) : dprog unit :=
  call (PamCloseSession username);;
  call (PamSetcred username false);;
  call (PamEnd username).

(** ** seat.c *)

(** The callbacks of the seat listener. *)
Definition on_seat_event (enabled : bool) : dprog unit :=
  if enabled then seat_active =: true
  else seat_active =: false;; call SeatDisable.

Definition libseat_dispatch : dprog unit :=
  evs ← call SeatDispatch;
  for_each evs on_seat_event.

Definition dm_seat_init : dprog bool :=
  ok ← call SeatOpen;
  seat =: ok;;
  if negb ok then mret false
  else
    fd ← call SeatGetFd;
    seat_fd =: fd;;
    seat_active =: true;;
    mret true.

Definition dm_seat_cleanup : dprog unit :=
  s ← get_dm seat;
  when s (call SeatClose;; seat =: false;; seat_fd =: -1).

Definition dm_seat_dispatch : dprog unit :=
  s ← get_dm seat;
  when s libseat_dispatch.

(** ** greeter_proc.c *)

Definition greeter_child (lock_user : option text) : dprog unit :=
  d ← get_dm id;
  call (Setenv (str "DISPLAY") (display d));;
  call (Setenv (str "XAUTHORITY") (xauth_path d));;
  call (Setenv (str "ISDE_DM_SOCK") (trunc 512 (rundir d ++ str "/greeter.sock")));;
  exec_or_exit (match lock_user with
                | Some u => [greeter_cmd d; str "--lock"; u]
                | None => [greeter_cmd d]
                end).

(** The result tells whether there is a greeter. *)
Definition dm_greeter_start : dprog bool :=
  d ← get_dm id;
  if 0 <? greeter_pid d then mret true
  else
    pid ← fork Greeter (greeter_child (if locked d then session_user d else None));
    if pid <? 0 then mret false
    else greeter_pid =: pid;; mret true.

(** The loop that waits for the greeter: has it exited? *)
Fixpoint wait_exit (n : nat) (pid : Z) : dprog bool :=
  match n with
  | O => mret false
  | S n' =>
    e ← call (WaitPid pid);
    if (e : bool) then mret true
    else call (NanoSleep 50);; wait_exit n' pid
  end.

Definition dm_greeter_stop : dprog unit :=
  pid ← get_dm greeter_pid;
  if pid <=? 0 then skip
  else
    call (Kill pid SIGTERM);;
    exited ← wait_exit 10 pid;
    when (negb exited) (call (Kill pid SIGKILL);; call (WaitPidBlock pid));;
    greeter_pid =: 0;;
    fd ← get_dm ipc_client_fd;
    when (0 <=? fd) (
      call (Close fd);;
      ipc_client_fd =: -1;;
      ipc_buf_len =: 0).

(** ** Lock and unlock (dm.c) *)

Definition dm_lock_session : dprog unit :=
  d ← get_dm id;
  if locked d then skip
  else if (session_pid d =? 0) || negb (bool_decide (is_Some (session_user d))) then skip
  else
    locked =: true;;
    when (greeter_pid d =? 0) (dm_greeter_start;; skip);;
    when (negb (dev_mode d) && seat d) (call (SeatSwitch (greeter_vt d)));;
    dm_dbus_emit_locked.

Definition dm_unlock_session : dprog unit :=
  l ← get_dm locked;
  if negb l then skip
  else
    locked =: false;;
    dm_greeter_stop;;
    d ← get_dm id;
    when (negb (dev_mode d) && seat d && (0 <? session_vt d)) (call (SeatSwitch (session_vt d)));;
    dm_dbus_emit_unlocked.

(** ** session.c: the X server *)

(** A 16-bit big-endian number. *)
Definition be16 (z : Z) : list ascii :=
  [ascii_of_N (Z.to_N (Z.land (Z.shiftr z 8) 255)); ascii_of_N (Z.to_N (Z.land z 255))].

Definition counted (s : list ascii) : list ascii := be16 (Z.of_nat (length s)) ++ s.

Definition MIT_COOKIE : text := str "MIT-MAGIC-COOKIE-1".

(** The record of the Xauthority file: wild family, no address. *)
Definition xauth_record (num : Z) (cookie : list ascii) : list ascii :=
  be16 65535 ++ be16 0 ++ counted (trunc 8 (print_int num)) ++ counted MIT_COOKIE ++ counted cookie.

Definition generate_xauth : dprog bool :=
  fd ← call (Open (str "/dev/urandom") false);
  if fd <? 0 then mret false
  else
    r ← call (Read fd 16);
    let b := match r with Data b => take 16 b | ReadErr _ => [] end in
    upd_dm (fun d => d <| xauth_cookie := b ++ drop (length b) (xauth_cookie d) |>);;
    call (Close fd);;
    if negb (Nat.eqb (length b) 16) then mret false
    else
      d ← get_dm id;
      let path := trunc 256 (rundir d ++ str "/Xauthority") in
      xauth_path =: path;;
      fd ← call (Open path true);
      if fd <? 0 then mret false
      else
        call (Write fd (xauth_record (display_num d) (xauth_cookie d)));;
        call (Close fd);;
        mret true.

Definition lock_file (n : Z) : text := trunc 64 (str "/tmp/.X" ++ print_int n ++ str "-lock").

(** The first display from [i] on, of [n], without a lock file. *)
Fixpoint find_display (n : nat) (i : Z) : dprog Z :=
  match n with
  | O => mret (-1)
  | S n' =>
    b ← call (Access (lock_file i));
    if negb b then mret i else find_display n' (i + 1)
  end.
Definition find_free_display : dprog Z := find_display 63 1.

Definition xserver_child (vt : Z) : dprog unit :=
  d ← get_dm id;
  if dev_mode d then
    exec_or_exit [xserver_cmd d; display d; str "-screen"; str "1024x768"; str "-noreset"]
  else
    exec_or_exit [xserver_cmd d; display d; trunc 16 (str "vt" ++ print_int vt);
                  str "-auth"; xauth_path d; str "-nolisten"; str "tcp"; str "-noreset"].

Definition launch_xserver (vt : Z) : dprog bool :=
  upd_dm (fun d => d <| display := trunc 16 (str ":" ++ print_int (display_num d)) |>);;
  ok ← generate_xauth;
  if negb ok then mret false
  else
    pid ← fork XServer (xserver_child vt);
    if pid <? 0 then mret false
    else xserver_pid =: pid;; mret true.

Definition dm_xserver_start (vt : Z) : dprog bool :=
  dev ← get_dm dev_mode;
  if (dev : bool) then
    n ← find_free_display;
    if n <? 0 then mret false
    else display_num =: n;; launch_xserver vt
  else launch_xserver vt.

Definition dm_xserver_stop : dprog unit :=
  pid ← get_dm xserver_pid;
  when (0 <? pid) (
    call (Kill pid SIGTERM);;
    call (NanoSleep 500);;
    call (Kill pid SIGKILL)).

(** One round of the loop of [dm_xserver_ready], [n] rounds at most. *)
Fixpoint wait_ready (n : nat) (lockfile disp : text) : dprog bool :=
  match n with
  | O => mret false
  | S n' =>
    a ← call (Access lockfile);
    c ← (if (a : bool) then call (XcbConnect disp) else mret false);
    if (c : bool) then mret true
    else
      call (NanoSleep 100);;
      pid ← get_dm xserver_pid;
      if pid =? 0 then mret false else wait_ready n' lockfile disp
  end.

Definition dm_xserver_ready : dprog bool :=
  d ← get_dm id;
  call (Setenv (str "XAUTHORITY") (xauth_path d));;
  wait_ready 50 (lock_file (display_num d)) (display d).

(** ** session.c: the user's session *)

Fixpoint find_exec_in (dirs : list text) (desktop_name : text) : dprog (option text) :=
  match dirs with
  | [] => mret None
  | dir :: dirs' =>
    e ← isde_desktop_load (trunc 512 (dir ++ str "/xsessions/" ++ desktop_name));
    match e with
    | Some e => mret (e_exec e)
    | None => find_exec_in dirs' desktop_name
    end
  end.

Definition find_session_exec (desktop_name : text) : dprog (option text) :=
  dp ← isde_xdg_data_dirs;
  find_exec_in (colon_dirs [] dp) desktop_name.

(** Copy the cookie to the user's home; returns its path. *)
Definition copy_xauth (pw : passwd) : dprog text :=
  d ← get_dm id;
  let user_xauth := trunc 512 (pw_dir pw ++ str "/.Xauthority") in
  src ← call (Open (xauth_path d) false);
  when (0 <=? src) (
    dst ← call (Open user_xauth true);
    when (0 <=? dst) (
      cs ← call (ReadAll src);
      for_each cs (fun c => call (Write dst c);; skip);;
      call (Fchown dst (pw_uid pw) (pw_gid pw));;
      call (Close dst));;
    call (Close src));;
  mret user_xauth.

Definition set_session_env (pw : passwd) (saved_path : text) (xauth : text) : dprog unit :=
  d ← get_dm id;
  call (Setenv (str "XAUTHORITY") xauth);;
  call (Setenv (str "HOME") (pw_dir pw));;
  call (Setenv (str "USER") (pw_name pw));;
  call (Setenv (str "LOGNAME") (pw_name pw));;
  call (Setenv (str "SHELL") (default (str "/bin/sh") (pw_shell pw)));;
  call (Setenv (str "PATH") (if dev_mode d && is_nonempty saved_path then saved_path
                             else str "/usr/local/bin:/usr/bin:/bin"));;
  call (Setenv (str "XDG_SESSION_TYPE") (str "x11"));;
  call (Setenv (str "XDG_SEAT") (str "seat0"));;
  call (Setenv (str "XDG_VTNR") (trunc 8 (print_int (greeter_vt d))));;
  call (Setenv (str "XDG_CONFIG_HOME") (trunc 512 (pw_dir pw ++ str "/.config")));;
  call (Setenv (str "XDG_DATA_HOME") (trunc 512 (pw_dir pw ++ str "/.local/share")));;
  call (Setenv (str "XDG_CACHE_HOME") (trunc 512 (pw_dir pw ++ str "/.cache")));;
  let rt := trunc 512 (runtime_dir_base d ++ str "/" ++ print_int (pw_uid pw)) in
  call (Setenv (str "XDG_RUNTIME_DIR") rt);;
  call (Mkdir (runtime_dir_base d) 493);;             (* 0755 *)
  call (Mkdir rt 448);;                               (* 0700 *)
  call (Chown rt (pw_uid pw) (pw_gid pw)).

(** [initgroups || setgid || setuid], each tried only after the one before. *)
Definition drop_privileges (pw : passwd) : dprog bool :=
  a ← call (Initgroups (pw_name pw) (pw_gid pw));
  if negb a then mret false
  else
    b ← call (Setgid (pw_gid pw));
    if negb b then mret false else call (Setuid (pw_uid pw)).

Definition exec_session (pw : passwd) (exec_cmd : text) : dprog unit :=
  ok ← call (Chdir (pw_dir pw));
  when (negb ok) (call (Chdir (str "/"));; skip);;
  exec_or_exit [str "dbus-launch"; str "--exit-with-session"; str "sh"; str "-c"; exec_cmd].

Definition session_child (pw : passwd) (exec_cmd : text) : dprog unit :=
  d ← get_dm id;
  p ← (if dev_mode d then call (Getenv (str "PATH")) else mret None);
  let saved_path := match p with Some p => trunc 1024 p | None => [] end in
  call Clearenv;;
  call (Setenv (str "DISPLAY") (display d));;
  xauth ← (if dev_mode d then mret (xauth_path d) else copy_xauth pw);
  set_session_env pw saved_path xauth;;
  if dev_mode d then exec_session pw exec_cmd
  else
    ok ← drop_privileges pw;
    if negb ok then call (Exit 1) else exec_session pw exec_cmd.

Definition dm_session_start (username desktop_file : text) : dprog bool :=
  pw ← call (GetPwNam username);
  match pw with
  | None => mret false
  | Some pw =>
    e ← find_session_exec desktop_file;
    match e with
    | None => mret false
    | Some exec_cmd =>
      pam ← dm_auth_start_session username;
      pid ← fork (Session username) (session_child pw exec_cmd);
      if pid <? 0 then
        when pam (dm_auth_end_session username);;
        mret false
      else
        session_pid =: pid;;
        session_user =: Some username;;
        session_desktop =: Some desktop_file;;
        dm_dbus_emit_session_started username desktop_file;;
        mret true
    end
  end.

Definition dm_session_cleanup : dprog unit :=
  u ← get_dm session_user;
  dm_dbus_emit_session_ended (default [] u);;
  session_pid =: 0;;
  locked =: false;;
  session_user =: None;;
  dm_greeter_start;;
  skip.

(** ** power.c and platform_linux.c *)

Definition kill_if (sig pid : Z) : dprog unit := when (0 <? pid) (call (Kill pid sig)).

Definition dm_kill_sessions : dprog unit :=
  d ← get_dm id;
  kill_if SIGTERM (session_pid d);;
  kill_if SIGTERM (greeter_pid d);;
  call (NanoSleep 2000);;
  kill_if SIGKILL (session_pid d);;
  kill_if SIGKILL (greeter_pid d).

Definition linux_shutdown : dprog Z := call Sync;; call (RebootSys true).
Definition linux_reboot : dprog Z := call Sync;; call (RebootSys false).

Definition linux_suspend : dprog Z :=
  fd ← call (Open (str "/sys/power/state") false);
  if fd <? 0 then mret (-1)
  else
    n ← call (Write fd (str "mem"));
    call (Close fd);;
    mret (if n =? 3 then 0 else -1).

Definition dm_power_shutdown : dprog Z :=
  dm_kill_sessions;; dm_xserver_stop;; running =: false;; linux_shutdown.
Definition dm_power_reboot : dprog Z :=
  dm_kill_sessions;; dm_xserver_stop;; running =: false;; linux_reboot.

Definition dm_power_suspend : dprog Z :=
  s ← get_dm seat;
  when s (call SeatDisable);;
  ret ← linux_suspend;
  when s libseat_dispatch;;
  mret ret.
End Proc.
