(* ===== verification/DmIpc.v ===== *)
(** * isde-dm: the greeter's socket (dm/src/ipc.c) *)

From S2P Require Import Prelude.
From S2P Require Import CString.
From S2P Require Import CFloat.
From S2P Require Import LineIpc.
From S2P Require Import DesktopEntry.
From S2P Require Import DmCore.
From S2P Require Import DmProc.
Open Scope Z_scope.

Definition EINTR : Z := 4.
Definition EAGAIN : Z := 11.

Section Ipc.
Context `{System}.

Definition sock_path : dprog text :=
  d ← get_dm id;
  mret (trunc 512 (rundir d ++ str "/greeter.sock")).

Definition dm_ipc_init : dprog bool :=
  path ← sock_path;
  call (Unlink path);;
  fd ← call Socket;
  if fd <? 0 then mret false
  else
    b ← call (Bind (trunc 108 path));
    if negb b then call (Close fd);; mret false
    else
      call (Chmod path 432);;                          (* 0660 *)
      l ← call (Listen fd);
      if negb l then call (Close fd);; call (Unlink path);; mret false
      else
        ipc_listen_fd =: fd;;
        ipc_client_fd =: -1;;
        ipc_buf_len =: 0;;
        mret true.

Definition dm_ipc_cleanup : dprog unit :=
  c ← get_dm ipc_client_fd;
  when (0 <=? c) (call (Close c);; ipc_client_fd =: -1);;
  l ← get_dm ipc_listen_fd;
  when (0 <=? l) (call (Close l);; ipc_listen_fd =: -1);;
  path ← sock_path;
  call (Unlink path).

Definition dm_ipc_accept : dprog unit :=
  l ← get_dm ipc_listen_fd;
  fd ← call (Accept l);
  if fd <? 0 then skip
  else
    c ← get_dm ipc_client_fd;
    when (0 <=? c) (call (Close c));;
    ipc_client_fd =: fd;;
    ipc_buf_len =: 0.

(** The loop of writes over the results of the calls. *)
Fixpoint write_loop (rs : list write_result) (written total : Z) : Z :=
  if total <=? written then 0
  else match rs with
  | [] => -1
  | WriteErr :: _ => -1
  | WriteIntr :: rs' => write_loop rs' written total
  | Wrote n :: rs' => write_loop rs' (written + n) total
  end.

Definition dm_ipc_send (msg : text) : dprog Z :=
  fd ← get_dm ipc_client_fd;
  if fd <? 0 then mret (-1)
  else if DM_IPC_MAX_MSG <? Z.of_nat (length msg) + 1 then mret (-1)
  else
    rs ← call (SendAll fd (msg ++ [LF]));
    mret (write_loop rs 0 (Z.of_nat (length msg) + 1)).

(** ** Messages *)

(** The login after a successful check. *)
Definition auth_succeeded (username : text) : dprog unit :=
  d ← get_dm id;
  let desktop := match session_desktop d with Some s => Some s | None => default_session d end in
  dm_ipc_send (str "AUTH_OK");;
  l ← get_dm locked;
  if (l : bool) then
    u ← get_dm session_user;
    when (bool_decide (u = Some username)) dm_unlock_session
  else match desktop with
  | None => dm_ipc_send (str "AUTH_FAIL no session configured");; skip
  | Some desktop =>
    dm_greeter_stop;;
    dm_session_start username desktop;;
    skip
  end.

Definition handle_auth (args : text) : dprog unit :=
  match strchr " "%char args with
  | None => dm_ipc_send (str "AUTH_FAIL Invalid request");; skip
  | Some rest =>
    let username := before " "%char args in
    let password := tail rest in
    if decide (DM_IPC_MAX_USER ≤ length username)%nat then
      dm_ipc_send (str "AUTH_FAIL Username too long");; skip
    else if decide (DM_IPC_MAX_PASS ≤ length password)%nat then
      dm_ipc_send (str "AUTH_FAIL Password too long");; skip
    else
      r ← dm_auth_check username password;
      match r with
      | Some err => dm_ipc_send (trunc 512 (str "AUTH_FAIL " ++ err));; skip
      | None => auth_succeeded username
      end
  end.

Definition handle_session (args : text) : dprog unit := session_desktop =: Some args.

(** The scan of all directories. *)
Fixpoint scan_sessions (dirs : list text) : dprog (list IsdeDesktopEntry) :=
  match dirs with
  | [] => mret []
  | dir :: dirs' =>
    es ← isde_desktop_scan_dir (trunc 512 (dir ++ str "/xsessions"));
    rest ← scan_sessions dirs';
    mret (es ++ rest)
  end.

Definition TAB : ascii := "009"%char.

(** The loop that adds a line per session to [buf]. *)
Fixpoint put_sessions (es : list IsdeDesktopEntry) (b : sbuf) : option sbuf :=
  match es with
  | [] => Some b
  | e :: es' =>
    if fst b <? DM_IPC_MAX_MSG - 128 then
      match e_name e, e_exec e with
      | Some n, Some f => b' ← sb_printf DM_IPC_MAX_MSG (n ++ [TAB] ++ f ++ [LF]) b; put_sessions es' b'
      | _, _ => put_sessions es' b
      end
    else Some b
  end.

(** [if (off > 0 && buf[off - 1] == '\n') buf[off - 1] = '\0'] *)
Definition drop_last_lf (b : sbuf) : option text :=
  let '(off, t) := b in
  if negb (0 <? off) then Some t
  else if DM_IPC_MAX_MSG <=? off - 1 then None
  else if bool_decide (last t = Some LF) && (off =? Z.of_nat (length t)) then Some (removelast t)
  else Some t.

Definition sessions_text (es : list IsdeDesktopEntry) : option text :=
  b ← sb_printf DM_IPC_MAX_MSG (str "SESSIONS " ++ print_int (s32 (Z.of_nat (length es))) ++ [LF]) (0, []);
  b' ← put_sessions es b;
  drop_last_lf b'.

Definition handle_list_sessions : dprog unit :=
  dp ← isde_xdg_data_dirs;
  es ← scan_sessions (colon_dirs [] dp);
  match sessions_text es with
  | None => raise OutOfBounds
  | Some t => dm_ipc_send t;; skip
  end.

Definition dispatch_message (line : text) : dprog unit :=
  d ← get_dm id;
  if has_prefix (str "AUTH ") line then handle_auth (drop 5 line)
  else if has_prefix (str "SESSION ") line then handle_session (drop 8 line)
  else if bool_decide (line = str "LIST_SESSIONS") then handle_list_sessions
  else if bool_decide (line = str "SHUTDOWN") then
    when (allow_shutdown d) (dm_power_shutdown;; skip)
  else if bool_decide (line = str "REBOOT") then
    when (allow_reboot d) (dm_power_reboot;; skip)
  else if bool_decide (line = str "SUSPEND") then
    when (allow_suspend d) (dm_power_suspend;; skip)
  else if bool_decide (line = str "CANCEL_LOCK") then dm_unlock_session
  else skip.

Definition drop_client : dprog unit :=
  fd ← get_dm ipc_client_fd;
  call (Close fd);;
  ipc_client_fd =: -1;;
  ipc_buf_len =: 0.

Definition dm_ipc_handle : dprog unit :=
  d ← get_dm id;
  if ipc_client_fd d <? 0 then skip
  else
    let space := DM_IPC_MAX_MSG - ipc_buf_len d - 1 in
    if space <=? 0 then drop_client
    else
      r ← call (Read (ipc_client_fd d) space);
      match r with
      | ReadErr e => when (negb (e =? EAGAIN) && negb (e =? EINTR)) drop_client
      | Data bytes =>
        match take (Z.to_nat space) bytes with
        | [] => drop_client
        | bytes => receive dispatch_message bytes
        end
      end.
End Ipc.
