(* ===== verification/DmRun.v ===== *)
(** * isde-dm: the bus, start-up and the main loop (dm/src/dbus.c, dm.c, platform_linux.c, main.c) *)

From S2P Require Import Prelude.
From S2P Require Import CString.
From S2P Require Import CFloat.
From S2P Require Import LineIpc.
From S2P Require Import DesktopEntry.
From S2P Require Import DmCore.
From S2P Require Import DmProc.
From S2P Require Import DmIpc.
Open Scope Z_scope.

Definition DM_DBUS_SERVICE : text := str "org.isde.DisplayManager".
Definition DM_DBUS_INTERFACE : text := str "org.isde.DisplayManager".
Definition INTROSPECTABLE : text := str "org.freedesktop.DBus.Introspectable".
Definition DBUS_ERROR_INVALID_ARGS : text := str "org.freedesktop.DBus.Error.InvalidArgs".
Definition DBUS_ERROR_UNKNOWN_METHOD : text := str "org.freedesktop.DBus.Error.UnknownMethod".

(** A message from the bus.  [d_arg_s], [d_arg_ss]: the strings that
    [dbus_message_get_args] extracts for one and for two string arguments. *)
Record BusMessage := mkBusMessage {
  d_method_call : bool;
  d_interface : option text;
  d_member : option text;
  d_arg_s : option text;
  d_arg_ss : option (text * text)
}.

(** What [poll] reports: a signal came (a terminating one clears [running]), an
    error, or the descriptors that are ready with what is to be read there:
    the pids [waitpid] returns, whether the seat and the greeter's socket are
    ready, the messages on the bus and the lid events. *)
Record ready := mkReady {
  r_children : option (list positive);
  r_seat : bool;
  r_ipc : bool;
  r_bus : option (list BusMessage);
  r_lid : option (list bool)
}.
Inductive wake := Interrupted (terminate : bool) | PollFailed | Ready (r : ready).

Section Run.
Context `{System} (DM_CONFIG_PATH : text).

(** ** dbus.c *)

Definition is_action (a : text) : bool :=
  bool_decide (a = str "shutdown") || bool_decide (a = str "reboot") ||
  bool_decide (a = str "suspend") || bool_decide (a = str "logout").

Definition set_greeter_config (key value : text) : dprog unit :=
  if bool_decide (key = str "clock_time_format") then
    clock_time_fmt =: value;;
    call (WriteConfig DM_CONFIG_PATH (str "clock") (str "time_format") value);;
    call (BusSignal (GreeterConfigChanged key))
  else if bool_decide (key = str "clock_date_format") then
    clock_date_fmt =: value;;
    call (WriteConfig DM_CONFIG_PATH (str "clock") (str "date_format") value);;
    call (BusSignal (GreeterConfigChanged key))
  else skip.

Definition method_reply (method : text) (msg : BusMessage) : dprog dreply :=
  d ← get_dm id;
  if bool_decide (method = str "Lock") then dm_lock_session;; mret Empty
  else if bool_decide (method = str "Shutdown") then
    when (allow_shutdown d) (dm_power_shutdown;; skip);; mret Empty
  else if bool_decide (method = str "Reboot") then
    when (allow_reboot d) (dm_power_reboot;; skip);; mret Empty
  else if bool_decide (method = str "Suspend") then
    when (allow_suspend d) (dm_power_suspend;; skip);; mret Empty
  else if bool_decide (method = str "ShowConfirmation") then
    match d_arg_s msg with
    | Some a => when (is_action a) (call (BusSignal (ConfirmationRequested a)))
    | None => skip
    end;;
    mret Empty
  else if bool_decide (method = str "GetGreeterConfig") then
    mret (GreeterConfig [(str "clock_time_format", clock_time_fmt d);
                         (str "clock_date_format", clock_date_fmt d)])
  else if bool_decide (method = str "SetGreeterConfig") then
    match d_arg_ss msg with
    | Some (k, v) => set_greeter_config k v;; mret Empty
    | None => mret (DError DBUS_ERROR_INVALID_ARGS (str "Expected (key: s, value: s)"))
    end
  else mret (DError DBUS_ERROR_UNKNOWN_METHOD (str "Unknown method")).

Definition handle_method (msg : BusMessage) : dprog unit :=
  if negb (d_method_call msg) then skip
  else match d_member msg with
  | None => skip
  | Some method =>
    if bool_decide (d_interface msg = Some INTROSPECTABLE) && bool_decide (method = str "Introspect") then
      call (BusReply Introspection)
    else if negb (bool_decide (d_interface msg = Some DM_DBUS_INTERFACE)) then skip
    else
      r ← method_reply method msg;
      call (BusReply r)
  end.

Definition dm_dbus_init : dprog bool :=
  b ← call BusGet;
  dbus =: b;;
  if negb b then mret false
  else
    n ← call (BusRequestName DM_DBUS_SERVICE);
    if negb n then call BusUnref;; dbus =: false;; mret false
    else mret true.

Definition dm_dbus_cleanup : dprog unit :=
  b ← get_dm dbus;
  when b (call BusUnref;; dbus =: false).

Definition dm_dbus_dispatch (msgs : list BusMessage) : dprog unit :=
  b ← get_dm dbus;
  when b (for_each msgs handle_method).

Definition dm_dbus_get_fd : dprog Z :=
  b ← get_dm dbus;
  if negb b then mret (-1) else call BusGetFd.

(** ** platform_linux.c: the lid switch *)

(** The first event device, in the order of the directory, that has a lid switch. *)
Fixpoint open_lid (names : list text) : dprog Z :=
  match names with
  | [] => mret (-1)
  | n :: ns =>
    if has_prefix (str "event") n then
      fd ← call (LidOpen (trunc 256 (str "/dev/input/" ++ n)));
      if 0 <=? fd then mret fd else open_lid ns
    else open_lid ns
  end.

Definition linux_lid_open : dprog Z :=
  ns ← call (ReadDir (str "/dev/input"));
  match ns with
  | None => mret (-1)
  | Some ns => open_lid ns
  end.

(** ** dm.c *)

Definition lid_event (closed : bool) : dprog unit :=
  c ← get_dm lid_closed;
  when (negb (Bool.eqb closed c)) (lid_closed =: closed;; dm_dbus_emit_lid_switch closed).

Definition handle_lid_events (evs : list bool) : dprog unit := for_each evs lid_event.

(** [if (v) f = strdup(v)] *)
Definition set_if {A} (v : option A) (f : A → Dm → Dm) : dprog unit :=
  match v with Some a => upd_dm (f a) | None => skip end.

Definition load_config : dprog unit :=
  cfg ← call (LoadConfig DM_CONFIG_PATH);
  match cfg with
  | None => skip
  | Some root =>
    set_if (toml_string root (str "greeter")) (fun v d => d <| greeter_cmd := v |>);;
    set_if (toml_string root (str "default_session")) (fun v d => d <| default_session := Some v |>);;
    allow_shutdown =: default true (toml_bool root (str "allow_shutdown"));;
    allow_reboot =: default true (toml_bool root (str "allow_reboot"));;
    allow_suspend =: default true (toml_bool root (str "allow_suspend"));;
    let xsrv := toml_string root (str "xserver") in
    set_if xsrv (fun v d => d <| xserver_cmd := v |>);;
    dev_mode =: default false (toml_bool root (str "dev_mode"));;
    dev ← get_dm dev_mode;
    when (dev && negb (bool_decide (is_Some xsrv))) (xserver_cmd =: str "Xephyr");;
    match toml_table root (str "clock") with
    | Some clock =>
      set_if (clock (str "time_format")) (fun v d => d <| clock_time_fmt := v |>);;
      set_if (clock (str "date_format")) (fun v d => d <| clock_date_fmt := v |>)
    | None => skip
    end
  end.

Definition EEXIST : Z := 17.

Definition ensure_rundir : dprog bool :=
  d ← get_dm id;
  e ← call (Mkdir (rundir d) 493);
  mret ((e =? 0) || (e =? EEXIST)).

Definition setup_signal_pipe : dprog bool :=
  p ← call Pipe;
  match p with
  | None => mret false
  | Some fds => sig_pipe =: fds;; mret true
  end.

(** One child that [waitpid] returns. *)
Definition reap_child (p : positive) : dprog unit :=
  let pid := Z.pos p in
  d ← get_dm id;
  if pid =? xserver_pid d then xserver_pid =: 0
  else if pid =? greeter_pid d then greeter_pid =: 0
  else when (pid =? session_pid d) dm_session_cleanup.

Definition reap_children (pids : list positive) : dprog unit :=
  for_each pids (fun p => call WaitAny;; reap_child p).

(** The state of [memset] and the defaults; the platform is Linux. *)
Definition initial_dm : Dm :=
  mkDm (str "/run/isde-dm") (str "/run/user") 7 (str "isde-greeter-x11")
    (Some (str "isde-x11.desktop")) (str "Xorg") true true true false (str "%H:%M") (str "%Y-%m-%d")
    false (-1) false 0 0 0 [] [] (repeat NUL 16) 0 0 None None 0 false (-1) (-1)
    (repeat NUL 4096) 0 false (-1) false (-1, -1) false.

(** In dev mode the runtime directory is the user's. *)
Definition dev_rundir : dprog unit :=
  v ← call (Getenv (str "XDG_RUNTIME_DIR"));
  match v with
  | Some rt => rundir =: trunc 256 (rt ++ str "/isde-dm")
  | None => skip
  end.

(** The X server and the greeter. *)
Definition start_display : dprog bool :=
  d ← get_dm id;
  greeter_vt =: (if dev_mode d then 0 else plat_vt d);;
  vt ← get_dm greeter_vt;
  x ← dm_xserver_start vt;
  if negb x then mret false
  else
    r ← dm_xserver_ready;
    if negb r then mret false
    else
      g ← dm_greeter_start;
      if negb g then mret false else running =: true;; mret true.

Definition start_services : dprog bool :=
  dev ← get_dm dev_mode;
  s ← (if (dev : bool) then mret true else dm_seat_init);
  if negb s then mret false
  else
    when (negb dev) (fd ← linux_lid_open; lid_fd =: fd);;
    i ← dm_ipc_init;
    if negb i then mret false
    else dm_dbus_init;; start_display.

Definition dm_init : dprog bool :=
  upd_dm (fun _ => initial_dm);;
  load_config;;
  dev ← get_dm dev_mode;
  uid ← (if (dev : bool) then mret 0 else call Getuid);
  if negb (uid =? 0) then mret false
  else
    when dev dev_rundir;;
    r ← ensure_rundir;
    if negb r then mret false
    else
      p ← setup_signal_pipe;
      if negb p then mret false else start_services.

(** The end of a round: restart the greeter, restart the X server. *)
Definition restart_greeter : dprog unit :=
  d ← get_dm id;
  when ((greeter_pid d =? 0) && (session_pid d =? 0) && negb (xserver_pid d =? 0))
    (dm_greeter_start;; skip).

Definition restart_xserver : dprog unit :=
  d ← get_dm id;
  when ((xserver_pid d =? 0) && running d) (
    dm_greeter_stop;;
    vt ← get_dm greeter_vt;
    x ← dm_xserver_start vt;
    when x (
      r ← dm_xserver_ready;
      when r (dm_greeter_start;; skip))).

(** One round of the loop, after [poll] has returned; [d0] is the state the set
    of descriptors was made from. *)
Definition dm_round (r : ready) : dprog unit :=
  d0 ← get_dm id;
  bus_fd ← dm_dbus_get_fd;
  match r_children r with Some pids => reap_children pids | None => skip end;;
  when ((0 <=? seat_fd d0) && r_seat r) dm_seat_dispatch;;
  when (((0 <=? ipc_client_fd d0) || (0 <=? ipc_listen_fd d0)) && r_ipc r) (
    c ← get_dm ipc_client_fd;
    if 0 <=? c then dm_ipc_handle else dm_ipc_accept);;
  match r_bus r with
  | Some msgs => when (0 <=? bus_fd) (dm_dbus_dispatch msgs)
  | None => skip
  end;;
  match r_lid r with
  | Some evs => when (0 <=? lid_fd d0) (handle_lid_events evs)
  | None => skip
  end;;
  restart_greeter;;
  restart_xserver.

(** The main loop, as long as [running] is set and there are wake-ups. *)
Fixpoint dm_run (wakes : list wake) : dprog unit :=
  match wakes with
  | [] => skip
  | w :: ws =>
    go ← get_dm running;
    if negb go then skip
    else match w with
    | Interrupted t => when t (running =: false);; dm_run ws
    | PollFailed => skip
    | Ready r => dm_round r;; dm_run ws
    end
  end.

Definition close_if (fd : Z) : dprog unit := when (0 <=? fd) (call (Close fd)).

Definition dm_cleanup : dprog unit :=
  dm_greeter_stop;;
  dm_xserver_stop;;
  dm_ipc_cleanup;;
  dm_dbus_cleanup;;
  dm_seat_cleanup;;
  d ← get_dm id;
  close_if (lid_fd d);;
  when (0 <=? lid_fd d) (lid_fd =: -1);;
  close_if (fst (sig_pipe d));;
  close_if (snd (sig_pipe d));;
  call (Unlink (trunc 512 (rundir d ++ str "/greeter.sock")));;
  call (Unlink (trunc 512 (rundir d ++ str "/Xauthority"))).

(** main.c: the exit status. *)
Definition main (wakes : list wake) : dprog Z :=
  ok ← dm_init;
  if negb ok then mret 1
  else dm_run wakes;; dm_cleanup;; mret 0.
End Run.
