(* ===== verification/DmSafety.v ===== *)
(** * isde-dm: what every operation keeps

    [tame Q m] bundles what holds of all operations below the event handlers:
    [m] does not touch the receive buffer, ends without a fault, logs only calls
    in [Q], leaves the greeter's connection alone or closes it, and the children
    it forks for sessions give up root before they run anything.  The rules take
    a program apart, so that each operation is one line. *)

From S2P Require Import Prelude.
From S2P Require Import CString.
From S2P Require Import CFloat.
From S2P Require Import TwoState.
From S2P Require Import LineIpc.
From S2P Require Import DesktopEntry.
From S2P Require Import DesktopClaims.
From S2P Require Import DmCore.
From S2P Require Import DmProc.
From S2P Require Import DmIpc.
From S2P Require Import DmRun.
Open Scope Z_scope.

(** ** Classes of calls *)

Definition is_session_fork (c : dcall) : bool :=
  match c with Fork (Session _) => true | _ => false end.

(** Anything but the start of a session. *)
Definition quiet (c : dcall) : Prop := is_session_fork c = false.

(** Nothing that starts a session, checks a password or reads from a socket. *)
Definition idle (c : dcall) : Prop :=
  match c with Fork (Session _) | PamAuthenticate _ _ | PamAcctMgmt _ | Read _ _ => False | _ => True end.

(** Nothing that runs a program or changes the user. *)
Definition harmless (c : dcall) : Prop :=
  match c with Exec _ | Setuid _ | Setgid _ | Initgroups _ _ | Fork _ => False | _ => True end.

Definition any_call (c : dcall) : Prop := True.

Lemma idle_quiet c : idle c → quiet c.
Proof. destruct c; cbn; try done. by destruct p. Qed.

Section Tame.
Context `{System}.

(** The child of a session, with its calls and those before its fork: whatever it
    runs, it runs after [initgroups], [setgid] and [setuid] succeeded for the
    user that was looked up. *)
Definition as_user (before own : list dcall) : Prop :=
  ∀ later argv earlier, own = later ++ Exec argv :: earlier →
    ∃ user pw mid rest h,
      answer h (GetPwNam user) = Some pw ∧ (∃ h', before = h' ++ GetPwNam user :: h) ∧
      earlier = mid ++ Setuid (pw_uid pw) :: Setgid (pw_gid pw) ::
                       Initgroups (pw_name pw) (pw_gid pw) :: rest ∧
      Forall harmless mid ∧
      answer (rest ++ before) (Initgroups (pw_name pw) (pw_gid pw)) = true ∧
      answer (Initgroups (pw_name pw) (pw_gid pw) :: rest ++ before) (Setgid (pw_gid pw)) = true ∧
      answer (Setgid (pw_gid pw) :: Initgroups (pw_name pw) (pw_gid pw) :: rest ++ before)
        (Setuid (pw_uid pw)) = true.

Definition child_ok (c : child) : Prop :=
  match c_proc c with Session _ => as_user (c_before c) (c_calls c) | _ => True end.

(** ** The bundle *)

(** The greeter's connection is as it was, or closed. *)
Definition same_line (d d' : Dm) : Prop :=
  (ipc_client_fd d' = ipc_client_fd d ∧ ipc_buf_len d' = ipc_buf_len d) ∨
  (ipc_client_fd d' = -1 ∧ ipc_buf_len d' = 0).

Record kept (Q : dcall → Prop) (w w' : World) : Prop := mkKept {
  kept_logs : logs Q calls w w';
  kept_dev : dev_mode (dm w') = dev_mode (dm w);
  kept_line : same_line (dm w) (dm w');
  kept_children : dev_mode (dm w) = false → logs child_ok children w w'
}.

#[export] Instance kept_preorder Q : PreOrder (kept Q).
Proof.
  split.
  - intros w. split; [done|done|by left|done].
  - intros a b c [L1 D1 S1 C1] [L2 D2 S2 C2]. split; [by etrans|congruence| |].
    + unfold same_line in *. destruct S2 as [[-> ->]|?]; [done|by right].
    + intros E. etrans; [by apply C1|]. apply C2. congruence.
Qed.

Lemma kept_weaken (P Q : dcall → Prop) w w' : (∀ c, P c → Q c) → kept P w w' → kept Q w w'.
Proof. intros HPQ []. split; [by eapply logs_weaken|done..]. Qed.

Definition tame (Q : dcall → Prop) {A} (m : dprog A) : Prop :=
  blind m ∧ ∀ w, wp no_fault m (fun _ w' => kept Q w w') w.

Lemma tame_weaken (P Q : dcall → Prop) {A} (m : dprog A) :
  (∀ c, P c → Q c) → tame P m → tame Q m.
Proof.
  intros HPQ [Hb Hw]. split; [done|]. intros w. eapply wp_mono; [apply Hw|].
  cbn beta. intros _ w'. by apply kept_weaken.
Qed.

Section Rules.
Context (Q : dcall → Prop).

Lemma tame_ret {A} (a : A) : tame Q (mret a).
Proof. split; [apply blind_ret|]. intros w. by apply wp_ret. Qed.
Lemma tame_skip : tame Q skip.
Proof. apply tame_ret. Qed.
Lemma tame_bind {A B} (m : dprog A) (k : A → dprog B) :
  tame Q m → (∀ a, tame Q (k a)) → tame Q (m ≫= k).
Proof.
  intros [Hb Hm] Hk. split; [apply blind_bind; [done|apply Hk]|].
  intros w. apply wp_bind. eapply wp_mono; [apply Hm|]. cbn beta. intros a w1 H1.
  eapply wp_mono; [apply Hk|]. cbn beta. intros b w2 H2. by etrans.
Qed.
Lemma tame_when b m : tame Q m → tame Q (when b m).
Proof. destruct b; [done|]. intros _. apply tame_skip. Qed.
Lemma kept_log w c : Q c → kept Q w (w <| calls := c :: calls w |>).
Proof.
  intros Hc. split; [by eapply logs_one|done|by left|]. intros _. by apply logs_same.
Qed.
Lemma tame_call c : Q c → tame Q (call c).
Proof. intros Hc. split; [by split|]. intros w. unfold wp, call. by apply kept_log. Qed.
(** Reading the state, as long as what follows does not look at the buffer. *)
Lemma blind_get {A B} (f : Dm → A) (k : A → dprog B) :
  (∀ b d, k (f (d <| ipc_buf := b |>)) = k (f d)) →
  (∀ n d, k (f (d <| ipc_buf_len := n |>)) = k (f d)) → (∀ a, blind (k a)) →
  blind (get_dm f ≫= k).
Proof.
  intros Hf Hg Hk. split.
  - intros b w. unfold mbind, prog_bind, get_dm, gets. cbn. rewrite Hf. apply Hk.
  - intros n w. unfold mbind, prog_bind, get_dm, gets. cbn. rewrite Hg. apply Hk.
Qed.
Lemma tame_get {A B} (f : Dm → A) (k : A → dprog B) :
  (∀ b d, k (f (d <| ipc_buf := b |>)) = k (f d)) →
  (∀ n d, k (f (d <| ipc_buf_len := n |>)) = k (f d)) → (∀ a, tame Q (k a)) →
  tame Q (get_dm f ≫= k).
Proof.
  intros Hf Hg Hk. split; [apply blind_get; [done..|apply Hk]|].
  intros w. apply wp_bind, wp_gets, Hk.
Qed.
Lemma tame_upd (f : Dm → Dm) :
  (∀ b d, f (d <| ipc_buf := b |>) = (f d) <| ipc_buf := b |>) →
  (∀ n d, (f (d <| ipc_buf_len := n |>)) <| ipc_buf_len := 0 |> = (f d) <| ipc_buf_len := 0 |>) →
  (∀ d, dev_mode (f d) = dev_mode d) → (∀ d, same_line d (f d)) →
  tame Q (upd_dm f).
Proof.
  intros Hb Hn Hd Hl. split.
  - apply blind_modify; [intros b w; cbn; by rewrite Hb|]. intros n w. cbn. by rewrite Hn.
  - intros w. apply wp_modify. split; [by apply logs_same|apply Hd|apply Hl|].
    intros _. by apply logs_same.
Qed.
(** Giving the connection up. *)
Lemma tame_forget : tame Q (ipc_client_fd =: -1;; ipc_buf_len =: 0).
Proof.
  split.
  - apply blind_bind; [by apply blind_modify|]. intros _. by apply blind_modify.
  - intros w. apply wp_bind, wp_modify. cbn beta. apply wp_modify.
    split; [by apply logs_same|done|by right|]. intros _. by apply logs_same.
Qed.
Lemma tame_for_each {A} (l : list A) body : (∀ x, tame Q (body x)) → tame Q (for_each l body).
Proof. intros Hb. induction l as [|x l IH]; [apply tame_skip|]. by apply tame_bind. Qed.

(** A child, whose calls are not the daemon's. *)
Lemma blind_fork p ch : blind ch → blind (fork p ch).
Proof.
  intros [Hc Hn]. split.
  - intros b w. pose proof (Hc b (w <| calls := Fork p :: calls w |>)) as E.
    set (w1 := w <| calls := Fork p :: calls w |>) in *. unfold fork.
    change (calls (set_lb b w)) with (calls w). destruct (answer (calls w) (Fork p)); [|done].
    change ((set_lb b w) <| calls := Fork p :: calls w |>) with (set_lb b w1). fold w1.
    rewrite E. by destruct (ch w1).
  - intros n w. pose proof (Hn n (w <| calls := Fork p :: calls w |>)) as E.
    set (w1 := w <| calls := Fork p :: calls w |>) in *. unfold fork.
    change (calls (set_ll n w)) with (calls w). destruct (answer (calls w) (Fork p)); [|done].
    change ((set_ll n w) <| calls := Fork p :: calls w |>) with (set_ll n w1). fold w1.
    unfold alike in E. destruct (ch (set_ll n w1)) as [[] u|], (ch w1) as [[] u2|]; [|done..|done].
    destruct E as [_ E]. apply (f_equal calls) in E. change (calls u = calls u2) in E.
    rewrite E. done.
Qed.
Lemma own_calls {A} (P : dcall → Prop) (ch : dprog A) w :
  wp no_fault ch (fun _ w' => logs P calls w w') w →
  wp no_fault ch (fun _ w' => calls w' =
    take (length (calls w') - length (calls w)) (calls w') ++ calls w) w.
Proof.
  intros Hw. eapply wp_mono; [exact Hw|]. cbn beta. intros _ w' (new & E & _). rewrite E.
  rewrite length_app, take_app_length'; [done|lia].
Qed.
Lemma wp_fork p ch w (P : list dcall → Prop) :
  wp no_fault ch (fun _ w' => ∃ own, calls w' = own ++ Fork p :: calls w ∧ P own)
    (w <| calls := Fork p :: calls w |>) →
  wp no_fault (fork p ch) (fun pid w' =>
    dm w' = dm w ∧ calls w' = Fork p :: calls w ∧
    ((pid = -1 ∧ children w' = children w) ∨
     (0 < pid ∧ ∃ own, P own ∧ children w' = mkChild p own (Fork p :: calls w) :: children w))) w.
Proof.
  unfold wp, fork. intros Hc. cbn. destruct (answer (calls w) (Fork p)) as [pid|]; [|by auto].
  destruct (ch _) as [[] w'|]; [|done]. destruct Hc as (own & E & Ho). cbn.
  split; [done|]. split; [done|]. right. split; [lia|]. exists own. split; [done|].
  do 2 f_equal. rewrite E, length_app. apply take_app_length'. cbn. lia.
Qed.
Lemma tame_fork p ch :
  Q (Fork p) → (∀ u, p ≠ Session u) → tame any_call ch → tame Q (fork p ch).
Proof.
  intros Hq Hp [Hb Hw]. split; [by apply blind_fork|]. intros w.
  eapply wp_mono; [apply (wp_fork p ch w (fun _ => True))|].
  - eapply wp_mono; [apply Hw|]. cbn beta. intros _ w' [(new & E & _) _ _ _]. by exists new.
  - cbn beta. intros pid w' (E1 & E2 & E3). split.
    + by eapply logs_one.
    + by rewrite E1.
    + left. by rewrite E1.
    + intros _. destruct E3 as [[_ E3]|(_ & own & _ & E3)]; [by apply logs_same|].
      eapply logs_one; [exact E3|]. unfold child_ok. cbn. destruct p; [done..|by destruct (Hp user)].
Qed.
End Rules.
End Tame.

Create HintDb tame discriminated.
#[export] Hint Constants Opaque : tame.

Ltac tame_step :=
  lazymatch goal with
  | |- tame _ (mret _) => apply tame_ret
  | |- tame _ skip => apply tame_skip
  | |- tame _ (when _ _) => apply tame_when
  | |- tame _ (ipc_client_fd =: -1;; ipc_buf_len =: 0) => apply tame_forget
  | |- tame _ (get_dm _ ≫= _) => apply tame_get; [intros; reflexivity|intros; reflexivity|intros ?]
  | |- tame ?Q (call ?c) => refine (tame_call Q c _); solve [done | eauto with tame]
  | |- tame _ (upd_dm _) => apply tame_upd; [intros; reflexivity | intros; reflexivity | intros; reflexivity | intros; by left]
  | |- tame _ (for_each _ _) => apply tame_for_each; intros ?
  | |- tame _ (_ ≫= _) => apply tame_bind; [|intros ?]
  | |- tame _ (if ?b then _ else _) => destruct b
  | |- tame _ (match ?x with _ => _ end) => destruct x
  | |- tame _ (let _ := _ in _) => cbv zeta
  | |- tame ?Q (A:=?T) ?m =>
      first [solve [eauto with tame]
            | let T' := eval hnf in T in
              change (tame Q (A:=T') m); solve [eauto with tame]]
  end.
Ltac tame := repeat tame_step.
Tactic Notation "tamed" reference(f) := intros; unfold f; tame.

(** ** The operations *)

Section Ops.
Context `{System} (Q : dcall → Prop) (HQ : ∀ c, idle c → Q c).
#[local] Hint Extern 1 (Q _) => apply HQ; exact I : tame.

Lemma tame_emit s : tame Q (emit_signal s).
Proof. tamed emit_signal. Qed.
Hint Resolve tame_emit : tame.
Lemma tame_emit_started u s : tame Q (dm_dbus_emit_session_started u s).
Proof. tamed dm_dbus_emit_session_started. Qed.
Lemma tame_emit_ended u : tame Q (dm_dbus_emit_session_ended u).
Proof. tamed dm_dbus_emit_session_ended. Qed.
Lemma tame_emit_locked : tame Q dm_dbus_emit_locked.
Proof. tamed dm_dbus_emit_locked. Qed.
Lemma tame_emit_unlocked : tame Q dm_dbus_emit_unlocked.
Proof. tamed dm_dbus_emit_unlocked. Qed.
Lemma tame_emit_lid c : tame Q (dm_dbus_emit_lid_switch c).
Proof. tamed dm_dbus_emit_lid_switch. Qed.
Hint Resolve tame_emit_started tame_emit_ended tame_emit_locked tame_emit_unlocked tame_emit_lid : tame.

Lemma tame_pam_start u : tame Q (dm_auth_start_session u).
Proof. tamed dm_auth_start_session. Qed.
Lemma tame_pam_end u : tame Q (dm_auth_end_session u).
Proof. tamed dm_auth_end_session. Qed.
Lemma tame_auth_fail u b r : tame Q (auth_fail u b r).
Proof. tamed auth_fail. Qed.
Hint Resolve tame_pam_start tame_pam_end tame_auth_fail : tame.

Lemma tame_seat_event b : tame Q (on_seat_event b).
Proof. tamed on_seat_event. Qed.
Hint Resolve tame_seat_event : tame.
Lemma tame_libseat : tame Q libseat_dispatch.
Proof. tamed libseat_dispatch. Qed.
Hint Resolve tame_libseat : tame.
Lemma tame_seat_dispatch : tame Q dm_seat_dispatch.
Proof. tamed dm_seat_dispatch. Qed.
Hint Resolve tame_seat_dispatch : tame.

Lemma tame_exec argv : tame any_call (exec_or_exit argv).
Proof. tamed exec_or_exit. Qed.
Hint Resolve tame_exec : tame.
Lemma tame_greeter_child u : tame any_call (greeter_child u).
Proof. tamed greeter_child. Qed.
Hint Resolve tame_greeter_child : tame.
Lemma tame_greeter_start : tame Q dm_greeter_start.
Proof.
  unfold dm_greeter_start. tame. apply tame_fork; [by apply HQ|done|]. tame.
Qed.
Lemma tame_wait_exit n pid : tame Q (wait_exit n pid).
Proof. induction n; cbn; tame. Qed.
Hint Resolve tame_greeter_start tame_wait_exit : tame.
Lemma tame_greeter_stop : tame Q dm_greeter_stop.
Proof. tamed dm_greeter_stop. Qed.
Hint Resolve tame_greeter_stop : tame.
Lemma tame_lock : tame Q dm_lock_session.
Proof. tamed dm_lock_session. Qed.
Lemma tame_unlock : tame Q dm_unlock_session.
Proof. tamed dm_unlock_session. Qed.
Hint Resolve tame_lock tame_unlock : tame.

Lemma tame_find_display n i : tame Q (find_display n i).
Proof. revert i. induction n; intros i; cbn; tame. Qed.
Hint Resolve tame_find_display : tame.
Lemma tame_free_display : tame Q find_free_display.
Proof. tamed find_free_display. Qed.
Lemma tame_xserver_child vt : tame any_call (xserver_child vt).
Proof. tamed xserver_child. Qed.
Hint Resolve tame_xserver_child : tame.
Lemma tame_xserver_stop : tame Q dm_xserver_stop.
Proof. tamed dm_xserver_stop. Qed.
Lemma tame_wait_ready n l d : tame Q (wait_ready n l d).
Proof. induction n; cbn; tame. Qed.
Hint Resolve tame_xserver_stop tame_wait_ready : tame.
Lemma tame_xserver_ready : tame Q dm_xserver_ready.
Proof. tamed dm_xserver_ready. Qed.
Hint Resolve tame_xserver_ready : tame.

Lemma tame_load path : tame Q (isde_desktop_load path).
Proof.
  unfold isde_desktop_load. cbn. apply tame_bind; [tame|]. intros [file|]; [|tame].
  destruct (parse_desktop_total path file) as [e ->]. tame.
Qed.
Hint Resolve tame_load : tame.
Lemma tame_load_all dir names : tame Q (load_all dir names).
Proof. induction names as [|n ns IH]; cbn [load_all]; tame. Qed.
Hint Resolve tame_load_all : tame.
Lemma tame_scan_dir dir : tame Q (isde_desktop_scan_dir dir).
Proof. unfold isde_desktop_scan_dir. apply tame_bind; [cbn; tame|intros; tame]. Qed.
Hint Resolve tame_scan_dir : tame.
Lemma tame_scan_sessions dirs : tame Q (scan_sessions dirs).
Proof. induction dirs; [apply tame_ret|]. cbn [scan_sessions find_exec_in]. tame. Qed.
Lemma tame_data_dirs : tame Q isde_xdg_data_dirs.
Proof. tamed isde_xdg_data_dirs. Qed.
Lemma tame_find_exec_in dirs n : tame Q (find_exec_in dirs n).
Proof. induction dirs; [apply tame_ret|]. cbn [scan_sessions find_exec_in]. tame. Qed.
Hint Resolve tame_scan_sessions tame_data_dirs tame_find_exec_in : tame.
Lemma tame_find_exec n : tame Q (find_session_exec n).
Proof. tamed find_session_exec. Qed.
Hint Resolve tame_find_exec : tame.

Lemma tame_session_cleanup : tame Q dm_session_cleanup.
Proof. tamed dm_session_cleanup. Qed.
Lemma tame_kill_if s p : tame Q (kill_if s p).
Proof. tamed kill_if. Qed.
Hint Resolve tame_session_cleanup tame_kill_if : tame.
Lemma tame_kill_sessions : tame Q dm_kill_sessions.
Proof. tamed dm_kill_sessions. Qed.
Lemma tame_linux_shutdown : tame Q linux_shutdown.
Proof. tamed linux_shutdown. Qed.
Lemma tame_linux_reboot : tame Q linux_reboot.
Proof. tamed linux_reboot. Qed.
Lemma tame_linux_suspend : tame Q linux_suspend.
Proof. tamed linux_suspend. Qed.
Hint Resolve tame_kill_sessions tame_linux_shutdown tame_linux_reboot tame_linux_suspend : tame.
Lemma tame_shutdown : tame Q dm_power_shutdown.
Proof. tamed dm_power_shutdown. Qed.
Lemma tame_reboot : tame Q dm_power_reboot.
Proof. tamed dm_power_reboot. Qed.
Lemma tame_suspend : tame Q dm_power_suspend.
Proof. tamed dm_power_suspend. Qed.
Hint Resolve tame_shutdown tame_reboot tame_suspend : tame.

Lemma tame_send msg : tame Q (dm_ipc_send msg).
Proof. tamed dm_ipc_send. Qed.
Hint Resolve tame_send : tame.
Lemma tame_session_msg a : tame Q (handle_session a).
Proof. tamed handle_session. Qed.
Hint Resolve tame_session_msg : tame.

Lemma tame_set_config path k v : tame Q (set_greeter_config path k v).
Proof. tamed set_greeter_config. Qed.
Hint Resolve tame_set_config : tame.
Lemma tame_method_reply path m msg : tame Q (method_reply path m msg).
Proof. tamed method_reply. Qed.
Hint Resolve tame_method_reply : tame.
Lemma tame_method path msg : tame Q (handle_method path msg).
Proof. tamed handle_method. Qed.
Hint Resolve tame_method : tame.
Lemma tame_dbus_dispatch path msgs : tame Q (dm_dbus_dispatch path msgs).
Proof. tamed dm_dbus_dispatch. Qed.
Lemma tame_dbus_fd : tame Q dm_dbus_get_fd.
Proof. tamed dm_dbus_get_fd. Qed.
Lemma tame_lid_event b : tame Q (lid_event b).
Proof. tamed lid_event. Qed.
Hint Resolve tame_dbus_dispatch tame_dbus_fd tame_lid_event : tame.
Lemma tame_lid evs : tame Q (handle_lid_events evs).
Proof. tamed handle_lid_events. Qed.
Lemma tame_reap p : tame Q (reap_child p).
Proof. tamed reap_child. Qed.
Hint Resolve tame_lid tame_reap : tame.
Lemma tame_reap_all ps : tame Q (reap_children ps).
Proof. tamed reap_children. Qed.
Lemma tame_restart_greeter : tame Q restart_greeter.
Proof. tamed restart_greeter. Qed.
End Ops.

#[export] Hint Resolve tame_emit tame_emit_started tame_emit_ended tame_emit_locked tame_emit_unlocked
  tame_emit_lid tame_pam_start tame_pam_end tame_auth_fail tame_libseat tame_seat_dispatch
  tame_greeter_start tame_greeter_stop tame_lock tame_unlock tame_xserver_stop tame_xserver_ready
  tame_find_display tame_free_display tame_load tame_scan_sessions tame_data_dirs tame_find_exec tame_session_cleanup
  tame_shutdown tame_reboot tame_suspend tame_send tame_session_msg tame_dbus_dispatch tame_dbus_fd
  tame_lid tame_reap_all tame_restart_greeter tame_exec tame_greeter_child tame_xserver_child
  idle_quiet : tame.

Lemma idle_idle c : idle c → idle c.
Proof. done. Qed.
Lemma idle_any c : idle c → any_call c.
Proof. done. Qed.
Lemma quiet_any c : quiet c → any_call c.
Proof. done. Qed.
#[export] Hint Resolve idle_idle idle_any quiet_any : tame.

Section Sessions.
Context `{System}.

(** ** The X server *)

Lemma tame_xauth : tame quiet generate_xauth.
Proof. tamed generate_xauth. Qed.
Hint Resolve tame_xauth : tame.
Lemma tame_launch vt : tame quiet (launch_xserver vt).
Proof. unfold launch_xserver. tame. apply tame_fork; [done|done|]. tame. Qed.
Hint Resolve tame_launch : tame.
Lemma tame_xserver_start vt : tame quiet (dm_xserver_start vt).
Proof. tamed dm_xserver_start. Qed.
Hint Resolve tame_xserver_start : tame.
Lemma tame_restart_xserver : tame quiet restart_xserver.
Proof. tamed restart_xserver. Qed.

(** ** The child of a session *)

Lemma tame_copy_xauth pw : tame harmless (copy_xauth pw).
Proof. tamed copy_xauth. Qed.
Lemma tame_session_env pw p x : tame harmless (set_session_env pw p x).
Proof. tamed set_session_env. Qed.
Hint Resolve tame_copy_xauth tame_session_env : tame.
Lemma tame_exec_session pw c : tame any_call (exec_session pw c).
Proof. tamed exec_session. Qed.
Lemma tame_drop pw : tame any_call (drop_privileges pw).
Proof. tamed drop_privileges. Qed.
Hint Resolve tame_exec_session tame_drop : tame.

Lemma harmless_any c : harmless c → any_call c.
Proof. done. Qed.

Lemma tame_session_child pw c : tame any_call (session_child pw c).
Proof.
  unfold session_child. tame; eapply tame_weaken; try apply harmless_any; tame.
Qed.

Lemma wp_tame Q {A} (m : dprog A) (P : A → World → Prop) w :
  tame Q m → (∀ a w', kept Q w w' → P a w') → wp no_fault m P w.
Proof. intros [_ Hm] HP. eapply wp_mono; [apply Hm|]. cbn beta. auto. Qed.

Definition no_exec (c : dcall) : Prop := match c with Exec _ => False | _ => True end.

Lemma harmless_no_exec c : harmless c → no_exec c.
Proof. by destruct c. Qed.

Lemma split_once {A} (P : A → Prop) (l1 l2 k1 k2 : list A) x y :
  l1 ++ x :: l2 = k1 ++ y :: k2 → Forall (not ∘ P) l1 → Forall (not ∘ P) l2 → P y →
  k1 = l1 ∧ y = x ∧ k2 = l2.
Proof.
  intros E H1 H2 Hy. revert k1 E. induction H1 as [|z l1 Hz _ IH]; intros [|u k1] E; cbn in E.
  - by injection E as -> ->.
  - injection E as -> ->. rewrite Forall_app, Forall_cons in H2. by destruct H2 as (_ & ? & _).
  - injection E as -> _. done.
  - injection E as -> E. destruct (IH _ E) as (-> & -> & ->). done.
Qed.

Lemma as_user_no_exec before own : Forall no_exec own → as_user before own.
Proof.
  intros Hn later argv earlier ->. rewrite Forall_app, Forall_cons in Hn.
  by destruct Hn as (_ & [] & _).
Qed.

Lemma wp_exec_session pw c w :
  wp no_fault (exec_session pw c) (fun _ w' => ∃ e2 argv e1,
    calls w' = e2 ++ Exec argv :: e1 ++ calls w ∧ Forall no_exec e2 ∧ Forall harmless e1) w.
Proof.
  unfold exec_session. apply wp_bind. unfold wp at 1, call at 1. apply wp_bind.
  eapply (wp_tame harmless); [tame|]. intros _ w1 [(e1 & E1 & H1) _ _ _]. cbn in E1.
  unfold exec_or_exit. apply wp_bind. unfold wp at 1, call at 1.
  eapply (wp_tame harmless); [tame|]. intros _ w2 [(e2 & E2 & H2) _ _ _]. cbn in E2.
  exists e2, [str "dbus-launch"; str "--exit-with-session"; str "sh"; str "-c"; c],
    (e1 ++ [Chdir (pw_dir pw)]). rewrite E2, E1, <- app_assoc. split; [done|].
  split; [eapply Forall_impl; [exact H2|apply harmless_no_exec]|].
  apply Forall_app. split; [done|]. by constructor.
Qed.

Lemma wp_drop_privileges pw w :
  wp no_fault (drop_privileges pw) (fun ok w' => ∃ own, calls w' = own ++ calls w ∧ Forall no_exec own ∧
    (ok = true → own = [Setuid (pw_uid pw); Setgid (pw_gid pw); Initgroups (pw_name pw) (pw_gid pw)] ∧
      answer (calls w) (Initgroups (pw_name pw) (pw_gid pw)) = true ∧
      answer (Initgroups (pw_name pw) (pw_gid pw) :: calls w) (Setgid (pw_gid pw)) = true ∧
      answer (Setgid (pw_gid pw) :: Initgroups (pw_name pw) (pw_gid pw) :: calls w)
        (Setuid (pw_uid pw)) = true)) w.
Proof.
  unfold drop_privileges, wp, mbind, prog_bind, call. cbn.
  destruct (answer (calls w) (Initgroups _ _)) eqn:E1; cbn.
  - destruct (answer (Initgroups _ _ :: calls w) (Setgid _)) eqn:E2; cbn.
    + eexists [_; _; _]. split; [done|]. split; [by repeat constructor|]. intros E3. done.
    + eexists [_; _]. split; [done|]. split; [by repeat constructor|done].
  - eexists [_]. split; [done|]. split; [by repeat constructor|done].
Qed.

Lemma as_user_intro before pre e2 argv e1 user pw h :
  answer h (GetPwNam user) = Some pw → (∃ h', before = h' ++ GetPwNam user :: h) →
  Forall no_exec e2 → Forall harmless e1 → Forall no_exec pre →
  answer (pre ++ before) (Initgroups (pw_name pw) (pw_gid pw)) = true →
  answer (Initgroups (pw_name pw) (pw_gid pw) :: pre ++ before) (Setgid (pw_gid pw)) = true →
  answer (Setgid (pw_gid pw) :: Initgroups (pw_name pw) (pw_gid pw) :: pre ++ before)
    (Setuid (pw_uid pw)) = true →
  as_user before (e2 ++ Exec argv :: e1 ++
    Setuid (pw_uid pw) :: Setgid (pw_gid pw) :: Initgroups (pw_name pw) (pw_gid pw) :: pre).
Proof.
  intros Hh Hb H2 H1 Hp A1 A2 A3 later a earlier E.
  apply (split_once (not ∘ no_exec)) in E as (-> & _ & ->); [| | |by cbn; auto].
  - by exists user, pw, e1, pre, h.
  - eapply Forall_impl; [exact H2|]. cbn. auto.
  - rewrite Forall_app, !Forall_cons. split; [|split; [by cbn; auto..|]].
    + eapply Forall_impl; [exact H1|]. intros c Hc. cbn. apply harmless_no_exec in Hc. auto.
    + split; [by cbn; auto|]. split; [by cbn; auto|].
      eapply Forall_impl; [exact Hp|]. cbn. auto.
Qed.

Lemma wp_session_child pw c w user h :
  dev_mode (dm w) = false → answer h (GetPwNam user) = Some pw →
  (∃ h', calls w = h' ++ GetPwNam user :: h) →
  wp no_fault (session_child pw c) (fun _ w' => ∃ own,
    calls w' = own ++ calls w ∧ as_user (calls w) own) w.
Proof.
  intros Hd Hh Hb. unfold session_child. apply wp_bind, wp_gets. cbn beta. unfold id. rewrite Hd.
  cbv iota. apply wp_bind, wp_ret. cbv zeta.
  apply wp_bind. eapply (wp_tame harmless); [tame|]. intros _ w1 K1.
  apply wp_bind. eapply (wp_tame harmless); [tame|]. intros _ w2 K2.
  apply wp_bind. eapply (wp_tame harmless); [tame|]. intros x w3 K3.
  apply wp_bind. eapply (wp_tame harmless); [tame|]. intros _ w4 K4.
  assert (K : kept harmless w w4) by (etrans; [|exact K4]; etrans; [|exact K3]; by etrans).
  clear K1 K2 K3 K4. destruct K as [(pre & E & Hp) _ _ _].
  assert (Hpn : Forall no_exec pre) by (eapply Forall_impl; [exact Hp|apply harmless_no_exec]).
  apply wp_bind. eapply wp_mono; [apply wp_drop_privileges|]. cbn beta.
  intros ok w5 (own & E5 & Hn & Hok). destruct ok; cbn [negb].
  - destruct (Hok eq_refl) as (-> & A1 & A2 & A3). rewrite E in A1, A2, A3.
    eapply wp_mono; [apply wp_exec_session|]. cbn beta. intros _ w6 (e2 & argv & e1 & E6 & H2 & H1).
    exists (e2 ++ Exec argv :: e1 ++
      Setuid (pw_uid pw) :: Setgid (pw_gid pw) :: Initgroups (pw_name pw) (pw_gid pw) :: pre).
    split; [|by eapply as_user_intro].
    rewrite E6, E5, E, <- app_assoc. cbn. by rewrite <- app_assoc.
  - unfold wp, call. exists (Exit 1 :: own ++ pre). cbn. split; [by rewrite E5, E, app_assoc|].
    apply as_user_no_exec. constructor; [done|]. by apply Forall_app.
Qed.

(** ** Sessions and authentication *)

(** Just before, with nothing read and no other check in between, PAM has
    accepted the password and the account of [u]. *)
Definition authenticated (u : text) (h : list dcall) : Prop :=
  ∃ mid pass rest, h = mid ++ PamAcctMgmt u :: PamAuthenticate u pass :: rest ∧ Forall idle mid ∧
    answer rest (PamAuthenticate u pass) = PAM_SUCCESS ∧
    answer (PamAuthenticate u pass :: rest) (PamAcctMgmt u) = PAM_SUCCESS.

(** Every session was started for a user so authenticated. *)
Definition vouched (h : list dcall) : Prop :=
  ∀ later u earlier, h = later ++ Fork (Session u) :: earlier → authenticated u earlier.

Lemma authenticated_idle u new h : Forall idle new → authenticated u h → authenticated u (new ++ h).
Proof.
  intros Hn (mid & pass & rest & -> & Hm & A). exists (new ++ mid), pass, rest.
  split; [by rewrite app_assoc|]. split; [by apply Forall_app|done].
Qed.

Lemma vouched_quiet new h : Forall quiet new → vouched h → vouched (new ++ h).
Proof.
  intros Hn Hv later u earlier E.
  apply app_eq_app in E as [l [[-> E]|[-> E]]].
  - destruct l as [|c l]; cbn in E.
    + by apply (Hv [] u earlier).
    + injection E as <- ->. rewrite Forall_app, Forall_cons in Hn. by destruct Hn as (_ & [=] & _).
  - by apply (Hv l u earlier).
Qed.

Lemma vouched_fork u h : authenticated u h → vouched h → vouched (Fork (Session u) :: h).
Proof.
  intros Ha Hv [|c later] u' earlier E; cbn in E.
  - by injection E as -> ->.
  - injection E as <- E. by eapply Hv.
Qed.

(** [tame], with sessions allowed for authenticated users. *)
Definition trusty (w w' : World) : Prop :=
  kept any_call w w' ∧ (vouched (calls w) → vouched (calls w')).

#[export] Instance trusty_preorder : PreOrder trusty.
Proof.
  split; [by intros w; split|]. intros a b c [K1 V1] [K2 V2]. split; [by etrans|auto].
Qed.

Lemma kept_trusty w w' : kept quiet w w' → trusty w w'.
Proof.
  intros K. split; [by eapply kept_weaken|]. destruct K as [(new & E & Hn) _ _ _].
  rewrite E. by apply vouched_quiet.
Qed.

Definition sound {A} (m : dprog A) : Prop := blind m ∧ ∀ w, wp no_fault m (fun _ w' => trusty w w') w.

Lemma sound_tame {A} (m : dprog A) : tame quiet m → sound m.
Proof.
  intros [Hb Hm]. split; [done|]. intros w. eapply wp_mono; [apply Hm|].
  cbn beta. intros _ w'. apply kept_trusty.
Qed.

Lemma sound_bind {A B} (m : dprog A) (k : A → dprog B) :
  sound m → (∀ a, sound (k a)) → sound (m ≫= k).
Proof.
  intros [Hb Hm] Hk. split; [apply blind_bind; [done|apply Hk]|].
  intros w. apply wp_bind. eapply wp_mono; [apply Hm|]. cbn beta. intros a w1 H1.
  eapply wp_mono; [apply Hk|]. cbn beta. intros b w2 H2. by etrans.
Qed.

(** The last part of [dm_session_start], after the fork. *)
Lemma tame_session_started u d pam pid :
  tame idle (if pid <? 0 then when pam (dm_auth_end_session u);; mret false
    else session_pid =: pid;; session_user =: Some u;; session_desktop =: Some d;;
         dm_dbus_emit_session_started u d;; mret true).
Proof. tame. Qed.

Lemma blind_session_start u d : blind (dm_session_start u d).
Proof.
  unfold dm_session_start. apply blind_bind; [done|]. intros [pw|]; [|apply blind_ret].
  apply blind_bind; [eapply (tame_find_exec idle); auto|]. intros [c|]; [|apply blind_ret].
  apply blind_bind; [eapply (tame_pam_start idle); auto|]. intros pam.
  apply blind_bind; [apply blind_fork, tame_session_child|]. intros pid.
  apply tame_session_started.
Qed.

Lemma wp_session_start u d w :
  authenticated u (calls w) → wp no_fault (dm_session_start u d) (fun _ w' => trusty w w') w.
Proof.
  intros Ha. unfold dm_session_start. apply wp_bind. unfold wp at 1, call at 1.
  set (w0 := w <| calls := GetPwNam u :: calls w |>).
  assert (K0 : kept idle w w0) by by apply kept_log.
  destruct (answer (calls w) (GetPwNam u)) as [pw|] eqn:Epw.
  2:{ apply wp_ret. apply kept_trusty. eapply kept_weaken; [|exact K0]. apply idle_quiet. }
  apply wp_bind. eapply (wp_tame idle); [tame|]. intros [c|] w1 K1.
  2:{ apply wp_ret. apply kept_trusty. eapply kept_weaken; [apply idle_quiet|]. by etrans. }
  apply wp_bind. eapply (wp_tame idle); [tame|]. intros pam w2 K2.
  apply wp_bind. assert (K : kept idle w0 w2) by by etrans.
  eapply wp_mono; [apply (wp_fork _ _ _ (fun own => dev_mode (dm w) = false →
    as_user (Fork (Session u) :: calls w2) own))|].
  - destruct (dev_mode (dm w)) eqn:Ed.
    + eapply (wp_tame any_call); [apply tame_session_child|]. intros _ w' [(own & E & _) _ _ _].
      exists own. by split.
    + destruct K as [(h' & E & _) D _ _]. eapply wp_mono.
      * apply (wp_session_child pw c _ u (calls w)); [cbn; cbn in D; congruence|done|].
        exists (Fork (Session u) :: h'). cbn. by rewrite E.
      * cbn beta. intros _ w' (own & E' & Hown). by exists own.
  - cbn beta. intros pid w3 (D3 & E3 & C3).
    eapply (wp_tame idle); [apply tame_session_started|]. intros _ w4 K4.
    assert (Kw : kept idle w w2) by by etrans.
    assert (K34 : trusty w w3).
    { split.
      - etrans; [by eapply kept_weaken|]. split.
        + by eapply logs_one.
        + by rewrite D3.
        + left. by rewrite D3.
        + intros Ed. destruct C3 as [[_ C3]|(_ & own & Ho & C3)]; [by apply logs_same|].
          eapply logs_one; [exact C3|]. unfold child_ok. cbn. apply Ho.
          rewrite <- Ed. symmetry. apply Kw.
      - intros Hv. rewrite E3. destruct Kw as [(new & E & Hn) _ _ _]. rewrite E.
        apply vouched_fork; [by apply authenticated_idle|].
        apply vouched_quiet; [|done]. eapply Forall_impl; [exact Hn|apply idle_quiet]. }
    etrans; [exact K34|]. apply kept_trusty. eapply kept_weaken; [apply idle_quiet|exact K4].
Qed.
End Sessions.

#[export] Hint Resolve tame_xauth tame_xserver_start tame_restart_xserver : tame.
