(* ===== verification/DmHandlers.v ===== *)
(** * isde-dm: the handlers keep the daemon sound

    The messages of the greeter, the handler of its socket, a round of the main
    loop, start-up and clean-up: none faults, the receive buffer keeps its
    bounds, sessions are only started for authenticated users. *)

From S2P Require Import Prelude.
From S2P Require Import CString.
From S2P Require Import CFloat.
From S2P Require Import TwoState.
From S2P Require Import LineIpc.
From S2P Require Import DesktopEntry.
From S2P Require Import DmCore.
From S2P Require Import DmProc.
From S2P Require Import DmIpc.
From S2P Require Import DmRun.
From S2P Require Import DmSafety.
Open Scope Z_scope.

(** A session whose line fits what [handle_list_sessions] leaves for it. *)
Definition short_session (e : IsdeDesktopEntry) : Prop :=
  ∀ n f, e_name e = Some n → e_exec e = Some f → (length n + length f ≤ 126)%nat.

(** All session files the system has are of that kind. *)
Definition short_sessions `{System} : Prop := ∀ h path file e,
  answer h (ReadFile path) = Some file → parse_desktop path file = Some e → short_session e.

(** The receive buffer: its size, and the number of bytes in it while there is a
    connection. *)
Definition BufInv (d : Dm) : Prop :=
  length (ipc_buf d) = 4096%nat ∧ (0 ≤ ipc_client_fd d → 0 ≤ ipc_buf_len d < 4096).

(** The part of [tame] that concerns the buffer. *)
Ltac blind_tame := lazymatch goal with |- blind ?m => refine (proj1 (_ : tame quiet m)); tame end.

Lemma wp_dcall `{System} E c (Q : dresult c → World → Prop) w :
  Q (answer (calls w) c) (w <| calls := c :: calls w |>) → wp E (call c) Q w.
Proof. done. Qed.

Section Handlers.
Context `{System}.

(** ** Authentication *)

Lemma wp_auth_check u p w :
  wp no_fault (dm_auth_check u p) (fun r w' =>
    kept quiet w w' ∧ (r = None → authenticated u (calls w'))) w.
Proof.
  assert (Hf : ∀ b ret w1, kept quiet w w1 → wp no_fault (auth_fail u b ret) (fun r w' =>
    kept quiet w w' ∧ (r = None → authenticated u (calls w'))) w1).
  { intros b ret w1 K1. unfold auth_fail. apply wp_bind. unfold wp at 1, call at 1.
    apply wp_bind. eapply (wp_tame quiet); [tame|]. intros _ w2 K2. apply wp_ret.
    split; [|done]. etrans; [exact K1|]. etrans; [|exact K2]. by apply kept_log. }
  unfold dm_auth_check. apply wp_bind. unfold wp at 1, call at 1.
  set (w1 := w <| calls := PamStart u :: calls w |>).
  assert (K1 : kept quiet w w1) by by apply kept_log. destruct (_ =? _); cbn [negb]; [|by apply Hf].
  apply wp_bind. unfold wp at 1, call at 1.
  set (w2 := w1 <| calls := PamAuthenticate u p :: calls w1 |>).
  assert (K2 : kept quiet w w2) by (etrans; [exact K1|by apply kept_log]).
  destruct (answer (calls w1) (PamAuthenticate u p) =? PAM_SUCCESS) eqn:E2; cbn [negb]; [|by apply Hf].
  apply wp_bind. unfold wp at 1, call at 1.
  set (w3 := w2 <| calls := PamAcctMgmt u :: calls w2 |>).
  assert (K3 : kept quiet w w3) by (etrans; [exact K2|by apply kept_log]).
  destruct (answer (calls w2) (PamAcctMgmt u) =? PAM_SUCCESS) eqn:E3; cbn [negb]; [|by apply Hf].
  apply wp_bind. unfold wp at 1, call at 1. apply wp_ret.
  split; [etrans; [exact K3|by apply kept_log]|]. intros _.
  exists [PamEnd u], p, (calls w1). apply Z.eqb_eq in E2, E3. split; [done|]. split; [by repeat constructor|done].
Qed.

Lemma tame_auth_check u p : tame quiet (dm_auth_check u p).
Proof. split; [|intros w; eapply wp_mono; [apply wp_auth_check|by intros ? ? []]].
  unfold dm_auth_check. repeat (apply blind_bind; [done|intros ?]; destruct (negb _);
    [blind_tame|]).
  apply blind_bind; [done|]. intros. apply blind_ret.
Qed.

Lemma blind_auth_succeeded u : blind (auth_succeeded u).
Proof.
  unfold auth_succeeded. apply blind_get; [intros; reflexivity..|]. intros d. cbv zeta.
  apply blind_bind; [blind_tame|]. intros _.
  apply blind_get; [intros; reflexivity..|]. intros []; [blind_tame|].
  destruct (match session_desktop d with Some s => Some s | None => default_session d end); [|blind_tame].
  apply blind_bind; [blind_tame|]. intros _.
  apply blind_bind; [apply blind_session_start|]. intros _. apply blind_ret.
Qed.

Lemma wp_auth_succeeded u w :
  authenticated u (calls w) → wp no_fault (auth_succeeded u) (fun _ w' => trusty w w') w.
Proof.
  intros Ha. unfold auth_succeeded. apply wp_bind, wp_gets. cbn beta zeta.
  apply wp_bind. eapply (wp_tame idle); [tame|]. intros _ w1 K1.
  assert (T1 : trusty w w1) by (apply kept_trusty; eapply kept_weaken; [apply idle_quiet|exact K1]).
  apply wp_bind, wp_gets. destruct (locked (dm w1)).
  { eapply (wp_tame quiet); [tame|]. intros _ w2 K2. etrans; [exact T1|by apply kept_trusty]. }
  match goal with |- context [match ?x with Some _ => _ | None => _ end] => destruct x as [d|] end.
  - apply wp_bind. eapply (wp_tame idle); [tame|]. intros _ w2 K2.
    apply wp_bind. eapply wp_mono; [apply wp_session_start|].
    + assert (K : kept idle w w2) by by etrans. destruct K as [(new & E & Hn) _ _ _].
      rewrite E. by apply authenticated_idle.
    + cbn beta. intros _ w3 T3. apply wp_ret. etrans; [exact T1|]. etrans; [|exact T3].
      apply kept_trusty. eapply kept_weaken; [apply idle_quiet|exact K2].
  - eapply (wp_tame quiet); [tame|]. intros _ w2 K2. etrans; [exact T1|by apply kept_trusty].
Qed.

Lemma sound_auth args : sound (handle_auth args).
Proof.
  unfold handle_auth. destruct (strchr _ args) as [rest|]; [|apply sound_tame; tame].
  cbv zeta. destruct (decide _); [apply sound_tame; tame|].
  destruct (decide _); [apply sound_tame; tame|]. split.
  - apply blind_bind; [apply tame_auth_check|]. intros [e|]; [blind_tame|]. apply blind_auth_succeeded.
  - intros w. apply wp_bind. eapply wp_mono; [apply wp_auth_check|]. cbn beta.
    intros [e|] w1 [K1 Ha].
    + eapply (wp_tame quiet); [tame|]. intros _ w2 K2. apply kept_trusty. by etrans.
    + eapply wp_mono; [apply wp_auth_succeeded; auto|]. cbn beta. intros _ w2 T2.
      etrans; [by apply kept_trusty|exact T2].
Qed.

(** ** The list of sessions *)

Lemma put_sessions_fits es b :
  Forall short_session es → 0 ≤ fst b < 4096 →
  ∃ b', put_sessions es b = Some b' ∧ 0 ≤ fst b' < 4096.
Proof.
  intros Hs. revert b. induction Hs as [|e es He _ IH]; intros b Hb; [by exists b|]. cbn.
  destruct (fst b <? DM_IPC_MAX_MSG - 128) eqn:Eb; [|by exists b].
  unfold DM_IPC_MAX_MSG in *. apply Z.ltb_lt in Eb.
  destruct (e_name e) as [n|] eqn:En; [|by apply IH]. destruct (e_exec e) as [f|] eqn:Ef; [|by apply IH].
  specialize (He n f En Ef). unfold sb_printf.
  replace (4096 <? fst b) with false by (symmetry; apply Z.ltb_ge; lia). cbn [mbind option_bind].
  apply IH. cbn. rewrite !length_app. cbn. rewrite length_app. cbn. lia.
Qed.

Lemma drop_last_fits b : 0 ≤ fst b < 4096 → is_Some (drop_last_lf b).
Proof.
  destruct b as [off t]. cbn. intros Hb. unfold drop_last_lf. destruct (0 <? off); cbn; [|by eexists].
  unfold DM_IPC_MAX_MSG. replace (4096 <=? off - 1) with false by (symmetry; apply Z.leb_gt; lia).
  destruct (_ && _); by eexists.
Qed.

Lemma sessions_text_total es : Forall short_session es → is_Some (sessions_text es).
Proof.
  intros Hs. unfold sessions_text. unfold sb_printf at 1. cbn [fst snd].
  change (DM_IPC_MAX_MSG <? 0) with false. cbn [mbind option_bind].
  match goal with |- is_Some (put_sessions es ?b ≫= _) =>
    destruct (put_sessions_fits es b Hs) as (b' & -> & Hb') end.
  - cbn [fst]. rewrite !length_app. cbn [length str String.list_ascii_of_string].
    pose proof (print_int_length _ (s32_range (Z.of_nat (length es)))). lia.
  - cbn [mbind option_bind]. by apply drop_last_fits.
Qed.

(** What is loaded is short, when all files are. *)
Lemma wp_load_short path w :
  short_sessions → wp no_fault (isde_desktop_load path) (fun r _ => from_option short_session True r) w.
Proof.
  intros Hs. unfold isde_desktop_load. apply wp_bind, (wp_dcall _ (ReadFile path)).
  destruct (answer (calls w) (ReadFile path)) as [file|] eqn:E; [|by apply wp_ret].
  destruct (DesktopClaims.parse_desktop_total path file) as [e He]. rewrite He.
  apply wp_ret. cbn. by eapply Hs.
Qed.

Lemma wp_load_all_short dir names w :
  short_sessions → wp no_fault (load_all dir names) (fun es _ => Forall short_session es) w.
Proof.
  intros Hs. revert w. induction names as [|n ns IH]; intros w; cbn [load_all]; [by apply wp_ret|].
  destruct (is_desktop_file n); [|apply IH].
  apply wp_bind. eapply wp_mono; [by apply wp_load_short|]. cbn beta. intros r w1 Hr.
  apply wp_bind. eapply wp_mono; [apply IH|]. cbn beta. intros es w2 He. apply wp_ret.
  destruct r; [by constructor|done].
Qed.

Lemma wp_scan_short dirs w :
  short_sessions → wp no_fault (scan_sessions dirs) (fun es _ => Forall short_session es) w.
Proof.
  intros Hs. revert w. induction dirs as [|d ds IH]; intros w; cbn [scan_sessions]; [by apply wp_ret|].
  apply wp_bind. eapply (wp_mono _ _ (fun es _ => Forall short_session es)).
  - unfold isde_desktop_scan_dir. apply wp_bind, (wp_dcall _ (ReadDir _)).
    destruct (answer _ _); [by apply wp_load_all_short|by apply wp_ret].
  - cbn beta. intros es w1 He. apply wp_bind. eapply wp_mono; [apply IH|]. cbn beta.
    intros rest w2 Hr. apply wp_ret. by apply Forall_app.
Qed.

Lemma tame_list_sessions : short_sessions → tame quiet handle_list_sessions.
Proof.
  intros Hs. unfold handle_list_sessions. apply tame_bind; [tame|]. intros dp. split.
  - apply blind_bind; [blind_tame|]. intros es.
    destruct (sessions_text es); [blind_tame|apply blind_raise].
  - intros w. apply wp_bind. pose proof (wp_scan_short (colon_dirs [] dp) w Hs) as H1.
    pose proof (proj2 (tame_scan_sessions quiet idle_quiet (colon_dirs [] dp)) w) as H2.
    unfold wp in H1, H2 |- * at 1. destruct (scan_sessions _ w) as [es w1|]; [|done].
    destruct (sessions_text_total es H1) as [t ->].
    eapply (wp_tame quiet); [tame|]. intros _ w2 K2. by etrans.
Qed.

(** ** The messages *)

Lemma sound_dispatch line : short_sessions → sound (dispatch_message line).
Proof.
  intros Hs. unfold dispatch_message.
  assert (Hrest : tame quiet (
    d ← get_dm id;
    if bool_decide (line = str "LIST_SESSIONS") then handle_list_sessions
    else if bool_decide (line = str "SHUTDOWN") then when (allow_shutdown d) (dm_power_shutdown;; skip)
    else if bool_decide (line = str "REBOOT") then when (allow_reboot d) (dm_power_reboot;; skip)
    else if bool_decide (line = str "SUSPEND") then when (allow_suspend d) (dm_power_suspend;; skip)
    else if bool_decide (line = str "CANCEL_LOCK") then dm_unlock_session
    else skip)).
  { apply tame_get; [intros; reflexivity..|]. intros d.
    destruct (bool_decide _); [by apply tame_list_sessions|]. tame. }
  destruct (has_prefix (str "AUTH ") line).
  - split; [apply blind_get; [intros; reflexivity..|intros; apply sound_auth]|].
    intros w. apply wp_bind, wp_gets, sound_auth.
  - destruct (has_prefix (str "SESSION ") line); [apply sound_tame; tame|].
    by apply sound_tame.
Qed.

Lemma sound_handle_all ls : short_sessions → sound (handle_all dispatch_message ls).
Proof.
  intros Hs. induction ls as [|l ls IH]; cbn; [apply sound_tame; tame|].
  apply sound_bind; [|done]. destruct (negb _); [by apply sound_dispatch|apply sound_tame, tame_skip].
Qed.

(** ** The socket *)

Lemma BufInv_kept Q w w' : BufInv (dm w) → ipc_buf (dm w') = ipc_buf (dm w) → kept Q w w' → BufInv (dm w').
Proof.
  intros [Hl Hn] Hb K. split; [by rewrite Hb|]. destruct K as [_ _ [[-> ->] | [-> _]] _]; [done|lia].
Qed.

(** A blind program leaves the buffer as it is. *)
Lemma blind_same {A} (m : dprog A) E (Q : A → World → Prop) w :
  blind m → wp E m Q w → wp E m (fun a w' => ipc_buf (dm w') = ipc_buf (dm w) ∧ Q a w') w.
Proof.
  intros [Hb _]. specialize (Hb (ipc_buf (dm w)) w). unfold wp.
  assert (E1 : set_lb (ipc_buf (dm w)) w = w) by exact (lb_set_same w). rewrite E1 in Hb.
  destruct (m w) as [a w'|]; [|done]. intros HQ. split; [|done].
  injection Hb as Hb. rewrite Hb. exact (lb_buf_set (ipc_buf (dm w)) w').
Qed.

Lemma keep_sound {A} (m : dprog A) w :
  sound m → BufInv (dm w) → wp no_fault m (fun _ w' => trusty w w' ∧ BufInv (dm w')) w.
Proof.
  intros [Hb Hm] Hi. eapply wp_mono; [apply (blind_same m); [done|apply Hm]|]. cbn beta.
  intros _ w' [Hbuf T]. split; [done|]. eapply BufInv_kept; [exact Hi|done|apply T].
Qed.

Lemma wp_drop_client w :
  BufInv (dm w) → wp no_fault drop_client (fun _ w' => trusty w w' ∧ BufInv (dm w')) w.
Proof. apply keep_sound, sound_tame. tamed drop_client. Qed.

(** The daemon's invariant: the bounds of the buffer, every session vouched for,
    every child of a session running as its user. *)
Definition Good (w : World) : Prop :=
  BufInv (dm w) ∧ vouched (calls w) ∧ (dev_mode (dm w) = false → Forall child_ok (children w)).

Lemma Good_trusty w w' : trusty w w' → BufInv (dm w') → Good w → Good w'.
Proof.
  intros [[_ D _ C] V] Hb (_ & Hv & Hc). split; [done|]. split; [auto|].
  rewrite D. intros Ed. destruct (C Ed) as (new & -> & Hn). apply Forall_app. auto.
Qed.

Lemma safely_tame {A} (m : dprog A) : tame quiet m → safely Good m.
Proof.
  intros Hm w Hw. eapply wp_mono; [apply keep_sound; [by apply sound_tame|apply Hw]|].
  cbn beta. intros _ w' [T Hb]. by eapply Good_trusty.
Qed.

(** The lines of what has been read. *)
Lemma wp_receive data w :
  short_sessions → Good w → 0 ≤ ipc_client_fd (dm w) →
  ipc_buf_len (dm w) + Z.of_nat (length data) < 4096 →
  wp no_fault (receive dispatch_message data) (fun _ w' => Good w') w.
Proof.
  intros Hs Hg Hcl Hdl. destruct Hg as ([Hl Hn] & Hv & Hch). specialize (Hn Hcl).
  pose proof (receive_run dispatch_message (fun l => proj1 (sound_dispatch l Hs))
    (ipc_buf_len (dm w)) data w eq_refl (proj1 Hn)) as Hr.
  cbn [lb_buf dm_lines] in Hr. rewrite Hl in Hr. specialize (Hr ltac:(lia)).
  set (t := cstr _) in *. set (c := take _ _ ++ data) in *. set (w2 := set_ll _ w) in Hr.
  assert (Hg2 : Good w2).
  { split; [|by split]. split; [exact Hl|]. intros _.
    change (ipc_buf_len (dm w2)) with (ipc_buf_len (dm w) + Z.of_nat (length data)). lia. }
  pose proof (keep_sound _ w2 (sound_handle_all (fst (split_lines [] t)) Hs) (proj1 Hg2)) as Ha.
  unfold wp in Ha |- * at 1. destruct (handle_all _ _ w2) as [[] w3|f]; [|done].
  destruct Ha as [T3 [Hl3 Hn3]].
  destruct (Good_trusty w2 w3 T3 (conj Hl3 Hn3) Hg2) as (_ & Hv3 & Hc3).
  assert (Hct : (length t ≤ length c)%nat) by (unfold t, cstr; rewrite before_take, length_take; lia).
  assert (Hc : Z.of_nat (length c) = ipc_buf_len (dm w) + Z.of_nat (length data)).
  { unfold c. rewrite length_app, length_take, Hl. lia. }
  pose proof (kept_line _ _ _ (proj1 T3) : (ipc_client_fd (dm w3) = ipc_client_fd (dm w) ∧
    ipc_buf_len (dm w3) = ipc_buf_len (dm w) + Z.of_nat (length data)) ∨
    (ipc_client_fd (dm w3) = -1 ∧ ipc_buf_len (dm w3) = 0)) as S3. cbn in Hr.
  destruct Hr as (B & HB & -> & _); [destruct S3 as [[_ ->] | [_ ->]]; lia|].
  split; [|split; [exact Hv3|exact Hc3]]. split; [exact HB|]. cbn. intros H0.
  destruct S3 as [[E1 E2] | [E1 _]]; [|lia].
  rewrite E2. pose proof (split_rest_length [] t). cbn in *. lia.
Qed.

Lemma safely_drop_client : safely Good drop_client.
Proof. apply safely_tame. tamed drop_client. Qed.

Lemma safely_ipc_handle : short_sessions → safely Good dm_ipc_handle.
Proof.
  intros Hs w Hg. unfold dm_ipc_handle. apply wp_bind, wp_gets. cbn beta. unfold id.
  destruct (ipc_client_fd (dm w) <? 0) eqn:Ec; [by apply wp_ret|]. apply Z.ltb_ge in Ec. cbv zeta.
  destruct (_ <=? 0) eqn:Es; [by apply safely_drop_client|].
  apply Z.leb_gt in Es. set (space := DM_IPC_MAX_MSG - ipc_buf_len (dm w) - 1) in *.
  apply wp_bind, (wp_dcall _ (Read (ipc_client_fd (dm w)) space)). set (w1 := w <| calls := _ |>).
  assert (Hg1 : Good w1).
  { eapply Good_trusty; [|apply Hg|exact Hg]. by apply kept_trusty, kept_log. }
  destruct (answer _ _) as [bytes|e].
  2:{ destruct (negb _ && negb _); cbn [when]; [by apply safely_drop_client|by apply wp_ret]. }
  destruct (take (Z.to_nat space) bytes) as [|b bs] eqn:Et; [by apply safely_drop_client|].
  apply wp_receive; [done|done|exact Ec|].
  assert (Hdl : Z.of_nat (length (b :: bs)) ≤ space) by (rewrite <- Et, length_take; lia).
  assert (Esp : space = 4096 - ipc_buf_len (dm w) - 1) by done.
  change (ipc_buf_len (dm w1)) with (ipc_buf_len (dm w)). lia.
Qed.

Lemma safely_ipc_accept : safely Good dm_ipc_accept.
Proof.
  intros w Hg. unfold dm_ipc_accept. apply wp_bind, wp_gets. cbn beta.
  apply wp_bind, (wp_dcall _ (Accept _)). set (w1 := w <| calls := _ |>).
  assert (Hg1 : Good w1).
  { eapply Good_trusty; [|apply Hg|exact Hg]. by apply kept_trusty, kept_log. }
  destruct (_ <? 0); [by apply wp_ret|]. apply wp_bind, wp_gets. cbn beta.
  apply wp_bind. eapply wp_mono; [apply (safely_tame (when _ _)); [tame|exact Hg1]|]. cbn beta.
  intros _ w2 ([Hl _] & Hv & Hc). apply wp_bind, wp_modify. cbn beta. apply wp_modify.
  split; [|by split]. split; [exact Hl|]. cbn. lia.
Qed.

(** ** A round of the main loop *)

Lemma safely_round r path : short_sessions → safely Good (dm_round path r).
Proof.
  intros Hs. unfold dm_round. apply safely_bind; [apply safely_gets|]. intros d0.
  apply safely_bind; [apply safely_tame; tame|]. intros fd.
  apply safely_bind; [apply safely_tame; tame|]. intros _.
  apply safely_bind; [apply safely_tame; tame|]. intros _.
  apply safely_bind.
  { apply safely_when, safely_bind; [apply safely_gets|]. intros c.
    destruct (0 <=? c); [by apply safely_ipc_handle|apply safely_ipc_accept]. }
  intros _. apply safely_bind; [apply safely_tame; tame|]. intros _.
  apply safely_bind; [apply safely_tame; tame|]. intros _.
  apply safely_bind; [apply safely_tame; tame|]. intros _.
  apply safely_tame, tame_restart_xserver.
Qed.

Lemma safely_run wakes path : short_sessions → safely Good (dm_run path wakes).
Proof.
  intros Hs. induction wakes as [|wk wakes IH]; [apply safely_skip|]. cbn.
  apply safely_bind; [apply safely_gets|]. intros [|]; cbn; [|apply safely_skip].
  destruct wk as [t| |r]; [|apply safely_skip|].
  - apply safely_bind; [apply safely_tame; tame|done].
  - apply safely_bind; [by apply safely_round|done].
Qed.

(** ** Start-up and clean-up *)

(** Before any child is forked. *)
Definition Fresh (w : World) : Prop :=
  BufInv (dm w) ∧ vouched (calls w) ∧ children w = [].

Lemma Fresh_Good w : Fresh w → Good w.
Proof. intros (? & ? & E). split; [done|]. split; [done|]. rewrite E. by constructor. Qed.

Definition same_buf (f : Dm → Dm) : Prop := ∀ d,
  ipc_buf (f d) = ipc_buf d ∧ ipc_client_fd (f d) = ipc_client_fd d ∧ ipc_buf_len (f d) = ipc_buf_len d.

Lemma fresh_upd f : same_buf f → safely Fresh (upd_dm f).
Proof.
  intros Hf. apply safely_modify. intros w ((Hl & Hn) & Hv & Hc). split; [|by split].
  unfold BufInv. cbn. by destruct (Hf (dm w)) as (-> & -> & ->).
Qed.
Lemma fresh_set_if {A} (v : option A) f : (∀ a, same_buf (f a)) → safely Fresh (set_if v f).
Proof. intros Hf. destruct v; [by apply fresh_upd|apply safely_skip]. Qed.
Lemma fresh_call c : quiet c → safely Fresh (call c).
Proof.
  intros Hc w ((Hl & Hn) & Hv & He). apply wp_dcall. split; [done|]. split; [|done].
  by apply (vouched_quiet [c]); [by constructor|].
Qed.

Ltac fresh_step := lazymatch goal with
  | |- safely _ (_ ≫= _) => apply safely_bind; [|intros ?]
  | |- safely _ (set_if _ _) => apply fresh_set_if; intros ? ?; done
  | |- safely _ (upd_dm _) => apply fresh_upd; intros ?; done
  | |- safely _ (when _ _) => apply safely_when
  | |- safely _ (get_dm _) => apply safely_gets
  | |- safely _ skip => apply safely_skip
  end.

Lemma fresh_load_config path : safely Fresh (load_config path).
Proof.
  unfold load_config. apply safely_bind; [by apply fresh_call|].
  intros [root|]; [|apply safely_skip]. repeat fresh_step.
  destruct (toml_table root _); repeat fresh_step.
Qed.

Lemma tame_seat_init : tame quiet dm_seat_init.
Proof. tamed dm_seat_init. Qed.
Lemma tame_open_lid ns : tame quiet (open_lid ns).
Proof. induction ns; cbn [open_lid]; tame. Qed.
Hint Resolve tame_seat_init tame_open_lid tame_xserver_start : tame.
Lemma tame_lid_open : tame quiet linux_lid_open.
Proof. tamed linux_lid_open. Qed.
Hint Resolve tame_lid_open : tame.
Lemma tame_dbus_init : tame quiet dm_dbus_init.
Proof. tamed dm_dbus_init. Qed.
Lemma tame_start_display : tame quiet start_display.
Proof. tamed start_display. Qed.
Lemma tame_sock_path : tame quiet sock_path.
Proof. tamed sock_path. Qed.
Hint Resolve tame_dbus_init tame_start_display tame_sock_path : tame.

Lemma good_upd f : (∀ d, BufInv d → BufInv (f d) ∧ dev_mode (f d) = dev_mode d) → safely Good (upd_dm f).
Proof.
  intros Hf. apply safely_modify. intros w (Hb & Hv & Hc). destruct (Hf _ Hb) as [Hb' Hd].
  split; [done|]. split; [done|]. cbn. by rewrite Hd.
Qed.

Lemma safely_ipc_init : safely Good dm_ipc_init.
Proof.
  unfold dm_ipc_init. apply safely_bind; [apply safely_tame; tame|]. intros path.
  apply safely_bind; [apply safely_tame; tame|]. intros _.
  apply safely_bind; [apply safely_tame; tame|]. intros fd.
  destruct (fd <? 0); [apply safely_ret|]. apply safely_bind; [apply safely_tame; tame|]. intros b.
  destruct (negb b); [apply safely_tame; tame|]. apply safely_bind; [apply safely_tame; tame|]. intros _.
  apply safely_bind; [apply safely_tame; tame|]. intros l.
  destruct (negb l); [apply safely_tame; tame|]. apply safely_bind; [apply safely_tame; tame|]. intros _.
  apply safely_bind; [apply good_upd; intros d [? ?]; by split|]. intros _.
  intros w ([Hl _] & Hv & Hc). apply wp_bind, wp_modify. cbn beta. apply wp_ret.
  split; [|by split]. split; [done|]. cbn. lia.
Qed.

Lemma safely_ipc_cleanup : safely Good dm_ipc_cleanup.
Proof.
  unfold dm_ipc_cleanup. apply safely_bind; [apply safely_gets|]. intros c.
  apply safely_bind.
  { apply safely_when, safely_bind; [apply safely_tame; tame|]. intros _. apply good_upd.
    intros d [Hl _]. split; [|done]. split; [done|]. cbn. lia. }
  intros _. apply safely_tame. tame.
Qed.

Lemma safely_services : safely Good start_services.
Proof.
  unfold start_services. apply safely_bind; [apply safely_gets|]. intros dev.
  apply safely_bind; [apply safely_tame; tame|]. intros s. destruct (negb s); [apply safely_ret|].
  apply safely_bind; [apply safely_tame; tame|]. intros _.
  apply safely_bind; [apply safely_ipc_init|]. intros i. destruct (negb i); [apply safely_ret|].
  apply safely_tame. tame.
Qed.

Lemma wp_init path w :
  calls w = [] → children w = [] → wp no_fault (dm_init path) (fun _ w' => Good w') w.
Proof.
  intros Hc Hch. unfold dm_init. apply wp_bind, wp_modify. cbn beta. apply wp_bind.
  eapply wp_mono; [apply fresh_load_config|].
  { split; [|split; [|exact Hch]]; [split; [by vm_compute|by vm_compute]|].
    cbn. rewrite Hc. by intros [] ? ?. }
  cbn beta. intros _ w1 Hw%Fresh_Good.
  apply (safely_bind Good (get_dm dev_mode)); [apply safely_gets| |exact Hw]. intros dev.
  apply safely_bind; [apply safely_tame; tame|]. intros uid.
  destruct (negb _); [apply safely_ret|].
  apply safely_bind; [apply safely_tame; tamed dev_rundir|]. intros _.
  apply safely_bind; [apply safely_tame; tamed ensure_rundir|]. intros r.
  destruct (negb r); [apply safely_ret|].
  apply safely_bind; [apply safely_tame; tamed setup_signal_pipe|]. intros p.
  destruct (negb p); [apply safely_ret|]. apply safely_services.
Qed.

Lemma safely_cleanup : safely Good dm_cleanup.
Proof.
  unfold dm_cleanup. apply safely_bind; [apply safely_tame; tame|]. intros _.
  apply safely_bind; [apply safely_tame; tame|]. intros _.
  apply safely_bind; [apply safely_ipc_cleanup|]. intros _.
  apply safely_tame. unfold dm_dbus_cleanup, dm_seat_cleanup, close_if. tame.
Qed.
End Handlers.
