(* ===== verification/DmLock.v ===== *)
(** * isde-dm: what keeps the screen locked

    [guarded]: an operation leaves a locked session locked, and the session's,
    unless PAM accepts the password of the session's user meanwhile.  All
    operations but the unlocking ones are [guarded] for the simpler reason that
    they keep the lock ([lock_kept]). *)

From S2P Require Import Prelude.
From S2P Require Import CString.
From S2P Require Import CFloat.
From S2P Require Import TwoState.
From S2P Require Import LineIpc.
From S2P Require Import DesktopEntry.
From S2P Require Import DesktopClaims.
From S2P Require Import DmCore.
From S2P Require Import DmProc.
From S2P Require Import DmIpc.
From S2P Require Import DmRun.
From S2P Require Import DmSafety.
From S2P Require Import DmHandlers.
Open Scope Z_scope.

(** The lock and whose session it protects. *)
Definition lock_state (d : Dm) : bool * option text * Z := (locked d, session_user d, session_pid d).

(** A locked session stays as it is. *)
Definition lock_kept (d d' : Dm) : Prop := locked d = true → lock_state d' = lock_state d.

#[export] Instance lock_kept_preorder : PreOrder lock_kept.
Proof.
  split; [done|]. unfold lock_kept, lock_state. intros a b c H1 H2 E. specialize (H1 E).
  rewrite H2; [done|]. congruence.
Qed.

Definition lock_held (w w' : World) : Prop := lock_kept (dm w) (dm w').

#[export] Instance lock_held_preorder : PreOrder lock_held.
Proof. split; [intros w; unfold lock_held; reflexivity|]. intros a b c ? ?. unfold lock_held. by etrans. Qed.

Section Lock.
Context `{System}.

Notation holds := (steps lock_held).

Lemma holds_call c : holds (call c).
Proof. intros w. by apply wp_dcall. Qed.

Lemma holds_upd f : (∀ d, lock_kept d (f d)) → holds (upd_dm f).
Proof. intros Hf. apply steps_modify. intros w. apply Hf. Qed.

Lemma holds_fork p ch : holds (fork p ch).
Proof.
  intros w. unfold wp, fork. destruct (answer (calls w) (Fork p)); cbn; [|done].
  by destruct (ch _).
Qed.

Lemma holds_for_each {A} (l : list A) body : (∀ x, holds (body x)) → holds (for_each l body).
Proof.
  intros Hb. induction l as [|x l IH]; cbn; [apply steps_skip; apply _|].
  apply steps_bind; [apply _|apply Hb|done].
Qed.
End Lock.

(** Take a program apart down to its calls, unfolding its definitions. *)
Ltac head_of t := lazymatch t with ?f _ => head_of f | _ => t end.
Ltac holds_step :=
  lazymatch goal with
  | |- steps lock_held (call ?c) => refine (holds_call c)
  | |- steps lock_held (fork _ _) => apply holds_fork
  | |- steps lock_held (upd_dm _) => apply holds_upd; intros ? ?; done
  | |- steps lock_held (get_dm _) => apply steps_gets; apply _
  | |- steps lock_held (for_each _ _) => apply holds_for_each; intros ?
  | |- steps _ (mret _) => apply steps_ret; apply _
  | |- steps _ skip => apply steps_skip; apply _
  | |- steps _ (raise _) => apply steps_raise
  | |- steps _ (when _ _) => apply steps_when; [apply _|]
  | |- steps _ (_ ≫= _) => apply steps_bind; [apply _| |intros ?]
  | |- steps _ (if ?b then _ else _) => destruct b
  | |- steps _ (match ?x with _ => _ end) => destruct x
  | |- steps _ (let _ := _ in _) => cbv zeta
  | |- steps lock_held (A:=?T) ?m =>
      first [ solve [eauto with steps]
            | let f := head_of m in unfold f ]
  end.
Ltac holds := repeat holds_step.

Section Held.
Context `{System}.
Notation holds := (steps lock_held).

Lemma holds_wait_exit n pid : holds (wait_exit n pid).
Proof. induction n; cbn [wait_exit]; holds. Qed.
Hint Resolve holds_wait_exit : steps.
Lemma holds_greeter_stop : holds dm_greeter_stop.
Proof. holds. Qed.
Lemma holds_greeter_start : holds dm_greeter_start.
Proof. holds. Qed.
Hint Resolve holds_greeter_stop holds_greeter_start : steps.
Lemma any_outcome {A} (m : dprog A) (P : A → World → Prop) w :
  (∀ a w', P a w') → wp any_fault m P w.
Proof. unfold wp. by destruct (m w). Qed.

(** Nothing is said about an unlocked session. *)
Lemma held_unlocked {A} (m : dprog A) w :
  locked (dm w) = false → wp any_fault m (fun _ w' => lock_held w w') w.
Proof. intros El. apply any_outcome. intros _ w'. unfold lock_held, lock_kept. congruence. Qed.

Lemma holds_lock : holds dm_lock_session.
Proof.
  intros w. destruct (locked (dm w)) eqn:El; [|by apply held_unlocked].
  unfold dm_lock_session. apply wp_bind, wp_gets. cbn beta. unfold id. rewrite El.
  apply wp_ret. unfold lock_held. reflexivity.
Qed.
Hint Resolve holds_lock : steps.

Lemma holds_find_display n i : holds (find_display n i).
Proof. revert i. induction n; intros i; cbn [find_display]; holds. Qed.
Lemma holds_wait_ready n l d : holds (wait_ready n l d).
Proof. induction n; cbn [wait_ready]; holds. Qed.
Hint Resolve holds_find_display holds_wait_ready : steps.
Lemma holds_shutdown : holds dm_power_shutdown.
Proof. holds. Qed.
Lemma holds_reboot : holds dm_power_reboot.
Proof. holds. Qed.
Lemma holds_suspend : holds dm_power_suspend.
Proof. holds. Qed.
Lemma holds_send msg : holds (dm_ipc_send msg).
Proof. holds. Qed.
Hint Resolve holds_shutdown holds_reboot holds_suspend holds_send : steps.
Lemma holds_load path : holds (isde_desktop_load path).
Proof. unfold isde_desktop_load. cbn [read_file dm_files]. holds. Qed.
Hint Resolve holds_load : steps.
Lemma holds_load_all dir names : holds (load_all dir names).
Proof. induction names; cbn [load_all]; holds. Qed.
Hint Resolve holds_load_all : steps.
Lemma holds_scan dirs : holds (scan_sessions dirs).
Proof.
  induction dirs; cbn [scan_sessions]; [holds|]. unfold isde_desktop_scan_dir.
  cbn [read_dir dm_files]. holds.
Qed.
Hint Resolve holds_scan : steps.
Lemma holds_list_sessions : holds handle_list_sessions.
Proof. holds. Qed.
Lemma holds_auth_check u p : holds (dm_auth_check u p).
Proof. holds. Qed.
Hint Resolve holds_list_sessions holds_auth_check : steps.

Lemma holds_dbus path msgs : holds (dm_dbus_dispatch path msgs).
Proof. holds. Qed.
Lemma holds_seat : holds dm_seat_dispatch.
Proof. holds. Qed.
Lemma holds_lid evs : holds (handle_lid_events evs).
Proof. holds. Qed.
Lemma holds_accept : holds dm_ipc_accept.
Proof. holds. Qed.
Lemma holds_drop_client : holds drop_client.
Proof. holds. Qed.
Lemma holds_dbus_fd : holds dm_dbus_get_fd.
Proof. holds. Qed.
Lemma holds_restart_greeter : holds restart_greeter.
Proof. holds. Qed.
Lemma holds_restart_xserver : holds restart_xserver.
Proof. holds. Qed.
End Held.
#[export] Hint Resolve holds_dbus holds_seat holds_lid holds_accept holds_drop_client holds_dbus_fd
  holds_restart_greeter holds_restart_xserver holds_send holds_list_sessions holds_auth_check
  holds_shutdown holds_reboot holds_suspend : steps.

(** ** Unlocking *)

(** Between the two states PAM accepted a password and the account of [u]. *)
Definition accepted `{System} (u : text) (w w' : World) : Prop :=
  ∃ post pass mid, calls w' = post ++ PamAcctMgmt u :: PamAuthenticate u pass :: mid ++ calls w ∧
    answer (mid ++ calls w) (PamAuthenticate u pass) = PAM_SUCCESS ∧
    answer (PamAuthenticate u pass :: mid ++ calls w) (PamAcctMgmt u) = PAM_SUCCESS.

(** A locked session stays locked, unless its user's password was accepted. *)
Definition guarded `{System} (w w' : World) : Prop :=
  logs any_call calls w w' ∧
  (locked (dm w) = true → lock_state (dm w') = lock_state (dm w) ∨
    ∃ u, session_user (dm w) = Some u ∧ accepted u w w').

Lemma accepted_before `{System} u w1 w2 w3 :
  logs any_call calls w1 w2 → accepted u w2 w3 → accepted u w1 w3.
Proof.
  intros (n & E & _) (post & pass & mid & E1 & A). exists post, pass, (mid ++ n).
  rewrite <- !app_assoc, <- E. done.
Qed.

Lemma accepted_after `{System} u w1 w2 w3 :
  logs any_call calls w2 w3 → accepted u w1 w2 → accepted u w1 w3.
Proof.
  intros (n & E & _) (post & pass & mid & E1 & A). exists (n ++ post), pass, mid.
  rewrite <- !app_assoc, <- E1. done.
Qed.

#[export] Instance guarded_preorder `{System} : PreOrder guarded.
Proof.
  split; [intros w; split; [reflexivity|by left]|].
  intros a b c [L1 G1] [L2 G2]. split; [by etrans|]. intros El.
  destruct (G1 El) as [E1|(u & Eu & A)].
  - unfold lock_state in E1. injection E1 as E1 E2 E3.
    destruct G2 as [G2|(u & Eu & A)]; [congruence| |].
    + left. rewrite G2. unfold lock_state. congruence.
    + right. exists u. split; [congruence|]. by eapply accepted_before.
  - right. exists u. split; [done|]. by eapply accepted_after.
Qed.

Section Guarded.
Context `{System}.

Lemma guarded_intro w w' : logs any_call calls w w' → lock_held w w' → guarded w w'.
Proof. intros L K. split; [done|]. intros El. left. by apply K. Qed.

(** Ends without a fault, and guarded. *)
Definition guards {A} (m : dprog A) : Prop := ∀ w, wp no_fault m (fun _ w' => guarded w w') w.

Lemma guards_bind {A B} (m : dprog A) (k : A → dprog B) :
  guards m → (∀ a, guards (k a)) → guards (m ≫= k).
Proof.
  intros Hm Hk w. apply wp_bind. eapply wp_mono; [apply Hm|]. cbn beta. intros a w1 G1.
  eapply wp_mono; [apply Hk|]. cbn beta. intros b w2 G2. by etrans.
Qed.

Lemma guards_tame {A} (m : dprog A) : tame quiet m → steps lock_held m → guards m.
Proof.
  intros [_ Ht] Hs w. eapply wp_mono; [apply (wp_and _ _ _ _ _ (Ht w) (Hs w))|]. cbn beta.
  intros _ w' [[L _ _ _] K]. apply guarded_intro; [by eapply logs_weaken|done].
Qed.

Lemma wp_auth_accepted u p w :
  wp any_fault (dm_auth_check u p) (fun r w' => r = None → accepted u w w') w.
Proof.
  assert (Hf : ∀ b ret w1, wp any_fault (auth_fail u b ret) (fun r w' => r = None → accepted u w w') w1).
  { intros b ret w1. unfold auth_fail. apply wp_bind, (wp_dcall _ (PamStrerror ret)).
    apply wp_bind, any_outcome. intros _ w2. by apply wp_ret. }
  unfold dm_auth_check. apply wp_bind, (wp_dcall _ (PamStart u)).
  destruct (_ =? _); cbn [negb]; [|by apply Hf].
  apply wp_bind, (wp_dcall _ (PamAuthenticate u p)).
  destruct (_ =? _) eqn:E2; cbn [negb]; [|by apply Hf].
  apply wp_bind, (wp_dcall _ (PamAcctMgmt u)).
  destruct (answer _ (PamAcctMgmt u) =? _) eqn:E3; cbn [negb]; [|by apply Hf].
  apply wp_bind, (wp_dcall _ (PamEnd u)), wp_ret. intros _. apply Z.eqb_eq in E2, E3.
  by exists [PamEnd u], p, [PamStart u].
Qed.

(** After a successful check the lock is opened for its own user only. *)
Lemma wp_auth_succeeded_locked u w :
  locked (dm w) = true →
  wp any_fault (auth_succeeded u) (fun _ w' =>
    lock_state (dm w') = lock_state (dm w) ∨ session_user (dm w) = Some u) w.
Proof.
  intros El. unfold auth_succeeded. apply wp_bind, wp_gets. cbn beta zeta.
  apply wp_bind. eapply wp_mono; [apply holds_send|]. cbn beta. intros _ w1 K.
  specialize (K El). pose proof K as K'. unfold lock_state in K'. injection K' as E1 E2 E3.
  apply wp_bind, wp_gets. cbn beta. rewrite E1, El. apply wp_bind, wp_gets. cbn beta. rewrite E2.
  destruct (bool_decide _) eqn:Eu; cbn [when].
  - apply any_outcome. intros _ ?. right. by apply bool_decide_eq_true in Eu.
  - apply wp_ret. by left.
Qed.

Lemma wp_auth_check_guards u p w :
  wp no_fault (dm_auth_check u p) (fun r w' => guarded w w' ∧ lock_held w w' ∧
    (r = None → authenticated u (calls w') ∧ accepted u w w')) w.
Proof.
  eapply wp_mono; [apply (wp_and _ _ _ _ _
    (wp_and _ _ _ _ _ (wp_auth_check u p w) (holds_auth_check u p w)) (wp_auth_accepted u p w))|].
  cbn beta. intros r w' [[[[L _ _ _] Ha] K] A]. split; [|by auto].
  apply guarded_intro; [by eapply logs_weaken|done].
Qed.

Lemma guards_auth args : guards (handle_auth args).
Proof.
  unfold handle_auth. destruct (strchr _ args) as [rest|]; [|apply guards_tame; [tame|holds]].
  cbv zeta. destruct (decide _); [apply guards_tame; [tame|holds]|].
  destruct (decide _); [apply guards_tame; [tame|holds]|].
  intros w. apply wp_bind. eapply wp_mono; [apply wp_auth_check_guards|]. cbn beta.
  intros [err|] w1 (G1 & K1 & HA).
  - eapply wp_mono; [apply (guards_tame (dm_ipc_send _;; skip)); [tame|holds]|]. cbn beta.
    intros _ w2 G2. by etrans.
  - destruct (HA eq_refl) as [Ha A]. set (u := before _ args) in *.
    assert (Hw : wp no_fault (auth_succeeded u) (fun _ w' => trusty w1 w') w1)
      by by apply wp_auth_succeeded.
    destruct (locked (dm w)) eqn:El.
    + pose proof (K1 El) as K. unfold lock_state in K. injection K as E1 E2 E3.
      eapply wp_mono; [apply (wp_and _ _ _ _ _ Hw (wp_auth_succeeded_locked u w1 ltac:(congruence)))|].
      cbn beta. intros _ w2 [[[L2 _ _ _] _] Hl]. destruct G1 as [L1 _].
      split; [by etrans|]. intros _. destruct Hl as [Hl|Hl].
      * left. rewrite Hl. by apply K1.
      * right. exists u. split; [congruence|]. by eapply accepted_after.
    + eapply wp_mono; [exact Hw|]. cbn beta. intros _ w2 [[L2 _ _ _] _]. destruct G1 as [L1 _].
      split; [by etrans|congruence].
Qed.

(** Every message but one. *)
Lemma guards_dispatch line :
  short_sessions → line ≠ str "CANCEL_LOCK" → guards (dispatch_message line).
Proof.
  intros Hs Hl w. unfold dispatch_message. apply wp_bind, wp_gets. cbn beta. unfold id.
  destruct (has_prefix (str "AUTH ") line); [apply guards_auth|].
  rewrite (bool_decide_eq_false_2 (line = str "CANCEL_LOCK")) by done.
  repeat (match goal with |- wp _ (if ?b then _ else _) _ _ => destruct b end);
    apply guards_tame; first [by apply tame_list_sessions | by tame | by holds].
Qed.

Lemma guards_handle_all ls :
  short_sessions → str "CANCEL_LOCK" ∉ ls → guards (handle_all dispatch_message ls).
Proof.
  intros Hs. induction ls as [|l ls IH]; intros Hl; cbn; [apply guards_tame; [tame|holds]|].
  apply guards_bind; [|intros _; apply IH; set_solver].
  destruct (negb _); cbn [when]; [|apply guards_tame; [tame|holds]].
  apply guards_dispatch; [done|set_solver].
Qed.

(** ** The socket *)

(** What the next read of the greeter's socket asks for, and the lines that are
    complete when it gives [bytes]. *)
Definition socket_space (d : Dm) : Z := DM_IPC_MAX_MSG - ipc_buf_len d - 1.
Definition socket_lines (d : Dm) (bytes : list ascii) : list text :=
  fst (split_lines [] (cstr (take (Z.to_nat (ipc_buf_len d)) (ipc_buf d) ++
                             take (Z.to_nat (socket_space d)) bytes))).

(** Meanwhile the greeter's socket was read, and CANCEL_LOCK was there. *)
Definition cancelled (w w' : World) : Prop :=
  ∃ post mid bytes, let fd := ipc_client_fd (dm w) in let n := socket_space (dm w) in
    0 ≤ fd ∧ calls w' = post ++ Read fd n :: mid ++ calls w ∧
    answer (mid ++ calls w) (Read fd n) = Data bytes ∧
    str "CANCEL_LOCK" ∈ socket_lines (dm w) bytes.

(** [receive] is [guarded] when the lines it handles are. *)
Lemma wp_receive_guards data w :
  let t := cstr (take (Z.to_nat (ipc_buf_len (dm w))) (ipc_buf (dm w)) ++ data) in
  short_sessions → Good w → 0 ≤ ipc_client_fd (dm w) →
  ipc_buf_len (dm w) + Z.of_nat (length data) < 4096 →
  wp no_fault (receive dispatch_message data) (fun _ w' => logs any_call calls w w' ∧
    (str "CANCEL_LOCK" ∉ fst (split_lines [] t) → guarded w w')) w.
Proof.
  intros t Hs Hg Hcl Hdl. destruct Hg as ([Hl Hn] & _ & _). specialize (Hn Hcl).
  pose proof (receive_run dispatch_message (fun l => proj1 (sound_dispatch l Hs))
    (ipc_buf_len (dm w)) data w eq_refl (proj1 Hn)) as Hr.
  cbn [lb_buf dm_lines] in Hr. rewrite Hl in Hr. specialize (Hr ltac:(lia)). fold t in Hr.
  set (w2 := set_ll _ w) in Hr. set (ls := fst (split_lines [] t)) in *.
  assert (HR : wp no_fault (handle_all dispatch_message ls) (fun _ w' => trusty w2 w' ∧
    (str "CANCEL_LOCK" ∉ ls → guarded w2 w')) w2).
  { destruct (decide (str "CANCEL_LOCK" ∈ ls)) as [Hc|Hc].
    - eapply wp_mono; [apply sound_handle_all; exact Hs|]. by cbn.
    - eapply wp_mono; [apply (wp_and _ _ _ (fun _ w' => guarded w2 w') _
        (proj2 (sound_handle_all ls Hs) w2))|by cbn; intros _ w' []].
      pose proof (guards_handle_all ls Hs Hc w2) as Hw. unfold wp in Hw |- *. by destruct (handle_all _ _ _). }
  unfold wp in HR |- * at 1. destruct (handle_all _ _ w2) as [[] w3|f]; [|done].
  destruct HR as [[[L3 _ S3 _] _] G3]. cbn in Hr.
  destruct Hr as (B & HB & -> & _).
  { destruct S3 as [[_ E]|[_ E]]; rewrite E; cbn; lia. }
  split; [exact L3|]. intros Hc. exact (G3 Hc).
Qed.

Lemma wp_ipc_guards w :
  short_sessions → Good w →
  wp no_fault dm_ipc_handle (fun _ w' => logs any_call calls w w' ∧ (guarded w w' ∨ cancelled w w')) w.
Proof.
  intros Hs Hg.
  assert (Hq : ∀ m : dprog unit, tame quiet m → steps lock_held m →
    wp no_fault m (fun _ w' => logs any_call calls w w' ∧ (guarded w w' ∨ cancelled w w')) w).
  { intros m Ht Hh. eapply wp_mono; [by apply guards_tame|]. cbn beta. intros _ w' G.
    split; [apply G|by left]. }
  unfold dm_ipc_handle. apply wp_bind, wp_gets. cbn beta. unfold id.
  destruct (ipc_client_fd (dm w) <? 0) eqn:Ec; [apply Hq; [tame|holds]|]. apply Z.ltb_ge in Ec. cbv zeta.
  destruct (_ <=? 0) eqn:Es; [apply Hq; [tamed drop_client|holds]|].
  apply Z.leb_gt in Es. change (DM_IPC_MAX_MSG - ipc_buf_len (dm w) - 1) with (socket_space (dm w)) in *.
  apply wp_bind, (wp_dcall _ (Read (ipc_client_fd (dm w)) (socket_space (dm w)))). set (w1 := w <| calls := _ |>).
  assert (G1 : guarded w w1) by (apply guarded_intro; [by eapply logs_one|done]).
  assert (Hg1 : Good w1) by (eapply Good_trusty; [apply kept_trusty, kept_log; done|apply Hg|exact Hg]).
  assert (Hq1 : ∀ m : dprog unit, tame quiet m → steps lock_held m →
    wp no_fault m (fun _ w' => logs any_call calls w w' ∧ (guarded w w' ∨ cancelled w w')) w1).
  { intros m Ht Hh. eapply wp_mono; [by apply guards_tame|]. cbn beta. intros _ w' G.
    assert (guarded w w') by by etrans. split; [apply G1 || (etrans; [apply G1|apply G])|by left]. }
  destruct (answer _ _) as [bytes|e] eqn:Er.
  2:{ apply Hq1; [unfold drop_client; tame|holds]. }
  destruct (take (Z.to_nat (socket_space (dm w))) bytes) as [|b bs] eqn:Et;
    [apply Hq1; [tamed drop_client|holds]|].
  assert (Hdl : Z.of_nat (length (b :: bs)) ≤ socket_space (dm w)) by (rewrite <- Et, length_take; lia).
  eapply wp_mono; [apply wp_receive_guards; [done|done|exact Ec|]|].
  - change (ipc_buf_len (dm w1)) with (ipc_buf_len (dm w)). unfold socket_space, DM_IPC_MAX_MSG in *. lia.
  - cbn beta. intros _ w2 [L2 G2]. split; [etrans; [apply G1|done]|].
    destruct (decide (str "CANCEL_LOCK" ∈ socket_lines (dm w) bytes)) as [Hc|Hc].
    + right. destruct L2 as (new & E & _). exists new, [], bytes. done.
    + left. etrans; [exact G1|]. apply G2. unfold socket_lines in Hc. by rewrite Et in Hc.
Qed.

(** ** A round *)

Lemma cancelled_after w1 w2 w3 :
  logs any_call calls w2 w3 → cancelled w1 w2 → cancelled w1 w3.
Proof.
  intros (n & E & _) (post & mid & bytes & H0 & E1 & A). exists (n ++ post), mid, bytes.
  split; [done|]. by rewrite <- !app_assoc, <- E1.
Qed.

Lemma cancelled_before w1 w2 w3 :
  kept quiet w1 w2 → ipc_buf (dm w2) = ipc_buf (dm w1) → cancelled w2 w3 → cancelled w1 w3.
Proof.
  intros [(n & E & _) _ S _] Hb (post & mid & bytes & H0 & E1 & A & C).
  destruct S as [[Efd El]|[Efd _]]; [|lia]. unfold socket_lines, socket_space in *.
  rewrite Efd, El, Hb in *. exists post, (mid ++ n), bytes. rewrite <- app_assoc, <- E. done.
Qed.

(** The children that are not the session. *)
Lemma holds_reap ps w :
  Forall (fun p => Z.pos p ≠ session_pid (dm w)) ps →
  wp any_fault (reap_children ps) (fun _ w' => lock_held w w') w.
Proof.
  destruct (locked (dm w)) eqn:El; [|intros _; by apply held_unlocked].
  unfold reap_children. revert w El. induction ps as [|p ps IH]; intros w El Hp; cbn [for_each].
  { apply wp_ret. unfold lock_held. reflexivity. }
  apply Forall_cons in Hp as [Hp Hps].
  apply wp_bind, wp_bind, (wp_dcall _ WaitAny). set (w1 := w <| calls := _ |>).
  apply (wp_mono _ _ (fun _ w' => lock_held w w')).
  { unfold reap_child. apply wp_bind, wp_gets. cbn beta zeta. unfold id.
    destruct (_ =? _); [by apply wp_modify|]. destruct (_ =? greeter_pid _); [by apply wp_modify|].
    change (session_pid (dm w1)) with (session_pid (dm w)).
    rewrite (proj2 (Z.eqb_neq _ _) Hp). by apply wp_ret. }
  cbn beta. intros _ w2 K. pose proof (K El) as K'. unfold lock_state in K'. injection K' as E1 E2 E3.
  eapply wp_mono; [apply IH; [congruence|by rewrite E3]|]. cbn beta. intros _ w3 K3.
  unfold lock_held in *. by etrans.
Qed.

(** Before the socket is read: the lock held, the line as it was or closed. *)
Definition undisturbed (w w' : World) : Prop :=
  Good w' ∧ kept quiet w w' ∧ ipc_buf (dm w') = ipc_buf (dm w) ∧ lock_held w w'.

Lemma undisturbed_trans a b c : undisturbed a b → undisturbed b c → undisturbed a c.
Proof.
  intros (_ & K1 & B1 & L1) (G & K2 & B2 & L2). split; [done|]. split; [by etrans|].
  split; [congruence|]. by etrans.
Qed.

Lemma undisturbed_guarded w w' : undisturbed w w' → guarded w w'.
Proof. intros (_ & [L _ _ _] & _ & K). apply guarded_intro; [by eapply logs_weaken|done]. Qed.

Lemma wp_undisturbed {A} (m : dprog A) w :
  Good w → tame quiet m → wp any_fault m (fun _ w' => lock_held w w') w →
  wp no_fault m (fun _ w' => undisturbed w w') w.
Proof.
  intros Hg [Hb Ht] Hh.
  eapply wp_mono; [apply (wp_and _ _ _ _ _ (blind_same m _ _ w Hb (Ht w)) Hh)|].
  cbn beta. intros _ w' [[Hbuf K] L]. split; [|done].
  eapply Good_trusty; [by apply kept_trusty|eapply BufInv_kept; [apply Hg|done|done]|done].
Qed.

Lemma wp_reap_undisturbed r w :
  Good w → (∀ ps, r_children r = Some ps → Forall (fun p => Z.pos p ≠ session_pid (dm w)) ps) →
  wp no_fault (match r_children r with Some pids => reap_children pids | None => skip end)
    (fun _ w' => undisturbed w w') w.
Proof.
  intros Hg Hp. apply wp_undisturbed; [done|tame|].
  destruct (r_children r) as [ps|]; [by apply holds_reap, Hp|].
  apply wp_ret. unfold lock_held. reflexivity.
Qed.

(** The part of a round that follows the socket. *)
Lemma guards_after path bus_fd d0 r :
  guards (match r_bus r with
          | Some msgs => when (0 <=? bus_fd) (dm_dbus_dispatch path msgs)
          | None => skip
          end;;
          match r_lid r with
          | Some evs => when (0 <=? lid_fd d0) (handle_lid_events evs)
          | None => skip
          end;;
          restart_greeter;;
          restart_xserver).
Proof. apply guards_tame; [tame|holds]. Qed.

Lemma wp_socket_guards d0 r w :
  short_sessions → Good w →
  wp no_fault (when (((0 <=? ipc_client_fd d0) || (0 <=? ipc_listen_fd d0)) && r_ipc r) (
    c ← get_dm ipc_client_fd;
    if 0 <=? c then dm_ipc_handle else dm_ipc_accept))
    (fun _ w' => logs any_call calls w w' ∧ (guarded w w' ∨ cancelled w w')) w.
Proof.
  intros Hs Hg. destruct (_ && _); cbn [when].
  2:{ apply wp_ret. split; [reflexivity|]. left. reflexivity. }
  apply wp_bind, wp_gets. cbn beta. destruct (0 <=? _); [by apply wp_ipc_guards|].
  eapply wp_mono.
  - apply (wp_and _ _ (fun _ w' => logs any_call calls w w') (fun _ w' => lock_held w w') w); [|apply holds_accept].
    unfold dm_ipc_accept.
    apply wp_bind, wp_gets. cbn beta. apply wp_bind, (wp_dcall _ (Accept _)).
    destruct (_ <? 0); [apply wp_ret; by eapply logs_one|]. apply wp_bind, wp_gets. cbn beta.
    apply wp_bind. eapply (wp_tame quiet); [tame|]. intros _ w2 [L _ _ _].
    apply wp_bind, wp_modify. cbn beta. apply wp_modify. cbn.
    etrans; [by eapply (logs_one _ _ w (w <| calls := _ |>))|]. eapply logs_weaken; [|exact L]. done.
  - cbn beta. intros _ w' [L K]. split; [done|]. left. by apply guarded_intro.
Qed.
End Guarded.
