(* ===== verification/DmAlive.v ===== *)
(** * isde-dm: someone to talk to

    On a machine where processes can be forked and the X server comes up, every
    round of the main loop ends with an X server and with a greeter or a
    session.  The exception is a greeter that dies while the session is locked. *)

From S2P Require Import Prelude.
From S2P Require Import CString.
From S2P Require Import CFloat.
From S2P Require Import TwoState.
From S2P Require Import LineIpc.
From S2P Require Import DesktopEntry.
From S2P Require Import DmCore.
From S2P Require Import DmProc.
From S2P Require Import DmIpc.
From S2P Require Import DmRun.
From S2P Require Import DmSafety.
From S2P Require Import DmHandlers.
From S2P Require Import DmLock.
Open Scope Z_scope.

(** Forks succeed, /dev/urandom has 16 bytes, the Xauthority file can be written
    and the X server that was started accepts connections. *)
Record healthy `{System} : Prop := mkHealthy {
  forks h p : is_Some (answer h (Fork p));
  opens h path c : 0 ≤ answer h (Open path c);
  entropy h fd : ∃ b, answer (Open (str "/dev/urandom") false :: h) (Read fd 16) = Data b ∧
                   (16 ≤ length b)%nat;
  locks h path : answer h (Access path) = true;
  connects h disp : answer h (XcbConnect disp) = true
}.

(** An X server, and a greeter or a session. *)
Definition attended (d : Dm) : Prop :=
  xserver_pid d ≠ 0 ∧ (greeter_pid d ≠ 0 ∨ session_pid d ≠ 0).

Section Alive.
Context `{System}.

(** ** The mode does not change *)

Definition same_mode (w w' : World) : Prop := dev_mode (dm w') = dev_mode (dm w).

#[export] Instance same_mode_preorder : PreOrder same_mode := same_preorder (fun w => dev_mode (dm w)).

Lemma mode_tame {A} (m : dprog A) : tame quiet m → steps same_mode m.
Proof.
  intros [_ Ht] w. specialize (Ht w). unfold wp in *. destruct (m w); [apply Ht|done].
Qed.

Lemma mode_sound {A} (m : dprog A) : sound m → steps same_mode m.
Proof.
  intros [_ Ht] w. specialize (Ht w). unfold wp in *. destruct (m w); [apply Ht|done].
Qed.

Lemma mode_ipc_handle : short_sessions → steps same_mode dm_ipc_handle.
Proof.
  intros Hs. unfold dm_ipc_handle. apply steps_bind; [apply _|apply steps_gets; apply _|]. intros d.
  destruct (_ <? 0); [apply steps_skip; apply _|]. cbv zeta.
  destruct (_ <=? 0); [apply mode_tame; tamed drop_client|].
  apply steps_bind; [apply _|by intros w|]. intros [bytes|e]; [|apply mode_tame; unfold drop_client; tame].
  destruct (take _ bytes); [apply mode_tame; tamed drop_client|].
  apply steps_receive; [apply _| |done..]. intros ?. by apply mode_sound, sound_dispatch.
Qed.

Lemma mode_accept : steps same_mode dm_ipc_accept.
Proof.
  unfold dm_ipc_accept. steps; try (apply steps_modify; done); by intros w.
Qed.

(** The part of a round before the end. *)
Lemma mode_socket (b : bool) : short_sessions →
  steps same_mode (when b (c ← get_dm ipc_client_fd; if 0 <=? c then dm_ipc_handle else dm_ipc_accept)).
Proof.
  intros Hs. apply steps_when; [apply _|]. apply steps_bind; [apply _|apply steps_gets; apply _|].
  intros c. destruct (0 <=? c); [by apply mode_ipc_handle|apply mode_accept].
Qed.

(** ** Starting what is missing *)

Context (Hh : healthy).

Lemma wp_healthy_fork p ch w :
  tame any_call ch →
  wp no_fault (fork p ch) (fun pid w' => 0 < pid ∧ dm w' = dm w) w.
Proof.
  intros [_ Ht]. specialize (Ht (w <| calls := Fork p :: calls w |>)). unfold wp, fork in *.
  destruct (forks Hh (calls w) p) as [pid ->]. destruct (ch _); [|done]. split; [lia|done].
Qed.

Lemma wp_greeter_start w :
  wp no_fault dm_greeter_start (fun _ w' => greeter_pid (dm w') ≠ 0 ∧
    xserver_pid (dm w') = xserver_pid (dm w) ∧ session_pid (dm w') = session_pid (dm w) ∧
    running (dm w') = running (dm w)) w.
Proof.
  unfold dm_greeter_start. apply wp_bind, wp_gets. cbn beta. unfold id.
  destruct (0 <? greeter_pid (dm w)) eqn:E; [apply wp_ret; split; [lia|done]|].
  apply wp_bind. eapply wp_mono; [apply wp_healthy_fork; tame|]. cbn beta. intros pid w1 [Hp Hd].
  rewrite (proj2 (Z.ltb_ge _ _)) by lia. apply wp_bind, wp_modify. cbn beta. apply wp_ret.
  cbn. rewrite Hd. split; [lia|done].
Qed.

Lemma wp_restart_greeter w :
  wp no_fault restart_greeter (fun _ w' =>
    (xserver_pid (dm w) ≠ 0 → attended (dm w')) ∧ xserver_pid (dm w') = xserver_pid (dm w) ∧
    running (dm w') = running (dm w) ∧ dev_mode (dm w') = dev_mode (dm w)) w.
Proof.
  eapply wp_mono; [apply (wp_and _ _ (fun _ w' => (xserver_pid (dm w) ≠ 0 → attended (dm w')) ∧
    xserver_pid (dm w') = xserver_pid (dm w) ∧ running (dm w') = running (dm w)) (fun _ w' => same_mode w w') w);
    [|apply (mode_tame _ (tame_restart_greeter quiet idle_quiet))]|].
  2:{ cbn beta. intros _ w' [(A & B & C) D]. exact (conj A (conj B (conj C D))). }
  unfold restart_greeter. apply wp_bind, wp_gets. cbn beta. unfold id, attended.
  destruct (greeter_pid (dm w) =? 0) eqn:E1; [|apply wp_ret; apply Z.eqb_neq in E1; tauto].
  destruct (session_pid (dm w) =? 0) eqn:E2; [|apply wp_ret; apply Z.eqb_neq in E2; tauto].
  destruct (xserver_pid (dm w) =? 0) eqn:E3; cbn [negb andb when].
  { apply Z.eqb_eq in E3. by apply wp_ret. }
  apply wp_bind. eapply wp_mono; [apply wp_greeter_start|]. cbn beta. intros _ w1 (A & B & C & D).
  apply wp_ret. rewrite B. tauto.
Qed.

Lemma wp_generate_xauth w :
  wp no_fault generate_xauth (fun ok w' => ok = true ∧ dev_mode (dm w') = dev_mode (dm w) ∧
    running (dm w') = running (dm w)) w.
Proof.
  unfold generate_xauth. apply wp_bind, (wp_dcall _ (Open _ _)).
  set (w1 := w <| calls := _ |>). set (fd := answer _ _). assert (Hfd : 0 ≤ fd) by apply Hh.
  rewrite (proj2 (Z.ltb_ge _ _) Hfd). apply wp_bind, (wp_dcall _ (Read fd 16)).
  destruct (entropy Hh (calls w) fd) as (b & Eb & Hb). change (calls w1) with (Open (str "/dev/urandom") false :: calls w).
  rewrite Eb. cbv zeta. apply wp_bind, wp_modify. cbn beta. apply wp_bind, (wp_dcall _ (Close fd)).
  rewrite length_take, Nat.min_l by done. cbn [Nat.eqb negb].
  apply wp_bind, wp_gets. cbn beta zeta. apply wp_bind, wp_modify. cbn beta.
  apply wp_bind, (wp_dcall _ (Open _ true)). set (fd2 := answer _ _). assert (Hfd2 : 0 ≤ fd2) by apply Hh.
  rewrite (proj2 (Z.ltb_ge _ _) Hfd2). apply wp_bind, (wp_dcall _ (Write fd2 _)).
  apply wp_bind, (wp_dcall _ (Close fd2)). by apply wp_ret.
Qed.

Lemma wp_xserver_start vt w :
  dev_mode (dm w) = false →
  wp no_fault (dm_xserver_start vt) (fun ok w' => ok = true ∧ xserver_pid (dm w') ≠ 0 ∧
    running (dm w') = running (dm w)) w.
Proof.
  intros Ed. unfold dm_xserver_start. apply wp_bind, wp_gets. cbn beta. rewrite Ed. unfold launch_xserver.
  apply wp_bind, wp_modify. cbn beta. apply wp_bind. eapply wp_mono; [apply wp_generate_xauth|].
  cbn beta. intros ok w1 (-> & E1 & E2). cbn [negb].
  apply wp_bind. eapply wp_mono; [apply wp_healthy_fork; tame|]. cbn beta. intros pid w2 [Hp Hd].
  rewrite (proj2 (Z.ltb_ge _ _)) by lia. apply wp_bind, wp_modify. cbn beta. apply wp_ret.
  split; [done|]. cbn. rewrite Hd. split; [lia|exact E2].
Qed.

Lemma wp_xserver_ready w :
  wp no_fault dm_xserver_ready (fun ok w' => ok = true ∧ dm w' = dm w) w.
Proof.
  unfold dm_xserver_ready. apply wp_bind, wp_gets. cbn beta. apply wp_bind, (wp_dcall _ (Setenv _ _)).
  cbn [wait_ready]. apply wp_bind, (wp_dcall _ (Access _)). rewrite (locks Hh).
  apply wp_bind, (wp_dcall _ (XcbConnect _)). rewrite (connects Hh). by apply wp_ret.
Qed.

Lemma wp_restart_xserver w :
  dev_mode (dm w) = false → (xserver_pid (dm w) ≠ 0 → attended (dm w)) →
  wp no_fault restart_xserver (fun _ w' => running (dm w') = true → attended (dm w')) w.
Proof.
  intros Ed Ha. unfold restart_xserver. apply wp_bind, wp_gets. cbn beta. unfold id.
  destruct (xserver_pid (dm w) =? 0) eqn:Ex; cbn [andb].
  2:{ apply wp_ret. intros _. apply Ha. by apply Z.eqb_neq in Ex. }
  destruct (running (dm w)) eqn:Er; cbn [when]; [|apply wp_ret; congruence].
  apply wp_bind. eapply (wp_tame quiet); [tame|]. intros _ w1 [_ D1 _ _].
  apply wp_bind, wp_gets. cbn beta. apply wp_bind.
  eapply wp_mono; [apply wp_xserver_start; congruence|]. cbn beta. intros ok w2 (-> & X2 & R2). cbn [when].
  apply wp_bind. eapply wp_mono; [apply wp_xserver_ready|]. cbn beta. intros ok w3 [-> D3]. cbn [when].
  apply wp_bind. eapply wp_mono; [apply wp_greeter_start|]. cbn beta. intros _ w4 (A & B & C & D).
  apply wp_ret. intros _. split; [by rewrite B, D3|by left].
Qed.
End Alive.

(** ** A lock screen that is lost *)

(** Locked, with nothing on the screen to unlock it. *)
Definition unattended_lock (d : Dm) : Prop :=
  locked d = true ∧ greeter_pid d = 0 ∧ xserver_pid d ≠ 0 ∧ session_pid d ≠ 0.

Definition lock_message (m : BusMessage) : Prop :=
  d_member m = Some (str "Lock") ∧ d_interface m = Some DM_DBUS_INTERFACE.

(** Nothing happens, or the session is to be locked. *)
Definition lock_wake (wk : wake) : Prop :=
  match wk with
  | Ready r => r_children r = None ∧ r_seat r = false ∧ r_ipc r = false ∧ r_lid r = None ∧
      from_option (Forall lock_message) True (r_bus r)
  | _ => False
  end.

Section Lost.
Context `{System} (path : text).

Lemma wp_lock_message m w :
  lock_message m → unattended_lock (dm w) → wp no_fault (handle_method path m) (fun _ w' => dm w' = dm w) w.
Proof.
  intros [Em Ei] [El _]. unfold handle_method. destruct (d_method_call m); cbn [negb]; [|by apply wp_ret].
  rewrite Em, Ei. rewrite bool_decide_eq_false_2 by done. cbn [andb].
  rewrite bool_decide_eq_true_2 by done. cbn [negb]. unfold method_reply, dm_lock_session.
  apply wp_bind, wp_bind, wp_gets. cbn beta. rewrite bool_decide_eq_true_2 by done.
  apply wp_bind, wp_bind, wp_gets. cbn beta. unfold id. rewrite El.
  apply wp_ret. cbn beta. apply wp_ret. by apply (wp_dcall _ (BusReply Empty)).
Qed.

Lemma wp_lock_messages msgs w :
  Forall lock_message msgs → unattended_lock (dm w) →
  wp no_fault (for_each msgs (handle_method path)) (fun _ w' => dm w' = dm w) w.
Proof.
  intros Hm. revert w. induction Hm as [|m msgs Hm _ IH]; intros w Hu; cbn [for_each]; [by apply wp_ret|].
  apply wp_bind. eapply wp_mono; [by apply wp_lock_message|]. cbn beta. intros _ w1 E1.
  eapply wp_mono; [apply IH; by rewrite E1|]. cbn beta. intros _ w2 ->. done.
Qed.

Lemma wp_unattended_restart w :
  unattended_lock (dm w) → wp no_fault (restart_greeter;; restart_xserver) (fun _ w' => w' = w) w.
Proof.
  intros (_ & _ & Ex & Es). unfold restart_greeter, restart_xserver.
  apply wp_bind, wp_bind, wp_gets. cbn beta. unfold id.
  rewrite (proj2 (Z.eqb_neq _ _) Es), andb_false_r. apply wp_ret, wp_bind, wp_gets. cbn beta.
  rewrite (proj2 (Z.eqb_neq _ _) Ex). by apply wp_ret.
Qed.

Lemma wp_lock_round r w :
  lock_wake (Ready r) → unattended_lock (dm w) →
  wp no_fault (dm_round path r) (fun _ w' => dm w' = dm w) w.
Proof.
  intros (Ec & Es & Ei & El & Eb) Hu. unfold dm_round. rewrite Ec, Es, Ei, El.
  apply wp_bind, wp_gets. cbn beta. unfold id. rewrite !andb_false_r. cbn [when]. apply wp_bind.
  apply (wp_mono _ _ (fun _ w' => dm w' = dm w)).
  { unfold dm_dbus_get_fd. apply wp_bind, wp_gets. cbn beta.
    destruct (negb _); [by apply wp_ret|by apply (wp_dcall _ BusGetFd)]. }
  cbn beta. intros fd w1 E1. do 3 apply wp_bind, wp_ret. apply wp_bind.
  apply (wp_mono _ _ (fun _ w' => dm w' = dm w)).
  { destruct (r_bus r) as [msgs|]; [|by apply wp_ret]. destruct (0 <=? fd); cbn [when]; [|by apply wp_ret].
    unfold dm_dbus_dispatch. apply wp_bind, wp_gets. cbn beta. destruct (dbus _); cbn [when]; [|by apply wp_ret].
    eapply wp_mono; [apply wp_lock_messages; [done|by rewrite E1]|]. cbn beta. intros _ w2 ->. done. }
  cbn beta. intros _ w2 E2. apply wp_bind, wp_ret.
  eapply wp_mono; [apply wp_unattended_restart; by rewrite E2|]. cbn beta. intros _ w3 ->. done.
Qed.

Lemma wp_lock_run wakes w :
  Forall lock_wake wakes → unattended_lock (dm w) →
  wp no_fault (dm_run path wakes) (fun _ w' => dm w' = dm w) w.
Proof.
  intros Hw. revert w. induction Hw as [|wk wakes Hwk _ IH]; intros w Hu; cbn [dm_run]; [by apply wp_ret|].
  apply wp_bind, wp_gets. cbn beta. destruct (negb _); [by apply wp_ret|].
  destruct wk as [t| |r]; [done..|].
  apply wp_bind. eapply wp_mono; [by apply wp_lock_round|]. cbn beta. intros _ w1 E1.
  eapply wp_mono; [apply IH; by rewrite E1|]. cbn beta. intros _ w2 ->. done.
Qed.

(** The greeter's death is noticed, and no more. *)
Lemma wp_greeter_dies p w :
  locked (dm w) = true → greeter_pid (dm w) = Z.pos p → xserver_pid (dm w) ≠ 0 →
  xserver_pid (dm w) ≠ Z.pos p → session_pid (dm w) ≠ 0 →
  wp no_fault (dm_round path (mkReady (Some [p]) false false None None))
    (fun _ w' => dm w' = (dm w) <| greeter_pid := 0 |>) w.
Proof.
  intros El Eg Ex Ep Es. unfold dm_round. cbn [r_children r_seat r_ipc r_bus r_lid].
  apply wp_bind, wp_gets. cbn beta. unfold id. rewrite !andb_false_r. cbn [when]. apply wp_bind.
  apply (wp_mono _ _ (fun _ w' => dm w' = dm w)).
  { unfold dm_dbus_get_fd. apply wp_bind, wp_gets. cbn beta.
    destruct (negb _); [by apply wp_ret|by apply (wp_dcall _ BusGetFd)]. }
  cbn beta. intros fd w1 E1. apply wp_bind. unfold reap_children. cbn [for_each].
  apply wp_bind, wp_bind, (wp_dcall _ WaitAny). unfold reap_child.
  apply wp_bind, wp_gets. cbn beta zeta. unfold id. set (w2 := w1 <| calls := _ |>).
  assert (E2 : dm w2 = dm w) by exact E1. rewrite E2.
  rewrite (proj2 (Z.eqb_neq _ _)) by congruence. rewrite Eg, Z.eqb_refl. apply wp_modify. cbn beta.
  apply wp_ret. do 4 apply wp_bind, wp_ret. set (w3 := w2 <| dm := _ |>).
  assert (E3 : dm w3 = (dm w) <| greeter_pid := 0 |>) by (rewrite <- E2; done).
  eapply wp_mono; [apply wp_unattended_restart; rewrite E3; by repeat split|]. cbn beta.
  intros _ w4 ->. done.
Qed.
End Lost.

