(* ===== verification/DmGreeter.v ===== *)
(** * isde-greeter (dm/src/greeter)

    The login screen: its connection to the daemon, the login and power
    buttons, the lock mode, the list of sessions.  Widgets, the socket and the
    files are calls, recorded in order and answered by [Desk]. *)

From S2P Require Import Prelude.
From S2P Require Import CString.
From S2P Require Import CFloat.
From S2P Require Import LineIpc.
From S2P Require Import DesktopEntry.
From S2P Require Import DmCore.
From S2P Require Import DmIpc.
Open Scope Z_scope.

Record GreeterSession := mkSession { s_name : text; s_desktop_file : text }.

Record Greeter := mkGreeter {
  sessions : list GreeterSession;
  active_session : Z;
  g_shutdown_btn : bool;
  g_reboot_btn : bool;
  g_suspend_btn : bool;
  ipc_fd : Z;
  g_ipc_buf : list ascii;
  g_ipc_buf_len : Z;
  mode_lock : bool;
  lock_user : option text;
  g_running : bool
}.
#[export] Instance greeter_eta : RecEta Greeter := Build_RecEta _ (fun g =>
  mkGreeter (sessions g) (active_session g) (g_shutdown_btn g) (g_reboot_btn g) (g_suspend_btn g)
    (ipc_fd g) (g_ipc_buf g) (g_ipc_buf_len g) (mode_lock g) (lock_user g) (g_running g)).

Inductive widget := UserText | PassText | SessionLabel | SessionBtn | ShutdownBtn | RebootBtn
  | SuspendBtn | ErrorLabel.

Inductive gcall :=
  | GetText (w : widget) | SetText (w : widget) (s : text) | SetSensitive (w : widget) (b : bool)
  | SetFocus (w : widget) | Manage (w : widget) (b : bool) | IsRealized
  | FocusShell | Grab | Ungrab
  | GGetenv (name : text) | GSocket | GConnect (path : text) | GClose (fd : Z)
  | GRead (fd n : Z) | GSendAll (fd : Z) (bytes : list ascii)
  | GReadFile (path : text) | GReadDir (path : text).

Definition gresult (c : gcall) : Type :=
  match c with
  | GetText _ => option text
  | IsRealized => bool
  | GGetenv _ => option text
  | GSocket => Z
  | GConnect _ => bool
  | GRead _ _ => read_result
  | GSendAll _ _ => list write_result
  | GReadFile _ => option text
  | GReadDir _ => option (list text)
  | _ => unit
  end.

Class Desk := reply_to : ∀ (h : list gcall) (c : gcall), gresult c.

Record Screen := mkScreen { gr : Greeter; gcalls : list gcall }.
#[export] Instance screen_eta : RecEta Screen := Build_RecEta _ (fun w => mkScreen (gr w) (gcalls w)).

Abbreviation gprog := (prog Screen).

Definition gdo `{Desk} (c : gcall) : gprog (gresult c) := fun w =>
  Ok (reply_to (gcalls w) c) (w <| gcalls := c :: gcalls w |>).
Definition get_gr {A} (f : Greeter → A) : gprog A := gets (fun w => f (gr w)).
Definition upd_gr (f : Greeter → Greeter) : gprog unit := modify (fun w => w <| gr := f (gr w) |>).

#[export] Instance greeter_files `{Desk} : FileSystem Screen := {|
  read_file p := gdo (GReadFile p);
  read_dir p := gdo (GReadDir p)
|}.

(** The receive buffer of [ipc_input_cb]. *)
#[export, refine] Instance greeter_lines : LineBuffer Screen := {|
  lb_buf w := g_ipc_buf (gr w);
  lb_len w := g_ipc_buf_len (gr w);
  set_lb b w := w <| gr := (gr w) <| g_ipc_buf := b |> |>;
  set_ll n w := w <| gr := (gr w) <| g_ipc_buf_len := n |> |>
|}.
Proof. all: try done; by intros [[] ?]. Defined.

Section Greeter.
Context `{Desk}.

(** ** ipc.c *)

Definition greeter_ipc_init : gprog bool :=
  p ← gdo (GGetenv (str "ISDE_DM_SOCK"));
  match p with
  | None | Some [] => mret false
  | Some sock_path =>
    fd ← gdo GSocket;
    if fd <? 0 then mret false
    else
      ok ← gdo (GConnect (trunc 108 sock_path));
      if negb ok then gdo (GClose fd);; mret false
      else
        upd_gr (fun g => g <| ipc_fd := fd |>);;
        upd_gr (fun g => g <| g_ipc_buf_len := 0 |>);;
        mret true
  end.

Definition greeter_ipc_cleanup : gprog unit :=
  fd ← get_gr ipc_fd;
  when (0 <=? fd) (gdo (GClose fd);; upd_gr (fun g => g <| ipc_fd := -1 |>)).

Definition greeter_ipc_send (msg : text) : gprog Z :=
  fd ← get_gr ipc_fd;
  if fd <? 0 then mret (-1)
  else if 4096 <? Z.of_nat (length msg) + 1 then mret (-1)
  else
    rs ← gdo (GSendAll fd (msg ++ [LF]));
    mret (write_loop rs 0 (Z.of_nat (length msg) + 1)).

(** ** greeter.c: messages on the screen *)

Definition greeter_set_error (msg : text) : gprog unit := gdo (SetText ErrorLabel msg).
Definition greeter_clear_error : gprog unit := gdo (SetText ErrorLabel (str " ")).

(** ** greeter.c: callbacks *)

(** The message that selects the session, when there is one. *)
Definition send_session : gprog unit :=
  g ← get_gr id;
  when ((0 <=? active_session g) && (active_session g <? Z.of_nat (length (sessions g)))) (
    match sessions g !! Z.to_nat (active_session g) with
    | Some s => greeter_ipc_send (trunc 512 (str "SESSION " ++ s_desktop_file s));; skip
    | None => raise OutOfBounds
    end).

Definition login_cb : gprog unit :=
  username ← gdo (GetText UserText);
  password ← gdo (GetText PassText);
  match username with
  | None | Some [] => greeter_set_error (str "Username is required")
  | Some username =>
    greeter_clear_error;;
    send_session;;
    greeter_ipc_send (trunc 2048 (str "AUTH " ++ username ++ str " " ++ default [] password));;
    skip
  end.

Definition shutdown_cb : gprog unit := greeter_ipc_send (str "SHUTDOWN");; skip.
Definition reboot_cb : gprog unit := greeter_ipc_send (str "REBOOT");; skip.
Definition suspend_cb : gprog unit := greeter_ipc_send (str "SUSPEND");; skip.

Definition session_dropdown_cb (index : Z) : gprog unit :=
  n ← get_gr (fun g => Z.of_nat (length (sessions g)));
  when ((0 <=? index) && (index <? n)) (upd_gr (fun g => g <| active_session := index |>)).

(** ** greeter.c: modes *)

Definition apply_x_focus : gprog unit :=
  l ← get_gr mode_lock;
  gdo (SetFocus (if l then PassText else UserText));;
  gdo FocusShell;;
  when l (gdo Grab).

(** The power buttons that there are. *)
Definition manage_power (shown : bool) : gprog unit :=
  g ← get_gr id;
  when (g_shutdown_btn g) (gdo (Manage ShutdownBtn shown));;
  when (g_reboot_btn g) (gdo (Manage RebootBtn shown));;
  when (g_suspend_btn g) (gdo (Manage SuspendBtn shown)).

Definition greeter_enter_lock_mode (username : text) : gprog unit :=
  upd_gr (fun g => g <| mode_lock := true |>);;
  upd_gr (fun g => g <| lock_user := Some username |>);;
  gdo (SetText UserText username);;
  gdo (SetSensitive UserText false);;
  gdo (SetText PassText []);;
  gdo (SetFocus PassText);;
  gdo (Manage SessionLabel false);;
  gdo (Manage SessionBtn false);;
  manage_power false;;
  greeter_clear_error;;
  r ← gdo IsRealized;
  when (r : bool) apply_x_focus.

Definition greeter_enter_login_mode : gprog unit :=
  upd_gr (fun g => g <| mode_lock := false |>);;
  upd_gr (fun g => g <| lock_user := None |>);;
  gdo (SetText UserText []);;
  gdo (SetSensitive UserText true);;
  gdo (SetText PassText []);;
  gdo (Manage SessionLabel true);;
  gdo (Manage SessionBtn true);;
  manage_power true;;
  greeter_clear_error;;
  gdo Ungrab.

(** ** greeter.c: what the daemon says *)

Definition handle_ipc_line (line : text) : gprog unit :=
  if bool_decide (line = str "AUTH_OK") then upd_gr (fun g => g <| g_running := false |>)
  else if has_prefix (str "AUTH_FAIL ") line then
    greeter_set_error (drop 10 line);;
    gdo (SetText PassText [])
  else if has_prefix (str "MODE_LOCK ") line then greeter_enter_lock_mode (drop 10 line)
  else if bool_decide (line = str "MODE_LOGIN") then greeter_enter_login_mode
  else skip.

Definition ipc_input_cb : gprog unit :=
  g ← get_gr id;
  let space := s32 (4096 - g_ipc_buf_len g - 1) in
  if space <=? 0 then upd_gr (fun g => g <| g_ipc_buf_len := 0 |>)
  else
    r ← gdo (GRead (ipc_fd g) space);
    match r with
    | ReadErr _ => upd_gr (fun g => g <| g_running := false |>)
    | Data bytes =>
      match take (Z.to_nat space) bytes with
      | [] => upd_gr (fun g => g <| g_running := false |>)
      | bytes => receive handle_ipc_line bytes
      end
    end.

(** ** sessions.c *)

(** The entries with a name; the identifier is never NULL. *)
Definition session_of (e : IsdeDesktopEntry) : list GreeterSession :=
  match e_name e with Some n => [mkSession n (desktop_id e)] | None => [] end.

Fixpoint load_sessions (dirs : list text) : gprog (list GreeterSession) :=
  match dirs with
  | [] => mret []
  | dir :: dirs' =>
    es ← isde_desktop_scan_dir (trunc 512 (dir ++ str "/xsessions"));
    rest ← load_sessions dirs';
    mret (concat (map session_of es) ++ rest)
  end.

Definition data_dirs : gprog text :=
  v ← gdo (GGetenv (str "XDG_DATA_DIRS"));
  mret (match v with
        | Some v => if is_nonempty v then v else str "/usr/local/share:/usr/share"
        | None => str "/usr/local/share:/usr/share"
        end).

Definition greeter_sessions_load : gprog unit :=
  dp ← data_dirs;
  ss ← load_sessions (colon_dirs [] dp);
  let ss := match ss with [] => [mkSession (str "Default") (str "isde-x11.desktop")] | _ => ss end in
  upd_gr (fun g => g <| sessions := ss |>);;
  upd_gr (fun g => g <| active_session := 0 |>).

Definition greeter_sessions_cleanup : gprog unit := upd_gr (fun g => g <| sessions := [] |>).

(** ** greeter.c and main.c: start-up and the loop *)

(** The zeroed state; a power button is there when the configuration allows it. *)
Definition initial_greeter (shutdown reboot suspend : bool) : Greeter :=
  mkGreeter [] 0 shutdown reboot suspend (-1) (repeat NUL 4096) 0 false None false.

Definition greeter_init (shutdown reboot suspend : bool) : gprog bool :=
  upd_gr (fun _ => initial_greeter shutdown reboot suspend);;
  greeter_sessions_load;;
  gdo (SetFocus UserText);;
  ok ← greeter_ipc_init;
  if negb ok then mret false
  else upd_gr (fun g => g <| g_running := true |>);; mret true.

Inductive gevent := Mapped | LoginPressed | ShutdownPressed | RebootPressed | SuspendPressed
  | SessionChosen (index : Z) | DaemonReady | Signalled.

Definition greeter_event (e : gevent) : gprog unit :=
  match e with
  | Mapped => apply_x_focus
  | LoginPressed => login_cb
  | ShutdownPressed => shutdown_cb
  | RebootPressed => reboot_cb
  | SuspendPressed => suspend_cb
  | SessionChosen i => session_dropdown_cb i
  | DaemonReady => ipc_input_cb
  | Signalled => upd_gr (fun g => g <| g_running := false |>)
  end.

Fixpoint greeter_run (evs : list gevent) : gprog unit :=
  match evs with
  | [] => skip
  | e :: evs' =>
    go ← get_gr g_running;
    when go (greeter_event e;; greeter_run evs')
  end.

Definition greeter_cleanup : gprog unit := greeter_ipc_cleanup;; greeter_sessions_cleanup.

(** The user after the first [--lock] that has an argument behind it. *)
Fixpoint lock_argument (argv : list text) : option text :=
  match argv with
  | a :: (u :: _) as rest => if bool_decide (a = str "--lock") then Some u else lock_argument rest
  | _ => None
  end.

(** main.c: [argv] is without the program's name. *)
Definition greeter_main (argv : list text) (shutdown reboot suspend : bool) (evs : list gevent)
    : gprog Z :=
  ok ← greeter_init shutdown reboot suspend;
  if negb ok then mret 1
  else
    match lock_argument argv with Some u => greeter_enter_lock_mode u | None => skip end;;
    greeter_run evs;;
    greeter_cleanup;;
    mret 0.
End Greeter.
