(* ===== verification/DmClaims.v ===== *)
(** * isde-dm: what the daemon promises

    The theorems on the display manager, with a login in a concrete system as
    their witness. *)

From S2P Require Import Prelude.
From S2P Require Import CString.
From S2P Require Import CFloat.
From S2P Require Import TwoState.
From S2P Require Import LineIpc.
From S2P Require Import DesktopEntry.
From S2P Require Import DesktopClaims.
From S2P Require Import DmCore.
From S2P Require Import DmProc.
From S2P Require Import DmIpc.
From S2P Require Import DmRun.
From S2P Require Import DmSafety.
From S2P Require Import DmHandlers.
From S2P Require Import DmLock.
From S2P Require Import DmAlive.
From S2P Require Import DmGreeter.
Open Scope Z_scope.

(** The world at the start of the program. *)
Definition start_world (d : Dm) : World := mkWorld d [] [].

Section Main.
Context `{System} (path : text).

Lemma wp_main wakes d :
  short_sessions → wp no_fault (main path wakes) (fun _ w' => Good w') (start_world d).
Proof.
  intros Hs. unfold main. apply wp_bind. eapply wp_mono; [by apply wp_init|]. cbn beta.
  intros ok w1 G1. destruct ok; cbn [negb]; [|by apply wp_ret].
  apply wp_bind. eapply wp_mono; [by apply safely_run|]. cbn beta. intros _ w2 G2.
  apply wp_bind. eapply wp_mono; [by apply safely_cleanup|]. cbn beta. intros _ w3 G3. by apply wp_ret.
Qed.

(** C14: every run of the display manager, whatever the system answers and
    whatever wakes it, ends without an access out of bounds, given that the
    session files are short enough for the list of sessions. *)
Theorem daemon_memory_safe wakes d :
  short_sessions → wp no_fault (main path wakes) (fun _ w' => BufInv (dm w')) (start_world d).
Proof. intros Hs. eapply wp_mono; [by apply wp_main|]. cbn beta. by intros _ w' [? _]. Qed.

(** C3: a session is only ever started for a user whose password and account
    PAM has just accepted, with nothing read from the greeter in between. *)
Theorem sessions_authenticated wakes d :
  short_sessions → wp no_fault (main path wakes) (fun _ w' => vouched (calls w')) (start_world d).
Proof. intros Hs. eapply wp_mono; [by apply wp_main|]. cbn beta. by intros _ w' (_ & ? & _). Qed.

(** C12: outside of development mode the child of a session runs nothing before
    it has given up root for the user that was looked up: the supplementary
    groups, the group, then the user, each with success. *)
Theorem sessions_run_as_their_user wakes d :
  short_sessions →
  wp no_fault (main path wakes) (fun _ w' => dev_mode (dm w') = false → Forall child_ok (children w'))
    (start_world d).
Proof. intros Hs. eapply wp_mono; [by apply wp_main|]. cbn beta. by intros _ w' (_ & _ & ?). Qed.

(** C4: a locked session stays locked over a round of the main loop, whatever
    comes from the bus, the seat, the lid and the greeter, unless its process
    ends, PAM accepts its user's password, or the greeter sends CANCEL_LOCK. *)
Theorem lock_holds r w :
  short_sessions → Good w → locked (dm w) = true →
  (∀ ps, r_children r = Some ps → Forall (fun p => Z.pos p ≠ session_pid (dm w)) ps) →
  wp no_fault (dm_round path r) (fun _ w' =>
    lock_state (dm w') = lock_state (dm w) ∨
    (∃ u, session_user (dm w) = Some u ∧ accepted u w w') ∨ cancelled w w') w.
Proof.
  intros Hs Hg El Hp. unfold dm_round. apply wp_bind, wp_gets. cbn beta. unfold id.
  apply wp_bind. eapply wp_mono; [apply wp_undisturbed; [done|tame|apply holds_dbus_fd]|].
  cbn beta. intros fd w0 U0. pose proof U0 as (G0 & _ & _ & K0). specialize (K0 El).
  apply wp_bind. eapply wp_mono; [apply wp_reap_undisturbed; [done|]|].
  { unfold lock_state in K0. injection K0 as _ _ E3. by rewrite E3. }
  cbn beta. intros _ w1 U1. apply wp_bind. eapply wp_mono.
  { apply (wp_undisturbed (when _ _)); [apply U1|tame|]. apply steps_when; [apply _|apply holds_seat]. }
  cbn beta. intros _ w2 U2.
  assert (U : undisturbed w w2) by (eapply undisturbed_trans; [by eapply undisturbed_trans|done]).
  apply wp_bind. eapply wp_mono; [apply (wp_socket_guards (dm w)); [done|apply U]|]. cbn beta.
  intros _ w3 [L3 S3]. eapply wp_mono; [apply guards_after|]. cbn beta. intros _ w4 G4.
  destruct S3 as [G3|C3].
  - assert (G : guarded w w4) by (etrans; [by apply undisturbed_guarded|by etrans]).
    destruct G as [_ G]. specialize (G El). tauto.
  - right. right. destruct U as (_ & K & B & _).
    eapply cancelled_after; [apply G4|]. by eapply cancelled_before.
Qed.

(** C16: on a machine that can fork and start the X server, every round of the
    main loop that does not end the daemon ends with an X server and with a
    greeter or a session, whatever died in it. *)
Theorem round_attended r w :
  healthy → short_sessions → Good w → dev_mode (dm w) = false →
  wp no_fault (dm_round path r) (fun _ w' => running (dm w') = true → attended (dm w')) w.
Proof.
  intros Hh Hs Hg Ed. unfold dm_round. apply wp_bind, wp_gets. cbn beta. unfold id.
  assert (Hstep : ∀ {A} (m : dprog A) w, tame quiet m → Good w → dev_mode (dm w) = false →
    wp no_fault m (fun _ w' => Good w' ∧ dev_mode (dm w') = false) w).
  { intros A m w0 Ht G0 E0. eapply wp_mono; [apply (wp_and _ _ _ _ _ (safely_tame m Ht w0 G0) (mode_tame m Ht w0))|].
    cbn beta. intros _ w1 [G1 E1]. split; [done|]. congruence. }
  apply wp_bind. eapply wp_mono; [apply Hstep; [tame|done..]|]. cbn beta. intros fd w1 [G1 E1].
  apply wp_bind. eapply wp_mono; [apply Hstep; [tame|done..]|]. cbn beta. intros _ w2 [G2 E2].
  apply wp_bind. eapply wp_mono; [apply Hstep; [tame|done..]|]. cbn beta. intros _ w3 [G3 E3].
  apply wp_bind. eapply wp_mono.
  { apply (wp_and _ _ (fun _ w' => Good w') (fun _ w' => same_mode w3 w')); [|by apply mode_socket].
    apply (safely_when Good); [|done]. apply safely_bind; [apply safely_gets|]. intros c.
    destruct (0 <=? c); [by apply safely_ipc_handle|apply safely_ipc_accept]. }
  cbn beta. intros _ w4 [G4 E4].
  apply wp_bind. eapply wp_mono; [apply Hstep; [tame|done|congruence]|]. cbn beta. intros _ w5 [G5 E5].
  apply wp_bind. eapply wp_mono; [apply Hstep; [tame|done..]|]. cbn beta. intros _ w6 [G6 E6].
  apply wp_bind. eapply wp_mono; [by apply wp_restart_greeter|]. cbn beta. intros _ w7 (A & B & C & D).
  apply wp_restart_xserver; [done|congruence|]. by rewrite B.
Qed.

(** but when the greeter dies while the session is locked, no greeter comes
    back: the round that reaps it and all rounds after it, with any number of
    further requests to lock, leave the session locked without one. *)
Theorem lost_lock_screen p wakes w :
  locked (dm w) = true → greeter_pid (dm w) = Z.pos p → xserver_pid (dm w) ≠ 0 →
  xserver_pid (dm w) ≠ Z.pos p → session_pid (dm w) ≠ 0 → running (dm w) = true →
  Forall lock_wake wakes →
  wp no_fault (dm_run path (Ready (mkReady (Some [p]) false false None None) :: wakes))
    (fun _ w' => unattended_lock (dm w')) w.
Proof.
  intros El Eg Ex Ep Es Er Hw. cbn [dm_run]. apply wp_bind, wp_gets. cbn beta. rewrite Er. cbn [negb].
  apply wp_bind. eapply wp_mono; [by apply wp_greeter_dies|]. cbn beta. intros _ w1 E1.
  assert (Hu : unattended_lock (dm w1)) by (rewrite E1; by repeat split).
  eapply wp_mono; [by apply wp_lock_run|]. cbn beta. intros _ w2 ->. done.
Qed.
End Main.

(** ** The greeter and the daemon *)

(** The bytes a greeter wrote to its socket, given its calls, latest first. *)
Fixpoint sent_bytes (h : list gcall) : list ascii :=
  match h with
  | [] => []
  | GSendAll _ bytes :: h' => sent_bytes h' ++ bytes
  | _ :: h' => sent_bytes h'
  end.

(** What a login does in the daemon, without any socket: select the session,
    check the password, report. *)
Definition login `{System} (desktop user pass : text) : dprog unit :=
  session_desktop =: Some desktop;;
  r ← dm_auth_check user pass;
  match r with
  | Some err => dm_ipc_send (trunc 512 (str "AUTH_FAIL " ++ err));; skip
  | None => auth_succeeded user
  end.

(** A word of a message: no line feed and no NUL. *)
Definition plain (t : text) : Prop := LF ∉ t ∧ NUL ∉ t.

Section Login.
Context `{System} `{Desk}.

Lemma blind_dispatch line : blind (dispatch_message line).
Proof.
  unfold dispatch_message. apply blind_get; [intros; reflexivity..|]. intros d.
  destruct (has_prefix _ line); [apply sound_auth|]. destruct (has_prefix _ line); [blind_tame|].
  destruct (bool_decide _); [|repeat (destruct (bool_decide _); [blind_tame|]); blind_tame].
  unfold handle_list_sessions. apply blind_bind; [blind_tame|]. intros dp.
  apply blind_bind; [blind_tame|]. intros es. destruct (sessions_text es); [blind_tame|apply blind_raise].
Qed.

Lemma dispatch_auth u p :
  " "%char ∉ u → (length u < 256)%nat → (length p < 1024)%nat →
  handle_auth (u ++ str " " ++ p) =
    (r ← dm_auth_check u p;
     match r with
     | Some err => dm_ipc_send (trunc 512 (str "AUTH_FAIL " ++ err));; skip
     | None => auth_succeeded u
     end).
Proof.
  intros Hsp Hu Hp. unfold handle_auth. change (str " " ++ p) with (" "%char :: p).
  rewrite strchr_char, before_char by done. cbv zeta. cbn [tail].
  rewrite !decide_False by (unfold DM_IPC_MAX_USER, DM_IPC_MAX_PASS; lia). done.
Qed.

(** The two messages of a login, one after the other, are the login. *)
Lemma handle_login f u p w :
  " "%char ∉ u → (length u < 256)%nat → (length p < 1024)%nat →
  handle_all dispatch_message [str "SESSION " ++ f; str "AUTH " ++ u ++ str " " ++ p] w = login f u p w.
Proof.
  intros Hsp Hu Hp. cbn [handle_all]. rewrite !bool_decide_eq_false_2 by done. cbn [negb when].
  unfold login. rewrite <- dispatch_auth by done.
  change (dispatch_message (str "SESSION " ++ f)) with
    (d ← get_dm id; session_desktop =: Some f).
  change (dispatch_message (str "AUTH " ++ u ++ str " " ++ p)) with
    (d ← get_dm id; handle_auth (u ++ str " " ++ p)).
  unfold mbind, prog_bind. cbn. by destruct (handle_auth _ _) as [[]|].
Qed.

Lemma shrinks_kept {A} (m : dprog A) Q :
  (∀ w, wp no_fault m (fun _ w' => kept Q w w') w) → shrinks_len m.
Proof.
  intros Hm w. specialize (Hm w). unfold wp in *. destruct (m w) as [a w'|]; [|done].
  destruct Hm as [_ _ S _]. cbn. intros Hge. destruct S as [[_ ->]|[_ ->]]; lia.
Qed.

Lemma login_lines f u p :
  Forall (fun l => shrinks_len (dispatch_message l)) [str "SESSION " ++ f; str "AUTH " ++ u ++ str " " ++ p] ∧
  keeps_len (dispatch_message (str "SESSION " ++ f)).
Proof.
  assert (Hk : keeps_len (dispatch_message (str "SESSION " ++ f))) by done.
  split; [|done]. constructor; [|constructor; [|done]].
  - intros w. eapply wp_mono; [apply Hk|]. cbn beta. intros _ w' ->. lia.
  - apply (shrinks_kept _ any_call). intros w.
    change (wp no_fault (handle_auth (u ++ str " " ++ p)) (fun _ w' => kept any_call w w') w).
    eapply wp_mono; [apply sound_auth|]. by intros _ w' [].
Qed.

(** However the bytes of the two messages are cut into reads. *)
Lemma login_received f u p chunks w :
  plain f → plain u → plain p → " "%char ∉ u → (length u < 256)%nat → (length p < 1024)%nat →
  length (ipc_buf (dm w)) = 4096%nat → ipc_buf_len (dm w) = 0 →
  concat chunks = join_lines [str "SESSION " ++ f; str "AUTH " ++ u ++ str " " ++ p] →
  fit_reads 4096 [] chunks →
  same_result (receive_all dispatch_message chunks w) (login f u p w).
Proof.
  intros [Hf1 Hf2] [Hu1 Hu2] [Hp1 Hp2] Hsp Hu Hp Hb Hl Hc Hfit.
  rewrite <- handle_login by done. destruct (login_lines f u p) as [Hs Hk].
  assert (Hlf : Forall (fun l => LF ∉ l) [str "SESSION " ++ f; str "AUTH " ++ u ++ str " " ++ p]).
  { constructor; [|constructor; [|done]]; cbn; set_solver. }
  apply (receive_all_run dispatch_message blind_dispatch chunks []).
  - rewrite Hc. by apply split_join.
  - rewrite Hc. cbn. set_solver.
  - set_solver.
  - cbn [lb_buf dm_lines]. by rewrite Hb.
  - exact Hl.
  - done.
  - done.
  - cbn [removelast]. by constructor.
Qed.

Lemma wp_gdo E c (Q : gresult c → Screen → Prop) w :
  Q (reply_to (gcalls w) c) (w <| gcalls := c :: gcalls w |>) → wp E (gdo c) Q w.
Proof. done. Qed.

Lemma wp_gsend msg w :
  0 ≤ ipc_fd (gr w) → (length msg < 4096)%nat →
  wp no_fault (greeter_ipc_send msg) (fun _ w' => gr w' = gr w ∧
    sent_bytes (gcalls w') = sent_bytes (gcalls w) ++ msg ++ [LF]) w.
Proof.
  intros Hfd Hm. unfold greeter_ipc_send. apply wp_bind, wp_gets. cbn beta.
  rewrite (proj2 (Z.ltb_ge _ _) Hfd). rewrite (proj2 (Z.ltb_ge _ _)) by lia.
  apply wp_bind, (wp_gdo _ (GSendAll _ _)). by apply wp_ret.
Qed.

(** C13: what the login button sends, however the socket cuts it up, is in the
    daemon the selection of the chosen session and one check of exactly the user
    and password that were typed: the messages are neither merged nor split.  This
    is so for a user name of 1 to 255 bytes without a blank, a password of at most
    1023 bytes, and a session file of at most 503 bytes, none with a line end or a
    NUL (a user name with a blank is cut there by the daemon). *)
Theorem login_delivered gw s u p :
  reply_to (gcalls gw) (GetText UserText) = Some u →
  reply_to (GetText UserText :: gcalls gw) (GetText PassText) = Some p →
  0 ≤ ipc_fd (gr gw) → 0 ≤ active_session (gr gw) →
  sessions (gr gw) !! Z.to_nat (active_session (gr gw)) = Some s →
  u ≠ [] → plain u → " "%char ∉ u → (length u < 256)%nat →
  plain p → (length p < 1024)%nat →
  plain (s_desktop_file s) → (length (s_desktop_file s) ≤ 503)%nat →
  wp no_fault login_cb (fun _ gw' =>
    ∃ bytes, sent_bytes (gcalls gw') = sent_bytes (gcalls gw) ++ bytes ∧
      ∀ chunks w, concat chunks = bytes → fit_reads 4096 [] chunks →
        length (ipc_buf (dm w)) = 4096%nat → ipc_buf_len (dm w) = 0 →
        same_result (receive_all dispatch_message chunks w) (login (s_desktop_file s) u p w)) gw.
Proof.
  intros Eu Ep Hfd Ha Es Hu0 Hu Hsp Hul Hp Hpl Hf Hfl. unfold login_cb.
  apply wp_bind, (wp_gdo _ (GetText UserText)). rewrite Eu.
  apply wp_bind, (wp_gdo _ (GetText PassText)).
  change (gcalls (gw <| gcalls := GetText UserText :: gcalls gw |>)) with (GetText UserText :: gcalls gw).
  rewrite Ep. destruct u as [|c u']; [done|]. set (u := c :: u') in *. clearbody u. clear c u' Hu0.
  apply wp_bind, (wp_gdo _ (SetText ErrorLabel (str " "))). apply wp_bind.
  match goal with |- wp _ _ _ ?x => set (gw1 := x) end.
  assert (Hg1 : gr gw1 = gr gw) by done.
  assert (Hs1 : sent_bytes (gcalls gw1) = sent_bytes (gcalls gw)) by done. clearbody gw1.
  assert (Hlen : active_session (gr gw) < Z.of_nat (length (sessions (gr gw)))).
  { apply lookup_lt_Some in Es. lia. }
  unfold send_session. apply wp_bind, wp_gets. cbn beta. unfold id. rewrite Hg1.
  rewrite (proj2 (Z.leb_le _ _) Ha), (proj2 (Z.ltb_lt _ _) Hlen), Es. cbn [andb when].
  assert (T1 : trunc 512 (str "SESSION " ++ s_desktop_file s) = str "SESSION " ++ s_desktop_file s).
  { apply trunc_short. rewrite length_app. cbn. lia. }
  assert (T2 : trunc 2048 (str "AUTH " ++ u ++ str " " ++ p) = str "AUTH " ++ u ++ str " " ++ p).
  { apply trunc_short. cbn. rewrite length_app. cbn. lia. }
  rewrite T1. cbn [from_option]. rewrite T2. apply wp_bind. eapply wp_mono; [apply wp_gsend|].
  { by rewrite Hg1. } { rewrite length_app. cbn. lia. }
  cbn beta. intros _ gw2 [Hg2 Hs2]. apply wp_ret. apply wp_bind. eapply wp_mono; [apply wp_gsend|].
  { by rewrite Hg2, Hg1. } { cbn. rewrite length_app. cbn. lia. }
  cbn beta. intros _ gw3 [Hg3 Hs3]. apply wp_ret.
  exists (join_lines [str "SESSION " ++ s_desktop_file s; str "AUTH " ++ u ++ str " " ++ p]).
  split; [rewrite Hs3, Hs2, Hs1; unfold join_lines; cbn [concat map]; by rewrite app_nil_r, <- app_assoc|].
  intros chunks w Hc Hfit Hb Hl. by apply login_received.
Qed.
End Login.


(** ** The greeter's own safety *)

Section GreeterSafe.
Context `{Desk}.

(** Ends without a fault and leaves the receive buffer alone. *)
Definition calm {A} (m : gprog A) : Prop :=
  blind m ∧ ∀ w, wp no_fault m (fun _ w' => lb_len w' = lb_len w) w.

Lemma calm_ret {A} (a : A) : calm (mret a).
Proof. split; [apply blind_ret|]. intros w. by apply wp_ret. Qed.
Lemma calm_bind {A B} (m : gprog A) (k : A → gprog B) : calm m → (∀ a, calm (k a)) → calm (m ≫= k).
Proof.
  intros [Hb Hm] Hk. split; [apply blind_bind; [done|apply Hk]|]. intros w. apply wp_bind.
  eapply wp_mono; [apply Hm|]. cbn beta. intros a w1 E1. eapply wp_mono; [apply Hk|]. cbn beta.
  intros b w2 ->. done.
Qed.
Lemma calm_when b m : calm m → calm (when b m).
Proof. intros Hm. destruct b; [done|apply calm_ret]. Qed.
Lemma calm_gdo c : calm (gdo c).
Proof. split; [by split|]. intros w. by apply wp_gdo. Qed.
Lemma calm_get {A} (f : Greeter → A) :
  (∀ b g, f (g <| g_ipc_buf := b |>) = f g) → (∀ n g, f (g <| g_ipc_buf_len := n |>) = f g) →
  calm (get_gr f).
Proof.
  intros Hf Hg. split; [apply blind_gets; [intros b w; apply Hf|intros n w; apply Hg]|].
  intros w. by apply wp_gets.
Qed.
Lemma calm_get_id {B} (k : Greeter → gprog B) :
  (∀ b g, k (g <| g_ipc_buf := b |>) = k g) → (∀ n g, k (g <| g_ipc_buf_len := n |>) = k g) →
  (∀ g, calm (k g)) → calm (get_gr id ≫= k).
Proof.
  intros Hf Hg Hk. split.
  - split.
    + intros b w. unfold mbind, prog_bind, get_gr, gets. cbn. rewrite Hf. apply Hk.
    + intros n w. unfold mbind, prog_bind, get_gr, gets. cbn. rewrite Hg. apply Hk.
  - intros w. apply wp_bind, wp_gets, Hk.
Qed.
Lemma calm_upd (f : Greeter → Greeter) :
  (∀ b g, f (g <| g_ipc_buf := b |>) = (f g) <| g_ipc_buf := b |>) →
  (∀ n g, f (g <| g_ipc_buf_len := n |>) = (f g) <| g_ipc_buf_len := n |>) → calm (upd_gr f).
Proof.
  intros Hf Hg. split.
  - apply blind_modify; [intros b w; cbn; by rewrite Hf|]. intros n w. cbn. by rewrite Hg.
  - intros w. apply wp_modify. cbn.
    assert (E : g_ipc_buf_len (f (gr w)) = g_ipc_buf_len (gr w)).
    { specialize (Hg (g_ipc_buf_len (gr w)) (gr w)). revert Hg.
      replace ((gr w) <| g_ipc_buf_len := g_ipc_buf_len (gr w) |>) with (gr w) by by destruct (gr w).
      intros ->. done. }
    exact E.
Qed.
End GreeterSafe.

Ltac calm_step :=
  lazymatch goal with
  | |- calm (mret _) => apply calm_ret
  | |- calm skip => apply calm_ret
  | |- calm (gdo ?c) => refine (calm_gdo c)
  | |- calm (get_gr id ≫= _) => apply calm_get_id; [intros; reflexivity..|intros ?]
  | |- calm (get_gr _) => apply calm_get; intros; reflexivity
  | |- calm (upd_gr _) => apply calm_upd; intros; reflexivity
  | |- calm (when _ _) => apply calm_when
  | |- calm (_ ≫= _) => apply calm_bind; [|intros ?]
  | |- calm (if ?b then _ else _) => destruct b
  | |- calm (match ?x with _ => _ end) => destruct x
  | |- calm (let _ := _ in _) => cbv zeta
  | |- calm ?m => let f := head_of m in unfold f
  end.
Ltac calm := repeat calm_step.

Section GreeterRun.
Context `{Desk}.

Definition GreeterInv (w : Screen) : Prop :=
  length (g_ipc_buf (gr w)) = 4096%nat ∧ 0 ≤ g_ipc_buf_len (gr w) < 4096.

Lemma calm_line line : calm (handle_ipc_line line).
Proof. calm. Qed.

Lemma calm_handle_all ls : calm (handle_all handle_ipc_line ls).
Proof.
  induction ls as [|l ls IH]; cbn [handle_all]; [apply calm_ret|].
  apply calm_bind; [apply calm_when, calm_line|done].
Qed.

Lemma calm_safe {A} (m : gprog A) : calm m → safely GreeterInv m.
Proof.
  intros [[Hb _] Hm] w [Hl Hn]. specialize (Hb (g_ipc_buf (gr w)) w). specialize (Hm w).
  assert (E1 : set_lb (g_ipc_buf (gr w)) w = w) by exact (lb_set_same w). rewrite E1 in Hb.
  unfold wp in *. destruct (m w) as [a w'|]; [|done].
  injection Hb as Hb. split; [rewrite Hb; exact Hl|]. cbn in Hm. by rewrite Hm.
Qed.

Lemma safely_input : safely GreeterInv ipc_input_cb.
Proof.
  intros w Hw. unfold ipc_input_cb. apply wp_bind, wp_gets. cbn beta. unfold id.
  assert (Hsp : s32 (4096 - g_ipc_buf_len (gr w) - 1) = 4096 - g_ipc_buf_len (gr w) - 1).
  { apply s32_id. destruct Hw. lia. }
  rewrite Hsp. clear Hsp. cbv zeta.
  destruct (_ <=? 0) eqn:Es.
  { apply wp_modify. destruct Hw. split; [done|]. cbn. lia. }
  apply Z.leb_gt in Es. apply wp_bind, (wp_gdo _ (GRead _ _)). set (w1 := w <| gcalls := _ |>).
  assert (H1 : GreeterInv w1) by done. destruct (reply_to _ _) as [bytes|e].
  2:{ by apply (calm_safe (upd_gr _)); [calm|]. }
  set (space := 4096 - g_ipc_buf_len (gr w) - 1) in *.
  destruct (take (Z.to_nat space) bytes) as [|b bs] eqn:Et.
  { by apply (calm_safe (upd_gr _)); [calm|]. }
  assert (Hdl : Z.of_nat (length (b :: bs)) ≤ space) by (rewrite <- Et, length_take; lia).
  set (data := b :: bs) in *. clearbody data. destruct H1 as [Hl Hn].
  pose proof (receive_run handle_ipc_line (fun l => proj1 (calm_line l)) (g_ipc_buf_len (gr w1)) data w1
    eq_refl (proj1 Hn)) as Hr. cbn [lb_buf greeter_lines] in Hr. rewrite Hl in Hr.
  change (g_ipc_buf_len (gr w1)) with (g_ipc_buf_len (gr w)) in *.
  specialize (Hr ltac:(lia)). set (t := cstr _) in *. set (w2 := set_ll _ w1) in Hr.
  pose proof (proj2 (calm_handle_all (fst (split_lines [] t))) w2) as Ha. unfold wp in Ha |- * at 1.
  destruct (handle_all _ _ w2) as [[] w3|f]; [|done].
  assert (E3 : lb_len w3 = g_ipc_buf_len (gr w) + Z.of_nat (length data)) by exact Ha.
  destruct Hr as (B & HB & -> & _); [lia|]. split; [exact HB|]. cbn. cbn in E3. rewrite E3.
  assert (Hct : (length t ≤ Z.to_nat (g_ipc_buf_len (gr w)) + length data)%nat).
  { unfold t, cstr. rewrite before_take, !length_take, length_app, length_take. lia. }
  pose proof (split_rest_length [] t). cbn in *. lia.
Qed.

Lemma calm_send_session : calm send_session.
Proof.
  unfold send_session. apply calm_get_id; [intros; reflexivity..|]. intros g.
  destruct (_ && _) eqn:E; [|apply calm_ret]. apply andb_prop in E as [E1 E2]. cbn [when].
  destruct (lookup_lt_is_Some_2 (sessions g) (Z.to_nat (active_session g))) as [s ->]; [lia|]. calm.
Qed.

Lemma calm_login : calm login_cb.
Proof.
  unfold login_cb. apply calm_bind; [calm|]. intros u. apply calm_bind; [calm|]. intros p.
  destruct u as [[|c u]|]; [calm| |calm]. apply calm_bind; [calm|]. intros _.
  apply calm_bind; [apply calm_send_session|]. intros _. calm.
Qed.

Lemma safely_event e : safely GreeterInv (greeter_event e).
Proof.
  destruct e; cbn [greeter_event]; try apply safely_input; apply calm_safe;
    [calm|apply calm_login|calm|calm|calm| |calm].
  unfold session_dropdown_cb. apply calm_bind; [calm|]. intros n. calm.
Qed.

Lemma safely_greeter_run evs : safely GreeterInv (greeter_run evs).
Proof.
  induction evs as [|e evs IH]; cbn [greeter_run]; [apply safely_skip|].
  apply safely_bind; [apply safely_gets|]. intros go. apply safely_when.
  apply safely_bind; [apply safely_event|]. intros _. apply IH.
Qed.

Lemma calm_load_all dir names : calm (load_all dir names).
Proof.
  induction names as [|n ns IH]; cbn [load_all]; [apply calm_ret|].
  destruct (is_desktop_file n); [|done]. apply calm_bind.
  - unfold isde_desktop_load. cbn [read_file greeter_files]. apply calm_bind; [calm|].
    intros [file|]; [|calm]. destruct (parse_desktop_total (dir ++ str "/" ++ n) file) as [e ->]. calm.
  - intros r. apply calm_bind; [exact IH|]. intros es. apply calm_ret.
Qed.

Lemma calm_load_sessions dirs : calm (load_sessions dirs).
Proof.
  induction dirs as [|d ds IH]; cbn [load_sessions]; [apply calm_ret|]. apply calm_bind.
  - unfold isde_desktop_scan_dir. cbn [read_dir greeter_files]. apply calm_bind; [calm|].
    intros [names|]; [apply calm_load_all|apply calm_ret].
  - intros es. apply calm_bind; [exact IH|]. intros. apply calm_ret.
Qed.

Lemma safely_greeter_init sd rb sp w :
  wp no_fault (greeter_init sd rb sp) (fun _ w' => GreeterInv w') w.
Proof.
  unfold greeter_init. apply wp_bind, wp_modify. cbn beta.
  set (w1 := w <| gr := _ |>). assert (H1 : GreeterInv w1) by by vm_compute.
  clearbody w1.
  apply (safely_bind GreeterInv); [| |exact H1].
  { intros w2 H2. apply (calm_safe greeter_sessions_load); [|done]. unfold greeter_sessions_load.
    apply calm_bind; [calm|]. intros dp. apply calm_bind; [apply calm_load_sessions|]. intros ss. cbv zeta.
    calm. }
  intros _. apply safely_bind; [apply calm_safe; calm|]. intros _.
  apply safely_bind.
  { unfold greeter_ipc_init. apply safely_bind; [apply calm_safe; calm|].
    intros [[|c p]|]; [apply safely_ret| |apply safely_ret]. apply safely_bind; [apply calm_safe; calm|].
    intros fd. destruct (fd <? 0); [apply safely_ret|]. apply safely_bind; [apply calm_safe; calm|].
    intros ok. destruct (negb ok); [apply calm_safe; calm|]. apply safely_bind; [apply calm_safe; calm|].
    intros _. apply safely_bind; [|intros; apply safely_ret]. apply safely_modify. intros w2 [Hl _].
    split; [exact Hl|]. cbn. lia. }
  intros ok. destruct (negb ok); [apply safely_ret|]. apply calm_safe. calm.
Qed.

(** every run of the greeter, whatever the daemon sends and however it is
    cut, ends without an access out of bounds. *)
Theorem greeter_memory_safe argv sd rb sp evs w :
  wp no_fault (greeter_main argv sd rb sp evs) (fun _ w' => GreeterInv w') w.
Proof.
  unfold greeter_main. apply wp_bind. eapply wp_mono; [apply safely_greeter_init|]. cbn beta.
  intros ok w1 H1. destruct (negb ok); [by apply wp_ret|].
  apply (safely_bind GreeterInv); [destruct (lock_argument argv); apply calm_safe; calm| |exact H1].
  intros _. apply safely_bind; [apply safely_greeter_run|]. intros _.
  apply safely_bind; [apply calm_safe; calm|]. intros _. apply safely_ret.
Qed.
End GreeterRun.

(** ** isde-dm: a login on a concrete system

    A system with one session file and one user, and the theorems of
    [DmClaims] on runs of it: a login, a locked session that is probed, a
    greeter that dies. *)

Definition demo_session : text :=
  str "[Desktop Entry]" ++ [LF] ++ str "Name=ISDE" ++ [LF] ++ str "Exec=isde" ++ [LF].

Definition demo_file : text := str "/usr/local/share/xsessions/isde-x11.desktop".

(** Everything works; the password is "pw"; the greeter sends [line]. *)
Definition demo_system (line : text) : System := fun h c =>
  match c as c return dresult c with
  | Getenv _ => None | Getuid => 0 | Access _ => true | Open _ _ => 5
  | Read _ n => Data (if n =? 16 then repeat "x"%char 16 else line ++ [LF])
  | ReadAll _ => [] | Write _ bytes => Z.of_nat (length bytes)
  | ReadFile p => if decide (p = demo_file) then Some demo_session else None
  | ReadDir _ => None | Mkdir _ _ => 0 | LoadConfig _ => None | Pipe => Some (3, 4)
  | Socket => 6 | Accept _ => 7 | Bind _ => true | Listen _ => true
  | SendAll _ bytes => [Wrote (Z.of_nat (length bytes))]
  | Fork XServer => Some 100%positive | Fork DmCore.Greeter => Some 101%positive | Fork (Session _) => Some 102%positive
  | Exec _ => true | WaitPid _ => true
  | GetPwNam u => if decide (u = str "al") then Some (mkPasswd u 1000 1000 (str "/home/al") None) else None
  | Initgroups _ _ => true | Setgid _ => true | Setuid _ => true | Chdir _ => true
  | PamAuthenticate _ p => if decide (p = str "pw") then PAM_SUCCESS else 7
  | PamStart _ => PAM_SUCCESS | PamAcctMgmt _ => PAM_SUCCESS
  | PamSetcred _ _ => PAM_SUCCESS | PamOpenSession _ => PAM_SUCCESS
  | PamStrerror _ => str "denied"
  | SeatOpen => true | SeatGetFd => 8 | SeatDispatch => [] | LidOpen _ => -1
  | XcbConnect _ => true | RebootSys _ => 0
  | BusGet => true | BusRequestName _ => true | BusGetFd => 9
  | _ => tt
  end.

Lemma demo_short line : @short_sessions (demo_system line).
Proof.
  intros h path file e. change (answer h (ReadFile path)) with
    (if decide (path = demo_file) then Some demo_session else None).
  case_decide as E; [subst path|done]. intros [= <-].
  set (r := parse_desktop demo_file demo_session). vm_compute in r. subst r. intros [= <-].
  intros n f [= <-] [= <-]. cbn. lia.
Qed.

Lemma demo_healthy line : @healthy (demo_system line).
Proof.
  split; try done.
  - intros h []; by eexists.
  - intros h fd. eexists. split; [reflexivity|]. cbn. lia.
Qed.

Definition login_line : text := str "AUTH al pw".

(** A connection, then a message. *)
Definition demo_wakes : list wake :=
  [Ready (mkReady None false true None None); Ready (mkReady None false true None None)].

Definition config_path : text := str "/etc/isde-dm.toml".

(** A run ends well, and its last state is as it should be. *)
Definition ends `{System} (check : World → bool) : bool :=
  match main config_path demo_wakes (start_world initial_dm) with
  | Ok r w => (r =? 0) && check w
  | Fault _ => false
  end.

Definition has_session (w : World) : bool := existsb is_session_fork (calls w).

(** A login, without a fault. *)
Lemma daemon_memory_safe_witness :
  @ends (demo_system login_line) has_session = true ∧
  wp no_fault (@main (demo_system login_line) config_path demo_wakes) (fun _ w' => BufInv (dm w'))
    (start_world initial_dm).
Proof. split; [vm_compute; reflexivity|]. apply daemon_memory_safe. apply demo_short. Defined.

(** A login starts a session; it is vouched for. *)
Lemma sessions_authenticated_witness :
  @ends (demo_system login_line) has_session = true ∧
  wp no_fault (@main (demo_system login_line) config_path demo_wakes)
    (fun _ w' => @vouched (demo_system login_line) (calls w')) (start_world initial_dm).
Proof. split; [vm_compute; reflexivity|]. apply sessions_authenticated. apply demo_short. Defined.

(** There is a child for the session, and the mode is not the development mode. *)
Lemma sessions_run_as_their_user_witness :
  @ends (demo_system login_line) (fun w => (length (children w) =? 3)%nat && negb (dev_mode (dm w))) = true ∧
  wp no_fault (@main (demo_system login_line) config_path demo_wakes)
    (fun _ w' => dev_mode (dm w') = false → Forall (@child_ok (demo_system login_line)) (children w'))
    (start_world initial_dm).
Proof. split; [vm_compute; reflexivity|]. apply sessions_run_as_their_user. apply demo_short. Defined.

(** A locked session of "al", with a greeter connected. *)
Definition locked_dm : Dm := initial_dm <| locked := true |> <| session_user := Some (str "al") |>
  <| session_pid := 102 |> <| xserver_pid := 100 |> <| greeter_pid := 101 |>
  <| ipc_listen_fd := 6 |> <| ipc_client_fd := 7 |> <| running := true |>.
Definition locked_world : World := mkWorld locked_dm [] [].

Lemma locked_good line : @Good (demo_system line) locked_world.
Proof.
  split; [by vm_compute|]. split; [by intros [] ? ?|]. by constructor.
Qed.

(** A wrong password, the other user's right one. *)
Definition probe : text := str "AUTH al no" ++ [LF] ++ str "AUTH bo pw".
Definition message_ready : ready := mkReady None false true None None.

Lemma lock_holds_witness :
  let S := demo_system probe in
  wp no_fault (@dm_round S config_path message_ready) (fun _ w' =>
    lock_state (dm w') = lock_state (dm locked_world) ∨
    (∃ u, session_user (dm locked_world) = Some u ∧ @accepted S u locked_world w') ∨
    @cancelled S locked_world w') locked_world ∧
  match @dm_round S config_path message_ready locked_world with
  | Ok _ w' => locked (dm w') | Fault _ => false end = true.
Proof.
  split; [|vm_compute; reflexivity].
  apply lock_holds; [apply demo_short|apply locked_good|reflexivity|]. intros ps [=].
Defined.

(** The X server and the greeter die in the same round. *)
Definition both_die : ready := mkReady (Some [100%positive; 101%positive]) false false None None.

Lemma round_attended_witness :
  let S := demo_system login_line in
  wp no_fault (@dm_round S config_path both_die) (fun _ w' => running (dm w') = true → attended (dm w'))
    locked_world ∧
  match @dm_round S config_path both_die locked_world with
  | Ok _ w' => running (dm w') | Fault _ => false end = true.
Proof.
  split; [|vm_compute; reflexivity].
  apply round_attended; [apply demo_healthy|apply demo_short|apply locked_good|reflexivity].
Defined.

(** Requests to lock again. *)
Definition lock_again : wake :=
  Ready (mkReady None false false
    (Some [mkBusMessage true (Some DM_DBUS_INTERFACE) (Some (str "Lock")) None None]) None).

Lemma lost_lock_screen_witness :
  let S := demo_system login_line in
  wp no_fault (@dm_run S config_path
    (Ready (mkReady (Some [101%positive]) false false None None) :: [lock_again; lock_again]))
    (fun _ w' => unattended_lock (dm w')) locked_world.
Proof.
  apply lost_lock_screen; try done. repeat constructor.
Defined.

(** ** The greeter *)

Definition demo_desk : Desk := fun h c =>
  match c as c return gresult c with
  | GetText UserText => Some (str "al")
  | GetText _ => Some (str "pw")
  | IsRealized => true | GGetenv _ => None | GSocket => 4 | GConnect _ => true
  | GRead _ _ => ReadErr 11 | GSendAll _ bytes => [Wrote (Z.of_nat (length bytes))]
  | GReadFile _ => None | GReadDir _ => None
  | _ => tt
  end.

Definition demo_screen : Screen :=
  mkScreen ((initial_greeter true true true) <| sessions := [mkSession (str "ISDE") (str "isde-x11.desktop")] |>
    <| ipc_fd := 4 |>) [].

Lemma login_delivered_witness :
  let S := demo_system login_line in
  wp no_fault (@login_cb demo_desk) (fun _ gw' =>
    ∃ bytes, sent_bytes (gcalls gw') = sent_bytes (gcalls demo_screen) ++ bytes ∧
      ∀ chunks w, concat chunks = bytes → fit_reads 4096 [] chunks →
        length (ipc_buf (dm w)) = 4096%nat → ipc_buf_len (dm w) = 0 →
        same_result (receive_all (@dispatch_message S) chunks w)
          (@login S (str "isde-x11.desktop") (str "al") (str "pw") w)) demo_screen.
Proof.
  apply (login_delivered (H := demo_system login_line) demo_screen
    (mkSession (str "ISDE") (str "isde-x11.desktop"))); try done;
    try (unfold plain; split); cbn; solve [set_solver | lia].
Defined.
