(* ===== verification/SessCore.v ===== *)
(** * isde-session: state, calls and child supervision
      (platform/common/session/session.h, child.c, autostart.c)

    The session manager's state, the calls it makes with their oracle, the list
    of children with its respawn policy, and the autostart entries. *)

From S2P Require Import Prelude.
From S2P Require Import CString.
From S2P Require Import CFloat.
From S2P Require Import DesktopEntry.
Open Scope Z_scope.

Definition RAPID_CRASH_WINDOW_MS : Z := 5000.
Definition MAX_RAPID_CRASHES : Z := 5.
Definition BASE_RETRY_DELAY_MS : Z := 1000.
Definition MAX_RETRY_DELAY_MS : Z := 60000.

Definition SIGKILL : Z := 9.
Definition SIGTERM : Z := 15.

Inductive LidAction := LID_ACTION_SUSPEND | LID_ACTION_HIBERNATE | LID_ACTION_LOCK | LID_ACTION_NOTHING.
Inductive BgMode := BG_MODE_SOLID | BG_MODE_IMAGE.

Record Child := mkChild {
  pid : Z;
  command : text;
  respawn : bool;
  is_wm : bool;
  is_panel : bool;
  start_ms : Z;
  rapid_crashes : Z
}.
#[export] Instance child_eta : RecEta Child := Build_RecEta _ (fun c =>
  mkChild (pid c) (command c) (respawn c) (is_wm c) (is_panel c) (start_ms c) (rapid_crashes c)).

Record PendingRespawn := mkPending {
  p_command : text;
  p_is_wm : bool;
  p_is_panel : bool;
  p_rapid_crashes : Z;
  deadline_ms : Z
}.

(** [server_context], [dbus], [system_bus], [session_bus]: is there a connection?
    [command_object]: is the object of the command service registered with the bus? *)
Record Session := mkSession {
  wm_command : option text;
  panel_command : option text;
  fm_command : option text;
  children : list Child;
  pending_respawns : list PendingRespawn;
  autostart : list (text * bool);
  server_context : bool;
  sigchld_pipe : Z * Z;
  check_deadline_ms : Z;
  idle_deadline_ms : Z;
  idle_suspend_sec : Z;
  screen_off_sec : Z;
  lid_action : LidAction;
  idle_lock_sec : Z;
  bg_mode : BgMode;
  bg_color : Z;
  bg_image_path : option text;
  confirm_pid : Z;
  death_pipe : Z * Z;
  dbus : bool;
  system_bus : bool;
  session_bus : bool;
  command_object : bool;
  inhibit_cookies : list Z;
  inhibit_owners : list text;
  inhibit_count : Z;
  next_cookie : Z;
  reload_appearance : bool;
  reload_display : bool;
  reload_power : bool;
  reload_background : bool;
  confirm_action : text;
  running : bool
}.
#[export] Instance session_eta : RecEta Session := Build_RecEta _ (fun s =>
  mkSession (wm_command s) (panel_command s) (fm_command s) (children s) (pending_respawns s)
    (autostart s) (server_context s) (sigchld_pipe s) (check_deadline_ms s) (idle_deadline_ms s)
    (idle_suspend_sec s) (screen_off_sec s) (lid_action s) (idle_lock_sec s) (bg_mode s) (bg_color s)
    (bg_image_path s) (confirm_pid s) (death_pipe s) (dbus s) (system_bus s) (session_bus s)
    (command_object s) (inhibit_cookies s) (inhibit_owners s) (inhibit_count s) (next_cookie s)
    (reload_appearance s) (reload_display s) (reload_power s) (reload_background s)
    (confirm_action s) (running s)).

(** ** Calls *)

Inductive wstatus := Exited (code : Z) | Signaled (sig : Z).

(** A parsed configuration: the sub-tables, by name, with their strings and integers. *)
Record table := mkTable { c_string : text → option text; c_int : text → option Z }.
Definition config : Type := text → option table.

Inductive sreply := CookieReply (cookie : Z) | EmptyReply | LimitsExceeded.

(** What a forked child is for: a shell command, or the confirmation overlay. *)
Inductive sproc := Shell (command : text) | Confirm (action : text).

Inductive scall :=
  | Now | Sleep (ms : Z)
  | Getenv (name : text) | Setenv (name value : text) | Unsetenv (name : text)
  | SFork (p : sproc) | Exec (path : text) (argv : list text) | Exit (code : Z)
  | ReapAll                                    (* waitpid(-1, WNOHANG) until it finds none *)
  | WaitNoHang (pid : Z) | WaitBlock (pid : Z) | Kill (pid sig : Z) | KillGroup (sig : Z)
  | SetScaling (percent : Z) | LoadConfig | MakePipe | CloseFd (fd : Z) | Access (path : text)
  | ReadFile (path : text) | ReadDir (path : text)
  | Connect | Disconnect | Dpms (standby suspend off : Z) | ScreenSaver (timeout : Z)
  | IdleTime | PointerControl (num threshold : Z) (do_acc do_thr : bool) | KeyRepeat (delay interval : Z)
  | PublishTheme | ThemeReload | PaintSolid (color : Z) | PaintImage (path : text)
  | EwmhInit | ClientList | RequestClose (w : Z)
  | SettingsBus | SettingsFree | SystemBus | SessionBus | RequestName (name : text) | BusUnref
  | DmCall (method : text) | Reply (r : sreply)
  | Poll (timeout : Z).

Definition sresult (c : scall) : Type :=
  match c with
  | Now => Z
  | Getenv _ => option text
  | SFork _ => option positive
  | Exec _ _ => bool
  | ReapAll => list (positive * wstatus)
  | WaitNoHang _ => option wstatus
  | LoadConfig => option config
  | MakePipe => option (Z * Z)
  | Access _ => bool
  | ReadFile _ => option text
  | ReadDir _ => option (list text)
  | Connect => bool
  | IdleTime => option Z
  | PaintImage _ => bool
  | EwmhInit => bool
  | ClientList => list Z
  | SettingsBus | SystemBus | SessionBus | RequestName _ => bool
  | _ => unit
  end.

Class Host := host : ∀ (h : list scall) (c : scall), sresult c.

(** A forked child: what it is for and its calls. *)
Record World := mkWorld { ses : Session; calls : list scall; forked : list (sproc * list scall) }.
#[export] Instance sworld_eta : RecEta World := Build_RecEta _ (fun w =>
  mkWorld (ses w) (calls w) (forked w)).

Abbreviation sprog := (prog World).

Definition call `{Host} (c : scall) : sprog (sresult c) := fun w =>
  Ok (host (calls w) c) (w <| calls := c :: calls w |>).
Definition get_s {A} (f : Session → A) : sprog A := gets (fun w => f (ses w)).
Definition upd_s (f : Session → Session) : sprog unit := modify (fun w => w <| ses := f (ses w) |>).

Notation "p =: v" := (upd_s (fun s : Session => s <| p := v |>))
  (at level 70, no associativity) : c_scope.

#[export] Instance session_files `{Host} : FileSystem World := {|
  read_file p := call (ReadFile p);
  read_dir p := call (ReadDir p)
|}.

(** [fork] in the parent: the pid, or [-1]; the child runs on a copy. *)
Definition fork `{Host} (p : sproc) (child : sprog unit) : sprog Z := fun w =>
  let w1 := w <| calls := SFork p :: calls w |> in
  match host (calls w) (SFork p) with
  | None => Ok (-1) w1
  | Some n =>
    match child w1 with
    | Ok _ w2 =>
      let own := take (length (calls w2) - length (calls w1)) (calls w2) in
      Ok (Z.pos n) (w1 <| forked := (p, own) :: forked w1 |>)
    | Fault f => Fault f
    end
  end.

Fixpoint for_each {A} (l : list A) (body : A → sprog unit) : sprog unit :=
  match l with
  | [] => skip
  | x :: l' => body x;; for_each l' body
  end.

Section Child.
Context `{Host}.

Definition now_ms : sprog Z := call Now.

(** ** child.c *)

Definition spawn_child (cmd : text) : sprog unit :=
  d ← get_s death_pipe;
  when (0 <=? snd d) (call (CloseFd (snd d)));;
  ok ← call (Exec (str "/bin/sh") [str "sh"; str "-c"; cmd]);
  when (negb ok) (call (Exit 127)).

(** [child_spawn] and the assignments of its callers to the new child: whether it
    is the panel and its count of crashes.  The result tells whether there is a child. *)
Definition child_spawn (cmd : text) (resp wm panel : bool) (crashes : Z) : sprog bool :=
  p ← fork (Shell cmd) (spawn_child cmd);
  if p <? 0 then mret false
  else
    t ← now_ms;
    upd_s (fun s => s <| children := mkChild p cmd resp wm panel t crashes :: children s |>);;
    mret true.

Definition child_find_pid (p : Z) (l : list Child) : option Child :=
  find (fun c => pid c =? p) l.

(** The child that [child_find_pid] has found is taken out of the list. *)
Fixpoint remove_pid (p : Z) (l : list Child) : list Child :=
  match l with
  | [] => []
  | c :: l' => if pid c =? p then l' else c :: remove_pid p l'
  end.
Definition child_remove (c : Child) : sprog unit :=
  upd_s (fun s => s <| children := remove_pid (pid c) (children s) |>).

(** [BASE_RETRY_DELAY_MS << (crashes - 1)], capped. *)
Definition retry_delay (crashes : Z) : Z :=
  Z.min MAX_RETRY_DELAY_MS (Z.shiftl BASE_RETRY_DELAY_MS (crashes - 1)).

(** A child that is to be respawned: at once, later or not at all. *)
Definition respawn_child (c : Child) : sprog unit :=
  t ← now_ms;
  let crashes := if t - start_ms c <? RAPID_CRASH_WINDOW_MS then rapid_crashes c + 1 else 0 in
  if MAX_RAPID_CRASHES <=? crashes then child_remove c
  else if 0 <? crashes then
    t' ← now_ms;
    upd_s (fun s => s <| pending_respawns :=
      mkPending (command c) (is_wm c) (is_panel c) crashes (t' + retry_delay crashes)
        :: pending_respawns s |>);;
    child_remove c
  else
    child_remove c;;
    child_spawn (command c) true (is_wm c) (is_panel c) 0;;
    skip.

Definition reap_one (ps : positive * wstatus) : sprog unit :=
  s ← get_s id;
  match child_find_pid (Z.pos (fst ps)) (children s) with
  | None => skip
  | Some c => if respawn c && running s then respawn_child c else child_remove c
  end.

Definition child_reap : sprog unit :=
  ps ← call ReapAll;
  for_each ps reap_one.

(** The pending respawns whose time has come, in list order; the others stay. *)
Fixpoint respawn_due (now : Z) (todo : list PendingRespawn) : sprog unit :=
  match todo with
  | [] => skip
  | p :: todo' =>
    if now <? deadline_ms p then
      upd_s (fun s => s <| pending_respawns := pending_respawns s ++ [p] |>);;
      respawn_due now todo'
    else
      child_spawn (p_command p) true (p_is_wm p) (p_is_panel p) (p_rapid_crashes p);;
      respawn_due now todo'
  end.

(** The list is walked with a pointer to the link; spawning does not touch it. *)
Definition child_process_pending_respawns : sprog unit :=
  now ← now_ms;
  todo ← get_s pending_respawns;
  pending_respawns =: [];;
  respawn_due now todo.

Fixpoint earliest (e : Z) (l : list PendingRespawn) : Z :=
  match l with
  | [] => e
  | p :: l' => earliest (if (e <? 0) || (deadline_ms p <? e) then deadline_ms p else e) l'
  end.
Definition child_next_respawn_deadline (s : Session) : Z := earliest (-1) (pending_respawns s).

Definition restart_ui_children : sprog unit :=
  cs ← get_s children;
  for_each cs (fun c => when (is_wm c || is_panel c) (call (Kill (pid c) SIGTERM))).

(** ** autostart.c *)

Definition add_entry (cmd : text) (resp : bool) : sprog unit :=
  upd_s (fun s => s <| autostart := autostart s ++ [(cmd, resp)] |>).

Definition rstrip (t : text) : text := rev (skip_space (rev t)).

(** The entry of a line of the autostart file, if it has one. *)
Definition autostart_entry (line : text) : option (text * bool) :=
  match skip_space (rstrip (cstr line)) with
  | [] => None
  | c :: p =>
    if decide (c = "#"%char) then None
    else if decide (c = "@"%char) then
      match skip_space p with [] => None | p' => Some (p', true) end
    else Some (c :: p, false)
  end.

Fixpoint autostart_lines (lines : list text) : sprog unit :=
  match lines with
  | [] => skip
  | l :: ls =>
    match autostart_entry l with Some (cmd, r) => add_entry cmd r | None => skip end;;
    autostart_lines ls
  end.

(** The result tells whether there is such a file. *)
Definition autostart_load (path : text) : sprog bool :=
  f ← call (ReadFile path);
  match f with
  | None => mret false
  | Some file => autostart_lines (fgets_lines 1023 [] file);; mret true
  end.

Definition add_desktop_entry (e : IsdeDesktopEntry) : sprog unit :=
  when (isde_desktop_should_show e (str "ISDE"))
    match e_exec e with Some x => add_entry x false | None => skip end.

Definition autostart_dir (dir : text) : sprog unit :=
  es ← isde_desktop_scan_dir dir;
  for_each es add_desktop_entry.
End Child.
