(* ===== verification/SessBus.v ===== *)
(** * isde-session: the buses (platform/common/session/dbus.c, session.c)

    The screen saver's inhibitors, the command service and the confirmation
    overlay: what messages on the session bus and the system bus do. *)

From S2P Require Import Prelude.
From S2P Require Import CString.
From S2P Require Import CFloat.
From S2P Require Import DesktopEntry.
From S2P Require Import SessCore.
Open Scope Z_scope.

Definition SCREENSAVER_DBUS_IFACE : text := str "org.freedesktop.ScreenSaver".
Definition SCREENSAVER_DBUS_PATH : text := str "/org/freedesktop/ScreenSaver".
Definition SCREENSAVER_DBUS_NAME : text := str "org.freedesktop.ScreenSaver".
Definition DBUS_INTERFACE_DBUS : text := str "org.freedesktop.DBus".
Definition ISDE_SESSION_DBUS_SERVICE : text := str "org.isde.Session".
Definition ISDE_SESSION_DBUS_PATH : text := str "/org/isde/Session".
Definition ISDE_SESSION_DBUS_INTERFACE : text := str "org.isde.Session".
Definition DM_INTERFACE : text := str "org.isde.DisplayManager".

(** A message: a signal or a method call, with what [dbus_message_get_args]
    gives for one, two and three strings, an unsigned number and a boolean. *)
Record DBusMessage := mkMessage {
  m_signal : bool;
  m_interface : text;
  m_member : text;
  m_path : text;
  m_sender : option text;
  m_s : option text;
  m_ss : option (text * text);
  m_sss : option (text * text * text);
  m_u : option Z;
  m_b : option bool
}.

Definition is_signal (iface name : text) (m : DBusMessage) : bool :=
  m_signal m && bool_decide (m_interface m = iface) && bool_decide (m_member m = name).
Definition is_method_call (iface name : text) (m : DBusMessage) : bool :=
  negb (m_signal m) && bool_decide (m_interface m = iface) && bool_decide (m_member m = name).

Section Bus.
Context `{Host}.

(** ** dbus.c: the display manager *)

Definition dm_dbus_call (method : text) : sprog unit :=
  b ← call SystemBus;
  when b (call (DmCall method);; call BusUnref).

(** ** session.c: blanking *)

Definition update_blanking_inhibit : sprog unit :=
  s ← get_s id;
  when (server_context s) (
    if 0 <? inhibit_count s then call (Dpms 0 0 0);; call (ScreenSaver 0)
    else
      call (Dpms (screen_off_sec s) (screen_off_sec s) (screen_off_sec s));;
      call (ScreenSaver (-1))).

(** ** dbus.c: inhibitors, in two arrays of 32 *)

Definition get_at {A} (l : list A) (i : Z) : sprog A := fun w =>
  if decide (0 ≤ i) then
    match l !! Z.to_nat i with Some a => Ok a w | None => Fault OutOfBounds end
  else Fault OutOfBounds.

Definition set_slot (i cookie : Z) (owner : text) : sprog unit :=
  lift_oob (fun w =>
    if decide (0 ≤ i < Z.of_nat (length (inhibit_cookies (ses w))) ∧
               i < Z.of_nat (length (inhibit_owners (ses w)))) then
      Some (w <| ses := (ses w) <| inhibit_cookies := <[Z.to_nat i := cookie]> (inhibit_cookies (ses w)) |>
                               <| inhibit_owners := <[Z.to_nat i := owner]> (inhibit_owners (ses w)) |> |>)
    else None).

(** The last inhibitor takes the place of the one at [i]. *)
Definition drop_slot (i : Z) : sprog unit :=
  upd_s (fun s => s <| inhibit_count := inhibit_count s - 1 |>);;
  s ← get_s id;
  c ← get_at (inhibit_cookies s) (inhibit_count s);
  o ← get_at (inhibit_owners s) (inhibit_count s);
  set_slot i c o.

(** The loop over the inhibitors of an owner; every round moves [i] forward or
    takes one away, so [inhibit_count] rounds are enough.  Was one removed? *)
Fixpoint drop_owner (fuel : nat) (i : Z) (name : text) (removed : bool) : sprog bool :=
  n ← get_s inhibit_count;
  if negb (i <? n) then mret removed
  else match fuel with
  | O => raise OutOfBounds
  | S fuel' =>
    os ← get_s inhibit_owners;
    o ← get_at os i;
    if bool_decide (o = name) then drop_slot i;; drop_owner fuel' i name true
    else drop_owner fuel' (i + 1) name removed
  end.

Definition session_bus_filter (m : DBusMessage) : sprog unit :=
  if is_signal DBUS_INTERFACE_DBUS (str "NameOwnerChanged") m then
    match m_sss m with
    | None => skip
    | Some (name, old_owner, new_owner) =>
      if negb (bool_decide (new_owner = [])) then skip
      else
        n ← get_s inhibit_count;
        removed ← drop_owner (Z.to_nat n) 0 name false;
        when removed update_blanking_inhibit
    end
  else skip.

(** The loop of UnInhibit. *)
Fixpoint drop_cookie (fuel : nat) (i cookie : Z) : sprog unit :=
  n ← get_s inhibit_count;
  if negb (i <? n) then skip
  else match fuel with
  | O => raise OutOfBounds
  | S fuel' =>
    cs ← get_s inhibit_cookies;
    c ← get_at cs i;
    if c =? cookie then drop_slot i;; update_blanking_inhibit
    else drop_cookie fuel' (i + 1) cookie
  end.

Definition inhibit (m : DBusMessage) : sprog unit :=
  n ← get_s inhibit_count;
  if 32 <=? n then call (Reply LimitsExceeded)
  else
    upd_s (fun s => s <| next_cookie := u32 (next_cookie s + 1) |>);;
    cookie ← get_s next_cookie;
    upd_s (fun s => s <| inhibit_count := inhibit_count s + 1 |>);;
    set_slot n cookie (trunc 64 (default [] (m_sender m)));;
    update_blanking_inhibit;;
    call (Reply (CookieReply cookie)).

Definition screensaver_message_handler (m : DBusMessage) : sprog unit :=
  if is_method_call SCREENSAVER_DBUS_IFACE (str "Inhibit") m then
    match m_ss m with None => skip | Some _ => inhibit m end
  else if is_method_call SCREENSAVER_DBUS_IFACE (str "UnInhibit") m then
    match m_u m with
    | None => skip
    | Some cookie =>
      n ← get_s inhibit_count;
      drop_cookie (Z.to_nat n) 0 cookie;;
      call (Reply EmptyReply)
    end
  else skip.

Definition init_screensaver_service : sprog unit :=
  b ← call SessionBus;
  when b (
    n ← call (RequestName SCREENSAVER_DBUS_NAME);
    if (n : bool) then session_bus =: true else call BusUnref).

(** ** session.c: the confirmation overlay *)

Definition confirmable (action : text) : bool :=
  bool_decide (action = str "shutdown") || bool_decide (action = str "reboot") ||
  bool_decide (action = str "suspend") || bool_decide (action = str "logout").

Definition confirm_child (action : text) : sprog unit :=
  ok ← call (Exec (str "isde-confirm") [str "isde-confirm"; str "--action"; action]);
  when (negb ok) (call (Exit 1)).

Definition show_confirmation (action : text) : sprog unit :=
  p ← get_s confirm_pid;
  if 0 <? p then skip
  else if negb (confirmable action) then skip
  else
    confirm_action =: trunc 16 action;;
    n ← fork (Confirm action) (confirm_child action);
    if n <? 0 then skip else confirm_pid =: n.

(** What an accepted confirmation does. *)
Definition confirmed (action : text) : sprog unit :=
  if bool_decide (action = str "shutdown") then dm_dbus_call (str "Shutdown")
  else if bool_decide (action = str "reboot") then dm_dbus_call (str "Reboot")
  else if bool_decide (action = str "suspend") then dm_dbus_call (str "Suspend")
  else if bool_decide (action = str "logout") then running =: false
  else skip.

Definition confirm_reap : sprog unit :=
  p ← get_s confirm_pid;
  if p <=? 0 then skip
  else
    st ← call (WaitNoHang p);
    match st with
    | None => skip
    | Some st =>
      confirm_pid =: 0;;
      a ← get_s confirm_action;
      match st with
      | Exited 0 => confirmed a
      | _ => skip
      end;;
      confirm_action =: []
    end.

(** ** session.c: the command service and the display manager's signals *)

Definition session_command_handler (m : DBusMessage) : sprog unit :=
  if is_method_call ISDE_SESSION_DBUS_INTERFACE (str "Logout") m then show_confirmation (str "logout")
  else if is_method_call ISDE_SESSION_DBUS_INTERFACE (str "Shutdown") m then show_confirmation (str "shutdown")
  else if is_method_call ISDE_SESSION_DBUS_INTERFACE (str "Reboot") m then show_confirmation (str "reboot")
  else if is_method_call ISDE_SESSION_DBUS_INTERFACE (str "Suspend") m then show_confirmation (str "suspend")
  else if is_method_call ISDE_SESSION_DBUS_INTERFACE (str "Lock") m then dm_dbus_call (str "Lock")
  else skip.

Definition init_session_command_service : sprog unit :=
  b ← get_s session_bus;
  when b (
    n ← call (RequestName ISDE_SESSION_DBUS_SERVICE);
    when n (command_object =: true)).

Definition lid_closed (a : LidAction) : sprog unit :=
  match a with
  | LID_ACTION_SUSPEND | LID_ACTION_HIBERNATE => dm_dbus_call (str "Suspend")
  | LID_ACTION_LOCK => dm_dbus_call (str "Lock")
  | LID_ACTION_NOTHING => skip
  end.

Definition system_bus_filter (m : DBusMessage) : sprog unit :=
  if is_signal DM_INTERFACE (str "ConfirmationRequested") m then
    match m_s m with Some action => show_confirmation action | None => skip end
  else if is_signal DM_INTERFACE (str "LidSwitchChanged") m then
    match m_b m with
    | Some true => a ← get_s lid_action; lid_closed a
    | _ => skip
    end
  else skip.

(** A message on the session bus: the filter, then the object of its path. *)
Definition session_bus_message (m : DBusMessage) : sprog unit :=
  session_bus_filter m;;
  s ← get_s id;
  if m_signal m then skip
  else if bool_decide (m_path m = SCREENSAVER_DBUS_PATH) || bool_decide (m_path m = str "/ScreenSaver")
  then screensaver_message_handler m
  else when (command_object s && bool_decide (m_path m = ISDE_SESSION_DBUS_PATH))
    (session_command_handler m).

Definition system_bus_input_ready (ms : list DBusMessage) : sprog unit :=
  b ← get_s system_bus;
  when b (for_each ms system_bus_filter).
Definition session_bus_input_ready (ms : list DBusMessage) : sprog unit :=
  b ← get_s session_bus;
  when b (for_each ms session_bus_message).
End Bus.
