(* ===== verification/SessRun.v ===== *)
(** * isde-session: settings, start-up, the main loop and the end
      (platform/X11/session/src/session.c, main.c, isde-xdg.c) *)

From S2P Require Import Prelude.
From S2P Require Import CString.
From S2P Require Import CFloat.
From S2P Require Import DesktopEntry.
From S2P Require Import SessCore.
From S2P Require Import SessBus.
Open Scope Z_scope.

(** ** Numbers in text *)

Definition hex_value (c : ascii) : option Z :=
  let n := Z.of_N (N_of_ascii c) in
  if (48 <=? n) && (n <=? 57) then Some (n - 48)
  else if (97 <=? n) && (n <=? 102) then Some (n - 87)
  else if (65 <=? n) && (n <=? 70) then Some (n - 55)
  else None.

Definition ULONG_MAX : Z := 2 ^ 64 - 1.

(** The hexadecimal digits at the start of a text, and whether there are any. *)
Fixpoint hex_digits (acc : Z) (some : bool) (t : text) : Z * bool :=
  match t with
  | c :: t' =>
    match hex_value c with
    | Some d => hex_digits (Z.min ULONG_MAX (acc * 16 + d)) true t'
    | None => (acc, some)
    end
  | [] => (acc, some)
  end.

(** [strtoul(t, &end, 16)]: the value, if there is a number. *)
Definition strtoul16 (t : text) : option Z :=
  let t := skip_space t in
  let '(neg, t) := match t with
                   | c :: t' => if decide (c = "-"%char) then (true, t')
                                else if decide (c = "+"%char) then (false, t') else (false, t)
                   | [] => (false, t)
                   end in
  let t := match t with
           | z :: x :: d :: t' =>
             if decide (z = "0"%char ∧ (x = "x"%char ∨ x = "X"%char) ∧ is_Some (hex_value d))
             then d :: t' else t
           | _ => t
           end in
  match hex_digits 0 false t with
  | (v, true) => Some (if (neg : bool) && (v <? ULONG_MAX) then (- v) mod 2 ^ 64 else v)
  | (_, false) => None
  end.

Definition parse_hex_color (s : option text) (fallback : Z) : Z :=
  match s with
  | None => fallback
  | Some t =>
    let t := match t with c :: t' => if decide (c = "#"%char) then t' else t | [] => t end in
    match strtoul16 t with
    | Some v => Z.land v 16777215
    | None => fallback
    end
  end.

Definition parse_lid_action (s : text) : LidAction :=
  if bool_decide (s = str "hibernate") then LID_ACTION_HIBERNATE
  else if bool_decide (s = str "lock") then LID_ACTION_LOCK
  else if bool_decide (s = str "nothing") then LID_ACTION_NOTHING
  else LID_ACTION_SUSPEND.

(** [(int)isde_config_int(tbl, key, def)] *)
Definition config_int (t : table) (key : text) (def : Z) : Z := s32 (default def (c_int t key)).

(** What [poll] reports: a signal, an error, or what can be read: settings
    changes (their sections), the death of a child, messages on the two buses. *)
Record sready := mkSReady {
  r_settings : option (list text);
  r_sigchld : bool;
  r_system : list DBusMessage;
  r_session : list DBusMessage
}.
Inductive swake := SInterrupted (terminate : bool) | SPollFailed | SReady (r : sready).

Section Run.
Context `{Host}.

(** ** isde-xdg.c: the default of [isde_xdg_config_home] is computed once there;
    [HOME] does not change. *)

Definition getenv_or (name : text) (def : sprog text) : sprog text :=
  v ← call (Getenv name);
  match v with Some (c :: t) => mret (c :: t) | _ => def end.

Definition get_home : sprog text :=
  h ← call (Getenv (str "HOME"));
  mret (default (str "/tmp") h).
Definition isde_xdg_config_home : sprog text :=
  getenv_or (str "XDG_CONFIG_HOME") (h ← get_home; mret (trunc 512 (h ++ str "/.config"))).
Definition isde_xdg_config_dirs : sprog text :=
  getenv_or (str "XDG_CONFIG_DIRS") (mret (str "/usr/local/etc/xdg:/etc/xdg")).

Fixpoint find_first (paths : list text) : sprog (option text) :=
  match paths with
  | [] => mret None
  | p :: ps => ok ← call (Access p); if (ok : bool) then mret (Some p) else find_first ps
  end.

Definition find_in_dirs (home dirs name : text) : sprog (option text) :=
  find_first (map (fun d => d ++ str "/isde/" ++ name) (home :: colon_dirs [] dirs)).

Definition isde_xdg_find_config (name : text) : sprog (option text) :=
  home ← isde_xdg_config_home;
  dirs ← isde_xdg_config_dirs;
  find_in_dirs home dirs name.

(** ** autostart.c *)

Definition autostart_load_xdg : sprog unit :=
  home ← isde_xdg_config_home;
  autostart_dir (trunc 512 (home ++ str "/autostart"));;
  dirs ← isde_xdg_config_dirs;
  for_each (colon_dirs [] dirs) (fun d =>
    when (Nat.ltb (length d) 500) (autostart_dir (trunc 512 (d ++ str "/autostart")))).

(** ** Settings *)

Definition apply_appearance_settings : sprog unit :=
  cfg ← call LoadConfig;
  match cfg with
  | None => skip
  | Some cfg =>
    match cfg (str "appearance") with
    | Some t =>
      match c_string t (str "cursor_theme") with
      | Some c => call (Setenv (str "XCURSOR_THEME") c) | None => skip end;;
      match c_string t (str "cursor_size") with
      | Some _ => call (Unsetenv (str "XCURSOR_SIZE")) | None => skip end
    | None => skip
    end;;
    match cfg (str "display") with
    | Some t =>
      let scale := config_int t (str "scale_percent") 100 in
      when (0 <? scale) (call (SetScaling scale))
    | None => skip
    end
  end.

Definition apply_input_settings : sprog unit :=
  cfg ← call LoadConfig;
  match cfg with
  | None => skip
  | Some cfg =>
    match cfg (str "input") with
    | None => skip
    | Some t =>
      let accel := config_int t (str "mouse_acceleration") (-1) in
      let threshold := config_int t (str "mouse_threshold") (-1) in
      let kb k := match cfg (str "keyboard") with Some t => config_int t k (-1) | None => -1 end in
      let rep_delay := kb (str "repeat_delay") in
      let rep_int := kb (str "repeat_interval") in
      call (Getenv (str "DISPLAY"));;
      ok ← call Connect;
      if negb ok then call Disconnect
      else
        when ((0 <? accel) || (0 <? threshold))
          (call (PointerControl (if 0 <? accel then accel else 2) (if 0 <? threshold then threshold else 4)
                   (0 <? accel) (0 <? threshold)));;
        when ((0 <? rep_delay) || (0 <? rep_int))
          (call (KeyRepeat (if 0 <? rep_delay then rep_delay else 300) (if 0 <? rep_int then rep_int else 30)));;
        call Disconnect
    end
  end.

Definition apply_power_settings : sprog unit :=
  cfg ← call LoadConfig;
  match cfg with
  | None => skip
  | Some cfg =>
    match cfg (str "power") with
    | None => skip
    | Some t =>
      screen_off_sec =: config_int t (str "screen_off_sec") 600;;
      idle_suspend_sec =: config_int t (str "idle_suspend_sec") 0;;
      lid_action =: parse_lid_action (default (str "suspend") (c_string t (str "lid_action")));;
      s ← get_s id;
      when (server_context s) (call (Dpms (screen_off_sec s) (screen_off_sec s) (screen_off_sec s)))
    end
  end.

Definition set_background (bg : option table) : sprog unit :=
  match bg with
  | Some t =>
    bg_mode =: (if bool_decide (default (str "solid") (c_string t (str "mode")) = str "image")
                then BG_MODE_IMAGE else BG_MODE_SOLID);;
    bg_color =: parse_hex_color (Some (default (str "#1a1a2e") (c_string t (str "color")))) 1710638;;
    match c_string t (str "image") with
    | Some (c :: img) => bg_image_path =: Some (c :: img)
    | _ => skip
    end
  | None => bg_mode =: BG_MODE_SOLID;; bg_color =: 1710638
  end.

(** The configuration; [bg] is the table desktop.background.  The image is
    painted unless it cannot be loaded. *)
Definition apply_background : sprog unit :=
  c ← get_s server_context;
  when c (
    cfg ← call LoadConfig;
    match cfg with
    | None => skip
    | Some cfg =>
      bg_image_path =: None;;
      set_background (cfg (str "desktop.background"));;
      s ← get_s id;
      painted ← match bg_mode s, bg_image_path s with
                | BG_MODE_IMAGE, Some img => call (PaintImage img)
                | _, _ => mret false
                end;
      when (negb painted) (call (PaintSolid (bg_color s)))
    end).

Definition on_settings_changed (section : text) : sprog unit :=
  let all := bool_decide (section = str "*") in
  when (bool_decide (section = str "display") || all) (reload_display =: true);;
  when (bool_decide (section = str "appearance") || all) (reload_appearance =: true);;
  when (bool_decide (section = str "power") || all) (reload_power =: true);;
  when (bool_decide (section = str "desktop.background") || all) (reload_background =: true).

(** ** Timers *)

Definition idle_timer_fire : sprog unit :=
  t ← now_ms;
  idle_deadline_ms =: t + 10000;;
  s ← get_s id;
  if 0 <? inhibit_count s then skip
  else when (((0 <? idle_lock_sec s) || (0 <? idle_suspend_sec s)) && server_context s) (
    r ← call IdleTime;
    match r with
    | None => skip
    | Some ms =>
      let idle_sec := s32 (u32 ms / 1000) in
      when ((0 <? idle_lock_sec s) && (idle_lock_sec s <=? idle_sec)) (dm_dbus_call (str "Lock"));;
      when ((0 <? idle_suspend_sec s) && (idle_suspend_sec s <=? idle_sec)) (dm_dbus_call (str "Suspend"))
    end).

Definition check_timer_fire : sprog unit :=
  t ← now_ms;
  check_deadline_ms =: t + 500;;
  d ← get_s reload_display;
  when d (reload_display =: false;; apply_appearance_settings;; restart_ui_children);;
  a ← get_s id;
  when (reload_appearance a) (
    reload_appearance =: false;;
    call ThemeReload;;
    when (server_context a) (call PublishTheme));;
  p ← get_s reload_power;
  when p (reload_power =: false;; apply_power_settings);;
  b ← get_s reload_background;
  when b (reload_background =: false;; apply_background).

(** ** Start-up *)

Definition initial_session : Session :=
  mkSession None None None [] [] [] false (-1, -1) 0 0 0 0 LID_ACTION_SUSPEND 0 BG_MODE_SOLID 0 None 0
    (-1, -1) false false false false (repeat 0 32) (repeat [] 32) 0 0 false false false false [] false.

Definition set_opt (v : option text) (f : text → Session → Session) : sprog unit :=
  match v with Some t => upd_s (f t) | None => skip end.

Definition load_session_config : sprog unit :=
  cfg ← call LoadConfig;
  match cfg with
  | Some cfg =>
    match cfg (str "session") with
    | Some t =>
      set_opt (c_string t (str "window_manager")) (fun v s => s <| wm_command := Some v |>);;
      set_opt (c_string t (str "panel")) (fun v s => s <| panel_command := Some v |>);;
      set_opt (c_string t (str "file_manager")) (fun v s => s <| fm_command := Some v |>);;
      idle_lock_sec =: config_int t (str "lock_timeout") 0
    | None => skip
    end
  | None => skip
  end;;
  upd_s (fun s => s <| wm_command := Some (default (str "isde-wm") (wm_command s)) |>);;
  upd_s (fun s => s <| panel_command := Some (default (str "isde-panel-x11") (panel_command s)) |>).

Definition init_system_bus : sprog unit := b ← call SystemBus; system_bus =: b.

Definition init_server : sprog unit :=
  call (Getenv (str "DISPLAY"));;
  ok ← call Connect;
  server_context =: ok;;
  if (ok : bool) then
    call PublishTheme;;
    s ← get_s id;
    when (0 <? screen_off_sec s) (call (Dpms (screen_off_sec s) (screen_off_sec s) (screen_off_sec s)));;
    apply_background
  else call Disconnect.

Definition session_init : sprog unit :=
  upd_s (fun _ => initial_session);;
  load_session_config;;
  path ← isde_xdg_find_config (str "autostart");
  match path with Some p => autostart_load p;; skip | None => skip end;;
  autostart_load_xdg;;
  apply_appearance_settings;;
  apply_input_settings;;
  apply_power_settings;;
  p ← call MakePipe;
  sigchld_pipe =: default (-1, -1) p;;
  b ← call SettingsBus;
  dbus =: b;;
  init_system_bus;;
  init_screensaver_service;;
  init_session_command_service;;
  init_server;;
  d ← call MakePipe;
  death_pipe =: default (-1, -1) d;;
  running =: true.

(** ** The main loop *)

(** The time [poll] may wait; [buffered] tells whether a bus has undelivered messages. *)
Definition poll_timeout (s : Session) (now : Z) (buffered : bool) : Z :=
  let d := if 0 <? check_deadline_ms s then check_deadline_ms s else -1 in
  let d := if (0 <? idle_deadline_ms s) && ((d <? 0) || (idle_deadline_ms s <? d))
           then idle_deadline_ms s else d in
  let r := child_next_respawn_deadline s in
  let d := if (0 <=? r) && ((d <? 0) || (r <? d)) then r else d in
  if buffered then 0 else if 0 <=? d then Z.max 0 (s32 (d - now)) else -1.

Definition fire_timers : sprog unit :=
  now ← now_ms;
  s ← get_s id;
  when ((0 <? check_deadline_ms s) && (check_deadline_ms s <=? now)) check_timer_fire;;
  s ← get_s id;
  when ((0 <? idle_deadline_ms s) && (idle_deadline_ms s <=? now)) idle_timer_fire;;
  p ← get_s pending_respawns;
  match p with [] => skip | _ => child_process_pending_respawns end.

Definition sigchld_dispatch : sprog unit := confirm_reap;; child_reap.

(** A round, after [poll] has returned. *)
Definition session_round (r : sready) : sprog unit :=
  s ← get_s id;
  when ((0 <=? fst (sigchld_pipe s)) && r_sigchld r) sigchld_dispatch;;
  match r_settings r with
  | Some sections => when (dbus s) (for_each sections on_settings_changed)
  | None => skip
  end;;
  system_bus_input_ready (r_system r);;
  session_bus_input_ready (r_session r);;
  fire_timers.

Fixpoint session_loop (wakes : list (bool * swake)) : sprog unit :=
  match wakes with
  | [] => skip
  | (buffered, w) :: ws =>
    s ← get_s id;
    if negb (running s) then skip
    else
      now ← now_ms;
      call (Poll (poll_timeout s now buffered));;
      match w with
      | SInterrupted t => when t (running =: false);; session_loop ws
      | SPollFailed => skip
      | SReady r => session_round r;; session_loop ws
      end
  end.

(** The components: window manager, panel, autostart.  Is there a window manager? *)
Definition start_components : sprog bool :=
  s ← get_s id;
  ok ← child_spawn (default [] (wm_command s)) true true false 0;
  if negb ok then mret false
  else
    call (Sleep 500);;
    match panel_command s with
    | Some p => child_spawn p true false true 0;; skip
    | None => skip
    end;;
    for_each (autostart s) (fun e => child_spawn (fst e) (snd e) false false 0;; skip);;
    mret true.

Definition session_run (wakes : list (bool * swake)) : sprog unit :=
  ok ← start_components;
  when ok (
    t ← now_ms;
    check_deadline_ms =: t + 500;;
    s ← get_s id;
    when ((0 <? idle_lock_sec s) || (0 <? idle_suspend_sec s))
      (t ← now_ms; idle_deadline_ms =: t + 10000);;
    session_loop wakes).

(** ** The end *)

Definition reap_known : sprog unit :=
  ps ← call ReapAll;
  for_each ps (fun p =>
    s ← get_s id;
    match child_find_pid (Z.pos (fst p)) (children s) with
    | Some c => child_remove c
    | None => skip
    end).

Fixpoint wait_closed (n : nat) : sprog unit :=
  match n with
  | O => skip
  | S n' => reap_known;; call (Sleep 50);; wait_closed n'
  end.

Fixpoint wait_gone (n : nat) : sprog unit :=
  match n with
  | O => skip
  | S n' =>
    cs ← get_s children;
    match cs with
    | [] => skip
    | _ =>
      reap_known;;
      cs ← get_s children;
      match cs with
      | [] => skip
      | _ => call (Sleep 50);; wait_gone n'
      end
    end
  end.

(** Every managed window is asked to close. *)
Definition close_windows : sprog unit :=
  c ← get_s server_context;
  when c (
    e ← call EwmhInit;
    when e (
      ws ← call ClientList;
      for_each ws (fun w => call (RequestClose w));;
      wait_closed 60)).

(** SIGTERM reaches the session manager itself, whose handler clears [running].
    The result tells whether the process is alive: SIGKILL reaches it too. *)
Definition child_kill_all : sprog bool :=
  upd_s (fun s => s <| children := map (fun c => c <| respawn := false |>) (children s) |>);;
  pending_respawns =: [];;
  close_windows;;
  call (KillGroup SIGTERM);;
  running =: false;;
  wait_gone 40;;
  cs ← get_s children;
  match cs with
  | [] => mret true
  | _ => call (KillGroup SIGKILL);; mret false
  end.

Definition session_shutdown : sprog bool := running =: false;; child_kill_all.

Definition close_if (fd : Z) : sprog unit := when (0 <=? fd) (call (CloseFd fd)).

(** What is open is closed. *)
Definition release : sprog unit :=
  s ← get_s id;
  close_if (fst (death_pipe s));;
  close_if (snd (death_pipe s));;
  close_if (fst (sigchld_pipe s));;
  close_if (snd (sigchld_pipe s));;
  autostart =: [];;
  when (dbus s) (call SettingsFree);;
  when (server_context s) (call Disconnect);;
  when (system_bus s) (call BusUnref);;
  when (session_bus s) (call BusUnref).

Definition session_cleanup : sprog bool :=
  p ← get_s confirm_pid;
  when (0 <? p) (call (Kill p SIGTERM);; call (WaitBlock p);; confirm_pid =: 0);;
  alive ← child_kill_all;
  when alive release;;
  mret alive.

(** The exit status, unless the process was killed. *)
Definition session_main (wakes : list (bool * swake)) : sprog (option Z) :=
  session_init;;
  session_run wakes;;
  alive ← session_cleanup;
  mret (if (alive : bool) then Some 0 else None).
End Run.
