(* ===== verification/SessInhibit.v ===== *)
(** * isde-session: the inhibitors as a bag

    The inhibitors of the screen saver sit in two arrays of 32 with a count, and
    one is removed by moving the last into its place.  [active] reads them as a
    list of cookies with their owners; up to order, adding and removing are
    adding to the list and filtering it. *)

From S2P Require Import Prelude.
From S2P Require Import CString.
From S2P Require Import CFloat.
From S2P Require Import TwoState.
From S2P Require Import DesktopEntry.
From S2P Require Import SessCore.
From S2P Require Import SessBus.
Open Scope Z_scope.

Definition slots_fit (cs : list Z) (os : list text) (n : Z) : Prop :=
  length cs = 32%nat ∧ length os = 32%nat ∧ 0 ≤ n ≤ 32.

Definition slots (cs : list Z) (os : list text) (n : Z) : list (Z * text) :=
  zip (take (Z.to_nat n) cs) (take (Z.to_nat n) os).

Definition active (s : Session) : list (Z * text) :=
  slots (inhibit_cookies s) (inhibit_owners s) (inhibit_count s).
Definition inhibitors_fit (s : Session) : Prop :=
  slots_fit (inhibit_cookies s) (inhibit_owners s) (inhibit_count s).

(** The session with other inhibitors. *)
Definition with_slots (s : Session) (cs : list Z) (os : list text) (n : Z) : Session :=
  s <| inhibit_cookies := cs |> <| inhibit_owners := os |> <| inhibit_count := n |>.

Lemma slots_length cs os n : slots_fit cs os n → length (slots cs os n) = Z.to_nat n.
Proof. intros (?&?&?). unfold slots. rewrite length_zip_with, !length_take. lia. Qed.

Lemma slots_lookup cs os n i c o :
  slots_fit cs os n → (i < Z.to_nat n)%nat → cs !! i = Some c → os !! i = Some o →
  slots cs os n !! i = Some (c, o).
Proof.
  intros _ Hi Hc Ho. unfold slots. apply lookup_zip_with_Some. exists c, o.
  split; [done|]. by rewrite !lookup_take_lt.
Qed.

Lemma slots_some cs os n i :
  slots_fit cs os n → 0 ≤ i < 32 → ∃ c o, cs !! Z.to_nat i = Some c ∧ os !! Z.to_nat i = Some o.
Proof.
  intros (?&?&?) Hi.
  destruct (lookup_lt_is_Some_2 cs (Z.to_nat i)) as [c Hc]; [lia|].
  destruct (lookup_lt_is_Some_2 os (Z.to_nat i)) as [o Ho]; [lia|]. eauto.
Qed.

(** A new inhibitor goes to the end. *)
Lemma slots_add cs os n c o :
  slots_fit cs os n → n < 32 →
  slots (<[Z.to_nat n := c]> cs) (<[Z.to_nat n := o]> os) (n + 1) = slots cs os n ++ [(c, o)].
Proof.
  intros (Hc&Ho&Hn) Hlt. unfold slots. replace (Z.to_nat (n + 1)) with (S (Z.to_nat n)) by lia.
  assert (Ht : ∀ {T} (l : list T) x, length l = 32%nat →
    take (S (Z.to_nat n)) (<[Z.to_nat n := x]> l) = take (Z.to_nat n) l ++ [x]).
  { intros T l x Hl. rewrite (take_S_r _ _ x); [by rewrite take_insert_ge by lia|].
    apply list_lookup_insert_eq. lia. }
  rewrite !Ht by done. rewrite zip_with_app; [done|]. rewrite !length_take. lia.
Qed.

(** The last one takes the place of the one removed. *)
Lemma last_fills_gap {T} (l : list T) i x :
  (i < length l)%nat → last l = Some x →
  take (length l - 1) (<[i := x]> l) ≡ₚ delete i l.
Proof.
  intros Hi Hl. destruct l as [|y l _] using rev_ind; [done|].
  rewrite last_snoc in Hl. injection Hl as ->. rewrite length_app in *. cbn [length] in *.
  replace (length l + 1 - 1)%nat with (length l) by lia.
  destruct (decide (i = length l)) as [->|Hne].
  - rewrite take_insert_ge by lia. by rewrite take_app_length, delete_middle, app_nil_r.
  - destruct (lookup_lt_is_Some_2 l i) as [z Hz]; [lia|].
    apply list_elem_of_split_length in Hz as (a & b & -> & ->).
    rewrite <- app_assoc. cbn [app]. rewrite delete_middle.
    assert (E : <[length a := x]> (a ++ z :: b ++ [x]) = (a ++ x :: b) ++ [x]).
    { rewrite <- app_assoc. rewrite insert_app_r_alt by done. by rewrite Nat.sub_diag. }
    rewrite E, take_app_length' by (rewrite !length_app; done).
    apply Permutation_app_head. apply Permutation_cons_append.
Qed.

Lemma slots_take cs os n m : m ≤ n → slots cs os m = take (Z.to_nat m) (slots cs os n).
Proof.
  intros Hm. unfold slots. rewrite zip_with_take, !take_take. by rewrite Nat.min_l by lia.
Qed.

Lemma slots_insert cs os n i c o :
  0 ≤ i < n → slots (<[Z.to_nat i := c]> cs) (<[Z.to_nat i := o]> os) n = <[Z.to_nat i := (c, o)]> (slots cs os n).
Proof. intros Hi. unfold slots. by rewrite insert_zip_with, !take_insert_lt by lia. Qed.

(** What [drop_slot] leaves in the arrays. *)
Lemma slots_drop cs os n i c o :
  slots_fit cs os n → 0 ≤ i < n →
  cs !! Z.to_nat (n - 1) = Some c → os !! Z.to_nat (n - 1) = Some o →
  slots (<[Z.to_nat i := c]> cs) (<[Z.to_nat i := o]> os) (n - 1) ≡ₚ delete (Z.to_nat i) (slots cs os n).
Proof.
  intros Hf Hi Hc Ho. rewrite (slots_take _ _ n) by lia. rewrite slots_insert by done.
  replace (Z.to_nat (n - 1)) with (length (slots cs os n) - 1)%nat by (rewrite slots_length by done; lia).
  apply last_fills_gap; [rewrite slots_length by done; lia|].
  rewrite last_lookup, slots_length by done. replace (pred (Z.to_nat n)) with (Z.to_nat (n - 1)) by lia.
  apply slots_lookup; [done|lia|done..].
Qed.

(** The entries of the other owners. *)
Abbreviation others name := (filter (fun x : Z * text => snd x ≠ name)) (only parsing).

Section Inhibit.
Context `{Host}.

Lemma wp_scall E (c : scall) (Q : sresult c → World → Prop) w :
  Q (host (calls w) c) (w <| calls := c :: calls w |>) → wp E (call c) Q w.
Proof. done. Qed.

Lemma wp_get_at {A} (l : list A) i a (Q : A → World → Prop) w :
  0 ≤ i → l !! Z.to_nat i = Some a → Q a w → wp no_fault (get_at l i) Q w.
Proof. intros Hi Hl HQ. unfold wp, get_at. destruct (decide _); [|done]. by rewrite Hl. Qed.

Lemma wp_set_slot i c o (Q : unit → World → Prop) w :
  length (inhibit_cookies (ses w)) = 32%nat → length (inhibit_owners (ses w)) = 32%nat → 0 ≤ i < 32 →
  Q tt (w <| ses := with_slots (ses w) (<[Z.to_nat i := c]> (inhibit_cookies (ses w)))
                     (<[Z.to_nat i := o]> (inhibit_owners (ses w))) (inhibit_count (ses w)) |>) →
  wp no_fault (set_slot i c o) Q w.
Proof.
  intros Hc Ho Hi HQ. eapply wp_lift_oob; [|exact HQ]. destruct (decide _) as [_|Hn]; [|lia].
  done.
Qed.

(** The world with other inhibitors; the rest is as in [w]. *)
Definition slots_to (w : World) (cs : list Z) (os : list text) (n : Z) : World :=
  w <| ses := with_slots (ses w) cs os n |>.

Lemma wp_drop_slot i w (Q : unit → World → Prop) :
  inhibitors_fit (ses w) → 0 ≤ i < inhibit_count (ses w) →
  (∀ cs os, slots_fit cs os (inhibit_count (ses w) - 1) →
     slots cs os (inhibit_count (ses w) - 1) ≡ₚ delete (Z.to_nat i) (active (ses w)) →
     take (Z.to_nat i) (slots cs os (inhibit_count (ses w) - 1)) = take (Z.to_nat i) (active (ses w)) →
     Q tt (slots_to w cs os (inhibit_count (ses w) - 1))) →
  wp no_fault (drop_slot i) Q w.
Proof.
  intros Hf Hi HQ. pose proof Hf as (Hc & Ho & Hn). unfold drop_slot.
  apply wp_bind, wp_modify. cbn beta. apply wp_bind, wp_gets. cbn.
  set (n := inhibit_count (ses w)) in *.
  destruct (slots_some _ _ _ (n - 1) Hf) as (c & o & Ec & Eo); [lia|].
  apply wp_bind. eapply wp_get_at; [lia|exact Ec|]. cbn beta.
  apply wp_bind. eapply wp_get_at; [lia|exact Eo|]. cbn beta.
  apply wp_set_slot; [done|done|lia|].
  refine (HQ (<[Z.to_nat i := c]> (inhibit_cookies (ses w))) (<[Z.to_nat i := o]> (inhibit_owners (ses w))) _ _ _).
  - unfold slots_fit. rewrite !length_insert. lia.
  - by apply slots_drop.
  - rewrite (slots_take _ _ n), slots_insert by lia. rewrite take_take, Nat.min_l by lia.
    by rewrite take_insert_ge.
Qed.

Lemma slots_to_self w :
  slots_to w (inhibit_cookies (ses w)) (inhibit_owners (ses w)) (inhibit_count (ses w)) = w.
Proof. by destruct w as [[] ? ?]. Qed.

Lemma slots_to_twice w cs os n cs' os' n' :
  slots_to (slots_to w cs os n) cs' os' n' = slots_to w cs' os' n'.
Proof. done. Qed.

Lemma filter_keeps_all name (l : list (Z * text)) : Forall (fun x => snd x ≠ name) l → others name l = l.
Proof. induction 1; [done|]. rewrite filter_cons_True by done. by f_equal. Qed.

Lemma filter_drop_one name (l : list (Z * text)) i c :
  l !! i = Some (c, name) → others name l ≡ₚ others name (delete i l).
Proof.
  intros Hi. rewrite (delete_Permutation l i _ Hi) at 1. rewrite filter_cons_False; [done|].
  intros Hn. by apply Hn.
Qed.

Lemma wp_drop_owner fuel i name b w (Q : bool → World → Prop) :
  inhibitors_fit (ses w) → 0 ≤ i → inhibit_count (ses w) - i ≤ Z.of_nat fuel →
  Forall (fun x => snd x ≠ name) (take (Z.to_nat i) (active (ses w))) →
  (∀ cs os n b', slots_fit cs os n → slots cs os n ≡ₚ others name (active (ses w)) →
     b' = b || (n <? inhibit_count (ses w)) →
     (n = inhibit_count (ses w) → slots_to w cs os n = w) → Q b' (slots_to w cs os n)) →
  wp no_fault (drop_owner fuel i name b) Q w.
Proof.
  revert i b w Q. induction fuel as [|fuel IH]; intros i b w Q Hf Hi Hfuel Hpre HQ;
    cbn [drop_owner]; apply wp_bind, wp_gets; destruct (Z.ltb_spec i (inhibit_count (ses w))) as [Hlt|Hge];
    cbn [negb]; try (exfalso; lia).
  1, 3: apply wp_ret; rewrite <- (slots_to_self w) at 1; apply HQ;
    [done| |by rewrite Z.ltb_irrefl, orb_false_r|intros _; apply slots_to_self];
    rewrite take_ge in Hpre by (unfold active; rewrite slots_length by done; lia);
    by rewrite filter_keeps_all.
  destruct (slots_some _ _ _ i Hf) as (c & o & Ec & Eo); [destruct Hf as (_&_&?); lia|].
  assert (El : active (ses w) !! Z.to_nat i = Some (c, o)) by (apply slots_lookup; [done|lia|done..]).
  apply wp_bind, wp_gets, wp_bind. eapply wp_get_at; [lia|exact Eo|]. cbn beta.
  destruct (bool_decide_reflect (o = name)) as [->|Hne].
  - apply wp_bind, wp_drop_slot; [done|lia|]. intros cs os Hf' Hs Ht.
    apply IH; [done|lia|cbn; lia| |].
    + cbn. change (Forall (fun x => snd x ≠ name) (take (Z.to_nat i) (slots cs os (inhibit_count (ses w) - 1)))).
      by rewrite Ht.
    + intros cs' os' n' b' Hf'' Hs'' -> _.
      assert (Hn' : n' < inhibit_count (ses w)).
      { apply Permutation_length in Hs''. pose proof (length_filter (fun x : Z * text => snd x ≠ name)
          (slots cs os (inhibit_count (ses w) - 1))) as Hl.
        rewrite slots_length in Hs'', Hl by done. pose proof Hf'' as (_&_&?). pose proof Hf' as (_&_&?).
        change (active _) with (slots cs os (inhibit_count (ses w) - 1)) in Hs''. lia. }
      refine (HQ cs' os' n' _ Hf'' _ _ _).
      * rewrite (filter_drop_one _ _ _ _ El), Hs''.
        change (active _) with (slots cs os (inhibit_count (ses w) - 1)) at 1. by rewrite Hs.
      * rewrite (proj2 (Z.ltb_lt _ _) Hn'). by rewrite orb_true_r.
      * lia.
  - apply IH; [done|lia..| |].
    + replace (Z.to_nat (i + 1)) with (S (Z.to_nat i)) by lia. rewrite (take_S_r _ _ _ El).
      apply Forall_app. split; [done|]. by constructor.
    + done.
Qed.

Lemma wp_drop_cookie fuel i cookie w (Q : unit → World → Prop) :
  inhibitors_fit (ses w) → 0 ≤ i → inhibit_count (ses w) - i ≤ Z.of_nat fuel →
  Forall (fun x => fst x ≠ cookie) (take (Z.to_nat i) (active (ses w))) →
  (Forall (fun x => fst x ≠ cookie) (active (ses w)) → Q tt w) →
  (∀ cs os o, slots_fit cs os (inhibit_count (ses w) - 1) →
     active (ses w) ≡ₚ (cookie, o) :: slots cs os (inhibit_count (ses w) - 1) →
     wp no_fault update_blanking_inhibit Q (slots_to w cs os (inhibit_count (ses w) - 1))) →
  wp no_fault (drop_cookie fuel i cookie) Q w.
Proof.
  revert i. induction fuel as [|fuel IH]; intros i Hf Hi Hfuel Hpre HQ HQ';
    cbn [drop_cookie]; apply wp_bind, wp_gets; destruct (Z.ltb_spec i (inhibit_count (ses w))) as [Hlt|Hge];
    cbn [negb]; try (exfalso; lia).
  1, 3: apply wp_ret, HQ; rewrite take_ge in Hpre by (unfold active; rewrite slots_length by done; lia); done.
  destruct (slots_some _ _ _ i Hf) as (c & o & Ec & Eo); [destruct Hf as (_&_&?); lia|].
  assert (El : active (ses w) !! Z.to_nat i = Some (c, o)) by (apply slots_lookup; [done|lia|done..]).
  apply wp_bind, wp_gets, wp_bind. eapply wp_get_at; [lia|exact Ec|]. cbn beta.
  destruct (Z.eqb_spec c cookie) as [->|Hne].
  - apply wp_bind, wp_drop_slot; [done|lia|]. intros cs os Hf' Hs _.
    apply (HQ' _ _ o); [done|]. rewrite Hs. by apply delete_Permutation.
  - apply IH; [done|lia..| |done|done].
    replace (Z.to_nat (i + 1)) with (S (Z.to_nat i)) by lia. rewrite (take_S_r _ _ _ El).
    apply Forall_app. split; [done|]. by constructor.
Qed.

(** ** The screen *)

Fixpoint last_dpms (h : list scall) : option (Z * Z * Z) :=
  match h with
  | [] => None
  | Dpms a b c :: _ => Some (a, b, c)
  | _ :: h' => last_dpms h'
  end.
Fixpoint last_saver (h : list scall) : option Z :=
  match h with
  | [] => None
  | ScreenSaver t :: _ => Some t
  | _ :: h' => last_saver h'
  end.

(** Blanking is off; or as configured, after [t] seconds. *)
Definition unblanked (h : list scall) : Prop := last_dpms h = Some (0, 0, 0) ∧ last_saver h = Some 0.
Definition blanking (t : Z) (h : list scall) : Prop := last_dpms h = Some (t, t, t) ∧ last_saver h = Some (-1).

(** The screen is as the inhibitors want it. *)
Definition screen_follows (w : World) : Prop :=
  server_context (ses w) = true →
  if 0 <? inhibit_count (ses w) then unblanked (calls w) else blanking (screen_off_sec (ses w)) (calls w).

Lemma wp_update_blanking w (Q : unit → World → Prop) :
  (∀ h, screen_follows (w <| calls := h |>) → Q tt (w <| calls := h |>)) →
  wp no_fault update_blanking_inhibit Q w.
Proof.
  intros HQ. unfold update_blanking_inhibit. apply wp_bind, wp_gets. cbn. apply wp_when.
  - intros Hc. destruct (0 <? inhibit_count (ses w)) eqn:E.
    + apply wp_bind, (wp_scall _ (Dpms 0 0 0)), (wp_scall _ (ScreenSaver 0)). destruct (host _ _).
      refine (HQ (ScreenSaver 0 :: Dpms 0 0 0 :: calls w) _). intros _. cbn. by rewrite E.
    + set (t := screen_off_sec (ses w)).
      apply wp_bind, (wp_scall _ (Dpms t t t)), (wp_scall _ (ScreenSaver (-1))). destruct (host _ _).
      refine (HQ (ScreenSaver (-1) :: Dpms t t t :: calls w) _). intros _. cbn. by rewrite E.
  - intros Hc. specialize (HQ (calls w)). destruct w. cbn in Hc. apply HQ. unfold screen_follows. cbn. congruence.
Qed.

(** ** Messages *)

(** What a message on the session bus does to the last cookie given out and the
    inhibitors that are active. *)
Definition bag : Type := Z * list (Z * text).
Definition bag_of (s : Session) : bag := (next_cookie s, active s).

Lemma bag_length s : inhibitors_fit s → (32 <=? length (snd (bag_of s)))%nat = (32 <=? inhibit_count s).
Proof.
  intros Hf. pose proof Hf as (_&_&?). unfold bag_of, active. cbn [snd]. rewrite slots_length by done.
  destruct (Z.leb_spec 32 (inhibit_count s)); [apply Nat.leb_le|apply Nat.leb_gt]; lia.
Qed.

Definition bag_step (m : DBusMessage) (x x' : bag) : Prop :=
  if is_signal DBUS_INTERFACE_DBUS (str "NameOwnerChanged") m then
    match m_sss m with
    | Some (name, _, []) => fst x' = fst x ∧ snd x' ≡ₚ others name (snd x)
    | _ => x' = x
    end
  else if m_signal m then x' = x
  else if bool_decide (m_path m = SCREENSAVER_DBUS_PATH) || bool_decide (m_path m = str "/ScreenSaver") then
    if is_method_call SCREENSAVER_DBUS_IFACE (str "Inhibit") m then
      match m_ss m with
      | Some _ =>
        if (32 <=? length (snd x))%nat then x' = x
        else let k := u32 (fst x + 1) in
             x' = (k, snd x ++ [(k, trunc 64 (default [] (m_sender m)))])
      | None => x' = x
      end
    else if is_method_call SCREENSAVER_DBUS_IFACE (str "UnInhibit") m then
      match m_u m with
      | Some c => (Forall (fun y => fst y ≠ c) (snd x) ∧ x' = x) ∨
                  (fst x' = fst x ∧ ∃ o, snd x ≡ₚ (c, o) :: snd x')
      | None => x' = x
      end
    else x' = x
  else x' = x.

(** Neither the inhibitors nor the screen are touched. *)
Record untouched (w w' : World) : Prop := mkUntouched {
  un_cookies : inhibit_cookies (ses w') = inhibit_cookies (ses w);
  un_owners : inhibit_owners (ses w') = inhibit_owners (ses w);
  un_count : inhibit_count (ses w') = inhibit_count (ses w);
  un_next : next_cookie (ses w') = next_cookie (ses w);
  un_server : server_context (ses w') = server_context (ses w);
  un_off : screen_off_sec (ses w') = screen_off_sec (ses w);
  un_dpms : last_dpms (calls w') = last_dpms (calls w);
  un_saver : last_saver (calls w') = last_saver (calls w)
}.

#[export] Instance untouched_preorder : PreOrder untouched.
Proof. split; [by intros w|]. intros a b c [] []. split; congruence. Qed.

Lemma untouched_bag w w' : untouched w w' → bag_of (ses w') = bag_of (ses w).
Proof. intros []. unfold bag_of, active. congruence. Qed.
Lemma untouched_fit w w' : untouched w w' → inhibitors_fit (ses w) → inhibitors_fit (ses w').
Proof. intros []. unfold inhibitors_fit. congruence. Qed.
Lemma untouched_active w w' : untouched w w' → active (ses w') = active (ses w).
Proof. intros []. unfold active. congruence. Qed.
Lemma untouched_screen w w' : untouched w w' → screen_follows w → screen_follows w'.
Proof. intros []. unfold screen_follows, unblanked, blanking. intros Hs E. rewrite un_count0, un_off0, un_dpms0, un_saver0. apply Hs. congruence. Qed.

End Inhibit.

Abbreviation mild := (surely untouched).

Section Mild.
Context `{Host}.

Definition off_screen (c : scall) : bool := match c with Dpms _ _ _ | ScreenSaver _ => false | _ => true end.
Lemma mild_call c : off_screen c = true → mild (call c).
Proof. intros Hc w. apply wp_scall. split; try done; by destruct c. Qed.
Lemma mild_upd f : (∀ w, untouched w (w <| ses := f (ses w) |>)) → mild (upd_s f).
Proof. intros Hf w. by apply wp_modify. Qed.
Lemma mild_fork p ch : mild ch → mild (fork p ch).
Proof.
  intros Hc w. unfold wp, fork. destruct (host (calls w) (SFork p)); [|by split].
  specialize (Hc (w <| calls := SFork p :: calls w |>)). unfold wp in Hc. by destruct (ch _).
Qed.
End Mild.

Ltac mild_step :=
  lazymatch goal with
  | |- mild (mret _) => apply surely_ret; apply _
  | |- mild skip => apply surely_skip; apply _
  | |- mild (call ?c) => refine (mild_call c _); done
  | |- mild (get_s _) => apply surely_gets; apply _
  | |- mild (upd_s _) => apply mild_upd; intros ?; by split
  | |- mild (fork _ _) => apply mild_fork
  | |- mild (when _ _) => apply surely_when; [apply _|]
  | |- mild (_ ≫= _) => apply surely_bind; [apply _| |intros ?]
  | |- mild (if ?b then _ else _) => destruct b
  | |- mild (match ?x with _ => _ end) => destruct x
  | |- mild (let _ := _ in _) => cbv zeta
  end.
Ltac mild := repeat mild_step.

Section Messages.
Context `{Host}.

Lemma mild_command m : mild (session_command_handler m).
Proof. unfold session_command_handler, show_confirmation, confirm_child, dm_dbus_call. mild. Qed.

(** What a message leaves behind. *)
Record message_outcome (m : DBusMessage) (w w' : World) : Prop := mkOutcome {
  mo_fit : inhibitors_fit (ses w');
  mo_step : bag_step m (bag_of (ses w)) (bag_of (ses w'));
  mo_screen : screen_follows w ∨ active (ses w') ≠ active (ses w) → screen_follows w'
}.

Lemma outcome_untouched m w w' :
  inhibitors_fit (ses w) → untouched w w' →
  bag_step m (bag_of (ses w)) (bag_of (ses w)) → message_outcome m w w'.
Proof.
  intros Hf Hu Hb. split; [by eapply untouched_fit|by rewrite (untouched_bag _ _ Hu)|].
  rewrite (untouched_active _ _ Hu). intros [Hs|[]]; [by eapply untouched_screen|done].
Qed.

(** Once the arrays are as wanted, blanking is brought into line. *)
Lemma outcome_blanking m w w1 cs os n (Q : unit → World → Prop) :
  slots_fit cs os n → bag_step m (bag_of (ses w)) (next_cookie (ses w1), slots cs os n) →
  (∀ w', message_outcome m w w' → Q tt w') →
  wp no_fault update_blanking_inhibit Q (slots_to w1 cs os n).
Proof. intros Hf Hb HQ. apply wp_update_blanking. intros h Hs. by apply HQ. Qed.

Lemma outcome_then m w w1 w2 : message_outcome m w w1 → untouched w1 w2 → message_outcome m w w2.
Proof.
  intros [] Hu. split; [by eapply untouched_fit|by rewrite (untouched_bag _ _ Hu)|].
  rewrite (untouched_active _ _ Hu). intros Hs. eapply untouched_screen; [exact Hu|auto].
Qed.

Lemma wp_owner_gone name old m w :
  m_sss m = Some (name, old, []) → is_signal DBUS_INTERFACE_DBUS (str "NameOwnerChanged") m = true →
  inhibitors_fit (ses w) → wp no_fault (session_bus_filter m) (fun _ w' => message_outcome m w w') w.
Proof.
  intros Em Es Hf. unfold session_bus_filter. rewrite Es, Em. cbn [bool_decide negb].
  rewrite bool_decide_eq_true_2 by done. cbn [negb].
  apply wp_bind, wp_gets, wp_bind. destruct Hf as (Hc & Ho & Hn) eqn:Ef.
  apply wp_drop_owner; [done|lia..|by rewrite take_0|]. intros cs os n b' Hf' Hs -> Hsame. cbn [orb].
  assert (Hb : bag_step m (bag_of (ses w)) (next_cookie (ses w), slots cs os n))
    by (unfold bag_step; by rewrite Es, Em).
  apply wp_when; intros Hlt; [by eapply outcome_blanking; eauto|].
  assert (En : n = inhibit_count (ses w)).
  { apply Z.ltb_ge in Hlt. apply Permutation_length in Hs.
    pose proof (length_filter (fun x : Z * text => snd x ≠ name) (active (ses w))) as Hl.
    unfold active in Hl, Hs. rewrite !slots_length in * by done. pose proof Hf' as (_&_&?). lia. }
  split; [done|done|]. rewrite (Hsame En). by intros [?|[]].
Qed.

Lemma wp_saver_handler m w :
  m_signal m = false →
  bool_decide (m_path m = SCREENSAVER_DBUS_PATH) || bool_decide (m_path m = str "/ScreenSaver") = true →
  inhibitors_fit (ses w) →
  wp no_fault (screensaver_message_handler m) (fun _ w' => message_outcome m w w') w.
Proof.
  intros Es Ep Hf. pose proof Hf as (Hc & Ho & Hn). unfold screensaver_message_handler.
  assert (Eb : is_signal DBUS_INTERFACE_DBUS (str "NameOwnerChanged") m = false)
    by (unfold is_signal; by rewrite Es).
  destruct (is_method_call _ (str "Inhibit") m) eqn:Ei.
  - destruct (m_ss m) as [[app reason]|] eqn:Ess.
    2: { apply wp_ret, outcome_untouched; [done|reflexivity|]. unfold bag_step. by rewrite Eb, Es, Ep, Ei, Ess. }
    unfold inhibit. apply wp_bind, wp_gets. destruct (Z.leb_spec 32 (inhibit_count (ses w))) as [Hm|Hm].
    + eapply wp_mono; [apply (mild_call (Reply LimitsExceeded)); done|]. cbn beta. intros _ w' Hu.
      apply outcome_untouched; [done..|]. unfold bag_step. rewrite Eb, Es, Ep, Ei, Ess.
      by rewrite bag_length, (proj2 (Z.leb_le _ _) Hm).
    + apply wp_bind, wp_modify. cbn beta. apply wp_bind, wp_gets. cbn. apply wp_bind, wp_modify. cbn beta.
      apply wp_bind, wp_set_slot; [done|done|cbn; lia|]. apply wp_bind.
      set (k := u32 _). set (o := trunc 64 _). set (w1 := w <| ses := (ses w) <| next_cookie := k |> |>).
      set (n := inhibit_count (ses w)) in *.
      match goal with |- wp _ _ _ ?x => change x with (slots_to w1 (<[Z.to_nat n := k]> (inhibit_cookies (ses w)))
        (<[Z.to_nat n := o]> (inhibit_owners (ses w))) (n + 1)) end.
      apply (outcome_blanking m w).
      * unfold slots_fit. rewrite !length_insert. lia.
      * unfold bag_step. rewrite Eb, Es, Ep, Ei, Ess, bag_length by done.
        fold n. rewrite (proj2 (Z.leb_gt _ _) Hm). unfold n. by rewrite slots_add.
      * intros w' Hw'. eapply wp_mono; [apply (mild_call (Reply (CookieReply k))); done|].
        cbn beta. intros _ w'' Hu. by eapply outcome_then.
  - destruct (is_method_call _ (str "UnInhibit") m) eqn:Eu.
    2: { apply wp_ret, outcome_untouched; [done|reflexivity|]. unfold bag_step. by rewrite Eb, Es, Ep, Ei, Eu. }
    destruct (m_u m) as [cookie|] eqn:Em.
    2: { apply wp_ret, outcome_untouched; [done|reflexivity|]. unfold bag_step. by rewrite Eb, Es, Ep, Ei, Eu, Em. }
    apply wp_bind, wp_gets, wp_bind.
    assert (Hr : ∀ w', message_outcome m w w' →
      wp no_fault (call (Reply EmptyReply)) (fun _ w'' => message_outcome m w w'') w').
    { intros w' Hw'. eapply wp_mono; [apply (mild_call (Reply EmptyReply)); done|].
      cbn beta. intros _ w'' Hu. by eapply outcome_then. }
    apply wp_drop_cookie; [done|lia..|by rewrite take_0| |].
    + intros Hn'. apply Hr, outcome_untouched; [done|reflexivity|].
      unfold bag_step. rewrite Eb, Es, Ep, Ei, Eu, Em. by left.
    + intros cs os o Hf' Hs. eapply (outcome_blanking m w); [done| |exact Hr].
      unfold bag_step. rewrite Eb, Es, Ep, Ei, Eu, Em. right. split; [done|]. by exists o.
Qed.

Lemma wp_session_bus_message m w :
  inhibitors_fit (ses w) → wp no_fault (session_bus_message m) (fun _ w' => message_outcome m w w') w.
Proof.
  intros Hf. unfold session_bus_message.
  assert (Hsame : bag_step m (bag_of (ses w)) (bag_of (ses w)) → message_outcome m w w)
    by (intros; by apply outcome_untouched).
  destruct (is_signal DBUS_INTERFACE_DBUS (str "NameOwnerChanged") m) eqn:Es.
  - assert (Em : m_signal m = true) by (unfold is_signal in Es; by destruct (m_signal m)).
    assert (Hfil : wp no_fault (session_bus_filter m) (fun _ w' => message_outcome m w w') w).
    { destruct (m_sss m) as [[[name old] [|c new]]|] eqn:Esss; [by eapply wp_owner_gone| |];
        unfold session_bus_filter; rewrite Es, Esss; [rewrite bool_decide_eq_false_2 by done|];
        apply wp_ret, Hsame; unfold bag_step; by rewrite Es, Esss. }
    apply wp_bind. eapply wp_mono; [exact Hfil|]. cbn beta. intros _ w' Hw'.
    apply wp_bind, wp_gets. rewrite Em. by apply wp_ret.
  - unfold session_bus_filter. rewrite Es. apply wp_bind, wp_ret, wp_bind, wp_gets.
    destruct (m_signal m) eqn:Em; [apply wp_ret, Hsame; unfold bag_step; by rewrite Es, Em|].
    destruct (_ || _) eqn:Ep; [by apply wp_saver_handler|].
    assert (Hb : bag_step m (bag_of (ses w)) (bag_of (ses w))) by (unfold bag_step; by rewrite Es, Em, Ep).
    apply wp_when; [|intros; by apply Hsame]. intros _.
    eapply wp_mono; [apply mild_command|]. cbn beta. intros _ w' Hu. by apply outcome_untouched.
Qed.

(** A sequence of messages. *)
Inductive bag_run : list DBusMessage → bag → bag → Prop :=
  | bag_done x : bag_run [] x x
  | bag_next m ms x y z : bag_step m x y → bag_run ms y z → bag_run (m :: ms) x z.

Lemma wp_messages ms w :
  inhibitors_fit (ses w) →
  wp no_fault (for_each ms session_bus_message)
    (fun _ w' => inhibitors_fit (ses w') ∧ bag_run ms (bag_of (ses w)) (bag_of (ses w')) ∧
                 (screen_follows w ∨ active (ses w') ≠ active (ses w) → screen_follows w')) w.
Proof.
  revert w. induction ms as [|m ms IH]; intros w Hf; cbn [for_each];
    [apply wp_ret; split; [done|]; split; [apply bag_done|by intros [?|[]]]|].
  apply wp_bind. eapply wp_mono; [by apply wp_session_bus_message|]. cbn beta. intros _ w1 [Hf1 Hb1 Hs1].
  eapply wp_mono; [by apply IH|]. cbn beta. intros _ w2 (Hf2 & Hb2 & Hs2). split; [done|].
  split; [by eapply bag_next|]. intros Hs. apply Hs2.
  destruct (decide (active (ses w1) = active (ses w))) as [E|E]; [|left; auto].
  rewrite E. destruct Hs as [Hs|Hs]; [left; auto|by right].
Qed.
End Messages.
