(* ===== verification/SessSafety.v ===== *)
(** * isde-session: the invariant of the session manager

    [Inv L]: the arrays of inhibitors and their count fit, every count of crashes
    is below the limit, and the log of calls is [checked]: the machine is only
    shut down or rebooted right after the confirmation overlay for that action has
    exited with 0.  With [L] it also says that [running] was only cleared by a
    confirmed logout.  Every operation of the session manager keeps it, for any
    host. *)

From S2P Require Import Prelude.
From S2P Require Import CString.
From S2P Require Import CFloat.
From S2P Require Import TwoState.
From S2P Require Import DesktopEntry.
From S2P Require Import DesktopClaims.
From S2P Require Import SessCore.
From S2P Require Import SessBus.
From S2P Require Import SessRun.
From S2P Require Import SessInhibit.
Open Scope Z_scope.

(** ** The state *)

Definition few_crashes (c : Child) : Prop := 0 ≤ rapid_crashes c < MAX_RAPID_CRASHES.
Definition some_crashes (p : PendingRespawn) : Prop := 1 ≤ p_rapid_crashes p < MAX_RAPID_CRASHES.

Record wf (s : Session) : Prop := mkWf {
  wf_slots : inhibitors_fit s;
  wf_children : Forall few_crashes (children s);
  wf_pending : Forall some_crashes (pending_respawns s)
}.

Section Checked.
Context `{Host}.

(** ** The log *)

(** The confirmation overlay that was forked last: its action and its pid. *)
Fixpoint last_confirm (h : list scall) : option (text * positive) :=
  match h with
  | [] => None
  | c :: h' =>
    match c with
    | SFork (Confirm a) =>
      match host h' (SFork (Confirm a)) with
      | Some n => Some (a, n)
      | None => last_confirm h'
      end
    | _ => last_confirm h'
    end
  end.

(** The latest call has told that the overlay for [action] exited with 0. *)
Definition accepted (action : text) (h : list scall) : Prop :=
  ∃ n h', h = WaitNoHang (Z.pos n) :: h' ∧ last_confirm h' = Some (action, n) ∧
    host h' (WaitNoHang (Z.pos n)) = Some (Exited 0).

(** What may precede a call. *)
Definition allowed (h : list scall) (c : scall) : Prop :=
  match c with
  | DmCall m =>
    (m = str "Shutdown" → ∃ h', h = SystemBus :: h' ∧ accepted (str "shutdown") h') ∧
    (m = str "Reboot" → ∃ h', h = SystemBus :: h' ∧ accepted (str "reboot") h')
  | _ => True
  end.

Fixpoint checked (h : list scall) : Prop :=
  match h with
  | [] => True
  | c :: h' => allowed h' c ∧ checked h'
  end.

(** A logout was confirmed at some time. *)
Definition logged_out (h : list scall) : Prop := ∃ h1 h2, h = h1 ++ h2 ∧ accepted (str "logout") h2.

Record auth (L : bool) (w : World) : Prop := mkAuth {
  auth_checked : checked (calls w);
  auth_confirm : 0 < confirm_pid (ses w) →
    ∃ n, confirm_pid (ses w) = Z.pos n ∧ last_confirm (calls w) = Some (confirm_action (ses w), n);
  auth_running : L = true → running (ses w) = true ∨ logged_out (calls w)
}.

Record Inv (L : bool) (w : World) : Prop := mkInv { inv_wf : wf (ses w); inv_auth : auth L w }.

(** Calls that say nothing about confirmations. *)
Definition plain (c : scall) : Prop :=
  match c with
  | SFork (Confirm _) => False
  | DmCall m => m ≠ str "Shutdown" ∧ m ≠ str "Reboot"
  | _ => True
  end.

Lemma plain_allowed h c : plain c → allowed h c.
Proof. destruct c; cbn; try done. intros [? ?]. split; done. Qed.

Lemma plain_last_confirm h c : plain c → last_confirm (c :: h) = last_confirm h.
Proof. destruct c; cbn; try done. by destruct p. Qed.

Lemma logged_out_later c h : logged_out h → logged_out (c :: h).
Proof. intros (h1 & h2 & -> & Ha). by exists (c :: h1), h2. Qed.

(** ** Rules *)
Context (L : bool).
Notation safe := (safely (Inv L)).

Lemma auth_log w c : plain c → auth L w → auth L (w <| calls := c :: calls w |>).
Proof.
  intros Hp [Hc Hn Hr]. split.
  - cbn. split; [by apply plain_allowed|done].
  - cbn -[last_confirm]. by rewrite plain_last_confirm.
  - cbn. intros E. destruct (Hr E); [by left|]. right. by apply logged_out_later.
Qed.

Lemma safe_call c : plain c → safe (call c).
Proof. intros Hp w [Hw Ha]. unfold wp, call. split; [done|by apply auth_log]. Qed.

(** Updates away from what the invariant mentions. *)
Definition aside (f : Session → Session) : Prop := ∀ s,
  confirm_pid (f s) = confirm_pid s ∧ confirm_action (f s) = confirm_action s ∧
  running (f s) = running s ∧ (wf s → wf (f s)).

Lemma safe_upd f : aside f → safe (upd_s f).
Proof.
  intros Hf. apply safely_modify. intros w [Hw [Hc Hn Hr]].
  destruct (Hf (ses w)) as (E1 & E2 & E3 & Hwf). split; [by apply Hwf|].
  split; cbn; rewrite ?E1, ?E2, ?E3; done.
Qed.

Lemma safe_get {A} (f : Session → A) : safe (get_s f).
Proof. apply safely_gets. Qed.

Lemma safe_for_each {A} (l : list A) body : (∀ x, safe (body x)) → safe (for_each l body).
Proof.
  intros Hb. induction l as [|x l IH]; cbn; [apply safely_skip|]. by apply safely_bind.
Qed.

(** A forked shell: the child runs on a copy. *)
Lemma safe_fork_shell cmd ch : safe ch → safe (fork (Shell cmd) ch).
Proof.
  intros Hch w [Hw Ha]. unfold wp, fork. pose proof (auth_log w (SFork (Shell cmd)) I Ha) as Ha'.
  destruct (host (calls w) (SFork (Shell cmd))) as [n|]; [|by split].
  set (w1 := w <| calls := _ |>) in *. assert (Hi : Inv L w1) by by split.
  specialize (Hch w1 Hi). unfold wp in Hch. destruct (ch w1) as [[] w2|]; [|done].
  split; [done|]. by destruct Ha'; split.
Qed.
End Checked.

Create HintDb safe discriminated.
#[export] Hint Constants Opaque : safe.

Ltac aside := let s := fresh in
  intros s; split; [done|]; split; [done|]; split; [done|]; intros [];
  split; cbn; try assumption; try lia.
Ltac plain := done || (cbn; split; discriminate).

(** Take a program apart down to its calls and updates. *)
Ltac safe_step :=
  lazymatch goal with
  | |- safely _ (mret _) => apply safely_ret
  | |- safely _ skip => apply safely_skip
  | |- safely _ (call ?c) => refine (safe_call _ c _); plain
  | |- safely _ (get_s _) => apply safe_get
  | |- safely _ (upd_s _) => apply safe_upd; aside
  | |- safely _ (for_each _ _) => apply safe_for_each; intros ?
  | |- safely _ (when _ _) => apply safely_when
  | |- safely _ (_ ≫= _) => apply safely_bind; [|intros ?]
  | |- safely _ (if ?b then _ else _) => destruct b
  | |- safely _ (match ?x with _ => _ end) => destruct x
  | |- safely _ (let _ := _ in _) => cbv zeta
  | |- safely _ _ => solve [eauto with safe]
  end.
Ltac safe := repeat safe_step.

(** ** child.c *)
Section ChildSafe.
Context `{Host} (L : bool).
Notation safe := (safely (Inv L)).

Lemma safe_now : safe now_ms.
Proof. apply (safe_call L Now). done. Qed.
Hint Resolve safe_now : safe.

Lemma safe_spawn_child cmd : safe (spawn_child cmd).
Proof. unfold spawn_child. safe. Qed.

Lemma safe_child_spawn cmd resp wm panel crashes :
  0 ≤ crashes < MAX_RAPID_CRASHES → safe (child_spawn cmd resp wm panel crashes).
Proof.
  intros Hc. unfold child_spawn. apply safely_bind; [apply safe_fork_shell, safe_spawn_child|].
  intros p. safe. by constructor.
Qed.

Lemma Forall_remove_pid (P : Child → Prop) p l : Forall P l → Forall P (remove_pid p l).
Proof. induction 1; cbn; [done|]. destruct (_ =? _); [done|]. by constructor. Qed.
Hint Resolve Forall_remove_pid : safe.

Lemma safe_child_remove c : safe (child_remove c).
Proof.
  apply safe_upd. aside. by apply Forall_remove_pid.
Qed.
Hint Resolve safe_child_remove : safe.

Lemma safe_respawn_child c : 0 ≤ rapid_crashes c → safe (respawn_child c).
Proof.
  intros Hc. unfold respawn_child. apply safely_bind; [apply safe_now|]. intros t. cbv zeta.
  set (k := if _ <? _ then _ else _). assert (Hk : 0 ≤ k) by (unfold k; destruct (_ <? _); lia).
  clearbody k. destruct (Z.leb_spec MAX_RAPID_CRASHES k) as [Hm|Hm]; [apply safe_child_remove|].
  destruct (Z.ltb_spec 0 k).
  - safe. constructor; [|done]. unfold some_crashes. cbn. lia.
  - apply safely_bind; [apply safe_child_remove|]. intros _.
    apply safely_bind; [by apply safe_child_spawn|]. intros _. safe.
Qed.

Lemma safe_reap_one ps : safe (reap_one ps).
Proof.
  intros w Hw. apply wp_bind, wp_gets. unfold id.
  destruct (child_find_pid _ _) as [c|] eqn:Ec; [|by apply safely_skip].
  destruct (_ && _); [|by apply safe_child_remove].
  apply safe_respawn_child; [|done]. apply find_some in Ec as [Ec _].
  pose proof (wf_children _ (inv_wf _ _ Hw)) as Hf. rewrite Forall_forall in Hf.
  apply Hf. by apply list_elem_of_In.
Qed.
Hint Resolve safe_reap_one : safe.

Lemma safe_child_reap : safe child_reap.
Proof. unfold child_reap. safe. Qed.

Lemma safe_respawn_due now todo : Forall some_crashes todo → safe (respawn_due now todo).
Proof.
  induction 1 as [|p todo Hp Ht IH]; cbn [respawn_due]; [safe|].
  destruct (_ <? _).
  - apply safely_bind; [|done]. safe. apply Forall_app. split; [done|]. by constructor.
  - apply safely_bind; [|done]. apply safe_child_spawn. unfold some_crashes in Hp. lia.
Qed.

Lemma safe_process_pending : safe child_process_pending_respawns.
Proof.
  unfold child_process_pending_respawns. apply safely_bind; [apply safe_now|]. intros now w Hw.
  apply wp_bind, wp_gets. revert w Hw. cut (∀ w, Inv L w → Forall some_crashes (pending_respawns (ses w)) →
    wp no_fault ((pending_respawns =: [])%C;; respawn_due now (pending_respawns (ses w))) (fun _ w' => Inv L w') w).
  { intros Hc w Hw. apply Hc; [done|]. apply wf_pending, (inv_wf _ _ Hw). }
  intros w Hw Hf. generalize dependent (pending_respawns (ses w)). intros todo Hf.
  revert w Hw. change (safe ((pending_respawns =: [])%C;; respawn_due now todo)).
  apply safely_bind; [safe; constructor|]. intros _. by apply safe_respawn_due.
Qed.

Lemma safe_restart_ui : safe restart_ui_children.
Proof. unfold restart_ui_children. safe. Qed.

(** ** autostart.c *)

Lemma safe_autostart_lines ls : safe (autostart_lines ls).
Proof. induction ls; cbn [autostart_lines]; unfold add_entry; safe. Qed.
Hint Resolve safe_autostart_lines : safe.
Lemma safe_autostart_load path : safe (autostart_load path).
Proof. unfold autostart_load. safe. Qed.
Lemma safe_autostart_dir dir : safe (autostart_dir dir).
Proof.
  unfold autostart_dir. apply safely_bind; [|intros; unfold add_desktop_entry, add_entry; safe].
  apply safely_scan_dir; intros p; cbn; safe.
Qed.
End ChildSafe.
#[export] Hint Resolve safe_now safe_child_remove safe_child_reap safe_process_pending
  safe_restart_ui safe_autostart_load safe_autostart_dir : safe.

(** ** The buses *)
Section BusSafe.
Context `{Host} (L : bool).
Notation safe := (safely (Inv L)).

Lemma safe_dm_call m : m ≠ str "Shutdown" → m ≠ str "Reboot" → safe (dm_dbus_call m).
Proof. intros Hs Hr. unfold dm_dbus_call. safe. Qed.

Lemma safe_update_blanking : safe update_blanking_inhibit.
Proof. unfold update_blanking_inhibit. safe. Qed.
Hint Resolve safe_update_blanking : safe.

Lemma inv_slots w cs os n : Inv L w → slots_fit cs os n → Inv L (slots_to w cs os n).
Proof. intros [[Hs Hc Hp] []] Hf. split; by split. Qed.

Lemma inv_fit w : Inv L w → inhibitors_fit (ses w).
Proof. intros [[] _]. done. Qed.

Lemma safe_session_bus_filter m : safe (session_bus_filter m).
Proof.
  intros w Hw. unfold session_bus_filter. destruct (is_signal _ _ _); [|by apply safely_skip].
  destruct (m_sss m) as [[[name old] new]|]; [|by apply safely_skip].
  destruct (negb _); [by apply safely_skip|]. apply wp_bind, wp_gets, wp_bind.
  pose proof (inv_fit _ Hw) as Hf. pose proof Hf as (_&_&?).
  apply wp_drop_owner; [done|lia..|by rewrite take_0|]. intros cs os n b' Hf' _ _ _.
  apply (safely_when _ b' _ safe_update_blanking). by apply inv_slots.
Qed.

Lemma safe_inhibit m : safe (inhibit m).
Proof.
  intros w Hw. apply wp_bind, wp_gets. pose proof (inv_fit _ Hw) as (Hc & Ho & Hn).
  destruct (Z.leb_spec 32 (inhibit_count (ses w))) as [Hm|Hm]; [by apply (safe_call L (Reply LimitsExceeded))|].
  apply wp_bind, wp_modify. cbn beta. apply wp_bind, wp_gets. apply wp_bind, wp_modify. cbn beta.
  apply wp_bind, wp_set_slot; [done|done|cbn; lia|].
  set (w1 := _ <| ses := with_slots _ _ _ _ |>). assert (H1 : Inv L w1).
  { destruct Hw as [[Hs Hch Hp] []]. split; split; try done.
    unfold inhibitors_fit, slots_fit. cbn. rewrite !length_insert. lia. }
  clearbody w1. revert w1 H1. match goal with |- ∀ w1, Inv L w1 → wp _ ?p _ w1 => change (safe p) end.
  safe.
Qed.

Lemma safe_screensaver_handler m : safe (screensaver_message_handler m).
Proof.
  unfold screensaver_message_handler. destruct (is_method_call _ _ m).
  - destruct (m_ss m); [apply safe_inhibit|safe].
  - destruct (is_method_call _ _ m); [|safe]. destruct (m_u m) as [c|]; [|safe].
    intros w Hw. apply wp_bind, wp_gets, wp_bind. pose proof (inv_fit _ Hw) as Hf. pose proof Hf as (_&_&?).
    apply wp_drop_cookie; [done|lia..|by rewrite take_0| |].
    + intros _. by apply (safe_call L (Reply EmptyReply)).
    + intros cs os o Hf' _. eapply wp_mono; [apply safe_update_blanking, inv_slots; done|]. cbn beta.
      intros _ w' Hw'. by apply (safe_call L (Reply EmptyReply)).
Qed.

(** ** Confirmations *)

Lemma safe_fork_confirm a :
  confirmable a = true →
  ∀ w, Inv L w → ¬ 0 < confirm_pid (ses w) → confirm_action (ses w) = a →
  wp no_fault (n ← fork (Confirm a) (confirm_child a); if n <? 0 then skip else (confirm_pid =: n)%C)
    (fun _ w' => Inv L w') w.
Proof.
  intros Ha w [Hw [Hc Hn Hr]] Hp Ea. apply wp_bind. unfold wp at 1, fork.
  set (w1 := w <| calls := _ |>).
  assert (Hr1 : L = true → running (ses w1) = true ∨ logged_out (calls w1)).
  { intros E. destruct (Hr E); [by left|right]. by apply logged_out_later. }
  destruct (host (calls w) (SFork (Confirm a))) as [n|] eqn:Eh.
  - assert (Hch : wp no_fault (confirm_child a) (fun _ _ => True) w1).
    { unfold confirm_child. apply wp_bind, (wp_scall _ (Exec _ _)), wp_when; [|done]. intros _.
      by apply (wp_scall _ (Exit 1)). }
    unfold wp in Hch. destruct (confirm_child a w1) as [[] w2|]; [|done]. cbn [Z.ltb Z.compare].
    apply wp_modify. split; [by destruct Hw|]. split; [done| |done].
    intros _. exists n. split; [done|]. cbn. rewrite Eh. by rewrite <- Ea.
  - apply wp_ret. split; [done|]. split; [done|intros; by exfalso|done].
Qed.

Lemma safe_show_confirmation a : safe (show_confirmation a).
Proof.
  intros w Hw. unfold show_confirmation. apply wp_bind, wp_gets.
  destruct (Z.ltb_spec 0 (confirm_pid (ses w))) as [|Hp]; [by apply wp_ret|].
  destruct (confirmable a) eqn:Ea; [|by apply wp_ret]. cbn [negb].
  apply wp_bind, wp_modify. cbn beta. apply safe_fork_confirm; [done| |cbn; lia|].
  - destruct Hw as [[] [Hc Hn Hr]]. split; [done|]. split; [done|cbn; lia|done].
  - cbn. unfold confirmable in Ea. rewrite !orb_true_iff, !bool_decide_eq_true in Ea.
    by destruct Ea as [[[->| ->]| ->]| ->].
Qed.

(** After acceptance and with the connection to the system bus, the call may be made. *)
Lemma safe_confirmed_call m a w :
  Inv L w → accepted a (calls w) →
  (m = str "Shutdown" → a = str "shutdown") → (m = str "Reboot" → a = str "reboot") →
  wp no_fault (dm_dbus_call m) (fun _ w' => Inv L w') w.
Proof.
  intros [Hw Ha] Hacc Hs Hr. unfold dm_dbus_call. apply wp_bind, (wp_scall _ SystemBus).
  set (w1 := w <| calls := SystemBus :: calls w |>).
  assert (H1 : Inv L w1) by (split; [done|by apply auth_log]).
  apply wp_when; [|done]. intros _. apply wp_bind, (wp_scall _ (DmCall m)).
  apply (safe_call L BusUnref I). destruct H1 as [_ [Hc1 Hn1 Hr1]]. split; [done|]. split.
  - change (allowed (calls w1) (DmCall m) ∧ checked (calls w1)). split; [|done].
    split; intros Em; exists (calls w); (split; [done|]); [by rewrite <- (Hs Em)|by rewrite <- (Hr Em)].
  - exact Hn1.
  - intros E. destruct (Hr1 E); [by left|]. right. by apply logged_out_later.
Qed.

Lemma safe_confirmed a w :
  Inv L w → accepted a (calls w) → wp no_fault (confirmed a) (fun _ w' => Inv L w') w.
Proof.
  intros Hw Ha. unfold confirmed.
  do 3 (case_bool_decide; [by apply (safe_confirmed_call _ a); [done|done|intros E; by try discriminate E..]|]).
  case_bool_decide as El; [|by apply wp_ret]. apply wp_modify. destruct Hw as [[] [Hc Hn Hr]].
  split; [done|]. split; [done|done|]. intros _. right. exists [], (calls w). by rewrite <- El.
Qed.

Lemma confirmed_pid a w :
  wp any_fault (confirmed a) (fun _ w' => confirm_pid (ses w') = confirm_pid (ses w)) w.
Proof.
  assert (Hd : ∀ m, wp any_fault (dm_dbus_call m) (fun _ w' => confirm_pid (ses w') = confirm_pid (ses w)) w).
  { intros m. apply wp_bind, (wp_scall _ SystemBus), wp_when; [|done]. intros _.
    by apply wp_bind, (wp_scall _ (DmCall m)), (wp_scall _ BusUnref). }
  unfold confirmed. repeat (case_bool_decide; [try apply Hd; by apply wp_modify|]). by apply wp_ret.
Qed.

Lemma safe_confirm_reap : safe confirm_reap.
Proof.
  intros w Hw. unfold confirm_reap. apply wp_bind, wp_gets.
  destruct (Z.leb_spec (confirm_pid (ses w)) 0) as [|Hp]; [by apply wp_ret|].
  destruct (auth_confirm _ _ (inv_auth _ _ Hw) Hp) as (n & En & Elast).
  apply wp_bind, (wp_scall _ (WaitNoHang _)). set (w1 := w <| calls := _ |>).
  assert (H1 : Inv L w1) by (destruct Hw; split; [done|by apply auth_log]).
  destruct (host (calls w) (WaitNoHang (confirm_pid (ses w)))) as [st|] eqn:Est; [|by apply wp_ret].
  apply wp_bind, wp_modify. cbn beta. set (w2 := w1 <| ses := _ |>).
  assert (H2 : Inv L w2) by (destruct H1 as [[] []]; split; split; [done..|cbn; lia|done]).
  apply wp_bind, wp_gets. apply wp_bind.
  eapply wp_mono with (Q := fun _ w' => Inv L w' ∧ confirm_pid (ses w') = 0).
  - destruct st as [[| |]|]; try by apply wp_ret. apply (wp_and no_fault (confirmed _) _ _ w2).
    + apply safe_confirmed; [done|]. exists n, (calls w). rewrite En in Est. cbn. by rewrite En.
    + apply confirmed_pid.
  - cbn beta. intros _ w3 [[[] [Hc Hn Hr]] E0]. apply wp_modify. split; [done|]. split; [done| |done].
    cbn. lia.
Qed.

Lemma safe_command m : safe (session_command_handler m).
Proof.
  unfold session_command_handler.
  repeat (destruct (is_method_call _ _ m); [first [apply safe_show_confirmation | by apply safe_dm_call]|]). safe.
Qed.

Lemma safe_system_bus_filter m : safe (system_bus_filter m).
Proof.
  unfold system_bus_filter. destruct (is_signal _ _ m).
  - destruct (m_s m); [apply safe_show_confirmation|safe].
  - destruct (is_signal _ _ m); [|safe]. destruct (m_b m) as [[|]|]; safe.
    unfold lid_closed. destruct a; safe; by apply safe_dm_call.
Qed.
Hint Resolve safe_command safe_system_bus_filter safe_session_bus_filter safe_screensaver_handler : safe.

Lemma safe_session_bus_message m : safe (session_bus_message m).
Proof. unfold session_bus_message. safe. Qed.
Hint Resolve safe_session_bus_message : safe.

Lemma safe_system_ready ms : safe (system_bus_input_ready ms).
Proof. unfold system_bus_input_ready. safe. Qed.
Lemma safe_session_ready ms : safe (session_bus_input_ready ms).
Proof. unfold session_bus_input_ready. safe. Qed.
End BusSafe.
#[export] Hint Resolve safe_confirm_reap safe_system_ready safe_session_ready : safe.
#[export] Hint Extern 1 (safely _ (dm_dbus_call _)) => apply safe_dm_call; discriminate : safe.

(** ** session.c, main.c *)
Section RunSafe.
Context `{Host} (L : bool).
Notation safe := (safely (Inv L)).

Lemma safe_getenv_or name def : safe def → safe (getenv_or name def).
Proof. intros Hd. unfold getenv_or. safe. Qed.
Lemma safe_get_home : safe get_home.
Proof. unfold get_home. safe. Qed.
Lemma safe_config_home : safe isde_xdg_config_home.
Proof. apply safe_getenv_or. pose proof safe_get_home. safe. Qed.
Lemma safe_config_dirs : safe isde_xdg_config_dirs.
Proof. apply safe_getenv_or. safe. Qed.
Lemma safe_find_first ps : safe (find_first ps).
Proof. induction ps; cbn [find_first]; safe. Qed.
Hint Resolve safe_config_home safe_config_dirs safe_find_first : safe.
Lemma safe_find_config name : safe (isde_xdg_find_config name).
Proof. unfold isde_xdg_find_config, find_in_dirs. safe. Qed.
Lemma safe_autostart_xdg : safe autostart_load_xdg.
Proof. unfold autostart_load_xdg. safe. Qed.

Lemma safe_appearance : safe apply_appearance_settings.
Proof. unfold apply_appearance_settings. safe. Qed.
Lemma safe_input : safe apply_input_settings.
Proof. unfold apply_input_settings. safe. Qed.
Lemma safe_power : safe apply_power_settings.
Proof. unfold apply_power_settings. safe. Qed.
Lemma safe_set_background bg : safe (set_background bg).
Proof. unfold set_background. safe. Qed.
Hint Resolve safe_set_background : safe.
Lemma safe_background : safe apply_background.
Proof. unfold apply_background. safe. Qed.
Lemma safe_settings_changed sec : safe (on_settings_changed sec).
Proof. unfold on_settings_changed. safe. Qed.
Hint Resolve safe_find_config safe_autostart_xdg safe_appearance safe_input safe_power safe_background
  safe_settings_changed : safe.

Lemma safe_idle_timer : safe idle_timer_fire.
Proof. unfold idle_timer_fire. safe. Qed.
Lemma safe_check_timer : safe check_timer_fire.
Proof. unfold check_timer_fire. safe. Qed.
Hint Resolve safe_idle_timer safe_check_timer : safe.
Lemma safe_fire_timers : safe fire_timers.
Proof. unfold fire_timers. safe. Qed.
Lemma safe_sigchld : safe sigchld_dispatch.
Proof. unfold sigchld_dispatch. safe. Qed.
Hint Resolve safe_fire_timers safe_sigchld : safe.
Lemma safe_round r : safe (session_round r).
Proof. unfold session_round. safe. Qed.

Lemma safe_load_config : safe load_session_config.
Proof. unfold load_session_config, set_opt. safe. Qed.
Lemma safe_init_server : safe init_server.
Proof. unfold init_server. safe. Qed.
Lemma safe_system_bus : safe init_system_bus.
Proof. unfold init_system_bus. safe. Qed.
Lemma safe_screensaver_service : safe init_screensaver_service.
Proof. unfold init_screensaver_service. safe. Qed.
Lemma safe_command_service : safe init_session_command_service.
Proof. unfold init_session_command_service. safe. Qed.

Lemma safe_start : safe start_components.
Proof. unfold start_components. safe; by apply safe_child_spawn. Qed.

(** Nothing tells the session manager to terminate. *)
Definition no_signal (w : bool * swake) : Prop := match snd w with SInterrupted t => t = false | _ => True end.
#[export] Instance no_signal_dec w : Decision (no_signal w).
Proof. destruct w as [b [t| |r]]; cbn; apply _. Defined.

Lemma safe_stop : L = false → safe ((running =: false)%C).
Proof. intros E. apply safely_modify. intros w [[] [Hc Hn Hr]]. split; [done|]. split; [done..|by rewrite E]. Qed.

Lemma safe_loop wakes : (L = true → Forall no_signal wakes) → safe (session_loop wakes).
Proof.
  induction wakes as [|[b w] ws IH]; intros Hs; cbn [session_loop]; [safe|].
  assert (IH' : safe (session_loop ws)).
  { apply IH. intros E. specialize (Hs E). by apply Forall_cons in Hs as [??]. }
  apply safely_bind; [apply safe_get|]. intros s. destruct (negb _); [safe|].
  apply safely_bind; [apply safe_now|]. intros t.
  apply safely_bind; [by apply (safe_call L (Poll _))|]. intros _.
  destruct w as [term| |r]; [|safe|apply safely_bind; [apply safe_round|done]].
  apply safely_bind; [|done]. destruct term; [|apply safely_skip]. apply safe_stop.
  destruct L; [|done]. specialize (Hs eq_refl). by apply Forall_cons in Hs as [? _].
Qed.

Lemma safe_run wakes : (L = true → Forall no_signal wakes) → safe (session_run wakes).
Proof. intros Hs. pose proof (safe_loop wakes Hs). unfold session_run. pose proof safe_start. safe. Qed.
End RunSafe.
#[export] Hint Resolve safe_find_config safe_autostart_xdg safe_appearance safe_input safe_power
  safe_background safe_round : safe.

(** ** Start-up and the end *)
Section EndSafe.
Context `{Host}.

Notation safe := (safely (Inv false)).

(** What a program does last decides. *)
Lemma wp_last {A B} (m : sprog A) (k : A → sprog B) Q :
  (∀ a w, wp any_fault (k a) Q w) → ∀ w, wp any_fault (m ≫= k) Q w.
Proof. intros Hk w. unfold wp, mbind, prog_bind. destruct (m w) as [a w'|]; [apply Hk|done]. Qed.

Lemma init_running w : wp any_fault session_init (fun _ w' => running (ses w') = true) w.
Proof. revert w. unfold session_init. repeat (apply wp_last; intros ?). intros w. by apply wp_modify. Qed.

(** Whatever the static session holds: start-up fills it. *)
Lemma safe_init w :
  checked (calls w) →
  wp no_fault session_init (fun _ w' => Inv true w') w.
Proof.
  intros Hc. eapply wp_mono; [eapply (wp_and no_fault session_init (fun _ w' => Inv false w') _ w); [|apply init_running]|].
  2: { intros _ w' [[Hw [Hc' Hn _]] Hr]. split; [done|]. split; [done..|by left]. }
  unfold session_init. apply wp_bind, wp_modify. cbn beta. set (w1 := w <| ses := _ |>).
  assert (H1 : Inv false w1).
  { split; [|by split]. split; [by vm_compute|by constructor|by constructor]. }
  clearbody w1. clear Hc w. revert w1 H1.
  match goal with |- ∀ w1, _ → wp _ ?p _ w1 => change (safe p) end.
  pose proof (safe_load_config false) as Hlc. pose proof (safe_init_server false) as His.
  pose proof (safe_system_bus false). pose proof (safe_screensaver_service false).
  pose proof (safe_command_service false). safe.
  apply safely_modify. intros w [[] [Hc Hn _]]. split; by split.
Qed.

Lemma safe_reap_known : safe reap_known.
Proof.
  unfold reap_known. safe.
Qed.
Hint Resolve safe_reap_known : safe.
Lemma safe_wait_closed n : safe (wait_closed n).
Proof. induction n; cbn [wait_closed]; safe. Qed.
Lemma safe_wait_gone n : safe (wait_gone n).
Proof. induction n; cbn [wait_gone]; safe. Qed.
Hint Resolve safe_wait_closed safe_wait_gone : safe.

Lemma safe_kill_all : safe child_kill_all.
Proof.
  pose proof (safe_stop false eq_refl) as Hstop. unfold child_kill_all.
  apply safely_bind; [|intros _].
  { apply safe_upd. aside. apply Forall_map. by eapply Forall_impl. }
  repeat (apply safely_bind; [|intros ?]); safe; done.
Qed.

Lemma safe_cleanup : safe session_cleanup.
Proof.
  pose proof safe_kill_all. unfold session_cleanup, release, close_if. apply safely_bind; [safe|intros p].
  apply safely_bind; [|intros _; safe]. apply safely_when. safe.
  apply safely_modify. intros w [[] [Hc Hn Hr]]. split; [done|]. split; [done|cbn; lia|done].
Qed.

Lemma inv_weaken L w : Inv L w → Inv false w.
Proof. intros [Hw []]. split; [done|]. by split. Qed.

(** The whole program. *)
Lemma safe_main wakes w :
  checked (calls w) → wp no_fault (session_main wakes) (fun _ w' => Inv false w') w.
Proof.
  intros Hc. unfold session_main. apply wp_bind. eapply wp_mono; [by apply safe_init|]. cbn beta.
  intros _ w1 H1. apply inv_weaken in H1. revert w1 H1.
  match goal with |- ∀ w1, _ → wp _ ?p _ w1 => change (safe p) end.
  apply safely_bind; [by apply safe_run|]. intros _. apply safely_bind; [apply safe_cleanup|]. intros. safe.
Qed.
End EndSafe.
