(* ===== verification/SessSupervise.v ===== *)
(** * isde-session: no component is lost

    [supervised] lists the components that are to run for the whole session: the
    children with [respawn] and the pending respawns.  [kept_up]: a program keeps
    all of them, but for those whose fork failed.  That holds of all operations
    but [child_reap], which gives up a component at its fifth rapid crash. *)

From S2P Require Import Prelude.
From S2P Require Import CString.
From S2P Require Import CFloat.
From S2P Require Import TwoState.
From S2P Require Import DesktopEntry.
From S2P Require Import SessCore.
From S2P Require Import SessBus.
From S2P Require Import SessRun.
From S2P Require Import SessInhibit.
Open Scope Z_scope.

(** A component: its command, whether it is the window manager or the panel. *)
Definition component : Type := text * bool * bool.
Definition of_child (c : Child) : component := (command c, is_wm c, is_panel c).
Definition of_pending (p : PendingRespawn) : component := (p_command p, p_is_wm p, p_is_panel p).
Definition command_of (x : component) : text := fst (fst x).

Definition lasting (l : list Child) : list component := map of_child (filter (fun c => respawn c = true) l).
Definition supervised (s : Session) : list component :=
  lasting (children s) ++ map of_pending (pending_respawns s).

Section Supervise.
Context `{Host}.

(** A fork for [x] failed. *)
Definition fork_failed (h : list scall) (x : component) : Prop :=
  ∃ h1 h2, h = h1 ++ SFork (Shell (command_of x)) :: h2 ∧ host h2 (SFork (Shell (command_of x))) = None.

(** All components are kept, but for those that [P] excuses. *)
Definition kept_but (P : component → Prop) (l l' : list component) : Prop :=
  ∃ lost, l ≡ₚ lost ++ l' ∧ Forall P lost.

Lemma but_all P l l' : l ≡ₚ l' → kept_but P l l'.
Proof. intros Hl. by exists []. Qed.

Lemma but_trans P l1 l2 l3 : kept_but P l1 l2 → kept_but P l2 l3 → kept_but P l1 l3.
Proof.
  intros (a & Ha & Pa) (b & Hb & Pb). exists (a ++ b). rewrite Ha, Hb, app_assoc.
  split; [done|]. by apply Forall_app.
Qed.

Lemma but_weaken P Q l l' : (∀ x, P x → Q x) → kept_but P l l' → kept_but Q l l'.
Proof. intros HPQ (a & Ha & Pa). exists a. split; [done|]. by eapply Forall_impl. Qed.

Record kept_up (w w' : World) : Prop := mkKeptUp {
  ku_log : ∃ h, calls w' = h ++ calls w;
  ku_running : running (ses w) = false → running (ses w') = false;
  ku_kept : running (ses w') = true → kept_but (fork_failed (calls w')) (supervised (ses w)) (supervised (ses w'))
}.

Lemma fork_failed_later h h' x : fork_failed h x → fork_failed (h' ++ h) x.
Proof. intros (h1 & h2 & -> & E). exists (h' ++ h1), h2. by rewrite <- app_assoc. Qed.

#[export] Instance kept_up_preorder : PreOrder kept_up.
Proof.
  split; [intros w; split; [by exists []|done|intros; by apply but_all]|].
  intros a b c [[h1 E1] R1 K1] [[h2 E2] R2 K2]. split.
  - exists (h2 ++ h1). by rewrite E2, E1, app_assoc.
  - auto.
  - intros Er. assert (Eb : running (ses b) = true).
    { destruct (running (ses b)); [done|]. rewrite R2 in Er; done. }
    eapply but_trans; [|by apply K2]. eapply but_weaken; [|by apply K1].
    intros x Hx. rewrite E2. by apply fork_failed_later.
Qed.

Notation keeping := (steps kept_up).

Lemma kept_up_same w w' h :
  calls w' = h ++ calls w → running (ses w') = running (ses w) →
  supervised (ses w') ≡ₚ supervised (ses w) → kept_up w w'.
Proof. intros Ec Er Es. split; [by exists h|by rewrite Er|]. intros _. by apply but_all. Qed.

Lemma keeping_call c : keeping (call c).
Proof. intros w. apply (wp_scall _ c). by apply (kept_up_same _ _ [c]). Qed.
Lemma keeping_get {A} (f : Session → A) : keeping (get_s f).
Proof. intros w. apply wp_gets. reflexivity. Qed.
Lemma keeping_upd f :
  (∀ s, running (f s) = running s ∧ supervised (f s) ≡ₚ supervised s) → keeping (upd_s f).
Proof. intros Hf w. apply wp_modify. destruct (Hf (ses w)). by apply (kept_up_same _ _ []). Qed.
(** Logging out or a signal. *)
Lemma keeping_stop : keeping ((running =: false)%C).
Proof. intros w. apply wp_modify. split; [by exists []|done|done]. Qed.
Lemma keeping_fork p ch : keeping (fork p ch).
Proof.
  intros w. unfold wp, fork. destruct (host (calls w) (SFork p)); [|by apply (kept_up_same _ _ [SFork p])].
  destruct (ch _); [|done]. by apply (kept_up_same _ _ [SFork p]).
Qed.
Lemma keeping_for_each {A} (l : list A) body : (∀ x, keeping (body x)) → keeping (for_each l body).
Proof.
  intros Hb. induction l as [|x l IH]; cbn; [apply steps_skip; apply _|].
  apply steps_bind; [apply _|apply Hb|done].
Qed.

(** ** Spawning *)

(** From the components [l] to those that are there after a program, for the
    components that are only in the program's hands. *)
Definition takes_over (P : list scall → component → Prop) (l : list component) (w w' : World) : Prop :=
  (∃ h, calls w' = h ++ calls w) ∧ running (ses w') = running (ses w) ∧
  kept_but (P (calls w')) l (supervised (ses w')).

Lemma wp_spawn cmd wm panel crashes w :
  wp any_fault (child_spawn cmd true wm panel crashes)
    (fun _ w' => takes_over fork_failed ((cmd, wm, panel) :: supervised (ses w)) w w' ∧
       (∃ new, children (ses w') = new ++ children (ses w) ∧ Forall (fun c => rapid_crashes c = crashes) new)) w.
Proof.
  unfold child_spawn. apply wp_bind. unfold wp at 1, fork.
  destruct (host (calls w) (SFork (Shell cmd))) as [n|] eqn:Eh.
  - destruct (spawn_child cmd _); [|done]. cbn [Z.ltb Z.compare].
    apply wp_bind, (wp_scall _ Now), wp_bind, wp_modify. cbn beta. apply wp_ret. split; [split; [|split; [done|]]|].
    + by exists [Now; SFork (Shell cmd)].
    + by apply but_all.
    + eexists [_]. split; [done|]. by constructor.
  - apply wp_ret. split; [split; [|split; [done|]]|by exists []].
    + by exists [SFork (Shell cmd)].
    + exists [(cmd, wm, panel)]. split; [done|]. constructor; [|done].
      exists [], (calls w). done.
Qed.

Lemma supervised_perm_pending s p ps :
  pending_respawns s ≡ₚ p :: ps → supervised s ≡ₚ of_pending p :: lasting (children s) ++ map of_pending ps.
Proof.
  intros Hp. unfold supervised. rewrite Hp. cbn. by rewrite Permutation_middle.
Qed.

Lemma keeps_due now todo w :
  wp any_fault (respawn_due now todo)
    (fun _ w' => takes_over fork_failed (map of_pending todo ++ supervised (ses w)) w w') w.
Proof.
  revert w. induction todo as [|p todo IH]; intros w; cbn [respawn_due map app].
  { apply wp_ret. split; [by exists []|]. split; [done|]. by apply but_all. }
  destruct (_ <? _).
  - apply wp_bind, wp_modify. cbn beta. set (w1 := w <| ses := _ |>).
    eapply wp_mono; [apply (IH w1)|]. cbn beta. intros _ w' (Hl & Hr & Hk). split; [done|]. split; [done|].
    eapply but_trans; [apply but_all|exact Hk].
    rewrite (supervised_perm_pending (ses w1) p (pending_respawns (ses w)))
      by (cbn; by rewrite Permutation_app_comm).
    cbn. by rewrite Permutation_middle.
  - apply wp_bind. eapply wp_mono; [apply wp_spawn|]. cbn beta. intros ok w1 [([h1 E1] & R1 & K1) _].
    eapply wp_mono; [apply (IH w1)|]. cbn beta. intros _ w' ([h2 E2] & R2 & K2).
    split; [exists (h2 ++ h1); by rewrite E2, E1, app_assoc|]. split; [congruence|].
    destruct K1 as (a & Ha & Pa). destruct K2 as (b & Hb & Pb). exists (a ++ b). split.
    + etrans; [apply Permutation_middle|]. unfold of_pending at 2. rewrite Ha.
      rewrite <- app_assoc, <- Hb, !app_assoc. apply Permutation_app_tail, Permutation_app_comm.
    + apply Forall_app. split; [|done]. eapply Forall_impl; [exact Pa|]. intros x Hx. rewrite E2.
      by apply fork_failed_later.
Qed.

Lemma keeping_process_pending : keeping child_process_pending_respawns.
Proof.
  intros w. unfold child_process_pending_respawns. apply wp_bind, (wp_scall _ Now), wp_bind, wp_gets, wp_bind, wp_modify.
  cbn beta. match goal with |- wp _ (respawn_due ?n ?t) _ ?w => set (w1 := w); eapply wp_mono; [apply (keeps_due n t w1)|] end.
  cbn beta. intros _ w' ([h E] & R & K). split.
  - exists (h ++ [Now]). rewrite E. cbn. by rewrite <- app_assoc.
  - rewrite R. done.
  - intros _. eapply but_trans; [apply but_all|exact K]. cbn. unfold supervised. cbn.
    rewrite app_nil_r. apply Permutation_app_comm.
Qed.

(** ** Reaping *)

Lemma find_pid_perm p l c : child_find_pid p l = Some c → l ≡ₚ c :: remove_pid p l.
Proof.
  induction l as [|d l IH]; cbn; [done|]. destruct (pid d =? p); [by intros [= ->]|].
  intros Hf. rewrite (IH Hf) at 1. by rewrite Permutation_swap.
Qed.

Lemma find_pid_pid p l c : child_find_pid p l = Some c → pid c = p.
Proof. intros Hf. apply find_some in Hf as [_ Hf]. by apply Z.eqb_eq. Qed.

Lemma lasting_perm l l' : l ≡ₚ l' → lasting l ≡ₚ lasting l'.
Proof. intros Hl. unfold lasting. by rewrite Hl. Qed.

Lemma lasting_cons c l : lasting (c :: l) = (if respawn c then [of_child c] else []) ++ lasting l.
Proof.
  unfold lasting. destruct (respawn c) eqn:E; [rewrite filter_cons_True by done|rewrite filter_cons_False by congruence]; done.
Qed.

(** A child about to crash for the fifth time. *)
Definition exhausted (l : list Child) (x : component) : Prop :=
  ∃ c, c ∈ l ∧ of_child c = x ∧ respawn c = true ∧ MAX_RAPID_CRASHES ≤ rapid_crashes c + 1.

(** What may be lost when children are reaped that were in [l0] at the start. *)
Definition excused (l0 : list Child) (h : list scall) (x : component) : Prop :=
  fork_failed h x ∨ exhausted l0 x.

(** No child has crashed as often as one in [l0] but those. *)
Definition from_start (l0 l : list Child) : Prop := ∀ x, exhausted l x → exhausted l0 x.

Definition reaped (l0 : list Child) (w w' : World) : Prop :=
  takes_over (excused l0) (supervised (ses w)) w w' ∧ from_start l0 (children (ses w')).

Lemma from_start_incl l0 l l' : (∀ c, c ∈ l' → c ∈ l ∨ rapid_crashes c = 0) → from_start l0 l → from_start l0 l'.
Proof.
  intros Hi Hl x (c & Hc & Ex & Er & Em). apply Hl. destruct (Hi c Hc) as [Hc'|E0]; [by exists c|].
  unfold MAX_RAPID_CRASHES in *. lia.
Qed.

Lemma wp_remove_found p c w l0 :
  child_find_pid p (children (ses w)) = Some c → from_start l0 (children (ses w)) →
  wp any_fault (child_remove c) (fun _ w' => calls w' = calls w ∧ running (ses w') = running (ses w) ∧
    pending_respawns (ses w') = pending_respawns (ses w) ∧
    children (ses w) ≡ₚ c :: children (ses w') ∧ from_start l0 (children (ses w'))) w.
Proof.
  intros Hf Hl. apply wp_modify. cbn. pose proof (find_pid_perm _ _ _ Hf) as Hp. rewrite (find_pid_pid _ _ _ Hf).
  split; [done|]. split; [done|]. split; [done|]. split; [done|].
  eapply from_start_incl; [|exact Hl]. intros d Hd. left. rewrite Hp. by right.
Qed.

Lemma wp_respawn_child p c w l0 :
  child_find_pid p (children (ses w)) = Some c → respawn c = true → from_start l0 (children (ses w)) →
  wp any_fault (respawn_child c) (fun _ w' => reaped l0 w w') w.
Proof.
  intros Hf Er Hl. unfold respawn_child. apply wp_bind, (wp_scall _ Now). set (w1 := w <| calls := _ |>).
  cbv zeta. set (k := if _ <? _ then _ else _).
  assert (Hin : c ∈ children (ses w)) by (rewrite (find_pid_perm _ _ _ Hf); by left).
  destruct (Z.leb_spec MAX_RAPID_CRASHES k) as [Hk|Hk].
  - eapply wp_mono; [by apply (wp_remove_found p c w1 l0)|]. cbn beta. intros _ w' (Ec & Erun & Ep & Hp & Hl').
    split; [|done]. split; [by exists [Now]|]. split; [done|]. exists [of_child c]. split.
    + change (children (ses w1)) with (children (ses w)) in Hp.
      unfold supervised at 1. rewrite (lasting_perm _ _ Hp), lasting_cons, Er. cbn. unfold supervised. by rewrite Ep.
    + constructor; [|done]. right. apply Hl. exists c. split; [done|]. split; [done|]. split; [done|].
      unfold k in Hk. destruct (_ <? _); unfold MAX_RAPID_CRASHES in *; lia.
  - destruct (Z.ltb_spec 0 k) as [Hk0|Hk0].
    + apply wp_bind, (wp_scall _ Now), wp_bind, wp_modify. cbn beta. set (w2 := _ <| ses := _ |>).
      eapply wp_mono; [by apply (wp_remove_found p c w2 l0)|]. cbn beta. intros _ w' (Ec & Erun & Ep & Hp & Hl').
      split; [|done]. split; [by exists [Now; Now]|]. split; [done|]. apply but_all.
      change (children (ses w2)) with (children (ses w)) in Hp.
      unfold supervised. rewrite (lasting_perm _ _ Hp), lasting_cons, Er, Ep. cbn.
      by rewrite <- Permutation_middle.
    + apply wp_bind. eapply wp_mono; [by apply (wp_remove_found p c w1 l0)|]. cbn beta.
      intros _ w' (Ec & Erun & Ep & Hp & Hl').
      apply wp_bind. eapply wp_mono; [apply wp_spawn|]. cbn beta.
      intros ok w'' [([h E] & Erun' & Hk') (new & En & Hnew)]. apply wp_ret. split.
      * split; [exists (h ++ [Now]); rewrite E, Ec; cbn; by rewrite <- app_assoc|]. split; [by rewrite Erun', Erun|].
        eapply but_weaken; [intros x Hx; by left|]. eapply but_trans; [apply but_all|exact Hk'].
        change (children (ses w1)) with (children (ses w)) in Hp. unfold supervised.
        rewrite (lasting_perm _ _ Hp), lasting_cons, Er, Ep. done.
      * eapply from_start_incl; [|exact Hl']. intros d Hd. rewrite En in Hd. apply elem_of_app in Hd as [Hd|Hd]; [|by left].
        right. by eapply Forall_forall in Hnew; [|exact Hd].
Qed.

Lemma excused_later l0 h h' x : excused l0 h x → excused l0 (h' ++ h) x.
Proof. intros [Hx|Hx]; [left; by apply fork_failed_later|by right]. Qed.

(** The outcome of reaping. *)
Record reap_outcome (l0 : list Child) (w w' : World) : Prop := mkReap {
  ro_log : ∃ h, calls w' = h ++ calls w;
  ro_running : running (ses w') = running (ses w);
  ro_kept : running (ses w) = true → kept_but (excused l0 (calls w')) (supervised (ses w)) (supervised (ses w'));
  ro_start : from_start l0 (children (ses w'))
}.

Lemma wp_reap_one l0 ps w :
  from_start l0 (children (ses w)) → wp any_fault (reap_one ps) (fun _ w' => reap_outcome l0 w w') w.
Proof.
  intros Hl. unfold reap_one. apply wp_bind, wp_gets. unfold id.
  destruct (child_find_pid _ _) as [c|] eqn:Ec.
  2: { apply wp_ret. split; [by exists []|done|intros; by apply but_all|done]. }
  destruct (respawn c && running (ses w)) eqn:Eb.
  - apply andb_true_iff in Eb as [Er Erun]. eapply wp_mono; [by eapply wp_respawn_child|]. cbn beta.
    intros _ w' [(Hlog & Hrun & Hk) Hl']. by split.
  - eapply wp_mono; [by eapply wp_remove_found|]. cbn beta. intros _ w' (E & Erun & Ep & Hp & Hl').
    split; [by exists []|done| |done]. intros Et. apply but_all. unfold supervised.
    rewrite Ep, (lasting_perm _ _ Hp), lasting_cons. rewrite Et, andb_true_r in Eb. by rewrite Eb.
Qed.

Lemma wp_reap_all l0 pss w :
  from_start l0 (children (ses w)) →
  wp any_fault (for_each pss reap_one) (fun _ w' => reap_outcome l0 w w') w.
Proof.
  revert w. induction pss as [|ps pss IH]; intros w Hl; cbn [for_each].
  { apply wp_ret. split; [by exists []|done|intros; by apply but_all|done]. }
  apply wp_bind. eapply wp_mono; [by apply wp_reap_one|]. cbn beta. intros _ w1 [[h1 E1] R1 K1 S1].
  eapply wp_mono; [by apply IH|]. cbn beta. intros _ w2 [[h2 E2] R2 K2 S2]. split; [|congruence| |done].
  - exists (h2 ++ h1). by rewrite E2, E1, app_assoc.
  - intros Er. eapply but_trans; [|apply K2; congruence]. eapply but_weaken; [|by apply K1].
    intros x Hx. rewrite E2. by apply excused_later.
Qed.

Lemma wp_child_reap w :
  wp any_fault child_reap (fun _ w' => reap_outcome (children (ses w)) w w') w.
Proof.
  unfold child_reap. apply wp_bind, (wp_scall _ ReapAll).
  eapply wp_mono; [apply (wp_reap_all (children (ses w))); by intros ?|]. cbn beta.
  intros _ w' [[h E] R K S]. split; [|done..]. exists (h ++ [ReapAll]). rewrite E. cbn. by rewrite <- app_assoc.
Qed.
End Supervise.

(** ** All other operations of a round keep the components *)

Ltac keep_step :=
  lazymatch goal with
  | |- steps kept_up (call ?c) => refine (keeping_call c)
  | |- steps kept_up (fork _ _) => apply keeping_fork
  | |- steps kept_up (get_s _) => apply keeping_get
  | |- steps kept_up (upd_s _) => first [apply keeping_upd; intros ?; by split | apply keeping_stop]
  | |- steps kept_up (for_each _ _) => apply keeping_for_each; intros ?
  | |- steps _ (mret _) => apply steps_ret; apply _
  | |- steps _ skip => apply steps_skip; apply _
  | |- steps _ (raise _) => apply steps_raise
  | |- steps _ (when _ _) => apply steps_when; [apply _|]
  | |- steps _ (_ ≫= _) => apply steps_bind; [apply _| |intros ?]
  | |- steps _ (if ?b then _ else _) => destruct b
  | |- steps _ (match ?x with _ => _ end) => destruct x
  | |- steps _ (let _ := _ in _) => cbv zeta
  | |- steps kept_up _ => solve [eauto with steps]
  end.
Ltac keep := repeat keep_step.

Section Keeping.
Context `{Host}.
Notation keeping := (steps kept_up).

Lemma keeping_now : keeping now_ms.
Proof. apply (keeping_call Now). Qed.
Lemma keeping_dm_call m : keeping (dm_dbus_call m).
Proof. unfold dm_dbus_call. keep. Qed.
Hint Resolve keeping_now keeping_dm_call keeping_process_pending : steps.
Lemma keeping_blanking : keeping update_blanking_inhibit.
Proof. unfold update_blanking_inhibit. keep. Qed.
Lemma keeping_show a : keeping (show_confirmation a).
Proof. unfold show_confirmation. keep. Qed.
Lemma keeping_confirm_reap : keeping confirm_reap.
Proof. unfold confirm_reap, confirmed. keep. Qed.
Hint Resolve keeping_blanking keeping_show : steps.
Lemma keeping_get_at {A} (l : list A) i : keeping (get_at l i).
Proof. intros w. unfold wp, get_at. destruct (decide _); [|done]. by destruct (l !! _). Qed.
Lemma keeping_set_slot i c o : keeping (set_slot i c o).
Proof.
  intros w. unfold wp, set_slot, lift_oob. destruct (decide _); [|done]. by apply (kept_up_same _ _ []).
Qed.
Hint Resolve keeping_get_at keeping_set_slot : steps.
Lemma keeping_drop_slot i : keeping (drop_slot i).
Proof. unfold drop_slot. keep. Qed.
Hint Resolve keeping_drop_slot : steps.
Lemma keeping_drop_owner fuel i name b : keeping (drop_owner fuel i name b).
Proof. revert i b. induction fuel; intros; cbn [drop_owner]; keep. Qed.
Lemma keeping_drop_cookie fuel i c : keeping (drop_cookie fuel i c).
Proof. revert i. induction fuel; intros; cbn [drop_cookie]; keep. Qed.
Hint Resolve keeping_drop_owner keeping_drop_cookie : steps.
Lemma keeping_bus_filter m : keeping (session_bus_filter m).
Proof. unfold session_bus_filter. keep. Qed.
Lemma keeping_saver m : keeping (screensaver_message_handler m).
Proof. unfold screensaver_message_handler, inhibit. keep. Qed.
Lemma keeping_command m : keeping (session_command_handler m).
Proof. unfold session_command_handler. keep. Qed.
Lemma keeping_system m : keeping (system_bus_filter m).
Proof. unfold system_bus_filter, lid_closed. keep. Qed.
Hint Resolve keeping_bus_filter keeping_saver keeping_command keeping_system : steps.
Lemma keeping_bus_message m : keeping (session_bus_message m).
Proof. unfold session_bus_message. keep. Qed.
Hint Resolve keeping_bus_message : steps.

Lemma keeping_settings sec : keeping (on_settings_changed sec).
Proof. unfold on_settings_changed. keep. Qed.
Lemma keeping_appearance : keeping apply_appearance_settings.
Proof. unfold apply_appearance_settings. keep. Qed.
Lemma keeping_power : keeping apply_power_settings.
Proof. unfold apply_power_settings. keep. Qed.
Lemma keeping_background : keeping apply_background.
Proof. unfold apply_background, set_background. keep. Qed.
Lemma keeping_restart_ui : keeping restart_ui_children.
Proof. unfold restart_ui_children. keep. Qed.
Hint Resolve keeping_settings keeping_appearance keeping_power keeping_background keeping_restart_ui : steps.
Lemma keeping_check_timer : keeping check_timer_fire.
Proof. unfold check_timer_fire. keep. Qed.
Lemma keeping_idle_timer : keeping idle_timer_fire.
Proof. unfold idle_timer_fire. keep. Qed.
Hint Resolve keeping_check_timer keeping_idle_timer : steps.
Lemma keeping_timers : keeping fire_timers.
Proof. unfold fire_timers. keep. Qed.
End Keeping.

(** ** A round *)
Section Round.
Context `{Host}.

Record kept_round (l0 : list Child) (w w' : World) : Prop := mkKeptRound {
  kr_log : ∃ h, calls w' = h ++ calls w;
  kr_running : running (ses w) = false → running (ses w') = false;
  kr_kept : running (ses w') = true → kept_but (excused l0 (calls w')) (supervised (ses w)) (supervised (ses w'))
}.

Lemma kept_round_trans l0 a b c : kept_round l0 a b → kept_round l0 b c → kept_round l0 a c.
Proof.
  intros [[h1 E1] R1 K1] [[h2 E2] R2 K2]. split.
  - exists (h2 ++ h1). by rewrite E2, E1, app_assoc.
  - auto.
  - intros Er. assert (Eb : running (ses b) = true).
    { destruct (running (ses b)); [done|]. rewrite R2 in Er; done. }
    eapply but_trans; [|by apply K2]. eapply but_weaken; [|by apply K1].
    intros x Hx. rewrite E2. by apply excused_later.
Qed.

Lemma kept_up_round l0 w w' : kept_up w w' → kept_round l0 w w'.
Proof. intros [L R K]. split; [done|done|]. intros Er. eapply but_weaken; [|by apply K]. by left. Qed.

Lemma reap_round l0 w w' : reap_outcome l0 w w' → kept_round l0 w w'.
Proof. intros [L R K _]. split; [done|congruence|]. intros Er. apply K. congruence. Qed.

(** Confirmations do not touch the children. *)
Lemma confirm_children w :
  wp any_fault confirm_reap (fun _ w' => children (ses w') = children (ses w)) w.
Proof.
  assert (Hd : ∀ m, steps (fun w w' => children (ses w') = children (ses w)) (dm_dbus_call m)).
  { intros m w1. apply wp_bind, (wp_scall _ SystemBus), wp_when; [|done]. intros _.
    by apply wp_bind, (wp_scall _ (DmCall m)), (wp_scall _ BusUnref). }
  assert (Hc : steps (fun w w' => children (ses w') = children (ses w)) confirm_reap); [|apply Hc].
  unfold confirm_reap, confirmed, upd_s, get_s.
  repeat (first [apply Hd | steps_step | apply steps_modify; done]). intros w1. by apply (wp_scall _ (WaitNoHang _)).
Qed.

Lemma wp_sigchld w : wp any_fault sigchld_dispatch (fun _ w' => kept_round (children (ses w)) w w') w.
Proof.
  unfold sigchld_dispatch. apply wp_bind.
  eapply wp_mono; [apply (wp_and any_fault _ _ _ w (keeping_confirm_reap w) (confirm_children w))|].
  cbn beta. intros _ w1 [K1 E1]. eapply wp_mono; [apply wp_child_reap|]. cbn beta. intros _ w2 H2.
  eapply kept_round_trans; [by apply kept_up_round|]. rewrite <- E1. by apply reap_round.
Qed.

Lemma wp_round r w : wp any_fault (session_round r) (fun _ w' => kept_round (children (ses w)) w w') w.
Proof.
  unfold session_round. apply wp_bind, wp_gets, wp_bind. eapply wp_mono with (Q := fun _ w1 => kept_round (children (ses w)) w w1).
  { apply wp_when; intros _; [apply wp_sigchld|]. apply kept_up_round. reflexivity. }
  cbn beta. intros _ w1 H1.
  match goal with |- wp _ ?p _ _ => assert (Hp : steps kept_up p) end.
  { pose proof keeping_timers. unfold system_bus_input_ready, session_bus_input_ready. pose proof keeping_settings.
    pose proof keeping_system. pose proof keeping_bus_message. keep. }
  eapply wp_mono; [apply Hp|]. cbn beta. intros _ w2 H2.
  eapply kept_round_trans; [exact H1|by apply kept_up_round].
Qed.
End Round.
