(* ===== verification/SessEnd.v ===== *)
(** * isde-session: the end of a session, and its file formats

    What the clean-up leaves: nothing is started any more, every child is gone or
    the process group is killed, and the waiting takes at most five seconds; then what
    is read of autostart entries and settings. *)

From S2P Require Import Prelude.
From S2P Require Import CString.
From S2P Require Import CFloat.
From S2P Require Import TwoState.
From S2P Require Import DesktopEntry.
From S2P Require Import DesktopClaims.
From S2P Require Import SessCore.
From S2P Require Import SessBus.
From S2P Require Import SessRun.
From S2P Require Import SessInhibit.
Open Scope Z_scope.

(** Nothing that starts a program or asks the display manager for something. *)
Definition no_start (c : scall) : Prop := match c with SFork _ | DmCall _ => False | _ => True end.

(** The time slept, in milliseconds. *)
Fixpoint slept (h : list scall) : Z :=
  match h with
  | [] => 0
  | Sleep ms :: h' => ms + slept h'
  | _ :: h' => slept h'
  end.

(** The session is being wound up, with at most [b] milliseconds of sleep. *)
Record winding_up (b : Z) (w w' : World) : Prop := mkWinding {
  wu_log : logs no_start calls w w';
  wu_pending : pending_respawns (ses w) = [] → pending_respawns (ses w') = [];
  wu_children : children (ses w) = [] → children (ses w') = [];
  wu_confirm : confirm_pid (ses w') = confirm_pid (ses w);
  wu_running : running (ses w) = false → running (ses w') = false;
  wu_slept : slept (calls w') ≤ slept (calls w) + b
}.

Section End_.
Context `{Host}.

Definition winds (b : Z) {A} (m : sprog A) : Prop := ∀ w, wp no_fault m (fun _ w' => winding_up b w w') w.

Lemma winding_trans a b w1 w2 w3 : winding_up a w1 w2 → winding_up b w2 w3 → winding_up (a + b) w1 w3.
Proof.
  intros [L1 P1 C1 F1 R1 S1] [L2 P2 C2 F2 R2 S2]. split; [by etrans|auto|auto|congruence|auto|lia].
Qed.

Lemma winds_weaken a b {A} (m : sprog A) : a ≤ b → winds a m → winds b m.
Proof. intros Hab Hm w. eapply wp_mono; [apply Hm|]. cbn beta. intros _ w' []. split; [done..|lia]. Qed.

Lemma winds_ret {A} (a : A) : winds 0 (mret a).
Proof. intros w. apply wp_ret. split; [reflexivity|done..|lia]. Qed.
Lemma winds_bind a b {A B} (m : sprog A) (k : A → sprog B) :
  winds a m → (∀ x, winds b (k x)) → winds (a + b) (m ≫= k).
Proof.
  intros Hm Hk w. apply wp_bind. eapply wp_mono; [apply Hm|]. cbn beta. intros x w1 H1.
  eapply wp_mono; [apply Hk|]. cbn beta. intros _ w2 H2. by eapply winding_trans.
Qed.
(** What does not sleep. *)
Lemma winds_then b {A B} (m : sprog A) (k : A → sprog B) :
  winds 0 m → (∀ x, winds b (k x)) → winds b (m ≫= k).
Proof. apply (winds_bind 0 b). Qed.
Lemma winds_get {A} (f : Session → A) : winds 0 (get_s f).
Proof. intros w. apply wp_gets. split; [reflexivity|done..|lia]. Qed.
Lemma winds_call c : no_start c → match c with Sleep _ => False | _ => True end → winds 0 (call c).
Proof.
  intros Hc Hs w. apply wp_scall. split; [by eapply logs_one|done..|].
  destruct c; cbn in *; try done; lia.
Qed.
Lemma winds_sleep ms : winds ms (call (Sleep ms)).
Proof. intros w. apply (wp_scall _ (Sleep ms)). split; [by eapply logs_one|done..|cbn; lia]. Qed.
Lemma winds_upd f :
  (∀ s, confirm_pid (f s) = confirm_pid s ∧ (running s = false → running (f s) = false) ∧ (pending_respawns s = [] → pending_respawns (f s) = []) ∧
     (children s = [] → children (f s) = [])) → winds 0 (upd_s f).
Proof.
  intros Hf w. apply wp_modify. destruct (Hf (ses w)) as (?&?&?&?).
  split; [by apply logs_same|done..|cbn; lia].
Qed.
Lemma winds_when b c (m : sprog unit) : 0 ≤ b → winds b m → winds b (when c m).
Proof. intros Hb Hm. destruct c; [done|]. eapply winds_weaken; [|apply winds_ret]. done. Qed.
Lemma winds_for_each {A} (l : list A) body : (∀ x, winds 0 (body x)) → winds 0 (for_each l body).
Proof.
  intros Hb. induction l as [|x l IH]; cbn; [apply winds_ret|]. by apply winds_then.
Qed.

Lemma winds_child_remove c : winds 0 (child_remove c).
Proof. apply winds_upd. intros s. split; [done|]. split; [done|]. split; [done|]. cbn. by intros ->. Qed.

Lemma winds_reap_known : winds 0 reap_known.
Proof.
  unfold reap_known. apply winds_then; [by apply (winds_call ReapAll)|]. intros ps.
  apply winds_for_each. intros p. apply winds_then; [apply winds_get|]. intros s.
  destruct (child_find_pid _ _); [apply winds_child_remove|apply winds_ret].
Qed.

Lemma winds_wait_closed n : winds (50 * Z.of_nat n) (wait_closed n).
Proof.
  induction n as [|n IH]; cbn [wait_closed]; [apply winds_ret|].
  apply winds_then; [apply winds_reap_known|]. intros _.
  replace (50 * Z.of_nat (S n)) with (50 + 50 * Z.of_nat n) by lia.
  apply winds_bind; [apply winds_sleep|done].
Qed.

Lemma winds_wait_gone n : winds (50 * Z.of_nat n) (wait_gone n).
Proof.
  induction n as [|n IH]; cbn [wait_gone]; [apply winds_ret|].
  apply winds_then; [apply winds_get|]. intros [|c cs]; [eapply winds_weaken; [|apply winds_ret]; lia|].
  apply winds_then; [apply winds_reap_known|]. intros _.
  apply winds_then; [apply winds_get|]. intros [|d ds]; [eapply winds_weaken; [|apply winds_ret]; lia|].
  replace (50 * Z.of_nat (S n)) with (50 + 50 * Z.of_nat n) by lia.
  apply winds_bind; [apply winds_sleep|done].
Qed.

Lemma winds_close_windows : winds 3000 close_windows.
Proof.
  apply winds_then; [apply winds_get|]. intros c. apply winds_when; [done|].
  apply winds_then; [by apply (winds_call EwmhInit)|]. intros e. apply winds_when; [done|].
  apply winds_then; [by apply (winds_call ClientList)|]. intros ws.
  apply winds_then; [|intros _; apply (winds_wait_closed 60)].
  apply winds_for_each. intros x. by apply (winds_call (RequestClose x)).
Qed.

Record killed (alive : bool) (w w' : World) : Prop := mkKilled {
  ki_log : logs no_start calls w w';
  ki_pending : pending_respawns (ses w') = [];
  ki_running : running (ses w') = false;
  ki_slept : slept (calls w') ≤ slept (calls w) + 5000;
  ki_term : KillGroup SIGTERM ∈ calls w';
  ki_gone : if alive then children (ses w') = [] else ∃ h, calls w' = KillGroup SIGKILL :: h
}.

Lemma logs_suffix {S C} (P : C → Prop) (F : S → list C) s s' x : logs P F s s' → x ∈ F s → x ∈ F s'.
Proof. intros (h & -> & _) Hx. apply elem_of_app. by right. Qed.

Lemma wp_kill_all w : wp no_fault child_kill_all (fun alive w' =>
  killed alive w w' ∧ confirm_pid (ses w') = confirm_pid (ses w)) w.
Proof.
  unfold child_kill_all. apply wp_bind, wp_modify. cbn beta. apply wp_bind, wp_modify. cbn beta.
  set (w1 := _ <| ses := _ |>).
  apply wp_bind. eapply wp_mono; [apply winds_close_windows|]. cbn beta. intros _ w2 [L2 P2 C2 F2 R2 S2].
  apply wp_bind, (wp_scall _ (KillGroup SIGTERM)), wp_bind, wp_modify. cbn beta. set (w3 := _ <| ses := _ |>).
  apply wp_bind. eapply wp_mono; [apply (winds_wait_gone 40)|]. cbn beta. intros _ w4 [L4 P4 C4 F4 R4 S4].
  assert (L : logs no_start calls w w4).
  { trans w3; [|done]. trans w2; [done|]. by eapply logs_one. }
  assert (P : pending_respawns (ses w4) = []) by (apply P4; cbn; by apply P2).
  assert (F : confirm_pid (ses w4) = confirm_pid (ses w)) by (rewrite F4; cbn; by rewrite F2).
  assert (S : slept (calls w4) ≤ slept (calls w) + 5000) by (cbn in S2, S4; lia).
  assert (K : KillGroup SIGTERM ∈ calls w4) by (eapply logs_suffix; [exact L4|]; cbn; by left).
  apply wp_bind, wp_gets. destruct (children (ses w4)) as [|c cs] eqn:Ec.
  - apply wp_ret. split; [|done]. split; auto.
  - apply wp_bind, (wp_scall _ (KillGroup SIGKILL)), wp_ret. split; [|done]. split; auto.
    + etrans; [exact L|]. by eapply logs_one.
    + cbn. by right.
    + by exists (calls w4).
Qed.

(** The rest of the clean-up closes what is open. *)
Lemma winds_release : winds 0 release.
Proof.
  assert (Hc : ∀ fd, winds 0 (close_if fd)) by (intros fd; apply winds_when; [done|by apply (winds_call (CloseFd fd))]).
  apply winds_then; [apply winds_get|]. intros s.
  do 4 (apply winds_then; [apply Hc|intros _]). apply winds_then; [by apply winds_upd|]. intros _.
  do 3 (apply winds_then; [apply winds_when; [done|by apply winds_call]|intros _]).
  apply winds_when; [done|by apply winds_call].
Qed.

(** What is left when the process exits, or has killed its process group. *)
Lemma wp_cleanup w : wp no_fault session_cleanup (fun alive w' =>
  killed alive w w' ∧ confirm_pid (ses w') ≤ 0) w.
Proof.
  unfold session_cleanup. apply wp_bind, wp_gets, wp_bind.
  eapply wp_mono with (Q := fun _ w1 => logs no_start calls w w1 ∧ slept (calls w1) = slept (calls w) ∧
    confirm_pid (ses w1) ≤ 0).
  { apply wp_when; intros Hp.
    - apply wp_bind, (wp_scall _ (Kill _ _)), wp_bind, (wp_scall _ (WaitBlock _)), wp_modify.
      split; [|split; [done|cbn; lia]]. eexists [_; _]. split; [done|]. by repeat constructor.
    - split; [reflexivity|]. split; [done|lia]. }
  cbn beta. intros _ w1 (L1 & S1 & F1). apply wp_bind. eapply wp_mono; [apply wp_kill_all|]. cbn beta.
  intros alive w2 [[L2 P2 R2 S2 K2 G2] F2].
  assert (L : logs no_start calls w w2) by (by etrans).
  destruct alive; cbn [when]; apply wp_bind.
  - eapply wp_mono; [apply winds_release|]. cbn beta. intros _ w3 [L3 P3 C3 F3 R3 S3].
    apply wp_ret. split; [|lia]. split; [by etrans|auto|auto|lia| |auto]. by eapply logs_suffix.
  - apply wp_ret, wp_ret. split; [|lia]. split; [done..|lia|done|done].
Qed.
End End_.

(** ** What is read of files

    The autostart file and the colors of the settings are read back as written;
    the time [poll] may wait ends at the next deadline. *)
Open Scope Z_scope.

(** ** Lines of the autostart file *)

Inductive aline :=
  | Blank (spaces : text)
  | Comment (spaces rest : text)
  | Entry (spaces : text) (mark : option text) (cmd after : text).

Definition print_aline (l : aline) : text :=
  match l with
  | Blank sp => sp
  | Comment sp rest => sp ++ "#"%char :: rest
  | Entry sp None cmd after => sp ++ cmd ++ after
  | Entry sp (Some mid) cmd after => sp ++ "@"%char :: mid ++ cmd ++ after
  end.

Definition entry_of (l : aline) : option (text * bool) :=
  match l with
  | Entry _ mark cmd _ => Some (cmd, bool_decide (is_Some mark))
  | _ => None
  end.

Definition blanks (t : text) : Prop := Forall (fun c => isspace c = true) t.

Definition good_aline (l : aline) : Prop :=
  LF ∉ print_aline l ∧ NUL ∉ print_aline l ∧ (length (print_aline l) < 1023)%nat ∧
  match l with
  | Blank sp => blanks sp
  | Comment sp _ => blanks sp
  | Entry sp mark cmd after =>
    blanks sp ∧ blanks (default [] mark) ∧ blanks after ∧ tight cmd ∧
    match cmd with
    | [] => False
    | c :: _ => mark = None → c ≠ "#"%char ∧ c ≠ "@"%char
    end
  end.

Lemma skip_blanks sp t : blanks sp → skip_space (sp ++ t) = skip_space t.
Proof. induction 1 as [|c sp Hc _ IH]; [done|]. cbn. by rewrite Hc. Qed.

Lemma blanks_rev t : blanks t → blanks (rev t).
Proof. induction 1; cbn; [constructor|]. apply Forall_app. split; [done|]. by constructor. Qed.

Lemma rstrip_blanks t sp : blanks sp → rstrip (t ++ sp) = rstrip t.
Proof. intros Hs. unfold rstrip. rewrite rev_app_distr, skip_blanks; [done|by apply blanks_rev]. Qed.

Lemma rstrip_only sp : blanks sp → rstrip sp = [].
Proof. intros Hs. by rewrite <- (app_nil_l sp), rstrip_blanks. Qed.

(** A text that ends in something else. *)
Lemma rstrip_snoc t c : isspace c = false → rstrip (t ++ [c]) = t ++ [c].
Proof. intros Hc. unfold rstrip. rewrite rev_app_distr. cbn [rev app]. rewrite skip_space_head by done.
  cbn [rev]. by rewrite rev_involutive. Qed.

Lemma rstrip_tight t cmd : cmd ≠ [] → tight cmd → rstrip (t ++ cmd) = t ++ cmd.
Proof.
  intros Hne Ht. destruct cmd as [|c cmd _] using rev_ind; [done|]. rewrite app_assoc.
  apply rstrip_snoc. by eapply tight_last.
Qed.

Lemma LF_space : isspace LF = true.
Proof. done. Qed.

Lemma comment_rstrip sp rest : ∃ rest', rstrip (sp ++ "#"%char :: rest) = sp ++ "#"%char :: rest'.
Proof.
  induction rest as [|c rest IH] using rev_ind.
  - exists []. by rewrite rstrip_snoc.
  - rewrite app_comm_cons, app_assoc. destruct (isspace c) eqn:Ec.
    + rewrite rstrip_blanks; [done|]. by constructor.
    + rewrite rstrip_snoc by done. exists (rest ++ [c]). by rewrite <- app_assoc.
Qed.

Lemma entry_line l : good_aline l → autostart_entry (print_aline l ++ [LF]) = entry_of l.
Proof.
  intros (Hlf & Hnul & _ & Hg). unfold autostart_entry.
  assert (Ec : cstr (print_aline l ++ [LF]) = print_aline l ++ [LF]) by (apply before_none; set_solver).
  rewrite Ec, rstrip_blanks by (by constructor). clear Ec Hlf Hnul.
  destruct l as [sp|sp rest|sp [mid|] cmd after]; cbn [print_aline entry_of].
  - by rewrite rstrip_only.
  - destruct (comment_rstrip sp rest) as [rest' ->]. rewrite skip_blanks by done.
    by rewrite skip_space_head.
  - destruct Hg as (Hsp & Hmid & Haf & Ht & Hc). assert (Hne : cmd ≠ []) by (by intros ->).
    replace (sp ++ "@"%char :: mid ++ cmd ++ after) with ((sp ++ "@"%char :: mid) ++ cmd ++ after)
      by (by rewrite <- app_assoc).
    rewrite app_assoc, rstrip_blanks, rstrip_tight by done. rewrite <- app_assoc, skip_blanks by done.
    cbn [app]. rewrite skip_space_head by done. rewrite decide_False, decide_True by done.
    rewrite skip_blanks by done. destruct Ht as [-> _]. by destruct cmd.
  - destruct Hg as (Hsp & _ & Haf & Ht & Hc). destruct cmd as [|c cmd]; [done|].
    destruct (Hc eq_refl) as [H1 H2].
    rewrite app_assoc, rstrip_blanks, rstrip_tight by done. rewrite skip_blanks by done.
    destruct Ht as [-> _]. by rewrite !decide_False.
Qed.

Section Autostart.
Context `{Host}.

Lemma autostart_printed ls w :
  Forall good_aline ls →
  wp no_fault (autostart_lines (map (fun l => l ++ [LF]) (map print_aline ls)))
    (fun _ w' => w' = w <| ses := (ses w) <| autostart := autostart (ses w) ++ omap entry_of ls |> |>) w.
Proof.
  intros Hg. revert w. induction Hg as [|l ls Hl _ IH]; intros w; cbn [map autostart_lines].
  - apply wp_ret. cbn. rewrite app_nil_r. by destruct w as [[] ? ?].
  - rewrite entry_line by done. change (omap entry_of (l :: ls)) with
      (match entry_of l with Some e => e :: omap entry_of ls | None => omap entry_of ls end).
    apply wp_bind. destruct (entry_of l) as [[cmd r]|].
    + apply wp_modify. eapply wp_mono; [apply IH|]. cbn beta. intros _ w' ->. cbn. by rewrite <- app_assoc.
    + apply wp_ret. apply IH.
Qed.

Lemma good_short ls : Forall good_aline ls → Forall (fun l => LF ∉ l ∧ (length l < 1023)%nat) (map print_aline ls).
Proof. intros Hg. apply Forall_map. eapply Forall_impl; [exact Hg|]. by intros l (?&_&?&_). Qed.
End Autostart.

(** ** Colors *)

Definition hex_char (d : Z) : ascii := ascii_of_N (Z.to_N (if d <? 10 then 48 + d else 87 + d)).

(** The six digits of a color, as in [#1a1a2e]. *)
Definition print_color (v : Z) : text :=
  "#"%char :: map (fun i => hex_char (v / 16 ^ i mod 16)) [5; 4; 3; 2; 1; 0].

Lemma hex_char_facts d : 0 ≤ d < 16 →
  hex_value (hex_char d) = Some d ∧ isspace (hex_char d) = false ∧
  hex_char d ≠ "-"%char ∧ hex_char d ≠ "+"%char ∧ hex_char d ≠ "x"%char ∧ hex_char d ≠ "X"%char.
Proof.
  intros Hd. assert (Hin : d ∈ [0;1;2;3;4;5;6;7;8;9;10;11;12;13;14;15]) by (rewrite !elem_of_cons; lia).
  revert d Hd Hin. cut (Forall (fun d => hex_value (hex_char d) = Some d ∧ isspace (hex_char d) = false ∧
    hex_char d ≠ "-"%char ∧ hex_char d ≠ "+"%char ∧ hex_char d ≠ "x"%char ∧ hex_char d ≠ "X"%char)
    [0;1;2;3;4;5;6;7;8;9;10;11;12;13;14;15]).
  - intros Hf d _ Hin. rewrite Forall_forall in Hf. by apply Hf.
  - repeat constructor; done.
Qed.

Lemma hex_digits_chars ds acc b :
  Forall (fun d => 0 ≤ d < 16) ds → 0 ≤ acc → (acc + 1) * 16 ^ Z.of_nat (length ds) ≤ ULONG_MAX →
  hex_digits acc b (map hex_char ds) = (fold_left (fun a d => a * 16 + d) ds acc, b || negb (bool_decide (ds = []))).
Proof.
  revert acc b. induction ds as [|d ds IH]; intros acc b Hd Ha Hm; cbn [map hex_digits fold_left].
  - by rewrite orb_false_r.
  - apply Forall_cons in Hd as [Hd Hds]. destruct (hex_char_facts d Hd) as [-> _].
    cbn [length] in Hm. rewrite Nat2Z.inj_succ, Z.pow_succ_r in Hm by lia.
    assert (1 ≤ 16 ^ Z.of_nat (length ds)) by (apply (Z.pow_le_mono_r 16 0); lia).
    rewrite Z.min_r by nia. rewrite IH by (done || nia). by rewrite orb_true_r.
Qed.

Lemma color_digits v : 0 ≤ v < 2 ^ 24 →
  fold_left (fun a d => a * 16 + d) (map (fun i => v / 16 ^ i mod 16) [5; 4; 3; 2; 1; 0]) 0 = v.
Proof.
  intros Hv. cbn [map fold_left].
  change (16 ^ 5) with 1048576. change (16 ^ 4) with 65536. change (16 ^ 3) with 4096.
  change (16 ^ 2) with 256. change (16 ^ 1) with 16. change (16 ^ 0) with 1.
  Z.div_mod_to_equations. lia.
Qed.

Lemma strtoul_digits ds :
  Forall (fun d => 0 ≤ d < 16) ds → length ds = 6%nat →
  strtoul16 (map hex_char ds) = Some (fold_left (fun a d => a * 16 + d) ds 0).
Proof.
  intros Hds Hl.
  assert (Hh : hex_digits 0 false (map hex_char ds) = (fold_left (fun a d => a * 16 + d) ds 0, true)).
  { rewrite hex_digits_chars; [|done|lia|by rewrite Hl]. by destruct ds. }
  destruct ds as [|a [|b [|c ds]]]; try done.
  apply Forall_cons in Hds as [Ha Hds]. apply Forall_cons in Hds as [Hb _].
  destruct (hex_char_facts a Ha) as (_ & Hs & Hm & Hp & _).
  destruct (hex_char_facts b Hb) as (_ & _ & _ & _ & Hx & HX).
  unfold strtoul16. cbn [map] in *. rewrite skip_space_head by done.
  rewrite (decide_False (P := hex_char a = "-"%char)) by done.
  rewrite (decide_False (P := hex_char a = "+"%char)) by done.
  rewrite decide_False by (intros (_ & [?|?] & _); done). by rewrite Hh.
Qed.

Lemma strtoul_color v : 0 ≤ v < 2 ^ 24 →
  strtoul16 (map (fun i => hex_char (v / 16 ^ i mod 16)) [5; 4; 3; 2; 1; 0]) = Some v.
Proof.
  intros Hv. etrans; [|apply (f_equal Some), (color_digits v Hv)].
  rewrite <- (map_map (fun i => v / 16 ^ i mod 16) hex_char). apply strtoul_digits; [|done].
  cbn [map]. repeat constructor; by apply Z.mod_pos_bound.
Qed.

Lemma color_land v : 0 ≤ v < 2 ^ 24 → Z.land v 16777215 = v.
Proof. intros Hv. change 16777215 with (Z.ones 24). rewrite Z.land_ones by done. by apply Z.mod_small. Qed.

(** ** Deadlines *)

(** The deadlines that are armed. *)
Definition deadlines (s : Session) : list Z :=
  (if 0 <? check_deadline_ms s then [check_deadline_ms s] else []) ++
  (if 0 <? idle_deadline_ms s then [idle_deadline_ms s] else []) ++
  map deadline_ms (pending_respawns s).

(** The earliest deadline; negative without one. *)
Definition first_of (e : Z) (l : list Z) : Prop :=
  (l = [] ∧ e < 0) ∨ (e ∈ l ∧ Forall (fun d => e ≤ d) l).

Lemma earliest_first l e : Forall (fun p => 0 ≤ deadline_ms p) l → -1 ≤ e →
  first_of (earliest e l) ((if 0 <=? e then [e] else []) ++ map deadline_ms l).
Proof.
  intros Hl. revert e. induction Hl as [|p l Hp _ IH]; intros e He; cbn [earliest map].
  - rewrite app_nil_r. destruct (Z.leb_spec 0 e); [right|left; split; [done|lia]].
    split; [by left|]. by repeat constructor.
  - set (e' := if _ || _ then _ else _). specialize (IH e').
    assert (He' : e' = if (e <? 0) || (deadline_ms p <? e) then deadline_ms p else e) by done. clearbody e'.
    assert (0 ≤ e') by (destruct (Z.ltb_spec e 0), (Z.ltb_spec (deadline_ms p) e); cbn in He'; lia).
    destruct IH as [[E _]|[Hin Hall]]; [lia|rewrite (proj2 (Z.leb_le 0 e')) in E by done; done|].
    rewrite (proj2 (Z.leb_le 0 e')) in Hin, Hall by done. cbn [app] in Hin, Hall.
    apply Forall_cons in Hall as [He0 Hall]. right. split.
    + apply elem_of_cons in Hin as [->|Hin]; [|apply elem_of_app; right; by right].
      destruct (Z.leb_spec 0 e), (Z.ltb_spec e 0), (Z.ltb_spec (deadline_ms p) e); cbn in He'; try lia;
        rewrite He'; cbn; rewrite ?elem_of_cons; auto.
    + apply Forall_app. split.
      * destruct (Z.leb_spec 0 e); [|done]. constructor; [|done].
        destruct (Z.ltb_spec e 0), (Z.ltb_spec (deadline_ms p) e); cbn in He'; lia.
      * constructor; [|done]. destruct (Z.ltb_spec e 0), (Z.ltb_spec (deadline_ms p) e); cbn in He'; lia.
Qed.

(** The earlier of two, if armed. *)
Lemma first_of_app d r l l' :
  Forall (fun x => 0 ≤ x) l → Forall (fun x => 0 ≤ x) l' → first_of d l → first_of r l' →
  first_of (if (0 <=? r) && ((d <? 0) || (r <? d)) then r else d) (l ++ l').
Proof.
  intros Hl Hl' Hd Hr. unfold first_of in *.
  destruct Hd as [[-> Hd]|[Hd Fd]], Hr as [[-> Hr]|[Hr Fr]].
  - left. split; [done|]. destruct (Z.leb_spec 0 r); [lia|]. done.
  - right. rewrite Forall_forall in Hl'. pose proof (Hl' _ Hr).
    destruct (Z.leb_spec 0 r), (Z.ltb_spec d 0); try lia. done.
  - right. rewrite app_nil_r. destruct (Z.leb_spec 0 r); [lia|]. done.
  - right. rewrite Forall_forall in Hl, Hl'. pose proof (Hl _ Hd). pose proof (Hl' _ Hr).
    destruct (Z.leb_spec 0 r), (Z.ltb_spec d 0), (Z.ltb_spec r d); try lia; cbn;
      rewrite elem_of_app, Forall_app; (split; [auto|]); split; try done;
      (eapply Forall_impl; [eassumption|]); cbn; lia.
Qed.

(** What the main loop takes as its deadline. *)
Lemma deadline_first s :
  Forall (fun p => 0 ≤ deadline_ms p) (pending_respawns s) →
  let d := if 0 <? check_deadline_ms s then check_deadline_ms s else -1 in
  let d := if (0 <? idle_deadline_ms s) && ((d <? 0) || (idle_deadline_ms s <? d)) then idle_deadline_ms s else d in
  let r := child_next_respawn_deadline s in
  first_of (if (0 <=? r) && ((d <? 0) || (r <? d)) then r else d) (deadlines s).
Proof.
  intros Hp. cbv zeta. set (d := if 0 <? check_deadline_ms s then _ else _). set (i := idle_deadline_ms s).
  assert (Harm : ∀ x, first_of (if 0 <? x then x else -1) (if 0 <? x then [x] else []) ∧
    Forall (fun y => 0 ≤ y) (if 0 <? x then [x] else [])).
  { intros x. destruct (Z.ltb_spec 0 x); [|split; [by left|done]]. split; [right|by repeat constructor; lia].
    split; [by left|by repeat constructor]. }
  replace (if (0 <? i) && ((d <? 0) || (i <? d)) then i else d) with
    (let j := if 0 <? i then i else -1 in if (0 <=? j) && ((d <? 0) || (j <? d)) then j else d).
  2: { cbv zeta. destruct (Z.ltb_spec 0 i); [|done]. by destruct (Z.leb_spec 0 i); [|lia]. }
  unfold deadlines. rewrite app_assoc. apply first_of_app.
  - apply Forall_app. split; apply Harm.
  - by apply Forall_map.
  - apply first_of_app; apply Harm.
  - apply (earliest_first _ (-1) Hp). done.
Qed.

Lemma deadlines_pos s :
  Forall (fun p => 0 ≤ deadline_ms p) (pending_respawns s) → Forall (fun d => 0 ≤ d) (deadlines s).
Proof.
  intros Hp. unfold deadlines. repeat (apply Forall_app; split); [| |by apply Forall_map];
    (destruct (_ <? _) eqn:E; [|constructor]); apply Z.ltb_lt in E; repeat constructor; lia.
Qed.
