(* ===== verification/SessClaims.v ===== *)
(** * isde-session: the theorems *)

From S2P Require Import Prelude.
From S2P Require Import CString.
From S2P Require Import CFloat.
From S2P Require Import TwoState.
From S2P Require Import LineIpc.
From S2P Require Import DesktopEntry.
From S2P Require Import DesktopClaims.
From S2P Require Import SessCore.
From S2P Require Import SessBus.
From S2P Require Import SessRun.
From S2P Require Import SessInhibit.
From S2P Require Import SessSafety.
From S2P Require Import SessSupervise.
From S2P Require Import SessEnd.
Open Scope Z_scope.

(** C9: Every run of the session manager, whatever the system answers and whatever
    wakes it, ends without an access out of bounds, with the arrays of inhibitors
    within their bounds and every count of rapid crashes below the limit. *)
Theorem session_well_formed `{Host} (s : Session) (wakes : list (bool * swake)) :
  wp no_fault (session_main wakes) (fun _ w' => wf (ses w')) (mkWorld s [] []).
Proof.
  eapply wp_mono; [by apply safe_main|]. cbn beta. by intros _ w' [].
Qed.

Lemma checked_split `{Host} later c earlier : checked (later ++ c :: earlier) → allowed earlier c.
Proof. induction later as [|d later IH]; cbn; [by intros []|]. intros [_ Hc]. by apply IH. Qed.

(** C7: The machine is only asked to shut down or reboot right after the confirmation
    overlay that was started last, for this very action, has exited with status
    0; and unless a signal ends the session it only ends by itself after the
    overlay for a logout did. *)
Theorem power_actions_confirmed `{Host} (s : Session) (wakes : list (bool * swake)) :
  wp no_fault (session_init;; session_run wakes) (fun _ w' =>
    (∀ later m earlier, calls w' = later ++ DmCall m :: earlier →
       (m = str "Shutdown" → ∃ h, earlier = SystemBus :: h ∧ accepted (str "shutdown") h) ∧
       (m = str "Reboot" → ∃ h, earlier = SystemBus :: h ∧ accepted (str "reboot") h)) ∧
    (Forall no_signal wakes → running (ses w') = false → logged_out (calls w')))
    (mkWorld s [] []).
Proof.
  set (L := bool_decide (Forall no_signal wakes)).
  apply wp_bind. eapply wp_mono; [by apply safe_init|]. cbn beta. intros _ w1 H1.
  assert (HL : Inv L w1) by (destruct L; [done|by eapply inv_weaken]).
  eapply wp_mono; [apply (safe_run L); [|exact HL]|].
  { intros E. by apply bool_decide_eq_true in E. }
  cbn beta. intros _ w2 [_ [Hc _ Hr]]. split.
  - intros later m earlier E. rewrite E in Hc. by apply checked_split in Hc.
  - intros Hs Hf. destruct Hr as [Hr|Hr]; [by apply bool_decide_eq_true|congruence|done].
Qed.

(** C6: In a round of the main loop no component is lost: unless the session ends in
    it, every child that is to be respawned and every pending respawn is still a
    child or a pending respawn after the round, but for those whose fork failed
    and those that had crashed four times in a row before. *)
Theorem components_kept `{Host} (r : sready) (w : World) :
  Inv true w →
  wp no_fault (session_round r) (fun _ w' =>
    running (ses w') = true →
    ∃ lost, supervised (ses w) ≡ₚ lost ++ supervised (ses w') ∧
      Forall (fun x => fork_failed (calls w') x ∨ exhausted (children (ses w)) x) lost) w.
Proof.
  intros Hi. eapply wp_mono; [apply (wp_and no_fault (session_round r) _ _ w (safe_round true r w Hi) (wp_round r w))|].
  cbn beta. intros _ w' [_ [_ _ K]] Er. exact (K Er).
Qed.

(** C8: Messages on the session bus change the inhibitors as their abstract
    specification says: an inhibitor is added under a new cookie while there are
    fewer than 32, taken away under its cookie, and gone with its owner.  Whenever
    they change the inhibitors, and also when the screen was in line before them,
    blanking is in line after them: off if there is an inhibitor, and otherwise as
    configured (if there is a connection to the server at all). *)
Theorem inhibitors_refine_bag `{Host} (ms : list DBusMessage) (w : World) :
  inhibitors_fit (ses w) → session_bus (ses w) = true →
  wp no_fault (session_bus_input_ready ms) (fun _ w' =>
    inhibitors_fit (ses w') ∧ bag_run ms (bag_of (ses w)) (bag_of (ses w')) ∧
    (screen_follows w ∨ active (ses w') ≠ active (ses w) → screen_follows w')) w.
Proof.
  intros Hf Hb. unfold session_bus_input_ready. apply wp_bind, wp_gets. rewrite Hb. by apply wp_messages.
Qed.


(** An autostart file is read as it was written: each entry with its mark, in
    order, with blanks around it, comments and empty lines left out. *)
Theorem autostart_file_read `{Host} (path : text) (ls : list aline) (w : World) :
  Forall good_aline ls →
  host (calls w) (ReadFile path) = Some (join_lines (map print_aline ls)) →
  wp no_fault (autostart_load path) (fun found w' =>
    found = true ∧ calls w' = ReadFile path :: calls w ∧
    ses w' = (ses w) <| autostart := autostart (ses w) ++ omap entry_of ls |>) w.
Proof.
  intros Hg Hf. unfold autostart_load. apply wp_bind, (wp_scall _ (ReadFile path)). rewrite Hf.
  rewrite fgets_join by by apply good_short. apply wp_bind. eapply wp_mono; [by apply autostart_printed|].
  cbn beta. intros _ w' ->. by apply wp_ret.
Qed.

(** A color is read as it is written; any other text gives a color of 24 bits or
    the fallback. *)
Theorem color_round_trip (v fallback : Z) (t : text) :
  (0 ≤ v < 2 ^ 24 → parse_hex_color (Some (print_color v)) fallback = v) ∧
  (parse_hex_color (Some t) fallback = fallback ∨ 0 ≤ parse_hex_color (Some t) fallback < 2 ^ 24).
Proof.
  split.
  - intros Hv. unfold parse_hex_color, print_color. rewrite decide_True by done. by rewrite strtoul_color, color_land.
  - unfold parse_hex_color. destruct (strtoul16 _) as [x|]; [right|by left].
    change 16777215 with (Z.ones 24). rewrite Z.land_ones by done. by apply Z.mod_pos_bound.
Qed.

(** [poll] waits for the next deadline: never past one that is armed, and unless
    a bus has undelivered messages not less. *)
Theorem poll_waits_for_next (s : Session) (now : Z) (buffered : bool) :
  Forall (fun p => 0 ≤ deadline_ms p) (pending_respawns s) →
  Forall (fun d => - 2 ^ 31 ≤ d - now < 2 ^ 31) (deadlines s) → deadlines s ≠ [] →
  let t := poll_timeout s now buffered in
  0 ≤ t ∧ Forall (fun d => t ≤ Z.max 0 (d - now)) (deadlines s) ∧
  (buffered = false → Exists (fun d => t = Z.max 0 (d - now)) (deadlines s)).
Proof.
  intros Hp Hr Hne. cbv zeta. unfold poll_timeout. pose proof (deadline_first s Hp) as Hd. cbv zeta in Hd.
  set (d := if (0 <=? _) && _ then _ else _) in *. clearbody d.
  destruct Hd as [[? _]|[Hin Hall]]; [done|].
  assert (Hd : 0 ≤ d ∧ s32 (d - now) = d - now).
  { rewrite Forall_forall in Hr. specialize (Hr _ Hin). split; [|by apply s32_id].
    pose proof (deadlines_pos s Hp) as Hpos. rewrite Forall_forall in Hpos. by apply Hpos. }
  destruct Hd as [Hd ->]. rewrite (proj2 (Z.leb_le _ _) Hd). destruct buffered.
  - split; [done|]. split; [|done]. eapply Forall_impl; [exact Hall|]. cbn. lia.
  - split; [lia|]. split; [eapply Forall_impl; [exact Hall|]; cbn; lia|].
    intros _. apply Exists_exists. by exists d.
Qed.

(** A settings change turns the blanking of the screen on again although there
    are inhibitors: the screen does not follow them any more. *)
Theorem power_reload_ignores_inhibitors `{Host} (cfg : config) (t : table) (w : World) :
  host (calls w) LoadConfig = Some cfg → cfg (str "power") = Some t →
  server_context (ses w) = true → 0 < inhibit_count (ses w) →
  config_int t (str "screen_off_sec") 600 ≠ 0 →
  wp no_fault apply_power_settings (fun _ w' => ¬ screen_follows w') w.
Proof.
  intros Hl Hc Hs Hi Hn. unfold apply_power_settings. apply wp_bind, (wp_scall _ LoadConfig).
  rewrite Hl, Hc. do 3 apply wp_bind, wp_modify. apply wp_bind, wp_gets. cbn.
  apply wp_when; [|congruence]. intros _. apply (wp_scall _ (Dpms _ _ _)).
  intros Hf. specialize (Hf Hs). cbn in Hf. rewrite (proj2 (Z.ltb_lt _ _) Hi) in Hf.
  destruct Hf as [Hf _]. cbn in Hf. apply Hn. injection Hf as Hf _ _. exact Hf.
Qed.

(** When the overlay dies between the two waits of one SIGCHLD its pid stays in
    [confirm_pid], and no confirmation is shown any more. *)
Theorem stolen_overlay_blocks_confirmations `{Host} (w : World) :
  0 < confirm_pid (ses w) →
  host (calls w) (WaitNoHang (confirm_pid (ses w))) = None →
  wp any_fault sigchld_dispatch (fun _ w' => confirm_pid (ses w') = confirm_pid (ses w) ∧
    ∀ action, show_confirmation action w' = Ok tt w') w.
Proof.
  intros Hp Hn. assert (Hk : steps (fun w w' => confirm_pid (ses w') = confirm_pid (ses w)) child_reap).
  { assert (Hc : ∀ c, steps (fun w w' => confirm_pid (ses w') = confirm_pid (ses w)) (call c)) by done.
    assert (Hf : ∀ p ch, steps (fun w w' => confirm_pid (ses w') = confirm_pid (ses w)) (fork p ch)).
    { intros p ch w1. unfold wp, fork. destruct (host (calls w1) (SFork p)); [|done]. by destruct (ch _). }
    apply steps_bind; [apply _|apply Hc|]. intros ps. induction ps as [|p ps IH]; [apply steps_skip; apply _|].
    cbn [for_each]. apply steps_bind; [apply _| |done].
    unfold reap_one, respawn_child, child_remove, child_spawn, now_ms, upd_s, get_s.
    repeat (first [apply Hc | apply Hf | steps_step | apply steps_modify; done]). }
  unfold sigchld_dispatch. apply wp_bind. unfold confirm_reap. apply wp_bind, wp_gets.
  rewrite (proj2 (Z.leb_gt _ _) Hp). apply wp_bind, (wp_scall _ (WaitNoHang _)). rewrite Hn. apply wp_ret.
  eapply wp_mono; [apply Hk|]. cbn beta. intros _ w' E. cbn in E. split; [done|]. intros action.
  unfold show_confirmation, mbind, prog_bind, get_s, gets. rewrite E. by rewrite (proj2 (Z.ltb_lt _ _) Hp).
Qed.

(** ** isde-session: the theorems on concrete sessions *)

Definition demo_autostart : list aline :=
  [Comment [] (str " started with the session"); Entry [] (Some []) (str "isde-clip --daemon") [];
   Blank (str "  "); Entry (str " ") None (str "nm-applet") (str " ")].

(** Seven seconds after boot: the panel, pid 11, and the window manager, pid 10,
    have died; the overlay for a confirmation is accepted. *)
Definition demo_host : Host := fun h c =>
  match c as c return sresult c with
  | Now => 7000
  | SFork _ => Some 20%positive
  | ReapAll => [(11%positive, Signaled 11); (10%positive, Exited 1)]
  | WaitNoHang _ => Some (Exited 0)
  | Getenv _ => None | Exec _ _ => true | LoadConfig => None | MakePipe => Some (3, 4)
  | Access _ => false
  | ReadFile p => if decide (p = str "autostart") then Some (join_lines (map print_aline demo_autostart)) else None
  | ReadDir _ => None | Connect => false | IdleTime => None | PaintImage _ => false | EwmhInit => false
  | ClientList => [] | SettingsBus => false | SystemBus => true | SessionBus => true | RequestName _ => true
  | _ => tt
  end.
#[local] Existing Instance demo_host.

(** The window manager has run for long, the panel crashed soon after its fourth start. *)
Definition crashed_session : Session := initial_session
  <| children := [mkChild 11 (str "isde-panel-x11") true false true 6000 3;
                  mkChild 10 (str "isde-wm") true true false 100 2] |>
  <| sigchld_pipe := (3, 4) |> <| session_bus := true |> <| check_deadline_ms := 7200 |> <| running := true |>.
Definition demo_world : World := mkWorld crashed_session [] [].
Definition demo_round : sready := mkSReady None true [] [].

Lemma demo_inv : Inv true demo_world.
Proof.
  split; [split|split]; [by vm_compute|by repeat constructor|by constructor|done|done|by left].
Qed.

(** The panel waits for its fourth respawn, the window manager runs again. *)
Lemma components_kept_witness :
  (wp no_fault (session_round demo_round) (fun _ w' => running (ses w') = true →
    ∃ lost, supervised crashed_session ≡ₚ lost ++ supervised (ses w') ∧
      Forall (fun x => fork_failed (calls w') x ∨ exhausted (children crashed_session) x) lost) demo_world) ∧
  match session_round demo_round demo_world with
  | Ok _ w' => map pid (children (ses w')) = [20] ∧ map deadline_ms (pending_respawns (ses w')) = [15000]
  | Fault _ => False
  end.
Proof.
  split; [|by vm_compute]. apply (components_kept demo_round demo_world). exact demo_inv.
Defined.

Definition saver_call (member : text) (sender : text) (cookie : option Z) : DBusMessage :=
  mkMessage false SCREENSAVER_DBUS_IFACE member SCREENSAVER_DBUS_PATH (Some sender) None
    (Some (str "player", str "video")) None cookie None.

(** The session with a connection to the server; its screen is not in line yet. *)
Definition shown_world : World := demo_world <| ses := crashed_session <| server_context := true |> |>.

Lemma inhibitors_refine_bag_witness :
  let ms := [saver_call (str "Inhibit") (str ":1.7") None; saver_call (str "Inhibit") (str ":1.9") None;
             saver_call (str "UnInhibit") (str ":1.7") (Some 1)] in
  wp no_fault (session_bus_input_ready ms) (fun _ w' =>
    inhibitors_fit (ses w') ∧ bag_run ms (bag_of (ses shown_world)) (bag_of (ses w')) ∧
    (screen_follows shown_world ∨ active (ses w') ≠ active (ses shown_world) → screen_follows w')) shown_world ∧
  ¬ screen_follows shown_world ∧
  match session_bus_input_ready ms shown_world with
  | Ok _ w' => bag_of (ses w') = (2, [(2, str ":1.9")]) ∧ unblanked (calls w')
  | Fault _ => False
  end.
Proof.
  intros ms. split; [|split; [intros Hs; by destruct (Hs eq_refl)|by vm_compute]].
  apply (inhibitors_refine_bag ms shown_world); by vm_compute.
Defined.

Lemma demo_autostart_good : Forall good_aline demo_autostart.
Proof.
  assert (Hn : ∀ c (t : text), bool_decide (c ∈ t) = false → c ∉ t) by (intros c t; apply bool_decide_eq_false).
  repeat (constructor; [split; [apply Hn; by vm_compute|]; split; [apply Hn; by vm_compute|];
    split; [cbn; lia|]|]); try done; cbn; repeat (split || constructor); try done.
Qed.

Lemma autostart_file_read_witness :
  wp no_fault (autostart_load (str "autostart")) (fun found w' =>
    found = true ∧ calls w' = [ReadFile (str "autostart")] ∧
    ses w' = crashed_session <| autostart := [(str "isde-clip --daemon", true); (str "nm-applet", false)] |>)
    demo_world.
Proof. apply (autostart_file_read (str "autostart") demo_autostart demo_world demo_autostart_good). reflexivity. Defined.

Lemma poll_waits_for_next_witness :
  let t := poll_timeout crashed_session 7000 false in
  t = 200 ∧ 0 ≤ t ∧ Forall (fun d => t ≤ Z.max 0 (d - 7000)) [7200] ∧
  (false = false → Exists (fun d => t = Z.max 0 (d - 7000)) [7200]).
Proof.
  split; [by vm_compute|]. apply (poll_waits_for_next crashed_session 7000 false); [by constructor| |done].
  repeat constructor; done.
Defined.
